(* ===== verification/_CoqProject ===== *)
-Q . S2P
Prelude.v
Page.v
Block.v
Buffer.v
BlockList.v
LinkedBytes.v
SegmentIO.v
LinkedItems.v
PgUtils.v
Query.v
RangeQuery.v
CustomScan.v
WhereClause.v
Tokens.v
WordTokens.v
TokenizerConfig.v
Schema.v
Options.v
Rows.v
Api.v
Reader.v
Parallel.v
ScanExec.v
FastFields.v
FastFieldExec.v
Operator.v
AmScan.v
Planner.v
Snippets.v
MergePolicy.v
Directory.v
Bootstrap.v
Commit.v
Writer.v
Channel.v
PgRef.v
QueryRef.v
SchemaRef.v
SchemaWitnesses.v
QueryWitnesses.v
WriterWitnesses.v
Witnesses.v
ChannelWitnesses.v
ScanWitnesses.v
FastFieldWitnesses.v
OperatorWitnesses.v
AmScanWitnesses.v
PlannerWitnesses.v
WordTokensWitnesses.v
SnippetsWitnesses.v
BootstrapWitnesses.v
