(* ===== verification/Prelude.v ===== *)
(** * pg_search: a verification library

    [pg_search] (ParadeDB) is a Postgres extension whose index access method, [bm25],
    stores a Tantivy full text index in the pages of a Postgres relation.  This library
    models the parts of it that carry its own logic, in the order a byte travels, and
    proves what makes them correct.  Names are the source's where Rocq allows it.
    Paths below are under [src/pg_search/src] unless they say otherwise.

    ** The program's parts, and the files that model them

    - Pages and buffers.  [Page.v]: a buffer's page as the code sees it, with the line
      pointers and special area of [postgres/storage/{block,buffer}.rs] ([Page], [PageMut]).
      [Block.v]: the records stored on pages and their transaction stamps ([SegmentMetaEntry],
      [LinkedListData], [MVCCEntry], the freeze limit).  [Buffer.v]: the relation ([Rel]), the
      [BufferManager] that hands out buffers and reuses recyclable pages, vacuum's page
      sweep.
    - Lists over pages.  [BlockList.v]: the compressed list of a file's block numbers
      ([blocklist.rs]).  [LinkedBytes.v]: byte streams over linked pages
      ([linked_bytes.rs]).  [LinkedItems.v]: lists of entries over linked pages, with
      garbage collection ([linked_items.rs]).
    - Segment files.  [SegmentIO.v]: [ExactBuffer], [SegmentComponentWriter] and
      [SegmentComponentReader] ([index/writer], [index/reader]).
    - The directory.  [MergePolicy.v]: the merge policy and the merge lock.  [Directory.v]:
      [MVCCDirectory] - loading the segments a snapshot sees, saving schema and settings -
      and the layout of a new index.  [Commit.v]: [save_new_metas], refined to an abstract
      commit on the list of entries.  [Channel.v]: the protocol between Tantivy's thread
      and the backend that does its I/O ([index/directory/channel.rs]), as a step relation,
      and the handler of its requests.
    - Scans.  [Parallel.v]: the shared state of a parallel index scan and its participants
      ([postgres/parallel.rs], [postgres/mod.rs]).  [Reader.v]: searches and the iterator of
      their results ([index/reader/index.rs]).  [AmScan.v]: the access method's scans - plain,
      index only, bitmap and parallel - and their cost ([postgres/scan.rs], [postgres/cost.rs]).
    - Custom scans ([postgres/customscan/pdbscan]).  [CustomScan.v]: the planner's clauses as
      [Qual]s, the private data of a plan as a list of nodes, and the executor's state made
      from it ([qual_inspect.rs], [privdat.rs], [mod.rs]).  [WhereClause.v]: what the query of
      a WHERE clause matches.  [ScanExec.v]: the exec methods, normal and top-n, under the
      executor's loop ([exec_methods.rs], [exec_methods/normal.rs], [exec_methods/top_n.rs]).
      [FastFields.v]: columns as values ([index/fast_fields_helper.rs]), the targets they can
      answer and the datum of each ([exec_methods/fast_fields/mod.rs], [projections/score.rs]).
      [FastFieldExec.v]: the exec methods that fill slots from columns, numeric and string, the
      latter with its own search grouped by terms ([exec_methods/fast_fields/numeric.rs],
      [string.rs]).  [Planner.v]: the path the scan offers - limit, order, costs, workers - how
      the hook submits it, and the choice of the exec method ([mod.rs],
      [customscan/builders/custom_path.rs], [customscan/hook.rs], [projections/mod.rs]).
      [Snippets.v]: scores and snippets in a row ([projections/snippet.rs],
      [projections/mod.rs], [scan_state.rs], [postgres/visibility_checker.rs], [mod.rs]).
    - SQL.  [Api.v]: the functions that build queries ([api/index.rs]).  [Operator.v]: the
      operator [@@@] - its rewriting to a query on the key, its evaluation outside of index
      scans and its selectivity ([api/operator.rs] and the files of [api/operator]).
      [Bootstrap.v]: the text of CREATE INDEX, and what an index is made of
      ([bootstrap/create_bm25.rs]).
    - Queries.  [PgUtils.v]: tuple addresses as [u64]s and the conversion of dates
      ([postgres/utils.rs], [postgres/datetime.rs]).  [Query.v]: [SearchQueryInput] and its
      conversion to Tantivy queries ([query/mod.rs], [query/range.rs]).  [RangeQuery.v]: what
      Postgres ranges become in the index ([schema/range.rs], [postgres/range.rs]) and what
      the converted queries match of it.
    - Tokenizers (under [src/tokenizers/src]).  [Tokens.v]: the source code and the Chinese
      tokenizers.  [WordTokens.v]: ICU's and Lindera's.  [TokenizerConfig.v]: the configuration of tokenizers, their JSON form, their
      names and the manager.
    - Rows.  [Schema.v]: the types and configurations of fields, and the schema of an index
      ([schema/mod.rs]).  [Options.v]: the fields that the WITH clause of an index describes
      ([postgres/options.rs], [postgres/index.rs], [index/search.rs]).  [Rows.v]: datums as
      Tantivy values and rows as documents ([postgres/types.rs], [postgres/utils.rs]).
    - Writing.  [Writer.v]: the queue of operations ([index/writer/index.rs]), the rows of a
      statement before and since Postgres 17 ([postgres/insert.rs],
      [postgres/fake_aminsertcleanup.rs]), CREATE INDEX ([postgres/build.rs]) and vacuum
      ([postgres/delete.rs]).
    - [PgRef.v], [QueryRef.v], [SchemaRef.v]: reference instances of the external code,
      executable, so that the examples of [Witnesses.v], [QueryWitnesses.v],
      [SchemaWitnesses.v], [WriterWitnesses.v], [ChannelWitnesses.v], [ScanWitnesses.v],
      [FastFieldWitnesses.v], [OperatorWitnesses.v], [AmScanWitnesses.v], [PlannerWitnesses.v],
      [WordTokensWitnesses.v], [SnippetsWitnesses.v] and [BootstrapWitnesses.v] compute.

    How they interact: an index's options make its schema ([Options.v], [Schema.v]), a row
    becomes a document of it ([Rows.v]) that the writer queues and commits ([Writer.v]); a commit of Tantivy sends requests over the channel ([Channel.v]);
    the handler writes segment files ([SegmentIO.v]) through byte lists ([LinkedBytes.v]) whose
    block numbers go to a block list ([BlockList.v]), all on buffers of one relation
    ([Buffer.v]); [save_metas] then edits the list of segment entries ([Commit.v] on
    [LinkedItems.v]); a reader loads the entries its snapshot sees ([Directory.v]) and reads
    the files' ranges; a WHERE clause becomes a query in a plan ([CustomScan.v]), which is
    converted ([Query.v]) and run ([Reader.v], [ScanExec.v]), in parallel over segments
    ([Parallel.v]); where the custom scan does not apply, the operator reaches an index scan
    ([AmScan.v]) or is evaluated row by row ([Operator.v]); vacuum makes the pages of deleted files reusable ([Buffer.v],
    [LinkedItems.v]).

    ** Conventions

    Rust code that can panic or fail is a function into [outcome]; code that reads and writes
    the relation is in the state monad [M] over [Rel], the store of pages every component
    shares.  Integers are [Z] with their width written out where the code can leave it.  A
    Postgres lock is held for the duration of one model operation; concurrency is modelled
    where the code itself schedules (the channel, the parallel scan), by step relations.

    External code is a type class, whose fields are its documented behaviour: [PgPage] and
    [PgBuffers] (page and buffer primitives), [PgXact] (snapshots and transaction ids),
    [BitPacking], [TantivyIndex], [TantivySegments], [TantivySearch] (what a query matches),
    [TantivyReader] (scorers, columns and collectors), [TantivyColumns] (typed columns and the
    dictionaries of text), [StringAggOrder] (the order threads and hash maps come in), [PgDatum],
    [PgHeap] (visibility),
    [SerdeJson], [HashOrder] (the order hash maps are iterated in), [Unicode], [RustF64],
    [Chrono], [TantivySchema], [TantivyIndexWriter] (the operations a writer was given and
    those it committed), [PgDatums] and [PgrxTypes] (what datums decode to), [SerdeJsonText],
    [HashIteration], [PgCatalog] and [OperatorOids] (relations, indexes and oids), [QueryDatum],
    [SegmentStats], [RelStats] and [PlannerCosts] (statistics and settings), [HeapTuples] (index
    tuples), [PgPaths] (the planner's lists of paths), [HeapFetch] (tuples and chains of updates),
    [TantivySnippets], [PgExec] (the evaluation of expressions), [Icu], [Lindera] and others, each next to
    its first use.  Every class with laws has an instance in [PgRef.v], [QueryRef.v],
    [SchemaRef.v] or one of the witness files, so none of them is contradictory.

    ** What the theorems show

    - Round trips: segment files through writers and readers in any split ([SegmentIO.v]), and
      through the channel under every schedule ([Channel.v]); the block list; component paths;
      range documents; tuple addresses; tokenizer configurations; the private data of a plan; datums through
      Tantivy values; the schema of an index that is opened again, if no alias names another.
    - Functional behaviour: the fields of an index are those its options describe, if no alias
      names another, and when they can be made at all; the document
      of a row has exactly the values of its columns, in their order and of the types of their fields; every
      field finds its analyzers; the rows of a statement and of CREATE INDEX are committed once,
      in order, and vacuum deletes exactly the dead.
    - Refinement: [save_new_metas] implements the abstract commit; [wait_for] computes what the
      client computes when its requests are calls; an exec method with the contract
      [ExecMethodOk] makes a scan that returns exactly the visible documents, in their order, and
      the normal, top-n and both fast field methods have it; what a virtual slot holds is the
      document's own columns, whatever is cached and in whatever order segments merge.  Every
      call of a parallel index scan is a run of the step relation of [Parallel.v]; the text
      operator becomes one of the key field, names the table's newest valid index and reaches the
      custom scan as the parse of its text.
    - The rows of a custom scan have the scores and the snippets that are asked for, when no
      column has two snippets; else the first of them is null.
    - Index scans return each matching document once, plain, index only and bitmap; the operator
      outside of them holds for the tuples whose key is that of a match of its first call, which
      leaves the set of keys to the later ones.
    - Safety: no page in use is handed out, no live entry is garbage collected, freezing
      changes no visibility, a recyclable entry is invisible, an index only scan never writes
      past the tuple it reuses, the merge lock waits for the last merge, the schema is written once, a parallel scan returns each tuple once.
    - Termination and liveness: every loop over pages ends within the size of the relation;
      the tokenizers end, ICU's exactly on the texts it can leave; a parallel scan ends; a wait for the client can always end; swept
      pages are reused.
    - Equivalence: the range queries match exactly the documents whose range contains,
      intersects or is within the query's (or holds the term's value), on discrete, date and
      continuous types, and so do the SQL functions that build them; the source code tokenizer
      is a local cutting rule on Rust's classes of characters, not on those its comment gives.
      The query of a WHERE clause without NOT matches where the clause holds.
    - Types, bounds and errors: the string fast field method drops rows whose text is null;
      expressions in a target list are lost in virtual rows; a NOT in a WHERE clause matches nothing; a top-n scan stops
      short of its limit, and looks at the first sort key only; the order a path claims is the
      first key's, whatever the executor sorts by; a rescan returns nothing; terms have the type of their field; integer bounds become
      canonical except at the end of their type, where they overflow; a clause's conjunction
      mode leaks into later clauses; a term set ignores the path of its fields; a query term without a
      field panics when there is an alias; some types the schema accepts cannot be inserted; the
      insert state before Postgres 17 is shared between statements; a read at
      the end of a full file panics; the freeze limit wraps.

    ** Fuel and bounds

    Loops over linked pages take as fuel the number of blocks of the relation: a list without
    cycles is not longer, and the theorems prove that the fuel is not used up ([NoFuel] is
    never the result).  Loops over bytes take their length; [stream_tokens] one call per
    character and one more; [write_all] the number of bytes; [next_all] one iteration per
    iterator and one more; a scan one call per document and one more, and one query per
    segment and one more, as the loop of [amgettuple]; ICU's tokenizer one iteration per piece
    of its segmentation and one more.  Relations are assumed to have
    room: fewer than [InvalidBlockNumber] blocks after the write.

    ** Not modelled, and why

    - Page contents below the line pointers, WAL, buffer eviction and the locks of other
      backends inside one operation: Postgres's own code, behind [PgPage] and [PgBuffers].
    - Tantivy: indexing, query execution, merging; only what the code relies on is stated.
    - The serde derives of the schema's types; the registration of the index options with
      Postgres; memory contexts and progress logging of CREATE INDEX.  The writer's operations
      and the pages of [Commit.v] are two views of a commit: Tantivy's indexing is between them.
    - Of [api]: the JSON form of queries (serde), [config.rs] and [tokenize.rs] (SQL text).
    - Of custom scans: EXPLAIN, and [placeholder_support], which wraps a call in a planner
      node; an exec method's heap and visibility map are fixed for a scan, as its snapshot
      sees them.
    - [gucs.rs], [telemetry], [github.rs], [bootstrap/test_table.rs], [cargo-paradedb]:
      settings, I/O and SQL text; [index_info] and [validate_checksum] of [bootstrap], which
      copy what Tantivy reports. *)

From stdpp Require Export base fin_maps gmap fin_sets list numbers strings sorting.
From Stdlib Require Export ZArith Lia.

Open Scope Z_scope.

(** ** Outcomes and the state monad *)

(** The result of running a piece of Rust: a value, an [Err], a panic (an
    [assert!], [expect], [unwrap], out-of-range index or Postgres ERROR), or
    the exhaustion of the fuel a loop was given.  Termination theorems rule
    the last one out. *)
Inductive outcome (A : Type) : Type :=
  | Ok (a : A)
  | Err (msg : string)
  | Panic (msg : string)
  | NoFuel.
Arguments Ok {A} a.
Arguments Err {A} msg.
Arguments Panic {A} msg.
Arguments NoFuel {A}.

#[global] Instance outcome_ret : MRet outcome := @Ok.
#[global] Instance outcome_bind : MBind outcome := λ A B f m,
  match m with
  | Ok a => f a
  | Err e => Err e
  | Panic e => Panic e
  | NoFuel => NoFuel
  end.

(** State passing over a shared store [S]. *)
Definition M (S A : Type) : Type := S → outcome (A * S).

#[global] Instance M_ret S : MRet (M S) := λ A a s, Ok (a, s).
#[global] Instance M_bind S : MBind (M S) := λ A B f m s,
  match m s with
  | Ok (a, s') => f a s'
  | Err e => Err e
  | Panic e => Panic e
  | NoFuel => NoFuel
  end.

Definition panic {S A} (msg : string) : M S A := λ _, Panic msg.
Definition fail {S A} (msg : string) : M S A := λ _, Err msg.
Definition no_fuel {S A} : M S A := λ _, NoFuel.
Definition gets {S A} (f : S → A) : M S A := λ s, Ok (f s, s).
Definition modify {S} (f : S → S) : M S unit := λ s, Ok (tt, f s).

(** a computation that does not touch the store *)
Definition lift {S A} (o : outcome A) : M S A := λ s,
  match o with
  | Ok a => Ok (a, s)
  | Err e => Err e
  | Panic e => Panic e
  | NoFuel => NoFuel
  end.

(** [assert!(b)] *)
Definition assert {S} (b : bool) (msg : string) : M S unit :=
  if b then mret tt else panic msg.

(** [opt.expect(msg)] *)
Definition expect {S A} (o : option A) (msg : string) : M S A :=
  match o with Some a => mret a | None => panic msg end.

(** [for x in l { body }] *)
Fixpoint for_each {S A} (l : list A) (body : A → M S unit) : M S unit :=
  match l with
  | [] => mret tt
  | x :: l' => body x ≫= λ _, for_each l' body
  end.

Section monad_lemmas.
Context {S : Type}.

Lemma bind_ok {A B} (m : M S A) (k : A → M S B) (s s' : S) (a : A) :
  m s = Ok (a, s') → (m ≫= k) s = k a s'.
Proof. intros H. unfold mbind, M_bind. by rewrite H. Qed.

Lemma bind_assoc {A B C} (m : M S A) (f : A → M S B) (g : B → M S C) (s : S) :
  ((m ≫= f) ≫= g) s = (m ≫= λ a, f a ≫= g) s.
Proof. unfold mbind, M_bind. by destruct (m s) as [[]| | |]. Qed.

Lemma bind_panic {A B} (m : M S A) (k : A → M S B) (s : S) msg :
  m s = Panic msg → (m ≫= k) s = Panic msg.
Proof. intros H. unfold mbind, M_bind. by rewrite H. Qed.

Lemma ret_run {A} (a : A) (s : S) : (mret a : M S A) s = Ok (a, s).
Proof. done. Qed.

Lemma for_each_app {A} (l1 l2 : list A) (body : A → M S unit) (s s' : S) :
  for_each l1 body s = Ok (tt, s') →
  for_each (l1 ++ l2) body s = for_each l2 body s'.
Proof.
  revert s. induction l1 as [|x l1 IH]; intros s; simpl.
  - intros [= ->]. done.
  - unfold mbind, M_bind. destruct (body x s) as [[[] s1]| | |]; try done.
    apply IH.
Qed.
End monad_lemmas.

Lemma bind_inv {S A B} (m : M S A) (k : A → M S B) s b s'' :
  (m ≫= k) s = Ok (b, s'') → ∃ a s', m s = Ok (a, s') ∧ k a s' = Ok (b, s'').
Proof. unfold mbind, M_bind. destruct (m s) as [[a s']| | |]; [eauto|done..]. Qed.

Lemma lift_ok {S A} (x : outcome A) a (s : S) : x = Ok a → lift x s = Ok (a, s).
Proof. by intros ->. Qed.

Lemma lift_inv {S A} (o : outcome A) (s s' : S) a : lift o s = Ok (a, s') → s' = s ∧ o = Ok a.
Proof. destruct o; [|done..]. by intros [= -> ->]. Qed.

Lemma obind_inv {A B} (m : outcome A) (k : A → outcome B) b :
  m ≫= k = Ok b → ∃ a, m = Ok a ∧ k a = Ok b.
Proof. destruct m; [eauto|done..]. Qed.

(** filtering by conditions that agree on the list *)
Lemma filter_ext_in {A} (P Q : A → Prop) `{∀ x, Decision (P x), ∀ x, Decision (Q x)} (l : list A) :
  (∀ x, x ∈ l → P x ↔ Q x) → filter P l = filter Q l.
Proof.
  induction l as [|x l IH]; intros Hx; [done|]. rewrite !filter_cons.
  rewrite IH by (intros; apply Hx; by right).
  pose proof (Hx x ltac:(left)). repeat case_decide; tauto.
Qed.

(** ** Automation *)

(** Case analysis on every integer comparison of the goal and the hypotheses. *)
Ltac zcmp :=
  repeat match goal with
  | |- context [?a <=? ?b] => destruct (Z.leb_spec a b)
  | |- context [?a <? ?b] => destruct (Z.ltb_spec a b)
  | |- context [?a =? ?b] => destruct (Z.eqb_spec a b)
  | H : context [?a <=? ?b] |- _ => destruct (Z.leb_spec a b)
  | H : context [?a <? ?b] |- _ => destruct (Z.ltb_spec a b)
  | H : context [?a =? ?b] |- _ => destruct (Z.eqb_spec a b)
  end; simpl in *; try done; try lia.

(** ** Lists indexed by [Z] *)

Definition zlen {A} (l : list A) : Z := Z.of_nat (length l).
Definition ztake {A} (n : Z) (l : list A) : list A := take (Z.to_nat n) l.
Definition zdrop {A} (n : Z) (l : list A) : list A := drop (Z.to_nat n) l.
(** [&l[start..start + len]] of a slice known to be long enough *)
Definition zslice {A} (start len : Z) (l : list A) : list A := ztake len (zdrop start l).
(** [l[start..start + bs.len()].copy_from_slice(bs)] *)
Definition zwrite {A} (start : Z) (bs l : list A) : list A :=
  ztake start l ++ bs ++ zdrop (start + zlen bs) l.
Definition znth {A} (l : list A) (i : Z) : option A :=
  if 0 <=? i then l !! Z.to_nat i else None.

(** [l[i]] and [&l[start..end]]; out of range they panic *)
Definition index {A} (l : list A) (i : Z) : outcome A :=
  match znth l i with Some x => Ok x | None => Panic "index out of bounds" end.
Definition index_range {A} (l : list A) (start end_ : Z) : outcome (list A) :=
  if (0 <=? start) && (start <=? end_) && (end_ <=? zlen l)
  then Ok (zslice start (end_ - start) l)
  else Panic "range end index out of range for slice".
(** [&l[start..]] *)
Definition index_from {A} (l : list A) (start : Z) : outcome (list A) :=
  index_range l start (zlen l).

Section zlist.
Context {A : Type}.
Implicit Types l : list A.

Lemma zlen_nonneg l : 0 ≤ zlen l.
Proof. unfold zlen. lia. Qed.
Lemma zlen_nil : zlen (@nil A) = 0.
Proof. done. Qed.
Lemma zlen_cons x l : zlen (x :: l) = 1 + zlen l.
Proof. unfold zlen. simpl. lia. Qed.
Lemma zlen_app l1 l2 : zlen (l1 ++ l2) = zlen l1 + zlen l2.
Proof. unfold zlen. rewrite length_app. lia. Qed.
Lemma zlen_zero l : zlen l = 0 → l = [].
Proof. destruct l; [done|]. rewrite zlen_cons. pose proof (zlen_nonneg l). lia. Qed.
Lemma zlen_ztake n l : 0 ≤ n ≤ zlen l → zlen (ztake n l) = n.
Proof. unfold zlen, ztake. rewrite length_take. lia. Qed.
Lemma zlen_ztake_min n l : 0 ≤ n → zlen (ztake n l) = Z.min n (zlen l).
Proof. unfold zlen, ztake. rewrite length_take. lia. Qed.
Lemma zlen_zdrop n l : 0 ≤ n ≤ zlen l → zlen (zdrop n l) = zlen l - n.
Proof. unfold zlen, zdrop. rewrite length_drop. lia. Qed.
Lemma zlen_zslice s n l : 0 ≤ s → 0 ≤ n → s + n ≤ zlen l → zlen (zslice s n l) = n.
Proof.
  intros. unfold zslice. rewrite zlen_ztake; [done|]. rewrite zlen_zdrop; lia.
Qed.
Lemma ztake_zdrop n l : ztake n l ++ zdrop n l = l.
Proof. apply take_drop. Qed.
Lemma ztake_app_exact n l1 l2 : zlen l1 = n → ztake n (l1 ++ l2) = l1.
Proof. unfold zlen, ztake. intros <-. rewrite Nat2Z.id. apply take_app_length. Qed.
Lemma zdrop_app_exact n l1 l2 : zlen l1 = n → zdrop n (l1 ++ l2) = l2.
Proof. unfold zlen, zdrop. intros <-. rewrite Nat2Z.id. apply drop_app_length. Qed.
Lemma zdrop_app_ge n l1 l2 : zlen l1 ≤ n → zdrop n (l1 ++ l2) = zdrop (n - zlen l1) l2.
Proof.
  unfold zlen, zdrop. intros. rewrite drop_app_ge by lia. f_equal. lia.
Qed.
Lemma zdrop_app_le n l1 l2 : 0 ≤ n ≤ zlen l1 → zdrop n (l1 ++ l2) = zdrop n l1 ++ l2.
Proof. unfold zlen, zdrop. intros. rewrite drop_app_le by lia. done. Qed.
Lemma ztake_app_le n l1 l2 : n ≤ zlen l1 → ztake n (l1 ++ l2) = ztake n l1.
Proof. unfold zlen, ztake. intros. rewrite take_app_le by lia. done. Qed.
Lemma ztake_app_ge n l1 l2 : zlen l1 ≤ n → ztake n (l1 ++ l2) = l1 ++ ztake (n - zlen l1) l2.
Proof. unfold zlen, ztake. intros. rewrite take_app_ge by lia. repeat f_equal. lia. Qed.
Lemma ztake_ge n l : zlen l ≤ n → ztake n l = l.
Proof. unfold zlen, ztake. intros. apply take_ge. lia. Qed.
Lemma zdrop_ge n l : zlen l ≤ n → zdrop n l = [].
Proof. unfold zlen, zdrop. intros. apply drop_ge. lia. Qed.
Lemma zdrop_0 l : zdrop 0 l = l.
Proof. done. Qed.
Lemma ztake_0 l : ztake 0 l = [].
Proof. done. Qed.
Lemma ztake_ztake n m l : n ≤ m → ztake n (ztake m l) = ztake n l.
Proof. unfold ztake. intros. rewrite take_take. f_equal. lia. Qed.
Lemma zdrop_zdrop n m l : 0 ≤ n → 0 ≤ m → zdrop n (zdrop m l) = zdrop (m + n) l.
Proof. unfold zdrop. intros. rewrite drop_drop. f_equal. lia. Qed.
Lemma zslice_app n m l s :
  0 ≤ s → 0 ≤ n → 0 ≤ m → zslice s n l ++ zslice (s + n) m l = zslice s (n + m) l.
Proof.
  unfold zslice, ztake, zdrop. intros.
  replace (Z.to_nat (s + n)) with (Z.to_nat s + Z.to_nat n)%nat by lia.
  replace (Z.to_nat (n + m)) with (Z.to_nat n + Z.to_nat m)%nat by lia.
  rewrite <- drop_drop. apply take_take_drop.
Qed.
Lemma zslice_app_l s n l1 l2 :
  0 ≤ s → s + n ≤ zlen l1 → zslice s n (l1 ++ l2) = zslice s n l1.
Proof.
  intros. unfold zslice. destruct (Z.le_gt_cases s (zlen l1)).
  - rewrite zdrop_app_le by lia. apply ztake_app_le. rewrite zlen_zdrop by lia. lia.
  - unfold ztake. replace (Z.to_nat n) with 0%nat by lia. done.
Qed.
Lemma zslice_app_r s n l1 l2 :
  zlen l1 ≤ s → zslice s n (l1 ++ l2) = zslice (s - zlen l1) n l2.
Proof. intros. unfold zslice. by rewrite zdrop_app_ge. Qed.
Lemma zslice_nil s n : zslice s n (@nil A) = [].
Proof. unfold zslice, ztake, zdrop. by rewrite drop_nil, take_nil. Qed.

Lemma zlen_zwrite s bs l :
  0 ≤ s → s + zlen bs ≤ zlen l → zlen (zwrite s bs l) = zlen l.
Proof.
  intros. pose proof (zlen_nonneg bs). unfold zwrite.
  rewrite !zlen_app, zlen_ztake, zlen_zdrop by lia. lia.
Qed.
Lemma ztake_zwrite s bs l :
  0 ≤ s → s + zlen bs ≤ zlen l →
  ztake (s + zlen bs) (zwrite s bs l) = ztake s l ++ bs.
Proof.
  intros. pose proof (zlen_nonneg bs). unfold zwrite. rewrite app_assoc.
  apply ztake_app_exact. rewrite zlen_app, zlen_ztake by lia. lia.
Qed.
Lemma znth_lookup l i : 0 ≤ i → znth l i = l !! Z.to_nat i.
Proof. intros. unfold znth. destruct (Z.leb_spec 0 i); [done|lia]. Qed.
Lemma index_app_cons l1 x l2 : index (l1 ++ x :: l2) (zlen l1) = Ok x.
Proof.
  unfold index. rewrite znth_lookup by apply zlen_nonneg. unfold zlen.
  rewrite Nat2Z.id. by rewrite list_lookup_middle.
Qed.
Lemma index_range_mid l1 l2 l3 :
  index_range (l1 ++ l2 ++ l3) (zlen l1) (zlen l1 + zlen l2) = Ok l2.
Proof.
  pose proof (zlen_nonneg l1). pose proof (zlen_nonneg l2). pose proof (zlen_nonneg l3).
  unfold index_range. rewrite !zlen_app. zcmp.
  unfold zslice. rewrite zdrop_app_exact by done. rewrite ztake_app_exact; [done|lia].
Qed.
Lemma index_from_app l1 l2 : index_from (l1 ++ l2) (zlen l1) = Ok l2.
Proof.
  pose proof (zlen_nonneg l1). pose proof (zlen_nonneg l2).
  unfold index_from, index_range. rewrite !zlen_app. zcmp.
  unfold zslice. rewrite zdrop_app_exact by done. by rewrite ztake_ge by lia.
Qed.

Lemma Exists_iff (P Q : A → Prop) l : (∀ x, P x ↔ Q x) → Exists P l ↔ Exists Q l.
Proof. intros HPQ. rewrite !Exists_exists. split; intros (x & ? & ?%HPQ); eauto. Qed.
End zlist.

Create HintDb zlist.
#[export] Hint Rewrite @zlen_app @zlen_cons @zlen_nil : zlist.
#[export] Hint Resolve zlen_nonneg : zlist.

(** ** Little-endian integers *)

Fixpoint le_bytes (n : nat) (z : Z) : list Z :=
  match n with
  | O => []
  | S n' => z mod 256 :: le_bytes n' (z / 256)
  end.
Fixpoint of_le_bytes (l : list Z) : Z :=
  match l with
  | [] => 0
  | b :: l' => b + 256 * of_le_bytes l'
  end.

Lemma length_le_bytes n z : length (le_bytes n z) = n.
Proof. revert z. induction n; intros; simpl; auto. Qed.
Lemma zlen_le_bytes n z : zlen (le_bytes n z) = Z.of_nat n.
Proof. unfold zlen. by rewrite length_le_bytes. Qed.

Lemma of_le_bytes_le_bytes n z :
  0 ≤ z < 256 ^ Z.of_nat n → of_le_bytes (le_bytes n z) = z.
Proof.
  revert z. induction n as [|n IH]; intros z Hz; simpl.
  - change (256 ^ Z.of_nat 0) with 1 in Hz. lia.
  - rewrite Nat2Z.inj_succ, Z.pow_succ_r in Hz by lia.
    rewrite IH.
    + pose proof (Z.div_mod z 256). lia.
    + split; [apply Z.div_pos; lia|]. apply Z.div_lt_upper_bound; lia.
Qed.

(** Unsigned widths. *)
Definition u16_max : Z := 2 ^ 16 - 1.
Definition u32_max : Z := 2 ^ 32 - 1.
Definition u64_max : Z := 2 ^ 64 - 1.
Definition is_u32 (z : Z) : Prop := 0 ≤ z ≤ u32_max.
#[global] Instance is_u32_dec z : Decision (is_u32 z).
Proof. unfold is_u32. apply _. Defined.

(** [u32] addition, checked *)
Definition add_u32 (a b : Z) : outcome Z :=
  if a + b <=? u32_max then Ok (a + b) else Panic "attempt to add with overflow".

Definition u32_le_bytes (z : Z) : list Z := le_bytes 4 z.
#[global] Arguments u32_le_bytes : simpl never.
#[global] Arguments of_le_bytes : simpl never.
Lemma zlen_u32_le z : zlen (u32_le_bytes z) = 4.
Proof. done. Qed.
Lemma of_le_u32 z : is_u32 z → of_le_bytes (u32_le_bytes z) = z.
Proof.
  unfold is_u32, u32_max, u32_le_bytes. intros. apply of_le_bytes_le_bytes.
  change (256 ^ Z.of_nat 4) with (2 ^ 32). lia.
Qed.
