(* ===== verification/Page.v ===== *)
(** * Page: a buffer page and the operations of [Page] and [PageMut]

    Models [pg_search/src/postgres/storage/buffer.rs] (the page half), the page
    special data, [LinkedListData], [MergeLockData] and [bm25_max_free_space] of
    [block.rs], and [BM25Page::read_item] of [utils.rs].  Postgres' own page
    primitives ([PageInit], [PageAddItemExtended], ...) are the class [PgPage]
    with the behaviour [bufpage.c] documents as its laws. *)

From S2P Require Import Prelude.

Open Scope Z_scope.

(** ** What Postgres was built with *)

(** Compile-time facts of the Postgres the extension links against. *)
Class PgBuild := {
  BLCKSZ : Z;
  MAXALIGN : Z → Z;
  (** [offset_of!(pg_sys::PageHeaderData, pd_linp)], also [SizeOfPageHeaderData] *)
  offset_of_pd_linp : Z;
  BLCKSZ_range : 1024 ≤ BLCKSZ ≤ 32768;
  offset_of_pd_linp_range : 0 ≤ offset_of_pd_linp ≤ 24;
  MAXALIGN_8 : MAXALIGN 8 = 8;
  MAXALIGN_pd_linp : MAXALIGN offset_of_pd_linp = offset_of_pd_linp
}.

Definition InvalidBlockNumber : Z := 4294967295.
Definition InvalidTransactionId : Z := 0.
Definition FrozenTransactionId : Z := 2.
Definition FirstNormalTransactionId : Z := 3.
Definition InvalidOffsetNumber : Z := 0.
Definition FirstOffsetNumber : Z := 1.

(** Struct for all page's LP_SPECIAL data *)
Record BM25PageSpecialData := {
  next_blockno : Z;
  xmax : Z
}.
Definition size_of_BM25PageSpecialData : Z := 8.

Definition bm25_max_free_space `{PgBuild} : Z :=
  BLCKSZ - MAXALIGN size_of_BM25PageSpecialData - MAXALIGN offset_of_pd_linp.

Lemma bm25_max_free_space_range `{PgBuild} : 992 ≤ bm25_max_free_space ≤ 32760.
Proof.
  unfold bm25_max_free_space, size_of_BM25PageSpecialData.
  rewrite MAXALIGN_8, MAXALIGN_pd_linp.
  pose proof BLCKSZ_range. pose proof offset_of_pd_linp_range. lia.
Qed.

(** A line pointer with the item it points to. *)
Record ItemId := {
  lp_normal : bool;
  lp_item : list Z
}.
Definition normal_item (it : list Z) : ItemId := {| lp_normal := true; lp_item := it |}.

(** A page: the header fields, the bytes from [pd_linp] up to the special area
    (read and written directly by the byte lists), the line pointers (managed by
    Postgres on item pages) and the special data. *)
Record Page := {
  pd_lower : Z;
  pd_upper : Z;
  pd_area : list Z;
  pd_linp : list ItemId;
  pd_special : BM25PageSpecialData
}.

Definition set_special (f : BM25PageSpecialData → BM25PageSpecialData) (p : Page) : Page :=
  {| pd_lower := pd_lower p; pd_upper := pd_upper p; pd_area := pd_area p;
     pd_linp := pd_linp p; pd_special := f (pd_special p) |}.
Definition set_lower (f : Z → Z) (p : Page) : Page :=
  {| pd_lower := f (pd_lower p); pd_upper := pd_upper p; pd_area := pd_area p;
     pd_linp := pd_linp p; pd_special := pd_special p |}.
Definition set_area (f : list Z → list Z) (p : Page) : Page :=
  {| pd_lower := pd_lower p; pd_upper := pd_upper p; pd_area := f (pd_area p);
     pd_linp := pd_linp p; pd_special := pd_special p |}.

Definition with_next (b : Z) (s : BM25PageSpecialData) : BM25PageSpecialData :=
  {| next_blockno := b; xmax := xmax s |}.
Definition with_xmax (x : Z) (s : BM25PageSpecialData) : BM25PageSpecialData :=
  {| next_blockno := next_blockno s; xmax := x |}.

(** Line pointers of a page whose one-based offsets are not in [offs]. *)
Definition remove_offsets (offs : list Z) (l : list ItemId) : list ItemId :=
  snd <$> filter (λ io, (Z.of_nat io.1 + 1) ∉ offs) (imap pair l).

(** ** Postgres' page primitives *)

Class PgPage `{PgBuild} := {
  PageInit : Page → Z → Z → Page;
  PageIsEmpty : Page → bool;
  PageIsNew : Page → bool;
  PageAddItemExtended : Page → list Z → Page * Z;
  PageIndexTupleOverwrite : Page → Z → list Z → Page * bool;
  PageIndexMultiDelete : Page → list Z → Page;
  PageIndexTupleDelete : Page → Z → Page;
  (** the largest item [PageAddItemExtended] accepts on an empty page *)
  max_item_size : Z;
  (** the bytes of the special area, as they lie on the page *)
  special_bytes : BM25PageSpecialData → list Z;
  special_bytes_len d : zlen (special_bytes d) = size_of_BM25PageSpecialData;

  PageInit_spec p :
    let q := PageInit p BLCKSZ size_of_BM25PageSpecialData in
    pd_lower q = offset_of_pd_linp ∧
    pd_upper q = BLCKSZ - MAXALIGN size_of_BM25PageSpecialData ∧
    pd_area q = replicate (Z.to_nat bm25_max_free_space) 0 ∧
    pd_linp q = [];
  PageIsEmpty_spec p : PageIsEmpty p = (pd_lower p <=? offset_of_pd_linp);
  PageIsNew_spec p : PageIsNew p = (pd_upper p =? 0);
  PageAddItem_fail p it p' :
    PageAddItemExtended p it = (p', InvalidOffsetNumber) → p' = p;
  PageAddItem_ok p it p' o :
    PageAddItemExtended p it = (p', o) → o ≠ InvalidOffsetNumber →
    pd_special p' = pd_special p ∧
    ((o = zlen (pd_linp p) + 1 ∧ pd_linp p' = pd_linp p ++ [normal_item it]) ∨
     (∃ l1 old l2, pd_linp p = l1 ++ old :: l2 ∧ lp_normal old = false ∧
        o = zlen l1 + 1 ∧ pd_linp p' = l1 ++ normal_item it :: l2));
  PageAddItem_empty p it :
    zlen it ≤ max_item_size → pd_linp p = [] →
    pd_lower p = offset_of_pd_linp →
    pd_upper p = BLCKSZ - MAXALIGN size_of_BM25PageSpecialData →
    (PageAddItemExtended p it).2 ≠ InvalidOffsetNumber;
  PageOverwrite_fail p o it p' : PageIndexTupleOverwrite p o it = (p', false) → p' = p;
  PageOverwrite_ok p o it p' :
    PageIndexTupleOverwrite p o it = (p', true) → 1 ≤ o ≤ zlen (pd_linp p) →
    pd_special p' = pd_special p ∧
    pd_linp p' = <[Z.to_nat (o - 1) := normal_item it]> (pd_linp p);
  PageOverwrite_same p o it old :
    1 ≤ o → pd_linp p !! Z.to_nat (o - 1) = Some (normal_item old) →
    zlen it = zlen old → (PageIndexTupleOverwrite p o it).2 = true;
  PageMultiDelete_spec p offs :
    Forall (λ o, 1 ≤ o ≤ zlen (pd_linp p)) offs →
    pd_special (PageIndexMultiDelete p offs) = pd_special p ∧
    pd_linp (PageIndexMultiDelete p offs) = remove_offsets offs (pd_linp p);
  PageTupleDelete_spec p o :
    1 ≤ o ≤ zlen (pd_linp p) →
    pd_special (PageIndexTupleDelete p o) = pd_special p ∧
    pd_linp (PageIndexTupleDelete p o) = delete (Z.to_nat (o - 1)) (pd_linp p);
  (** they keep [SizeOfPageHeaderData <= pd_lower <= pd_upper], or raise a PANIC *)
  PageAddItem_upper p it : pd_upper p ≠ 0 → pd_upper (PageAddItemExtended p it).1 ≠ 0;
  PageOverwrite_upper p o it : pd_upper p ≠ 0 → pd_upper (PageIndexTupleOverwrite p o it).1 ≠ 0;
  PageMultiDelete_upper p offs : pd_upper p ≠ 0 → pd_upper (PageIndexMultiDelete p offs) ≠ 0;
  PageTupleDelete_upper p o : pd_upper p ≠ 0 → pd_upper (PageIndexTupleDelete p o) ≠ 0
}.

(** ** Structs stored at the start of a page's content area *)

(** A [Copy] struct as it lies in memory. *)
Class Pod (T : Type) := {
  size_of : Z;
  to_raw : T → list Z;
  from_raw : list Z → T;
  pod_valid : T → Prop;
  to_raw_len x : zlen (to_raw x) = size_of;
  from_to_raw x : pod_valid x → from_raw (to_raw x) = x;
  size_of_range : 0 < size_of ≤ 64
}.

(** Struct held in the first buffer of every linked list's content area *)
Record LinkedListData := {
  start_blockno : Z;
  last_blockno : Z;
  npages : Z;
  blocklist_start : Z
}.

Record MergeLockData := {
  last_merge : Z;
  num_segments : Z
}.

#[export] Program Instance Pod_LinkedListData : Pod LinkedListData := {
  size_of := 16;
  to_raw d := u32_le_bytes (start_blockno d) ++ u32_le_bytes (last_blockno d)
              ++ u32_le_bytes (npages d) ++ u32_le_bytes (blocklist_start d);
  from_raw l := {| start_blockno := of_le_bytes (zslice 0 4 l);
                   last_blockno := of_le_bytes (zslice 4 4 l);
                   npages := of_le_bytes (zslice 8 4 l);
                   blocklist_start := of_le_bytes (zslice 12 4 l) |};
  pod_valid d := is_u32 (start_blockno d) ∧ is_u32 (last_blockno d)
                 ∧ is_u32 (npages d) ∧ is_u32 (blocklist_start d)
}.
Next Obligation. done. Qed.
Next Obligation.
  intros [a b c d] (Ha & Hb & Hc & Hd). simpl in *.
  change (zslice 0 4 _) with (u32_le_bytes a).
  change (zslice 4 4 _) with (u32_le_bytes b).
  change (zslice 8 4 _) with (u32_le_bytes c).
  change (zslice 12 4 _) with (u32_le_bytes d).
  by rewrite !of_le_u32.
Qed.
Next Obligation. lia. Qed.

#[export] Program Instance Pod_MergeLockData : Pod MergeLockData := {
  size_of := 8;
  to_raw d := u32_le_bytes (last_merge d) ++ u32_le_bytes (num_segments d);
  from_raw l := {| last_merge := of_le_bytes (zslice 0 4 l);
                   num_segments := of_le_bytes (zslice 4 4 l) |};
  pod_valid d := is_u32 (last_merge d) ∧ is_u32 (num_segments d)
}.
Next Obligation. done. Qed.
Next Obligation.
  intros [a b] (Ha & Hb). simpl in *.
  change (zslice 0 4 _) with (u32_le_bytes a).
  change (zslice 4 4 _) with (u32_le_bytes b).
  by rewrite !of_le_u32.
Qed.
Next Obligation. lia. Qed.

(** ** Items: [PgItem] conversions of [block.rs] (bincode is external) *)

Class PgItem (T : Type) := {
  into_item : T → list Z;
  (** [None] is the [expect] panic of a failed deserialization *)
  from_item : list Z → option T;
  from_into_item x : from_item (into_item x) = Some x
}.

(** ** [Page] *)

Section page.
Context `{PgPage}.
Implicit Types p : Page.

(** the address of [contents] relative to [pd_linp]:
    [PageGetContents] is [page + MAXALIGN(SizeOfPageHeaderData)] *)
Definition contents_offset : Z := MAXALIGN offset_of_pd_linp - offset_of_pd_linp.

Definition max_offset_number p : Z := zlen (pd_linp p).

(** [BM25Page::read_item]; an offset past the line pointer array is read out
    of bounds by the code, the model panics *)
Definition read_item {T} `{PgItem T} p (offno : Z) : outcome (option (T * Z)) :=
  match znth (pd_linp p) (offno - 1) with
  | None => Panic "line pointer out of range"
  | Some item_id =>
      if negb (lp_normal item_id) then Ok None
      else match from_item (lp_item item_id) with
           | Some t => Ok (Some (t, zlen (lp_item item_id)))
           | None => Panic "expected to deserialize valid SegmentMetaEntry"
           end
  end.

Definition is_empty p : bool := PageIsEmpty p.

(** [usize] subtraction: a page that was never initialised has [pd_lower = 0] *)
Definition as_slice p : outcome (list Z) :=
  let header_size := offset_of_pd_linp in
  if pd_lower p <? header_size then Panic "attempt to subtract with overflow"
  else Ok (ztake (pd_lower p - header_size) (pd_area p)).

Definition as_slice_range p (offset len : Z) : list Z := zslice offset len (pd_area p).

Definition contents {T} `{Pod T} p : T := from_raw (zslice contents_offset size_of (pd_area p)).

Definition page_next_blockno p : Z := next_blockno (pd_special p).

Definition header_free_space p : Z := pd_upper p - pd_lower p.
End page.

(** ** [PageMut] *)

(** A [PageMut] borrows its [BufferMut], whose [dirty] flag decides whether the
    buffer is marked dirty when it is dropped. *)
Record PageMut := {
  pm_page : Page;
  pm_dirty : bool
}.
Definition update_page (f : Page → Page) (pm : PageMut) : PageMut :=
  {| pm_page := f (pm_page pm); pm_dirty := true |}.

(** [u16] addition, checked *)
Definition add_u16 (a b : Z) : outcome Z :=
  if a + b <=? u16_max then Ok (a + b) else Panic "attempt to add with overflow".
(** [len.try_into().expect("bytes length too large for a page")] *)
Definition to_u16 (len : Z) : outcome Z :=
  if (0 <=? len) && (len <=? u16_max) then Ok len else Panic "bytes length too large for a page".

Section page_mut.
Context `{PgPage}.
Implicit Types pm : PageMut.

(** [BufferMut::init_page] *)
Definition init_page pm : PageMut :=
  update_page (λ p, set_special (λ _, {| next_blockno := InvalidBlockNumber;
                                         xmax := InvalidTransactionId |})
                      (PageInit p BLCKSZ size_of_BM25PageSpecialData)) pm.

(** [ReadNextFullTransactionId().value as TransactionId] truncates to 32 bits *)
Definition mark_deleted (next_full_xid : Z) pm : PageMut :=
  update_page (set_special (with_xmax (next_full_xid mod 2 ^ 32))) pm.

Definition find_item_loop {T} `{PgItem T} pm (cmp : T → bool) : list Z → outcome (option Z) :=
  fix go offs :=
    match offs with
    | [] => Ok None
    | offno :: offs' =>
        match read_item (pm_page pm) offno with
        | Ok None => Ok None
        | Ok (Some (item, _)) => if cmp item then Ok (Some offno) else go offs'
        | Err e => Err e
        | Panic e => Panic e
        | NoFuel => NoFuel
        end
    end.
Definition find_item {T} `{PgItem T} pm (cmp : T → bool) : outcome (option Z) :=
  find_item_loop pm cmp (seqZ FirstOffsetNumber (max_offset_number (pm_page pm))).

Definition append_item pm (item : list Z) : Z * PageMut :=
  let '(p', offno) := PageAddItemExtended (pm_page pm) item in
  (offno, {| pm_page := p';
             pm_dirty := if negb (offno =? InvalidOffsetNumber) then true else pm_dirty pm |}).

Definition replace_item pm (offno : Z) (item : list Z) : outcome (bool * PageMut) :=
  if offno =? InvalidOffsetNumber then Panic "offno != InvalidOffsetNumber" else
  let '(p', did_replace) := PageIndexTupleOverwrite (pm_page pm) offno item in
  Ok (did_replace, {| pm_page := p';
                      pm_dirty := if did_replace then true else pm_dirty pm |}).

Definition delete_items pm (item_offsets : list Z) : PageMut :=
  update_page (λ p, PageIndexMultiDelete p item_offsets) pm.

Definition delete_item pm (offno : Z) : PageMut :=
  update_page (λ p, PageIndexTupleDelete p offno) pm.

(** [page.header_mut().pd_lower += len] *)
Definition advance_lower (len : Z) pm : outcome PageMut :=
  v ← add_u16 (pd_lower (pm_page pm)) len;
  Ok (update_page (set_lower (λ _, v)) pm).

(** [page.special_mut::<BM25PageSpecialData>().next_blockno = b] *)
Definition set_next_blockno (b : Z) pm : PageMut := update_page (set_special (with_next b)) pm.

Definition can_fit pm (len : Z) : outcome bool :=
  len ← to_u16 len;
  e ← add_u16 (pd_lower (pm_page pm)) len;
  Ok (negb (pd_upper (pm_page pm) <? e)).

(** Returns the offset of the slice in the page; the caller writes through it. *)
Definition free_space_slice_mut pm (len : Z) : outcome (option Z * PageMut) :=
  len ← to_u16 len;
  let start := pd_lower (pm_page pm) in
  e ← add_u16 start len;
  if pd_upper (pm_page pm) <? e then Ok (None, pm)
  else Ok (Some start, {| pm_page := pm_page pm; pm_dirty := true |}).

(** Writing through a slice handed out by the page; the flag does not move. *)
Definition write_slice (start : Z) (bytes : list Z) pm : PageMut :=
  {| pm_page := set_area (zwrite (start - offset_of_pd_linp) bytes) (pm_page pm);
     pm_dirty := pm_dirty pm |}.

Definition append_bytes pm (bytes : list Z) : outcome (bool * PageMut) :=
  len ← to_u16 (zlen bytes);
  let start := pd_lower (pm_page pm) in
  e ← add_u16 start len;
  if pd_upper (pm_page pm) <? e then Ok (false, pm)
  else
    pm ← advance_lower len (write_slice start bytes pm);
    Ok (true, {| pm_page := pm_page pm; pm_dirty := true |}).

(** [contents_mut::<T>()] followed by the caller's assignments [f] through the
    reference it returns *)
Definition contents_mut {T} `{Pod T} (f : T → T) pm : outcome PageMut :=
  let p := pm_page pm in
  let lower := offset_of_pd_linp + contents_offset + size_of in
  if lower <=? u16_max then
    let p := set_lower (λ _, lower) p in
    Ok {| pm_page := set_area (zwrite contents_offset (to_raw (f (contents p)))) p;
          pm_dirty := true |}
  else Panic "pd_lower overflowed".
End page_mut.

(** A sequence of [PageMut] calls, as a backend makes them while it holds the
    exclusive lock; [OpWriteFree] is [free_space_slice_mut] followed by the copy
    through the slice, as [LinkedBytesList::write] does it. *)
Inductive page_op :=
  | OpInitPage
  | OpMarkDeleted (next_full_xid : Z)
  | OpAppendItem (item : list Z)
  | OpReplaceItem (offno : Z) (item : list Z)
  | OpDeleteItems (offs : list Z)
  | OpDeleteItem (offno : Z)
  | OpAdvanceLower (len : Z)
  | OpSetNextBlockno (b : Z)
  | OpAppendBytes (bytes : list Z)
  | OpWriteFree (bytes : list Z)
  | OpListData (f : LinkedListData → LinkedListData)
  | OpMergeLockData (f : MergeLockData → MergeLockData).

Definition run_page_op `{PgPage} (op : page_op) (pm : PageMut) : outcome PageMut :=
  match op with
  | OpInitPage => Ok (init_page pm)
  | OpMarkDeleted x => Ok (mark_deleted x pm)
  | OpAppendItem item => Ok (append_item pm item).2
  | OpReplaceItem o item => r ← replace_item pm o item; Ok r.2
  | OpDeleteItems offs => Ok (delete_items pm offs)
  | OpDeleteItem o => Ok (delete_item pm o)
  | OpAdvanceLower len => advance_lower len pm
  | OpSetNextBlockno b => Ok (set_next_blockno b pm)
  | OpAppendBytes bytes => r ← append_bytes pm bytes; Ok r.2
  | OpWriteFree bytes =>
      r ← free_space_slice_mut pm (zlen bytes);
      match r with
      | (Some start, pm) => Ok (write_slice start bytes pm)
      | (None, pm) => Ok pm
      end
  | OpListData f => contents_mut f pm
  | OpMergeLockData f => contents_mut f pm
  end.

Fixpoint run_page_ops `{PgPage} (ops : list page_op) (pm : PageMut) : outcome PageMut :=
  match ops with
  | [] => Ok pm
  | op :: ops => pm ← run_page_op op pm; run_page_ops ops pm
  end.

(** ** Invariant and lemmas *)

Section page_lemmas.
Context `{PgPage}.
Implicit Types (p : Page) (pm : PageMut).

Definition page_ok p : Prop :=
  zlen (pd_area p) = bm25_max_free_space ∧
  pd_upper p = offset_of_pd_linp + bm25_max_free_space ∧
  offset_of_pd_linp ≤ pd_lower p ≤ pd_upper p.

(** the bytes [as_slice] returns *)
Definition used p : list Z := ztake (pd_lower p - offset_of_pd_linp) (pd_area p).

Lemma contents_offset_0 : contents_offset = 0.
Proof. unfold contents_offset. rewrite MAXALIGN_pd_linp. lia. Qed.

Lemma as_slice_used p : page_ok p → as_slice p = Ok (used p).
Proof. intros (_ & _ & ?). unfold as_slice. destruct (Z.ltb_spec (pd_lower p) offset_of_pd_linp); [lia|done]. Qed.

Lemma zlen_used p : page_ok p → zlen (used p) = pd_lower p - offset_of_pd_linp.
Proof. intros (? & ? & ?). unfold used. apply zlen_ztake. lia. Qed.

Lemma header_free_space_used p :
  page_ok p → header_free_space p = bm25_max_free_space - zlen (used p).
Proof. intros Hp. rewrite zlen_used by done. destruct Hp as (? & ? & ?). unfold header_free_space. lia. Qed.

Lemma zlen_used_le p : page_ok p → zlen (used p) ≤ bm25_max_free_space.
Proof. intros Hp. rewrite zlen_used by done. destruct Hp as (? & ? & ?). lia. Qed.

(** a full page is its whole area *)
Lemma used_full p : page_ok p → zlen (used p) = bm25_max_free_space → used p = pd_area p.
Proof.
  intros Hp Hfull. rewrite zlen_used in Hfull by done. destruct Hp as (? & ? & ?).
  unfold used. apply ztake_ge. lia.
Qed.

Lemma init_page_ok pm : page_ok (pm_page (init_page pm)).
Proof.
  unfold page_ok, init_page. simpl.
  destruct (PageInit_spec (pm_page pm)) as (-> & -> & -> & _).
  pose proof bm25_max_free_space_range. unfold zlen. rewrite length_replicate.
  unfold bm25_max_free_space in *. rewrite MAXALIGN_pd_linp in *. lia.
Qed.
Lemma init_page_area pm :
  pd_area (pm_page (init_page pm)) = replicate (Z.to_nat bm25_max_free_space) 0.
Proof. apply PageInit_spec. Qed.
Lemma init_page_used pm : used (pm_page (init_page pm)) = [].
Proof.
  unfold used, init_page. simpl.
  destruct (PageInit_spec (pm_page pm)) as (-> & _). by rewrite Z.sub_diag.
Qed.
Lemma init_page_special pm :
  pd_special (pm_page (init_page pm)) =
  {| next_blockno := InvalidBlockNumber; xmax := InvalidTransactionId |}.
Proof. done. Qed.

Lemma to_u16_ok len : 0 ≤ len ≤ 65535 → to_u16 len = Ok len.
Proof.
  intros. unfold to_u16, u16_max.
  destruct (Z.leb_spec 0 len), (Z.leb_spec len (2 ^ 16 - 1)); simpl; try done; lia.
Qed.
Lemma add_u16_ok a b : a + b ≤ 65535 → add_u16 a b = Ok (a + b).
Proof.
  intros. unfold add_u16, u16_max. destruct (Z.leb_spec (a + b) (2 ^ 16 - 1)); [done|lia].
Qed.

Lemma page_bounds p : page_ok p → 0 ≤ pd_lower p ≤ 32784 ∧ 0 ≤ pd_upper p ≤ 32784.
Proof.
  intros (_ & ? & ?). pose proof bm25_max_free_space_range.
  pose proof offset_of_pd_linp_range. lia.
Qed.

Lemma advance_lower_ok pm len :
  page_ok (pm_page pm) → 0 ≤ len ≤ header_free_space (pm_page pm) →
  advance_lower len pm = Ok (update_page (set_lower (λ _, pd_lower (pm_page pm) + len)) pm).
Proof.
  intros Hp Hlen. unfold advance_lower. rewrite add_u16_ok; [done|].
  pose proof (page_bounds _ Hp). unfold header_free_space in Hlen. lia.
Qed.

Lemma can_fit_spec pm len :
  page_ok (pm_page pm) → 0 ≤ len ≤ 32750 →
  can_fit pm len = Ok (len <=? header_free_space (pm_page pm)).
Proof.
  intros Hp Hlen. pose proof (page_bounds _ Hp). unfold can_fit, header_free_space.
  rewrite to_u16_ok by lia. simpl. rewrite add_u16_ok by lia. simpl. f_equal.
  destruct (Z.ltb_spec (pd_upper (pm_page pm)) (pd_lower (pm_page pm) + len)),
    (Z.leb_spec len (pd_upper (pm_page pm) - pd_lower (pm_page pm))); simpl; try done; lia.
Qed.

(** Writing [bytes] at [pd_lower] and advancing it appends them to the page. *)
Lemma write_lower_used p bytes :
  page_ok p → zlen bytes ≤ header_free_space p →
  let p' := set_lower (λ _, pd_lower p + zlen bytes)
              (set_area (zwrite (pd_lower p - offset_of_pd_linp) bytes) p) in
  page_ok p' ∧ used p' = used p ++ bytes.
Proof.
  intros (Ha & Hu & Hl) Hfit p'. unfold header_free_space in Hfit.
  pose proof (zlen_nonneg bytes). split.
  - unfold page_ok, p'. simpl. rewrite zlen_zwrite by lia. lia.
  - unfold used, p'. simpl.
    replace (pd_lower p + zlen bytes - offset_of_pd_linp)
      with (pd_lower p - offset_of_pd_linp + zlen bytes) by lia.
    apply ztake_zwrite; lia.
Qed.

Lemma append_bytes_spec pm bytes :
  page_ok (pm_page pm) → zlen bytes ≤ header_free_space (pm_page pm) →
  ∃ pm', append_bytes pm bytes = Ok (true, pm') ∧ page_ok (pm_page pm') ∧
    used (pm_page pm') = used (pm_page pm) ++ bytes ∧
    pd_special (pm_page pm') = pd_special (pm_page pm).
Proof.
  intros Hp Hfit. pose proof (page_bounds _ Hp). pose proof (zlen_nonneg bytes).
  pose proof (write_lower_used _ _ Hp Hfit) as Hw. simpl in Hw.
  unfold header_free_space in Hfit.
  unfold append_bytes. rewrite to_u16_ok by lia. simpl. rewrite add_u16_ok by lia. simpl.
  destruct (Z.ltb_spec (pd_upper (pm_page pm)) (pd_lower (pm_page pm) + zlen bytes)); [lia|].
  unfold advance_lower, write_slice. simpl. rewrite add_u16_ok by lia. simpl.
  eexists. split; [done|]. simpl. destruct Hw as [? Hused]. done.
Qed.

Lemma contents_set_lower {T} `{Pod T} g p : contents (set_lower g p) = contents p.
Proof. done. Qed.

Lemma contents_mut_spec {T} `{Pod T} (f : T → T) pm :
  page_ok (pm_page pm) → pod_valid (f (contents (pm_page pm))) →
  ∃ pm', contents_mut f pm = Ok pm' ∧ page_ok (pm_page pm') ∧
    contents (pm_page pm') = f (contents (pm_page pm)) ∧
    pd_special (pm_page pm') = pd_special (pm_page pm) ∧
    pd_linp (pm_page pm') = pd_linp (pm_page pm) ∧
    pd_lower (pm_page pm') = offset_of_pd_linp + size_of.
Proof.
  intros (Ha & Hu & Hl) Hvalid. pose proof bm25_max_free_space_range.
  pose proof offset_of_pd_linp_range. pose proof (size_of_range (T:=T)).
  unfold contents_mut. rewrite contents_set_lower, contents_offset_0, Z.add_0_r.
  unfold u16_max.
  destruct (Z.leb_spec (offset_of_pd_linp + size_of) (2 ^ 16 - 1)); [|lia].
  eexists. split; [done|]. unfold page_ok. simpl.
  assert (zlen (to_raw (f (contents (pm_page pm)))) = size_of) as Hsz by apply to_raw_len.
  split_and!; try done; try lia.
  { rewrite zlen_zwrite; [done|lia|rewrite Hsz; lia]. }
  unfold contents at 1. simpl. rewrite contents_offset_0.
  unfold zslice. rewrite zdrop_0. unfold zwrite. rewrite ztake_0. simpl.
  rewrite ztake_app_exact; [|apply to_raw_len].
  by apply from_to_raw.
Qed.

(** One call on a [PageMut] either leaves the page alone or sets the flag, and
    no call clears it. *)
Lemma run_page_op_dirty op pm pm' :
  run_page_op op pm = Ok pm' →
  (pm_dirty pm' = true ∨ pm_page pm' = pm_page pm) ∧
  (pm_dirty pm = true → pm_dirty pm' = true).
Proof.
  destruct op; simpl; try (intros [= <-]; simpl; by auto).
  all: try (unfold append_bytes, advance_lower, free_space_slice_mut, contents_mut,
    mbind, outcome_bind; repeat (case_match; simplify_eq/=); intros; simplify_eq/=; by auto).
  - intros [= <-]. unfold append_item.
    destruct (PageAddItemExtended (pm_page pm) item) as [p' o] eqn:E. simpl.
    destruct (Z.eqb_spec o InvalidOffsetNumber); simpl; [|by auto].
    subst. apply PageAddItem_fail in E. by auto.
  - unfold replace_item. destruct (offno =? InvalidOffsetNumber); [done|].
    destruct (PageIndexTupleOverwrite (pm_page pm) offno item) as [p' []] eqn:E;
      simpl; intros [= <-]; simpl; [by auto|].
    apply PageOverwrite_fail in E. by auto.
Qed.
End page_lemmas.

#[global] Arguments contents : simpl never.
#[export] Hint Resolve init_page_ok zlen_used_le : zlist.

(** No modification of a page is lost: a sequence of page operations that changes
    the page leaves the flag set that makes the buffer dirty when it is dropped. *)
Theorem page_writes_mark_dirty `{PgPage} (ops : list page_op) (pm pm' : PageMut) :
  run_page_ops ops pm = Ok pm' →
  pm_page pm' ≠ pm_page pm →
  pm_dirty pm' = true.
Proof.
  intros Hrun Hne.
  assert (pm_dirty pm' = true ∨ (pm_page pm' = pm_page pm)) as [|]; [|done|done].
  clear Hne. revert pm Hrun. induction ops as [|op ops IH]; intros pm Hrun.
  - injection Hrun as <-. by right.
  - simpl in Hrun. destruct (run_page_op op pm) as [pm1| | |] eqn:E; simpl in Hrun; try done.
    apply run_page_op_dirty in E as [E1 E2].
    destruct (IH _ Hrun) as [|Heq]; [by left|].
    destruct E1 as [E1|E1]; [|right; congruence].
    (* the flag set by [op] survives the rest *)
    left. clear IH Heq E2. revert pm1 E1 Hrun.
    induction ops as [|op' ops IH]; intros pm1 E1 Hrun; [by injection Hrun as <-|].
    simpl in Hrun. destruct (run_page_op op' pm1) as [pm2| | |] eqn:E'; simpl in Hrun; try done.
    apply run_page_op_dirty in E' as [_ E']. eauto.
Qed.
