(* ===== verification/Block.v ===== *)
(** * Block: segment meta entries, file names and MVCC rules

    Models [pg_search/src/postgres/storage/block.rs] ([FileEntry], [DeleteEntry],
    [SegmentMetaEntry] and its methods, [SegmentFileDetails], [MVCCEntry]) and
    [vacuum_get_freeze_limit] of [storage/utils.rs].  Tantivy's [SegmentId] and
    the names of its components, and Postgres' transaction functions, are classes
    whose laws are what their documentation states. *)

From Stdlib Require Import Ascii.
From S2P Require Import Prelude Page.

Open Scope Z_scope.

(** ** Fixed blocks *)

Definition MERGE_LOCK : Z := 0.
Definition CLEANUP_LOCK : Z := 1.
Definition SCHEMA_START : Z := 2.
Definition SETTINGS_START : Z := 4.
Definition SEGMENT_METAS_START : Z := 6.

(** ** Entries *)

(** Metadata for tracking where to find a file *)
Record FileEntry := {
  staring_block : Z;
  total_bytes : Z
}.
#[global] Instance FileEntry_eq_dec : EqDecision FileEntry.
Proof. solve_decision. Defined.
#[global] Instance FileEntry_countable : Countable FileEntry.
Proof.
  refine (inj_countable' (λ e, (staring_block e, total_bytes e))
            (λ p, {| staring_block := p.1; total_bytes := p.2 |}) _). by intros [].
Defined.

(** Metadata for tracking where to find a del file *)
Record DeleteEntry := {
  file_entry : FileEntry;
  num_deleted_docs : Z
}.
#[global] Instance DeleteEntry_eq_dec : EqDecision DeleteEntry.
Proof. solve_decision. Defined.

(** [tantivy::index::SegmentComponent], the variants the code matches on *)
Inductive SegmentComponent :=
  | Postings | Positions | FastFields | FieldNorms | Terms | Store | TempStore | Delete.
#[global] Instance SegmentComponent_eq_dec : EqDecision SegmentComponent.
Proof. solve_decision. Defined.
#[global] Instance SegmentComponent_countable : Countable SegmentComponent.
Proof.
  refine (inj_countable'
    (λ c, match c with Postings => 0 | Positions => 1 | FastFields => 2 | FieldNorms => 3
          | Terms => 4 | Store => 5 | TempStore => 6 | Delete => 7 end)
    (λ n, match n with 0 => Postings | 1 => Positions | 2 => FastFields | 3 => FieldNorms
          | 4 => Terms | 5 => Store | 6 => TempStore | _ => Delete end) _).
  by intros [].
Defined.

(** Tantivy's segment ids and component extensions: an id prints as a uuid, which
    holds neither a dot nor a slash, and both read back what they print. *)
Class TantivyIndex := {
  SegmentId : Type;
  SegmentId_eq_dec :: EqDecision SegmentId;
  SegmentId_countable :: Countable SegmentId;
  uuid_string : SegmentId → string;
  from_uuid_string : string → option SegmentId;
  component_ext : SegmentComponent → string;
  component_try_from : string → option SegmentComponent;
  from_uuid_string_uuid id : from_uuid_string (uuid_string id) = Some id;
  component_try_from_ext c : component_try_from (component_ext c) = Some c;
  uuid_string_plain id c : c ∈ String.list_ascii_of_string (uuid_string id) → c ≠ "."%char ∧ c ≠ "/"%char;
  uuid_string_nonempty id : uuid_string id ≠ ""%string;
  component_ext_plain k c : c ∈ String.list_ascii_of_string (component_ext k) → c ≠ "."%char ∧ c ≠ "/"%char;
  component_ext_nonempty k : component_ext k ≠ ""%string
}.

(** Metadata for tracking alive segments *)
Record SegmentMetaEntry `{TantivyIndex} := {
  segment_id : SegmentId;
  max_doc : Z;
  entry_xmin : Z;
  entry_xmax : Z;
  postings : option FileEntry;
  positions : option FileEntry;
  fast_fields : option FileEntry;
  field_norms : option FileEntry;
  terms : option FileEntry;
  store : option FileEntry;
  temp_store : option FileEntry;
  delete : option DeleteEntry
}.

Section entry.
Context `{TantivyIndex}.
Implicit Types e : SegmentMetaEntry.

#[global] Instance SegmentMetaEntry_eq_dec : EqDecision SegmentMetaEntry.
Proof. solve_decision. Defined.

(** Fake an opstamp value based on our internal [xmin] and [xmax] values *)
Definition opstamp e : Z := Z.lor (Z.shiftl (entry_xmax e) 32) (entry_xmin e).

Definition get_file_entry e (segment_component : SegmentComponent) : option FileEntry :=
  match segment_component with
  | Postings => postings e
  | Positions => positions e
  | FastFields => fast_fields e
  | FieldNorms => field_norms e
  | Terms => terms e
  | Store => store e
  | TempStore => temp_store e
  | Delete => file_entry <$> delete e
  end.

Definition component_path (id : SegmentId) (c : SegmentComponent) : string :=
  uuid_string id +:+ "." +:+ component_ext c.

Definition get_component_paths e : list string :=
  let push {A} (o : option A) (p : string) := match o with Some _ => [p] | None => [] end in
  push (postings e) (component_path (segment_id e) Postings) ++
  push (positions e) (component_path (segment_id e) Positions) ++
  push (fast_fields e) (component_path (segment_id e) FastFields) ++
  push (field_norms e) (component_path (segment_id e) FieldNorms) ++
  push (terms e) (component_path (segment_id e) Terms) ++
  push (store e) (component_path (segment_id e) Store) ++
  push (temp_store e) (component_path (segment_id e) TempStore) ++
  push (delete e) (uuid_string (segment_id e) +:+ ".0." +:+ component_ext Delete).

Definition set_xmin (x : Z) e : SegmentMetaEntry :=
  {| segment_id := segment_id e; max_doc := max_doc e; entry_xmin := x;
     entry_xmax := entry_xmax e; postings := postings e; positions := positions e;
     fast_fields := fast_fields e; field_norms := field_norms e; terms := terms e;
     store := store e; temp_store := temp_store e; delete := delete e |}.
Definition set_xmax (x : Z) e : SegmentMetaEntry :=
  {| segment_id := segment_id e; max_doc := max_doc e; entry_xmin := entry_xmin e;
     entry_xmax := x; postings := postings e; positions := positions e;
     fast_fields := fast_fields e; field_norms := field_norms e; terms := terms e;
     store := store e; temp_store := temp_store e; delete := delete e |}.
Definition set_delete (d : option DeleteEntry) e : SegmentMetaEntry :=
  {| segment_id := segment_id e; max_doc := max_doc e; entry_xmin := entry_xmin e;
     entry_xmax := entry_xmax e; postings := postings e; positions := positions e;
     fast_fields := fast_fields e; field_norms := field_norms e; terms := terms e;
     store := store e; temp_store := temp_store e; delete := d |}.

Definition into_frozen e (should_freeze_xmin should_freeze_xmax : bool) : SegmentMetaEntry :=
  set_xmin (if should_freeze_xmin then FrozenTransactionId else entry_xmin e)
    (set_xmax (if should_freeze_xmax then FrozenTransactionId else entry_xmax e) e).
End entry.

(** ** File names: [SegmentFileDetails] *)

(** [str::split(c)] *)
Fixpoint str_split (sep : ascii) (s : list ascii) : list (list ascii) :=
  match s with
  | [] => [[]]
  | c :: s' =>
      if decide (c = sep) then [] :: str_split sep s'
      else match str_split sep s' with
           | part :: parts => (c :: part) :: parts
           | [] => [[c]]
           end
  end.

(** [Path::file_name]: the last component, ignoring trailing slashes and dots;
    none when there is no component or it is [..] *)
Definition file_name (path : string) : option string :=
  let comps := filter (λ c, c ≠ [] ∧ c ≠ ["."%char]) (str_split "/" (String.list_ascii_of_string path)) in
  match last comps with
  | None => None
  | Some c => if decide (c = ["."%char; "."%char]) then None else Some (String.string_of_list_ascii c)
  end.

Section file_details.
Context `{TantivyIndex}.

Definition path_segment_id (path : string) : option SegmentId :=
  name ← file_name path;
  match str_split "." (String.list_ascii_of_string name) with
  | part :: _ => from_uuid_string (String.string_of_list_ascii part)
  | [] => None
  end.

Definition path_component_type (path : string) : option SegmentComponent :=
  name ← file_name path;
  match str_split "." (String.list_ascii_of_string name) with
  | _ :: extension :: last :: _ => component_try_from (String.string_of_list_ascii last)
  | _ :: extension :: [] => component_try_from (String.string_of_list_ascii extension)
  | _ => None
  end.
End file_details.

(** ** Transactions *)

(** The transaction functions of Postgres the entries are checked with, at one
    moment of one backend. *)
Class PgXact := {
  Snapshot : Type;
  GetActiveSnapshot : Snapshot;
  TransactionIdIsNormal : Z → bool;
  TransactionIdPrecedes : Z → Z → bool;
  TransactionIdIsCurrentTransactionId : Z → bool;
  XidInMVCCSnapshot : Z → Snapshot → bool;
  GlobalVisCheckRemovableXid : Z → bool;
  GetOldestNonRemovableTransactionId : Z;
  GetCurrentTransactionId : Z;
  ReadNextFullTransactionId : Z;
  vacuum_freeze_min_age : Z;
  autovacuum_freeze_max_age : Z;
  IsTransactionState : bool
}.

(** two's complement reading of a [u32] *)
Definition as_i32 (z : Z) : Z := if z <? 2 ^ 31 then z else z - 2 ^ 32.

(** [MVCCEntry], the required methods *)
Class MVCCEntry (T : Type) := {
  get_xmin : T → Z;
  get_xmax : T → Z;
  mvcc_into_frozen : T → bool → bool → T
}.
#[export] Instance SegmentMetaEntry_mvcc `{TantivyIndex} : MVCCEntry SegmentMetaEntry := {
  get_xmin := entry_xmin;
  get_xmax := entry_xmax;
  mvcc_into_frozen := into_frozen
}.

Section mvcc.
Context `{PgXact} {T} `{MVCCEntry T}.
Implicit Types e : T.

Definition visible e (snapshot : Snapshot) : bool :=
  let xmin := get_xmin e in
  let xmax := get_xmax e in
  let xmin_visible := TransactionIdIsCurrentTransactionId xmin
                      || negb (XidInMVCCSnapshot xmin snapshot) in
  let deleted := negb (xmax =? InvalidTransactionId)
                 && (TransactionIdIsCurrentTransactionId xmax
                     || negb (XidInMVCCSnapshot xmax snapshot)) in
  xmin_visible && negb deleted.

Definition recyclable e (snapshot : Snapshot) : bool :=
  let xmax := get_xmax e in
  if xmax =? InvalidTransactionId then false
  else if XidInMVCCSnapshot xmax snapshot then false
  else GlobalVisCheckRemovableXid xmax.

Definition xmin_needs_freeze e (freeze_limit : Z) : bool :=
  let xmin := get_xmin e in
  TransactionIdIsNormal xmin && TransactionIdPrecedes xmin freeze_limit.

Definition xmax_needs_freeze e (freeze_limit : Z) : bool :=
  let xmax := get_xmax e in
  TransactionIdIsNormal xmax && TransactionIdPrecedes xmax freeze_limit.
End mvcc.

(** Get the freeze limit for marking XIDs as frozen *)
Definition vacuum_get_freeze_limit `{PgXact} : outcome Z :=
  let oldest_xmin := GetOldestNonRemovableTransactionId in
  if negb (TransactionIdIsNormal oldest_xmin) then Panic "TransactionIdIsNormal(oldest_xmin)" else
  if vacuum_freeze_min_age <? 0 then Panic "vacuum_freeze_min_age >= 0" else
  let next_xid := ReadNextFullTransactionId mod 2 ^ 32 in
  let freeze_min_age := Z.min vacuum_freeze_min_age (Z.quot autovacuum_freeze_max_age 2) in
  if as_i32 next_xid <? freeze_min_age then Ok FirstNormalTransactionId else
  (* the test above leaves [freeze_min_age <= next_xid], so [u32] does not wrap *)
  let freeze_limit := (next_xid - freeze_min_age) mod 2 ^ 32 in
  let freeze_limit := if negb (TransactionIdIsNormal freeze_limit)
                      then FirstNormalTransactionId else freeze_limit in
  let freeze_limit := if TransactionIdPrecedes oldest_xmin freeze_limit
                      then oldest_xmin else freeze_limit in
  Ok freeze_limit.

(** ** What Postgres documents of these functions *)

(** [transam.c]: special ids compare unsigned, normal ones modulo 2^32;
    [procarray.c] and [snapmgr.c]: an id older than the oldest non-removable one,
    or a frozen one, is in no snapshot; the oldest non-removable id is at most the
    next one to be assigned. *)
Class PgXactOk `{PgXact} := {
  TransactionIdIsNormal_spec xid :
    TransactionIdIsNormal xid = (FirstNormalTransactionId <=? xid);
  TransactionIdPrecedes_spec id1 id2 :
    TransactionIdPrecedes id1 id2 =
    if negb (FirstNormalTransactionId <=? id1) || negb (FirstNormalTransactionId <=? id2)
    then id1 <? id2
    else as_i32 ((id1 - id2) mod 2 ^ 32) <? 0;
  XidInMVCCSnapshot_frozen snapshot : XidInMVCCSnapshot FrozenTransactionId snapshot = false;
  XidInMVCCSnapshot_old xid snapshot :
    TransactionIdIsNormal xid = true →
    TransactionIdPrecedes xid GetOldestNonRemovableTransactionId = true →
    XidInMVCCSnapshot xid snapshot = false;
  oldest_normal : TransactionIdIsNormal GetOldestNonRemovableTransactionId = true;
  oldest_le_next :
    ReadNextFullTransactionId < 2 ^ 32 →
    GetOldestNonRemovableTransactionId ≤ ReadNextFullTransactionId;
  next_full_xid_normal : FirstNormalTransactionId ≤ ReadNextFullTransactionId mod 2 ^ 32;
  GetCurrentTransactionId_normal : FirstNormalTransactionId ≤ GetCurrentTransactionId ≤ u32_max;
  freeze_ages : 0 ≤ vacuum_freeze_min_age ≤ 1000000000 ∧
                0 ≤ autovacuum_freeze_max_age ≤ 2000000000
}.

Class MVCCEntryOk T `{MVCCEntry T} := {
  get_xmin_frozen e a b : get_xmin (mvcc_into_frozen e a b) = if a then FrozenTransactionId else get_xmin e;
  get_xmax_frozen e a b : get_xmax (mvcc_into_frozen e a b) = if b then FrozenTransactionId else get_xmax e
}.
#[export] Instance SegmentMetaEntry_mvcc_ok `{TantivyIndex} : MVCCEntryOk SegmentMetaEntry.
Proof. by split. Qed.

(** ** Lemmas *)

Lemma as_i32_neg z : 0 ≤ z < 2 ^ 32 → (as_i32 z <? 0) = (2 ^ 31 <=? z).
Proof. intros. unfold as_i32. zcmp. Qed.

Section xact_lemmas.
Context `{PgXactOk}.

(** before the counter has passed 2^31 the order is the plain one *)
Lemma precedes_small a b :
  3 ≤ a < 2 ^ 31 → 3 ≤ b < 2 ^ 31 → TransactionIdPrecedes a b = (a <? b).
Proof.
  intros. rewrite TransactionIdPrecedes_spec. unfold FirstNormalTransactionId.
  destruct (Z.leb_spec 3 a), (Z.leb_spec 3 b); simpl; try lia.
  rewrite as_i32_neg by (apply Z.mod_pos_bound; lia).
  destruct (Z.ltb_spec a b).
  - replace ((a - b) mod 2 ^ 32) with (a - b + 2 ^ 32)
      by (rewrite <- (Z.mod_small (a - b + 2 ^ 32) (2 ^ 32)) by lia;
          replace (a - b + 2 ^ 32) with (a - b + 1 * 2 ^ 32) by lia;
          by rewrite Z.mod_add by lia).
    destruct (Z.leb_spec (2 ^ 31) (a - b + 2 ^ 32)); [done|lia].
  - rewrite Z.mod_small by lia. destruct (Z.leb_spec (2 ^ 31) (a - b)); [lia|done].
Qed.

Lemma precedes_wrapped a : 2 ^ 31 + 3 < a < 2 ^ 32 → TransactionIdPrecedes a 3 = true.
Proof.
  intros. rewrite TransactionIdPrecedes_spec. unfold FirstNormalTransactionId.
  destruct (Z.leb_spec 3 a); [|lia]. simpl.
  rewrite as_i32_neg by (apply Z.mod_pos_bound; lia).
  rewrite Z.mod_small by lia. apply Z.leb_le. lia.
Qed.

Lemma freeze_limit_bounds limit :
  ReadNextFullTransactionId < 2 ^ 31 → 0 ≤ ReadNextFullTransactionId →
  vacuum_get_freeze_limit = Ok limit →
  3 ≤ limit < 2 ^ 31 ∧ limit ≤ GetOldestNonRemovableTransactionId.
Proof.
  intros Hn Hn0. pose proof oldest_normal as Ho. pose proof freeze_ages as [[??] [??]].
  pose proof oldest_le_next as Hle. specialize (Hle ltac:(lia)).
  rewrite TransactionIdIsNormal_spec in Ho. unfold FirstNormalTransactionId in Ho.
  apply Z.leb_le in Ho.
  unfold vacuum_get_freeze_limit. rewrite !TransactionIdIsNormal_spec.
  unfold FirstNormalTransactionId.
  rewrite (Z.mod_small ReadNextFullTransactionId) by lia.
  destruct (Z.leb_spec 3 GetOldestNonRemovableTransactionId); [|lia]. simpl.
  destruct (Z.ltb_spec vacuum_freeze_min_age 0); [lia|].
  unfold as_i32. destruct (Z.ltb_spec ReadNextFullTransactionId (2 ^ 31)); [|lia].
  set (age := Z.min _ _).
  assert (0 ≤ age) by (subst age; pose proof (Z.quot_pos autovacuum_freeze_max_age 2); lia).
  destruct (Z.ltb_spec ReadNextFullTransactionId age); [intros [= <-]; lia|].
  rewrite Z.mod_small by lia.
  destruct (Z.leb_spec 3 (ReadNextFullTransactionId - age)); simpl;
    (destruct (TransactionIdPrecedes GetOldestNonRemovableTransactionId _) eqn:E;
     intros [= <-]; rewrite precedes_small in E by lia;
     first [apply Z.ltb_lt in E | apply Z.ltb_ge in E]; lia).
Qed.
Lemma frozen_not_in_snapshot xid limit snapshot :
  0 ≤ ReadNextFullTransactionId < 2 ^ 31 → xid ≤ ReadNextFullTransactionId →
  3 ≤ limit < 2 ^ 31 → limit ≤ GetOldestNonRemovableTransactionId →
  TransactionIdIsNormal xid && TransactionIdPrecedes xid limit = true →
  XidInMVCCSnapshot xid snapshot = false ∧ xid ≠ InvalidTransactionId.
Proof.
  intros Hnext Hxid Hl Hle Hf. apply andb_true_iff in Hf as [Hn Hp].
  pose proof Hn as Hn'. rewrite TransactionIdIsNormal_spec in Hn'.
  apply Z.leb_le in Hn'. unfold FirstNormalTransactionId in Hn'.
  pose proof oldest_le_next as Ho. rewrite precedes_small in Hp by lia. apply Z.ltb_lt in Hp.
  split; [|unfold InvalidTransactionId; lia].
  apply XidInMVCCSnapshot_old; [done|]. rewrite precedes_small by lia. apply Z.ltb_lt. lia.
Qed.
End xact_lemmas.

Lemma list_ascii_app a b :
  String.list_ascii_of_string (a +:+ b) =
  String.list_ascii_of_string a ++ String.list_ascii_of_string b.
Proof. induction a as [|c a IH]; simpl; [done|]. f_equal. apply IH. Qed.

Section paths.
Context `{TantivyIndex}.

Lemma str_split_plain sep l : sep ∉ l → str_split sep l = [l].
Proof.
  induction l as [|c l IH]; simpl; [done|]. intros Hin.
  rewrite decide_False by set_solver. by rewrite IH by set_solver.
Qed.
Lemma str_split_app sep l1 l2 :
  sep ∉ l1 → str_split sep (l1 ++ sep :: l2) = l1 :: str_split sep l2.
Proof.
  induction l1 as [|c l1 IH]; simpl; intros Hin.
  - by rewrite decide_True.
  - rewrite decide_False by set_solver. by rewrite IH by set_solver.
Qed.

(** a relative name of one component is its own file name *)
Lemma file_name_plain c l s :
  String.list_ascii_of_string s = c :: l → c ≠ "."%char → "/"%char ∉ c :: l →
  file_name s = Some s.
Proof.
  intros Hs Hc Hslash. unfold file_name. rewrite Hs, str_split_plain by done.
  rewrite filter_cons_True by (split; [done|congruence]). simpl.
  rewrite decide_False by congruence.
  pose proof (String.string_of_list_ascii_of_string s) as Hss. rewrite Hs in Hss.
  simpl in Hss. by rewrite Hss.
Qed.

Lemma uuid_cons id :
  ∃ c l, String.list_ascii_of_string (uuid_string id) = c :: l ∧ c ≠ "."%char.
Proof.
  destruct (String.list_ascii_of_string (uuid_string id)) as [|c l] eqn:E.
  - destruct (uuid_string_nonempty id). by destruct (uuid_string id).
  - exists c, l. split; [done|].
    destruct (uuid_string_plain id c) as [? _]; [rewrite E; set_solver|done].
Qed.

(** a name [<uuid>.<rest>] whose rest holds no slash *)
Lemma dotted_name id rest :
  "/"%char ∉ String.list_ascii_of_string rest →
  file_name (uuid_string id +:+ "." +:+ rest) = Some (uuid_string id +:+ "." +:+ rest) ∧
  str_split "." (String.list_ascii_of_string (uuid_string id +:+ "." +:+ rest)) =
  String.list_ascii_of_string (uuid_string id) :: str_split "." (String.list_ascii_of_string rest).
Proof.
  intros Hrest. destruct (uuid_cons id) as (c & l & Hc & Hdot).
  rewrite !list_ascii_app. simpl. split.
  - eapply (file_name_plain c); [by rewrite !list_ascii_app, Hc|done|].
    assert ("/"%char ∉ c :: l).
    { intros Hin. destruct (uuid_string_plain id "/"%char); [by rewrite Hc|done]. }
    set_solver.
  - apply str_split_app. intros Hin. by destruct (uuid_string_plain id _ Hin).
Qed.

Lemma ext_no_slash k : "/"%char ∉ String.list_ascii_of_string (component_ext k).
Proof. intros Hin. by destruct (component_ext_plain k _ Hin). Qed.
Lemma ext_no_dot k : "."%char ∉ String.list_ascii_of_string (component_ext k).
Proof. intros Hin. by destruct (component_ext_plain k _ Hin). Qed.

(** the name a file entry is listed under *)
Definition listed_path (e : SegmentMetaEntry) (c : SegmentComponent) : string :=
  match c with
  | Delete => uuid_string (segment_id e) +:+ ".0." +:+ component_ext Delete
  | _ => component_path (segment_id e) c
  end.

Lemma listed_path_parse e c :
  path_segment_id (listed_path e c) = Some (segment_id e) ∧
  path_component_type (listed_path e c) = Some c.
Proof.
  assert (∃ mid, (mid = [] ∨ mid = [["0"%char]]) ∧
    file_name (listed_path e c) = Some (listed_path e c) ∧
    str_split "." (String.list_ascii_of_string (listed_path e c)) =
      String.list_ascii_of_string (uuid_string (segment_id e)) :: mid ++
      [String.list_ascii_of_string (component_ext c)]) as (mid & Hmid & Hfile & Hsplit).
  { destruct (decide (c = Delete)) as [->|Hc].
    - exists [["0"%char]]. split; [by right|].
      unfold listed_path. change (".0." +:+ ?x) with ("." +:+ ("0." +:+ x)).
      destruct (dotted_name (segment_id e) ("0." +:+ component_ext Delete)) as [Hf Hs].
      { rewrite list_ascii_app. simpl. pose proof (ext_no_slash Delete). set_solver. }
      split; [done|]. rewrite Hs, list_ascii_app. f_equal. simpl.
      rewrite str_split_plain by apply ext_no_dot. done.
    - exists []. split; [by left|].
      replace (listed_path e c) with (component_path (segment_id e) c) by by destruct c.
      unfold component_path.
      destruct (dotted_name (segment_id e) (component_ext c)) as [Hf Hs]; [apply ext_no_slash|].
      split; [done|]. rewrite Hs. by rewrite str_split_plain by apply ext_no_dot. }
  unfold path_segment_id, path_component_type. rewrite Hfile. simpl. rewrite Hsplit.
  destruct Hmid as [-> | ->]; simpl;
    rewrite !String.string_of_list_ascii_of_string, from_uuid_string_uuid,
      component_try_from_ext; done.
Qed.

Lemma elem_of_component_paths e p :
  p ∈ get_component_paths e ↔ ∃ c, is_Some (get_file_entry e c) ∧ p = listed_path e c.
Proof.
  unfold get_component_paths. rewrite !elem_of_app. split.
  - intros Hin.
    destruct Hin as [Hin|[Hin|[Hin|[Hin|[Hin|[Hin|[Hin|Hin]]]]]]].
    1: exists Postings. 2: exists Positions. 3: exists FastFields. 4: exists FieldNorms.
    5: exists Terms. 6: exists Store. 7: exists TempStore. 8: exists Delete.
    all: simpl; case_match; simpl; [|by apply not_elem_of_nil in Hin].
    all: split; [by eexists|]; by apply list_elem_of_singleton in Hin.
  - intros (c & [f Hf] & ->). destruct c; simpl in Hf.
    8: destruct (delete e) eqn:Hd; [|done].
    all: rewrite ?Hf; set_solver.
Qed.
End paths.

(** The file names of a segment parse back: each listed path yields the segment's
    id and a component the segment has, each component it has is listed, and segments
    with different ids share no path. *)
Theorem component_paths_roundtrip `{TantivyIndex} (e : SegmentMetaEntry) :
  (∀ p, p ∈ get_component_paths e →
     path_segment_id p = Some (segment_id e) ∧
     ∃ c, path_component_type p = Some c ∧ is_Some (get_file_entry e c)) ∧
  (∀ c, is_Some (get_file_entry e c) →
     ∃ p, p ∈ get_component_paths e ∧ path_component_type p = Some c) ∧
  (∀ e' p, p ∈ get_component_paths e → p ∈ get_component_paths e' →
     segment_id e = segment_id e').
Proof.
  setoid_rewrite elem_of_component_paths. split_and!.
  - intros p (c & Hc & ->). destruct (listed_path_parse e c). eauto.
  - intros c Hc. exists (listed_path e c). destruct (listed_path_parse e c). eauto.
  - intros e' p (c & _ & ->) (c' & _ & Heq).
    destruct (listed_path_parse e c) as [H1 _], (listed_path_parse e' c') as [H2 _].
    rewrite Heq in H1. congruence.
Qed.

(** An entry that garbage collection may remove is visible to no snapshot it was
    checked against. *)
Theorem recyclable_not_visible `{PgXact} {T} `{MVCCEntry T} (e : T) snapshot :
  recyclable e snapshot = true → visible e snapshot = false.
Proof.
  unfold recyclable, visible. destruct (get_xmax e =? InvalidTransactionId); [done|].
  destruct (XidInMVCCSnapshot (get_xmax e) snapshot); [done|]. intros _. simpl.
  by rewrite orb_true_r, andb_false_r.
Qed.

(** C32: Freezing an entry below the freeze limit changes its visibility for no
    snapshot, while the transaction counter has not passed 2^31. *)
Theorem freeze_keeps_visible `{PgXactOk} {T} `{MVCCEntryOk T} (e : T) snapshot limit :
  0 ≤ ReadNextFullTransactionId < 2 ^ 31 →
  get_xmin e ≤ ReadNextFullTransactionId → get_xmax e ≤ ReadNextFullTransactionId →
  vacuum_get_freeze_limit = Ok limit →
  let e' := mvcc_into_frozen e (xmin_needs_freeze e limit) (xmax_needs_freeze e limit) in
  visible e' snapshot = visible e snapshot.
Proof.
  intros Hnext Hmin Hmax Hlimit e'.
  destruct (freeze_limit_bounds limit) as [Hl Hle]; [lia|lia|done|].
  assert (∀ xid, xid ≤ ReadNextFullTransactionId →
    TransactionIdIsNormal xid && TransactionIdPrecedes xid limit = true →
    XidInMVCCSnapshot xid snapshot = false ∧ xid ≠ InvalidTransactionId) as Hold.
  { intros xid Hxid. by apply frozen_not_in_snapshot. }
  unfold visible, e'. rewrite get_xmin_frozen, get_xmax_frozen. f_equal; [|f_equal].
  - destruct (xmin_needs_freeze e limit) eqn:E; [|done].
    apply Hold in E as [E _]; [|done]. rewrite E, XidInMVCCSnapshot_frozen.
    by rewrite !orb_true_r.
  - destruct (xmax_needs_freeze e limit) eqn:E; [|done].
    apply Hold in E as [E E0]; [|done]. rewrite E, XidInMVCCSnapshot_frozen.
    apply Z.eqb_neq in E0. by rewrite E0, !orb_true_r.
Qed.

(** Once the transaction counter passes 2^31 the cast of the next id to i32 is
    negative, the freeze limit falls to the first normal id, and entries of recent
    transactions, even running ones, count as old enough to freeze. *)
Theorem freeze_limit_wraps `{PgXactOk} {T} `{MVCCEntry T} (e : T) :
  2 ^ 31 ≤ ReadNextFullTransactionId mod 2 ^ 32 →
  2 ^ 31 + 3 < get_xmin e < 2 ^ 32 →
  vacuum_get_freeze_limit = Ok FirstNormalTransactionId ∧
  xmin_needs_freeze e FirstNormalTransactionId = true.
Proof.
  intros Hnext Hmin. split.
  - unfold vacuum_get_freeze_limit. rewrite oldest_normal. simpl.
    pose proof freeze_ages as [[? _] [? _]].
    pose proof (Z.mod_pos_bound ReadNextFullTransactionId (2 ^ 32)).
    pose proof (Z.quot_pos autovacuum_freeze_max_age 2).
    unfold as_i32. zcmp.
  - unfold xmin_needs_freeze. rewrite TransactionIdIsNormal_spec.
    unfold FirstNormalTransactionId. rewrite precedes_wrapped by lia. zcmp.
Qed.
