(* ===== verification/Buffer.v ===== *)
(** * Buffer: the relation, its buffers and its free space

    Models [BM25BufferCache] and [BM25Page::recyclable] of
    [pg_search/src/postgres/storage/utils.rs], [BufferManager] of
    [storage/buffer.rs] and [amvacuumcleanup] of [postgres/vacuum.rs].  The state
    is the relation as one backend sees it between two lock acquisitions: its
    pages, its length, the free space map, the blocks marked dirty and the page
    copies cached by the [BM25BufferCache] in use. *)

From S2P Require Import Prelude Page Block.

Open Scope Z_scope.

(** ** State *)

Record Rel := {
  rel_pages : gmap Z Page;
  rel_nblocks : Z;
  rel_fsm : gset Z;
  rel_dirty : gset Z;
  rel_cache : gmap Z Page
}.

Definition upd_pages (f : gmap Z Page → gmap Z Page) (r : Rel) : Rel :=
  {| rel_pages := f (rel_pages r); rel_nblocks := rel_nblocks r; rel_fsm := rel_fsm r;
     rel_dirty := rel_dirty r; rel_cache := rel_cache r |}.
Definition upd_fsm (f : gset Z → gset Z) (r : Rel) : Rel :=
  {| rel_pages := rel_pages r; rel_nblocks := rel_nblocks r; rel_fsm := f (rel_fsm r);
     rel_dirty := rel_dirty r; rel_cache := rel_cache r |}.
Definition upd_dirty (f : gset Z → gset Z) (r : Rel) : Rel :=
  {| rel_pages := rel_pages r; rel_nblocks := rel_nblocks r; rel_fsm := rel_fsm r;
     rel_dirty := f (rel_dirty r); rel_cache := rel_cache r |}.
Definition upd_cache (f : gmap Z Page → gmap Z Page) (r : Rel) : Rel :=
  {| rel_pages := rel_pages r; rel_nblocks := rel_nblocks r; rel_fsm := rel_fsm r;
     rel_dirty := rel_dirty r; rel_cache := f (rel_cache r) |}.

(** Buffer locks held by other backends and the page a free space map hands out. *)
Class PgBuffers := {
  ConditionalLockBuffer : Z → bool;
  fsm_pick : gset Z → Z;
  fsm_pick_empty : fsm_pick ∅ = InvalidBlockNumber;
  fsm_pick_elem s : s ≠ ∅ → fsm_pick s ∈ s
}.

Section buffer.
Context `{PgPage, PgXact, PgBuffers}.

(** [BM25Page::recyclable] *)
Definition page_recyclable (p : Page) : bool :=
  if PageIsNew p then true
  else if xmax (pd_special p) =? InvalidTransactionId then false
  else if XidInMVCCSnapshot (xmax (pd_special p)) GetActiveSnapshot then false
  else GlobalVisCheckRemovableXid (xmax (pd_special p)).

(** a page [ReadBufferExtended] has just added: all zeroes *)
Definition zero_page : Page :=
  {| pd_lower := 0; pd_upper := 0; pd_area := replicate (Z.to_nat bm25_max_free_space) 0;
     pd_linp := []; pd_special := {| next_blockno := 0; xmax := 0 |} |}.

(** [ReadBufferExtended] of an existing block; past the end it is an ERROR *)
Definition get_page (blockno : Z) : M Rel Page := λ r,
  match rel_pages r !! blockno with
  | Some p => Ok (p, r)
  | None => Panic "could not read block"
  end.

Definition GetFreeIndexPage : M Rel Z := λ r,
  let b := fsm_pick (rel_fsm r) in Ok (b, upd_fsm (λ s, s ∖ {[b]}) r).

Definition RecordFreeIndexPage (blockno : Z) : M Rel unit :=
  modify (upd_fsm (λ s, s ∪ {[blockno]})).

(** [ReadBufferExtended] of [P_NEW] *)
Definition extend_relation : M Rel Z := λ r,
  if rel_nblocks r <? InvalidBlockNumber then
    Ok (rel_nblocks r,
        {| rel_pages := <[rel_nblocks r := zero_page]> (rel_pages r);
           rel_nblocks := rel_nblocks r + 1; rel_fsm := rel_fsm r;
           rel_dirty := rel_dirty r; rel_cache := rel_cache r |})
  else Panic "cannot extend relation beyond blocks".

(** The body of [loop] in [new_buffer]: [Some] is [return buffer], [None] leaves
    the loop, and the recursion is its next round. *)
Fixpoint find_recyclable (fuel : nat) : M Rel (option Z) :=
  match fuel with
  | O => no_fuel
  | S fuel =>
      blockno ← GetFreeIndexPage;
      if blockno =? InvalidBlockNumber then mret None
      else
        page ← get_page blockno;
        if ConditionalLockBuffer blockno && page_recyclable page
        then mret (Some blockno)
        else find_recyclable fuel
  end.

(** one round per page of the free space map and one to find it empty *)
Definition new_buffer : M Rel Z := λ r,
  (found ← find_recyclable (S (size (rel_fsm r)));
   match found with
   | Some blockno => mret blockno
   | None => extend_relation
   end) r.

(** [BufferManager::get_buffer_mut(b)] followed by calls [f] on its [page_mut()];
    the buffer is marked dirty when it is dropped with its flag set *)
Definition with_page_mut {A} (blockno : Z) (f : PageMut → outcome (A * PageMut)) : M Rel A := λ r,
  match rel_pages r !! blockno with
  | None => Panic "could not read block"
  | Some p =>
      match f {| pm_page := p; pm_dirty := false |} with
      | Ok (a, pm) =>
          Ok (a, upd_dirty (λ s, if pm_dirty pm then s ∪ {[blockno]} else s)
                   (upd_pages <[blockno := pm_page pm]> r))
      | Err e => Err e
      | Panic e => Panic e
      | NoFuel => NoFuel
      end
  end.
Definition update_buffer (blockno : Z) (f : PageMut → outcome PageMut) : M Rel unit :=
  with_page_mut blockno (λ pm, pm ← f pm; Ok (tt, pm)).

(** [get_buffer_conditional] *)
Definition get_buffer_conditional (blockno : Z) : M Rel (option Z) :=
  _ ← get_page blockno;
  mret (if ConditionalLockBuffer blockno then Some blockno else None).

Definition page_is_empty (blockno : Z) : M Rel bool :=
  p ← get_page blockno; mret (is_empty p).

(** [BM25BufferCache::open]: a fresh cache *)
Definition BufferManager_new : M Rel unit := modify (upd_cache (λ _, ∅)).

(** [get_page_slice]: the first read of a block is copied, later ones return the copy *)
Definition get_page_slice (blockno : Z) : M Rel Page := λ r,
  match rel_cache r !! blockno with
  | Some p => Ok (p, r)
  | None =>
      (p ← get_page blockno; _ ← modify (upd_cache <[blockno := p]>); mret p) r
  end.

Definition record_free_index_page (blockno : Z) : M Rel unit := RecordFreeIndexPage blockno.

Definition amvacuumcleanup (analyze_only : bool) : M Rel unit :=
  if analyze_only then mret tt else
  nblocks ← gets rel_nblocks;
  _ ← BufferManager_new;
  for_each (seqZ 0 nblocks) (λ blockno,
    page ← get_page blockno;
    if page_recyclable page then record_free_index_page blockno else mret tt).
End buffer.

(** ** Invariant *)

Section buffer_lemmas.
Context `{PgPage, PgXact, PgBuffers}.
Implicit Types (r : Rel) (p : Page) (b : Z).

Definition rel_wf r : Prop :=
  0 ≤ rel_nblocks r ≤ InvalidBlockNumber ∧
  (∀ b, is_Some (rel_pages r !! b) ↔ 0 ≤ b < rel_nblocks r) ∧
  (∀ b, b ∈ rel_fsm r → 0 ≤ b < rel_nblocks r).

(** a page that belongs to a live list *)
Definition page_in_use p : Prop :=
  pd_upper p ≠ 0 ∧ xmax (pd_special p) = InvalidTransactionId.
Definition in_use r b : Prop := ∃ p, rel_pages r !! b = Some p ∧ page_in_use p.

Lemma page_in_use_not_recyclable p : page_in_use p → page_recyclable p = false.
Proof.
  intros [Hup Hx]. unfold page_recyclable. rewrite PageIsNew_spec, Hx.
  by rewrite (proj2 (Z.eqb_neq _ _) Hup).
Qed.

(** the result of the search of the free space map *)
Lemma find_recyclable_spec fuel r :
  rel_wf r → (size (rel_fsm r) < fuel)%nat →
  ∃ o r', find_recyclable fuel r = Ok (o, r') ∧
    rel_pages r' = rel_pages r ∧ rel_nblocks r' = rel_nblocks r ∧
    rel_dirty r' = rel_dirty r ∧ rel_cache r' = rel_cache r ∧
    rel_fsm r' ⊆ rel_fsm r ∧
    match o with
    | Some b => b ∈ rel_fsm r ∧ b ∉ rel_fsm r' ∧ ConditionalLockBuffer b = true ∧
        ∃ p, rel_pages r !! b = Some p ∧ page_recyclable p = true
    | None => ∀ b p, b ∈ rel_fsm r → rel_pages r !! b = Some p →
        ConditionalLockBuffer b && page_recyclable p = false
    end.
Proof.
  revert r. induction fuel as [|fuel IH]; intros r Hwf Hfuel; [lia|].
  simpl. unfold mbind, M_bind, GetFreeIndexPage.
  destruct (decide (rel_fsm r = ∅)) as [Hemp|Hne].
  { rewrite Hemp, fsm_pick_empty, Z.eqb_refl. eexists None, _.
    split; [done|]. simpl. rewrite Hemp. split_and!; set_solver. }
  pose proof (fsm_pick_elem _ Hne) as Hin. set (b := fsm_pick (rel_fsm r)) in *.
  destruct Hwf as (Hn & Hdom & Hfsm). pose proof (Hfsm _ Hin) as Hb.
  rewrite (proj2 (Z.eqb_neq b InvalidBlockNumber)) by lia.
  apply Hdom in Hb as [p Hp]. unfold get_page. simpl. rewrite Hp.
  destruct (ConditionalLockBuffer b && page_recyclable p) eqn:Hrec.
  { apply andb_true_iff in Hrec as [??]. exists (Some b), (upd_fsm (λ s, s ∖ {[b]}) r). split; [done|]. simpl.
    split_and!; try done; [set_solver..|]. eauto. }
  destruct (IH (upd_fsm (λ s, s ∖ {[b]}) r)) as (o & r' & Hrun & ? & ? & ? & ? & Hsub & Ho).
  { split_and!; simpl; [lia|lia|done|set_solver]. }
  { simpl. assert (size (rel_fsm r ∖ {[b]}) < size (rel_fsm r))%nat; [|lia].
    apply subset_size. set_solver. }
  exists o, r'. simpl in *. split_and!; try done; [set_solver|].
  destruct o as [b'|].
  - destruct Ho as (? & ? & ? & ?). split_and!; try done; set_solver.
  - intros b' p' Hb' Hp'. destruct (decide (b' = b)) as [->|]; [|apply Ho; set_solver].
    congruence.
Qed.

(** what a caller may rely on after [new_buffer] *)
Definition allocated r b r' : Prop :=
  rel_wf r' ∧ is_Some (rel_pages r' !! b) ∧ ¬ in_use r b ∧
  (∀ b', b' ≠ b → rel_pages r' !! b' = rel_pages r !! b') ∧
  rel_cache r' = rel_cache r ∧ rel_dirty r' = rel_dirty r ∧
  rel_nblocks r ≤ rel_nblocks r' ≤ rel_nblocks r + 1 ∧
  rel_fsm r' ⊆ rel_fsm r ∧ (rel_fsm r = ∅ → rel_nblocks r ≤ b).

Lemma new_buffer_spec r :
  rel_wf r → rel_nblocks r < InvalidBlockNumber →
  ∃ b r', new_buffer r = Ok (b, r') ∧ allocated r b r' ∧ b ∉ rel_fsm r' ∧
    ((rel_nblocks r' = rel_nblocks r ∧ rel_pages r' = rel_pages r ∧ b ∈ rel_fsm r ∖ rel_fsm r') ∨
     (b = rel_nblocks r ∧ rel_pages r' !! b = Some zero_page ∧
      ∀ b' p, b' ∈ rel_fsm r → rel_pages r !! b' = Some p →
        ConditionalLockBuffer b' && page_recyclable p = false)).
Proof.
  intros Hwf Hn. pose proof Hwf as (Hn' & Hdom & Hfsm).
  destruct (find_recyclable_spec (S (size (rel_fsm r))) r Hwf)
    as (o & r1 & Hrun & Hp & Hnb & Hd & Hc & Hsub & Ho); [lia|].
  unfold new_buffer. rewrite (bind_ok _ _ _ _ _ Hrun). destruct o as [b|].
  - destruct Ho as (Hin & Hout & _ & p & Hbp & Hrec). exists b, r1.
    split; [done|]. split; [|split; [done|left; rewrite Hnb; set_solver]]. split_and!.
    + unfold rel_wf. rewrite Hp, Hnb. split_and!; try lia; [done|set_solver].
    + rewrite Hp, Hbp. by eexists.
    + intros (p' & Hp' & Huse). apply page_in_use_not_recyclable in Huse. congruence.
    + by rewrite Hp.
    + done.
    + done.
    + lia.
    + lia.
    + done.
    + set_solver.
  - unfold extend_relation. rewrite Hnb. zcmp.
    eexists _, _. split; [done|]. split.
    + unfold allocated, rel_wf. simpl. rewrite Hp.
      split; [|split; [rewrite lookup_insert_eq; by eexists|split;
        [|split; [|split; [done|split; [done|split; [lia|split; [done|lia]]]]]]]].
      * split; [lia|]. split.
        -- intros b. destruct (decide (b = rel_nblocks r)) as [->|Hne].
           { rewrite lookup_insert_eq. split; [lia|by eexists]. }
           rewrite lookup_insert_ne by done. rewrite Hdom. lia.
        -- intros b Hb. apply Hsub in Hb. apply Hfsm in Hb. lia.
      * intros (p & Hpp & _). assert (is_Some (rel_pages r !! rel_nblocks r)) as Hs by by eexists.
        apply Hdom in Hs. lia.
      * intros b' Hb'. by rewrite lookup_insert_ne by done.
    + split; [intros Hb; apply Hsub, Hfsm in Hb; lia|]. right. simpl. rewrite lookup_insert_eq. done.
Qed.

(** *** Reading and writing one buffer *)

Lemma get_page_run r b p : rel_pages r !! b = Some p → get_page b r = Ok (p, r).
Proof. intros Hp. unfold get_page. by rewrite Hp. Qed.

(** what [f] did to block [b] *)
Definition written r b pm : Rel :=
  upd_dirty (λ s, if pm_dirty pm then s ∪ {[b]} else s)
    (upd_pages <[b := pm_page pm]> r).

Lemma with_page_mut_run {A} r b p (f : PageMut → outcome (A * PageMut)) a pm :
  rel_pages r !! b = Some p →
  f {| pm_page := p; pm_dirty := false |} = Ok (a, pm) →
  with_page_mut b f r = Ok (a, written r b pm).
Proof. intros Hp Hf. unfold with_page_mut. by rewrite Hp, Hf. Qed.

Lemma written_same r b p :
  rel_pages r !! b = Some p → written r b {| pm_page := p; pm_dirty := false |} = r.
Proof.
  intros Hp. unfold written, upd_pages, upd_dirty. simpl. rewrite insert_id by done. by destruct r.
Qed.

Lemma with_page_mut_read {A} r b p (f : PageMut → outcome A) a :
  rel_pages r !! b = Some p →
  f {| pm_page := p; pm_dirty := false |} = Ok a →
  with_page_mut b (λ pm, x ← f pm; Ok (x, pm)) r = Ok (a, r).
Proof.
  intros Hp Hf. rewrite (with_page_mut_run _ _ _ _ a {| pm_page := p; pm_dirty := false |} Hp).
  - by rewrite written_same.
  - by rewrite Hf.
Qed.

Lemma update_buffer_run r b p f pm :
  rel_pages r !! b = Some p →
  f {| pm_page := p; pm_dirty := false |} = Ok pm →
  update_buffer b f r = Ok (tt, written r b pm).
Proof.
  intros Hp Hf. unfold update_buffer. eapply with_page_mut_run; [done|]. by rewrite Hf.
Qed.

Lemma written_lookup r b pm : rel_pages (written r b pm) !! b = Some (pm_page pm).
Proof. simpl. apply lookup_insert_eq. Qed.
Lemma written_lookup_ne r b b' pm :
  b' ≠ b → rel_pages (written r b pm) !! b' = rel_pages r !! b'.
Proof. intros. simpl. by rewrite lookup_insert_ne. Qed.

Lemma written_wf r b pm : is_Some (rel_pages r !! b) → rel_wf r → rel_wf (written r b pm).
Proof.
  intros Hb (Hn & Hdom & Hfsm). split; [done|split; [|done]].
  intros b'. simpl. destruct (decide (b' = b)) as [->|].
  - rewrite lookup_insert_eq. split; [intros _; by apply Hdom|by eexists].
  - rewrite lookup_insert_ne by done. apply Hdom.
Qed.

(** *** What a computation may have changed *)

(** [r'] comes from [r] by writing the blocks [B] and blocks that were not in use,
    and by adding at most [n] blocks to the relation. *)
Record grows (n : Z) (B : list Z) r r' : Prop := {
  grows_wf : rel_wf r';
  grows_nblocks : rel_nblocks r ≤ rel_nblocks r' ≤ rel_nblocks r + n;
  grows_cache : rel_cache r' = rel_cache r;
  grows_fsm : rel_fsm r' ⊆ rel_fsm r;
  grows_frame b : in_use r b → b ∉ B → rel_pages r' !! b = rel_pages r !! b
}.

Lemma grows_refl B r : rel_wf r → grows 0 B r r.
Proof. split; [done|lia|done..]. Qed.

Lemma grows_fsm_empty n B r r' : grows n B r r' → rel_fsm r = ∅ → rel_fsm r' = ∅.
Proof. intros Hg Hf. pose proof (grows_fsm _ _ _ _ Hg). set_solver. Qed.

Lemma grows_in_use n B r r' b : grows n B r r' → in_use r b → b ∉ B → in_use r' b.
Proof. intros Hg (p & Hp & Hu) Hb. exists p. rewrite (grows_frame _ _ _ _ Hg); [done|by exists p|done]. Qed.

Lemma grows_trans n m B B' r r' r'' :
  grows n B r r' → grows m B' r' r'' → (∀ b, b ∈ B' → b ∈ B ∨ ¬ in_use r b) →
  grows (n + m) B r r''.
Proof.
  intros Hg1 Hg2 HB. pose proof (grows_nblocks _ _ _ _ Hg1). pose proof (grows_nblocks _ _ _ _ Hg2).
  split; [apply Hg2|lia|by rewrite (grows_cache _ _ _ _ Hg2), (grows_cache _ _ _ _ Hg1)|
    by rewrite (grows_fsm _ _ _ _ Hg2), (grows_fsm _ _ _ _ Hg1)|].
  intros b Huse Hb. pose proof (grows_in_use _ _ _ _ _ Hg1 Huse Hb) as Huse'.
  rewrite (grows_frame _ _ _ _ Hg2), (grows_frame _ _ _ _ Hg1); [done..|].
  intros [|]%HB; done.
Qed.
Lemma grows_weaken n m B B' r r' :
  grows n B r r' → n ≤ m → (∀ b, b ∈ B → b ∈ B' ∨ ¬ in_use r b) → grows m B' r r'.
Proof.
  intros Hg1 Hn HB. pose proof (grows_nblocks _ _ _ _ Hg1).
  split; [apply Hg1|lia|apply Hg1|apply Hg1|]. intros b Huse Hb. apply Hg1; [done|]. intros [|]%HB; done.
Qed.

Lemma allocated_grows r b r' : allocated r b r' → grows 1 [] r r'.
Proof.
  intros (? & ? & Hnot & Hsame & ? & ? & ? & ? & ?). split; [done|done|done|done|].
  intros b' Huse _. apply Hsame. by intros ->.
Qed.

Lemma written_grows r b p pm :
  rel_wf r → rel_pages r !! b = Some p → grows 0 [b] r (written r b pm).
Proof.
  intros Hwf Hp. split; [apply written_wf; [by eexists|done]|simpl; lia|done|done|].
  intros b' _ Hb'. apply written_lookup_ne. set_solver.
Qed.

(** two buffers taken one after the other are distinct, though neither is
    initialised in between *)
Lemma new_buffer_two r :
  rel_wf r → rel_nblocks r + 1 < InvalidBlockNumber →
  ∃ a b r1 r2, new_buffer r = Ok (a, r1) ∧ new_buffer r1 = Ok (b, r2) ∧ a ≠ b ∧
    grows 2 [] r r2 ∧ ¬ in_use r a ∧ ¬ in_use r b ∧
    is_Some (rel_pages r2 !! a) ∧ is_Some (rel_pages r2 !! b).
Proof.
  intros Hwf Hn. destruct (new_buffer_spec r Hwf) as (a & r1 & Hrun1 & Ha & Hfsm & _); [lia|].
  pose proof (allocated_grows _ _ _ Ha) as Hg1. destruct Ha as (Hwf1 & Hsa & Hna & Hs1 & _ & _ & Hnb & _).
  destruct (new_buffer_spec r1 Hwf1) as (b & r2 & Hrun2 & Hb & _ & Hcase); [lia|].
  pose proof (allocated_grows _ _ _ Hb) as Hg2. destruct Hb as (Hwf2 & Hsb & Hnotb & Hs2 & _).
  assert (a ≠ b) as Hab.
  { intros ->. destruct Hcase as [(_ & _ & ?)|(-> & _)]; [set_solver|].
    apply Hwf1 in Hsa. lia. }
  exists a, b, r1, r2. split_and!; try done.
  - apply (grows_trans 1 1 [] [] r r1); [done|done|]. intros c Hc. by apply not_elem_of_nil in Hc.
  - intros Hu. apply Hnotb. eapply grows_in_use; [done|done|apply not_elem_of_nil].
  - by rewrite Hs2.
Qed.

(** *** Fresh pages *)

Definition fresh_page p : Prop :=
  page_ok p ∧ page_in_use p ∧ used p = [] ∧ page_next_blockno p = InvalidBlockNumber ∧
  pd_linp p = [] ∧ pd_lower p = offset_of_pd_linp.

Lemma page_ok_upper p : page_ok p → pd_upper p ≠ 0.
Proof.
  intros (_ & -> & _). pose proof bm25_max_free_space_range. pose proof offset_of_pd_linp_range. lia.
Qed.

Lemma init_page_fresh pm : fresh_page (pm_page (init_page pm)).
Proof.
  pose proof (init_page_ok pm). split; [done|]. split; [|split; [apply init_page_used|]].
  - split; [by apply page_ok_upper|done].
  - split; [done|]. destruct (PageInit_spec (pm_page pm)) as (? & _ & _ & ?). done.
Qed.

(** [bman.new_buffer()] and the [init_page()] its callers make *)
Lemma init_buffer_run r b :
  rel_wf r → is_Some (rel_pages r !! b) →
  ∃ r' p, update_buffer b (λ pm, Ok (init_page pm)) r = Ok (tt, r') ∧
    rel_pages r' !! b = Some p ∧ fresh_page p ∧ grows 0 [b] r r' ∧
    (∀ b', b' ≠ b → rel_pages r' !! b' = rel_pages r !! b').
Proof.
  intros Hwf [p Hp]. eexists _, _. split; [by eapply update_buffer_run|].
  split; [apply written_lookup|]. split; [apply init_page_fresh|].
  split; [by eapply written_grows|]. intros. by apply written_lookup_ne.
Qed.

Lemma fresh_in_use r b p : rel_pages r !! b = Some p → fresh_page p → in_use r b.
Proof. intros ? (_ & ? & _). by exists p. Qed.

(** *** Chains of pages *)

Definition next_of (blks : list Z) : Z := default InvalidBlockNumber (head blks).

(** the pages [blks] are linked in order, are in use, and hold [datas] *)
Fixpoint chain r (blks : list Z) (datas : list (list Z)) : Prop :=
  match blks, datas with
  | [], [] => True
  | b :: bs, d :: ds =>
      (∃ p, rel_pages r !! b = Some p ∧ page_ok p ∧ page_in_use p ∧ used p = d ∧
            page_next_blockno p = next_of bs) ∧ chain r bs ds
  | _, _ => False
  end.

Lemma chain_in_use r blks datas b : chain r blks datas → b ∈ blks → in_use r b.
Proof.
  revert datas. induction blks as [|b' bs IH]; intros [|d ds] Hc Hb; try done;
    try (by apply not_elem_of_nil in Hb).
  destruct Hc as [(p & Hp & _ & Hu & _) Hc]. apply elem_of_cons in Hb as [->|Hb]; [by exists p|].
  eauto.
Qed.

Lemma chain_frame r r' blks datas :
  (∀ b, b ∈ blks → rel_pages r' !! b = rel_pages r !! b) → chain r blks datas → chain r' blks datas.
Proof.
  revert datas. induction blks as [|b bs IH]; intros [|d ds] Hsame Hc; try done.
  destruct Hc as [(p & Hp & ?) Hc]. split.
  - exists p. rewrite Hsame; [done|left].
  - apply IH; [|done]. intros. apply Hsame. by right.
Qed.
Lemma chain_grows n B r r' blks datas :
  grows n B r r' → (∀ b, b ∈ blks → b ∉ B) → chain r blks datas → chain r' blks datas.
Proof.
  intros Hg HB Hc. apply (chain_frame r); [|done]. intros b Hb. apply Hg; [|by apply HB].
  by eapply chain_in_use.
Qed.

Lemma chain_length r blks datas : chain r blks datas → length blks = length datas.
Proof.
  revert datas. induction blks as [|b bs IH]; intros [|d ds]; simpl; try done.
  intros [_ Hc]. f_equal. by apply IH.
Qed.

Lemma chain_app r bs1 b2 bs2 ds1 ds2 :
  length bs1 = length ds1 →
  chain r (bs1 ++ b2 :: bs2) (ds1 ++ ds2) ↔
  (∀ i b d, bs1 !! i = Some b → ds1 !! i = Some d →
     ∃ p, rel_pages r !! b = Some p ∧ page_ok p ∧ page_in_use p ∧ used p = d ∧
          page_next_blockno p = next_of (drop (S i) bs1 ++ [b2])) ∧
  chain r (b2 :: bs2) ds2.
Proof.
  revert ds1. induction bs1 as [|b bs1 IH]; intros [|d ds1] Hlen; try done.
  - rewrite !app_nil_l. split; [intros Hc; split; [done|done]|by intros [_ ?]].
  - injection Hlen as Hlen. rewrite <- !app_comm_cons. cbn [chain]. rewrite (IH _ Hlen).
    assert (next_of (bs1 ++ b2 :: bs2) = next_of (bs1 ++ [b2])) as -> by by destruct bs1.
    split.
    + intros (Hp & Hi & Hc). split; [|done]. intros [|i] b' d' Hb Hd; simplify_eq/=; [done|eauto].
    + intros (Hi & Hc). split; [|split; [|done]].
      * by apply (Hi 0%nat).
      * intros i. apply (Hi (S i)).
Qed.

Lemma chain_dom r blks datas b :
  rel_wf r → chain r blks datas → b ∈ blks → 0 ≤ b < rel_nblocks r.
Proof.
  intros (_ & Hdom & _) Hc Hb. destruct (chain_in_use _ _ _ _ Hc Hb) as (p & Hp & _).
  apply Hdom. by eexists.
Qed.

(** a chain has no more pages than the relation *)
Lemma chain_bound r blks datas :
  rel_wf r → chain r blks datas → NoDup blks → (length blks ≤ Z.to_nat (rel_nblocks r))%nat.
Proof.
  intros Hwf Hc Hnd.
  assert (blks ⊆+ seqZ 0 (rel_nblocks r)) as Hsub.
  { apply NoDup_submseteq; [done|]. intros b Hb. apply elem_of_seqZ.
    pose proof (chain_dom _ _ _ _ Hwf Hc Hb). lia. }
  apply submseteq_length in Hsub. by rewrite length_seqZ in Hsub.
Qed.

(** *** [amvacuumcleanup] *)

Lemma record_loop_spec bs r :
  (∀ b, b ∈ bs → is_Some (rel_pages r !! b)) →
  ∃ r', for_each bs (λ blockno,
      page ← get_page blockno;
      if page_recyclable page then record_free_index_page blockno else mret tt) r = Ok (tt, r') ∧
    rel_pages r' = rel_pages r ∧ rel_nblocks r' = rel_nblocks r ∧
    (∀ b, b ∈ rel_fsm r' ↔ b ∈ rel_fsm r ∨
       (b ∈ bs ∧ ∃ p, rel_pages r !! b = Some p ∧ page_recyclable p = true)).
Proof.
  revert r. induction bs as [|b bs IH]; intros r Hin.
  - exists r. split_and!; try done. intros b. split; [by left|]. intros [|[Hb _]]; [done|].
    by apply not_elem_of_nil in Hb.
  - destruct (Hin b) as [p Hp]; [left|]. simpl.
    set (r1 := if page_recyclable p then upd_fsm (λ s, s ∪ {[b]}) r else r).
    assert (rel_pages r1 = rel_pages r ∧ rel_nblocks r1 = rel_nblocks r) as [Hpg Hnb].
    { subst r1. by destruct (page_recyclable p). }
    destruct (IH r1) as (r' & Hrun & Hpg' & Hnb' & Hfsm).
    { intros b' Hb'. rewrite Hpg. apply Hin. by right. }
    exists r'. split; [|split; [congruence|split; [congruence|]]].
    + rewrite (bind_ok _ _ r r1 tt); [done|].
      rewrite (bind_ok _ _ _ _ _ (get_page_run _ _ _ Hp)).
      subst r1. by destruct (page_recyclable p).
    + intros b'. rewrite Hfsm, Hpg, elem_of_cons. subst r1.
      destruct (page_recyclable p) eqn:Hrec; simpl.
      * rewrite elem_of_union, elem_of_singleton. naive_solver.
      * split; [naive_solver|]. intros [|[[->|] (p' & ? & ?)]]; [by left| |eauto].
        congruence.
Qed.
Lemma amvacuumcleanup_spec r :
  rel_wf r →
  ∃ r', amvacuumcleanup false r = Ok (tt, r') ∧ rel_wf r' ∧
    rel_pages r' = rel_pages r ∧ rel_nblocks r' = rel_nblocks r ∧
    ∀ b, b ∈ rel_fsm r' ↔ b ∈ rel_fsm r ∨
      ∃ p, rel_pages r !! b = Some p ∧ page_recyclable p = true.
Proof.
  intros (Hn & Hdom & Hfsm).
  destruct (record_loop_spec (seqZ 0 (rel_nblocks r)) (upd_cache (λ _, ∅) r))
    as (r' & Hrun & Hpg & Hnb & Hf).
  { intros b Hb. apply elem_of_seqZ in Hb. apply Hdom. lia. }
  simpl in *.
  assert (∀ b, b ∈ rel_fsm r' ↔ b ∈ rel_fsm r ∨
      ∃ p, rel_pages r !! b = Some p ∧ page_recyclable p = true) as Hf'.
  { intros b. rewrite Hf, elem_of_seqZ. split; [naive_solver|].
    intros [|(p & Hp & ?)]; [by left|]. right. split; [|eauto].
    assert (is_Some (rel_pages r !! b)) as Hs by by eexists. apply Hdom in Hs. lia. }
  exists r'. split; [done|]. split; [|done]. unfold rel_wf. rewrite Hpg, Hnb.
  split; [lia|split; [done|]].
  intros b Hb. apply Hf' in Hb as [|(p & Hp & _)]; [by apply Hfsm|].
  apply Hdom. by eexists.
Qed.
End buffer_lemmas.

(** C13: new_buffer always returns a page, never one that a live list uses, whatever
    stale or locked blocks the free space map offers, and it changes no other page. *)
Theorem new_buffer_never_live `{PgPage, PgXact, PgBuffers} (r : Rel) :
  rel_wf r → rel_nblocks r < InvalidBlockNumber →
  ∃ b r', new_buffer r = Ok (b, r') ∧ rel_wf r' ∧
    is_Some (rel_pages r' !! b) ∧ ¬ in_use r b ∧
    (∀ b', b' ≠ b → rel_pages r' !! b' = rel_pages r !! b').
Proof.
  intros Hwf Hn. destruct (new_buffer_spec r Hwf Hn) as (b & r' & Hrun & Ha & _).
  destruct Ha as (? & ? & ? & ? & _). by exists b, r'.
Qed.

(** C31: After amvacuumcleanup the next allocation reuses a recyclable page when one can
    be locked instead of extending the relation, and the vacuum offers no page in use
    and changes none. *)
Theorem vacuum_pages_reused `{PgPage, PgXact, PgBuffers} (r : Rel) :
  rel_wf r → rel_nblocks r < InvalidBlockNumber →
  ∃ r', amvacuumcleanup false r = Ok (tt, r') ∧ rel_pages r' = rel_pages r ∧
    (∀ b, in_use r b → b ∉ rel_fsm r → b ∉ rel_fsm r') ∧
    ((∃ b p, rel_pages r !! b = Some p ∧ page_recyclable p = true ∧
             ConditionalLockBuffer b = true) →
     ∃ b r'', new_buffer r' = Ok (b, r'') ∧ rel_nblocks r'' = rel_nblocks r ∧
              b ∉ rel_fsm r'').
Proof.
  intros Hwf Hn. destruct (amvacuumcleanup_spec r Hwf) as (r' & Hrun & Hwf' & Hpg & Hnb & Hf).
  exists r'. split_and!; [done|done| |].
  - intros b (p & Hp & Huse) Hout Hin. apply page_in_use_not_recyclable in Huse.
    apply Hf in Hin as [|(p' & Hp' & ?)]; congruence.
  - intros (b & p & Hp & Hrec & Hlock).
    destruct (new_buffer_spec r' Hwf') as (b' & r'' & Hrun' & _ & _ & [(? & _ & ?)|(_ & _ & Hno)]);
      [lia| |].
    + exists b', r''. split_and!; [done|congruence|set_solver].
    + assert (b ∈ rel_fsm r') as Hin by (apply Hf; eauto).
      rewrite <- Hpg in Hp. specialize (Hno b p Hin Hp). by rewrite Hlock, Hrec in Hno.
Qed.
