(* ===== verification/BlockList.v ===== *)
(** * BlockList: the compressed list of the block numbers of a file

    Models [pg_search/src/postgres/storage/blocklist.rs]: the chunk encoding, the
    builder ([push], [finish], [pack_1x], [pack_4x], [pack_8x]) and the reader.
    The bitpacking crate is the class [BitPacking]; its round trips are laws for
    the inputs the crate documents (sorted, not below the initial value). *)

From S2P Require Import Prelude Page Block Buffer.

Open Scope Z_scope.

(** ** The bitpacking crate *)

(** [BitPacker1x], [BitPacker4x] and [BitPacker8x] *)
Inductive Lanes := X1 | X4 | X8.
Definition BLOCK_LEN (x : Lanes) : Z :=
  match x with X1 => 32 | X4 => 128 | X8 => 256 end.

(** A block [l] that ascends strictly from [initial], or weakly. *)
Definition strictly_ascending (initial : option Z) (l : list Z) : Prop :=
  StronglySorted Z.lt (option_list initial ++ l).
Definition ascending (initial : Z) (l : list Z) : Prop := StronglySorted Z.le (initial :: l).

Class BitPacking := {
  num_bits_sorted : Lanes → Z → list Z → Z;
  compress_sorted : Lanes → Z → list Z → Z → list Z;
  (** the block and the number of bytes read; [None] is a failed assertion *)
  decompress_sorted : Lanes → Z → list Z → Z → option (list Z * Z);
  num_bits_strictly_sorted : Lanes → option Z → list Z → Z;
  compress_strictly_sorted : Lanes → option Z → list Z → Z → list Z;
  decompress_strictly_sorted : Lanes → option Z → list Z → Z → option (list Z * Z);

  num_bits_sorted_range x i l : 0 ≤ num_bits_sorted x i l ≤ 32;
  num_bits_strictly_sorted_range x i l : 0 ≤ num_bits_strictly_sorted x i l ≤ 32;
  compress_sorted_len x i l n :
    0 ≤ n ≤ 32 → zlen (compress_sorted x i l n) = n * BLOCK_LEN x / 8;
  compress_strictly_sorted_len x i l n :
    0 ≤ n ≤ 32 → zlen (compress_strictly_sorted x i l n) = n * BLOCK_LEN x / 8;
  decompress_compress_sorted x i l rest :
    let n := num_bits_sorted x i l in
    zlen l = BLOCK_LEN x → is_u32 i → Forall is_u32 l → ascending i l →
    decompress_sorted x i (compress_sorted x i l n ++ rest) n = Some (l, n * BLOCK_LEN x / 8);
  decompress_compress_strictly_sorted x i l rest :
    let n := num_bits_strictly_sorted x i l in
    zlen l = BLOCK_LEN x → Forall is_u32 (option_list i) → Forall is_u32 l →
    strictly_ascending i l →
    decompress_strictly_sorted x i (compress_strictly_sorted x i l n ++ rest) n =
    Some (l, n * BLOCK_LEN x / 8)
}.

(** The crate computes its deltas modulo 2^32, so its blocks come back in any
    order; the documentation does not promise it, so it is a hypothesis where the
    code feeds the crate an unsorted block. *)
Definition packs_any `{BitPacking} : Prop :=
  (∀ x i l rest, zlen l = BLOCK_LEN x → is_u32 i → Forall is_u32 l →
     let n := num_bits_sorted x i l in
     decompress_sorted x i (compress_sorted x i l n ++ rest) n = Some (l, n * BLOCK_LEN x / 8)) ∧
  (∀ x i l rest, zlen l = BLOCK_LEN x → Forall is_u32 (option_list i) → Forall is_u32 l →
     let n := num_bits_strictly_sorted x i l in
     decompress_strictly_sorted x i (compress_strictly_sorted x i l n ++ rest) n =
     Some (l, n * BLOCK_LEN x / 8)).

(** ** Chunks *)

Inductive ChunkStyleTag :=
  | TagSorted1x | TagSorted4x | TagSorted8x
  | TagStrictlySorted1x | TagStrictlySorted4x | TagStrictlySorted8x
  | TagUncompressed.

Definition tag_as_u8 (t : ChunkStyleTag) : Z :=
  match t with
  | TagSorted1x => 0
  | TagSorted4x => 1
  | TagSorted8x => 2
  | TagStrictlySorted1x => 3
  | TagStrictlySorted4x => 4
  | TagStrictlySorted8x => 5
  | TagUncompressed => 6
  end.

Definition tag_from_u8 (value : Z) : outcome ChunkStyleTag :=
  match value with
  | 0 => Ok TagSorted1x
  | 1 => Ok TagSorted4x
  | 2 => Ok TagSorted8x
  | 3 => Ok TagStrictlySorted1x
  | 4 => Ok TagStrictlySorted4x
  | 5 => Ok TagStrictlySorted8x
  | 6 => Ok TagUncompressed
  | _ => Panic "invalid chunk style tag"
  end.

Inductive ChunkStyle :=
  | Sorted1x (num_bits initial : Z) (bytes : list Z)
  | Sorted4x (num_bits initial : Z) (bytes : list Z)
  | Sorted8x (num_bits initial : Z) (bytes : list Z)
  | StrictlySorted1x (num_bits initial : Z) (bytes : list Z)
  | StrictlySorted4x (num_bits initial : Z) (bytes : list Z)
  | StrictlySorted8x (num_bits initial : Z) (bytes : list Z)
  | Uncompressed (values : list Z).

Definition chunk_tag (c : ChunkStyle) : ChunkStyleTag :=
  match c with
  | Sorted1x _ _ _ => TagSorted1x
  | Sorted4x _ _ _ => TagSorted4x
  | Sorted8x _ _ _ => TagSorted8x
  | StrictlySorted1x _ _ _ => TagStrictlySorted1x
  | StrictlySorted4x _ _ _ => TagStrictlySorted4x
  | StrictlySorted8x _ _ _ => TagStrictlySorted8x
  | Uncompressed _ => TagUncompressed
  end.

Definition byte_len (c : ChunkStyle) : Z :=
  match c with
  | Sorted1x _ _ bytes | Sorted4x _ _ bytes | Sorted8x _ _ bytes
  | StrictlySorted1x _ _ bytes | StrictlySorted4x _ _ bytes | StrictlySorted8x _ _ bytes =>
      1 + 1 + 4 + zlen bytes
  | Uncompressed values => 1 + 1 + zlen values * 4
  end.

Definition into_bytes (c : ChunkStyle) : list Z :=
  match c with
  | Sorted1x num_bits initial bytes | Sorted4x num_bits initial bytes
  | Sorted8x num_bits initial bytes | StrictlySorted1x num_bits initial bytes
  | StrictlySorted4x num_bits initial bytes | StrictlySorted8x num_bits initial bytes =>
      tag_as_u8 (chunk_tag c) :: num_bits :: u32_le_bytes initial ++ bytes
  | Uncompressed values =>
      tag_as_u8 (chunk_tag c) :: (zlen values) mod 256 :: (values ≫= u32_le_bytes)
  end.

(** [slice.is_sorted()] *)
Fixpoint is_sorted (l : list Z) : bool :=
  match l with
  | x :: (y :: _) as l' => (x <=? y) && is_sorted l'
  | _ => true
  end.

(** ** The builder *)

Record Builder := {
  chunks : list ChunkStyle;
  queue : list Z;
  last_chunked_blockno : option Z
}.
Definition Builder_default : Builder :=
  {| chunks := []; queue := []; last_chunked_blockno := None |}.

Section builder.
Context `{BitPacking}.

(** the two branches the three packers share: constructor, initial value, block *)
Definition pack (x : Lanes) (strict sorted : Z → Z → list Z → ChunkStyle)
    (slice : list Z) (initial : option Z) : ChunkStyle :=
  if is_sorted slice then
    let num_bits := num_bits_strictly_sorted x initial slice in
    strict num_bits (default 0 initial) (compress_strictly_sorted x initial slice num_bits)
  else
    let num_bits := num_bits_sorted x (default 0 initial) slice in
    sorted num_bits (default 0 initial) (compress_sorted x (default 0 initial) slice num_bits).

Definition pack_8x := pack X8 StrictlySorted8x Sorted8x.
Definition pack_4x := pack X4 StrictlySorted4x Sorted4x.
Definition pack_1x := pack X1 StrictlySorted1x Sorted1x.

Definition push (block_number : Z) (b : Builder) : outcome Builder :=
  if block_number =? 0 then Panic "cannot add block 0 to the blocklist" else
  if decide (last (queue b) = Some block_number) then Ok b else
  let b :=
    if zlen (queue b) =? BLOCK_LEN X4 then
      {| chunks := chunks b ++ [pack_4x (queue b) (last_chunked_blockno b)];
         queue := []; last_chunked_blockno := last (queue b) |}
    else b in
  Ok {| chunks := chunks b; queue := queue b ++ [block_number];
        last_chunked_blockno := last_chunked_blockno b |}.

(** The [while !queue.is_empty()] loop of [finish]: the chunks it pushes, and
    whether [self.queue] was cleared.  Every round but the last splits off at
    least 32 blocks, so the queue's length bounds the rounds. *)
Fixpoint finish_chunks (fuel : nat) (q : list Z) (lst : option Z) : outcome (list ChunkStyle * bool) :=
  match fuel with
  | O => match q with [] => Ok ([], false) | _ => NoFuel end
  | S fuel =>
      match q with
      | [] => Ok ([], false)
      | _ =>
          if BLOCK_LEN X8 <=? zlen q then
            let head := ztake (BLOCK_LEN X8) q in
            r ← finish_chunks fuel (zdrop (BLOCK_LEN X8) q) (last head);
            Ok (pack_8x head lst :: r.1, r.2)
          else if BLOCK_LEN X4 <=? zlen q then
            let head := ztake (BLOCK_LEN X4) q in
            r ← finish_chunks fuel (zdrop (BLOCK_LEN X4) q) (last head);
            Ok (pack_4x head lst :: r.1, r.2)
          else if BLOCK_LEN X1 <=? zlen q then
            let head := ztake (BLOCK_LEN X1) q in
            r ← finish_chunks fuel (zdrop (BLOCK_LEN X1) q) (last head);
            Ok (pack_1x head lst :: r.1, r.2)
          else Ok ([Uncompressed q], true)
      end
  end.

Context `{PgPage, PgXact, PgBuffers}.

(** The [loop] that writes the chunks: [block] is the buffer held, [chunk] the next
    one to write. *)
Fixpoint write_chunks (fuel : nat) (block : Z) (chunk : ChunkStyle) (rest : list ChunkStyle)
    : M Rel unit :=
  match fuel with
  | O => no_fuel
  | S fuel =>
      fits ← with_page_mut block (λ pm, b ← can_fit pm (byte_len chunk); Ok (b, pm));
      if fits : bool then
        _ ← update_buffer block (λ pm, r ← append_bytes pm (into_bytes chunk); Ok r.2);
        match rest with
        | chunk' :: rest' => write_chunks fuel block chunk' rest'
        | [] => mret tt
        end
      else
        next_block ← new_buffer;
        _ ← update_buffer next_block (λ pm, Ok (init_page pm));
        _ ← update_buffer block (λ pm, Ok (set_next_blockno next_block pm));
        write_chunks fuel next_block chunk rest
  end.

Definition finish (b : Builder) : M Rel (option Z * Builder) :=
  '(new, cleared) ← lift (finish_chunks (length (queue b)) (queue b) (last_chunked_blockno b));
  let b' := {| chunks := []; queue := if cleared : bool then [] else queue b;
               last_chunked_blockno := last_chunked_blockno b |} in
  match chunks b ++ new with
  | [] => mret (None, b')
  | chunk :: rest =>
      block ← new_buffer;
      _ ← update_buffer block (λ pm, Ok (init_page pm));
      _ ← write_chunks (2 * S (length rest)) block chunk rest;
      mret (Some block, b')
  end.
End builder.

(** ** The reader *)

Section reader.
Context `{BitPacking}.

(** [for _ in 0..len { ... blocks.push(value) }] *)
Fixpoint read_u32s (len : nat) (slice : list Z) (offset : Z) : outcome (Z * list Z) :=
  match len with
  | O => Ok (offset, [])
  | S len =>
      tmp ← index_range slice offset (offset + 4);
      r ← read_u32s len slice (offset + 4);
      Ok (r.1, of_le_bytes tmp :: r.2)
  end.

Definition of_packed (offset : Z) (o : option (list Z * Z)) : outcome (Z * list Z) :=
  match o with
  | Some (l, n) => Ok (offset + n, l)
  | None => Panic "bitpacking"
  end.

(** the inner [match tag] of a packed chunk *)
Definition unpack (tag : ChunkStyleTag) (initial : Z) (input : list Z) (num_bits : Z)
    : option (list Z * Z) :=
  let some_initial := if initial =? 0 then None else Some initial in
  match tag with
  | TagSorted1x => decompress_sorted X1 initial input num_bits
  | TagSorted4x => decompress_sorted X4 initial input num_bits
  | TagSorted8x => decompress_sorted X8 initial input num_bits
  | TagStrictlySorted1x => decompress_strictly_sorted X1 some_initial input num_bits
  | TagStrictlySorted4x => decompress_strictly_sorted X4 some_initial input num_bits
  | TagStrictlySorted8x => decompress_strictly_sorted X8 some_initial input num_bits
  | TagUncompressed => None (* unreachable!() *)
  end.

#[global] Arguments unpack : simpl never.

(** one chunk at [offset]: the offset after it and its blocks *)
Definition read_chunk (slice : list Z) (offset : Z) : outcome (Z * list Z) :=
  t ← index slice offset;
  tag ← tag_from_u8 t;
  let offset := offset + 1 in
  match tag with
  | TagUncompressed =>
      len ← index slice offset;
      read_u32s (Z.to_nat len) slice (offset + 1)
  | _ =>
      num_bits ← index slice offset;
      let offset := offset + 1 in
      tmp ← index_range slice offset (offset + 4);
      let initial := of_le_bytes tmp in
      let offset := offset + 4 in
      input ← index_from slice offset;
      of_packed offset (unpack tag initial input num_bits)
  end.

(** the inner [loop]: a chunk is at least two bytes, so the slice bounds it *)
Fixpoint read_chunks (fuel : nat) (slice : list Z) (offset : Z) : outcome (list Z) :=
  match fuel with
  | O => NoFuel
  | S fuel =>
      r ← read_chunk slice offset;
      if zlen slice <=? r.1 then Ok r.2
      else bs ← read_chunks fuel slice r.1; Ok (r.2 ++ bs)
  end.

Context `{PgPage, PgXact, PgBuffers}.

(** the outer [loop]; [fuel] is a bound on the pages of the list *)
Fixpoint reader_loop (fuel : nat) (blockno : Z) : M Rel (list Z) :=
  match fuel with
  | O => no_fuel
  | S fuel =>
      page ← get_page blockno;
      slice ← lift (as_slice page);
      bs ← lift (read_chunks (S (length slice)) slice 0);
      let next := page_next_blockno page in
      if next =? InvalidBlockNumber then mret bs
      else bs' ← reader_loop fuel next; mret (bs ++ bs')
  end.

(** a list visits no block twice, so it has at most as many pages as the relation *)
Definition reader_new (starting_block : Z) : M Rel (list Z) :=
  if starting_block =? InvalidBlockNumber then mret []
  else n ← gets rel_nblocks; reader_loop (Z.to_nat n) starting_block.

Definition reader_get (blocks : list Z) (i : Z) : option Z := znth blocks i.
End reader.

(** ** Encoding *)

Definition block_ok (b : Z) : Prop := is_u32 b ∧ b ≠ 0.

Section encoding.
Context `{BitPacking}.
Implicit Types (c : ChunkStyle) (l : list Z).

(** [c] reads back as the blocks [l] wherever it lies in a page *)
Definition encodes c l : Prop :=
  zlen (into_bytes c) = byte_len c ∧ 2 < byte_len c ≤ 518 ∧ l ≠ [] ∧
  ∀ pre post, read_chunk (pre ++ into_bytes c ++ post) (zlen pre) = Ok (zlen pre + byte_len c, l).

Definition packable (initial : option Z) l : Prop := strictly_ascending initial l ∨ packs_any.

Lemma strictly_ascending_is_sorted initial l :
  strictly_ascending initial l → is_sorted l = true.
Proof.
  unfold strictly_ascending. intros Hs.
  assert (StronglySorted Z.lt l) as Hl.
  { destruct initial; simpl in Hs; [by apply StronglySorted_inv in Hs as [? _]|done]. }
  clear Hs. induction l as [|x l IH]; [done|]. apply StronglySorted_inv in Hl as [Hl Hx].
  destruct l as [|y l]; [done|]. change (is_sorted (x :: y :: l)) with ((x <=? y) && is_sorted (y :: l)).
  rewrite IH by done. apply Forall_cons in Hx as [Hx _]. zcmp.
Qed.

(** the two layouts of a packed chunk *)
Lemma read_packed_header tag nb initial bytes pre post :
  is_u32 initial →
  let slice := pre ++ (tag :: nb :: u32_le_bytes initial ++ bytes) ++ post in
  index slice (zlen pre) = Ok tag ∧
  index slice (zlen pre + 1) = Ok nb ∧
  index_range slice (zlen pre + 1 + 1) (zlen pre + 1 + 1 + 4) = Ok (u32_le_bytes initial) ∧
  index_from slice (zlen pre + 1 + 1 + 4) = Ok (bytes ++ post).
Proof.
  intros Hi slice. split_and!.
  - apply index_app_cons.
  - subst slice. simpl. rewrite cons_middle, app_assoc.
    replace (zlen pre + 1) with (zlen (pre ++ [tag])) by (rewrite zlen_app; done).
    apply index_app_cons.
  - subst slice. replace (zlen pre + 1 + 1) with (zlen (pre ++ [tag; nb]))
      by (rewrite zlen_app; change (zlen [tag; nb]) with 2; lia).
    replace (pre ++ _) with ((pre ++ [tag; nb]) ++ u32_le_bytes initial ++ (bytes ++ post))
      by (simpl; by rewrite <- !app_assoc).
    apply index_range_mid.
  - subst slice. replace (zlen pre + 1 + 1 + 4) with (zlen (pre ++ [tag; nb] ++ u32_le_bytes initial))
      by (rewrite !zlen_app, zlen_u32_le; change (zlen [tag; nb]) with 2; lia).
    replace (pre ++ _) with ((pre ++ [tag; nb] ++ u32_le_bytes initial) ++ (bytes ++ post))
      by (simpl; by rewrite <- !app_assoc).
    apply index_from_app.
Qed.

Lemma tag_from_as_u8 t : tag_from_u8 (tag_as_u8 t) = Ok t.
Proof. by destruct t. Qed.

Lemma packed_encodes c nb initial bytes l :
  chunk_tag c ≠ TagUncompressed →
  into_bytes c = tag_as_u8 (chunk_tag c) :: nb :: u32_le_bytes initial ++ bytes →
  byte_len c = 6 + zlen bytes → zlen bytes ≤ 512 → is_u32 initial → l ≠ [] →
  (∀ post, unpack (chunk_tag c) initial (bytes ++ post) nb = Some (l, zlen bytes)) →
  encodes c l.
Proof.
  intros Htag Hbytes Hlen Hmax Hi Hne Hun. pose proof (zlen_nonneg bytes).
  split; [|split; [lia|split; [done|]]].
  { rewrite Hbytes, !zlen_cons, zlen_app, zlen_u32_le. lia. }
  intros pre post. rewrite Hbytes.
  destruct (read_packed_header (tag_as_u8 (chunk_tag c)) nb initial bytes pre post Hi)
    as (H1 & H2 & H3 & H4).
  set (slice := pre ++ _ ++ post) in *. clearbody slice.
  unfold read_chunk. rewrite H1. simpl. rewrite tag_from_as_u8. simpl.
  destruct (chunk_tag c) eqn:E; try done; rewrite H2; simpl;
    rewrite H3; simpl; rewrite H4; simpl; rewrite of_le_u32 by done; rewrite Hun; simpl;
    do 2 f_equal; lia.
Qed.

Lemma default_initial initial :
  Forall block_ok (option_list initial) →
  is_u32 (default 0 initial) ∧ Forall is_u32 (option_list initial) ∧
  (if default 0 initial =? 0 then None else Some (default 0 initial)) = initial.
Proof.
  destruct initial as [i|]; simpl; [|intros _; split; [done|by split]].
  intros [[? ?] _]%Forall_cons. split; [done|split; [by constructor|]]. zcmp.
Qed.

(** a block comes back from the bytes of its chunk *)
Lemma packable_unpack x initial l post :
  zlen l = BLOCK_LEN x → Forall block_ok l → Forall block_ok (option_list initial) →
  packable initial l →
  let i := default 0 initial in
  let strict_bits := num_bits_strictly_sorted x initial l in
  let bits := num_bits_sorted x i l in
  if is_sorted l
  then decompress_strictly_sorted x initial (compress_strictly_sorted x initial l strict_bits ++ post)
         strict_bits = Some (l, strict_bits * BLOCK_LEN x / 8)
  else decompress_sorted x i (compress_sorted x i l bits ++ post) bits =
         Some (l, bits * BLOCK_LEN x / 8).
Proof.
  intros Hlen Hok Hi Hpk. destruct (default_initial _ Hi) as (Hu & Hu' & _).
  assert (Forall is_u32 l) by (eapply Forall_impl; [done|by intros ? []]).
  destruct Hpk as [Hasc|[Hany Hany']].
  - rewrite (strictly_ascending_is_sorted _ _ Hasc).
    by apply decompress_compress_strictly_sorted.
  - destruct (is_sorted l); simpl; [by apply Hany'|by apply Hany].
Qed.

Lemma packed_size x n : x ≠ X8 → 0 ≤ n ≤ 32 → n * BLOCK_LEN x / 8 ≤ 512.
Proof. intros. apply Z.div_le_upper_bound; [lia|]. destruct x; simpl; [lia..|done]. Qed.

Lemma pack_encodes x strict sorted initial l :
  x ≠ X8 →
  (∀ n i bytes, chunk_tag (strict n i bytes) ≠ TagUncompressed ∧
     into_bytes (strict n i bytes) =
       tag_as_u8 (chunk_tag (strict n i bytes)) :: n :: u32_le_bytes i ++ bytes ∧
     byte_len (strict n i bytes) = 6 + zlen bytes ∧
     ∀ input nb, unpack (chunk_tag (strict n i bytes)) i input nb =
       decompress_strictly_sorted x (if i =? 0 then None else Some i) input nb) →
  (∀ n i bytes, chunk_tag (sorted n i bytes) ≠ TagUncompressed ∧
     into_bytes (sorted n i bytes) =
       tag_as_u8 (chunk_tag (sorted n i bytes)) :: n :: u32_le_bytes i ++ bytes ∧
     byte_len (sorted n i bytes) = 6 + zlen bytes ∧
     ∀ input nb, unpack (chunk_tag (sorted n i bytes)) i input nb =
       decompress_sorted x i input nb) →
  zlen l = BLOCK_LEN x → Forall block_ok l → Forall block_ok (option_list initial) →
  packable initial l → encodes (pack x strict sorted l initial) l.
Proof.
  intros Hx Hstrict Hsorted Hlen Hl Hi Hpk.
  destruct (default_initial _ Hi) as (Hu & _ & Hsome).
  pose proof (λ post, packable_unpack x initial l post Hlen Hl Hi Hpk) as Hun. simpl in Hun.
  assert (l ≠ []) by (intros ->; by destruct x).
  unfold pack. destruct (is_sorted l).
  - pose proof (packed_size x _ Hx (num_bits_strictly_sorted_range x initial l)).
    edestruct Hstrict as (Hs1 & Hs2 & Hs3 & Hs4).
    eapply packed_encodes; [done..|by rewrite compress_strictly_sorted_len by apply num_bits_strictly_sorted_range|done|done|].
    intros post. by rewrite Hs4, Hsome, Hun, compress_strictly_sorted_len by apply num_bits_strictly_sorted_range.
  - pose proof (packed_size x _ Hx (num_bits_sorted_range x (default 0 initial) l)).
    edestruct Hsorted as (Hs1 & Hs2 & Hs3 & Hs4).
    eapply packed_encodes; [done..|by rewrite compress_sorted_len by apply num_bits_sorted_range|done|done|].
    intros post. by rewrite Hs4, Hun, compress_sorted_len by apply num_bits_sorted_range.
Qed.

Lemma pack_4x_encodes initial l :
  zlen l = BLOCK_LEN X4 → Forall block_ok l → Forall block_ok (option_list initial) →
  packable initial l → encodes (pack_4x l initial) l.
Proof. by apply pack_encodes. Qed.
Lemma pack_1x_encodes initial l :
  zlen l = BLOCK_LEN X1 → Forall block_ok l → Forall block_ok (option_list initial) →
  packable initial l → encodes (pack_1x l initial) l.
Proof. by apply pack_encodes. Qed.

Lemma read_u32s_spec l pre post :
  Forall is_u32 l →
  read_u32s (length l) (pre ++ (l ≫= u32_le_bytes) ++ post) (zlen pre) =
  Ok (zlen pre + zlen l * 4, l).
Proof.
  intros Hl. revert pre. induction Hl as [|x l Hx Hl IH]; intros pre.
  - simpl. do 2 f_equal. change (zlen (@nil Z)) with 0. lia.
  - rewrite bind_cons, <- app_assoc. cbn [length read_u32s].
    rewrite <- (zlen_u32_le x) at 1. rewrite index_range_mid.
    cbn [mbind outcome_bind].
    specialize (IH (pre ++ u32_le_bytes x)). rewrite zlen_app, zlen_u32_le, <- app_assoc in IH.
    rewrite IH. cbn [mbind outcome_bind fst snd]. rewrite of_le_u32 by done. do 2 f_equal. rewrite zlen_cons. lia.
Qed.

Lemma uncompressed_encodes l :
  l ≠ [] → zlen l < BLOCK_LEN X1 → Forall is_u32 l → encodes (Uncompressed l) l.
Proof.
  intros Hne Hlen Hl. simpl in Hlen. pose proof (zlen_nonneg l).
  assert (zlen (l ≫= u32_le_bytes) = zlen l * 4) as Hz.
  { clear. induction l; [done|]. rewrite bind_cons, zlen_app, IHl, zlen_cons, zlen_u32_le. lia. }
  assert (zlen l ≠ 0) by (intros ?%zlen_zero; done).
  split; [|split; [|split; [done|]]].
  - simpl. rewrite !zlen_cons, Hz. lia.
  - simpl. lia.
  - intros pre post. unfold read_chunk. simpl. rewrite index_app_cons. simpl.
    rewrite cons_middle, app_assoc.
    replace (zlen pre + 1) with (zlen (pre ++ [6])) by (rewrite zlen_app; done).
    rewrite index_app_cons. simpl.
    rewrite cons_middle, app_assoc.
    replace (zlen (pre ++ [6]) + 1) with (zlen ((pre ++ [6]) ++ [zlen l mod 256]))
      by (rewrite zlen_app; done).
    rewrite Z.mod_small by lia. unfold zlen at 1. rewrite Nat2Z.id.
    rewrite read_u32s_spec by done. rewrite !zlen_app. do 2 f_equal.
    change (zlen [6]) with 1. change (zlen [zlen l]) with 1. lia.
Qed.
End encoding.

(** ** The builder holds what was pushed *)

Lemma last_app_cons {A} (l1 : list A) x l2 : last (l1 ++ x :: l2) = last (x :: l2).
Proof. induction l1 as [|y l1 IH]; [done|]. rewrite <- app_comm_cons, <- IH. by destruct l1. Qed.

Section builder_lemmas.
Context `{BitPacking}.
Implicit Types (bs q l : list Z) (segs : list (list Z)) (b : Builder).

(** block lists the packers are known to round-trip *)
Definition chunkable bs : Prop :=
  Forall block_ok bs ∧ (StronglySorted Z.lt bs ∨ packs_any).

Lemma StronglySorted_suffix bs q :
  StronglySorted Z.lt (bs ++ q) → StronglySorted Z.lt q.
Proof. induction bs; [done|]. simpl. intros [? _]%StronglySorted_inv. auto. Qed.
Lemma StronglySorted_prefix bs q :
  StronglySorted Z.lt (bs ++ q) → StronglySorted Z.lt bs.
Proof.
  induction bs as [|x bs IH]; simpl; [constructor|]. intros [? Hx]%StronglySorted_inv.
  constructor; [auto|]. by apply Forall_app in Hx as [? _].
Qed.

Lemma chunkable_packable bs l q :
  chunkable (bs ++ l ++ q) → packable (last bs) l.
Proof.
  intros [_ [Hs|]]; [|by right]. left. unfold strictly_ascending.
  rewrite app_assoc in Hs. apply StronglySorted_prefix in Hs.
  destruct (last bs) as [x|] eqn:Hl; simpl; [|by apply StronglySorted_suffix in Hs].
  apply last_Some in Hl as [bs' ->]. rewrite <- app_assoc in Hs.
  by apply StronglySorted_suffix in Hs.
Qed.
Lemma chunkable_Forall bs l q :
  chunkable (bs ++ l ++ q) → Forall block_ok l ∧ Forall block_ok (option_list (last bs)).
Proof.
  intros [Hf _]. apply Forall_app in Hf as [Hb Hf]. apply Forall_app in Hf as [? _].
  split; [done|]. destruct (last bs) eqn:Hl; simpl; [|constructor].
  apply last_Some in Hl as [bs' ->]. apply Forall_app in Hb as [_ ?]. done.
Qed.
Lemma chunkable_prefix bs q : chunkable (bs ++ q) → chunkable bs.
Proof.
  intros [Hf Hs]. split; [by apply Forall_app in Hf as [? _]|].
  destruct Hs as [Hs|]; [left|by right]. by apply StronglySorted_prefix in Hs.
Qed.

(** [b] is a builder after the blocks [bs] were pushed *)
Definition builder_of b bs : Prop :=
  ∃ segs, bs = concat segs ++ queue b ∧ Forall2 encodes (chunks b) segs ∧
    zlen (queue b) ≤ BLOCK_LEN X4 ∧ (bs ≠ [] → queue b ≠ []) ∧
    last_chunked_blockno b = last (concat segs).

Lemma builder_of_default : builder_of Builder_default [].
Proof. exists []. by split_and!. Qed.

Lemma builder_of_last b bs : builder_of b bs → last (queue b) = last bs.
Proof.
  intros (segs & -> & _ & _ & Hne & _). destruct (queue b) as [|x q]; [|by rewrite last_app_cons].
  destruct (concat segs) as [|y l]; [done|]. by destruct Hne.
Qed.

Lemma push_same b bs x : x ≠ 0 → builder_of b bs → last bs = Some x → push x b = Ok b.
Proof.
  intros Hx Hb Hl. unfold push. rewrite (proj2 (Z.eqb_neq _ _) Hx).
  by rewrite (builder_of_last _ _ Hb), decide_True.
Qed.

Lemma push_new b bs x :
  builder_of b bs → chunkable (bs ++ [x]) → last bs ≠ Some x →
  ∃ b', push x b = Ok b' ∧ builder_of b' (bs ++ [x]).
Proof.
  intros Hb Hc Hl. pose proof (builder_of_last _ _ Hb) as Hlast.
  destruct Hb as (segs & Hbs & Henc & Hlen & Hne & Hlc).
  assert (block_ok x) as [_ Hx].
  { destruct Hc as [Hc _]. apply Forall_app in Hc as [_ Hc]. by apply Forall_cons in Hc as [? _]. }
  unfold push. rewrite (proj2 (Z.eqb_neq _ _) Hx), decide_False by congruence.
  eexists. split; [done|]. destruct (Z.eqb_spec (zlen (queue b)) (BLOCK_LEN X4)) as [Hfull|Hfull].
  - assert (queue b ≠ []) as Hq by (intros Hq; by rewrite Hq in Hfull).
    exists (segs ++ [queue b]). simpl. rewrite concat_app. simpl. rewrite app_nil_r.
    split; [by rewrite <- Hbs|]. split.
    { apply Forall2_app; [done|]. constructor; [|done].
      rewrite Hbs, <- app_assoc in Hc. rewrite Hlc.
      destruct (chunkable_Forall _ _ _ Hc). apply pack_4x_encodes; [done..|].
      by eapply chunkable_packable. }
    split; [done|]. split; [done|]. by destruct (queue b); [|rewrite last_app_cons].
  - exists segs. simpl. rewrite app_assoc. split; [by rewrite Hbs|]. split; [done|].
    split; [rewrite zlen_app; change (zlen [x]) with 1; simpl in *; lia|].
    split; [|done]. intros _ ?%app_nil. naive_solver.
Qed.

(** one round splits a whole block off the queue *)
Lemma split_head x pre q :
  BLOCK_LEN x ≤ zlen q → chunkable (pre ++ q) →
  let head := ztake (BLOCK_LEN x) q in
  let tail := zdrop (BLOCK_LEN x) q in
  head ++ tail = q ∧ zlen head = BLOCK_LEN x ∧ zlen tail = zlen q - BLOCK_LEN x ∧
  last head = last (pre ++ head) ∧ chunkable ((pre ++ head) ++ tail) ∧
  Forall block_ok head ∧ Forall block_ok (option_list (last pre)) ∧ packable (last pre) head.
Proof.
  intros Hle Hc head tail. assert (0 < BLOCK_LEN x) by by destruct x.
  assert (zlen head = BLOCK_LEN x) as Hhead by (apply zlen_ztake; lia).
  assert (head ++ tail = q) as Hq by apply ztake_zdrop.
  rewrite <- Hq in Hc. destruct (chunkable_Forall _ _ _ Hc).
  split; [done|]. split; [done|]. split; [apply zlen_zdrop; lia|]. split.
  { destruct head; [change (zlen (@nil Z)) with 0 in Hhead; lia|by rewrite last_app_cons]. }
  split; [by rewrite <- app_assoc|]. split; [done|]. split; [done|].
  by eapply chunkable_packable.
Qed.

(** the blocks [finish] chunks up are those of the queue *)
Lemma finish_chunks_spec fuel pre q :
  (length q ≤ fuel)%nat → zlen q ≤ BLOCK_LEN X4 → chunkable (pre ++ q) →
  ∃ cs cl segs, finish_chunks fuel q (last pre) = Ok (cs, cl) ∧
    Forall2 encodes cs segs ∧ concat segs = q.
Proof.
  revert pre q. induction fuel as [|fuel IH]; intros pre q Hfuel Hlen Hc.
  { destruct q; [|simpl in Hfuel; lia]. exists [], false, []. by repeat split. }
  destruct q as [|x q']; [exists [], false, []; by repeat split|].
  set (q := x :: q') in *. cbn [finish_chunks]. fold q.
  change (match q with [] => _ | _ => ?e end) with e.
  assert (∀ y, BLOCK_LEN y ≤ zlen q → (length (zdrop (BLOCK_LEN y) q) ≤ fuel)%nat ∧
    zlen (zdrop (BLOCK_LEN y) q) ≤ BLOCK_LEN X4) as Htail.
  { intros y Hy. destruct (split_head y pre q Hy Hc) as (_ & _ & Hd & _).
    assert (0 < BLOCK_LEN y) by by destruct y. unfold zlen in *. lia. }
  destruct (Z.leb_spec (BLOCK_LEN X8) (zlen q)); [simpl in *; lia|].
  destruct (Z.leb_spec (BLOCK_LEN X4) (zlen q)) as [H4|H4];
    [|destruct (Z.leb_spec (BLOCK_LEN X1) (zlen q)) as [H1|H1]].
  - destruct (split_head X4 pre q H4 Hc) as (Hq & Hh & _ & Hl & Hc' & ? & ? & ?).
    destruct (Htail X4 H4), (IH _ _ ltac:(done) ltac:(done) Hc') as (cs & cl & segs & Hrun & ? & Hs).
    rewrite <- Hl in Hrun. cbn zeta. rewrite Hrun. eexists _, _, (_ :: segs).
    split; [done|]. simpl. rewrite Hs. split; [|done]. constructor; [|done].
    by apply pack_4x_encodes.
  - destruct (split_head X1 pre q H1 Hc) as (Hq & Hh & _ & Hl & Hc' & ? & ? & ?).
    destruct (Htail X1 H1), (IH _ _ ltac:(done) ltac:(done) Hc') as (cs & cl & segs & Hrun & ? & Hs).
    rewrite <- Hl in Hrun. cbn zeta. rewrite Hrun. eexists _, _, (_ :: segs).
    split; [done|]. simpl. rewrite Hs. split; [|done]. constructor; [|done].
    by apply pack_1x_encodes.
  - exists [Uncompressed q], true, [q]. split; [done|]. simpl. rewrite app_nil_r. split; [|done].
    constructor; [|done]. apply uncompressed_encodes; [done|done|].
    destruct Hc as [Hc _]. apply Forall_app in Hc as [_ Hc].
    eapply Forall_impl; [done|by intros ? []].
Qed.
End builder_lemmas.

(** ** The list on disk *)

Section disk.
Context `{BitPacking, PgPage, PgXact, PgBuffers}.
Implicit Types (r : Rel) (d : list Z) (cs : list ChunkStyle) (segs : list (list Z)).

(** the bytes [d] of a page are chunks of the blocks [bs] *)
Definition page_encodes d (bs : list Z) : Prop :=
  ∃ cs segs, cs ≠ [] ∧ Forall2 encodes cs segs ∧ d = cs ≫= into_bytes ∧ bs = concat segs.

(** the pages [blks] hold the block list [bs] *)
Definition blocklist_at r (blks bs : list Z) : Prop :=
  ∃ datas bss, chain r blks datas ∧ NoDup blks ∧ Forall2 page_encodes datas bss ∧ concat bss = bs.

Definition extra_page (p : Page) (chunk : ChunkStyle) : Z :=
  if byte_len chunk <=? header_free_space p then 0 else 1.

Lemma fits_empty p chunk seg :
  page_ok p → used p = [] → encodes chunk seg → extra_page p chunk = 0.
Proof.
  intros Hp Hu (_ & Hlen & _). unfold extra_page. rewrite header_free_space_used, Hu by done.
  change (zlen (@nil Z)) with 0. pose proof bm25_max_free_space_range. zcmp.
Qed.

(** a chunk that fits is appended *)
Lemma append_chunk_run r block p chunk seg :
  rel_wf r → rel_pages r !! block = Some p → page_ok p → page_in_use p →
  encodes chunk seg → extra_page p chunk = 0 →
  ∃ r' p', update_buffer block (λ pm, x ← append_bytes pm (into_bytes chunk); Ok x.2) r = Ok (tt, r') ∧
    grows 0 [block] r r' ∧ rel_pages r' !! block = Some p' ∧ page_ok p' ∧ page_in_use p' ∧
    used p' = used p ++ into_bytes chunk ∧ page_next_blockno p' = page_next_blockno p.
Proof.
  intros Hwf Hp Hok Huse (Hlen & _ & _) Hfit.
  destruct (append_bytes_spec {| pm_page := p; pm_dirty := false |} (into_bytes chunk))
    as (pm' & Hrun & Hok' & Hused & Hsp); [done|..].
  { simpl. rewrite Hlen. unfold extra_page in Hfit. zcmp. }
  eexists _, _. split; [eapply update_buffer_run; [done|by rewrite Hrun]|].
  split; [by eapply written_grows|]. split; [apply written_lookup|]. simpl in *.
  split; [done|]. split; [|split; [done|]].
  - split; [by apply page_ok_upper|]. rewrite Hsp. apply Huse.
  - unfold page_next_blockno. by rewrite Hsp.
Qed.

(** a chunk that does not fit gets a page of its own, linked from the current one *)
Lemma next_page_run r block p :
  rel_wf r → rel_nblocks r < InvalidBlockNumber →
  rel_pages r !! block = Some p → page_ok p → page_in_use p →
  ∃ next r' p' q,
    (next_block ← new_buffer;
     _ ← update_buffer next_block (λ pm, Ok (init_page pm));
     _ ← update_buffer block (λ pm, Ok (set_next_blockno next_block pm));
     mret next_block) r = Ok (next, r') ∧
    grows 1 [block] r r' ∧ next ≠ block ∧ ¬ in_use r next ∧
    rel_pages r' !! next = Some q ∧ fresh_page q ∧
    rel_pages r' !! block = Some p' ∧ page_ok p' ∧ page_in_use p' ∧ used p' = used p ∧
    page_next_blockno p' = next.
Proof.
  intros Hwf Hn Hp Hok Huse.
  destruct (new_buffer_spec r Hwf Hn) as (next & r1 & Hrun & Ha & _).
  pose proof (allocated_grows _ _ _ Ha) as Hg1. destruct Ha as (Hwf1 & Hs & Hnot & Hsame & _).
  assert (next ≠ block) as Hne by (intros ->; apply Hnot; by exists p).
  destruct (init_buffer_run r1 next Hwf1 Hs) as (r2 & q & Hrun2 & Hq & Hfresh & Hg2 & Hsame2).
  assert (rel_pages r2 !! block = Some p) as Hp2 by (rewrite Hsame2, Hsame by done; done).
  set (pm := set_next_blockno next {| pm_page := p; pm_dirty := false |}).
  exists next, (written r2 block pm), (pm_page pm), q. split_and!; try done.
  - rewrite (bind_ok _ _ _ _ _ Hrun), (bind_ok _ _ _ _ _ Hrun2).
    by rewrite (bind_ok _ _ _ _ _ (update_buffer_run _ _ _ _ pm Hp2 eq_refl)).
  - apply (grows_trans 1 0 _ [block] _ r2).
    + apply (grows_trans 1 0 [block] [next] r r1).
      * eapply grows_weaken; [done|lia|]. intros b Hb. by apply not_elem_of_nil in Hb.
      * done.
      * intros b ->%list_elem_of_singleton. by right.
    + apply (written_grows _ _ p); [apply Hg2|done].
    + by left.
  - rewrite written_lookup_ne by done. done.
  - apply written_lookup.
Qed.

Lemma next_page_bind {A} r block next r' (k : Z → M Rel A) :
  (next_block ← new_buffer;
   _ ← update_buffer next_block (λ pm, Ok (init_page pm));
   _ ← update_buffer block (λ pm, Ok (set_next_blockno next_block pm));
   mret next_block) r = Ok (next, r') →
  (next_block ← new_buffer;
   _ ← update_buffer next_block (λ pm, Ok (init_page pm));
   _ ← update_buffer block (λ pm, Ok (set_next_blockno next_block pm));
   k next_block) r = k next r'.
Proof.
  unfold mbind, M_bind, mret, M_ret.
  destruct (new_buffer r) as [[b r1]| | |]; [|done..].
  destruct (update_buffer b _ r1) as [[? r2]| | |]; [|done..].
  destruct (update_buffer block _ r2) as [[? r3]| | |]; [|done..]. by intros [= -> ->].
Qed.

Lemma page_encodes_snoc cs segs chunk seg :
  Forall2 encodes cs segs → encodes chunk seg →
  Forall2 encodes (cs ++ [chunk]) (segs ++ [seg]) ∧
  (cs ++ [chunk]) ≫= into_bytes = (cs ≫= into_bytes) ++ into_bytes chunk ∧
  concat (segs ++ [seg]) = concat segs ++ seg.
Proof.
  intros Hcs Hc. split; [|split].
  - apply Forall2_app; [done|by constructor].
  - rewrite bind_app. f_equal. rewrite bind_cons. apply app_nil_r.
  - rewrite concat_app. simpl. by rewrite app_nil_r.
Qed.

Lemma can_fit_run r block p chunk seg :
  rel_pages r !! block = Some p → page_ok p → encodes chunk seg →
  with_page_mut block (λ pm, b ← can_fit pm (byte_len chunk); Ok (b, pm)) r =
  Ok (extra_page p chunk =? 0, r).
Proof.
  intros Hp Hok (_ & Hlen & _). eapply with_page_mut_read; [exact Hp|].
  rewrite can_fit_spec by (simpl; first [done|lia]). unfold extra_page. simpl.
  by destruct (byte_len chunk <=? header_free_space p).
Qed.

Lemma extra_page_range p chunk : 0 ≤ extra_page p chunk ≤ 1.
Proof. unfold extra_page. zcmp. Qed.

(** The loop of [finish] writes every chunk, on [block] and the pages it adds. *)
Lemma write_chunks_spec fuel r block p chunk rest seg segs cs0 segs0 :
  rel_wf r → rel_pages r !! block = Some p → page_ok p → page_in_use p →
  page_next_blockno p = InvalidBlockNumber →
  Forall2 encodes cs0 segs0 → used p = cs0 ≫= into_bytes →
  encodes chunk seg → Forall2 encodes rest segs →
  rel_nblocks r + zlen rest + extra_page p chunk ≤ InvalidBlockNumber →
  2 * zlen rest + 1 + extra_page p chunk ≤ Z.of_nat fuel →
  ∃ r' blks datas bss, write_chunks fuel block chunk rest r = Ok (tt, r') ∧
    grows (zlen rest + extra_page p chunk) [block] r r' ∧
    chain r' (block :: blks) datas ∧ NoDup (block :: blks) ∧
    Forall2 page_encodes datas bss ∧ concat bss = concat segs0 ++ seg ++ concat segs ∧
    (∀ b, b ∈ blks → ¬ in_use r b).
Proof.
  revert r block p chunk rest seg segs cs0 segs0.
  induction fuel as [|fuel IH];
    intros r block p chunk rest seg segs cs0 segs0 Hwf Hp Hok Huse Hnext Hcs0 Hused Hc Hrest Hn Hfuel;
    pose proof (zlen_nonneg rest) as Hz; pose proof (extra_page_range p chunk) as He; [lia|].
  cbn [write_chunks]. rewrite (bind_ok _ _ _ _ _ (can_fit_run _ _ _ _ _ Hp Hok Hc)).
  destruct (Z.eqb_spec (extra_page p chunk) 0) as [Hfit|Hfull].
  - destruct (append_chunk_run r block p chunk seg)
      as (r1 & p1 & Hrun1 & Hg1 & Hp1 & Hok1 & Huse1 & Hused1 & Hnext1); [done..|].
    rewrite (bind_ok _ _ _ _ _ Hrun1).
    destruct (page_encodes_snoc _ _ _ _ Hcs0 Hc) as (Hcs1 & Hb1 & Hseg1).
    destruct Hrest as [|chunk' seg' rest segs Hc' Hrest].
    + exists r1, [], [used p1], [concat (segs0 ++ [seg])]. split; [done|]. split_and!.
      * by rewrite Hfit.
      * simpl. split; [|done]. exists p1. by rewrite Hnext1.
      * apply NoDup_singleton.
      * constructor; [|done]. exists (cs0 ++ [chunk]), (segs0 ++ [seg]).
        split_and!; [by destruct cs0|done|by rewrite Hused1, Hused, Hb1|done].
      * simpl. rewrite !app_nil_r. done.
      * intros b Hb. by apply not_elem_of_nil in Hb.
    + rewrite zlen_cons in *. pose proof (grows_nblocks _ _ _ _ Hg1).
      pose proof (extra_page_range p1 chunk').
      destruct (IH r1 block p1 chunk' rest seg' segs (cs0 ++ [chunk]) (segs0 ++ [seg]))
        as (r' & blks & datas & bss & Hrun & Hg & Hchain & Hnd & Henc & Hcat & Hfresh);
        [apply Hg1|done|done|done|by rewrite Hnext1|done|by rewrite Hused1, Hused, Hb1|done|done|lia|lia|].
      exists r', blks, datas, bss. split; [done|]. split_and!; try done.
      * eapply grows_weaken; [eapply (grows_trans _ _ [block]); [done|done|by left]|lia|by left].
      * by rewrite Hcat, Hseg1, <- !app_assoc.
      * intros b Hb Huse'. apply (Hfresh b Hb). eapply grows_in_use; [done..|].
        apply NoDup_cons in Hnd as [? _]. intros ->%list_elem_of_singleton. done.
  - destruct (next_page_run r block p)
      as (next & r1 & p1 & q & Hrun1 & Hg1 & Hne & Hnot & Hq & Hfq & Hp1 & Hok1 & Huse1 & Hused1 & Hnext1);
      [done|lia|done..|].
    rewrite (next_page_bind _ _ _ _ _ Hrun1).
    destruct Hfq as (Hqok & Hquse & Hqused & Hqnext & _).
    pose proof (fits_empty _ _ _ Hqok Hqused Hc) as Hfit.
    pose proof (grows_nblocks _ _ _ _ Hg1).
    destruct (IH r1 next q chunk rest seg segs [] [])
      as (r' & blks & datas & bss & Hrun & Hg & Hchain & Hnd & Henc & Hcat & Hfresh);
      [apply Hg1|done|done|done|done|done|done|done|done|lia|lia|].
    assert (in_use r1 block) as Huse_b by by exists p1.
    assert (block ∉ next :: blks) as Hnotin.
    { intros [|Hin]%elem_of_cons; [done|]. by apply (Hfresh block). }
    exists r', (next :: blks), ((cs0 ≫= into_bytes) :: datas), (concat segs0 :: bss).
    split; [done|]. split_and!.
    + eapply grows_weaken; [eapply (grows_trans _ _ [block] [next] r r1); [done|done|]|lia|by left].
      intros b ->%list_elem_of_singleton. by right.
    + split; [|done]. exists p1. split; [|by rewrite Hused1, Hused, Hnext1].
      rewrite (grows_frame _ _ _ _ Hg); [done|done|]. set_solver.
    + by constructor.
    + constructor; [|done]. exists cs0, segs0. split_and!; [|done..].
      intros ->. simpl in Hused. by rewrite (fits_empty p chunk seg) in Hfull.
    + simpl. by rewrite Hcat.
    + intros b [->|Hb]%elem_of_cons; [done|]. intros Huse'. apply (Hfresh b Hb).
      eapply grows_in_use; [done..|]. intros ->%list_elem_of_singleton. set_solver.
Qed.

Lemma encodes_count cs segs : Forall2 encodes cs segs → (length cs ≤ length (concat segs))%nat.
Proof.
  induction 1 as [|c seg cs segs (_ & _ & Hne & _) _ IH]; simpl; [lia|].
  rewrite length_app. destruct seg; [done|]. simpl. lia.
Qed.

(** [finish] writes out what was pushed. *)
Lemma finish_spec r b bs :
  rel_wf r → builder_of b bs → chunkable bs → bs ≠ [] →
  rel_nblocks r + zlen bs < InvalidBlockNumber →
  ∃ start b' r' blks, finish b r = Ok ((Some start, b'), r') ∧
    grows (zlen bs) [] r r' ∧ blocklist_at r' (start :: blks) bs ∧
    (∀ x, x ∈ start :: blks → ¬ in_use r x).
Proof.
  intros Hwf (segs & Hbs & Henc & Hlen & Hqne & Hlast) Hc Hne Hn.
  destruct (finish_chunks_spec (length (queue b)) (concat segs) (queue b))
    as (cs & cl & qsegs & Hfin & Hqenc & Hqcat); [done|done|by rewrite <- Hbs|].
  assert (Forall2 encodes (chunks b ++ cs) (segs ++ qsegs)) as Hall by by apply Forall2_app.
  assert (concat (segs ++ qsegs) = bs) as Hcat by (rewrite concat_app, Hqcat; done).
  pose proof (encodes_count _ _ Hall) as Hcount. rewrite Hcat in Hcount.
  unfold finish. rewrite Hlast. unfold lift, mbind at 1, M_bind at 1. rewrite Hfin.
  destruct (chunks b ++ cs) as [|chunk rest] eqn:Hcs.
  { apply Forall2_nil_inv_l in Hall as Hx. rewrite Hx in Hcat. by destruct Hne. }
  apply Forall2_cons_inv_l in Hall as (seg & segs' & Hc1 & Hrest & Hsegs).
  rewrite Hsegs in Hcat. simpl in Hcat. unfold zlen in Hn. simpl in Hcount.
  destruct (new_buffer_spec r Hwf) as (start & r1 & Hrun1 & Ha & _); [lia|].
  rewrite (bind_ok _ _ _ _ _ Hrun1). pose proof (allocated_grows _ _ _ Ha) as Hg1.
  destruct Ha as (Hwf1 & Hs1 & Hnot & _).
  destruct (init_buffer_run r1 start Hwf1 Hs1) as (r2 & p & Hrun2 & Hp & Hfp & Hg2 & _).
  rewrite (bind_ok _ _ _ _ _ Hrun2). pose proof Hfp as (Hok & Huse & Hused & Hnext & _).
  pose proof (fits_empty _ _ _ Hok Hused Hc1) as Hfit.
  pose proof (grows_nblocks _ _ _ _ Hg1). pose proof (grows_nblocks _ _ _ _ Hg2).
  assert (grows 1 [] r r2) as Hg12.
  { apply (grows_trans 1 0 [] [start] r r1); [done|done|].
    intros x ->%list_elem_of_singleton. by right. }
  destruct (write_chunks_spec (2 * S (length rest)) r2 start p chunk rest seg segs' [] [])
    as (r' & blks & datas & bss & Hrun & Hg & Hchain & Hnd & Henc' & Hcat' & Hnew);
    [apply Hg2|done..|unfold zlen; lia|unfold zlen; lia|].
  rewrite (bind_ok _ _ _ _ _ Hrun).
  eexists start, _, r', blks. split; [done|]. split; [|split].
  - eapply grows_weaken; [eapply (grows_trans _ _ [] [start]); [done|done|]|unfold zlen; lia|by left].
    intros x ->%list_elem_of_singleton. by right.
  - exists datas, bss. split_and!; try done. by rewrite Hcat', <- Hcat.
  - intros x [->|Hx]%elem_of_cons; [done|]. intros Hux. apply (Hnew x Hx).
    eapply grows_in_use; [done|done|]. apply not_elem_of_nil.
Qed.

(** *** Reading it back *)

Lemma read_chunks_spec fuel pre cs segs :
  Forall2 encodes cs segs → cs ≠ [] → (length cs ≤ fuel)%nat →
  read_chunks fuel (pre ++ (cs ≫= into_bytes)) (zlen pre) = Ok (concat segs).
Proof.
  intros Henc. revert pre fuel. induction Henc as [|c seg cs segs Hc Hcs IH]; [done|].
  intros pre [|fuel] _ Hfuel; [simpl in Hfuel; lia|]. cbn [read_chunks].
  destruct Hc as (Hlen & Hrange & _ & Hread). rewrite bind_cons, Hread.
  cbn [mbind outcome_bind fst snd]. rewrite !zlen_app, Hlen.
  destruct cs as [|c' cs].
  - inversion Hcs; subst. simpl. change (zlen (@nil Z)) with 0. zcmp. by rewrite app_nil_r.
  - apply Forall2_cons_inv_l in Hcs as (seg' & segs' & Hc' & Hcs' & ->).
    assert (0 < zlen ((c' :: cs) ≫= into_bytes)).
    { rewrite bind_cons, zlen_app. destruct Hc' as (? & ? & _).
      pose proof (zlen_nonneg (cs ≫= into_bytes)). lia. }
    destruct (Z.leb_spec (zlen pre + (byte_len c + zlen ((c' :: cs) ≫= into_bytes)))
      (zlen pre + byte_len c)); [lia|].
    specialize (IH (pre ++ into_bytes c) fuel ltac:(done)).
    rewrite <- app_assoc, zlen_app, Hlen in IH. rewrite IH; [done|simpl in *; lia].
Qed.

Lemma page_encodes_read d bs :
  page_encodes d bs → read_chunks (S (length d)) d 0 = Ok bs.
Proof.
  intros (cs & segs & Hne & Henc & -> & ->). change 0 with (zlen (@nil Z)).
  apply (read_chunks_spec _ []); [done|done|].
  clear Hne. induction Henc as [|c seg cs segs (Hlen & Hr & _) _ IH]; [simpl; lia|].
  rewrite bind_cons, length_app. unfold zlen in Hlen. simpl. lia.
Qed.

Lemma reader_loop_spec fuel r b blks datas bss :
  chain r (b :: blks) datas → Forall2 page_encodes datas bss →
  (∀ x, x ∈ blks → x ≠ InvalidBlockNumber) → (length (b :: blks) ≤ fuel)%nat →
  reader_loop fuel b r = Ok (concat bss, r).
Proof.
  revert b blks datas bss. induction fuel as [|fuel IH]; intros b blks datas bss Hc He Hx Hf;
    [simpl in Hf; lia|].
  destruct datas as [|d ds]; [done|]. destruct Hc as [(p & Hp & Hok & Huse & Hused & Hnext) Hc].
  apply Forall2_cons_inv_l in He as (bs & bss' & Hd & Hds & ->).
  cbn [reader_loop]. rewrite (bind_ok _ _ _ _ _ (get_page_run _ _ _ Hp)).
  unfold lift. rewrite (bind_ok _ _ r r (used p)) by by rewrite as_slice_used.
  rewrite Hused. rewrite (bind_ok _ _ r r bs) by by rewrite (page_encodes_read _ _ Hd).
  rewrite Hnext. destruct blks as [|b' blks].
  - destruct ds; [|done]. inversion Hds. simpl. by rewrite app_nil_r.
  - cbn [next_of head default]. rewrite (proj2 (Z.eqb_neq _ _)) by (apply Hx; left).
    rewrite (bind_ok _ _ _ _ _ (IH b' blks ds bss' Hc Hds ltac:(intros; apply Hx; by right)
      ltac:(simpl in *; lia))). done.
Qed.

Lemma reader_new_spec r b blks bs :
  rel_wf r → blocklist_at r (b :: blks) bs → reader_new b r = Ok (bs, r).
Proof.
  intros Hwf (datas & bss & Hc & Hnd & He & <-).
  assert (∀ x, x ∈ b :: blks → x ≠ InvalidBlockNumber) as Hx.
  { intros x Hx. pose proof (chain_dom _ _ _ _ Hwf Hc Hx). destruct Hwf as [? _]. lia. }
  unfold reader_new. rewrite (proj2 (Z.eqb_neq _ _)) by (apply Hx; left).
  unfold gets. rewrite (bind_ok _ _ r r (rel_nblocks r)) by done.
  eapply reader_loop_spec; [done|done| |by eapply chain_bound].
  intros x ?. apply Hx. by right.
Qed.
End disk.

(** ** Round trip *)

Section roundtrip.
Context `{BitPacking, PgPage, PgXact, PgBuffers}.

Fixpoint push_all (bs : list Z) (b : Builder) : outcome Builder :=
  match bs with
  | [] => Ok b
  | x :: bs => b ← push x b; push_all bs b
  end.

(** [bs] without the repetitions of a neighbour, as [prev] was the last before it *)
Fixpoint squash (prev : option Z) (bs : list Z) : list Z :=
  match bs with
  | [] => []
  | x :: bs => if decide (prev = Some x) then squash prev bs else x :: squash (Some x) bs
  end.

Lemma push_all_spec bs b bs0 :
  builder_of b bs0 → Forall block_ok bs → chunkable (bs0 ++ squash (last bs0) bs) →
  ∃ b', push_all bs b = Ok b' ∧ builder_of b' (bs0 ++ squash (last bs0) bs).
Proof.
  revert b bs0. induction bs as [|x bs IH]; intros b bs0 Hb Hok Hc; cbn [push_all squash].
  { exists b. by rewrite app_nil_r. }
  apply Forall_cons in Hok as [Hx Hok]. cbn [squash] in Hc.
  destruct (decide (last bs0 = Some x)) as [Hl|Hl].
  { rewrite (push_same _ bs0) by (try done; apply Hx). simpl. auto. }
  rewrite cons_middle, app_assoc in Hc.
  destruct (push_new b bs0 x) as (b1 & Hrun & Hb1); [done|by eapply chunkable_prefix|done|].
  rewrite Hrun. simpl. destruct (IH b1 (bs0 ++ [x])) as (b' & Hrun' & Hb'); [done|done|..].
  { by rewrite last_snoc. }
  exists b'. split; [done|]. by rewrite last_snoc, <- app_assoc in Hb'.
Qed.
End roundtrip.

(** C30: The block list of a file round-trips: the blocks pushed and finished to fresh
    pages are the blocks the reader decodes, with immediate repetitions dropped, and no
    page in use changes. *)
Theorem blocklist_roundtrip `{BitPacking, PgPage, PgXact, PgBuffers} (r : Rel) (bs : list Z) :
  rel_wf r → bs ≠ [] → Forall block_ok bs → chunkable (squash None bs) →
  rel_nblocks r + zlen bs < InvalidBlockNumber →
  ∃ b start b' r',
    push_all bs Builder_default = Ok b ∧
    finish b r = Ok ((Some start, b'), r') ∧
    reader_new start r' = Ok (squash None bs, r') ∧
    (∀ x, in_use r x → rel_pages r' !! x = rel_pages r !! x).
Proof.
  intros Hwf Hne Hok Hc Hn.
  destruct (push_all_spec bs Builder_default []) as (b & Hpush & Hb);
    [apply builder_of_default|done|done|]. cbn [app last] in Hb.
  destruct (finish_spec r b (squash None bs)) as (start & b' & r' & blks & Hrun & Hg & Hat & _);
    [done|done|done| | |].
  { by destruct bs. }
  { assert (∀ prev, zlen (squash prev bs) ≤ zlen bs) as Hlen; [|specialize (Hlen None); lia].
    clear. induction bs as [|x bs IH]; intros prev; simpl; [done|].
    case_decide; rewrite ?zlen_cons; [specialize (IH prev)|specialize (IH (Some x))]; lia. }
  exists b, start, b', r'. split_and!; [done|done| |].
  - eapply reader_new_spec; [apply Hg|done].
  - intros x Hx. apply Hg; [done|apply not_elem_of_nil].
Qed.
