(* ===== verification/LinkedBytes.v ===== *)
(** * LinkedBytes: files as linked lists of byte pages

    Models [pg_search/src/postgres/storage/linked_bytes.rs] and the provided
    methods of [LinkedList] in [block.rs].  A [LinkedBytesList] object is a record;
    its operations thread it and the relation. *)

From S2P Require Import Prelude Page Block Buffer BlockList.

Open Scope Z_scope.

Record LinkedBytesList := {
  header_blockno : Z;
  metadata : LinkedListData;
  blocklist_builder : Builder;
  blocklist_reader : option (list Z)
}.

Definition with_builder (b : Builder) (l : LinkedBytesList) : LinkedBytesList :=
  {| header_blockno := header_blockno l; metadata := metadata l; blocklist_builder := b;
     blocklist_reader := blocklist_reader l |}.
Definition with_metadata (m : LinkedListData) (l : LinkedBytesList) : LinkedBytesList :=
  {| header_blockno := header_blockno l; metadata := m;
     blocklist_builder := blocklist_builder l; blocklist_reader := blocklist_reader l |}.
Definition with_reader (o : option (list Z)) (l : LinkedBytesList) : LinkedBytesList :=
  {| header_blockno := header_blockno l; metadata := metadata l;
     blocklist_builder := blocklist_builder l; blocklist_reader := o |}.

(** [LinkedList::get_start_blockno], [get_last_blockno], [npages] *)
Definition valid_block (b : Z) : outcome Z :=
  if b =? 0 then Panic "blockno != 0"
  else if b =? InvalidBlockNumber then Panic "blockno != InvalidBlockNumber"
  else Ok b.
Definition get_start_blockno (m : LinkedListData) : outcome Z := valid_block (start_blockno m).
Definition get_last_blockno (m : LinkedListData) : outcome Z := valid_block (last_blockno m).
Definition list_npages (m : LinkedListData) : outcome Z :=
  if npages m =? 0 then Panic "attempt to subtract with overflow" else Ok (npages m - 1).

(** [RangeData]: a slice of a cached page or a copy; both dereference to bytes *)
Inductive RangeData :=
  | OnePage (bytes : list Z)
  | MultiPage (bytes : list Z).
Definition range_bytes (d : RangeData) : list Z :=
  match d with OnePage bytes | MultiPage bytes => bytes end.

Section linked_bytes.
Context `{BitPacking, PgPage, PgXact, PgBuffers}.

Definition open (header : Z) : M Rel LinkedBytesList :=
  _ ← BufferManager_new;
  p ← get_page header;
  mret {| header_blockno := header; metadata := contents p;
          blocklist_builder := Builder_default; blocklist_reader := None |}.

Definition create : M Rel LinkedBytesList :=
  _ ← BufferManager_new;
  header ← new_buffer;
  start ← new_buffer;
  _ ← update_buffer header (λ pm, Ok (init_page pm));
  _ ← update_buffer start (λ pm, Ok (init_page pm));
  md ← with_page_mut header (λ pm,
    pm ← contents_mut (λ _, {| start_blockno := start; last_blockno := start; npages := 1;
                               blocklist_start := InvalidBlockNumber |}) pm;
    Ok (contents (pm_page pm), pm));
  mret {| header_blockno := header; metadata := md;
          blocklist_builder := Builder_default; blocklist_reader := None |}.

(** the assignments [write] makes through [contents_mut] when it adds a page *)
Definition header_add_page (new_blockno : Z) (pm : PageMut) : outcome (LinkedListData * PageMut) :=
  n ← add_u32 (npages (contents (pm_page pm))) 1;
  pm ← contents_mut (λ md, {| start_blockno := start_blockno md; last_blockno := new_blockno;
                              npages := n; blocklist_start := blocklist_start md |}) pm;
  Ok (contents (pm_page pm), pm).

(** [free_space_slice_mut], the [read_exact] into it and [pd_lower += n] *)
Definition write_to_page (bytes : list Z) (pm : PageMut) : outcome PageMut :=
  r ← free_space_slice_mut pm (zlen bytes);
  match r with
  | (Some start, pm) => advance_lower (zlen bytes) (write_slice start bytes pm)
  | (None, _) => Panic "page is full"
  end.

(** The [while bytes_written < bytes.len()] loop; [rest] is the part of [bytes] not
    written yet.  A round writes a byte or adds a page to be written in the next
    one, so twice the length of [bytes] is enough fuel. *)
Fixpoint write_loop (fuel : nat) (l : LinkedBytesList) (insert_blockno : Z) (rest : list Z)
    : M Rel LinkedBytesList :=
  match rest with
  | [] => mret l
  | _ =>
      match fuel with
      | O => no_fuel
      | S fuel =>
          b ← lift (push insert_blockno (blocklist_builder l));
          let l := with_builder b l in
          page ← get_page insert_blockno;
          let free_space := header_free_space page in
          _ ← assert (0 <=? free_space) "attempt to subtract with overflow";
          _ ← assert (free_space <=? bm25_max_free_space) "free_space <= bm25_max_free_space()";
          let bytes_to_write := Z.min free_space (zlen rest) in
          if bytes_to_write =? 0 then
            new_blockno ← new_buffer;
            _ ← update_buffer insert_blockno (λ pm, Ok (set_next_blockno new_blockno pm));
            _ ← update_buffer new_blockno (λ pm, Ok (init_page pm));
            md ← with_page_mut (header_blockno l) (header_add_page new_blockno);
            write_loop fuel (with_metadata md l) new_blockno rest
          else
            _ ← update_buffer insert_blockno (write_to_page (ztake bytes_to_write rest));
            write_loop fuel l insert_blockno (zdrop bytes_to_write rest)
      end
  end.

Definition write (l : LinkedBytesList) (bytes : list Z) : M Rel (Z * LinkedBytesList) :=
  insert_blockno ← lift (get_last_blockno (metadata l));
  l ← write_loop (2 * length bytes) l insert_blockno bytes;
  mret (zlen bytes, l).

Definition flush (l : LinkedBytesList) : M Rel LinkedBytesList :=
  '(o, b) ← finish (blocklist_builder l);
  let l := with_builder b l in
  match o with
  | Some blockno =>
      _ ← update_buffer (header_blockno l) (contents_mut (λ md,
        {| start_blockno := start_blockno md; last_blockno := last_blockno md;
           npages := npages md; blocklist_start := blockno |}));
      mret l
  | None => mret l
  end.

(** a walk of a list visits no page twice *)
Fixpoint read_all_loop (fuel : nat) (blockno : Z) : M Rel (list Z) :=
  if blockno =? InvalidBlockNumber then mret [] else
  match fuel with
  | O => no_fuel
  | S fuel =>
      page ← get_page blockno;
      slice ← lift (as_slice page);
      bytes ← read_all_loop fuel (page_next_blockno page);
      mret (slice ++ bytes)
  end.
Definition read_all (l : LinkedBytesList) : M Rel (list Z) :=
  blockno ← lift (get_start_blockno (metadata l));
  n ← gets rel_nblocks;
  read_all_loop (Z.to_nat n) blockno.

Fixpoint mark_deleted_loop (fuel : nat) (blockno : Z) : M Rel unit :=
  if blockno =? InvalidBlockNumber then mret tt else
  match fuel with
  | O => no_fuel
  | S fuel =>
      page ← get_page blockno;
      _ ← update_buffer blockno (λ pm, Ok (mark_deleted ReadNextFullTransactionId pm));
      mark_deleted_loop fuel (page_next_blockno page)
  end.
Definition list_mark_deleted (l : LinkedBytesList) : M Rel unit :=
  n ← gets rel_nblocks;
  _ ← for_each [start_blockno (metadata l); blocklist_start (metadata l)]
        (mark_deleted_loop (Z.to_nat n));
  update_buffer (header_blockno l) (λ pm, Ok (mark_deleted ReadNextFullTransactionId pm)).

Definition list_is_empty (l : LinkedBytesList) : M Rel bool :=
  b ← lift (get_start_blockno (metadata l)); page_is_empty b.

Definition block_for_ord (l : LinkedBytesList) (ord : Z) : M Rel (option Z * LinkedBytesList) :=
  match blocklist_reader l with
  | Some blocks => mret (reader_get blocks ord, l)
  | None =>
      blocks ← reader_new (blocklist_start (metadata l));
      mret (reader_get blocks ord, with_reader (Some blocks) l)
  end.

(** the bytes of a cached page copy from [pd_linp] on *)
Definition page_bytes (p : Page) : list Z := pd_area p ++ special_bytes (pd_special p).

(** a Rust [Range<usize>] is empty when its end is not above its start *)
Definition range_len (start end_ : Z) : Z := Z.max 0 (end_ - start).

Definition get_cached_range (blockno start end_ : Z) : M Rel RangeData :=
  page ← get_page_slice blockno;
  let slice_start := start mod bm25_max_free_space in
  let slice_len := range_len start end_ in
  slice ← lift (index_range (page_bytes page) slice_start (slice_start + slice_len));
  mret (OnePage slice).

(** the uncached loop of [get_bytes_range]: a round reads at least one byte *)
Fixpoint bytes_range_loop (fuel : nat) (start total : Z) (data : list Z) (remaining blockno : Z)
    : M Rel (list Z) :=
  if (zlen data =? total) || (blockno =? InvalidBlockNumber) then mret data else
  match fuel with
  | O => no_fuel
  | S fuel =>
      page ← get_page blockno;
      let slice_start := match data with [] => start mod bm25_max_free_space | _ => 0 end in
      let slice_len := Z.min (bm25_max_free_space - slice_start) remaining in
      bytes_range_loop fuel start total (data ++ as_slice_range page slice_start slice_len)
        (remaining - slice_len) (page_next_blockno page)
  end.

Definition get_bytes_range (l : LinkedBytesList) (start end_ : Z)
    : M Rel (RangeData * LinkedBytesList) :=
  let start_block_ord := start / bm25_max_free_space in
  '(o, l) ← block_for_ord l start_block_ord;
  blockno ← expect o "block not found";
  let len := range_len start end_ in
  if start mod bm25_max_free_space + len <? bm25_max_free_space then
    d ← get_cached_range blockno start end_; mret (d, l)
  else
    data ← bytes_range_loop (Z.to_nat len) start len [] len blockno;
    mret (MultiPage data, l).
End linked_bytes.

(** ** Invariant *)

Section invariant.
Context `{BitPacking, PgPage, PgXact, PgBuffers}.
Implicit Types (r : Rel) (l : LinkedBytesList) (blks content : list Z) (datas : list (list Z)).

(** every page but the last is full *)
Fixpoint filled datas : Prop :=
  match datas with
  | [] => False
  | [d] => True
  | d :: ds => zlen d = bm25_max_free_space ∧ filled ds
  end.

Definition header_at r (b : Z) (md : LinkedListData) : Prop :=
  ∃ p, rel_pages r !! b = Some p ∧ page_ok p ∧ page_in_use p ∧ contents p = md ∧ pod_valid md.

(** the pages of [l]: its header, its blocks [blks] and the bytes [content] on them *)
Record pages_at r (header : Z) (md : LinkedListData) blks content : Prop := {
  pa_header : header_at r header md;
  pa_datas : ∃ datas, chain r blks datas ∧ filled datas ∧ concat datas = content;
  pa_nodup : NoDup (header :: blks);
  pa_zero : Forall block_ok (header :: blks);
  pa_start : head blks = Some (start_blockno md);
  pa_last : last blks = Some (last_blockno md);
  pa_npages : npages md = zlen blks
}.

(** the builder has seen every block, but perhaps the last one *)
Definition builder_sync (b : Builder) blks : Prop :=
  push_all blks Builder_default = Ok b ∨
  ∃ bs x, blks = bs ++ [x] ∧ push_all bs Builder_default = Ok b.

(** the block list will be one the packers round-trip: any is, or all blocks come
    from the end of the relation, in order *)
Definition blocks_sorted r blks : Prop :=
  packs_any ∨ (rel_fsm r = ∅ ∧ StronglySorted Z.lt blks).

Definition writing r l blks content : Prop :=
  rel_wf r ∧ in_use r 0 ∧
  pages_at r (header_blockno l) (metadata l) blks content ∧
  builder_sync (blocklist_builder l) blks ∧ blocks_sorted r blks.

(** between two calls of [write] *)
Definition list_ok r l blks content : Prop :=
  writing r l blks content ∧
  (content ≠ [] → push_all blks Builder_default = Ok (blocklist_builder l)) ∧
  (content = [] → blocklist_builder l = Builder_default).

Lemma push_all_app bs1 bs2 b b' :
  push_all bs1 b = Ok b' → push_all (bs1 ++ bs2) b = push_all bs2 b'.
Proof.
  revert b. induction bs1 as [|x bs1 IH]; intros b; simpl; [by intros [= ->]|].
  destruct (push x b); simpl; try done. apply IH.
Qed.

Lemma push_last x b b' : push x b = Ok b' → last (queue b') = Some x.
Proof.
  unfold push. destruct (x =? 0); [done|]. case_decide as Hl; intros [= <-]; [done|].
  apply last_snoc.
Qed.
Lemma push_all_last bs b b' : push_all bs b = Ok b' → bs ≠ [] → last (queue b') = last bs.
Proof.
  revert b. induction bs as [|x bs IH]; intros b; [done|]. simpl.
  destruct (push x b) as [b1| | |] eqn:E; simpl; try done. intros Hrun _.
  destruct bs as [|y bs].
  - injection Hrun as <-. by apply push_last in E.
  - by eapply IH.
Qed.

Lemma push_total x b : x ≠ 0 → ∃ b', push x b = Ok b'.
Proof. intros Hx. unfold push. rewrite (proj2 (Z.eqb_neq _ _) Hx). case_decide; eauto. Qed.

(** pushing the last block once more leaves the builder in step *)
Lemma builder_sync_push b bs x :
  x ≠ 0 → builder_sync b (bs ++ [x]) →
  ∃ b', push x b = Ok b' ∧ push_all (bs ++ [x]) Builder_default = Ok b'.
Proof.
  intros Hx [Hall|(bs' & x' & Heq & Hall)].
  - exists b. split; [|done]. unfold push. rewrite (proj2 (Z.eqb_neq _ _) Hx).
    apply push_all_last in Hall as Hl; [|by destruct bs].
    by rewrite Hl, last_snoc, decide_True.
  - apply app_inj_2 in Heq as [-> [= ->]]; [|done].
    destruct (push_total x' b Hx) as [b' Hb']. exists b'. split; [done|].
    erewrite push_all_app by done. simpl. by rewrite Hb'.
Qed.

(** *** Chains and their last page *)

Lemma chain_replace_tail r r' bs1 x bs2 bs2' ds1 ds2 ds2' :
  length bs1 = length ds1 → chain r (bs1 ++ x :: bs2) (ds1 ++ ds2) →
  (∀ b, b ∈ bs1 → rel_pages r' !! b = rel_pages r !! b) →
  chain r' (x :: bs2') ds2' → chain r' (bs1 ++ x :: bs2') (ds1 ++ ds2').
Proof.
  intros Hlen [Hpre _]%chain_app Hsame Htail; [|done]. apply chain_app; [done|].
  split; [|done]. intros i b d Hb Hd. destruct (Hpre i b d Hb Hd) as (p & Hp & Hrest).
  exists p. rewrite Hsame; [done|]. by eapply list_elem_of_lookup_2.
Qed.

Lemma chain_snoc_inv r bs x datas :
  chain r (bs ++ [x]) datas →
  ∃ ds d p, datas = ds ++ [d] ∧ length bs = length ds ∧
    rel_pages r !! x = Some p ∧ page_ok p ∧ page_in_use p ∧ used p = d ∧
    page_next_blockno p = InvalidBlockNumber.
Proof.
  intros Hc. pose proof (chain_length _ _ _ Hc) as Hlen. rewrite length_app in Hlen. simpl in Hlen.
  destruct datas as [|d ds _] using rev_ind; [simpl in Hlen; lia|].
  rewrite length_app in Hlen. simpl in Hlen.
  assert (length bs = length ds) as Hl by lia.
  apply chain_app in Hc as [_ [(p & Hp) _]]; [|done]. exists ds, d, p. done.
Qed.

Lemma filled_snoc ds d : filled (ds ++ [d]) ↔ Forall (λ d, zlen d = bm25_max_free_space) ds.
Proof.
  induction ds as [|d' ds IH]; simpl; [by split; [intros _; constructor|]|].
  rewrite Forall_cons. destruct (ds ++ [d]) as [|? ?] eqn:E; [by destruct ds|].
  rewrite <- IH. done.
Qed.

(** *** One page *)

Lemma write_to_page_spec p bytes :
  page_ok p → page_in_use p → zlen bytes ≤ header_free_space p →
  ∃ pm, write_to_page bytes {| pm_page := p; pm_dirty := false |} = Ok pm ∧
    page_ok (pm_page pm) ∧ page_in_use (pm_page pm) ∧ used (pm_page pm) = used p ++ bytes ∧
    page_next_blockno (pm_page pm) = page_next_blockno p ∧ pm_dirty pm = true.
Proof.
  intros Hp [_ Hx] Hfit. pose proof (page_bounds _ Hp). pose proof (zlen_nonneg bytes).
  pose proof (write_lower_used _ _ Hp Hfit) as Hw. cbn zeta in Hw.
  unfold header_free_space in Hfit.
  unfold write_to_page, free_space_slice_mut. simpl. rewrite to_u16_ok by lia. simpl.
  rewrite add_u16_ok by lia. simpl.
  destruct (Z.ltb_spec (pd_upper p) (pd_lower p + zlen bytes)); [lia|]. simpl.
  unfold advance_lower. simpl. rewrite add_u16_ok by lia. simpl. eexists. split; [done|].
  destruct Hw as [Hok Hused]. split; [done|]. split; [|done]. split; [|done].
  by apply page_ok_upper in Hok.
Qed.

Lemma contents_update_run {T} `{Pod T} r b p (f : T → T) :
  rel_wf r → rel_pages r !! b = Some p → page_ok p → page_in_use p → pod_valid (f (contents p)) →
  ∃ pm, contents_mut f {| pm_page := p; pm_dirty := false |} = Ok pm ∧
    page_ok (pm_page pm) ∧ page_in_use (pm_page pm) ∧ contents (pm_page pm) = f (contents p) ∧
    grows 0 [b] r (written r b pm).
Proof.
  intros Hwf Hp Hok [_ Hx] Hv.
  destruct (contents_mut_spec f {| pm_page := p; pm_dirty := false |} Hok Hv)
    as (pm & Hrun & Hok' & Hc & Hs & _). exists pm. split; [done|]. split; [done|].
  split; [|split; [done|by eapply written_grows]].
  split; [by apply page_ok_upper|]. by rewrite Hs.
Qed.

(** the header after a page was added *)
Definition added (md : LinkedListData) (y : Z) : LinkedListData :=
  {| start_blockno := start_blockno md; last_blockno := y; npages := npages md + 1;
     blocklist_start := blocklist_start md |}.

Lemma header_add_page_run r h md y :
  rel_wf r → header_at r h md → is_u32 y → npages md < u32_max →
  ∃ r', with_page_mut h (header_add_page y) r = Ok (added md y, r') ∧
    header_at r' h (added md y) ∧ grows 0 [h] r r' ∧
    (∀ b, b ≠ h → rel_pages r' !! b = rel_pages r !! b).
Proof.
  intros Hwf (hp & Hhp & Hok & Hu & Hmd & Hpod) Hy Hn.
  set (f := λ m, {| start_blockno := start_blockno m; last_blockno := y; npages := npages md + 1;
                    blocklist_start := blocklist_start m |}).
  assert (f (contents hp) = added md y) as Hf by (unfold f; by rewrite Hmd).
  assert (pod_valid (added md y)) as Hv.
  { destruct Hpod as (? & ? & [? ?] & ?). simpl. unfold is_u32 in *. lia. }
  destruct (contents_update_run r h hp f Hwf Hhp Hok Hu) as (pm & Hrun & Hok' & Hu' & Hc & Hg);
    [by rewrite Hf|].
  exists (written r h pm). split; [|split; [|split; [done|]]].
  - eapply with_page_mut_run; [done|]. unfold header_add_page. cbn [pm_page]. rewrite Hmd.
    unfold add_u32. destruct (Z.leb_spec (npages md + 1) u32_max); [|lia].
    cbn [mbind outcome_bind]. fold f. rewrite Hrun. cbn [mbind outcome_bind]. by rewrite Hc, Hf.
  - exists (pm_page pm). rewrite written_lookup. split; [done|]. split; [done|]. split; [done|].
    split; [by rewrite Hc, Hf|done].
  - intros b Hb. by apply written_lookup_ne.
Qed.
End invariant.

Section write_lemmas.
Context `{BitPacking, PgPage, PgXact, PgBuffers}.
Implicit Types (r : Rel) (l : LinkedBytesList) (blks content : list Z) (md : LinkedListData).

Lemma header_at_grows n B r r' h md :
  grows n B r r' → h ∉ B → header_at r h md → header_at r' h md.
Proof.
  intros Hg Hh (p & Hp & Hok & Hu & Hc). exists p. split; [|done].
  rewrite (grows_frame _ _ _ _ Hg); [done|by exists p|done].
Qed.

(** bytes that fit are appended to the last page *)
Lemma pages_write_run r h md bs x content bytes p :
  rel_wf r → pages_at r h md (bs ++ [x]) content →
  rel_pages r !! x = Some p → zlen bytes ≤ header_free_space p →
  ∃ r', update_buffer x (write_to_page bytes) r = Ok (tt, r') ∧ grows 0 [x] r r' ∧
    pages_at r' h md (bs ++ [x]) (content ++ bytes) ∧
    ∃ p', rel_pages r' !! x = Some p' ∧ used p' = used p ++ bytes ∧ page_ok p'.
Proof.
  intros Hwf Hpa Hp Hfit. destruct Hpa as [Hh (datas & Hc & Hfill & Hcat) Hnd Hz Hs Hl Hn].
  destruct (chain_snoc_inv _ _ _ _ Hc) as (ds & d & p0 & -> & Hlen & Hp0 & Hok & Hu & Hused & Hnext).
  assert (p0 = p) as -> by congruence.
  destruct (write_to_page_spec p bytes Hok Hu Hfit) as (pm & Hrun & Hok' & Hu' & Hused' & Hnext' & _).
  pose proof (written_grows r x p pm Hwf Hp) as Hg.
  apply NoDup_cons in Hnd as [Hhx Hnd]. pose proof Hnd as Hnd'.
  apply NoDup_app in Hnd' as (_ & Hdisj & _).
  eexists. split; [by eapply update_buffer_run|]. split; [done|]. split.
  - split; try done.
    + eapply header_at_grows; [done| |done]. set_solver.
    + exists (ds ++ [used p ++ bytes]). split; [|split].
      * apply (chain_replace_tail r _ bs x [] [] ds [d]); [done..| |].
        { intros b Hb. apply written_lookup_ne. intros ->. apply (Hdisj x Hb). set_solver. }
        split; [|done]. exists (pm_page pm). split; [apply written_lookup|].
        by rewrite Hnext', Hnext.
      * by apply filled_snoc; apply filled_snoc in Hfill.
      * rewrite <- Hcat, !concat_app, Hused. simpl. by rewrite !app_nil_r, app_assoc.
    + by constructor.
  - exists (pm_page pm). split; [apply written_lookup|done].
Qed.

(** the statements of [write] that add a page *)
Definition add_page h (insert_blockno : Z) : M Rel (Z * LinkedListData) :=
  new_blockno ← new_buffer;
  _ ← update_buffer insert_blockno (λ pm, Ok (set_next_blockno new_blockno pm));
  _ ← update_buffer new_blockno (λ pm, Ok (init_page pm));
  md ← with_page_mut h (header_add_page new_blockno);
  mret (new_blockno, md).

Lemma add_page_bind {A} r h x y md r' (k : Z → LinkedListData → M Rel A) :
  add_page h x r = Ok ((y, md), r') →
  (new_blockno ← new_buffer;
   _ ← update_buffer x (λ pm, Ok (set_next_blockno new_blockno pm));
   _ ← update_buffer new_blockno (λ pm, Ok (init_page pm));
   md ← with_page_mut h (header_add_page new_blockno);
   k new_blockno md) r = k y md r'.
Proof.
  unfold add_page, mbind, M_bind, mret, M_ret.
  destruct (new_buffer r) as [[b r1]| | |]; [|done..].
  destruct (update_buffer x _ r1) as [[? r2]| | |]; [|done..].
  destruct (update_buffer b _ r2) as [[? r3]| | |]; [|done..].
  destruct (with_page_mut h _ r3) as [[? r4]| | |]; [|done..]. by intros [= -> -> ->].
Qed.

(** the three buffer writes of [add_page], with what they leave behind *)
Lemma add_page_run r h md x p :
  rel_wf r → rel_nblocks r < InvalidBlockNumber → h ≠ x →
  rel_pages r !! x = Some p → page_ok p → page_in_use p →
  header_at r h md → npages md < u32_max →
  ∃ y r', add_page h x r = Ok ((y, added md y), r') ∧
    grows 1 [x; h] r r' ∧ ¬ in_use r y ∧ (rel_fsm r = ∅ → rel_nblocks r ≤ y) ∧
    header_at r' h (added md y) ∧
    (∃ p', rel_pages r' !! x = Some p' ∧ page_ok p' ∧ page_in_use p' ∧ used p' = used p ∧
           page_next_blockno p' = y) ∧
    (∃ q, rel_pages r' !! y = Some q ∧ fresh_page q).
Proof.
  intros Hwf Hn Hhx Hp Hok Hu Hh Hnp. pose proof Hh as (hp & Hhp & _ & Hhu & _).
  destruct (new_buffer_spec r Hwf Hn) as (y & r1 & Hrun & Ha & _).
  pose proof (allocated_grows _ _ _ Ha) as Hg1.
  destruct Ha as (Hwf1 & Hs & Hnot & Hsame & _ & _ & _ & _ & Hlast).
  assert (in_use r x) as Hux by by exists p. assert (in_use r h) as Huh by by exists hp.
  assert (y ≠ x) as Hyx by by intros ->. assert (y ≠ h) as Hyh by by intros ->.
  assert (is_u32 y) as Hy.
  { destruct Hwf1 as ([_ ?] & Hdom & _). apply Hdom in Hs.
    unfold is_u32, u32_max, InvalidBlockNumber in *. lia. }
  set (pm := set_next_blockno y {| pm_page := p; pm_dirty := false |}).
  assert (rel_pages r1 !! x = Some p) as Hp1 by (rewrite Hsame by done; done).
  pose proof (written_grows r1 x p pm Hwf1 Hp1) as Hg2. set (r2 := written r1 x pm) in *.
  destruct (init_buffer_run r2 y) as (r3 & q & Hrun3 & Hq & Hfresh & Hg3 & Hsame3).
  { apply Hg2. } { subst r2. by rewrite written_lookup_ne. }
  assert (header_at r3 h md) as Hh3.
  { destruct Hh as (hp' & Hhp' & Hrest). exists hp'. split; [|done]. rewrite Hsame3 by done.
    subst r2. by rewrite written_lookup_ne, Hsame. }
  destruct (header_add_page_run r3 h md y (grows_wf _ _ _ _ Hg3) Hh3 Hy Hnp)
    as (r4 & Hrun4 & Hh4 & Hg4 & Hsame4).
  exists y, r4. split; [|split; [|split; [done|split; [done|split; [done|split]]]]].
  - unfold add_page. rewrite (bind_ok _ _ _ _ _ Hrun).
    rewrite (bind_ok _ _ _ _ _ (update_buffer_run _ _ _ _ pm Hp1 eq_refl)).
    by rewrite (bind_ok _ _ _ _ _ Hrun3), (bind_ok _ _ _ _ _ Hrun4).
  - eapply (grows_weaken (1 + 0 + 0 + 0)); [|lia|by left].
    eapply (grows_trans _ _ _ [h]); [eapply (grows_trans _ _ _ [y]);
      [eapply (grows_trans _ _ _ [x]); [|done|]|done|]|done|].
    + eapply grows_weaken; [done|lia|]. intros b Hb. by apply not_elem_of_nil in Hb.
    + intros b ->%list_elem_of_singleton. left. set_solver.
    + intros b ->%list_elem_of_singleton. by right.
    + intros b ->%list_elem_of_singleton. left. set_solver.
  - exists (pm_page pm). rewrite Hsame4, Hsame3 by done.
    split; [apply written_lookup|]. split; [done|]. by split.
  - exists q. by rewrite Hsame4.
Qed.

Lemma pages_at_npages r h md blks content :
  rel_wf r → pages_at r h md blks content → npages md ≤ rel_nblocks r.
Proof.
  intros Hwf [_ (datas & Hc & _) Hnd _ _ _ ->]. apply NoDup_cons in Hnd as [_ Hnd].
  pose proof (chain_bound _ _ _ Hwf Hc Hnd). destruct Hwf as [? _]. unfold zlen. lia.
Qed.

(** a full last page gets a successor *)
Lemma pages_extend_run r h md bs x content p :
  rel_wf r → rel_nblocks r < InvalidBlockNumber → in_use r 0 →
  pages_at r h md (bs ++ [x]) content →
  rel_pages r !! x = Some p → header_free_space p = 0 →
  ∃ y md' r' q, add_page h x r = Ok ((y, md'), r') ∧ grows 1 [x; h] r r' ∧
    ¬ in_use r y ∧ (rel_fsm r = ∅ → rel_nblocks r ≤ y) ∧
    pages_at r' h md' ((bs ++ [x]) ++ [y]) content ∧
    rel_pages r' !! y = Some q ∧ fresh_page q.
Proof.
  intros Hwf Hn Huse0 Hpa Hp Hfree. pose proof (pages_at_npages _ _ _ _ _ Hwf Hpa) as Hnp.
  destruct Hpa as [Hh (datas & Hc & Hfill & Hcat) Hnd Hz Hs Hl Hlen].
  destruct (chain_snoc_inv _ _ _ _ Hc) as (ds & d & p0 & -> & Hl0 & Hp0 & Hok & Hu & Hused & _).
  assert (p0 = p) as -> by congruence.
  apply NoDup_cons in Hnd as [Hhx Hnd].
  destruct (add_page_run r h md x p) as (y & r' & Hrun & Hg & Hnot & Hylast & Hh' &
    (p' & Hp' & Hok' & Hu' & Hused' & Hnext') & q & Hq & Hfq); try done; [set_solver| |].
  { unfold InvalidBlockNumber, u32_max in *. lia. }
  assert (y ∉ h :: bs ++ [x]) as Hy.
  { intros [->|Hin]%elem_of_cons; apply Hnot; [|by eapply chain_in_use].
    destruct Hh as (hp & ? & _ & ? & _). by exists hp. }
  exists y, (added md y), r', q. split_and!; try done. split; try done; simpl.
  - exists ((ds ++ [d]) ++ [[]]). split; [|split].
    + rewrite <- !app_assoc. apply (chain_replace_tail r _ bs x [] [y] ds [d] [d; []]); [done..| |].
      * intros b Hb. apply Hg; [eapply chain_in_use; [done|set_solver]|].
        apply NoDup_app in Hnd as (_ & Hdisj & _). specialize (Hdisj b Hb). set_solver.
      * split; [exists p'; by rewrite Hused'|]. split; [|done]. exists q.
        destruct Hfq as (? & ? & ? & ? & _). done.
    + apply filled_snoc, Forall_app. split; [by apply filled_snoc in Hfill|].
      constructor; [|done]. rewrite <- Hused. rewrite header_free_space_used in Hfree by done. lia.
    + rewrite concat_app, Hcat. simpl. apply app_nil_r.
  - rewrite app_comm_cons. apply NoDup_app. split; [by constructor|]. split; [|apply NoDup_singleton].
    intros b Hb ->%list_elem_of_singleton. done.
  - rewrite app_comm_cons. apply Forall_app. split; [done|]. constructor; [|done].
    assert (0 ≤ y < rel_nblocks r') as Hyr.
    { destruct (grows_wf _ _ _ _ Hg) as (_ & Hdom & _). apply Hdom. by eexists. }
    pose proof (grows_nblocks _ _ _ _ Hg). split.
    + unfold is_u32, u32_max, InvalidBlockNumber in *. lia.
    + intros ->. done.
  - rewrite <- Hs. by destruct bs.
  - apply last_snoc.
  - rewrite Hlen, !zlen_app. done.
Qed.

Lemma writing_last r l blks content :
  writing r l blks content →
  ∃ bs x p, blks = bs ++ [x] ∧ last_blockno (metadata l) = x ∧ block_ok x ∧ x ≠ InvalidBlockNumber ∧
    rel_pages r !! x = Some p ∧ page_ok p ∧ page_in_use p.
Proof.
  intros (Hwf & _ & [_ (datas & Hc & _) _ Hz _ Hl _] & _).
  apply last_Some in Hl as [bs ->].
  destruct (chain_snoc_inv _ _ _ _ Hc) as (ds & d & p & _ & _ & Hp & Hok & Hu & _).
  apply Forall_cons in Hz as [_ Hz].
  apply Forall_app in Hz as [_ Hz]. apply Forall_cons in Hz as [Hz _].
  exists bs, (last_blockno (metadata l)), p. split; [done|]. split; [done|]. split; [done|].
  split; [|done]. intros Heq.
  pose proof (chain_dom _ _ _ (last_blockno (metadata l)) Hwf Hc ltac:(set_solver)).
  destruct Hwf as [? _]. lia.
Qed.

Lemma blocks_sorted_grows n B r r' blks :
  grows n B r r' → blocks_sorted r blks → blocks_sorted r' blks.
Proof. intros Hg [|[Hf Hs]]; [by left|right]. split; [by eapply grows_fsm_empty|done]. Qed.

Lemma StronglySorted_snoc bs y :
  StronglySorted Z.lt bs → Forall (λ b, b < y) bs → StronglySorted Z.lt (bs ++ [y]).
Proof.
  induction 1 as [|b bs Hs IH Hb]; intros Hy; simpl; [by repeat constructor|].
  apply Forall_cons in Hy as [? Hy]. constructor; [auto|].
  apply Forall_app. split; [done|by constructor].
Qed.

Lemma blocks_sorted_snoc n B r r' h md blks content y :
  grows n B r r' → rel_wf r → pages_at r h md blks content →
  (rel_fsm r = ∅ → rel_nblocks r ≤ y) → blocks_sorted r blks → blocks_sorted r' (blks ++ [y]).
Proof.
  intros Hg Hwf Hpa Hy [|[Hf Hs]]; [by left|right].
  split; [by eapply grows_fsm_empty|]. apply StronglySorted_snoc; [done|].
  destruct Hpa as [_ (datas & Hc & _) _ _ _ _ _]. apply Forall_forall. intros b Hb.
  pose proof (chain_dom _ _ _ _ Hwf Hc Hb). specialize (Hy Hf). lia.
Qed.

(** one if the page has room *)
Definition slack (p : Page) : Z := if header_free_space p =? 0 then 0 else 1.

Lemma slack_range p : 0 ≤ slack p ≤ 1.
Proof. unfold slack. zcmp. Qed.

Lemma assert_true {S} (b : bool) msg (s : S) : b = true → assert b msg s = Ok (tt, s).
Proof. by intros ->. Qed.

(** the statements of a round before its branch *)
Lemma round_ready r l bs x content p :
  writing r l (bs ++ [x]) content → rel_pages r !! x = Some p →
  page_ok p ∧ 0 ≤ header_free_space p ≤ bm25_max_free_space ∧
  ∃ b, push x (blocklist_builder l) = Ok b ∧ push_all (bs ++ [x]) Builder_default = Ok b.
Proof.
  intros Hw Hp.
  destruct (writing_last _ _ _ _ Hw) as (bs' & x' & p' & Heq & _ & [_ Hbx] & _ & Hp' & Hok & Hu).
  apply app_inj_2 in Heq as [-> [= ->]]; [|done]. assert (p' = p) as -> by congruence.
  split; [done|]. split.
  - rewrite header_free_space_used by done. pose proof (zlen_used_le p Hok).
    pose proof (zlen_nonneg (used p)). lia.
  - apply builder_sync_push; [done|apply Hw].
Qed.

Lemma write_loop_full fuel r l x rest p b y md r' :
  rest ≠ [] → push x (blocklist_builder l) = Ok b → rel_pages r !! x = Some p →
  header_free_space p = 0 → add_page (header_blockno l) x r = Ok ((y, md), r') →
  write_loop (S fuel) l x rest r = write_loop fuel (with_metadata md (with_builder b l)) y rest r'.
Proof.
  intros Hne Hpush Hp Hfree Hrun. pose proof bm25_max_free_space_range.
  pose proof (zlen_nonneg rest). destruct rest as [|z rest']; [done|]. cbn [write_loop].
  rewrite (bind_ok (lift _) _ r r b) by by unfold lift; rewrite Hpush.
  rewrite (bind_ok _ _ _ _ _ (get_page_run _ _ _ Hp)). rewrite Hfree.
  rewrite !(bind_ok (assert _ _) _ r r tt) by (apply assert_true; zcmp).
  rewrite Z.min_l by done. cbn [Z.eqb].
  by rewrite (add_page_bind _ _ _ _ _ _ (λ y md, write_loop fuel
    (with_metadata md (with_builder b l)) y (z :: rest')) Hrun).
Qed.

Lemma write_loop_room fuel r l x rest p b r' :
  push x (blocklist_builder l) = Ok b → rel_pages r !! x = Some p →
  0 < header_free_space p ≤ bm25_max_free_space → rest ≠ [] →
  let n := Z.min (header_free_space p) (zlen rest) in
  update_buffer x (write_to_page (ztake n rest)) r = Ok (tt, r') →
  write_loop (S fuel) l x rest r = write_loop fuel (with_builder b l) x (zdrop n rest) r'.
Proof.
  intros Hpush Hp Hfree Hne n Hrun.
  assert (0 < n).
  { subst n. destruct rest as [|z rest']; [done|]. rewrite zlen_cons.
    pose proof (zlen_nonneg rest'). lia. }
  destruct rest as [|z rest']; [done|]. cbn [write_loop].
  rewrite (bind_ok (lift _) _ r r b) by by unfold lift; rewrite Hpush.
  rewrite (bind_ok _ _ _ _ _ (get_page_run _ _ _ Hp)).
  rewrite !(bind_ok (assert _ _) _ r r tt) by (apply assert_true; zcmp). fold n.
  rewrite (proj2 (Z.eqb_neq n 0)) by lia. by rewrite (bind_ok _ _ _ _ _ Hrun).
Qed.

(** The loop of [write] appends [rest]. *)
Lemma write_loop_spec fuel r l bs x content rest p :
  writing r l (bs ++ [x]) content → rel_pages r !! x = Some p →
  rel_nblocks r + zlen rest ≤ InvalidBlockNumber + slack p →
  2 * zlen rest ≤ Z.of_nat fuel + slack p →
  ∃ l' r' blks', write_loop fuel l x rest r = Ok (l', r') ∧
    writing r' l' blks' (content ++ rest) ∧ header_blockno l' = header_blockno l ∧
    (rest ≠ [] ∨ push_all (bs ++ [x]) Builder_default = Ok (blocklist_builder l) →
     push_all blks' Builder_default = Ok (blocklist_builder l')) ∧
    grows (zlen rest + 1 - slack p) (header_blockno l :: bs ++ [x]) r r' ∧ (bs ++ [x]) `prefix_of` blks' ∧
    (∀ c, c ∈ blks' → c ∈ header_blockno l :: bs ++ [x] ∨ ¬ in_use r c).
Proof.
  revert r l bs x content rest p. induction fuel as [|fuel IH];
    intros r l bs x content rest p Hw Hp Hn Hfuel;
    (destruct (decide (rest = [])) as [->|Hne];
     [exists l, r, (bs ++ [x]); rewrite app_nil_r; split_and!; try done;
      [by intros [|]| |];
      (eapply grows_weaken; [apply grows_refl, Hw|pose proof (slack_range p);
         change (zlen (@nil Z)) with 0; lia|by left]) ||
      (intros c Hc; left; by right)|]);
    (assert (0 < zlen rest) as Hpos
       by (destruct rest as [|? rest']; [done|]; rewrite zlen_cons;
           pose proof (zlen_nonneg rest'); lia));
    pose proof (slack_range p); [lia|].
  destruct (round_ready _ _ _ _ _ _ Hw Hp) as (Hok & Hfree & b & Hpush & Hpall).
  pose proof Hw as (Hwf & Huse0 & Hpa & _ & Hsorted).
  assert (0 ∉ header_blockno l :: bs ++ [x]) as Hnz.
  { intros Hin. destruct Hpa as [_ _ _ Hz _ _ _]. rewrite Forall_forall in Hz.
    by destruct (Hz 0 Hin). }
  unfold slack in *. destruct (Z.eqb_spec (header_free_space p) 0) as [Hfull|Hroom].
  - destruct (pages_extend_run r (header_blockno l) (metadata l) bs x content p)
      as (y & md & r1 & q & Hrun & Hg & Hnot & Hylast & Hpa1 & Hq & Hfq); [done|lia|done..|].
    pose proof (grows_nblocks _ _ _ _ Hg).
    rewrite (write_loop_full _ _ _ _ _ _ _ _ _ _ Hne Hpush Hp Hfull Hrun).
    assert (header_free_space q ≠ 0) as Hqroom.
    { destruct Hfq as (Hqok & _ & Hqu & _). rewrite header_free_space_used, Hqu by done.
      change (zlen (@nil Z)) with 0. pose proof bm25_max_free_space_range. lia. }
    destruct (IH r1 (with_metadata md (with_builder b l)) (bs ++ [x]) y content rest q)
      as (l' & r' & blks' & Hrun' & Hw' & Hh' & Hb' & Hg' & Hpre & Hfresh); [|done|zcmp|zcmp|].
    { split; [apply Hg|]. split; [|split; [done|split]].
      - eapply grows_in_use; [done|done|]. set_solver.
      - right. exists (bs ++ [x]), y. done.
      - by eapply blocks_sorted_snoc. }
    exists l', r', blks'. split_and!; try done.
    + intros _. apply Hb'. by left.
    + eapply grows_weaken; [eapply (grows_trans _ _ (header_blockno l :: bs ++ [x]));
        [eapply grows_weaken; [exact Hg|reflexivity|]|exact Hg'|]| |by left].
      * intros c Hc. left. set_solver.
      * simpl. intros c. rewrite app_comm_cons, elem_of_app, list_elem_of_singleton.
        intros [Hc| ->]; [by left|by right].
      * zcmp.
    + etrans; [|done]. by apply prefix_app_r.
    + intros c Hc. destruct (decide (c ∈ header_blockno l :: bs ++ [x])); [by left|right].
      intros Hu. destruct (Hfresh c Hc) as [Hin|Hnu].
      * simpl in Hin. rewrite app_comm_cons, elem_of_app, list_elem_of_singleton in Hin.
        destruct Hin as [?| ->]; done.
      * apply Hnu. eapply grows_in_use; [done|done|]. set_solver.
  - set (n := Z.min (header_free_space p) (zlen rest)).
    assert (0 < n ≤ zlen rest) as Hnr by lia.
    destruct (pages_write_run r (header_blockno l) (metadata l) bs x content (ztake n rest) p)
      as (r1 & Hrun & Hg & Hpa1 & p1 & Hp1 & Hused1 & Hok1); [done..| |].
    { rewrite zlen_ztake; lia. }
    rewrite (write_loop_room fuel r l x rest p b r1); [|done|done|lia|done|done].
    pose proof (grows_nblocks _ _ _ _ Hg). fold n.
    assert (zlen (zdrop n rest) = zlen rest - n) as Hd by (apply zlen_zdrop; lia).
    destruct (IH r1 (with_builder b l) bs x (content ++ ztake n rest) (zdrop n rest) p1)
      as (l' & r' & blks' & Hrun' & Hw' & Hh' & Hb' & Hg' & Hpre & Hfresh); [|done|zcmp|zcmp|].
    { split; [apply Hg|]. split; [|split; [done|split; [by left|by eapply blocks_sorted_grows]]].
      eapply grows_in_use; [done|done|]. set_solver. }
    rewrite <- app_assoc, ztake_zdrop in Hw'.
    exists l', r', blks'. split_and!; try done.
    + intros _. apply Hb'. by right.
    + eapply grows_weaken; [eapply (grows_trans _ _ (header_blockno l :: bs ++ [x]));
        [eapply grows_weaken; [exact Hg|reflexivity|]|exact Hg'|]| |by left].
      * intros c ->%list_elem_of_singleton. left. set_solver.
      * by left.
      * zcmp.
    + intros c Hc. destruct (Hfresh c Hc) as [Hin|Hnu]; [by left|].
      destruct (decide (c ∈ header_blockno l :: bs ++ [x])); [by left|right].
      intros Hu. apply Hnu. eapply grows_in_use; [done|done|]. set_solver.
Qed.

Lemma valid_block_ok b : b ≠ 0 → b ≠ InvalidBlockNumber → valid_block b = Ok b.
Proof. intros ??. unfold valid_block. zcmp. Qed.

Lemma write_nil r l :
  last_blockno (metadata l) ≠ 0 → last_blockno (metadata l) ≠ InvalidBlockNumber →
  write l [] r = Ok ((0, l), r).
Proof.
  intros Hl0 Hli. unfold write, get_last_blockno. by rewrite valid_block_ok.
Qed.

Lemma writing_last_valid r l blks content :
  writing r l blks content →
  last_blockno (metadata l) ≠ 0 ∧ last_blockno (metadata l) ≠ InvalidBlockNumber.
Proof.
  intros Hw. by destruct (writing_last _ _ _ _ Hw) as (bs & x & p & _ & -> & [_ ?] & ? & _).
Qed.

Lemma write_spec r l blks content bytes :
  list_ok r l blks content → bytes ≠ [] → rel_nblocks r + zlen bytes ≤ InvalidBlockNumber →
  ∃ l' r' blks', write l bytes r = Ok ((zlen bytes, l'), r') ∧
    list_ok r' l' blks' (content ++ bytes) ∧ header_blockno l' = header_blockno l ∧
    grows (zlen bytes + 1) (header_blockno l :: blks) r r' ∧
    (∀ c, c ∈ blks' → c ∈ header_blockno l :: blks ∨ ¬ in_use r c).
Proof.
  intros (Hw & Hpush & _) Hne Hn.
  destruct (writing_last _ _ _ _ Hw) as (bs & x & p & -> & Hx & [_ Hx0] & Hxi & Hp & Hok & Hu).
  pose proof (slack_range p).
  destruct (write_loop_spec (2 * length bytes) r l bs x content bytes p)
    as (l' & r' & blks' & Hrun & Hw' & Hh & Hb & Hg & _ & Hfresh); [done|done|lia|unfold zlen; lia|].
  exists l', r', blks'. split; [|split; [split; [done|split]|split; [done|split; [|done]]]].
  - unfold write. rewrite (bind_ok (lift _) _ r r x).
    { by rewrite (bind_ok _ _ _ _ _ Hrun). }
    unfold lift, get_last_blockno. by rewrite Hx, valid_block_ok.
  - intros _. apply Hb. by left.
  - by intros [_ ->]%app_nil.
  - eapply grows_weaken; [done|lia|by left].
Qed.

Lemma header_pod start :
  is_u32 start →
  pod_valid {| start_blockno := start; last_blockno := start; npages := 1;
               blocklist_start := InvalidBlockNumber |}.
Proof.
  simpl. unfold is_u32, u32_max, InvalidBlockNumber. lia.
Qed.

Lemma create_spec r :
  rel_wf r → in_use r 0 → rel_nblocks r + 1 < InvalidBlockNumber →
  packs_any ∨ rel_fsm r = ∅ →
  ∃ l r' start, create r = Ok (l, r') ∧ list_ok r' l [start] [] ∧
    grows 2 [] (upd_cache (λ _, ∅) r) r' ∧
    ¬ in_use r (header_blockno l) ∧ ¬ in_use r start ∧
    blocklist_start (metadata l) = InvalidBlockNumber.
Proof.
  intros Hwf Huse0 Hn Hpk. set (r0 := upd_cache (λ _, ∅) r).
  assert (rel_wf r0) as Hwf0 by done. assert (in_use r0 0) as Huse0' by done.
  destruct (new_buffer_two r0 Hwf0 Hn)
    as (h & start & r1 & r2 & Hrun1 & Hrun2 & Hne & Hg2 & Hnh & Hns & Hsh & Hss).
  pose proof (grows_wf _ _ _ _ Hg2) as Hwf2.
  destruct (init_buffer_run r2 h Hwf2 Hsh) as (r3 & hp & Hrun3 & Hhp & Hfh & Hg3 & Hs3).
  destruct (init_buffer_run r3 start) as (r4 & sp & Hrun4 & Hsp & Hfs & Hg4 & Hs4);
    [apply Hg3|by rewrite Hs3|].
  pose proof Hfh as (Hhok & Hhu & _).
  assert (rel_pages r4 !! h = Some hp) as Hhp4 by by rewrite Hs4.
  pose proof Hwf2 as (Hnb2 & Hdom2 & _). apply Hdom2 in Hss. 
  set (md := {| start_blockno := start; last_blockno := start; npages := 1;
                blocklist_start := InvalidBlockNumber |}).
  assert (pod_valid md) as Hpod.
  { apply header_pod. unfold is_u32, u32_max, InvalidBlockNumber in *. lia. }
  destruct (contents_update_run r4 h hp (λ _, md) (grows_wf _ _ _ _ Hg4) Hhp4 Hhok Hhu Hpod)
    as (pm & Hrun5 & Hok5 & Hu5 & Hc5 & Hg5).
  set (r5 := written r4 h pm) in *.
  exists {| header_blockno := h; metadata := md; blocklist_builder := Builder_default;
            blocklist_reader := None |}, r5, start.
  assert (grows 2 [] r0 r5) as Hg.
  { eapply (grows_weaken (2 + 0 + 0 + 0)); [|lia|by left].
    eapply grows_trans; [eapply grows_trans; [eapply grows_trans; [done|done|]|done|]|done|];
      intros b ->%list_elem_of_singleton; by right. }
  split; [|split; [|done]].
  - unfold create. rewrite (bind_ok BufferManager_new _ r r0 tt) by done.
    rewrite (bind_ok _ _ _ _ _ Hrun1), (bind_ok _ _ _ _ _ Hrun2).
    rewrite (bind_ok _ _ _ _ _ Hrun3), (bind_ok _ _ _ _ _ Hrun4).
    erewrite bind_ok; [done|]. eapply with_page_mut_run; [done|]. fold md. cbn beta. unfold mbind, outcome_bind. rewrite Hrun5.
    cbn [mbind outcome_bind]. by rewrite Hc5.
  - split; [|by split]. split; [apply Hg|]. split; [|split; [|split]].
    + eapply grows_in_use; [done|done|apply not_elem_of_nil].
    + split; try done.
      * exists (pm_page pm). subst r5. rewrite written_lookup. by rewrite Hc5.
      * exists [[]]. split; [|done]. split; [|done]. exists sp. subst r5.
        rewrite written_lookup_ne by done. destruct Hfs as (? & ? & ? & ? & _). done.
      * apply NoDup_cons. split; [set_solver|apply NoDup_singleton].
      * assert (∀ b, ¬ in_use r0 b → 0 ≤ b < rel_nblocks r2 → block_ok b) as Hbo.
        { intros b Hb Hbr. split; [unfold is_u32, u32_max, InvalidBlockNumber in *; lia|].
          by intros ->. }
        apply Hdom2 in Hsh. repeat constructor; by apply Hbo.
    + right. exists [], start. done.
    + destruct Hpk as [|Hf]; [by left|right]. split; [by eapply (grows_fsm_empty _ _ _ _ Hg)|].
      by repeat constructor.
Qed.
End write_lemmas.

(** ** Files: what [flush] leaves and the readers find *)

Section read_lemmas.
Context `{BitPacking, PgPage, PgXact, PgBuffers}.
Implicit Types (r : Rel) (l : LinkedBytesList) (blks content : list Z) (md : LinkedListData)
  (datas : list (list Z)).

(** a finished file: its pages and, if it has content, its block list *)
Definition file_at r header md blks content : Prop :=
  pages_at r header md blks content ∧
  (content ≠ [] →
   ∃ b bl, blocklist_start md = b ∧ b ≠ InvalidBlockNumber ∧ blocklist_at r (b :: bl) blks ∧
     (∀ x, x ∈ b :: bl → x ∉ header :: blks)).

Lemma squash_nodup prev blks : NoDup (option_list prev ++ blks) → squash prev blks = blks.
Proof.
  revert prev. induction blks as [|x blks IH]; intros prev Hnd; [done|]. cbn [squash].
  assert (NoDup (x :: blks)) as Hx by by apply NoDup_app in Hnd as (_ & _ & ?).
  rewrite decide_False.
  - by rewrite (IH (Some x)).
  - intros ->. simpl in Hnd. apply NoDup_cons in Hnd as [Hin _]. apply Hin. left.
Qed.

Lemma flush_nil_spec r l blks :
  list_ok r l blks [] →
  ∃ l', flush l r = Ok (l', r) ∧ metadata l' = metadata l ∧
    file_at r (header_blockno l) (metadata l) blks [].
Proof.
  intros ((Hwf & _ & Hpa & _) & _ & Hb). specialize (Hb eq_refl).
  unfold flush. rewrite Hb. eexists. split; [done|]. split; [done|]. by split.
Qed.

(** the pages but the last are full, and a page holds at least a byte *)
Lemma pages_count r h md blks content :
  pages_at r h md blks content → zlen blks ≤ zlen content + 1.
Proof.
  intros [_ (datas & Hc & Hf & <-) _ _ _ _ _]. apply chain_length in Hc.
  assert (zlen datas ≤ zlen (concat datas) + 1); [|unfold zlen in *; lia].
  clear Hc. pose proof bm25_max_free_space_range.
  induction datas as [|d [|d' datas] IH]; [done|simpl; rewrite !zlen_cons;
    pose proof (zlen_nonneg (d ++ [])); change (zlen (@nil (list Z))) with 0; lia|].
  destruct Hf as [Hd Hf]. specialize (IH Hf). rewrite zlen_cons.
  change (concat (d :: d' :: datas)) with (d ++ concat (d' :: datas)). rewrite zlen_app. lia.
Qed.

Lemma flush_spec r l blks content :
  list_ok r l blks content → content ≠ [] →
  rel_nblocks r + zlen blks < InvalidBlockNumber →
  ∃ l' r' md', flush l r = Ok (l', r') ∧ metadata l' = metadata l ∧
    file_at r' (header_blockno l) md' blks content ∧
    grows (zlen blks) [header_blockno l] r r'.
Proof.
  intros ((Hwf & Huse0 & Hpa & _ & Hsorted) & Hpush & _) Hne Hn. specialize (Hpush Hne).
  assert (chunkable blks) as Hck.
  { destruct Hpa as [_ _ _ Hz _ _ _]. apply Forall_cons in Hz as [_ Hz]. split; [done|].
    destruct Hsorted as [|[_ ?]]; [by right|by left]. }
  destruct Hpa as [Hh (datas & Hc & Hfill & Hcat) Hnd Hz Hs Hl Hnp].
  pose proof Hnd as Hnd'. apply NoDup_cons in Hnd' as [Hhb Hnb].
  assert (squash None blks = blks) as Hsq by by apply squash_nodup.
  destruct (push_all_spec blks Builder_default []) as (b & Hpush' & Hb);
    [apply builder_of_default|by apply Hck|simpl; by rewrite Hsq|]. simpl in Hb. rewrite Hsq in Hb.
  assert (b = blocklist_builder l) as -> by congruence.
  assert (blks ≠ []) as Hbne by by intros ->.
  destruct (finish_spec r _ blks Hwf Hb Hck Hbne Hn)
    as (start & b' & r1 & bl & Hrun & Hg & Hbl & Hnew).
  destruct (header_at_grows _ _ _ _ _ _ Hg ltac:(apply not_elem_of_nil) Hh)
    as (hp & Hhp & Hhok & Hhu & Hmd & Hpod).
  assert (in_use r (header_blockno l)) as Huh by (destruct Hh as (p & ? & ? & ? & _); by exists p).
  assert (∀ x, x ∈ start :: bl → x ∉ header_blockno l :: blks) as Hdisj.
  { intros x Hx [->|Hin]%elem_of_cons; apply (Hnew _ Hx); [done|by eapply chain_in_use]. }
  destruct Hbl as (bds & bss & Hbc & Hbnd & Hbe & Hbcat).
  set (md' := {| start_blockno := start_blockno (metadata l);
    last_blockno := last_blockno (metadata l); npages := npages (metadata l);
    blocklist_start := start |}).
  assert (0 ≤ start < InvalidBlockNumber) as Hstart.
  { pose proof (chain_dom _ _ _ start (grows_wf _ _ _ _ Hg) Hbc ltac:(left)).
    destruct (grows_wf _ _ _ _ Hg) as [? _]. lia. }
  set (f := λ md, {| start_blockno := start_blockno md; last_blockno := last_blockno md;
    npages := npages md; blocklist_start := start |}).
  assert (f (contents hp) = md') as Hfmd by (unfold f; by rewrite Hmd).
  assert (pod_valid (f (contents hp))) as Hpod'.
  { rewrite Hfmd. destruct Hpod as (? & ? & ? & ?). simpl. split_and!; try done.
    unfold is_u32, u32_max, InvalidBlockNumber in *. lia. }
  destruct (contents_update_run r1 _ hp f (grows_wf _ _ _ _ Hg) Hhp Hhok Hhu Hpod')
    as (pm & Hrun2 & Hok2 & Hu2 & Hc2 & Hg2).
  set (r2 := written r1 (header_blockno l) pm) in *.
  eexists (with_builder b' l), r2, md'. split; [|split; [done|split]].
  - unfold flush. rewrite (bind_ok _ _ _ _ _ Hrun). cbn [fst snd].
    rewrite (bind_ok (update_buffer _ _) _ r1 r2 tt); [done|]. by eapply update_buffer_run.
  - split.
    + split; try done.
      * exists (pm_page pm). subst r2. rewrite written_lookup. rewrite Hc2, Hfmd.
        split_and!; try done. by rewrite <- Hfmd.
      * exists datas. split; [|done]. eapply chain_grows; [exact Hg2|set_solver|].
        eapply chain_grows; [exact Hg|intros; apply not_elem_of_nil|done].
    + intros _. exists start, bl. split; [done|]. split; [lia|]. split; [|done].
      exists bds, bss. split; [|done]. eapply chain_grows; [exact Hg2| |done].
      intros x Hx ->%list_elem_of_singleton. apply (Hdisj _ Hx). left.
  - eapply (grows_weaken (zlen blks + 0)); [|lia|by left].
    eapply (grows_trans _ _ _ [header_blockno l]); [|exact Hg2|by left].
    eapply grows_weaken; [exact Hg|lia|]. intros x Hx. by apply not_elem_of_nil in Hx.
Qed.

(** *** Positions in a file *)

Lemma chain_nth r blks datas k b :
  chain r blks datas → blks !! k = Some b →
  ∃ p d, datas !! k = Some d ∧ rel_pages r !! b = Some p ∧ page_ok p ∧ page_in_use p ∧
    used p = d ∧ page_next_blockno p = next_of (drop (S k) blks) ∧
    chain r (drop k blks) (drop k datas).
Proof.
  revert blks datas. induction k as [|k IH]; intros [|b' blks] [|d datas] Hc Hb; try done.
  - injection Hb as ->. pose proof Hc as [(p & ? & ? & ? & ? & ?) _].
    exists p, d. done.
  - destruct Hc as [_ Hc]. by apply (IH blks datas).
Qed.

Lemma chain_data_le r blks datas :
  chain r blks datas → Forall (λ d, zlen d ≤ bm25_max_free_space) datas.
Proof.
  revert datas. induction blks as [|b blks IH]; intros [|d datas] Hc; try done.
  destruct Hc as [(p & _ & Hok & _ & <- & _) Hc]. constructor; [by apply zlen_used_le|auto].
Qed.

Lemma concat_le datas :
  Forall (λ d, zlen d ≤ bm25_max_free_space) datas →
  zlen (concat datas) ≤ zlen datas * bm25_max_free_space.
Proof.
  induction 1; simpl; [done|]. rewrite zlen_app, zlen_cons. lia.
Qed.

Lemma filled_take k datas :
  filled datas → (k < length datas)%nat →
  zlen (concat (take k datas)) = Z.of_nat k * bm25_max_free_space.
Proof.
  revert datas. induction k as [|k IH]; intros datas Hf Hk; [done|].
  destruct datas as [|d [|d' datas]]; simpl in Hk; [lia..|].
  destruct Hf as [Hd Hf]. cbn [take concat]. rewrite zlen_app, (IH (d' :: datas)) by (simpl; done || lia).
  lia.
Qed.

(** the page a position falls on, and where on it *)
Lemma position datas start :
  filled datas → Forall (λ d, zlen d ≤ bm25_max_free_space) datas →
  0 ≤ start < zlen (concat datas) →
  let k := Z.to_nat (start / bm25_max_free_space) in
  (k < length datas)%nat ∧
  zdrop start (concat datas) = zdrop (start mod bm25_max_free_space) (concat (drop k datas)).
Proof.
  intros Hf Hle Hs k. pose proof bm25_max_free_space_range.
  pose proof (concat_le _ Hle). set (M := bm25_max_free_space) in *.
  pose proof (Z.div_mod start M ltac:(lia)) as Hdm.
  pose proof (Z.mod_pos_bound start M ltac:(lia)).
  assert (0 ≤ start / M) by (apply Z.div_pos; lia).
  assert (start / M < zlen datas) by (apply Z.div_lt_upper_bound; lia).
  assert (k < length datas)%nat as Hk by (unfold k, zlen in *; lia).
  split; [done|]. rewrite <- (take_drop k datas) at 1. rewrite concat_app.
  pose proof (filled_take k datas Hf Hk) as Hlen. fold M in Hlen.
  assert (Z.of_nat k = start / M) as Hkq by (unfold k; lia). rewrite Hkq in Hlen.
  rewrite zdrop_app_ge by lia. f_equal. lia.
Qed.

Lemma filled_drop k datas : filled datas → (k < length datas)%nat → filled (drop k datas).
Proof.
  revert datas. induction k as [|k IH]; intros datas Hf Hk; [done|].
  destruct datas as [|d [|d' datas]]; simpl in Hk; [lia..|]. destruct Hf as [_ Hf].
  apply (IH (d' :: datas)); [done|simpl; lia].
Qed.

(** *** Reading *)

(** the page copies in the cache are those of the relation *)
Definition cache_ok r blks : Prop :=
  ∀ b p, b ∈ blks → rel_cache r !! b = Some p → rel_pages r !! b = Some p.

(** reading changes nothing but the cache *)
Definition reads blks r r' : Prop :=
  rel_pages r' = rel_pages r ∧ rel_nblocks r' = rel_nblocks r ∧ rel_fsm r' = rel_fsm r ∧
  rel_dirty r' = rel_dirty r ∧ cache_ok r' blks.

Lemma used_slice p off len tail :
  page_ok p → 0 ≤ off → off + len ≤ zlen (used p) →
  zslice off len (pd_area p ++ tail) = zslice off len (used p).
Proof.
  intros Hok Hoff Hlen.
  rewrite <- (ztake_zdrop (pd_lower p - offset_of_pd_linp) (pd_area p)), <- app_assoc.
  by apply zslice_app_l.
Qed.

Lemma get_page_slice_run r blks b p :
  cache_ok r blks → b ∈ blks → rel_pages r !! b = Some p →
  ∃ r', get_page_slice b r = Ok (p, r') ∧ reads blks r r'.
Proof.
  intros Hc Hb Hp. unfold get_page_slice. destruct (rel_cache r !! b) as [p'|] eqn:E.
  - pose proof (Hc _ _ Hb E). assert (p' = p) as -> by congruence. by exists r.
  - rewrite (bind_ok _ _ _ _ _ (get_page_run _ _ _ Hp)). eexists. split; [done|].
    split_and!; try done. intros b' p'. simpl. destruct (decide (b' = b)) as [->|].
    + rewrite lookup_insert_eq. by intros _ [= <-].
    + rewrite lookup_insert_ne by done. apply Hc.
Qed.

Lemma get_cached_range_run r blks b p start end_ :
  cache_ok r blks → b ∈ blks → rel_pages r !! b = Some p → page_ok p →
  start mod bm25_max_free_space + range_len start end_ ≤ zlen (used p) →
  ∃ r', get_cached_range b start end_ r =
      Ok (OnePage (zslice (start mod bm25_max_free_space) (range_len start end_) (used p)), r') ∧
    reads blks r r'.
Proof.
  intros Hc Hb Hp Hok Hlen. destruct (get_page_slice_run r blks b p Hc Hb Hp) as (r' & Hrun & Hr).
  exists r'. split; [|done]. unfold get_cached_range. rewrite (bind_ok _ _ _ _ _ Hrun).
  pose proof bm25_max_free_space_range.
  assert (0 ≤ start mod bm25_max_free_space < bm25_max_free_space) as Hm
    by (apply Z.mod_pos_bound; lia).
  set (off := start mod bm25_max_free_space) in *. set (len := range_len start end_) in *.
  assert (0 ≤ len) by (unfold len, range_len; lia).
  assert (zlen (used p) ≤ zlen (page_bytes p)) as Hpb.
  { pose proof (zlen_used_le p Hok). destruct Hok as [Ha _]. unfold page_bytes.
    rewrite zlen_app, Ha. pose proof (zlen_nonneg (special_bytes (pd_special p))). lia. }
  rewrite (bind_ok (lift _) _ r' r' (zslice off len (used p))); [done|].
  unfold lift, index_range. rewrite Z.add_simpl_l.
  assert ((0 <=? off) && (off <=? off + len) && (off + len <=? zlen (page_bytes p)) = true) as -> by zcmp.
  unfold page_bytes. rewrite used_slice; [done|done|lia|lia].
Qed.

Lemma bytes_range_loop_done fuel start data remaining b r :
  bytes_range_loop fuel start (zlen data) data remaining b r = Ok (data, r).
Proof. destruct fuel; cbn [bytes_range_loop]; by rewrite Z.eqb_refl. Qed.

Lemma bytes_range_loop_spec fuel r b bs d ds start data off remaining :
  chain r (b :: bs) (d :: ds) → filled (d :: ds) →
  (∀ x, x ∈ b :: bs → x ≠ InvalidBlockNumber) →
  off = match data with [] => start mod bm25_max_free_space | _ => 0 end →
  0 ≤ off < bm25_max_free_space →
  0 ≤ remaining → off + remaining ≤ zlen (concat (d :: ds)) → remaining ≤ Z.of_nat fuel →
  bytes_range_loop fuel start (zlen data + remaining) data remaining b r =
  Ok (data ++ zslice off remaining (concat (d :: ds)), r).
Proof.
  revert b bs d ds data off remaining. induction fuel as [|fuel IH];
    intros b bs d ds data off remaining Hc Hf Hx Hoff Hoffr Hrem Hlen Hfuel;
    (destruct (Z.eq_dec remaining 0) as [->|Hne];
     [rewrite Z.add_0_r, bytes_range_loop_done; by rewrite app_nil_r|]); [lia|].
  pose proof (zlen_nonneg data). cbn [bytes_range_loop].
  rewrite (proj2 (Z.eqb_neq _ _)) by lia. rewrite (proj2 (Z.eqb_neq b _)) by (apply Hx; left).
  cbn [orb]. destruct Hc as [(p & Hp & Hok & _ & Hused & Hnext) Hc].
  rewrite (bind_ok _ _ _ _ _ (get_page_run _ _ _ Hp)). rewrite <- Hoff. cbn zeta.
  pose proof (zlen_used_le p Hok) as Hul. rewrite Hused in Hul.
  unfold as_slice_range. rewrite Hnext.
  assert (∀ n, off + n ≤ zlen d → zslice off n (pd_area p) = zslice off n d) as Hslice.
  { intros n Hn. rewrite <- (app_nil_r (pd_area p)), used_slice; [by rewrite Hused|done|lia|].
    by rewrite Hused. }
  simpl in Hlen. rewrite zlen_app in Hlen.
  destruct (Z.le_gt_cases remaining (bm25_max_free_space - off)) as [Hfit|Hmore].
  - assert (off + remaining ≤ zlen d) as Hd.
    { destruct ds as [|d' ds]; [simpl in Hlen; change (zlen (@nil Z)) with 0 in Hlen; lia|].
      destruct Hf as [Hd _]. lia. }
    rewrite Z.min_r by lia. rewrite (Hslice _ Hd).
    pose proof (bytes_range_loop_done fuel start (data ++ zslice off remaining d)
      (remaining - remaining) (next_of bs) r) as Hdone.
    rewrite zlen_app, zlen_zslice in Hdone by lia. rewrite Hdone.
    simpl. by rewrite zslice_app_l by lia.
  - destruct ds as [|d' ds]; [simpl in Hlen; change (zlen (@nil Z)) with 0 in Hlen; lia|].
    destruct Hf as [Hd Hf]. destruct bs as [|b' bs]; [by destruct Hc|].
    rewrite Z.min_l by lia. rewrite Hslice by lia.
    set (data' := data ++ zslice off (bm25_max_free_space - off) d).
    assert (zlen data' = zlen data + (bm25_max_free_space - off)) as Hl'.
    { unfold data'. rewrite zlen_app, zlen_zslice; lia. }
    replace (zlen data + remaining)
      with (zlen data' + (remaining - (bm25_max_free_space - off))) by lia.
    rewrite (IH b' bs d' ds data' 0 (remaining - (bm25_max_free_space - off)));
      [|done|done|intros; apply Hx; by right| |lia|lia|simpl in *; lia|lia].
    2: { destruct data'; [change (zlen (@nil Z)) with 0 in Hl'; lia|done]. }
    unfold data'. rewrite <- app_assoc. do 3 f_equal.
    change (concat (d :: d' :: ds)) with (d ++ concat (d' :: ds)).
    rewrite <- (zslice_app_l off (bm25_max_free_space - off) d (concat (d' :: ds))) by lia.
    replace (zslice 0 _ (concat (d' :: ds)))
      with (zslice (off + (bm25_max_free_space - off)) (remaining - (bm25_max_free_space - off))
        (d ++ concat (d' :: ds))).
    + rewrite zslice_app by lia. f_equal. lia.
    + rewrite zslice_app_r by lia. f_equal. lia.
Qed.

Lemma zlen_zdrop_max {A} n (x : list A) : 0 ≤ n → zlen (zdrop n x) = Z.max 0 (zlen x - n).
Proof. intros. unfold zlen, zdrop. rewrite length_drop. lia. Qed.

(** the page [start] falls on, with the rest of the file from there *)
Lemma at_position r header md blks content start :
  rel_wf r → pages_at r header md blks content → 0 ≤ start < zlen content →
  let off := start mod bm25_max_free_space in
  ∃ b bs p ds, blks !! Z.to_nat (start / bm25_max_free_space) = Some b ∧
    rel_pages r !! b = Some p ∧ page_ok p ∧ chain r (b :: bs) (used p :: ds) ∧
    filled (used p :: ds) ∧ (∀ x, x ∈ b :: bs → x ∈ blks ∧ x ≠ InvalidBlockNumber) ∧
    zdrop start content = zdrop off (concat (used p :: ds)) ∧
    zlen content - start = zlen (concat (used p :: ds)) - off ∧
    bs = drop (S (Z.to_nat (start / bm25_max_free_space))) blks.
Proof.
  intros Hwf [_ (datas & Hc & Hf & <-) _ _ _ _ _] Hs off.
  pose proof bm25_max_free_space_range.
  assert (0 ≤ off) by (apply Z.mod_pos_bound; lia).
  destruct (position datas start Hf (chain_data_le _ _ _ Hc) Hs) as [Hk Hpos].
  set (k := Z.to_nat (start / bm25_max_free_space)) in *.
  pose proof Hk as Hkb. rewrite <- (chain_length _ _ _ Hc) in Hkb.
  apply lookup_lt_is_Some in Hkb as [b Hb].
  destruct (chain_nth _ _ _ _ _ Hc Hb) as (p & d & Hd & Hp & Hok & _ & Hused & _ & Hc').
  pose proof (filled_drop k datas Hf Hk) as Hf'.
  rewrite (drop_S _ _ _ Hb), (drop_S _ _ _ Hd) in Hc'. rewrite (drop_S _ _ _ Hd) in Hf', Hpos.
  subst d. exists b, (drop (S k) blks), p, (drop (S k) datas). split_and!; try done.
  - intros x Hx. assert (x ∈ blks) as Hin.
    { rewrite <- (drop_S _ _ _ Hb) in Hx. rewrite <- (take_drop k blks). apply elem_of_app. by right. }
    split; [done|]. pose proof (chain_dom _ _ _ _ Hwf Hc Hin). destruct Hwf as [? _]. lia.
  - apply (f_equal zlen) in Hpos. rewrite !zlen_zdrop_max in Hpos by lia. fold off in Hpos. lia.
Qed.

Definition reader_ok l blks : Prop :=
  blocklist_reader l = None ∨ blocklist_reader l = Some blks.

Lemma block_for_ord_run r l blks ord :
  rel_wf r → reader_ok l blks →
  (∃ b bl, blocklist_start (metadata l) = b ∧ blocklist_at r (b :: bl) blks) →
  block_for_ord l ord r = Ok ((znth blks ord, with_reader (Some blks) l), r).
Proof.
  intros Hwf [Hr|Hr] (b & bl & Hb & Hbl); unfold block_for_ord; rewrite Hr.
  - rewrite Hb. by rewrite (bind_ok _ _ _ _ _ (reader_new_spec _ _ _ _ Hwf Hbl)).
  - destruct l. simpl in *. by subst.
Qed.

Lemma get_bytes_range_spec r l blks content start end_ :
  rel_wf r → file_at r (header_blockno l) (metadata l) blks content →
  reader_ok l blks → cache_ok r blks →
  0 ≤ start < zlen content → end_ ≤ zlen content →
  ∃ d r', get_bytes_range l start end_ r = Ok ((d, with_reader (Some blks) l), r') ∧
    range_bytes d = zslice start (range_len start end_) content ∧ reads blks r r'.
Proof.
  intros Hwf [Hpa Hbl] Hr Hc Hs He.
  destruct (at_position r _ _ _ _ start Hwf Hpa Hs)
    as (b & bs & p & ds & Hb & Hp & Hok & Hchain & Hf & Hin & Hz & Hl & _).
  pose proof bm25_max_free_space_range as HM. set (M := bm25_max_free_space) in *.
  set (off := start mod M) in *.
  assert (0 ≤ off < M) as Hoff by (apply Z.mod_pos_bound; lia).
  assert (0 ≤ start / M) by (apply Z.div_pos; lia).
  destruct Hbl as (b0 & bl & Hb0 & _ & Hbl & _).
  { intros ->. change (zlen (@nil Z)) with 0 in Hs. lia. }
  unfold get_bytes_range.
  rewrite (bind_ok _ _ _ _ _ (block_for_ord_run _ _ _ _ Hwf Hr ltac:(by exists b0, bl))).
  cbn [fst snd]. rewrite znth_lookup by done. fold M. rewrite Hb.
  rewrite (bind_ok (expect _ _) _ r r b) by done.
  assert (0 ≤ range_len start end_ ≤ zlen content - start) as Hrl by (unfold range_len; lia).
  fold off. cbn zeta.
  assert (zslice start (range_len start end_) content =
    zslice off (range_len start end_) (concat (used p :: ds)))
    as -> by (unfold zslice; by rewrite Hz).
  simpl in Hl. rewrite zlen_app in Hl.
  destruct (Z.ltb_spec (off + range_len start end_) M) as [Hsmall|Hbig].
  - assert (off + range_len start end_ ≤ zlen (used p)) as Hfit.
    { destruct ds as [|d' ds]; [simpl in Hl; change (zlen (@nil Z)) with 0 in Hl; lia|].
      destruct Hf as [Hd _]. fold M in Hd. lia. }
    destruct (get_cached_range_run r blks b p start end_ Hc) as (r' & Hrun & Hr'); try done.
    { apply Hin. left. }
    rewrite (bind_ok _ _ _ _ _ Hrun). eexists _, r'. split; [done|]. split; [|done].
    simpl. fold M off. by rewrite zslice_app_l by lia.
  - pose proof (bytes_range_loop_spec (Z.to_nat (range_len start end_)) r b bs (used p) ds start []
      off (range_len start end_) Hchain Hf) as Hrun.
    change (zlen (@nil Z) + range_len start end_) with (range_len start end_) in Hrun.
    rewrite (bind_ok _ _ r r (zslice off (range_len start end_) (concat (used p :: ds)))).
    + eexists _, r. split; [done|]. done.
    + apply Hrun; [by intros x [_ ?]%Hin|done|done|lia|simpl; rewrite zlen_app; lia|lia].
Qed.

(** *** Whole files *)

Lemma read_all_loop_spec fuel r blks datas :
  rel_wf r → chain r blks datas → (length blks ≤ fuel)%nat →
  read_all_loop fuel (next_of blks) r = Ok (concat datas, r).
Proof.
  intros Hwf. revert blks datas. induction fuel as [|fuel IH]; intros [|b bs] [|d ds] Hc Hlen;
    try done; simpl in Hlen; try lia.
  pose proof (chain_dom _ _ _ b Hwf Hc ltac:(left)) as Hb.
  destruct Hc as [(p & Hp & Hok & _ & Hused & Hnext) Hc]. cbn [read_all_loop next_of head default].
  rewrite (proj2 (Z.eqb_neq b _)) by (destruct Hwf as [? _]; lia).
  rewrite (bind_ok _ _ _ _ _ (get_page_run _ _ _ Hp)).
  rewrite (bind_ok (lift _) _ r r d) by (unfold lift; by rewrite as_slice_used, Hused).
  rewrite Hnext. by rewrite (bind_ok _ _ _ _ _ (IH bs ds Hc ltac:(lia))).
Qed.

Lemma read_all_spec r l blks content :
  rel_wf r → pages_at r (header_blockno l) (metadata l) blks content →
  read_all l r = Ok (content, r).
Proof.
  intros Hwf [_ (datas & Hc & _ & <-) Hnd Hz Hs _ _].
  apply NoDup_cons in Hnd as [_ Hnd].
  destruct blks as [|b bs]; [done|]. injection Hs as Hs.
  apply Forall_cons in Hz as [_ Hz]. apply Forall_cons in Hz as [[_ Hb0] _].
  pose proof (chain_dom _ _ _ b Hwf Hc ltac:(left)) as Hb.
  unfold read_all, get_start_blockno. rewrite <- Hs.
  rewrite (bind_ok (lift _) _ r r b).
  2: { unfold lift. rewrite valid_block_ok; [done|done|]. destruct Hwf as [? _]. lia. }
  rewrite (bind_ok (gets _) _ r r (rel_nblocks r)) by done.
  apply (read_all_loop_spec _ r (b :: bs)); [done|done|]. by eapply chain_bound.
Qed.
End read_lemmas.

(** ** Deletion *)

Section delete_lemmas.
Context `{BitPacking, PgPage, PgXact, PgBuffers}.
Implicit Types (r : Rel) (l : LinkedBytesList) (blks content : list Z).

Definition deleted_page (p : Page) : Page :=
  pm_page (mark_deleted ReadNextFullTransactionId {| pm_page := p; pm_dirty := false |}).

(** [r'] is [r] with the pages [bs] marked deleted *)
Definition deletes (bs : list Z) r r' : Prop :=
  rel_wf r' ∧ rel_nblocks r' = rel_nblocks r ∧
  (∀ b, b ∈ bs → ∃ p, rel_pages r !! b = Some p ∧ rel_pages r' !! b = Some (deleted_page p)) ∧
  (∀ b, b ∉ bs → rel_pages r' !! b = rel_pages r !! b).

Lemma deletes_nil r : rel_wf r → deletes [] r r.
Proof. intros. split_and!; try done; set_solver. Qed.

Lemma deletes_trans bs1 bs2 r r1 r2 :
  (∀ b, b ∈ bs1 → b ∉ bs2) → deletes bs1 r r1 → deletes bs2 r1 r2 → deletes (bs1 ++ bs2) r r2.
Proof.
  intros Hdisj (_ & Hn1 & Hin1 & Hout1) (Hwf2 & Hn2 & Hin2 & Hout2).
  split; [done|]. split; [congruence|]. split.
  - intros b [Hb|Hb]%elem_of_app.
    + destruct (Hin1 b Hb) as (p & ? & ?). exists p. by rewrite Hout2 by (by apply Hdisj).
    + destruct (Hin2 b Hb) as (p & Hp & ?). exists p. split; [|done].
      rewrite <- Hout1; [done|]. intros ?. by apply (Hdisj b).
  - intros b Hb. rewrite Hout2, Hout1; [done|set_solver..].
Qed.

Lemma delete_one_run r b p :
  rel_wf r → rel_pages r !! b = Some p →
  ∃ r', update_buffer b (λ pm, Ok (mark_deleted ReadNextFullTransactionId pm)) r = Ok (tt, r') ∧
    deletes [b] r r'.
Proof.
  intros Hwf Hp. eexists. split; [by eapply update_buffer_run|].
  split; [apply written_wf; [by eexists|done]|]. split; [done|]. split.
  - intros b' ->%list_elem_of_singleton. exists p. split; [done|apply written_lookup].
  - intros b' Hb. apply written_lookup_ne. set_solver.
Qed.

Lemma mark_deleted_loop_spec fuel r blks datas :
  rel_wf r → chain r blks datas → NoDup blks → (length blks ≤ fuel)%nat →
  ∃ r', mark_deleted_loop fuel (next_of blks) r = Ok (tt, r') ∧ deletes blks r r'.
Proof.
  revert r blks datas. induction fuel as [|fuel IH]; intros r [|b bs] [|d ds] Hwf Hc Hnd Hlen;
    try done; simpl in Hlen; try lia; try (exists r; split; [done|by apply deletes_nil]).
  pose proof (chain_dom _ _ _ b Hwf Hc ltac:(left)) as Hb.
  destruct Hc as [(p & Hp & Hok & _ & Hused & Hnext) Hc]. apply NoDup_cons in Hnd as [Hnb Hnd].
  cbn [mark_deleted_loop next_of head default].
  rewrite (proj2 (Z.eqb_neq b _)) by (destruct Hwf as [? _]; lia).
  rewrite (bind_ok _ _ _ _ _ (get_page_run _ _ _ Hp)).
  destruct (delete_one_run r b p Hwf Hp) as (r1 & Hrun1 & Hd1).
  rewrite (bind_ok _ _ _ _ _ Hrun1), Hnext.
  destruct (IH r1 bs ds) as (r' & Hrun & Hd); [apply Hd1| |done|lia|].
  { eapply chain_frame; [|done]. intros b' Hb'. apply Hd1. set_solver. }
  exists r'. split; [done|]. apply (deletes_trans [b] bs r r1); [set_solver|done|done].
Qed.

Lemma list_mark_deleted_run r l blks content b bl :
  rel_wf r → pages_at r (header_blockno l) (metadata l) blks content →
  blocklist_start (metadata l) = b → blocklist_at r (b :: bl) blks →
  (∀ x, x ∈ b :: bl → x ∉ header_blockno l :: blks) →
  ∃ r', list_mark_deleted l r = Ok (tt, r') ∧
    deletes (blks ++ (b :: bl) ++ [header_blockno l]) r r'.
Proof.
  intros Hwf [(hp & Hhp & _) (datas & Hc & _) Hnd _ Hs _ _] Hb Hat Hdisj.
  apply NoDup_cons in Hnd as [Hhb Hnd]. pose proof Hat as (bds & bss & Hbc & Hbnd & _).
  assert (next_of blks = start_blockno (metadata l)) as Hns by (unfold next_of; by rewrite Hs).
  destruct (mark_deleted_loop_spec (Z.to_nat (rel_nblocks r)) r blks datas)
    as (r1 & Hrun1 & Hd1); [done..|by eapply chain_bound|].
  destruct (mark_deleted_loop_spec (Z.to_nat (rel_nblocks r)) r1 (b :: bl) bds)
    as (r2 & Hrun2 & Hd2); [apply Hd1| |done| |].
  { eapply chain_frame; [|done]. intros x Hx. apply Hd1. intros Hin.
    apply (Hdisj x Hx). by right. }
  { by eapply chain_bound. }
  destruct (delete_one_run r2 (header_blockno l) hp) as (r3 & Hrun3 & Hd3).
  { apply Hd2. }
  { destruct Hd1 as (_ & _ & _ & Ho1), Hd2 as (_ & _ & _ & Ho2). rewrite Ho2, Ho1; [done|done|].
    intros Hin. apply (Hdisj _ Hin). left. }
  exists r3. split.
  - unfold list_mark_deleted. rewrite (bind_ok (gets _) _ r r (rel_nblocks r)) by done.
    rewrite (bind_ok (for_each _ _) _ r r2 tt); [done|]. cbn [for_each].
    rewrite <- Hns, (bind_ok _ _ _ _ _ Hrun1). rewrite Hb.
    change (next_of (b :: bl)) with b in Hrun2. by rewrite (bind_ok _ _ _ _ _ Hrun2).
  - apply (deletes_trans blks _ r r1); [|done|].
    + intros x Hx [Hin|Hin]%elem_of_app; [apply (Hdisj _ Hin); by right|].
      apply list_elem_of_singleton in Hin as ->. done.
    + apply (deletes_trans (b :: bl) _ r1 r2); [|done..].
      intros x Hx ->%list_elem_of_singleton. apply (Hdisj _ Hx). left.
Qed.

Lemma list_mark_deleted_spec r l blks content :
  rel_wf r → file_at r (header_blockno l) (metadata l) blks content → content ≠ [] →
  ∃ r' bl, list_mark_deleted l r = Ok (tt, r') ∧ blocklist_at r bl blks ∧
    head bl = Some (blocklist_start (metadata l)) ∧
    deletes (blks ++ bl ++ [header_blockno l]) r r'.
Proof.
  intros Hwf [Hpa Hbl] Hne. destruct (Hbl Hne) as (b & bl & Hb & _ & Hat & Hdisj).
  destruct (list_mark_deleted_run r l blks content b bl Hwf Hpa Hb Hat Hdisj) as (r' & Hrun & Hd).
  exists r', (b :: bl). split; [done|]. split; [done|]. split; [by rewrite Hb|done].
Qed.
Lemma file_pages_in_use r h md blks content bl b :
  file_at r h md blks content → blocklist_at r bl blks → b ∈ h :: blks ++ bl → in_use r b.
Proof.
  intros [[(hp & Hhp & _ & Hu & _) (datas & Hc & _) _ _ _ _ _] _] (bds & bss & Hbc & _).
  intros [->|[Hb|Hb]%elem_of_app]%elem_of_cons; [by exists hp|by apply (chain_in_use _ _ _ _ Hc)|by apply (chain_in_use _ _ _ _ Hbc)].
Qed.
End delete_lemmas.

(** Deleting a file stamps every page it owns - header, data pages and block list
    pages - keeps their contents for concurrent readers, touches no other page, and the
    stamped pages become recyclable exactly when the stamp is removable for every
    snapshot. *)
Theorem deleted_file_reclaimable `{BitPacking, PgPage, PgXact, PgBuffers}
    (r : Rel) (l : LinkedBytesList) blks content :
  rel_wf r → file_at r (header_blockno l) (metadata l) blks content → content ≠ [] →
  let xid := ReadNextFullTransactionId mod 2 ^ 32 in
  ∃ r' bl, list_mark_deleted l r = Ok (tt, r') ∧ blocklist_at r bl blks ∧
    head bl = Some (blocklist_start (metadata l)) ∧
    (∀ b, b ∉ header_blockno l :: blks ++ bl → rel_pages r' !! b = rel_pages r !! b) ∧
    (∀ b, b ∈ header_blockno l :: blks ++ bl →
       ∃ p p', rel_pages r !! b = Some p ∧ rel_pages r' !! b = Some p' ∧
         used p' = used p ∧ page_next_blockno p' = page_next_blockno p ∧
         (xid ≠ InvalidTransactionId → XidInMVCCSnapshot xid GetActiveSnapshot = false →
          page_recyclable p' = GlobalVisCheckRemovableXid xid)).
Proof.
  intros Hwf Hf Hne xid.
  destruct (list_mark_deleted_spec r l blks content Hwf Hf Hne)
    as (r' & bl & Hrun & Hbl & Hh & _ & _ & Hin & Hout).
  exists r', bl. split; [done|]. split; [done|]. split; [done|]. split.
  - intros b Hb. apply Hout. set_solver.
  - intros b Hb. destruct (Hin b) as (p & Hp & Hp'); [set_solver|]. exists p, (deleted_page p).
    split_and!; try done. intros Hx Hsnap. destruct (file_pages_in_use r _ _ _ _ bl b Hf Hbl)
      as (p' & Hp0 & Hu & _); [set_solver|].
    assert (p' = p) as -> by congruence. unfold page_recyclable. rewrite PageIsNew_spec. simpl.
    fold xid. rewrite (proj2 (Z.eqb_neq _ _) Hu), (proj2 (Z.eqb_neq _ _) Hx), Hsnap. done.
Qed.
