(* ===== verification/SegmentIO.v ===== *)
(** * SegmentIO: writing and reading the files of a segment

    Models [pg_search/src/index/writer/segment_component.rs] ([ExactBuffer],
    [SegmentComponentWriter]) and [index/reader/segment_component.rs]
    ([SegmentComponentReader]) on top of [LinkedBytesList]. *)

From S2P Require Import Prelude Page Block Buffer BlockList LinkedBytes.

Open Scope Z_scope.

(** [ExactBuffer<CAPACITY, LinkedBytesList>], [CAPACITY] being [bm25_max_free_space()] *)
Record ExactBuffer := {
  eb_writer : LinkedBytesList;
  eb_buffer : list Z;
  eb_len : Z
}.

Record SegmentComponentWriter := {
  scw_path : string;
  scw_header_blockno : Z;
  scw_total_bytes : Z;
  scw_buffer : ExactBuffer
}.

Record SegmentComponentReader := {
  scr_block_list : LinkedBytesList;
  scr_npages : Z;
  scr_last_blockno : Z;
  scr_entry : FileEntry
}.

Section segment_io.
Context `{BitPacking, PgPage, PgXact, PgBuffers}.

Notation CAPACITY := bm25_max_free_space.

(** ** [ExactBuffer] *)

(** [while data.len() >= CAPACITY]; every round consumes at least one byte *)
Fixpoint write_direct (fuel : nat) (w : LinkedBytesList) (data : list Z)
    : M Rel (list Z * LinkedBytesList) :=
  if zlen data <? CAPACITY then mret (data, w) else
  match fuel with
  | O => no_fuel
  | S fuel =>
      '(_, w) ← write w (ztake CAPACITY data);
      write_direct fuel w (zdrop CAPACITY data)
  end.

Definition eb_write (e : ExactBuffer) (data : list Z) : M Rel (Z * ExactBuffer) :=
  let len := zlen data in
  let '(e, data) :=
    if eb_len e <? CAPACITY then
      let end_ := Z.min (CAPACITY - eb_len e) len in
      ({| eb_writer := eb_writer e; eb_buffer := zwrite (eb_len e) (ztake end_ data) (eb_buffer e);
          eb_len := eb_len e + end_ |}, zdrop end_ data)
    else (e, data) in
  e ← (if eb_len e =? CAPACITY then
         '(_, w) ← write (eb_writer e) (eb_buffer e);
         mret {| eb_writer := w; eb_buffer := eb_buffer e; eb_len := 0 |}
       else mret e);
  '(data, w) ← write_direct (length data) (eb_writer e) data;
  let e := {| eb_writer := w; eb_buffer := eb_buffer e; eb_len := eb_len e |} in
  mret (len,
    match data with
    | [] => e
    | _ => {| eb_writer := eb_writer e; eb_buffer := zwrite 0 data (eb_buffer e);
              eb_len := zlen data |}
    end).

Definition eb_flush (e : ExactBuffer) : M Rel ExactBuffer :=
  match eb_buffer e with
  | [] => mret e
  | _ =>
      '(_, w) ← write (eb_writer e) (ztake (eb_len e) (eb_buffer e));
      mret {| eb_writer := w; eb_buffer := eb_buffer e; eb_len := 0 |}
  end.

(** ** [SegmentComponentWriter] *)

Definition scw_new (path : string) : M Rel SegmentComponentWriter :=
  segment_component ← create;
  mret {| scw_path := path; scw_header_blockno := header_blockno segment_component;
          scw_total_bytes := 0;
          scw_buffer := {| eb_writer := segment_component;
                           eb_buffer := replicate (Z.to_nat CAPACITY) 0; eb_len := 0 |} |}.

Definition with_buffer (e : ExactBuffer) (total : Z) (w : SegmentComponentWriter) :=
  {| scw_path := scw_path w; scw_header_blockno := scw_header_blockno w;
     scw_total_bytes := total; scw_buffer := e |}.

Definition scw_file_entry (w : SegmentComponentWriter) : FileEntry :=
  {| staring_block := scw_header_blockno w; total_bytes := scw_total_bytes w |}.

Definition scw_write (w : SegmentComponentWriter) (data : list Z) : M Rel (Z * SegmentComponentWriter) :=
  '(many, e) ← eb_write (scw_buffer w) data;
  mret (many, with_buffer e (scw_total_bytes w + zlen data) w).

Definition scw_flush (w : SegmentComponentWriter) : M Rel SegmentComponentWriter :=
  e ← eb_flush (scw_buffer w); mret (with_buffer e (scw_total_bytes w) w).

Definition scw_terminate_ref (w : SegmentComponentWriter) : M Rel SegmentComponentWriter :=
  e ← eb_flush (scw_buffer w);
  l ← flush (eb_writer e);
  mret (with_buffer {| eb_writer := l; eb_buffer := eb_buffer e; eb_len := eb_len e |}
          (scw_total_bytes w) w).

(** [Drop for ExactBuffer]: [self.flush().ok()] *)
Definition scw_drop (w : SegmentComponentWriter) : M Rel unit :=
  _ ← eb_flush (scw_buffer w); mret tt.

(** a file written with a series of [write] calls, terminated and dropped *)
Fixpoint scw_write_all (w : SegmentComponentWriter) (writes : list (list Z)) : M Rel SegmentComponentWriter :=
  match writes with
  | [] => mret w
  | data :: writes => '(_, w) ← scw_write w data; scw_write_all w writes
  end.
Definition write_file (path : string) (writes : list (list Z)) : M Rel FileEntry :=
  w ← scw_new path;
  w ← scw_write_all w writes;
  w ← scw_terminate_ref w;
  _ ← scw_drop w;
  mret (scw_file_entry w).

(** ** [SegmentComponentReader] *)

Definition scr_new (entry : FileEntry) : M Rel SegmentComponentReader :=
  block_list ← open (staring_block entry);
  mret {| scr_block_list := block_list; scr_npages := 0; scr_last_blockno := InvalidBlockNumber;
          scr_entry := entry |}.

Definition scr_len (s : SegmentComponentReader) : Z := total_bytes (scr_entry s).

(** the atomics cache the first value read from the list *)
Definition scr_get_last_blockno (s : SegmentComponentReader) : M Rel (Z * SegmentComponentReader) :=
  if scr_last_blockno s =? InvalidBlockNumber then
    b ← lift (get_last_blockno (metadata (scr_block_list s)));
    mret (b, {| scr_block_list := scr_block_list s; scr_npages := scr_npages s;
                scr_last_blockno := b; scr_entry := scr_entry s |})
  else mret (scr_last_blockno s, s).

Definition scr_get_npages (s : SegmentComponentReader) : M Rel (Z * SegmentComponentReader) :=
  if scr_npages s =? 0 then
    n ← lift (list_npages (metadata (scr_block_list s)));
    mret (n, {| scr_block_list := scr_block_list s; scr_npages := n;
                scr_last_blockno := scr_last_blockno s; scr_entry := scr_entry s |})
  else mret (scr_npages s, s).

Definition scr_read_bytes_raw (s : SegmentComponentReader) (start end_ : Z)
    : M Rel (RangeData * SegmentComponentReader) :=
  let end_ := Z.min end_ (scr_len s) in
  let start_block_ordinal := start / bm25_max_free_space in
  '(n, s) ← scr_get_npages s;
  if start_block_ordinal =? n then
    '(b, s) ← scr_get_last_blockno s;
    d ← get_cached_range b start end_;
    mret (d, s)
  else
    '(d, l) ← get_bytes_range (scr_block_list s) start end_;
    mret (d, {| scr_block_list := l; scr_npages := scr_npages s;
                scr_last_blockno := scr_last_blockno s; scr_entry := scr_entry s |}).

Definition scr_read_bytes (s : SegmentComponentReader) (start end_ : Z)
    : M Rel (list Z * SegmentComponentReader) :=
  '(range_data, s) ← scr_read_bytes_raw s start end_;
  mret (range_bytes range_data, s).

(** a file handle is read many times *)
Fixpoint read_ranges (s : SegmentComponentReader) (ranges : list (Z * Z)) : M Rel (list (list Z)) :=
  match ranges with
  | [] => mret []
  | (start, end_) :: ranges =>
      '(bytes, s) ← scr_read_bytes s start end_;
      rest ← read_ranges s ranges;
      mret (bytes :: rest)
  end.
Definition read_file (entry : FileEntry) (ranges : list (Z * Z)) : M Rel (list (list Z)) :=
  s ← scr_new entry; read_ranges s ranges.
End segment_io.

(** ** The writer *)

Section writer_lemmas.
Context `{BitPacking, PgPage, PgXact, PgBuffers}.
Implicit Types (r : Rel) (l : LinkedBytesList) (blks content data : list Z) (e : ExactBuffer).

(** [l] holds [content] and everything it owns was free in [r0] *)
Definition written_by r0 r l (h : Z) blks content : Prop :=
  list_ok r l blks content ∧ header_blockno l = h ∧
  grows (2 + 2 * zlen content) [] r0 r ∧ (∀ b, b ∈ h :: blks → ¬ in_use r0 b).

(** the relation can hold [n] more bytes of this file, its pages and its block list *)
Definition room r0 (n : Z) : Prop := rel_nblocks r0 + 3 * n + 3 < InvalidBlockNumber.

Lemma step_write r0 r l h blks content bytes :
  written_by r0 r l h blks content → room r0 (zlen (content ++ bytes)) →
  ∃ l' r' blks', write l bytes r = Ok ((zlen bytes, l'), r') ∧
    written_by r0 r' l' h blks' (content ++ bytes).
Proof.
  intros (Hl & Hh & Hg & Hnew) Hroom. unfold room in Hroom. rewrite zlen_app in Hroom.
  pose proof (zlen_nonneg content). pose proof (zlen_nonneg bytes).
  pose proof (grows_nblocks _ _ _ _ Hg).
  destruct (decide (bytes = [])) as [->|Hne].
  { exists l, r, blks. rewrite app_nil_r. split; [|done].
    destruct (writing_last_valid _ _ _ _ (proj1 Hl)). by apply write_nil. }
  assert (zlen bytes ≠ 0) by (intros ?%zlen_zero; done).
  destruct (write_spec r l blks content bytes Hl Hne) as (l' & r' & blks' & Hrun & Hl' & Hh' & Hg' & Hn');
    [lia|].
  exists l', r', blks'. split; [done|]. split; [done|]. split; [congruence|]. subst h. split.
  - eapply grows_weaken; [eapply (grows_trans _ _ [] (header_blockno l :: blks)); [exact Hg|exact Hg'|]| |by left].
    + intros b Hb. right. by apply Hnew.
    + rewrite zlen_app. lia.
  - intros b [->|Hb]%elem_of_cons; [apply Hnew; left|].
    destruct (Hn' b Hb) as [?|Hnu]; [by apply Hnew|]. intros Hu. apply Hnu.
    eapply grows_in_use; [done|done|apply not_elem_of_nil].
Qed.

Lemma zlen_nil_iff {A} (l : list A) : l ≠ [] → 0 < zlen l.
Proof. intros Hl. pose proof (zlen_nonneg l). assert (zlen l ≠ 0) by by intros ?%zlen_zero. lia. Qed.

Lemma write_direct_spec fuel r0 r l h blks content data :
  written_by r0 r l h blks content → room r0 (zlen (content ++ data)) →
  (length data ≤ fuel)%nat →
  ∃ pre rest l' r' blks', write_direct fuel l data r = Ok ((rest, l'), r') ∧
    data = pre ++ rest ∧ zlen rest < bm25_max_free_space ∧
    written_by r0 r' l' h blks' (content ++ pre).
Proof.
  pose proof bm25_max_free_space_range.
  revert r l blks content data. induction fuel as [|fuel IH];
    intros r l blks content data Hw Hroom Hfuel.
  { destruct data; [|simpl in Hfuel; lia]. exists [], [], l, r, blks.
    split; [|split; [done|split; [change (zlen (@nil Z)) with 0; lia|by rewrite app_nil_r]]].
    unfold write_direct. change (zlen (@nil Z)) with 0. zcmp. }
  cbn [write_direct]. destruct (Z.ltb_spec (zlen data) bm25_max_free_space) as [Hlt|Hge].
  { exists [], data, l, r, blks. by rewrite app_nil_r. }
  set (chunk := ztake bm25_max_free_space data). set (data' := zdrop bm25_max_free_space data).
  assert (chunk ++ data' = data) as Hsplit by apply ztake_zdrop.
  assert (zlen data' = zlen data - bm25_max_free_space) as Hd by (apply zlen_zdrop; lia).
  rewrite <- Hsplit, app_assoc in Hroom.
  destruct (step_write r0 r l h blks content chunk Hw) as (l1 & r1 & blks1 & Hrun1 & Hw1).
  { unfold room in *. rewrite zlen_app in Hroom. pose proof (zlen_nonneg data'). lia. }
  rewrite (bind_ok _ _ _ _ _ Hrun1). cbn [fst snd].
  destruct (IH r1 l1 blks1 (content ++ chunk) data' Hw1 Hroom) as (pre & rest & l' & r' & blks' & Hrun & Hp & Hr & Hw').
  { unfold zlen in *. lia. }
  exists (chunk ++ pre), rest, l', r', blks'. split; [done|].
  split; [by rewrite <- app_assoc, <- Hp|]. split; [done|]. by rewrite app_assoc.
Qed.

(** the bytes given to the buffer so far *)
Definition eb_ok r0 r e h content : Prop :=
  ∃ blks w, written_by r0 r (eb_writer e) h blks w ∧ zlen (eb_buffer e) = bm25_max_free_space ∧
    0 ≤ eb_len e < bm25_max_free_space ∧ content = w ++ ztake (eb_len e) (eb_buffer e).

Lemma room_app r0 (a b : list Z) : room r0 (zlen (a ++ b)) → room r0 (zlen a).
Proof. unfold room. rewrite zlen_app. pose proof (zlen_nonneg b). lia. Qed.

(** filling the buffer, and writing it out when it is full *)
Lemma eb_fill_spec r0 r e h content data :
  eb_ok r0 r e h content → room r0 (zlen (content ++ data)) →
  let end_ := Z.min (bm25_max_free_space - eb_len e) (zlen data) in
  let e1 := {| eb_writer := eb_writer e;
               eb_buffer := zwrite (eb_len e) (ztake end_ data) (eb_buffer e);
               eb_len := eb_len e + end_ |} in
  ∃ e2 r2, (if eb_len e1 =? bm25_max_free_space then
              '(_, w) ← write (eb_writer e1) (eb_buffer e1);
              mret {| eb_writer := w; eb_buffer := eb_buffer e1; eb_len := 0 |}
            else mret e1) r = Ok (e2, r2) ∧
    eb_ok r0 r2 e2 h (content ++ ztake end_ data) ∧
    (zdrop end_ data ≠ [] → eb_len e2 = 0).
Proof.
  intros (blks & w & Hw & Hbl & Hlr & ->) Hroom end_ e1.
  pose proof (zlen_nonneg data). assert (0 ≤ end_ ≤ zlen data) as He by lia.
  assert (zlen (ztake end_ data) = end_) as Hze by (apply zlen_ztake; lia).
  assert (ztake (eb_len e + end_) (eb_buffer e1) = ztake (eb_len e) (eb_buffer e) ++ ztake end_ data) as Ht.
  { unfold e1. simpl. rewrite <- Hze at 1. apply ztake_zwrite; lia. }
  assert (zlen (eb_buffer e1) = bm25_max_free_space) as Hbl1.
  { unfold e1. simpl. rewrite zlen_zwrite; lia. }
  assert (eb_len e1 = eb_len e + end_) as Hl1 by done.
  destruct (Z.eqb_spec (eb_len e1) bm25_max_free_space) as [Hfull|Hnot].
  - assert (eb_buffer e1 = ztake (eb_len e) (eb_buffer e) ++ ztake end_ data) as Hbuf.
    { rewrite <- Ht. symmetry. apply ztake_ge. lia. }
    destruct (step_write r0 r (eb_writer e) h blks w (eb_buffer e1) Hw) as (l' & r' & blks' & Hrun & Hw').
    { rewrite Hbuf, app_assoc. rewrite <- (ztake_zdrop end_ data), app_assoc in Hroom.
      by apply room_app in Hroom. }
    rewrite (bind_ok _ _ _ _ _ Hrun). eexists _, r'. split; [done|]. split; [|done].
    pose proof bm25_max_free_space_range.
    exists blks', (w ++ eb_buffer e1). cbn [eb_writer eb_buffer eb_len]. split; [done|]. split; [done|]. split; [lia|].
    rewrite app_nil_r, Hbuf. by rewrite app_assoc.
  - exists e1, r. split; [done|]. split.
    + exists blks, w. split; [done|]. split; [done|]. split; [lia|].
      by rewrite Hl1, Ht, app_assoc.
    + intros Hne. apply zlen_nil_iff in Hne. rewrite zlen_zdrop in Hne by lia. lia.
Qed.

Lemma eb_write_spec r0 r e h content data :
  eb_ok r0 r e h content → room r0 (zlen (content ++ data)) →
  ∃ e' r', eb_write e data r = Ok ((zlen data, e'), r') ∧ eb_ok r0 r' e' h (content ++ data).
Proof.
  intros He Hroom. pose proof He as (_ & _ & _ & _ & Hlr & _).
  destruct (eb_fill_spec r0 r e h content data He Hroom) as (e2 & r2 & Hrun2 & He2 & Hlen2).
  unfold eb_write. destruct (Z.ltb_spec (eb_len e) bm25_max_free_space); [|lia].
  set (end_ := Z.min _ _) in *. rewrite (bind_ok _ _ _ _ _ Hrun2).
  destruct He2 as (blks & w & Hw & Hbl & Hlr2 & Heq).
  assert (content ++ data = (content ++ ztake end_ data) ++ zdrop end_ data) as Hall.
  { by rewrite <- app_assoc, ztake_zdrop. }
  destruct (write_direct_spec (length (zdrop end_ data)) r0 r2 (eb_writer e2) h blks w (zdrop end_ data) Hw)
    as (pre & rest & l' & r' & blks' & Hrun & Hpre & Hrest & Hw'); [|done|].
  { rewrite Hall, Heq in Hroom. unfold room in *. rewrite !zlen_app in *.
    pose proof (zlen_nonneg (ztake (eb_len e2) (eb_buffer e2))). lia. }
  rewrite (bind_ok _ _ _ _ _ Hrun). eexists _, r'. split; [done|].
  rewrite Hall, Heq, Hpre. destruct rest as [|z rest].
  - exists blks', (w ++ pre). cbn [eb_writer eb_buffer eb_len]. split_and!; try done; [lia|lia|].
    rewrite app_nil_r. destruct (decide (pre = [])) as [->|Hne].
    + by rewrite !app_nil_r.
    + rewrite Hlen2; [by rewrite ztake_0, !app_nil_r|]. rewrite Hpre, app_nil_r. done.
  - assert (eb_len e2 = 0) as -> by (apply Hlen2; rewrite Hpre; by destruct pre).
    pose proof (zlen_nonneg (z :: rest)).
    exists blks', (w ++ pre). cbn [eb_writer eb_buffer eb_len]. split_and!; try done; try lia.
    + rewrite zlen_zwrite; lia.
    + pose proof (ztake_zwrite 0 (z :: rest) (eb_buffer e2)) as Ht. rewrite Z.add_0_l in Ht.
      rewrite Ht by lia. rewrite !ztake_0, app_nil_r. simpl. by rewrite <- app_assoc.
Qed.

Lemma eb_flush_spec r0 r e h content :
  eb_ok r0 r e h content → room r0 (zlen content) →
  ∃ e' r' blks, eb_flush e r = Ok (e', r') ∧ written_by r0 r' (eb_writer e') h blks content ∧
    eb_len e' = 0 ∧ eb_buffer e' = eb_buffer e ∧ eb_buffer e ≠ [].
Proof.
  intros (blks & w & Hw & Hbl & Hlr & ->) Hroom. pose proof bm25_max_free_space_range.
  assert (eb_buffer e ≠ []) as Hne.
  { intros Heq. rewrite Heq in Hbl. change (zlen (@nil Z)) with 0 in Hbl. lia. }
  destruct (step_write r0 r (eb_writer e) h blks w _ Hw Hroom) as (l' & r' & blks' & Hrun & Hw').
  eexists {| eb_writer := l'; eb_buffer := eb_buffer e; eb_len := 0 |}, r', blks'.
  split; [|done]. unfold eb_flush. destruct (eb_buffer e) eqn:E; [done|].
  by rewrite (bind_ok _ _ _ _ _ Hrun).
Qed.
End writer_lemmas.

(** ** Whole files *)

Section file_lemmas.
Context `{BitPacking, PgPage, PgXact, PgBuffers}.
Implicit Types (r : Rel) (blks content data : list Z) (md : LinkedListData).

Lemma scw_write_all_spec r0 r w h content writes :
  eb_ok r0 r (scw_buffer w) h content → scw_total_bytes w = zlen content →
  room r0 (zlen (content ++ concat writes)) →
  ∃ w' r', scw_write_all w writes r = Ok (w', r') ∧
    eb_ok r0 r' (scw_buffer w') h (content ++ concat writes) ∧
    scw_total_bytes w' = zlen (content ++ concat writes) ∧
    scw_header_blockno w' = scw_header_blockno w.
Proof.
  revert r w content. induction writes as [|data writes IH]; intros r w content He Ht Hroom.
  { exists w, r. by rewrite app_nil_r. }
  simpl in Hroom. rewrite app_assoc in Hroom. cbn [scw_write_all]. unfold scw_write.
  destruct (eb_write_spec r0 r (scw_buffer w) h content data He (room_app _ _ _ Hroom))
    as (e1 & r1 & Hrun1 & He1).
  rewrite (bind_ok (_ ← _; _) _ r r1 (zlen data, with_buffer e1 (scw_total_bytes w + zlen data) w)).
  2: { by rewrite (bind_ok _ _ _ _ _ Hrun1). }
  destruct (IH r1 (with_buffer e1 (scw_total_bytes w + zlen data) w) (content ++ data))
    as (w' & r' & Hrun & Hw' & Ht' & Hh'); [done|simpl; rewrite zlen_app, Ht; done|done|].
  exists w', r'. simpl concat. by rewrite app_assoc.
Qed.

Lemma scw_new_spec path r :
  rel_wf r → in_use r 0 → packs_any ∨ rel_fsm r = ∅ → room r 0 →
  ∃ w r', scw_new path r = Ok (w, r') ∧
    eb_ok (upd_cache (λ _, ∅) r) r' (scw_buffer w) (scw_header_blockno w) [] ∧
    scw_total_bytes w = 0.
Proof.
  intros Hwf Huse0 Hpk Hroom. unfold room in Hroom. pose proof bm25_max_free_space_range.
  destruct (create_spec r Hwf Huse0) as (l & r' & start & Hrun & Hl & Hg & Hnh & Hns & _); [lia|done|].
  unfold scw_new. rewrite (bind_ok _ _ _ _ _ Hrun). eexists _, r'. split; [done|]. split; [|done].
  exists [start], []. simpl. split_and!; try done; try lia.
  - split; [done|]. split; [done|]. split; [done|].
    intros b [-> | ->%list_elem_of_singleton]%elem_of_cons; done.
  - unfold zlen. rewrite length_replicate. lia.
Qed.

Lemma terminate_spec r0 r w h content :
  eb_ok r0 r (scw_buffer w) h content → room r0 (zlen content) →
  ∃ w' r' md blks, (w ← scw_terminate_ref w; _ ← scw_drop w; mret (scw_file_entry w)) r =
      Ok (scw_file_entry w, r') ∧ w' = w ∧
    file_at r' h md blks content ∧ rel_wf r' ∧
    (∀ b, in_use r0 b → rel_pages r' !! b = rel_pages r0 !! b).
Proof.
  intros He Hroom.
  destruct (eb_flush_spec r0 r _ h content He Hroom)
    as (e1 & r1 & blks & Hrun1 & (Hl & Hh & Hg & Hnew) & Hlen1 & Hbuf1 & Hne1).
  assert (∀ l', metadata l' = metadata (eb_writer e1) → ∀ r', 
    eb_flush {| eb_writer := l'; eb_buffer := eb_buffer e1; eb_len := eb_len e1 |} r' =
    Ok ({| eb_writer := l'; eb_buffer := eb_buffer e1; eb_len := 0 |}, r')) as Hdrop.
  { intros l' Hl' r'. unfold eb_flush. cbn [eb_buffer eb_len eb_writer]. rewrite Hlen1, ztake_0.
    destruct (eb_buffer e1) eqn:E; [congruence|].
    destruct (writing_last_valid _ _ _ _ (proj1 Hl)).
    by rewrite (bind_ok _ _ r' r' (0, l')) by (apply write_nil; congruence). }
  assert (∃ l' r' md, flush (eb_writer e1) r1 = Ok (l', r') ∧ metadata l' = metadata (eb_writer e1) ∧
    file_at r' h md blks content ∧ rel_wf r' ∧
    (∀ b, in_use r0 b → rel_pages r' !! b = rel_pages r0 !! b)) as (l' & r' & md & Hrun2 & Hmd & Hf & Hwf & Hsame).
  { destruct (decide (content = [])) as [->|Hne].
    - destruct (flush_nil_spec r1 (eb_writer e1) blks Hl) as (l' & Hrun & Hmd & Hf).
      rewrite Hh in Hf. exists l', r1, (metadata (eb_writer e1)). split_and!; try done; [apply Hg|].
      intros b Hb. apply Hg; [done|apply not_elem_of_nil].
    - destruct Hl as (Hw & Hl2). pose proof Hw as (_ & _ & Hpa & _).
      pose proof (pages_count _ _ _ _ _ Hpa). pose proof (grows_nblocks _ _ _ _ Hg).
      destruct (flush_spec r1 (eb_writer e1) blks content (conj Hw Hl2) Hne)
        as (l' & r' & md & Hrun & Hmd & Hf & Hg'); [unfold room in Hroom; lia|].
      rewrite Hh in Hf. exists l', r', md. split_and!; try done; [apply Hg'|].
      intros b Hb. rewrite (grows_frame _ _ _ _ Hg'), (grows_frame _ _ _ _ Hg); try done.
      + apply not_elem_of_nil.
      + eapply grows_in_use; [done|done|apply not_elem_of_nil].
      + rewrite Hh. intros ->%list_elem_of_singleton. apply (Hnew h); [left|done]. }
  exists w, r', md, blks. split; [|done]. unfold scw_terminate_ref, scw_drop.
  erewrite bind_ok; [|rewrite (bind_ok _ _ _ _ _ Hrun1), (bind_ok _ _ _ _ _ Hrun2); done].
  erewrite bind_ok; [done|]. cbn [scw_buffer with_buffer].
  by rewrite (bind_ok _ _ _ _ _ (Hdrop l' Hmd r')).
Qed.

Lemma write_file_spec path writes r :
  rel_wf r → in_use r 0 → packs_any ∨ rel_fsm r = ∅ → room r (zlen (concat writes)) →
  ∃ entry r' md blks, write_file path writes r = Ok (entry, r') ∧
    total_bytes entry = zlen (concat writes) ∧
    file_at r' (staring_block entry) md blks (concat writes) ∧ rel_wf r' ∧
    (∀ b, in_use r b → rel_pages r' !! b = rel_pages r !! b).
Proof.
  intros Hwf Huse0 Hpk Hroom.
  destruct (scw_new_spec path r Hwf Huse0 Hpk) as (w & r1 & Hrun1 & He1 & Ht1).
  { unfold room in *. pose proof (zlen_nonneg (concat writes)). lia. }
  destruct (scw_write_all_spec _ r1 w _ [] writes He1 Ht1 Hroom) as (w2 & r2 & Hrun2 & He2 & Ht2 & Hh2).
  destruct (terminate_spec _ r2 w2 _ _ He2 Hroom) as (_ & r' & md & blks & Hrun & _ & Hf & Hwf' & Hsame).
  exists (scw_file_entry w2), r', md, blks. split; [|split; [done|split; [|done]]].
  - unfold write_file. by rewrite (bind_ok _ _ _ _ _ Hrun1), (bind_ok _ _ _ _ _ Hrun2).
  - simpl. by rewrite Hh2.
Qed.

(** *** Reading *)

(** the state of a reader of a file between two reads *)
Definition scr_ok r (s : SegmentComponentReader) md blks content : Prop :=
  rel_wf r ∧ file_at r (header_blockno (scr_block_list s)) md blks content ∧
  metadata (scr_block_list s) = md ∧ reader_ok (scr_block_list s) blks ∧ cache_ok r blks ∧
  scr_len s = zlen content ∧
  (scr_npages s = 0 ∨ scr_npages s = npages md - 1) ∧
  (scr_last_blockno s = InvalidBlockNumber ∨ scr_last_blockno s = last_blockno md).

Lemma scr_get_npages_spec r s md blks content :
  scr_ok r s md blks content →
  ∃ s', scr_get_npages s r = Ok ((npages md - 1, s'), r) ∧ scr_ok r s' md blks content.
Proof.
  intros Hok. pose proof Hok as (Hwf & [Hpa Hb] & Hmd & Hr & Hc & Hlen & Hn & Hl).
  unfold scr_get_npages. destruct (Z.eqb_spec (scr_npages s) 0) as [Hz|Hz].
  - eexists. split.
    + rewrite (bind_ok (lift _) _ r r (npages md - 1)); [done|].
      unfold lift, list_npages. rewrite Hmd. destruct Hpa as [_ _ _ _ Hs _ Hnp].
      assert (0 < zlen blks) by (apply zlen_nil_iff; by intros ->). zcmp.
    + split_and!; try done. by right.
  - exists s. split; [|done]. destruct Hn as [|<-]; done.
Qed.

Lemma scr_get_last_spec r s md blks content :
  scr_ok r s md blks content →
  ∃ s', scr_get_last_blockno s r = Ok ((last_blockno md, s'), r) ∧ scr_ok r s' md blks content.
Proof.
  intros Hok. pose proof Hok as (Hwf & [Hpa Hb] & Hmd & Hr & Hc & Hlen & Hn & Hl).
  unfold scr_get_last_blockno. destruct (Z.eqb_spec (scr_last_blockno s) InvalidBlockNumber).
  - eexists. split.
    + rewrite (bind_ok (lift _) _ r r (last_blockno md)); [done|].
      unfold lift, get_last_blockno. rewrite Hmd.
      destruct Hpa as [_ (datas & Hch & _) _ Hz _ Hla _]. apply last_Some in Hla as [bs Heq].
      assert (last_blockno md ∈ blks) as Hin by (rewrite Heq; set_solver).
      pose proof (chain_dom _ _ _ _ Hwf Hch Hin).
      rewrite Forall_forall in Hz. destruct (Hz (last_blockno md)) as [_ ?]; [by right|].
      rewrite valid_block_ok; [done|done|]. destruct Hwf as [? _]. lia.
    + split_and!; try done. by right.
  - exists s. split; [|done]. destruct Hl as [|<-]; done.
Qed.

Lemma scr_ok_reads r r' s md blks content :
  reads blks r r' → scr_ok r s md blks content → scr_ok r' s md blks content.
Proof.
  intros (Hp & Hn & Hf & _ & Hc) (Hwf & Hfile & Hrest).
  assert (∀ bs ds, chain r bs ds → chain r' bs ds) as Hch.
  { intros bs ds. apply chain_frame. intros. by rewrite Hp. }
  split; [|split; [|destruct Hrest as (? & ? & _ & ?); done]].
  - unfold rel_wf in *. by rewrite Hp, Hn, Hf.
  - destruct Hfile as [[(hp & Hhp) (datas & Hd) ? ? ? ? ?] Hbl]. split.
    + split; try done; [exists hp; by rewrite Hp|]. exists datas. destruct Hd. auto.
    + intros Hne. destruct (Hbl Hne) as (b & bl & ? & ? & (ds & bss & ? & ?) & ?).
      exists b, bl. split_and!; try done. exists ds, bss. auto.
Qed.

(** the last page, reached through the header *)
Lemma last_page_read r md h blks content start end_ :
  rel_wf r → pages_at r h md blks content → cache_ok r blks →
  0 ≤ start < zlen content → end_ ≤ zlen content →
  start / bm25_max_free_space = npages md - 1 →
  ∃ r', get_cached_range (last_blockno md) start end_ r =
      Ok (OnePage (zslice start (range_len start end_) content), r') ∧ reads blks r r'.
Proof.
  intros Hwf Hpa Hc Hs He Hlast.
  destruct (at_position r _ _ _ _ start Hwf Hpa Hs)
    as (b & bs & p & ds & Hb & Hp & Hok & Hch & Hf & Hin & Hz & Hl & Hbs).
  destruct Hpa as [_ _ _ _ _ Hla Hnp].
  assert (b = last_blockno md ∧ bs = []) as [-> ->].
  { rewrite Hlast, Hnp in Hb. rewrite last_lookup in Hla.
    replace (Z.to_nat (zlen blks - 1)) with (pred (length blks)) in Hb by (unfold zlen; lia).
    split; [congruence|]. rewrite Hbs, Hlast, Hnp. apply drop_ge. unfold zlen. lia. }
  destruct ds as [|? ?]; [|by destruct Hch].
  simpl in Hl, Hz. rewrite app_nil_r in Hl, Hz.
  destruct (get_cached_range_run r blks (last_blockno md) p start end_ Hc) as (r' & Hrun & Hr); try done.
  { apply Hin. left. }
  { unfold range_len. lia. }
  exists r'. split; [|done]. rewrite Hrun. do 3 f_equal. unfold zslice. by rewrite Hz.
Qed.

(** the bytes [read_bytes] is to return: the range, clamped to the file *)
Definition clamped (content : list Z) (start end_ : Z) : list Z :=
  zslice start (range_len start (Z.min end_ (zlen content))) content.

Lemma scr_read_bytes_spec r s md blks content start end_ :
  scr_ok r s md blks content → 0 ≤ start < zlen content →
  ∃ s' r', scr_read_bytes s start end_ r = Ok ((clamped content start end_, s'), r') ∧
    scr_ok r' s' md blks content ∧ rel_pages r' = rel_pages r.
Proof.
  intros Hok Hs. unfold scr_read_bytes, scr_read_bytes_raw, clamped.
  assert (scr_len s = zlen content) as -> by apply Hok.
  set (e := Z.min end_ (zlen content)). assert (e ≤ zlen content) as He by lia. cbn zeta.
  destruct (scr_get_npages_spec _ _ _ _ _ Hok) as (s1 & Hrun1 & Hok1).
  destruct (Z.eqb_spec (start / bm25_max_free_space) (npages md - 1)) as [Hl|Hl].
  - destruct (scr_get_last_spec _ _ _ _ _ Hok1) as (s2 & Hrun2 & Hok2).
    pose proof Hok as (Hwf & [Hpa _] & _ & _ & Hc & _).
    destruct (last_page_read r md _ blks content start e Hwf Hpa Hc Hs He Hl) as (r' & Hrun3 & Hr).
    eexists s2, r'. split; [|split; [by eapply scr_ok_reads|apply Hr]].
    rewrite (bind_ok _ _ r r' (OnePage (zslice start (range_len start e) content), s2)); [done|].
    rewrite (bind_ok _ _ _ _ _ Hrun1). cbn [fst snd].
    rewrite (proj2 (Z.eqb_eq _ _)) by done. rewrite (bind_ok _ _ _ _ _ Hrun2). cbn [fst snd].
    by rewrite (bind_ok _ _ _ _ _ Hrun3).
  - pose proof Hok1 as (Hwf & Hf & Hmd & Hr & Hc & _).
    rewrite <- Hmd in Hf.
    destruct (get_bytes_range_spec r (scr_block_list s1) blks content start e Hwf Hf Hr Hc Hs He)
      as (d & r' & Hrun3 & Hd & Hreads).
    set (s2 := {| scr_block_list := with_reader (Some blks) (scr_block_list s1);
      scr_npages := scr_npages s1; scr_last_blockno := scr_last_blockno s1; scr_entry := scr_entry s1 |}).
    exists s2, r'. split; [|split; [|apply Hreads]].
    + rewrite (bind_ok _ _ r r' (d, s2)); [by rewrite Hd|]. rewrite (bind_ok _ _ _ _ _ Hrun1). cbn [fst snd].
      rewrite (proj2 (Z.eqb_neq _ _)) by done. by rewrite (bind_ok _ _ _ _ _ Hrun3).
    + eapply scr_ok_reads; [done|].
      destruct Hok1 as (? & Hf1 & ? & ? & ? & ? & ? & ?). split_and!; try done. by right.
Qed.

Lemma scr_new_spec r entry md blks content :
  rel_wf r → file_at r (staring_block entry) md blks content →
  total_bytes entry = zlen content →
  ∃ s r', scr_new entry r = Ok (s, r') ∧ scr_ok r' s md blks content ∧ rel_pages r' = rel_pages r.
Proof.
  intros Hwf Hf Ht. pose proof Hf as [[(hp & Hhp & _ & _ & Hmd & _) _ _ _ _ _ _] _].
  eexists _, (upd_cache (λ _, ∅) r). unfold scr_new, open, BufferManager_new. split.
  - erewrite bind_ok; [done|]. rewrite (bind_ok (modify _) _ r (upd_cache (λ _, ∅) r) tt) by done.
    by rewrite (bind_ok _ _ _ _ _ (get_page_run (upd_cache (λ _, ∅) r) _ _ Hhp)).
  - split; [|done]. split_and!; simpl; try done; try (by left).
    destruct Hf as [[? (ds & ? & ?) ? ? ? ? ?] Hbl]. split.
    + split; try done. exists ds. split; [|done]. by apply (chain_frame r).
    + intros Hne. destruct (Hbl Hne) as (b & bl & ? & ? & (ds' & bss & ? & ?) & ?).
      exists b, bl. split_and!; try done. exists ds', bss. split; [|done]. by apply (chain_frame r).
Qed.

Lemma read_ranges_spec r s md blks content ranges :
  scr_ok r s md blks content → Forall (λ se, 0 ≤ se.1 < zlen content) ranges →
  ∃ r', read_ranges s ranges r = Ok ((λ se, clamped content se.1 se.2) <$> ranges, r') ∧
    rel_pages r' = rel_pages r.
Proof.
  revert r s. induction ranges as [|[start end_] ranges IH]; intros r s Hok Hr; [by exists r|].
  apply Forall_cons in Hr as [Hs Hr]. cbn [read_ranges].
  destruct (scr_read_bytes_spec r s md blks content start end_ Hok Hs) as (s1 & r1 & Hrun1 & Hok1 & Hp1).
  destruct (IH r1 s1 Hok1 Hr) as (r2 & Hrun2 & Hp2). exists r2.
  rewrite (bind_ok _ _ _ _ _ Hrun1). cbn [fst snd]. rewrite (bind_ok _ _ _ _ _ Hrun2).
  split; [done|congruence].
Qed.
End file_lemmas.

(** C1: A segment file reads back what was written: whatever the split of the bytes into
    calls of write, the entry of the terminated file has their total length, no page in
    use before is touched, and every sequence of range reads through one reader returns
    exactly those slices of the bytes. *)
Theorem segment_file_roundtrip `{BitPacking, PgPage, PgXact, PgBuffers}
    (r : Rel) (path : string) (writes : list (list Z)) (ranges : list (Z * Z)) :
  rel_wf r → in_use r 0 → packs_any ∨ rel_fsm r = ∅ →
  rel_nblocks r + 3 * zlen (concat writes) + 3 < InvalidBlockNumber →
  Forall (λ se, 0 ≤ se.1 < zlen (concat writes)) ranges →
  ∃ entry r' r'',
    write_file path writes r = Ok (entry, r') ∧
    total_bytes entry = zlen (concat writes) ∧
    (∀ b, in_use r b → rel_pages r' !! b = rel_pages r !! b) ∧
    read_file entry ranges r' =
      Ok ((λ se, zslice se.1 (range_len se.1 (Z.min se.2 (zlen (concat writes)))) (concat writes))
            <$> ranges, r'') ∧
    rel_pages r'' = rel_pages r'.
Proof.
  intros Hwf Huse0 Hpk Hroom Hr.
  destruct (write_file_spec path writes r Hwf Huse0 Hpk Hroom)
    as (entry & r' & md & blks & Hrun & Ht & Hf & Hwf' & Hsame).
  destruct (scr_new_spec r' entry md blks _ Hwf' Hf Ht) as (s & r1 & Hrun1 & Hok & Hp1).
  destruct (read_ranges_spec r1 s md blks _ ranges Hok Hr) as (r2 & Hrun2 & Hp2).
  exists entry, r', r2. split_and!; try done; [|congruence].
  unfold read_file. by rewrite (bind_ok _ _ _ _ _ Hrun1), Hrun2.
Qed.

(** A read that starts at the end of a file whose pages are all full panics instead
    of returning no bytes: the page after the last has no block. *)
Theorem read_at_page_boundary_panics `{BitPacking, PgPage, PgXact, PgBuffers}
    (r : Rel) (entry : FileEntry) md blks content end_ :
  rel_wf r → file_at r (staring_block entry) md blks content →
  total_bytes entry = zlen content →
  zlen content = npages md * bm25_max_free_space →
  read_file entry [(zlen content, end_)] r = Panic "block not found".
Proof.
  intros Hwf Hf Ht Hfull. pose proof bm25_max_free_space_range.
  destruct (scr_new_spec r entry md blks content Hwf Hf Ht) as (s & r1 & Hrun1 & Hok & _).
  unfold read_file. rewrite (bind_ok _ _ _ _ _ Hrun1). cbn [read_ranges].
  destruct (scr_get_npages_spec _ _ _ _ _ Hok) as (s1 & Hrun2 & Hok1).
  pose proof Hok1 as (Hwf1 & [Hpa Hbl] & Hmd & Hr & _).
  assert (zlen content / bm25_max_free_space = npages md) as Hord.
  { rewrite Hfull. apply Z.div_mul. lia. }
  pose proof (pa_npages _ _ _ _ _ Hpa) as Hnp.
  assert (0 < zlen blks) by (apply zlen_nil_iff; destruct Hpa as [_ _ _ _ Hs _ _]; by intros ->).
  assert (content ≠ []) as Hne.
  { intros ->. change (zlen (@nil Z)) with 0 in Hfull. nia. }
  destruct (Hbl Hne) as (b & bl & Hb & _ & Hat & _). rewrite <- Hmd in Hb.
  apply bind_panic. unfold scr_read_bytes. apply bind_panic.
  unfold scr_read_bytes_raw. cbn zeta. rewrite (bind_ok _ _ _ _ _ Hrun2). cbn [fst snd].
  rewrite Hord, (proj2 (Z.eqb_neq _ _)) by lia. apply bind_panic.
  unfold get_bytes_range. rewrite Hord.
  rewrite (bind_ok _ _ _ _ _ (block_for_ord_run _ _ _ (npages md) Hwf1 Hr ltac:(eauto))).
  cbn [fst snd]. apply bind_panic.
  rewrite znth_lookup, lookup_ge_None_2 by (unfold zlen in *; lia). done.
Qed.
