(* ===== verification/LinkedItems.v ===== *)
(** * LinkedItems: the list of segment meta entries

    Models [pg_search/src/postgres/storage/linked_items.rs]: [create], [add_items],
    [lookup], [lookup_ex] and [garbage_collect], for any item type with its
    [PgItem] conversions and MVCC methods. *)

From S2P Require Import Prelude Page Block Buffer BlockList LinkedBytes.

Open Scope Z_scope.

(** What [garbage_collect] relies on when it overwrites an entry in place: an entry
    and its frozen copy are serialized to the same number of bytes (bincode writes
    transaction ids as fixed-width integers). *)
Class FrozenSameSize T `{PgItem T} `{MVCCEntry T} :=
  frozen_same_size e a b : zlen (into_item (mvcc_into_frozen e a b)) = zlen (into_item e).

Section linked_items.
Context `{PgPage, PgXact, PgBuffers} {T} `{PgItem T} `{MVCCEntry T}.

(** a list object is its header block: its metadata is read anew each time *)
Definition get_linked_list_data (header : Z) : M Rel LinkedListData :=
  p ← get_page header; mret (contents p).
Definition items_start_blockno (header : Z) : M Rel Z :=
  md ← get_linked_list_data header; lift (get_start_blockno md).

Definition items_create : M Rel Z :=
  _ ← BufferManager_new;
  header ← new_buffer;
  start ← new_buffer;
  _ ← update_buffer header (λ pm, Ok (init_page pm));
  _ ← update_buffer start (λ pm, Ok (init_page pm));
  _ ← update_buffer header (contents_mut (λ md,
    {| start_blockno := start; last_blockno := start; npages := 0;
       blocklist_start := blocklist_start md |}));
  mret header.

(** ** Adding items *)

(** ['append_loop]: from [blockno] on, until a page takes the item *)
Fixpoint append_loop (fuel : nat) (header blockno : Z) (item : list Z) : M Rel Z :=
  match fuel with
  | O => no_fuel
  | S fuel =>
      offsetno ← with_page_mut blockno (λ pm, Ok (append_item pm item));
      if negb (offsetno =? InvalidOffsetNumber) then mret blockno
      else
        page ← get_page blockno;
        let next := page_next_blockno page in
        if negb (next =? InvalidBlockNumber) then append_loop fuel header next item
        else
          new_blockno ← new_buffer;
          _ ← update_buffer new_blockno (λ pm, Ok (init_page pm));
          _ ← update_buffer blockno (λ pm, Ok (set_next_blockno new_blockno pm));
          _ ← with_page_mut header (header_add_page new_blockno);
          append_loop fuel header new_blockno item
  end.

(** [for item in items]; the buffer stays where the last item went *)
Fixpoint add_items_from (header blockno : Z) (items : list T) : M Rel unit :=
  match items with
  | [] => mret tt
  | item :: items =>
      n ← gets rel_nblocks;
      blockno ← append_loop (S (S (Z.to_nat n))) header blockno (into_item item);
      add_items_from header blockno items
  end.
Definition add_items (header : Z) (items : list T) (buffer : option Z) : M Rel unit :=
  blockno ← match buffer with
            | Some b => mret b
            | None => items_start_blockno header
            end;
  add_items_from header blockno items.

(** ** Lookup *)

(** the first entry of a page that [cmp] accepts, with its offset *)
Fixpoint lookup_page (p : Page) (cmp : T → bool) (offs : list Z) : outcome (option (T * Z)) :=
  match offs with
  | [] => Ok None
  | offsetno :: offs =>
      o ← read_item p offsetno;
      match o with
      | Some (deserialized, _) =>
          if cmp deserialized then Ok (Some (deserialized, offsetno)) else lookup_page p cmp offs
      | None => lookup_page p cmp offs
      end
  end.

Fixpoint lookup_loop (fuel : nat) (cmp : T → bool) (blockno : Z) : M Rel (T * Z * Z) :=
  if blockno =? InvalidBlockNumber then fail "failed to find the desired entry" else
  match fuel with
  | O => no_fuel
  | S fuel =>
      page ← get_page blockno;
      o ← lift (lookup_page page cmp (seqZ FirstOffsetNumber (max_offset_number page)));
      match o with
      | Some (t, offsetno) => mret (t, blockno, offsetno)
      | None => lookup_loop fuel cmp (page_next_blockno page)
      end
  end.
Definition lookup_ex (header : Z) (cmp : T → bool) : M Rel (T * Z * Z) :=
  blockno ← items_start_blockno header;
  n ← gets rel_nblocks;
  lookup_loop (Z.to_nat n) cmp blockno.
Definition list_lookup (header : Z) (cmp : T → bool) : M Rel T :=
  '(t, _, _) ← lookup_ex header cmp; mret t.

(** every entry of the list, in order: the loop [for each page, for each offset]
    that the users of a list write out *)
Fixpoint read_page_items (p : Page) (offs : list Z) : outcome (list T) :=
  match offs with
  | [] => Ok []
  | offsetno :: offs =>
      o ← read_item p offsetno;
      rest ← read_page_items p offs;
      Ok (match o with Some (entry, _) => entry :: rest | None => rest end)
  end.
Fixpoint list_entries_loop (fuel : nat) (blockno : Z) : M Rel (list T) :=
  if blockno =? InvalidBlockNumber then mret [] else
  match fuel with
  | O => no_fuel
  | S fuel =>
      page ← get_page blockno;
      es ← lift (read_page_items page (seqZ FirstOffsetNumber (max_offset_number page)));
      rest ← list_entries_loop fuel (page_next_blockno page);
      mret (es ++ rest)
  end.
Definition list_entries (header : Z) : M Rel (list T) :=
  blockno ← items_start_blockno header;
  n ← gets rel_nblocks;
  list_entries_loop (Z.to_nat n) blockno.

(** ** Garbage collection *)

(** the [while offsetno <= max_offset] loop: the offsets to delete *)
Fixpoint gc_scan (freeze_limit : Z) (offs : list Z) (pm : PageMut) : outcome (list Z * PageMut) :=
  match offs with
  | [] => Ok ([], pm)
  | offsetno :: offs =>
      o ← read_item (T:=T) (pm_page pm) offsetno;
      match o with
      | Some (entry, _) =>
          if recyclable entry GetActiveSnapshot then
            r ← gc_scan freeze_limit offs pm;
            Ok (offsetno :: r.1, r.2)
          else
            let xmin_needs_freeze := xmin_needs_freeze entry freeze_limit in
            let xmax_needs_freeze := xmax_needs_freeze entry freeze_limit in
            if xmin_needs_freeze || xmax_needs_freeze then
              let frozen_entry := mvcc_into_frozen entry xmin_needs_freeze xmax_needs_freeze in
              r ← replace_item pm offsetno (into_item frozen_entry);
              if (r.1 : bool) then gc_scan freeze_limit offs r.2 else Panic "did_replace"
            else gc_scan freeze_limit offs pm
      | None => gc_scan freeze_limit offs pm
      end
  end.

Definition gc_page (freeze_limit : Z) (pm : PageMut) : outcome (Z * Z * PageMut) :=
  '(delete_offsets, pm) ← gc_scan freeze_limit
     (seqZ FirstOffsetNumber (max_offset_number (pm_page pm))) pm;
  let pm := match delete_offsets with [] => pm | _ => delete_items pm delete_offsets end in
  Ok (max_offset_number (pm_page pm), page_next_blockno (pm_page pm), pm).

(** [while blockno != InvalidBlockNumber] *)
Fixpoint gc_loop (fuel : nat) (freeze_limit start_blockno blockno last_filled_blockno : Z) : M Rel unit :=
  if blockno =? InvalidBlockNumber then mret tt else
  match fuel with
  | O => no_fuel
  | S fuel =>
      '(new_max_offset, next) ← with_page_mut blockno (gc_page freeze_limit);
      if (new_max_offset =? InvalidOffsetNumber) && negb (blockno =? start_blockno) then
        _ ← update_buffer blockno (λ pm, Ok (mark_deleted ReadNextFullTransactionId pm));
        _ ← (if next =? InvalidBlockNumber then
               update_buffer last_filled_blockno (λ pm, Ok (set_next_blockno InvalidBlockNumber pm))
             else mret tt);
        gc_loop fuel freeze_limit start_blockno next last_filled_blockno
      else if negb (new_max_offset =? InvalidOffsetNumber) && negb (blockno =? start_blockno) then
        _ ← update_buffer last_filled_blockno (λ pm, Ok
               (if negb (page_next_blockno (pm_page pm) =? blockno)
                then set_next_blockno blockno pm else pm));
        gc_loop fuel freeze_limit start_blockno next blockno
      else gc_loop fuel freeze_limit start_blockno next last_filled_blockno
  end.

Definition garbage_collect (header : Z) : M Rel unit :=
  freeze_limit ← lift vacuum_get_freeze_limit;
  start_blockno ← items_start_blockno header;
  n ← gets rel_nblocks;
  gc_loop (Z.to_nat n) freeze_limit start_blockno start_blockno start_blockno.
End linked_items.

(** ** The entries of a page *)

Section page_lemmas.
Context `{PgPage, PgXact, PgBuffers} {T} `{PgItem T} `{MVCCEntry T} `{!FrozenSameSize T}.
Implicit Types (p : Page) (es : list T).

Definition as_items es : list ItemId := (λ e, normal_item (into_item e)) <$> es.

(** [p] is in use and its line pointers are the entries [es] *)
Definition holds p es : Prop := page_in_use p ∧ pd_linp p = as_items es.

Lemma as_items_app es1 es2 : as_items (es1 ++ es2) = as_items es1 ++ as_items es2.
Proof. apply fmap_app. Qed.
Lemma zlen_as_items es : zlen (as_items es) = zlen es.
Proof. unfold zlen, as_items. by rewrite length_fmap. Qed.

Lemma read_item_at p (l1 l2 : list ItemId) e off :
  pd_linp p = l1 ++ normal_item (into_item e) :: l2 → off = zlen l1 + 1 →
  read_item p off = Ok (Some (e, zlen (into_item e))).
Proof.
  intros Hl ->. unfold read_item. rewrite Z.add_simpl_r, Hl. unfold znth.
  pose proof (zlen_nonneg l1). zcmp. unfold zlen. rewrite Nat2Z.id, list_lookup_middle by done.
  simpl. by rewrite from_into_item.
Qed.

(** what is left of an entry that is kept *)
Definition freeze (limit : Z) (e : T) : T :=
  if xmin_needs_freeze e limit || xmax_needs_freeze e limit
  then mvcc_into_frozen e (xmin_needs_freeze e limit) (xmax_needs_freeze e limit) else e.
Definition dead (e : T) : bool := recyclable e GetActiveSnapshot.
(** [garbage_collect] on a list of entries *)
Definition collected (limit : Z) es : list T := freeze limit <$> filter (λ e, dead e = false) es.

Lemma collected_app limit es1 es2 :
  collected limit (es1 ++ es2) = collected limit es1 ++ collected limit es2.
Proof. unfold collected. by rewrite filter_app, fmap_app. Qed.

(** the one-based offsets of the dead entries, when [k] entries come before *)
Fixpoint dead_offsets (k : Z) es : list Z :=
  match es with
  | [] => []
  | e :: es => if dead e then k + 1 :: dead_offsets (k + 1) es else dead_offsets (k + 1) es
  end.
Definition frozen_in_place (limit : Z) (e : T) : T := if dead e then e else freeze limit e.

Lemma gc_scan_spec limit pm l1 es :
  pd_linp (pm_page pm) = l1 ++ as_items es → page_in_use (pm_page pm) →
  ∃ pm', gc_scan (T:=T) limit (seqZ (zlen l1 + 1) (zlen es)) pm =
      Ok (dead_offsets (zlen l1) es, pm') ∧
    pd_linp (pm_page pm') = l1 ++ as_items (frozen_in_place limit <$> es) ∧
    page_in_use (pm_page pm') ∧ pd_special (pm_page pm') = pd_special (pm_page pm).
Proof.
  revert pm l1. induction es as [|e es IH]; intros pm l1 Hl Hu; [by exists pm|].
  rewrite zlen_cons. pose proof (zlen_nonneg es). rewrite seqZ_cons by lia.
  replace (Z.succ (zlen l1 + 1)) with (zlen l1 + 1 + 1) by lia.
  replace (Z.pred (1 + zlen es)) with (zlen es) by lia.
  cbn [gc_scan]. rewrite (read_item_at _ l1 (as_items es) e) by done. cbn [mbind outcome_bind].
  assert (∀ pm1 e1, pd_linp (pm_page pm1) = l1 ++ as_items (e1 :: es) → page_in_use (pm_page pm1) →
    pd_special (pm_page pm1) = pd_special (pm_page pm) →
    ∃ pm', gc_scan (T:=T) limit (seqZ (zlen l1 + 1 + 1) (zlen es)) pm1 =
        Ok (dead_offsets (zlen l1 + 1) es, pm') ∧
      pd_linp (pm_page pm') = l1 ++ as_items (e1 :: (frozen_in_place limit <$> es)) ∧
      page_in_use (pm_page pm') ∧ pd_special (pm_page pm') = pd_special (pm_page pm)) as Hrest.
  { intros pm1 e1 Hl1 Hu1 Hs1.
    destruct (IH pm1 (l1 ++ [normal_item (into_item e1)])) as (pm' & Hrun & Hl' & Hu' & Hs').
    { by rewrite Hl1, <- app_assoc. } { done. }
    rewrite zlen_app in Hrun. change (zlen [normal_item (into_item e1)]) with 1 in Hrun.
    exists pm'. split; [done|]. split; [by rewrite Hl', <- app_assoc|]. split; [done|congruence]. }
  cbn [dead_offsets]. rewrite fmap_cons. unfold frozen_in_place at 1.
  change (recyclable e GetActiveSnapshot) with (dead e). destruct (dead e).
  - destruct (Hrest pm e Hl Hu eq_refl) as (pm' & Hrun & Hp). exists pm'. by rewrite Hrun.
  - unfold freeze. destruct (xmin_needs_freeze e limit || xmax_needs_freeze e limit);
      [|by apply Hrest].
    set (e1 := mvcc_into_frozen e _ _). unfold replace_item.
    pose proof (zlen_nonneg l1).
    rewrite (proj2 (Z.eqb_neq (zlen l1 + 1) InvalidOffsetNumber)) by (unfold InvalidOffsetNumber; lia).
    destruct (PageIndexTupleOverwrite (pm_page pm) (zlen l1 + 1) (into_item e1)) as [p' b] eqn:E.
    assert (Z.to_nat (zlen l1 + 1 - 1) = length l1) as Hn by (unfold zlen; lia).
    assert (b = true) as ->.
    { change b with (p', b).2. rewrite <- E. eapply PageOverwrite_same; [lia| |].
      - rewrite Hn, Hl. apply list_lookup_middle. done.
      - apply frozen_same_size. }
    cbn [mbind outcome_bind fst snd].
    pose proof (PageOverwrite_ok _ _ _ _ E) as [Hs Hl1].
    { rewrite Hl, zlen_app, zlen_as_items, zlen_cons. lia. }
    apply Hrest; simpl; [|split|done].
    + rewrite Hl1, Hn, Hl. rewrite insert_app_r_alt by lia. by rewrite Nat.sub_diag.
    + pose proof (PageOverwrite_upper (pm_page pm) (zlen l1 + 1) (into_item e1)) as Hup.
      rewrite E in Hup. apply Hup, Hu.
    + rewrite Hs. apply Hu.
Qed.

Lemma dead_offsets_gt k es o : o ∈ dead_offsets k es → k + 1 ≤ o ≤ k + zlen es.
Proof.
  revert k. induction es as [|e es IH]; intros k Ho; [by apply not_elem_of_nil in Ho|].
  rewrite zlen_cons. pose proof (zlen_nonneg es). cbn [dead_offsets] in Ho.
  destruct (dead e); [apply elem_of_cons in Ho as [->|Ho]; [lia|]|]; apply IH in Ho; lia.
Qed.

Fixpoint number {A} (k : nat) (l : list A) : list (nat * A) :=
  match l with [] => [] | x :: l => (k, x) :: number (S k) l end.
Lemma imap_number {A} (l : list A) : imap pair l = number 0 l.
Proof.
  assert (∀ k, imap (λ i x, ((k + i)%nat, x)) l = number k l) as Hk; [|apply (Hk 0%nat)].
  induction l as [|x l IH]; intros k; [done|]. cbn [imap number]. rewrite Nat.add_0_r. f_equal.
  rewrite <- IH. apply imap_ext. intros. simpl. f_equal. lia.
Qed.
Lemma number_ge {A} k (l : list A) io : io ∈ number k l → (k ≤ io.1)%nat.
Proof.
  revert k. induction l as [|x l IH]; intros k; [by intros ?%not_elem_of_nil|].
  intros [->|Hin]%elem_of_cons; [done|]. apply IH in Hin. lia.
Qed.
Lemma remove_dead_aux limit (k : nat) es :
  snd <$> filter (λ io : nat * ItemId, (Z.of_nat io.1 + 1) ∉ dead_offsets (Z.of_nat k) es)
    (number k (as_items (frozen_in_place limit <$> es))) =
  as_items (collected limit es).
Proof.
  revert k. induction es as [|e es IH]; intros k; [done|].
  specialize (IH (S k)). rewrite Nat2Z.inj_succ in IH.
  replace (Z.succ (Z.of_nat k)) with (Z.of_nat k + 1) in IH by lia.
  cbn [fmap list_fmap as_items number]. rewrite filter_cons. cbn [fst].
  unfold collected. rewrite filter_cons. cbn [dead_offsets]. unfold frozen_in_place at 1.
  destruct (dead e) eqn:Hd.
  - rewrite decide_False by set_solver. rewrite decide_False by done.
    etrans; [|apply IH]. f_equal. apply filter_ext_in. intros io Hio%number_ge.
    rewrite not_elem_of_cons. split; [tauto|]. split; [lia|done].
  - rewrite decide_True by (intros Ho%dead_offsets_gt; lia). rewrite decide_True by done.
    rewrite !fmap_cons. unfold as_items. rewrite fmap_cons. cbn [snd]. f_equal. apply IH.
Qed.

Lemma remove_dead limit es :
  remove_offsets (dead_offsets 0 es) (as_items (frozen_in_place limit <$> es)) =
  as_items (collected limit es).
Proof. unfold remove_offsets. rewrite imap_number. apply (remove_dead_aux limit 0). Qed.

Lemma no_dead_offsets limit k es :
  dead_offsets k es = [] → frozen_in_place limit <$> es = collected limit es.
Proof.
  revert k. induction es as [|e es IH]; intros k; [done|]. cbn [dead_offsets].
  unfold collected. rewrite filter_cons, fmap_cons. unfold frozen_in_place at 1.
  destruct (dead e) eqn:Hd; [done|]. intros Hn. rewrite decide_True by done.
  rewrite fmap_cons. f_equal. by eapply IH.
Qed.

(** one page is collected *)
Lemma gc_page_spec limit p es :
  holds p es →
  ∃ pm, gc_page (T:=T) limit {| pm_page := p; pm_dirty := false |} =
      Ok (zlen (collected limit es), page_next_blockno p, pm) ∧
    holds (pm_page pm) (collected limit es) ∧ pd_special (pm_page pm) = pd_special p.
Proof.
  intros [Hu Hl].
  destruct (gc_scan_spec limit {| pm_page := p; pm_dirty := false |} [] es Hl Hu)
    as (pm & Hrun & Hl' & Hu' & Hs). simpl in *.
  unfold gc_page, FirstOffsetNumber, max_offset_number. simpl. rewrite Hl, zlen_as_items.
  change (zlen (@nil ItemId)) with 0 in Hrun. rewrite Z.add_0_l in Hrun. rewrite Hrun.
  cbn [mbind outcome_bind]. change (zlen (@nil ItemId)) with 0.
  set (offs := dead_offsets 0 es) in *.
  set (pm1 := match offs with [] => pm | _ => delete_items pm offs end).
  assert (pd_linp (pm_page pm1) = as_items (collected limit es) ∧
    pd_special (pm_page pm1) = pd_special (pm_page pm) ∧ pd_upper (pm_page pm1) ≠ 0) as (Hl1 & Hs1 & Hup1).
  { unfold pm1. destruct offs as [|o offs'] eqn:E.
    - split; [|split; [done|apply Hu']]. rewrite Hl'. f_equal. by eapply no_dead_offsets.
    - assert (Forall (λ o, 1 ≤ o ≤ zlen (pd_linp (pm_page pm))) (dead_offsets 0 es)) as Hall.
      { apply Forall_forall. intros x Hx%dead_offsets_gt. rewrite Hl', zlen_as_items.
        unfold zlen in *. rewrite length_fmap. lia. }
      destruct (PageMultiDelete_spec _ _ Hall) as [Hs1 Hl1]. unfold delete_items. simpl.
      assert (dead_offsets 0 es = o :: offs') as E' by exact E. rewrite <- E'.
      rewrite Hl1, Hs1, Hl', remove_dead.
      split; [done|]. split; [done|]. apply PageMultiDelete_upper, Hu'. }
  exists pm1. split; [|split; [|congruence]].
  - rewrite Hl1, zlen_as_items. unfold page_next_blockno. by rewrite Hs1, Hs.
  - split; [|done]. split; [done|]. rewrite Hs1, Hs. apply Hu.
Qed.
End page_lemmas.

(** ** The list *)

Section list_lemmas.
Context `{PgPage, PgXact, PgBuffers} {T} `{PgItem T} `{MVCCEntry T} `{!FrozenSameSize T}.
Implicit Types (r : Rel) (p : Page) (es : list T) (blks : list Z) (its : list (list T)).

(** the pages [blks] are linked in order and hold the entries [its] *)
Fixpoint ichain r blks its : Prop :=
  match blks, its with
  | [], [] => True
  | b :: bs, es :: ess =>
      (∃ p, rel_pages r !! b = Some p ∧ holds p es ∧ page_next_blockno p = next_of bs) ∧
      ichain r bs ess
  | _, _ => False
  end.

(** a list at [header] *)
Record items_at r header blks its : Prop := {
  ia_chain : ichain r blks its;
  ia_nodup : NoDup (header :: blks);
  ia_header : ∃ md, header_at r header md ∧ head blks = Some (start_blockno md) ∧
                start_blockno md ≠ 0;
  ia_wf : rel_wf r
}.

Lemma ichain_frame r r' blks its :
  (∀ b, b ∈ blks → rel_pages r' !! b = rel_pages r !! b) → ichain r blks its → ichain r' blks its.
Proof.
  revert its. induction blks as [|b bs IH]; intros [|d ds] Hsame Hc; try done.
  destruct Hc as [(p & Hp & ?) Hc]. split.
  - exists p. rewrite Hsame; [done|left].
  - apply IH; [|done]. intros. apply Hsame. by right.
Qed.

Lemma ichain_in_use r blks its b : ichain r blks its → b ∈ blks → in_use r b.
Proof.
  revert its. induction blks as [|b' bs IH]; intros [|d ds] Hc Hb; try done;
    try (by apply not_elem_of_nil in Hb).
  destruct Hc as [(p & Hp & [Hu _] & _) Hc]. apply elem_of_cons in Hb as [->|Hb]; [by exists p|].
  eauto.
Qed.

Lemma ichain_dom r blks its b :
  rel_wf r → ichain r blks its → b ∈ blks → 0 ≤ b < rel_nblocks r ∧ b ≠ InvalidBlockNumber.
Proof.
  intros (Hn & Hdom & _) Hc Hb. destruct (ichain_in_use _ _ _ _ Hc Hb) as (p & Hp & _).
  assert (0 ≤ b < rel_nblocks r) by (apply Hdom; by eexists). lia.
Qed.

Lemma ichain_bound r blks its :
  rel_wf r → ichain r blks its → NoDup blks → (length blks ≤ Z.to_nat (rel_nblocks r))%nat.
Proof.
  intros Hwf Hc Hnd.
  assert (blks ⊆+ seqZ 0 (rel_nblocks r)) as Hsub.
  { apply NoDup_submseteq; [done|]. intros b Hb. apply elem_of_seqZ.
    destruct (ichain_dom _ _ _ _ Hwf Hc Hb). lia. }
  apply submseteq_length in Hsub. by rewrite length_seqZ in Hsub.
Qed.

Lemma items_start_run r header blks its :
  items_at r header blks its →
  ∃ b bs, blks = b :: bs ∧ items_start_blockno header r = Ok (b, r).
Proof.
  intros [Hc Hnd (md & (hp & Hhp & _ & _ & Hmd & _) & Hs & Hst0) Hwf].
  destruct blks as [|b bs]; [done|]. injection Hs as ->.
  destruct (ichain_dom _ _ _ (start_blockno md) Hwf Hc) as [_ Hi]; [left|].
  exists (start_blockno md), bs. split; [done|].
  unfold items_start_blockno, get_linked_list_data.
  rewrite (bind_ok _ _ r r md); [by unfold lift, get_start_blockno; rewrite valid_block_ok|].
  rewrite (bind_ok _ _ _ _ _ (get_page_run _ _ _ Hhp)). by rewrite Hmd.
Qed.

(** *** Reading *)

Lemma read_page_items_spec p l1 es :
  pd_linp p = l1 ++ as_items es →
  read_page_items p (seqZ (zlen l1 + 1) (zlen es)) = Ok es.
Proof.
  revert l1. induction es as [|e es IH]; intros l1 Hl; [done|].
  rewrite zlen_cons. pose proof (zlen_nonneg es). rewrite seqZ_cons by lia.
  replace (Z.pred (1 + zlen es)) with (zlen es) by lia.
  cbn [read_page_items]. rewrite (read_item_at p l1 (as_items es) e) by done. cbn [mbind outcome_bind].
  specialize (IH (l1 ++ [normal_item (into_item e)])).
  rewrite zlen_app in IH. change (zlen [normal_item (into_item e)]) with 1 in IH.
  replace (Z.succ (zlen l1 + 1)) with (zlen l1 + 1 + 1) by lia.
  rewrite IH; [done|]. by rewrite Hl, <- app_assoc.
Qed.

Lemma list_entries_loop_spec fuel r blks its :
  rel_wf r → ichain r blks its → (length blks ≤ fuel)%nat →
  list_entries_loop fuel (next_of blks) r = Ok (concat its, r).
Proof.
  intros Hwf. revert blks its. induction fuel as [|fuel IH]; intros [|b bs] [|es its] Hc Hlen;
    try done; simpl in Hlen; try lia.
  destruct (ichain_dom _ _ _ b Hwf Hc ltac:(left)) as [_ Hb].
  destruct Hc as [(p & Hp & [Hu Hl] & Hnext) Hc]. cbn [list_entries_loop next_of head default].
  rewrite (proj2 (Z.eqb_neq b _)) by done.
  rewrite (bind_ok _ _ _ _ _ (get_page_run _ _ _ Hp)).
  rewrite (bind_ok (lift _) _ r r es).
  2: { unfold lift, FirstOffsetNumber, max_offset_number. rewrite Hl, zlen_as_items.
       pose proof (read_page_items_spec p [] es Hl) as Hr.
       change (zlen (@nil ItemId)) with 0 in Hr. rewrite Z.add_0_l in Hr. by rewrite Hr. }
  rewrite Hnext. by rewrite (bind_ok _ _ _ _ _ (IH bs its Hc ltac:(lia))).
Qed.

Lemma list_entries_spec r header blks its :
  items_at r header blks its → list_entries header r = Ok (concat its, r).
Proof.
  intros Hi. destruct (items_start_run _ _ _ _ Hi) as (b & bs & -> & Hrun).
  destruct Hi as [Hc Hnd _ Hwf]. apply NoDup_cons in Hnd as [_ Hnd].
  unfold list_entries. rewrite (bind_ok _ _ _ _ _ Hrun).
  rewrite (bind_ok (gets _) _ r r (rel_nblocks r)) by done.
  apply (list_entries_loop_spec _ r (b :: bs) its Hwf Hc). by eapply ichain_bound.
Qed.

(** the entry [lookup_ex] returns: the first [cmp] accepts *)
Fixpoint first_match (cmp : T → bool) es : option T :=
  match es with [] => None | e :: es => if cmp e then Some e else first_match cmp es end.

Lemma first_match_app cmp es1 es2 :
  first_match cmp (es1 ++ es2) =
  match first_match cmp es1 with Some e => Some e | None => first_match cmp es2 end.
Proof. induction es1 as [|e es1 IH]; simpl; [done|]. by destruct (cmp e). Qed.

Lemma lookup_page_spec p cmp l1 es :
  pd_linp p = l1 ++ as_items es →
  ∃ o, lookup_page p cmp (seqZ (zlen l1 + 1) (zlen es)) = Ok o ∧
    fst <$> o = first_match cmp es ∧
    (∀ e off, o = Some (e, off) → read_item p off = Ok (Some (e, zlen (into_item e)))).
Proof.
  revert l1. induction es as [|e es IH]; intros l1 Hl; [by exists None|].
  rewrite zlen_cons. pose proof (zlen_nonneg es). rewrite seqZ_cons by lia.
  replace (Z.pred (1 + zlen es)) with (zlen es) by lia.
  replace (Z.succ (zlen l1 + 1)) with (zlen l1 + 1 + 1) by lia.
  cbn [lookup_page first_match].
  pose proof (read_item_at p l1 (as_items es) e (zlen l1 + 1) Hl eq_refl) as Hread.
  rewrite Hread. cbn [mbind outcome_bind]. destruct (cmp e).
  - eexists. split; [done|]. split; [done|]. by intros e' off [= <- <-].
  - destruct (IH (l1 ++ [normal_item (into_item e)])) as (o & Hrun & Ho).
    { by rewrite Hl, <- app_assoc. }
    rewrite zlen_app in Hrun. change (zlen [normal_item (into_item e)]) with 1 in Hrun.
    by exists o.
Qed.

Lemma lookup_loop_spec fuel r blks its cmp :
  rel_wf r → ichain r blks its → (length blks ≤ fuel)%nat →
  match first_match cmp (concat its) with
  | Some e => ∃ b off p, lookup_loop fuel cmp (next_of blks) r = Ok ((e, b, off), r) ∧
      b ∈ blks ∧ rel_pages r !! b = Some p ∧
      read_item p off = Ok (Some (e, zlen (into_item e)))
  | None => lookup_loop fuel cmp (next_of blks) r = Err "failed to find the desired entry"
  end.
Proof.
  intros Hwf. revert blks its. induction fuel as [|fuel IH]; intros [|b bs] [|es its] Hc Hlen;
    try done; simpl in Hlen; try lia.
  destruct (ichain_dom _ _ _ b Hwf Hc ltac:(left)) as [_ Hb].
  destruct Hc as [(p & Hp & [Hu Hl] & Hnext) Hc]. cbn [lookup_loop next_of head default].
  rewrite (proj2 (Z.eqb_neq b _)) by done. cbn [concat]. rewrite first_match_app.
  rewrite (bind_ok _ _ _ _ _ (get_page_run _ _ _ Hp)).
  destruct (lookup_page_spec p cmp [] es Hl) as (o & Hrun & Ho & Hread).
  rewrite (bind_ok (lift _) _ r r o).
  2: { unfold lift, FirstOffsetNumber, max_offset_number. rewrite Hl, zlen_as_items.
       change (zlen (@nil ItemId)) with 0 in Hrun. rewrite Z.add_0_l in Hrun. by rewrite Hrun. }
  rewrite <- Ho. destruct o as [[e off]|]; simpl.
  - exists b, off, p. split; [done|]. split; [left|]. split; [done|by apply Hread].
  - rewrite Hnext. specialize (IH bs its Hc ltac:(lia)).
    destruct (first_match cmp (concat its)); [|done].
    destruct IH as (b' & off & p' & ? & ? & ? & ?). exists b', off, p'. split; [done|].
    split; [by right|done].
Qed.
End list_lemmas.

(** ** Garbage collection of the list *)

Section gc_lemmas.
Context `{PgPage, PgXact, PgBuffers} {T} `{PgItem T} `{MVCCEntry T} `{!FrozenSameSize T}.
Implicit Types (r : Rel) (p : Page) (es : list T) (blks : list Z) (its : list (list T)).

(** [p] with its link replaced *)
Definition relink (b : Z) p : Page := set_special (with_next b) p.

Lemma relink_same p : relink (page_next_blockno p) p = p.
Proof. destruct p as [? ? ? ? []]. done. Qed.
Lemma relink_relink b b' p : relink b (relink b' p) = relink b p.
Proof. by destruct p as [? ? ? ? []]. Qed.

(** a page unlinked by the collection: emptied and marked deleted *)
Definition unlinked r b : Prop :=
  ∃ p, rel_pages r !! b = Some p ∧ pd_linp p = [] ∧
    xmax (pd_special p) = ReadNextFullTransactionId mod 2 ^ 32.

(** what the loop of [garbage_collect] leaves of the pages [rest], when [lf] is the
    last page kept before them *)
Definition gc_result limit r r' lf plf rest its : Prop :=
  ∃ kept kits, rel_wf r' ∧ rel_nblocks r' = rel_nblocks r ∧ ichain r' kept kits ∧
    sublist kept rest ∧ concat kits = collected limit (concat its) ∧
    rel_pages r' !! lf = Some (relink (next_of kept) plf) ∧
    (∀ b, b ∉ lf :: rest → rel_pages r' !! b = rel_pages r !! b) ∧
    (∀ b, b ∈ rest → b ∉ kept → unlinked r' b).

Lemma write_run {A} r b p (f : PageMut → outcome (A * PageMut)) a pm :
  rel_wf r → rel_pages r !! b = Some p → f {| pm_page := p; pm_dirty := false |} = Ok (a, pm) →
  ∃ r', with_page_mut b f r = Ok (a, r') ∧ rel_wf r' ∧ rel_nblocks r' = rel_nblocks r ∧
    rel_pages r' = <[b := pm_page pm]> (rel_pages r).
Proof.
  intros Hwf Hp Hf. exists (written r b pm). split; [by eapply with_page_mut_run|].
  split; [apply written_wf; [by eexists|done]|done].
Qed.
Lemma update_run r b p f pm :
  rel_wf r → rel_pages r !! b = Some p → f {| pm_page := p; pm_dirty := false |} = Ok pm →
  ∃ r', update_buffer b f r = Ok (tt, r') ∧ rel_wf r' ∧ rel_nblocks r' = rel_nblocks r ∧
    rel_pages r' = <[b := pm_page pm]> (rel_pages r).
Proof.
  intros Hwf Hp Hf. exists (written r b pm). split; [by eapply update_buffer_run|].
  split; [apply written_wf; [by eexists|done]|done].
Qed.

Lemma zlen_nil_eqb {A} (l : list A) : (zlen l =? InvalidOffsetNumber) = true ↔ l = [].
Proof.
  unfold InvalidOffsetNumber. rewrite Z.eqb_eq. split; [apply zlen_zero|by intros ->].
Qed.

(** an emptied page is unlinked; the end of the list moves back to [lf] *)
Lemma gc_drop_page r c pc lf plf rest :
  rel_wf r → rel_pages r !! c = Some pc → rel_pages r !! lf = Some plf → lf ≠ c →
  pd_linp pc = [] →
  ∃ r', (_ ← update_buffer c (λ pm, Ok (mark_deleted ReadNextFullTransactionId pm));
         (if next_of rest =? InvalidBlockNumber then
            update_buffer lf (λ pm, Ok (set_next_blockno InvalidBlockNumber pm))
          else mret tt)) r = Ok (tt, r') ∧
    rel_wf r' ∧ rel_nblocks r' = rel_nblocks r ∧ unlinked r' c ∧
    rel_pages r' !! lf = Some (if next_of rest =? InvalidBlockNumber
                               then relink InvalidBlockNumber plf else plf) ∧
    (∀ b, b ≠ c → b ≠ lf → rel_pages r' !! b = rel_pages r !! b).
Proof.
  intros Hwf Hc Hlf Hne Hemp.
  destruct (update_run r c pc (λ pm, Ok (mark_deleted ReadNextFullTransactionId pm)) _ Hwf Hc eq_refl)
    as (r1 & Hrun1 & Hwf1 & Hn1 & Hp1).
  assert (rel_pages r1 !! lf = Some plf) as Hlf1 by (rewrite Hp1, lookup_insert_ne by done; done).
  rewrite (bind_ok _ _ _ _ _ Hrun1). destruct (next_of rest =? InvalidBlockNumber).
  - destruct (update_run r1 lf plf (λ pm, Ok (set_next_blockno InvalidBlockNumber pm)) _ Hwf1 Hlf1 eq_refl)
      as (r2 & Hrun2 & Hwf2 & Hn2 & Hp2).
    exists r2. split; [done|]. split; [done|]. split; [congruence|]. rewrite Hp2, Hp1.
    split; [|split].
    + eexists. rewrite Hp2, Hp1, lookup_insert_ne, lookup_insert_eq by done. done.
    + by rewrite lookup_insert_eq.
    + intros. by rewrite !lookup_insert_ne by done.
  - exists r1. split; [done|]. split; [done|]. split; [done|]. split; [|split; [done|]].
    + eexists. rewrite Hp1, lookup_insert_eq. done.
    + intros. by rewrite Hp1, lookup_insert_ne by done.
Qed.

(** a page with entries left becomes the one [lf] points to *)
Lemma gc_keep_page r c lf plf :
  rel_wf r → rel_pages r !! lf = Some plf →
  ∃ r', update_buffer lf (λ pm, Ok
      (if negb (page_next_blockno (pm_page pm) =? c) then set_next_blockno c pm else pm)) r =
      Ok (tt, r') ∧ rel_wf r' ∧ rel_nblocks r' = rel_nblocks r ∧
    rel_pages r' = <[lf := relink c plf]> (rel_pages r).
Proof.
  intros Hwf Hlf.
  destruct (update_run r lf plf (λ pm, Ok (if negb (page_next_blockno (pm_page pm) =? c)
    then set_next_blockno c pm else pm)) _ Hwf Hlf eq_refl) as (r' & Hrun & Hwf' & Hn & Hp).
  exists r'. split; [exact Hrun|]. split; [done|]. split; [done|]. rewrite Hp. f_equal. simpl.
  destruct (Z.eqb_spec (page_next_blockno plf) c) as [<-|]; simpl; [|done].
  symmetry. apply relink_same.
Qed.

Lemma gc_loop_nil fuel limit start lf plf r :
  rel_wf r → rel_pages r !! lf = Some plf → page_next_blockno plf = InvalidBlockNumber →
  gc_loop (T:=T) fuel limit start InvalidBlockNumber lf r = Ok (tt, r) ∧
  gc_result limit r r lf plf [] [].
Proof.
  intros Hwf Hlf Hnext. split; [by destruct fuel|]. exists [], []. split_and!; try done.
  - change (next_of []) with InvalidBlockNumber. by rewrite Hlf, <- Hnext, relink_same.
Qed.

Lemma unlinked_same r r' b :
  rel_pages r' !! b = rel_pages r !! b → unlinked r b → unlinked r' b.
Proof. intros Hs (p & Hp & ?). exists p. by rewrite Hs. Qed.

Lemma gc_result_drop limit r r2 r' c lf plf plf2 rest es its :
  gc_result limit r2 r' lf plf2 rest its → rel_nblocks r2 = rel_nblocks r →
  unlinked r2 c → c ∉ rest → lf ≠ c →
  (∀ x, relink x plf2 = relink x plf) → collected limit es = [] →
  (∀ b, b ≠ c → b ≠ lf → rel_pages r2 !! b = rel_pages r !! b) →
  gc_result limit r r' lf plf (c :: rest) (es :: its).
Proof.
  intros (kept & kits & Hwf & Hn & Hch & Hsub & Hcat & Hlf & Hsame & Hun) Hn2 Hc Hcr Hne Hplf Hemp Hs2.
  exists kept, kits. split_and!; try done.
  - congruence.
  - by constructor.
  - simpl. by rewrite collected_app, Hemp.
  - by rewrite Hlf, Hplf.
  - intros b Hb. rewrite Hsame, Hs2; [done|set_solver..].
  - intros b [->|Hb]%elem_of_cons Hk; [|by apply Hun].
    eapply unlinked_same; [|done]. apply Hsame. set_solver.
Qed.

Lemma gc_result_keep limit r r2 r' c pc lf plf rest es its :
  gc_result limit r2 r' c pc rest its → rel_nblocks r2 = rel_nblocks r →
  c ∉ rest → lf ≠ c → lf ∉ rest → holds pc (collected limit es) →
  rel_pages r2 !! lf = Some (relink c plf) →
  (∀ b, b ≠ c → b ≠ lf → rel_pages r2 !! b = rel_pages r !! b) →
  gc_result limit r r' lf plf (c :: rest) (es :: its).
Proof.
  intros (kept & kits & Hwf & Hn & Hch & Hsub & Hcat & Hc & Hsame & Hun) Hn2 Hcr Hne Hlfr Hh Hlf Hs2.
  exists (c :: kept), (collected limit es :: kits).
  split; [done|]. split; [congruence|]. split; [|split; [by constructor|]].
  { split; [|done]. exists (relink (next_of kept) pc). split; [done|]. split; [|done].
    destruct Hh as [[? ?] ?]. by repeat split. }
  split; [simpl; by rewrite collected_app, Hcat|]. split; [|split].
  - rewrite Hsame, Hlf; [done|set_solver].
  - intros b Hb. rewrite Hsame, Hs2; [done|set_solver..].
  - intros b [->|Hb]%elem_of_cons Hk; [set_solver|]. apply Hun; set_solver.
Qed.

Lemma gc_loop_spec fuel limit start r lf plf rest its :
  rel_wf r → ichain r rest its → NoDup (lf :: rest) → start ∉ rest →
  rel_pages r !! lf = Some plf →
  (rest = [] → page_next_blockno plf = InvalidBlockNumber) →
  (length rest ≤ fuel)%nat →
  ∃ r', gc_loop (T:=T) fuel limit start (next_of rest) lf r = Ok (tt, r') ∧
    gc_result limit r r' lf plf rest its.
Proof.
  revert r lf plf rest its. induction fuel as [|fuel IH];
    intros r lf plf [|c rest] [|es its] Hwf Hch Hnd Hstart Hlf Hend Hlen; try done;
    try (simpl in Hlen; lia);
    try (exists r; apply gc_loop_nil; [done|done|by apply Hend]).
  destruct (ichain_dom _ _ _ c Hwf Hch ltac:(left)) as [_ Hci].
  destruct Hch as [(pc & Hpc & Hh & Hnext) Hch].
  apply NoDup_cons in Hnd as [Hlfc Hnd]. apply NoDup_cons in Hnd as [Hcr Hnd].
  assert (lf ≠ c ∧ lf ∉ rest) as [Hne Hlfr] by set_solver.
  assert (c ≠ start ∧ start ∉ rest) as [Hcs Hsr] by set_solver.
  change (next_of (c :: rest)) with c. cbn [gc_loop]. rewrite (proj2 (Z.eqb_neq c _)) by done.
  destruct (gc_page_spec limit pc es Hh) as (pm & Hgc & Hh' & Hs).
  destruct (write_run r c pc _ _ pm Hwf Hpc Hgc) as (r1 & Hrun1 & Hwf1 & Hn1 & Hp1).
  rewrite (bind_ok _ _ _ _ _ Hrun1). cbn [fst snd]. rewrite Hnext.
  rewrite (proj2 (Z.eqb_neq c start)) by done. cbn [negb]. rewrite !andb_true_r.
  assert (rel_pages r1 !! c = Some (pm_page pm)) as Hpc1 by (rewrite Hp1; apply lookup_insert_eq).
  assert (rel_pages r1 !! lf = Some plf) as Hlf1 by (rewrite Hp1, lookup_insert_ne by done; done).
  destruct (zlen (collected limit es) =? InvalidOffsetNumber) eqn:Hemp; cbn [negb].
  - apply zlen_nil_eqb in Hemp. destruct Hh' as [_ Hl']. rewrite Hemp in Hl'.
    destruct (gc_drop_page r1 c (pm_page pm) lf plf rest Hwf1 Hpc1 Hlf1 Hne Hl')
      as (r2 & Hrun2 & Hwf2 & Hn2 & Hdel & Hlf2 & Hsame2).
    set (plf2 := if next_of rest =? InvalidBlockNumber then relink InvalidBlockNumber plf else plf) in *.
    destruct (IH r2 lf plf2 rest its Hwf2) as (r' & Hrun & Hres);
      [|by constructor|done|exact Hlf2| |simpl in Hlen; lia|].
    { eapply ichain_frame; [|exact Hch]. intros b Hb.
      rewrite Hsame2, Hp1, lookup_insert_ne by set_solver. done. }
    { intros ->. done. }
    exists r'. split.
    + etrans; [|exact Hrun]. rewrite <- (bind_assoc _ _ _). by rewrite (bind_ok _ _ _ _ _ Hrun2).
    + eapply gc_result_drop; [exact Hres|congruence|done|done|done| |done|].
      * intros x. unfold plf2. destruct (next_of rest =? InvalidBlockNumber); [by rewrite relink_relink|done].
      * intros b Hb Hb'. rewrite Hsame2, Hp1, lookup_insert_ne by done. done.
  - destruct (gc_keep_page r1 c lf plf Hwf1 Hlf1) as (r2 & Hrun2 & Hwf2 & Hn2 & Hp2).
    rewrite (bind_ok _ _ _ _ _ Hrun2).
    assert (∀ b, b ≠ c → b ≠ lf → rel_pages r2 !! b = rel_pages r !! b) as Hsame.
    { intros b Hb Hb'. rewrite Hp2, Hp1, !lookup_insert_ne by done. done. }
    destruct (IH r2 c (pm_page pm) rest its Hwf2) as (r' & Hrun & Hres);
      [|by constructor|done| | |simpl in Hlen; lia|].
    { eapply ichain_frame; [|exact Hch]. intros b Hb. apply Hsame; set_solver. }
    { by rewrite Hp2, lookup_insert_ne. }
    { intros ->. unfold page_next_blockno. by rewrite Hs. }
    exists r'. split; [done|].
    eapply gc_result_keep; [exact Hres|congruence|done|done|done|done| |done].
    by rewrite Hp2, lookup_insert_eq.
Qed.

Lemma garbage_collect_spec r header blks its limit :
  items_at r header blks its → vacuum_get_freeze_limit = Ok limit →
  ∃ r' kept kits, garbage_collect (T:=T) header r = Ok (tt, r') ∧
    items_at r' header kept kits ∧ sublist kept blks ∧
    concat kits = collected limit (concat its) ∧
    (∀ b, b ∈ blks → b ∉ kept → unlinked r' b) ∧
    (∀ b, b ∉ blks → rel_pages r' !! b = rel_pages r !! b).
Proof.
  intros Hi Hlimit. destruct (items_start_run _ _ _ _ Hi) as (c & rest & -> & Hrun0).
  destruct Hi as [Hch Hnd (md & Hhd & Hs & Hs0) Hwf]. destruct its as [|es its]; [done|].
  apply NoDup_cons in Hnd as [Hhc Hnd]. pose proof (ichain_bound _ _ _ Hwf Hch Hnd) as Hb.
  destruct (ichain_dom _ _ _ c Hwf Hch ltac:(left)) as [_ Hci].
  destruct Hch as [(pc & Hpc & Hh & Hnext) Hch]. apply NoDup_cons in Hnd as [Hcr Hnd].
  destruct (gc_page_spec limit pc es Hh) as (pm & Hgc & Hh' & Hsp).
  destruct (write_run r c pc _ _ pm Hwf Hpc Hgc) as (r1 & Hrun1 & Hwf1 & Hn1 & Hp1).
  destruct (gc_loop_spec (pred (Z.to_nat (rel_nblocks r))) limit c r1 c (pm_page pm) rest its Hwf1)
    as (r' & Hrun & kept & kits & Hwf' & Hn & Hch' & Hsub & Hcat & Hc & Hsame & Hun).
  { eapply ichain_frame; [|exact Hch]. intros b Hb'. rewrite Hp1, lookup_insert_ne; [done|set_solver]. }
  { by constructor. }
  { done. }
  { rewrite Hp1. apply lookup_insert_eq. }
  { intros ->. unfold page_next_blockno. by rewrite Hsp. }
  { simpl in Hb. lia. }
  assert (∀ b, b ∉ c :: rest → rel_pages r' !! b = rel_pages r !! b) as Hout.
  { intros b Hb'. rewrite Hsame, Hp1, lookup_insert_ne; [done|set_solver..]. }
  exists r', (c :: kept), (collected limit es :: kits). split; [|split; [|split; [by constructor|]]].
  - unfold garbage_collect. rewrite (bind_ok (lift _) _ r r limit) by by unfold lift; rewrite Hlimit.
    rewrite (bind_ok _ _ _ _ _ Hrun0). rewrite (bind_ok (gets _) _ r r (rel_nblocks r)) by done.
    destruct (Z.to_nat (rel_nblocks r)) as [|fuel]; [simpl in Hb; lia|]. cbn [gc_loop].
    rewrite (proj2 (Z.eqb_neq c _)) by done. rewrite (bind_ok _ _ _ _ _ Hrun1). cbn [fst snd].
    rewrite Z.eqb_refl. cbn [negb]. rewrite !andb_false_r, Hnext. exact Hrun.
  - split.
    + split; [|done]. exists (relink (next_of kept) (pm_page pm)). split; [done|]. split; [|done].
      destruct Hh' as [[? ?] ?]. by repeat split.
    + apply NoDup_cons. split; [intros [->|Hin]%elem_of_cons; [apply Hhc; left|]|].
      * apply Hhc. right. by eapply sublist_submseteq, elem_of_submseteq in Hsub.
      * apply NoDup_cons. split; [intros Hin; apply Hcr; by eapply sublist_submseteq, elem_of_submseteq in Hsub|].
        by eapply sublist_NoDup.
    + exists md. split; [|done]. destruct Hhd as (hp & Hhp & ?). exists hp. rewrite Hout; [done|set_solver].
    + done.
  - split; [simpl; by rewrite collected_app, Hcat|]. split; [|done].
    intros b [->|Hb']%elem_of_cons Hk; [set_solver|]. apply Hun; set_solver.
Qed.
End gc_lemmas.

(** ** Adding to the list *)

Section add_lemmas.
Context `{PgPage, PgXact, PgBuffers} {T} `{PgItem T} `{MVCCEntry T}.
Implicit Types (r : Rel) (p : Page) (es : list T) (blks : list Z) (its : list (list T)).

(** an entry is refused by a page or goes to its end *)
Lemma append_item_spec p es e :
  holds p es →
  let '(o, pm) := append_item {| pm_page := p; pm_dirty := false |} (into_item e) in
  (o = InvalidOffsetNumber ∧ pm = {| pm_page := p; pm_dirty := false |}) ∨
  (o ≠ InvalidOffsetNumber ∧ holds (pm_page pm) (es ++ [e]) ∧
   pd_special (pm_page pm) = pd_special p).
Proof.
  intros [[Hup Hx] Hl]. unfold append_item. cbn [pm_page pm_dirty].
  destruct (PageAddItemExtended p (into_item e)) as [p' o] eqn:E. cbn [pm_page].
  destruct (decide (o = InvalidOffsetNumber)) as [->|Ho].
  - left. split; [done|]. apply PageAddItem_fail in E as ->. done.
  - right. split; [done|]. destruct (PageAddItem_ok _ _ _ _ E Ho) as [Hs Hcase]. split; [|done].
    split.
    + split; [|by rewrite Hs]. change p' with (p', o).1. rewrite <- E. by apply PageAddItem_upper.
    + rewrite as_items_app, <- Hl. destruct Hcase as [[_ ->]|(l1 & old & l2 & Heq & Hold & _)]; [done|].
      assert (old ∈ as_items es) as Hin by (rewrite <- Hl, Heq; set_solver).
      apply list_elem_of_fmap in Hin as (e' & -> & _). done.
Qed.

Lemma ichain_update r r' blks its k b es es' :
  ichain r blks its → NoDup blks → blks !! k = Some b → its !! k = Some es →
  (∀ p, rel_pages r !! b = Some p → ∃ p', rel_pages r' !! b = Some p' ∧ holds p' es' ∧
     page_next_blockno p' = page_next_blockno p) →
  (∀ b', b' ∈ blks → b' ≠ b → rel_pages r' !! b' = rel_pages r !! b') →
  ichain r' blks (<[k := es']> its).
Proof.
  revert blks its. induction k as [|k IH]; intros [|c blks] [|d its] Hch Hnd Hb Hes Hp Hsame; try done.
  - injection Hb as ->. injection Hes as ->. apply NoDup_cons in Hnd as [Hnb _].
    destruct Hch as [(p & Hpp & _ & Hnext) Hch]. destruct (Hp p Hpp) as (p' & ? & ? & Hn).
    split; [exists p'; by rewrite Hn|]. eapply ichain_frame; [|done].
    intros b' Hb'. apply Hsame; [by right|]. by intros ->.
  - apply NoDup_cons in Hnd as [Hnb Hnd]. destruct Hch as [(p & Hpp & ? & ?) Hch].
    assert (c ≠ b) by (intros ->; apply Hnb; by eapply list_elem_of_lookup_2).
    split; [exists p; rewrite Hsame; [done|left|done]|].
    apply IH; try done. intros b' Hb'. apply Hsame. by right.
Qed.

Lemma ichain_lookup r blks its k b :
  ichain r blks its → blks !! k = Some b →
  ∃ p es, its !! k = Some es ∧ rel_pages r !! b = Some p ∧ holds p es ∧
    page_next_blockno p = next_of (drop (S k) blks).
Proof.
  revert blks its. induction k as [|k IH]; intros [|c blks] [|d its] Hch Hb; try done.
  - injection Hb as ->. destruct Hch as [(p & ? & ? & ?) _]. by exists p, d.
  - destruct Hch as [_ Hch]. by apply (IH blks its).
Qed.

(** linking a fresh page to the last one *)
Lemma ichain_extend r r' bs x y q its :
  ichain r (bs ++ [x]) its → NoDup (bs ++ [x]) →
  (∀ b, b ∈ bs → rel_pages r' !! b = rel_pages r !! b) →
  (∀ p, rel_pages r !! x = Some p → rel_pages r' !! x = Some (relink y p)) →
  rel_pages r' !! y = Some q → fresh_page q →
  ichain r' ((bs ++ [x]) ++ [y]) (its ++ [[]]).
Proof.
  revert its. induction bs as [|b bs IH]; intros [|d its] Hch Hnd Hsame Hx Hq Hfq; try done.
  - destruct its; [|by destruct Hch as [_ ?]]. destruct Hch as [(p & Hp & [[? ?] ?] & _) _].
    destruct Hfq as (Hok & Hu & _ & Hn & Hl & _).
    split; [exists (relink y p); split; [by apply Hx|]; by repeat split|].
    split; [|done]. exists q. split; [done|]. split; [|done]. done.
  - simpl in Hnd. apply NoDup_cons in Hnd as [_ Hnd]. destruct Hch as [(p & Hp & Hh & Hn) Hch].
    split.
    + exists p. rewrite Hsame by left. split; [done|]. split; [done|]. rewrite Hn. by destruct bs.
    + apply IH; try done. intros b' Hb'. apply Hsame. by right.
Qed.

(** the statements of ['append_loop] that add a page *)
Lemma items_extend_run r header bs x its md :
  items_at r header (bs ++ [x]) its → rel_nblocks r < InvalidBlockNumber →
  header_at r header md → npages md < u32_max →
  ∃ y q r', (∀ A (k : Z → M Rel A),
      (new_blockno ← new_buffer;
       _ ← update_buffer new_blockno (λ pm, Ok (init_page pm));
       _ ← update_buffer x (λ pm, Ok (set_next_blockno new_blockno pm));
       _ ← with_page_mut header (header_add_page new_blockno);
       k new_blockno) r = k y r') ∧
    items_at r' header ((bs ++ [x]) ++ [y]) (its ++ [[]]) ∧ grows 1 (header :: bs ++ [x]) r r' ∧
    header_at r' header (added md y) ∧ rel_pages r' !! y = Some q ∧ fresh_page q ∧ ¬ in_use r y.
Proof.
  intros [Hch Hnd (md0 & Hhd0 & Hs & Hs0) Hwf] Hn Hhd Hnp.
  pose proof Hhd as (hp & Hhp & _ & Hhu & Hmd & _).
  assert (md0 = md) as -> by (destruct Hhd0 as (hp' & ? & _ & _ & ? & _); congruence).
  pose proof Hnd as Hnd0. apply NoDup_cons in Hnd as [Hhb Hnd].
  destruct (new_buffer_spec r Hwf Hn) as (y & r1 & Hrun1 & Ha & _).
  pose proof (allocated_grows _ _ _ Ha) as Hg1. destruct Ha as (Hwf1 & Hsome & Hnot & Hsame1 & _).
  destruct (init_buffer_run r1 y Hwf1 Hsome) as (r2 & q & Hrun2 & Hq & Hfq & Hg2 & Hsame2).
  assert (y ∉ header :: bs ++ [x]) as Hy.
  { intros [->|Hin]%elem_of_cons; apply Hnot; [by exists hp|by eapply ichain_in_use]. }
  destruct (ichain_lookup r _ its (length bs) x Hch (list_lookup_middle _ _ _ _ eq_refl))
    as (px & esx & _ & Hpx & _).
  assert (∀ b, b ≠ y → rel_pages r2 !! b = rel_pages r !! b) as Hs2.
  { intros b Hb. by rewrite Hsame2, Hsame1. }
  assert (rel_pages r2 !! x = Some px) as Hpx2 by (rewrite Hs2 by set_solver; done).
  pose proof (grows_wf _ _ _ _ Hg2) as Hwf2.
  pose proof (update_buffer_run r2 x px (λ pm, Ok (set_next_blockno y pm)) _ Hpx2 eq_refl) as Hrun3.
  set (pmx := set_next_blockno y {| pm_page := px; pm_dirty := false |}) in *.
  pose proof (written_grows r2 x px pmx Hwf2 Hpx2) as Hg3. set (r3 := written r2 x pmx) in *.
  assert (header_at r3 header md) as Hh3.
  { destruct Hhd as (hp' & Hhp' & ?). exists hp'. split; [|done].
    subst r3. rewrite written_lookup_ne, Hs2 by set_solver. done. }
  assert (is_u32 y) as Hyu.
  { destruct Hwf1 as ([_ ?] & Hdom & _). apply Hdom in Hsome.
    unfold is_u32, u32_max, InvalidBlockNumber in *. lia. }
  destruct (header_add_page_run r3 header md y (grows_wf _ _ _ _ Hg3) Hh3 Hyu Hnp)
    as (r4 & Hrun4 & Hh4 & Hg4 & Hsame4).
  assert (∀ b, b ≠ y → b ≠ x → b ≠ header → rel_pages r4 !! b = rel_pages r !! b) as Hsame.
  { intros b ???. rewrite Hsame4 by done. subst r3. by rewrite written_lookup_ne, Hs2. }
  assert (rel_pages r4 !! x = Some (relink y px)) as Hx4.
  { rewrite Hsame4 by set_solver. subst r3. apply written_lookup. }
  assert (rel_pages r4 !! y = Some q) as Hq4.
  { rewrite Hsame4 by set_solver. subst r3. rewrite written_lookup_ne; [done|set_solver]. }
  exists y, q, r4. split; [|split; [|split; [|done]]].
  - intros A k. rewrite (bind_ok _ _ _ _ _ Hrun1), (bind_ok _ _ _ _ _ Hrun2).
    by rewrite (bind_ok _ _ _ _ _ Hrun3), (bind_ok _ _ _ _ _ Hrun4).
  - split.
    + apply (ichain_extend r r4 bs x y q its Hch Hnd); [|intros p Hp; congruence|done|done].
      apply NoDup_app in Hnd as (_ & Hdisj & _). intros b Hb. specialize (Hdisj b Hb).
      apply Hsame; set_solver.
    + rewrite app_comm_cons. apply NoDup_app. split; [done|]. split; [|apply NoDup_singleton].
      intros b Hb ->%list_elem_of_singleton. done.
    + exists (added md y). split; [done|]. split; [by destruct bs|done].
    + apply Hg4.
  - eapply (grows_weaken (1 + 0 + 0 + 0)); [|lia|by left].
    eapply (grows_trans _ _ _ [header]); [eapply (grows_trans _ _ _ [x]);
      [eapply (grows_trans _ _ _ [y]); [|done|]|done|]|done|].
    + eapply grows_weaken; [done|lia|]. intros b Hb. by apply not_elem_of_nil in Hb.
    + intros b ->%list_elem_of_singleton. by right.
    + intros b ->%list_elem_of_singleton. left. set_solver.
    + intros b ->%list_elem_of_singleton. left. set_solver.
Qed.

Lemma concat_insert_snoc its k es (e : T) :
  its !! k = Some es → concat (<[k := es ++ [e]]> its) ≡ₚ concat its ++ [e].
Proof.
  revert k. induction its as [|d its IH]; intros [|k] Hk; try done.
  - injection Hk as ->. simpl. rewrite <- !app_assoc. f_equiv. apply Permutation_app_comm.
  - simpl. rewrite (IH k Hk). by rewrite app_assoc.
Qed.

Lemma ichain_length r blks its : ichain r blks its → length blks = length its.
Proof.
  revert its. induction blks as [|b bs IH]; intros [|d ds]; simpl; try done.
  intros [_ Hc]. f_equal. by apply IH.
Qed.

(** entries stay on their page: [its'] is [its] with entries added at the ends of
    pages and pages added at the end *)
Definition grown its its' : Prop :=
  ∀ k es, its !! k = Some es → ∃ l, its' !! k = Some (es ++ l).

Lemma grown_refl its : grown its its.
Proof. intros k es Hk. exists []. by rewrite app_nil_r. Qed.
Lemma grown_trans its1 its2 its3 : grown its1 its2 → grown its2 its3 → grown its1 its3.
Proof.
  intros H12 H23 k es Hk. destruct (H12 k es Hk) as [l Hl]. destruct (H23 k _ Hl) as [l' Hl'].
  exists (l ++ l'). by rewrite app_assoc.
Qed.
Lemma grown_snoc its its2 k es (e : T) :
  its !! k = Some es → grown its (<[k := es ++ [e]]> (its ++ its2)).
Proof.
  intros Hk j ds Hj. pose proof (lookup_lt_Some _ _ _ Hk). pose proof (lookup_lt_Some _ _ _ Hj).
  destruct (decide (j = k)) as [->|Hne].
  - exists [e]. rewrite list_lookup_insert_eq by (rewrite length_app; lia). congruence.
  - exists []. rewrite list_lookup_insert_ne, lookup_app_l by done. by rewrite app_nil_r.
Qed.

(** an empty page takes any item that is not too big for a page *)
Lemma fresh_accepts q e :
  fresh_page q → zlen (into_item e) ≤ max_item_size →
  (append_item {| pm_page := q; pm_dirty := false |} (into_item e)).1 ≠ InvalidOffsetNumber.
Proof.
  intros ((_ & Hup & _) & _ & _ & _ & Hl & Hlow) Hsize. unfold append_item. cbn [pm_page].
  pose proof (PageAddItem_empty q (into_item e) Hsize Hl Hlow) as Hok.
  destruct (PageAddItemExtended q (into_item e)) as [p' o]. apply Hok.
  rewrite Hup. unfold bm25_max_free_space. rewrite MAXALIGN_pd_linp. lia.
Qed.

(** new entries for one page of a list *)
Lemma items_write r header blks its k b p es es' pm md :
  items_at r header blks its → header_at r header md → blks !! k = Some b → its !! k = Some es →
  rel_pages r !! b = Some p → holds (pm_page pm) es' → pd_special (pm_page pm) = pd_special p →
  items_at (written r b pm) header blks (<[k := es']> its) ∧ header_at (written r b pm) header md ∧
  grows 0 [b] r (written r b pm).
Proof.
  intros [Hch Hnd (md0 & Hhd0 & Hs & Hs0) Hwf] Hhd Hb Hes Hp Hh Hsp.
  pose proof (written_grows r b p pm Hwf Hp) as Hg.
  assert (b ∈ blks) as Hin by by eapply list_elem_of_lookup_2.
  pose proof Hnd as [Hhb Hnd']%NoDup_cons.
  assert (∀ md, header_at r header md → header_at (written r b pm) header md) as Hhdr.
  { intros m (hp & Hhp & ?). exists hp. split; [|done]. rewrite written_lookup_ne; [done|]. by intros ->. }
  split; [split|split; [by apply Hhdr|done]].
  - eapply (ichain_update r); [done|done|done|done| |].
    + intros p0 Hp0. exists (pm_page pm). split; [apply written_lookup|]. split; [done|].
      unfold page_next_blockno. rewrite Hsp. congruence.
    + intros b' _ Hne. by apply written_lookup_ne.
  - done.
  - exists md0. split; [by apply Hhdr|done].
  - apply Hg.
Qed.

(** ['append_loop] from the page [b] of the list *)
Lemma append_loop_spec fuel r header bs b post its md e :
  items_at r header (bs ++ b :: post) its → header_at r header md →
  npages md < u32_max → rel_nblocks r < InvalidBlockNumber →
  zlen (into_item e) ≤ max_item_size → (length post + 2 ≤ fuel)%nat →
  ∃ r' bs' b' post' its' md', append_loop fuel header b (into_item e) r = Ok (b', r') ∧
    items_at r' header (bs' ++ b' :: post') its' ∧ header_at r' header md' ∧
    npages md' ≤ npages md + 1 ∧ concat its' ≡ₚ concat its ++ [e] ∧
    grows 1 (header :: bs ++ b :: post) r r' ∧ (bs ++ b :: post) `prefix_of` (bs' ++ b' :: post') ∧
    (∀ c, c ∈ bs' ++ b' :: post' → c ∈ bs ++ b :: post ∨ ¬ in_use r c) ∧ grown its its'.
Proof.
  revert r bs b post its. induction fuel as [|fuel IH];
    intros r bs b post its Hi Hhd Hnp Hn Hsize Hfuel; [lia|].
  pose proof Hi as [Hch Hnd (md0 & Hhd0 & Hs & Hs0) Hwf].
  destruct (ichain_lookup r _ its (length bs) b Hch (list_lookup_middle _ _ _ _ eq_refl))
    as (p & es & Hes & Hp & Hh & Hnext).
  rewrite cons_middle, app_assoc, drop_app_ge in Hnext by (rewrite length_app; simpl; lia).
  rewrite length_app in Hnext. simpl in Hnext.
  replace (S (length bs) - (length bs + 1))%nat with 0%nat in Hnext by lia. rewrite drop_0 in Hnext.
  pose proof (append_item_spec p es e Hh) as Happ.
  destruct (append_item {| pm_page := p; pm_dirty := false |} (into_item e)) as [o pm] eqn:E.
  assert (with_page_mut b (λ pm, Ok (append_item pm (into_item e))) r = Ok (o, written r b pm)) as Hrun1.
  { eapply with_page_mut_run; [done|]. by rewrite E. }
  cbn [append_loop]. rewrite (bind_ok _ _ _ _ _ Hrun1).
  destruct Happ as [[-> ->]|(Ho & Hh' & Hsp)].
  - rewrite Z.eqb_refl. cbn [negb]. rewrite written_same by done.
    rewrite (bind_ok _ _ _ _ _ (get_page_run _ _ _ Hp)), Hnext.
    destruct post as [|c post].
    + destruct (items_extend_run r header bs b its md Hi Hn Hhd Hnp)
        as (y & q & r2 & Hrun2 & Hi2 & Hg2 & Hhd2 & Hq & Hfq & Hnot).
      rewrite (proj2 (Z.eqb_eq (next_of []) _)) by done. cbn [negb]. rewrite Hrun2.
      destruct fuel as [|fuel]; [simpl in Hfuel; lia|]. cbn [append_loop].
      pose proof Hfq as (_ & Hqu & _ & _ & Hql & _).
      assert (holds q []) as Hqh by done.
      pose proof (append_item_spec q [] e Hqh) as Happ2.
      pose proof (fresh_accepts q e Hfq Hsize) as Hacc.
      destruct (append_item {| pm_page := q; pm_dirty := false |} (into_item e)) as [o2 pm2] eqn:E2.
      destruct Happ2 as [[-> _]|(Ho2 & Hh2 & Hsp2)]; [done|].
      destruct (items_write r2 header ((bs ++ [b]) ++ [y]) (its ++ [[]]) (length its) y q [] ([] ++ [e]) pm2 (added md y))
        as (Hi3 & Hhd3 & Hg3); [done|done| |by apply list_lookup_middle|done|done|done|].
      { rewrite <- (ichain_length _ _ _ Hch). apply list_lookup_middle. by rewrite length_app. }
      exists (written r2 y pm2), (bs ++ [b]), y, [], (<[length its := [] ++ [e]]> (its ++ [[]])), (added md y).
      split; [|split; [done|split; [done|split; [simpl; lia|split; [|split; [|split; [|split]]]]]]].
      * erewrite bind_ok; [|eapply with_page_mut_run; [done|by rewrite E2]].
        by rewrite (proj2 (Z.eqb_neq _ _) Ho2).
      * rewrite (concat_insert_snoc _ _ [] e) by by apply list_lookup_middle.
        rewrite concat_app. simpl. by rewrite app_nil_r.
      * eapply (grows_weaken (1 + 0)); [|lia|by left]. eapply (grows_trans _ _ _ [y]); [done|done|].
        intros z ->%list_elem_of_singleton. by right.
      * by apply prefix_app_r.
      * intros z [Hz | ->%list_elem_of_singleton]%elem_of_app; [by left|by right].
      * intros j ds Hj. pose proof (lookup_lt_Some _ _ _ Hj). exists []. rewrite app_nil_r.
        rewrite list_lookup_insert_ne by lia. by rewrite lookup_app_l.
    + destruct (ichain_dom r _ _ c Hwf Hch ltac:(set_solver)) as [_ Hci].
      rewrite (proj2 (Z.eqb_neq (next_of (c :: post)) _)) by done. cbn [negb].
      change (next_of (c :: post)) with c.
      rewrite cons_middle, app_assoc in Hi.
      destruct (IH r (bs ++ [b]) c post its Hi Hhd Hnp Hn Hsize) as
        (r' & bs' & b' & post' & its' & md' & Hrun & Hrest); [simpl in Hfuel; lia|].
      rewrite <- app_assoc in Hrest. simpl in Hrest.
      exists r', bs', b', post', its', md'. done.
  - rewrite (proj2 (Z.eqb_neq _ _) Ho). cbn [negb].
    destruct (items_write r header (bs ++ b :: post) its (length bs) b p es (es ++ [e]) pm md)
      as (Hi3 & Hhd3 & Hg3); [done|done|by apply list_lookup_middle|done|done|done|done|].
    exists (written r b pm), bs, b, post, (<[length bs := es ++ [e]]> its), md.
    split; [done|]. split; [done|]. split; [done|]. split; [lia|]. split; [by apply concat_insert_snoc|].
    split; [|split; [done|split; [by left|]]]; [eapply grows_weaken; [done|lia|]|].
    + intros z ->%list_elem_of_singleton. left. set_solver.
    + rewrite <- (app_nil_r its) at 2. by apply grown_snoc.
Qed.

Lemma add_items_from_spec items r header bs b post its md :
  items_at r header (bs ++ b :: post) its → header_at r header md →
  npages md + zlen items ≤ u32_max → rel_nblocks r + zlen items ≤ InvalidBlockNumber →
  Forall (λ e, zlen (into_item e) ≤ max_item_size) items →
  ∃ r' blks' its', add_items_from header b items r = Ok (tt, r') ∧
    items_at r' header blks' its' ∧ concat its' ≡ₚ concat its ++ items ∧
    (bs ++ b :: post) `prefix_of` blks' ∧
    grows (zlen items) (header :: bs ++ b :: post) r r' ∧
    (∀ c, c ∈ blks' → c ∈ bs ++ b :: post ∨ ¬ in_use r c) ∧
    (∃ md', header_at r' header md' ∧ npages md' ≤ npages md + zlen items) ∧ grown its its'.
Proof.
  revert r bs b post its md. induction items as [|e items IH];
    intros r bs b post its md Hi Hhd Hnp Hn Hsize.
  { exists r, (bs ++ b :: post), its. rewrite app_nil_r. split; [done|]. split; [done|].
    split; [done|]. split; [done|]. split; [apply grows_refl, Hi|]. split; [by left|].
    split; [|apply grown_refl]. exists md. split; [done|]. rewrite zlen_nil. lia. }
  rewrite zlen_cons in *. pose proof (zlen_nonneg items). apply Forall_cons in Hsize as [He Hsize].
  pose proof Hi as [Hch Hnd _ Hwf]. apply NoDup_cons in Hnd as [_ Hnd].
  pose proof (ichain_bound _ _ _ Hwf Hch Hnd) as Hb. rewrite length_app in Hb. simpl in Hb.
  cbn [add_items_from]. rewrite (bind_ok (gets _) _ r r (rel_nblocks r)) by done.
  destruct (append_loop_spec (S (S (Z.to_nat (rel_nblocks r)))) r header bs b post its md e Hi Hhd)
    as (r1 & bs1 & b1 & post1 & its1 & md1 & Hrun1 & Hi1 & Hhd1 & Hnp1 & Hperm1 & Hg1 & Hpre1 & Hf1 & Hgr1);
    [lia|lia|done|lia|].
  rewrite (bind_ok _ _ _ _ _ Hrun1). pose proof (grows_nblocks _ _ _ _ Hg1).
  destruct (IH r1 bs1 b1 post1 its1 md1 Hi1 Hhd1)
    as (r' & blks' & its' & Hrun & Hi' & Hperm & Hpre & Hg & Hf & (md' & Hhd' & Hnp') & Hgr); [lia|lia|done|].
  exists r', blks', its'. split; [done|]. split; [done|].
  split; [|split; [by etrans|split; [|split; [|split; [by exists md'; split; [|lia]|by eapply grown_trans]]]]].
  - rewrite Hperm, Hperm1, <- app_assoc. done.
  - eapply (grows_trans 1); [exact Hg1|exact Hg|]. intros c [->|Hc]%elem_of_cons; [left; left|].
    destruct (Hf1 c Hc); [left; by right|by right].
  - intros c Hc. destruct (Hf c Hc) as [Hc1|Hno]; [by apply Hf1|].
    destruct (decide (c ∈ bs ++ b :: post)) as [|Hout]; [by left|right]. intros Hu. apply Hno.
    eapply grows_in_use; [exact Hg1|done|]. intros [->|?]%elem_of_cons; [|done].
    destruct Hi' as [_ Hnd' _ _]. by apply NoDup_cons in Hnd' as [? _].
Qed.
End add_lemmas.

(** add_items terminates and puts every item on the list: the entries afterwards
    are those before and the new ones, the list's pages only grow at the end, and no
    other page in use changes. *)
Theorem add_items_appends `{PgPage, PgXact, PgBuffers} {T} `{PgItem T} `{MVCCEntry T}
    (r : Rel) header blks (its : list (list T)) items md :
  items_at r header blks its → header_at r header md →
  npages md + zlen items ≤ u32_max → rel_nblocks r + zlen items ≤ InvalidBlockNumber →
  Forall (λ e, zlen (into_item e) ≤ max_item_size) items →
  ∃ r' blks' es, add_items header items None r = Ok (tt, r') ∧
    list_entries header r' = Ok (es, r') ∧ es ≡ₚ concat its ++ items ∧
    (∃ its', items_at r' header blks' its') ∧ blks `prefix_of` blks' ∧
    (∀ b, in_use r b → b ∉ header :: blks' → rel_pages r' !! b = rel_pages r !! b).
Proof.
  intros Hi Hhd Hnp Hn Hsize. destruct (items_start_run _ _ _ _ Hi) as (b & bs & -> & Hrun0).
  destruct (add_items_from_spec items r header [] b bs its md Hi Hhd Hnp Hn Hsize)
    as (r' & blks' & its' & Hrun & Hi' & Hperm & Hpre & Hg & _).
  exists r', blks', (concat its'). split_and!; [|by apply list_entries_spec in Hi'|done|by exists its'|done|].
  - unfold add_items. by rewrite (bind_ok _ _ _ _ _ Hrun0).
  - intros c Hc Hout. apply Hg; [done|]. destruct Hpre as [k ->]. set_solver.
Qed.

(** C12: Garbage collection of an entry list terminates, removes exactly the recyclable
    entries, freezes the old transaction ids of the others, keeps their order, and
    leaves a well-formed list on a subset of its pages; the pages it unlinks are marked
    deleted and no page outside the list changes. *)
Theorem garbage_collect_keeps_live `{PgPage, PgXact, PgBuffers} {T} `{PgItem T} `{MVCCEntry T}
    `{!FrozenSameSize T} (r : Rel) header blks (its : list (list T)) limit :
  items_at r header blks its → vacuum_get_freeze_limit = Ok limit →
  ∃ r' kept kits, garbage_collect (T:=T) header r = Ok (tt, r') ∧
    list_entries header r' = Ok (freeze limit <$> filter (λ e, dead e = false) (concat its), r') ∧
    items_at r' header kept kits ∧ sublist kept blks ∧
    (∀ b, b ∈ blks → b ∉ kept → unlinked r' b) ∧
    (∀ b, b ∉ blks → rel_pages r' !! b = rel_pages r !! b).
Proof.
  intros Hi Hl. destruct (garbage_collect_spec r header blks its limit Hi Hl)
    as (r' & kept & kits & Hrun & Hi' & Hsub & Hcat & Hun & Hout).
  exists r', kept, kits. split; [done|]. split; [|done].
  rewrite (list_entries_spec _ _ _ _ Hi'). by rewrite Hcat.
Qed.

(** [lookup_ex] returns the first entry of the list the predicate accepts, with the
    block and offset it is stored at, and the error exactly when there is none. *)
Theorem lookup_finds_first `{PgPage, PgXact, PgBuffers} {T} `{PgItem T} `{MVCCEntry T}
    (r : Rel) header blks (its : list (list T)) (cmp : T → bool) :
  items_at r header blks its →
  match first_match cmp (concat its) with
  | Some e => ∃ b off p, lookup_ex header cmp r = Ok ((e, b, off), r) ∧ b ∈ blks ∧
      rel_pages r !! b = Some p ∧ read_item p off = Ok (Some (e, zlen (into_item e)))
  | None => lookup_ex (T:=T) header cmp r = Err "failed to find the desired entry"
  end.
Proof.
  intros Hi. destruct (items_start_run _ _ _ _ Hi) as (b & bs & -> & Hrun).
  destruct Hi as [Hc Hnd _ Hwf]. apply NoDup_cons in Hnd as [_ Hnd].
  unfold lookup_ex. rewrite (bind_ok _ _ _ _ _ Hrun).
  rewrite (bind_ok (gets _) _ r r (rel_nblocks r)) by done.
  apply (lookup_loop_spec _ r (b :: bs) its cmp Hwf Hc). by eapply ichain_bound.
Qed.
