(* ===== verification/PgUtils.v ===== *)
(** * PgUtils: ctids and dates

    [postgres/utils.rs] (the packing of a heap tuple's address into an [u64], the
    conversion of Postgres date strings) and [postgres/datetime.rs].  The parsers of
    [pgrx], the calendar of [chrono] and the [f64] operations are parameters. *)

From S2P Require Import Prelude.

Open Scope Z_scope.

(** ** Heap tuple addresses *)

(** [ItemPointerData]: a block number and an offset in the block *)
Record ItemPointerData := { ip_blkid : Z; ip_posid : Z }.
Definition ctid_ok (c : ItemPointerData) : Prop :=
  is_u32 (ip_blkid c) ∧ 0 ≤ ip_posid c ≤ u16_max.

Definition item_pointer_to_u64 (ctid : ItemPointerData) : Z :=
  let blockno := ip_blkid ctid in
  let offno := ip_posid ctid in
  Z.lor (Z.shiftl blockno 16) offno.

Definition u64_to_item_pointer (value : Z) : ItemPointerData :=
  let blockno := Z.shiftr value 16 mod 2 ^ 32 in
  let offno := value mod 2 ^ 16 in
  {| ip_blkid := blockno; ip_posid := offno |}.

(** ** External code *)

(** the [f64] operations the code uses *)
Class RustF64 := {
  F64 : Type;
  f64_of_Z : Z → F64;
  f64_trunc : F64 → F64;
  f64_mul : F64 → F64 → F64;
  f64_rem : F64 → F64 → F64;
  f64_is_nan : F64 → bool;
  f64_is_infinite : F64 → bool;
  f64_lt : F64 → F64 → bool;
  f64_eq : F64 → F64 → bool;
  f64_as_u32 : F64 → Z
}.

(** [chrono]: a [NaiveDate] is its days since 1970, a [NaiveTime] its microseconds
    since midnight, a date time in UTC its microseconds since 1970 *)
Class Chrono := {
  from_ymd_opt : Z → Z → Z → option Z;
  (** "makes a new [NaiveTime] from hour, minute, second and microsecond; returns [None]
      on invalid hour, minute, second and/or microsecond" *)
  from_hms_micro_opt : Z → Z → Z → Z → option Z;
  and_time : Z → Z → Z;
  from_ymd_epoch : from_ymd_opt 1970 1 1 = Some 0;
  from_hms_micro_valid h m s micro :
    0 ≤ h < 24 → 0 ≤ m < 60 → 0 ≤ s < 60 → 0 ≤ micro < 1000000 →
    from_hms_micro_opt h m s micro = Some (((h * 60 + m) * 60 + s) * 1000000 + micro);
  (** a second 59 may carry up to another second, a leap second *)
  from_hms_micro_invalid h m s micro :
    1000000 ≤ micro → s ≠ 59 ∨ 2000000 ≤ micro → from_hms_micro_opt h m s micro = None;
  and_time_micros date time : and_time date time = date * 86400 * 1000000 + time
}.

(** a [pgrx::datum::TimestampWithTimeZone]'s fields in the session's time zone *)
Record TimestampWithTimeZone `{RustF64} := {
  tz_year : Z; tz_month : Z; tz_day : Z; tz_hour : Z; tz_minute : Z; tz_second : F64
}.

Class PgDates `{RustF64} := {
  Date_from_str : string → option (Z * Z * Z);
  (** [Timestamp::from_str] and then [into()] *)
  Timestamp_from_str : string → option TimestampWithTimeZone;
  TimestampWithTimeZone_from_str : string → option TimestampWithTimeZone;
  to_utc : TimestampWithTimeZone → TimestampWithTimeZone;
  (** [Time::from_str] and [TimeWithTimeZone::from_str] with [to_utc()], each
      with [to_hms_micro()] *)
  Time_from_str : string → option (Z * Z * Z * Z);
  TimeWithTimeZone_from_str : string → option (Z * Z * Z * Z)
}.

(** ** Type oids *)

(** the built-in types the code tells apart, and the others *)
Inductive PgBuiltInOids :=
  | DATEOID | DATERANGEOID | TIMESTAMPOID | TSRANGEOID | TIMESTAMPTZOID | TSTZRANGEOID
  | TIMEOID | TIMETZOID
  | TEXTOID | VARCHAROID | UUIDOID | INT2OID | INT4OID | INT8OID | OIDOID | XIDOID | TIDOID
  | FLOAT4OID | FLOAT8OID | NUMERICOID | BOOLOID | JSONOID | JSONBOID
  | INT4RANGEOID | INT8RANGEOID | NUMRANGEOID | OtherOid (oid : Z).
#[global] Instance PgBuiltInOids_eq_dec : EqDecision PgBuiltInOids.
Proof. solve_decision. Defined.
Inductive PgOid := PgBuiltIn (oid : PgBuiltInOids) | PgCustom (oid : Z) | PgInvalid.
#[global] Instance PgOid_eq_dec : EqDecision PgOid.
Proof. solve_decision. Defined.

(** ** Operations *)

Section chrono.
Context `{Chrono}.
(** [NaiveDate::and_hms_micro_opt] and [and_hms_opt] *)
Definition and_hms_micro_opt (date hour min sec micro : Z) : option Z :=
  and_time date <$> from_hms_micro_opt hour min sec micro.
Definition and_hms_opt (date hour min sec : Z) : option Z := and_hms_micro_opt date hour min sec 0.
End chrono.

Section dates.
Context `{RustF64}.

Definition f64_to_u32 (n : F64) : outcome Z :=
  let truncated := f64_trunc n in
  if f64_is_nan truncated || f64_is_infinite truncated
     || f64_lt truncated (f64_of_Z 0) || f64_lt (f64_of_Z u32_max) truncated
  then Err "overflow in f64 to u32"
  else Ok (f64_as_u32 truncated).

Definition convert_pgrx_seconds_to_chrono (orig : F64) : outcome (Z * Z * Z) :=
  seconds ← f64_to_u32 orig;
  microseconds ← f64_to_u32 (f64_rem (f64_mul orig (f64_of_Z 1000000)) (f64_of_Z 1000000));
  nanoseconds ← f64_to_u32 (f64_rem (f64_mul orig (f64_of_Z 1000000000)) (f64_of_Z 1000000000));
  Ok (seconds, microseconds, nanoseconds).

(** [expect] of a value that is not a computation over a store *)
Definition expect_ok {A} (o : option A) (msg : string) : outcome A :=
  match o with Some a => Ok a | None => Panic msg end.
(** [expect] of a [Result] *)
Definition expect_res {A} (o : outcome A) (msg : string) : outcome A :=
  match o with Err _ => Panic msg | _ => o end.

Context `{Chrono} `{!PgDates}.

(** the branches of timestamps: microseconds since 1970 *)
Definition timestamp_micros (twtz : TimestampWithTimeZone) (msg1 msg2 : string) : outcome Z :=
  '(seconds, _micros, _nanos) ←
    expect_res (convert_pgrx_seconds_to_chrono (tz_second twtz)) "must not overflow converting pgrx seconds";
  date ← expect_ok (from_ymd_opt (tz_year twtz) (tz_month twtz) (tz_day twtz)) msg1;
  expect_ok (and_hms_opt date (tz_hour twtz) (tz_minute twtz) seconds) msg2.

(** the branches of times *)
Definition time_micros (t : Z * Z * Z * Z) (msg : string) : outcome Z :=
  let '(hour, minute, second, micros) := t in
  naive_time ← expect_ok (from_hms_micro_opt hour minute second micros) msg;
  naive_date ← expect_ok (from_ymd_opt 1970 1 1) "default date";
  Ok (and_time naive_date naive_time).

(** the microseconds that [tantivy::DateTime::from_timestamp_micros] gets *)
Definition convert_pg_date_string (typeoid : PgOid) (date_string : string) : outcome Z :=
  match typeoid with
  | PgBuiltIn (DATEOID | DATERANGEOID) =>
      '(year, month, day) ← expect_ok (Date_from_str date_string) "must be valid postgres date format";
      date ← expect_ok (from_ymd_opt year month day) "must be able to parse date format";
      expect_ok (and_hms_opt date 0 0 0) "must be able to set date default time"
  | PgBuiltIn (TIMESTAMPOID | TSRANGEOID) =>
      twtz ← expect_ok (Timestamp_from_str date_string) "must be a valid postgres timestamp";
      timestamp_micros twtz "must be able to convert date timestamp" "must be able to parse timestamp format"
  | PgBuiltIn (TIMESTAMPTZOID | TSTZRANGEOID) =>
      twtz ← expect_ok (TimestampWithTimeZone_from_str date_string)
        "must be a valid postgres timestamp with time zone";
      timestamp_micros (to_utc twtz) "must be able to convert timestamp with timezone"
        "must be able to parse timestamp with timezone"
  | PgBuiltIn TIMEOID =>
      t ← expect_ok (Time_from_str date_string) "must be a valid postgres time";
      time_micros t "must be able to parse time"
  | PgBuiltIn TIMETZOID =>
      t ← expect_ok (TimeWithTimeZone_from_str date_string) "must be a valid postgres time with time zone";
      time_micros t "must be able to parse time with time zone"
  | _ => Panic "Unsupported typeoid"
  end.

Definition MICROSECONDS_IN_SECOND : Z := 1000000.

(** the microseconds of the [OwnedValue::Date] it makes *)
Definition datetime_components_to_tantivy_date (ymd : option (Z * Z * Z)) (hms_micro : Z * Z * Z * Z)
    : outcome Z :=
  let '(h, m, s, micro) := hms_micro in
  date ← match ymd with
         | Some (y, mo, d) => expect_ok (from_ymd_opt y mo d) "ymd should be valid for NaiveDate::from_ymd_opt"
         | None => Ok 0
         end;
  match and_hms_micro_opt date h m s (micro mod MICROSECONDS_IN_SECOND) with
  | Some t => Ok t
  | None => Err "OutOfRange"
  end.
End dates.

(** ** Theorems *)

Lemma ctid_block c : ctid_ok c → Z.shiftr (item_pointer_to_u64 c) 16 = ip_blkid c.
Proof.
  intros [Hb Ho]. unfold item_pointer_to_u64, u16_max in *.
  rewrite Z.shiftr_lor, Z.shiftr_shiftl_l, Z.sub_diag, Z.shiftl_0_r by lia.
  rewrite (Z.shiftr_div_pow2 (ip_posid c)), Z.div_small by lia. apply Z.lor_0_r.
Qed.

Lemma ctid_offset c : ctid_ok c → item_pointer_to_u64 c mod 2 ^ 16 = ip_posid c.
Proof.
  intros [Hb Ho]. unfold item_pointer_to_u64, u16_max in *.
  rewrite <- Z.land_ones, Z.land_lor_distr_l by lia.
  rewrite !Z.land_ones, Z.shiftl_mul_pow2, Z.mod_mul, Z.mod_small by lia. done.
Qed.

Lemma ctid_packed c : ctid_ok c → item_pointer_to_u64 c = ip_blkid c * 2 ^ 16 + ip_posid c.
Proof.
  intros Hc. rewrite <- (ctid_block c), <- (ctid_offset c) at 1 by done.
  rewrite Z.shiftr_div_pow2 by lia. pose proof (Z.div_mod (item_pointer_to_u64 c) (2 ^ 16)). lia.
Qed.

(** A tuple address packed into a u64 unpacks to itself, fits 48 bits, and the
    packing keeps the order of block and offset. *)
Theorem ctid_roundtrip c c' :
  ctid_ok c → ctid_ok c' →
  u64_to_item_pointer (item_pointer_to_u64 c) = c ∧
  0 ≤ item_pointer_to_u64 c < 2 ^ 48 ∧
  (item_pointer_to_u64 c < item_pointer_to_u64 c' ↔
   ip_blkid c < ip_blkid c' ∨ ip_blkid c = ip_blkid c' ∧ ip_posid c < ip_posid c').
Proof.
  intros Hc Hc'. split; [|split].
  - unfold u64_to_item_pointer. rewrite ctid_block, ctid_offset by done.
    destruct c as [b o], Hc as [Hb Ho]. unfold is_u32, u32_max in Hb. simpl in *.
    by rewrite Z.mod_small by lia.
  - rewrite ctid_packed by done. destruct Hc as [Hb Ho]. unfold is_u32, u32_max, u16_max in *. lia.
  - rewrite !ctid_packed by done. destruct Hc as [Hb Ho], Hc' as [Hb' Ho'].
    unfold is_u32, u32_max, u16_max in *. lia.
Qed.

Section date_theorems.
Context `{RustF64} `{Chrono} `{!PgDates}.

(** the fraction of a second plays no part in the date of a timestamp string *)
Definition same_but_fraction (a b : TimestampWithTimeZone) : Prop :=
  tz_year a = tz_year b ∧ tz_month a = tz_month b ∧ tz_day a = tz_day b ∧
  tz_hour a = tz_hour b ∧ tz_minute a = tz_minute b ∧
  ∃ sec m n m' n', convert_pgrx_seconds_to_chrono (tz_second a) = Ok (sec, m, n) ∧
    convert_pgrx_seconds_to_chrono (tz_second b) = Ok (sec, m', n').

Lemma timestamp_micros_fraction a b m1 m2 :
  same_but_fraction a b → timestamp_micros a m1 m2 = timestamp_micros b m1 m2.
Proof.
  intros (Hy & Hm & Hd & Hh & Hmi & sec & m & n & m' & n' & Ha & Hb).
  unfold timestamp_micros. by rewrite Ha, Hb, Hy, Hm, Hd, Hh, Hmi.
Qed.
End date_theorems.

(** The date of a timestamp string in a range query ignores the fraction of its
    second, while the date of an indexed timestamp keeps its microseconds. *)
Theorem date_strings_drop_fraction `{RustF64} `{Chrono} `{!PgDates} (s1 s2 : string)
    (a b : TimestampWithTimeZone) :
  TimestampWithTimeZone_from_str s1 = Some a → TimestampWithTimeZone_from_str s2 = Some b →
  same_but_fraction (to_utc a) (to_utc b) →
  ∀ oid, oid = TIMESTAMPTZOID ∨ oid = TSTZRANGEOID →
  convert_pg_date_string (PgBuiltIn oid) s1 = convert_pg_date_string (PgBuiltIn oid) s2 ∧
  (∀ y mo d h mi s u u' t t',
     0 ≤ h < 24 → 0 ≤ mi < 60 → 0 ≤ s < 60 → 0 ≤ u < 1000000 → 0 ≤ u' < 1000000 →
     datetime_components_to_tantivy_date (Some (y, mo, d)) (h, mi, s, u) = Ok t →
     datetime_components_to_tantivy_date (Some (y, mo, d)) (h, mi, s, u') = Ok t' →
     t - t' = u - u').
Proof.
  intros Hs1 Hs2 Hs oid Hoid. split.
  - assert (convert_pg_date_string (PgBuiltIn TIMESTAMPTZOID) s1 =
            convert_pg_date_string (PgBuiltIn TIMESTAMPTZOID) s2) as Heq.
    { simpl. rewrite Hs1, Hs2. by apply timestamp_micros_fraction. }
    destruct Hoid as [-> | ->]; exact Heq.
  - intros y mo d h mi s u u' t t' Hh Hm Hsec Hu Hu'.
    unfold datetime_components_to_tantivy_date, and_hms_micro_opt, MICROSECONDS_IN_SECOND.
    rewrite !Z.mod_small by lia. destruct (from_ymd_opt y mo d) as [day|]; [|done]. simpl.
    rewrite !from_hms_micro_valid by lia. simpl. intros [= <-] [= <-].
    rewrite !and_time_micros. lia.
Qed.

(** A time string whose microseconds reach two seconds panics in a range query (any with
    seconds of its own does: the micros argument holds them all), while an indexed time does not. *)
Theorem time_strings_panic `{RustF64} `{Chrono} `{!PgDates} (s : string) h m sec micros :
  Time_from_str s = Some (h, m, sec, micros) →
  0 ≤ h < 24 → 0 ≤ m < 60 → 0 ≤ sec < 60 → 2000000 ≤ micros →
  convert_pg_date_string (PgBuiltIn TIMEOID) s = Panic "must be able to parse time" ∧
  datetime_components_to_tantivy_date None (h, m, sec, micros) =
    Ok (((h * 60 + m) * 60 + sec) * 1000000 + micros mod 1000000).
Proof.
  intros Hs Hh Hm Hsec Hmic. split.
  - simpl. rewrite Hs. simpl. by rewrite from_hms_micro_invalid by lia.
  - unfold datetime_components_to_tantivy_date, and_hms_micro_opt, MICROSECONDS_IN_SECOND. simpl.
    pose proof (Z.mod_pos_bound micros 1000000).
    rewrite from_hms_micro_valid by lia. simpl. by rewrite and_time_micros.
Qed.
