(* ===== verification/Query.v ===== *)
(** * Query: the query language and its translation to Tantivy

    [query/mod.rs] and [query/range.rs]: the queries a user writes
    ([Input.SearchQueryInput]), the terms their values become, and
    [into_tantivy_query], which turns one into a Tantivy query.  A Tantivy query is the
    tree of the constructor calls the code makes; the query parser is a state, because
    the code changes it while it converts.  What Tantivy, [chrono] and the tokenizers
    do is a parameter. *)

From S2P Require Import Prelude PgUtils.

Open Scope Z_scope.

(** ** Values *)

Inductive Bound (A : Type) := Included (a : A) | Excluded (a : A) | Unbounded.
Arguments Included {A} a.
Arguments Excluded {A} a.
Arguments Unbounded {A}.

(** the types of Tantivy the code only passes along *)
Class TantivyTypes := {
  F32 : Type;
  (** the payload of pre-tokenized strings, facets, arrays and objects *)
  Opaque : Type;
  opaque_eq : Opaque → Opaque → bool;
  ParsedQuery : Type;
  DocAddress : Type
}.

Inductive OwnedValue `{RustF64} `{TantivyTypes} :=
  | ONull
  | OStr (text : string)
  | OPreTokStr (v : Opaque)
  | OU64 (n : Z)
  | OI64 (n : Z)
  | OF64 (x : F64)
  | OBool (b : bool)
  | ODate (nanos : Z)
  | OFacet (v : Opaque)
  | OBytes (bytes : list Z)
  | OArray (v : Opaque)
  | OObject (v : Opaque)
  | OIpAddr (ip : Z).

(** [==] of two values *)
Definition owned_eq `{RustF64} `{TantivyTypes} (a b : OwnedValue) : bool :=
  match a, b with
  | ONull, ONull => true
  | OStr s, OStr s' => bool_decide (s = s')
  | OU64 n, OU64 n' | OI64 n, OI64 n' | ODate n, ODate n' | OIpAddr n, OIpAddr n' => n =? n'
  | OF64 x, OF64 x' => f64_eq x x'
  | OBool b, OBool b' => Bool.eqb b b'
  | OBytes l, OBytes l' => bool_decide (l = l')
  | OPreTokStr v, OPreTokStr v' | OFacet v, OFacet v' | OArray v, OArray v'
  | OObject v, OObject v' => opaque_eq v v'
  | _, _ => false
  end.

(** ** Fields *)

Notation Field := Z (only parsing).
Inductive FieldType :=
  | FStr | FU64 | FI64 | FF64 | FBool | FDate | FFacet | FBytes
  | FJsonObject (expand_dots_enabled : bool)
  | FIpAddr.

(** [trait AsFieldType<String>]: its required methods, and below its provided ones *)
Class AsFieldType := {
  fields : list (FieldType * PgOid * Field);
  key_field : FieldType * PgOid * Field;
  as_field_type : string → option (FieldType * PgOid * Field)
}.

Section fields.
Context `{RustF64} `{TantivyTypes} `{AsFieldType}.

Definition is_field_type (from : string) (value : OwnedValue) : bool :=
  match as_field_type from, value with
  | Some (FStr, _, _), OStr _ => true
  | Some (FU64, _, _), OU64 _ => true
  | Some (FI64, _, _), OI64 _ => true
  | Some (FF64, _, _), OF64 _ => true
  | Some (FBool, _, _), OBool _ => true
  | Some (FDate, _, _), ODate _ => true
  | Some (FFacet, _, _), OFacet _ => true
  | Some (FBytes, _, _), OBytes _ => true
  | Some (FJsonObject _, _, _), OObject _ => true
  | Some (FIpAddr, _, _), OIpAddr _ => true
  | _, _ => false
  end.

Definition as_str (from : string) : option Field :=
  as_field_type from ≫= λ '(ft, _, field), match ft with FStr => Some field | _ => None end.
Definition as_u64 (from : string) : option Field :=
  as_field_type from ≫= λ '(ft, _, field), match ft with FU64 => Some field | _ => None end.
Definition as_i64 (from : string) : option Field :=
  as_field_type from ≫= λ '(ft, _, field), match ft with FI64 => Some field | _ => None end.
Definition as_json_object (from : string) : option Field :=
  as_field_type from ≫= λ '(ft, _, field), match ft with FJsonObject _ => Some field | _ => None end.
End fields.

(** ** Terms *)

(** a typed value of a term *)
Inductive TermValue `{RustF64} `{TantivyTypes} :=
  | VStr (text : string) | VU64 (n : Z) | VI64 (n : Z) | VF64 (x : F64) | VBool (b : bool)
  | VDate (nanos : Z) | VFacet (v : Opaque) | VBytes (bytes : list Z) | VIpAddr (ip : Z).

Inductive Term `{RustF64} `{TantivyTypes} :=
  | FieldTerm (field : Field) (v : TermValue)
  | JsonTerm (field : Field) (path : string) (expand_dots : bool) (v : TermValue).

(** [json_utils::split_json_path], [DateTime::truncate] to the indexed precision,
    [DateTime::from_timestamp_micros] and [NaiveDateTime::parse_from_str] with
    [timestamp_micros] *)
Class TantivyText := {
  split_json_path : string → list string;
  truncate : Z → Z;
  from_timestamp_micros : Z → Z;
  parse_from_str : string → string → option Z
}.

(** whether the build checks arithmetic for overflow; a release build wraps *)
Class RustBuild := { overflow_checks : bool }.

Definition i64_min : Z := - 2 ^ 63.
Definition i64_max : Z := 2 ^ 63 - 1.

(** [a + b] at the width [lo..hi] *)
Definition add_width `{RustBuild} (lo hi a b : Z) : outcome Z :=
  if (lo <=? a + b) && (a + b <=? hi) then Ok (a + b)
  else if overflow_checks then Panic "attempt to add with overflow"
  else Ok (lo + (a + b - lo) mod (hi - lo + 1)).
Definition add_u64 `{RustBuild} : Z → Z → outcome Z := add_width 0 u64_max.
Definition add_i64 `{RustBuild} : Z → Z → outcome Z := add_width i64_min i64_max.
(** [n as i64] of a [u64] *)
Definition u64_as_i64 (n : Z) : Z := if n <=? i64_max then n else n - 2 ^ 64.

Section terms.
Context `{RustF64} `{TantivyTypes} `{TantivyText}.

(** [TantivyDateTime::try_from] *)
Definition TantivyDateTime_try_from (text : string) : outcome Z :=
  match parse_from_str text "%Y-%m-%dT%H:%M:%SZ" with
  | Some micros => Ok (from_timestamp_micros micros)
  | None =>
      match parse_from_str text "%Y-%m-%dT%H:%M:%S%.fZ" with
      | Some micros => Ok (from_timestamp_micros micros)
      | None => Err "wrong type given for field"
      end
  end.

Definition value_to_json_term (field : Field) (value : OwnedValue) (path : option string)
    (expand_dots is_datetime : bool) : outcome Term :=
  let term := JsonTerm field (default "" path) expand_dots in
  match value with
  | OStr text =>
      if is_datetime then
        date ← TantivyDateTime_try_from text; Ok (term (VDate (truncate date)))
      else Ok (term (VStr text))
  | OU64 n => Ok (term (if n <=? i64_max then VI64 n else VU64 n))
  | OI64 n => Ok (term (VI64 n))
  | OF64 x => Ok (term (VF64 x))
  | OBool b => Ok (term (VBool b))
  | ODate date => Ok (term (VDate date))
  | _ => Panic "Tantivy OwnedValue type not supported for JSON term"
  end.

(** the last [match] of [value_to_term] *)
Definition value_to_field_term (field : Field) (value : OwnedValue) (field_type : FieldType)
    : outcome Term :=
  match value with
  | OStr text => Ok (FieldTerm field (VStr text))
  | OPreTokStr _ => Panic "pre-tokenized text cannot be converted to term"
  | OU64 n =>
      match field_type with
      | FI64 => Ok (FieldTerm field (VI64 (u64_as_i64 n)))
      | FU64 => Ok (FieldTerm field (VU64 n))
      | _ => Panic "invalid field type for u64 value"
      end
  | OI64 n => Ok (FieldTerm field (VI64 n))
  | OF64 x => Ok (FieldTerm field (VF64 x))
  | OBool b => Ok (FieldTerm field (VBool b))
  | ODate date => Ok (FieldTerm field (VDate (truncate date)))
  | OFacet v => Ok (FieldTerm field (VFacet v))
  | OBytes bytes => Ok (FieldTerm field (VBytes bytes))
  | OObject _ => Panic "json cannot be converted to term"
  | OIpAddr ip => Ok (FieldTerm field (VIpAddr ip))
  | ONull | OArray _ => Panic "Tantivy OwnedValue type not supported"
  end.

Definition value_to_term (field : Field) (value : OwnedValue) (field_type : FieldType)
    (path : option string) (is_datetime : bool) : outcome Term :=
  match field_type with
  | FJsonObject expand_dots => value_to_json_term field value path expand_dots is_datetime
  | _ =>
      match is_datetime, value with
      | true, OStr text =>
          date ← TantivyDateTime_try_from text; Ok (FieldTerm field (VDate (truncate date)))
      | _, _ => value_to_field_term field value field_type
      end
  end.

(** [parts.join(".")] *)
Fixpoint join_dots (parts : list string) : string :=
  match parts with
  | [] => ""
  | [p] => p
  | p :: parts => (p +:+ "." +:+ join_dots parts)%string
  end.

Definition split_field_and_path (field : string) : outcome (string * option string) :=
  let json_path := split_json_path field in
  if zlen json_path =? 1 then Ok (field, None)
  else
    match json_path with
    | first :: rest => Ok (first, Some (join_dots rest))
    | [] => Panic "index out of bounds"
    end.
End terms.

(** ** The bounds of a range *)

Definition is_datetime_typeoid (typeoid : PgOid) : bool :=
  match typeoid with
  | PgBuiltIn (DATEOID | DATERANGEOID | TIMESTAMPOID | TSRANGEOID | TIMESTAMPTZOID
               | TSTZRANGEOID | TIMEOID | TIMETZOID) => true
  | _ => false
  end.

Section bounds.
Context `{RustF64} `{TantivyTypes} `{TantivyText} `{RustBuild} `{Chrono} `{!PgDates}.

Definition one_day_nanos : Z := 86400000000000.

(** a date string as a [DateTime] *)
Definition pg_date (typeoid : PgOid) (date_string : string) : outcome Z :=
  micros ← convert_pg_date_string typeoid date_string; Ok (from_timestamp_micros micros).

Definition check_lower_bound (typeoid : PgOid) (lower_bound : Bound OwnedValue) : outcome (Bound OwnedValue) :=
  match typeoid, lower_bound with
  | _, Excluded (OU64 n) => n' ← add_u64 n 1; Ok (Included (OU64 n'))
  | _, Excluded (OI64 n) => n' ← add_i64 n 1; Ok (Included (OI64 n'))
  | PgBuiltIn (DATEOID | DATERANGEOID), Excluded (OStr date_string) =>
      nanos ← pg_date typeoid date_string;
      nanos ← add_i64 nanos one_day_nanos;
      Ok (Included (ODate nanos))
  | PgBuiltIn (TIMESTAMPOID | TSRANGEOID | TIMESTAMPTZOID | TSTZRANGEOID), Excluded (OStr date_string) =>
      datetime ← pg_date typeoid date_string; Ok (Excluded (ODate datetime))
  | PgBuiltIn (DATEOID | DATERANGEOID | TIMESTAMPOID | TSRANGEOID | TIMESTAMPTZOID | TSTZRANGEOID),
    Included (OStr date_string) =>
      datetime ← pg_date typeoid date_string; Ok (Included (ODate datetime))
  | _, _ => Ok lower_bound
  end.

Definition check_upper_bound (typeoid : PgOid) (upper_bound : Bound OwnedValue) : outcome (Bound OwnedValue) :=
  match typeoid, upper_bound with
  | _, Included (OU64 n) => n' ← add_u64 n 1; Ok (Excluded (OU64 n'))
  | _, Included (OI64 n) => n' ← add_i64 n 1; Ok (Excluded (OI64 n'))
  | PgBuiltIn (DATEOID | DATERANGEOID), Included (OStr date_string) =>
      nanos ← pg_date typeoid date_string;
      nanos ← add_i64 nanos one_day_nanos;
      Ok (Excluded (ODate nanos))
  | PgBuiltIn (TIMESTAMPOID | TSRANGEOID | TIMESTAMPTZOID | TSTZRANGEOID), Included (OStr date_string) =>
      datetime ← pg_date typeoid date_string; Ok (Included (ODate datetime))
  | PgBuiltIn (DATEOID | DATERANGEOID | TIMESTAMPOID | TSRANGEOID | TIMESTAMPTZOID | TSTZRANGEOID),
    Excluded (OStr date_string) =>
      datetime ← pg_date typeoid date_string; Ok (Excluded (ODate datetime))
  | _, _ => Ok upper_bound
  end.

Definition check_range_bounds (typeoid : PgOid) (lower_bound upper_bound : Bound OwnedValue)
    : outcome (Bound OwnedValue * Bound OwnedValue) :=
  lower_bound ← check_lower_bound typeoid lower_bound;
  upper_bound ← check_upper_bound typeoid upper_bound;
  Ok (lower_bound, upper_bound).
End bounds.

(** ** Tantivy's queries, as the calls that make them *)

Inductive Occur := Must | Should | MustNot.

(** the settings of [MoreLikeThisQuery::builder()] *)
Record MoreLikeThisQueryBuilder `{TantivyTypes} := {
  with_min_doc_frequency : option Z;
  with_max_doc_frequency : option Z;
  with_min_term_frequency : option Z;
  with_max_query_terms : option Z;
  with_min_word_length : option Z;
  with_max_word_length : option Z;
  with_boost_factor : option F32;
  with_stop_words : option (list string)
}.

Inductive Query `{RustF64} `{TantivyTypes} :=
  | AllQuery
  | EmptyQuery
  | BooleanQuery (subqueries : list (Occur * Query))
  | BoostQuery (query : Query) (factor : F32)
  | ConstScoreQuery (query : Query) (score : F32)
  | DisjunctionMaxQuery (disjuncts : list Query) (tie_breaker : option F32)
  | ExistsQuery (field : string) (json_subpaths : bool)
  | FastFieldRangeQuery (lower_bound upper_bound : Bound Term)
  | FuzzyTermQuery (prefix : bool) (term : Term) (distance : Z) (transposition_cost_one : bool)
  | MoreLikeThisDocument (builder : MoreLikeThisQueryBuilder) (address : DocAddress)
  | MoreLikeThisFields (builder : MoreLikeThisQueryBuilder) (fields : list (Field * list OwnedValue))
  | PhrasePrefixQuery (terms : list Term) (max_expansions : option Z)
  | PhraseQuery (terms : list Term) (slop : option Z)
  | RangeQuery (lower_bound upper_bound : Bound Term)
  | RegexQuery (pattern : string) (field : Field)
  | RegexPhraseQuery (field : Field) (regexes : list string) (slop max_expansions : option Z)
  | TermQuery (term : Term) (basic : bool)
  | TermSetQuery (terms : list Term)
  | Parsed (query : ParsedQuery).

(** ** Range fields ([query/range.rs]) *)

Definition EMPTY_KEY : string := "empty".
Definition LOWER_KEY : string := "lower".
Definition UPPER_KEY : string := "upper".
Definition LOWER_INCLUSIVE_KEY : string := "lower_inclusive".
Definition UPPER_INCLUSIVE_KEY : string := "upper_inclusive".
Definition LOWER_UNBOUNDED_KEY : string := "lower_unbounded".
Definition UPPER_UNBOUNDED_KEY : string := "upper_unbounded".
Definition EXPAND_DOTS : bool := false.

Record RangeField := { rf_field : Field; rf_is_datetime : bool }.
Inductive Comparison := LessThan | LessThanOrEqual | GreaterThan | GreaterThanOrEqual.

(** what [RegexQuery::from_pattern] makes of a pattern: a query or an error *)
Class TantivyRegex := {
  regex_parses : string → bool;
  regex_any : regex_parses ".*" = true
}.

Section range_field.
Context `{RustF64} `{TantivyTypes} `{TantivyText} `{TantivyRegex}.
Implicit Types (rf : RangeField).

Definition exists_ rf : outcome Query :=
  if regex_parses ".*" then Ok (RegexQuery ".*" (rf_field rf)) else Err "regex".

Definition as_range_term rf (value : OwnedValue) (path : option string) : outcome Term :=
  value_to_json_term (rf_field rf) value path EXPAND_DOTS (rf_is_datetime rf).

Definition empty_ rf (val : bool) : outcome Query :=
  term ← as_range_term rf (OBool val) (Some EMPTY_KEY); Ok (TermQuery term false).
Definition upper_bound_inclusive rf (val : bool) : outcome Query :=
  term ← as_range_term rf (OBool val) (Some UPPER_INCLUSIVE_KEY); Ok (TermQuery term false).
Definition lower_bound_inclusive rf (val : bool) : outcome Query :=
  term ← as_range_term rf (OBool val) (Some LOWER_INCLUSIVE_KEY); Ok (TermQuery term false).
Definition upper_bound_unbounded rf (val : bool) : outcome Query :=
  term ← as_range_term rf (OBool val) (Some UPPER_UNBOUNDED_KEY); Ok (TermQuery term false).
Definition lower_bound_unbounded rf (val : bool) : outcome Query :=
  term ← as_range_term rf (OBool val) (Some LOWER_UNBOUNDED_KEY); Ok (TermQuery term false).

Definition compare_lower_bound rf (owned : OwnedValue) (comparison : Comparison) : outcome Query :=
  match comparison with
  | LessThan =>
      t ← as_range_term rf owned (Some LOWER_KEY); Ok (RangeQuery (Excluded t) Unbounded)
  | LessThanOrEqual =>
      t ← as_range_term rf owned (Some LOWER_KEY); Ok (RangeQuery (Included t) Unbounded)
  | GreaterThan =>
      t ← as_range_term rf owned (Some LOWER_KEY); Ok (RangeQuery Unbounded (Excluded t))
  | GreaterThanOrEqual =>
      t ← as_range_term rf owned (Some LOWER_KEY); Ok (RangeQuery Unbounded (Included t))
  end.
Definition compare_upper_bound rf (owned : OwnedValue) (comparison : Comparison) : outcome Query :=
  match comparison with
  | LessThan =>
      t ← as_range_term rf owned (Some UPPER_KEY); Ok (RangeQuery (Excluded t) Unbounded)
  | LessThanOrEqual =>
      t ← as_range_term rf owned (Some UPPER_KEY); Ok (RangeQuery (Included t) Unbounded)
  | GreaterThan =>
      t ← as_range_term rf owned (Some UPPER_KEY); Ok (RangeQuery Unbounded (Excluded t))
  | GreaterThanOrEqual =>
      t ← as_range_term rf owned (Some UPPER_KEY); Ok (RangeQuery Unbounded (Included t))
  end.
End range_field.

(** ** The conversions of ranges

    One definition per stage of each arm: the query a bound becomes, then the arm.  *)

Section ranges.
Context `{RustF64} `{TantivyTypes} `{TantivyText} `{TantivyRegex} `{RustBuild} `{Chrono} `{!PgDates}
  `{AsFieldType}.
Implicit Types (rf : RangeField) (lower_bound upper_bound : Bound OwnedValue).
Notation Clauses := (list (Occur * Query)).

(** [should (must a b) (must c d)] *)
Definition either (a b c d : Query) : Query :=
  BooleanQuery [(Should, BooleanQuery [(Must, a); (Must, b)]);
                (Should, BooleanQuery [(Must, c); (Must, d)])].

(** the arm [RangeContains] *)
Definition contains_lower rf lower_bound : outcome Clauses :=
  match lower_bound with
  | Included lower =>
      q ← compare_lower_bound rf lower LessThanOrEqual;
      Ok [(Must, BooleanQuery [(Must, q)])]
  | Excluded lower =>
      a ← compare_lower_bound rf lower LessThan;
      b ← lower_bound_inclusive rf true;
      c ← compare_lower_bound rf lower LessThanOrEqual;
      d ← lower_bound_inclusive rf false;
      Ok [(Must, either a b c d)]
  | Unbounded => q ← exists_ rf; Ok [(Should, q)]
  end.
Definition contains_upper rf upper_bound : outcome Clauses :=
  match upper_bound with
  | Included upper =>
      q ← compare_upper_bound rf upper GreaterThanOrEqual;
      Ok [(Must, BooleanQuery [(Must, q)])]
  | Excluded upper =>
      a ← compare_upper_bound rf upper GreaterThan;
      b ← upper_bound_inclusive rf true;
      c ← compare_upper_bound rf upper GreaterThanOrEqual;
      d ← upper_bound_inclusive rf false;
      Ok [(Must, either a b c d)]
  | Unbounded => q ← exists_ rf; Ok [(Should, q)]
  end.
Definition range_contains rf lower_bound upper_bound : outcome Query :=
  satisfies_lower_bound ← contains_lower rf lower_bound;
  satisfies_upper_bound ← contains_upper rf upper_bound;
  e1 ← empty_ rf true;
  e2 ← empty_ rf true;
  Ok (BooleanQuery
    [(Must, BooleanQuery [(Should, e1); (Should, BooleanQuery satisfies_lower_bound)]);
     (Must, BooleanQuery [(Should, e2); (Should, BooleanQuery satisfies_upper_bound)])]).

(** the arm [RangeIntersects] *)
Definition intersects_lower rf lower_bound : outcome Clauses :=
  match lower_bound with
  | Excluded lower =>
      q ← compare_upper_bound rf lower LessThan;
      Ok [(Must, BooleanQuery [(Must, q)])]
  | Included lower =>
      a ← compare_upper_bound rf lower LessThanOrEqual;
      b ← upper_bound_inclusive rf true;
      c ← compare_upper_bound rf lower LessThan;
      d ← upper_bound_inclusive rf false;
      Ok [(Must, either a b c d)]
  | Unbounded => q ← exists_ rf; Ok [(Should, q)]
  end.
Definition intersects_upper rf upper_bound : outcome Clauses :=
  match upper_bound with
  | Excluded upper =>
      q ← compare_lower_bound rf upper GreaterThan;
      Ok [(Must, BooleanQuery [(Must, q)])]
  | Included upper =>
      a ← compare_lower_bound rf upper GreaterThanOrEqual;
      b ← lower_bound_inclusive rf true;
      c ← compare_lower_bound rf upper GreaterThan;
      d ← lower_bound_inclusive rf false;
      Ok [(Must, either a b c d)]
  | Unbounded => q ← exists_ rf; Ok [(Should, q)]
  end.
(** [\[x, x)] *)
Definition empty_bounds lower_bound upper_bound : bool :=
  match lower_bound, upper_bound with
  | Included lower, Excluded upper => owned_eq lower upper
  | _, _ => false
  end.
Definition range_intersects rf lower_bound upper_bound : outcome Query :=
  satisfies_lower_bound ← intersects_lower rf lower_bound;
  satisfies_upper_bound ← intersects_upper rf upper_bound;
  u ← upper_bound_unbounded rf true;
  l ← lower_bound_unbounded rf true;
  if empty_bounds lower_bound upper_bound then Ok EmptyQuery
  else
    e ← empty_ rf false;
    Ok (BooleanQuery
      [(Must, BooleanQuery [(Should, u); (Should, BooleanQuery satisfies_lower_bound)]);
       (Must, BooleanQuery [(Should, l); (Should, BooleanQuery satisfies_upper_bound)]);
       (Must, e)]).

(** the arm [RangeTerm] *)
Definition range_term rf (value : OwnedValue) : outcome Query :=
  l ← lower_bound_unbounded rf true;
  a ← lower_bound_inclusive rf true;
  b ← compare_lower_bound rf value GreaterThanOrEqual;
  c ← lower_bound_inclusive rf false;
  d ← compare_lower_bound rf value GreaterThan;
  u ← upper_bound_unbounded rf true;
  a' ← upper_bound_inclusive rf true;
  b' ← compare_upper_bound rf value LessThanOrEqual;
  c' ← upper_bound_inclusive rf false;
  d' ← compare_upper_bound rf value LessThan;
  Ok (BooleanQuery
    [(Must, BooleanQuery [(Should, l); (Should, either a b c d)]);
     (Must, BooleanQuery [(Should, u); (Should, either a' b' c' d')])]).

(** the arm [RangeWithin] *)
Definition within_lower rf lower_bound : outcome Clauses :=
  match lower_bound with
  | Excluded lower =>
      q ← compare_lower_bound rf lower GreaterThanOrEqual;
      Ok [(Must, BooleanQuery [(Must, q)])]
  | Included lower =>
      a ← compare_lower_bound rf lower GreaterThan;
      b ← lower_bound_inclusive rf false;
      c ← compare_lower_bound rf lower GreaterThanOrEqual;
      d ← lower_bound_inclusive rf true;
      Ok [(Must, either a b c d)]
  | Unbounded => Ok []
  end.
Definition within_upper rf upper_bound : outcome Clauses :=
  match upper_bound with
  | Excluded upper =>
      q ← compare_upper_bound rf upper LessThanOrEqual;
      Ok [(Must, BooleanQuery [(Must, q)])]
  | Included upper =>
      a ← compare_upper_bound rf upper LessThan;
      b ← upper_bound_inclusive rf false;
      c ← compare_upper_bound rf upper LessThanOrEqual;
      d ← upper_bound_inclusive rf true;
      Ok [(Must, either a b c d)]
  | Unbounded => Ok []
  end.
Definition range_within rf lower_bound upper_bound : outcome Query :=
  satisfies_lower_bound ← within_lower rf lower_bound;
  satisfies_upper_bound ← within_upper rf upper_bound;
  l ← lower_bound_unbounded rf true;
  u ← upper_bound_unbounded rf true;
  if empty_bounds lower_bound upper_bound then exists_ rf
  else
    Ok (BooleanQuery
      [(Must, BooleanQuery [(Should, l); (Should, BooleanQuery satisfies_lower_bound)]);
       (Must, BooleanQuery [(Should, u); (Should, BooleanQuery satisfies_upper_bound)])]).

(** what the arms of ranges begin with: the field's type, the bounds and the field *)
Definition range_arm (field : string) lower_bound upper_bound (is_datetime : bool)
    (k : RangeField → Bound OwnedValue → Bound OwnedValue → outcome Query) : outcome Query :=
  match as_field_type field with
  | None => Err ("field '" +:+ field +:+ "' is not part of the pg_search index")%string
  | Some (_, typeoid, _) =>
      let is_datetime := is_datetime_typeoid typeoid || is_datetime in
      '(lower_bound, upper_bound) ← check_range_bounds typeoid lower_bound upper_bound;
      match as_json_object field with
      | None => Err ("wrong field type for field: " +:+ field)%string
      | Some f => k {| rf_field := f; rf_is_datetime := is_datetime |} lower_bound upper_bound
      end
  end.
Definition range_term_arm (field : string) (value : OwnedValue) (is_datetime : bool) : outcome Query :=
  match as_json_object field with
  | None => Err ("wrong field type for field: " +:+ field)%string
  | Some f => range_term {| rf_field := f; rf_is_datetime := is_datetime |} value
  end.

(** the arm [Range] *)
Definition bound_term (b : Bound OwnedValue) (term : OwnedValue → outcome Term) : outcome (Bound Term) :=
  match b with
  | Included value => t ← term value; Ok (Included t)
  | Excluded value => t ← term value; Ok (Excluded t)
  | Unbounded => Ok Unbounded
  end.
Definition range_query (field : string) lower_bound upper_bound (is_datetime : bool) : outcome Query :=
  '(field_name, path) ← split_field_and_path field;
  match as_field_type field_name with
  | None => Err ("wrong field type for field: " +:+ field_name)%string
  | Some (field_type, typeoid, field) =>
      let is_datetime := is_datetime_typeoid typeoid || is_datetime in
      '(lower_bound, upper_bound) ← check_range_bounds typeoid lower_bound upper_bound;
      lower_bound ← bound_term lower_bound (λ v, value_to_term field v field_type path is_datetime);
      upper_bound ← bound_term upper_bound (λ v, value_to_term field v field_type path is_datetime);
      Ok (RangeQuery lower_bound upper_bound)
  end.

(** the arm [FastFieldRangeWeight] *)
Definition map_bound {A B} (f : A → B) (b : Bound A) : Bound B :=
  match b with
  | Excluded v => Excluded (f v)
  | Included v => Included (f v)
  | Unbounded => Unbounded
  end.
Definition fast_field_range (field : string) (lower_bound upper_bound : Bound Z) : outcome Query :=
  match (match as_u64 field with Some f => Some f | None => as_i64 field end) with
  | None => Err ("wrong field type for field: " +:+ field)%string
  | Some f =>
      Ok (FastFieldRangeQuery (map_bound (λ v, FieldTerm f (VU64 v)) lower_bound)
            (map_bound (λ v, FieldTerm f (VU64 v)) upper_bound))
  end.
End ranges.

(** ** The user's queries *)

Module Input.
Record TermInput `{RustF64} `{TantivyTypes} := {
  field : string; value : OwnedValue; is_datetime : bool
}.

Inductive SearchQueryInput `{RustF64} `{TantivyTypes} :=
  | All
  | Boolean (must should must_not : list SearchQueryInput)
  | Boost (query : SearchQueryInput) (factor : F32)
  | ConstScore (query : SearchQueryInput) (score : F32)
  | DisjunctionMax (disjuncts : list SearchQueryInput) (tie_breaker : option F32)
  | Empty
  | Exists (field : string)
  | FastFieldRangeWeight (field : string) (lower_bound upper_bound : Bound Z)
  | FuzzyTerm (field value : string) (distance : option Z) (transposition_cost_one prefix : option bool)
  | FuzzyPhrase (field value : string) (distance : option Z)
      (transposition_cost_one prefix match_all_terms : option bool)
  | MoreLikeThis (min_doc_frequency max_doc_frequency min_term_frequency max_query_terms
      min_word_length max_word_length : option Z) (boost_factor : option F32)
      (stop_words : option (list string)) (document_fields : option (list (string * OwnedValue)))
      (document_id : option OwnedValue)
  | Parse (query_string : string) (lenient conjunction_mode : option bool)
  | ParseWithField (field query_string : string) (lenient conjunction_mode : option bool)
  | Phrase (field : string) (phrases : list string) (slop : option Z)
  | PhrasePrefix (field : string) (phrases : list string) (max_expansions : option Z)
  | Range (field : string) (lower_bound upper_bound : Bound OwnedValue) (is_datetime : bool)
  | RangeContains (field : string) (lower_bound upper_bound : Bound OwnedValue) (is_datetime : bool)
  | RangeIntersects (field : string) (lower_bound upper_bound : Bound OwnedValue) (is_datetime : bool)
  | RangeTerm (field : string) (value : OwnedValue) (is_datetime : bool)
  | RangeWithin (field : string) (lower_bound upper_bound : Bound OwnedValue) (is_datetime : bool)
  | Regex (field pattern : string)
  | RegexPhrase (field : string) (regexes : list string) (slop max_expansions : option Z)
  | Term (field : option string) (value : OwnedValue) (is_datetime : bool)
  | TermSet (terms : list TermInput)
  | WithIndex (oid : Z) (query : SearchQueryInput).
End Input.
Notation SearchQueryInput := Input.SearchQueryInput.

(** [TermInput::try_from] *)
Definition TermInput_try_from `{RustF64} `{TantivyTypes} (query : SearchQueryInput) : outcome Input.TermInput :=
  match query with
  | Input.Term field value is_datetime =>
      field ← expect_ok field "field string must not be empty";
      Ok {| Input.field := field; Input.value := value; Input.is_datetime := is_datetime |}
  | _ => Err "Only Term variants can be converted to TermInput"
  end.

Fixpoint contains_more_like_this `{RustF64} `{TantivyTypes} (query : SearchQueryInput) : bool :=
  match query with
  | Input.Boolean must should must_not =>
      existsb contains_more_like_this must || existsb contains_more_like_this should
      || existsb contains_more_like_this must_not
  | Input.Boost query _ => contains_more_like_this query
  | Input.ConstScore query _ => contains_more_like_this query
  | Input.DisjunctionMax disjuncts _ => existsb contains_more_like_this disjuncts
  | Input.WithIndex _ query => contains_more_like_this query
  | Input.MoreLikeThis _ _ _ _ _ _ _ _ _ _ => true
  | _ => false
  end.

(** ** The conversion *)

(** [QueryParser], [Searcher], and the checks of the queries' constructors *)
Class TantivyParser `{RustF64} `{TantivyTypes} := {
  QueryParser : Type;
  set_conjunction_by_default : QueryParser → QueryParser;
  parse_query : QueryParser → string → option ParsedQuery;
  parse_query_lenient : QueryParser → string → ParsedQuery;
  (** [tokenizer_for_field] and the texts of its token stream *)
  tokenize : Field → string → option (list string);
  (** what [PhraseQuery::new], [PhrasePrefixQuery::new] and [RegexPhraseQuery::new] assert *)
  phrase_terms_ok : nat → bool;
  phrase_prefix_terms_ok : nat → bool;
  regex_phrase_ok : nat → bool;
  (** the order of a [HashMap]'s entries *)
  fields_iter : gmap Field (list OwnedValue) → list (Field * list OwnedValue)
}.
(** [searcher.search(&query, &DocSetCollector)] *)
Class TantivySearcher `{RustF64} `{TantivyTypes} := {
  search_docs : Query → option (list DocAddress)
}.

Section leaves.
Context `{RustF64} `{TantivyTypes} `{TantivyText} `{TantivyRegex} `{AsFieldType}
  `{!TantivyParser} `{!TantivySearcher}.

(** [set_occur l] for a whole list of conversions *)
Definition traverse {S A B} (f : A → M S B) : list A → M S (list B) :=
  fix go l :=
    match l with
    | [] => mret []
    | x :: l => y ← f x; ys ← go l; mret (y :: ys)
    end.
Fixpoint traverse_ok {A B} (f : A → outcome B) (l : list A) : outcome (list B) :=
  match l with
  | [] => Ok []
  | x :: l => y ← f x; ys ← traverse_ok f l; Ok (y :: ys)
  end.

Definition non_indexed {A} (field : string) : outcome A :=
  Err ("field '" +:+ field +:+ "' is not part of the pg_search index")%string.
Definition wrong_field_type {A} (field : string) : outcome A :=
  Err ("wrong field type for field: " +:+ field)%string.

(** the field, its type and the path of a name like [field.path] *)
Definition indexed_field (field : string) : outcome (FieldType * PgOid * Field * option string) :=
  '(name, path) ← split_field_and_path field;
  match as_field_type name with
  | Some (field_type, typeoid, f) => Ok (field_type, typeoid, f, path)
  | None => non_indexed name
  end.

Definition fuzzy_term (field value : string) (distance : option Z)
    (transposition_cost_one prefix : option bool) : outcome Query :=
  '(field_type, _, f, path) ← indexed_field field;
  term ← value_to_term f (OStr value) field_type path false;
  Ok (FuzzyTermQuery (default false prefix) term (default 2 distance) (default true transposition_cost_one)).

Definition fuzzy_phrase (field value : string) (distance : option Z)
    (transposition_cost_one prefix match_all_terms : option bool) : outcome Query :=
  '(field_type, _, f, path) ← indexed_field field;
  match tokenize f value with
  | None => Err "tokenizer_for_field"
  | Some tokens =>
      terms ← traverse_ok (λ token,
        term ← value_to_term f (OStr token) field_type path false;
        Ok (if default false match_all_terms then Must else Should,
            FuzzyTermQuery (default false prefix) term (default 2 distance)
              (default true transposition_cost_one))) tokens;
      Ok (BooleanQuery terms)
  end.

(** the values of each field *)
Fixpoint fields_map (doc_fields : list (string * OwnedValue)) (m : gmap Field (list OwnedValue))
    : outcome (gmap Field (list OwnedValue)) :=
  match doc_fields with
  | [] => Ok m
  | (field_name, value) :: doc_fields =>
      if is_field_type field_name value then
        match as_field_type field_name with
        | Some (_, _, f) => fields_map doc_fields (<[f := default [] (m !! f) ++ [value]]> m)
        | None => wrong_field_type field_name
        end
      else wrong_field_type field_name
  end.

Definition more_like_this (builder : MoreLikeThisQueryBuilder)
    (document_fields : option (list (string * OwnedValue))) (document_id : option OwnedValue)
    : outcome Query :=
  match document_id, document_fields with
  | Some key_value, None =>
      let '(field_type, _, f) := key_field in
      term ← value_to_term f key_value field_type None false;
      match search_docs (TermQuery term true) with
      | Some addresses => Ok (DisjunctionMaxQuery (MoreLikeThisDocument builder <$> addresses) None)
      | None => Err "search"
      end
  | None, Some doc_fields =>
      m ← fields_map doc_fields ∅;
      Ok (MoreLikeThisFields builder (fields_iter m))
  | Some _, Some _ => Panic "more_like_this must be called with only one of document_id or document_fields"
  | None, None => Panic "more_like_this must be called with either document_id or document_fields"
  end.

(** [unwrap] *)
Definition unwrap_res {A} (o : outcome A) : outcome A :=
  match o with Err e => Panic e | _ => o end.

Definition phrase_terms (field : string) (phrases : list string) : outcome (list Term) :=
  '(field_type, _, f, path) ← indexed_field field;
  traverse_ok (λ phrase, unwrap_res (value_to_term f (OStr phrase) field_type path false)) phrases.
Definition phrase_prefix (field : string) (phrases : list string) (max_expansions : option Z)
    : outcome Query :=
  terms ← phrase_terms field phrases;
  if phrase_prefix_terms_ok (length terms) then Ok (PhrasePrefixQuery terms max_expansions)
  else Panic "PhrasePrefixQuery::new".
Definition phrase (field : string) (phrases : list string) (slop : option Z) : outcome Query :=
  terms ← phrase_terms field phrases;
  if phrase_terms_ok (length terms) then Ok (PhraseQuery terms slop) else Panic "PhraseQuery::new".

Definition parse (query_string : string) (lenient conjunction_mode : option bool) : M QueryParser Query :=
  _ ← match conjunction_mode with
      | Some true => modify set_conjunction_by_default
      | _ => mret tt
      end;
  parser ← gets (λ parser, parser);
  match lenient with
  | Some true => mret (Parsed (parse_query_lenient parser query_string))
  | _ =>
      match parse_query parser query_string with
      | Some query => mret (Parsed query)
      | None => fail "could not parse query string"
      end
  end.

Definition regex (field pattern : string) : outcome Query :=
  match as_str field with
  | None => wrong_field_type field
  | Some f => if regex_parses pattern then Ok (RegexQuery pattern f) else Err "could not build regex"
  end.
Definition regex_phrase (field : string) (regexes : list string) (slop max_expansions : option Z)
    : outcome Query :=
  '(_, _, f, _) ← indexed_field field;
  if regex_phrase_ok (length regexes) then Ok (RegexPhraseQuery f regexes slop max_expansions)
  else Panic "RegexPhraseQuery::new".

(** the terms of the fields that take the value; a panic of [value_to_term] is not
    caught by [if let Ok] *)
Fixpoint terms_of_all (all_fields : list (FieldType * PgOid * Field)) (value : OwnedValue)
    (is_datetime : bool) : outcome (list Term) :=
  match all_fields with
  | [] => Ok []
  | (field_type, _, f) :: all_fields =>
      match value_to_term f value field_type None is_datetime with
      | Ok term => terms ← terms_of_all all_fields value is_datetime; Ok (term :: terms)
      | Err _ => terms_of_all all_fields value is_datetime
      | Panic e => Panic e
      | NoFuel => NoFuel
      end
  end.
Definition term (field : option string) (value : OwnedValue) (is_datetime : bool) : outcome Query :=
  match field with
  | Some field =>
      '(field_type, typeoid, f, path) ← indexed_field field;
      let is_datetime := is_datetime_typeoid typeoid || is_datetime in
      t ← value_to_term f value field_type path is_datetime;
      Ok (TermQuery t false)
  | None =>
      terms ← terms_of_all fields value is_datetime;
      Ok (TermSetQuery terms)
  end.

Definition term_set (inputs : list Input.TermInput) : outcome Query :=
  terms ← traverse_ok (λ input,
    let field := Input.field input in
    '(_, path) ← split_field_and_path field;
    match as_field_type field with
    | None => non_indexed field
    | Some (field_type, typeoid, f) =>
        let is_datetime := is_datetime_typeoid typeoid || Input.is_datetime input in
        value_to_term f (Input.value input) field_type path is_datetime
    end) inputs;
  Ok (TermSetQuery terms).
End leaves.

Section convert.
Context `{RustF64} `{TantivyTypes} `{TantivyText} `{TantivyRegex} `{RustBuild} `{Chrono} `{!PgDates}
  `{AsFieldType} `{!TantivyParser} `{!TantivySearcher}.

Fixpoint into_tantivy_query (self : SearchQueryInput) : M QueryParser Query :=
  match self with
  | Input.All => mret AllQuery
  | Input.Boolean must should must_not =>
      a ← traverse into_tantivy_query must;
      b ← traverse into_tantivy_query should;
      c ← traverse into_tantivy_query must_not;
      mret (BooleanQuery ((pair Must <$> a) ++ (pair Should <$> b) ++ (pair MustNot <$> c)))
  | Input.Boost query factor => q ← into_tantivy_query query; mret (BoostQuery q factor)
  | Input.ConstScore query score => q ← into_tantivy_query query; mret (ConstScoreQuery q score)
  | Input.DisjunctionMax disjuncts tie_breaker =>
      l ← traverse into_tantivy_query disjuncts; mret (DisjunctionMaxQuery l tie_breaker)
  | Input.Empty => mret EmptyQuery
  | Input.Exists field => mret (ExistsQuery field false)
  | Input.FastFieldRangeWeight field lower_bound upper_bound =>
      lift (fast_field_range field lower_bound upper_bound)
  | Input.FuzzyTerm field value distance transposition_cost_one prefix =>
      lift (fuzzy_term field value distance transposition_cost_one prefix)
  | Input.FuzzyPhrase field value distance transposition_cost_one prefix match_all_terms =>
      lift (fuzzy_phrase field value distance transposition_cost_one prefix match_all_terms)
  | Input.MoreLikeThis min_doc_frequency max_doc_frequency min_term_frequency max_query_terms
      min_word_length max_word_length boost_factor stop_words document_fields document_id =>
      lift (more_like_this
        {| with_min_doc_frequency := min_doc_frequency; with_max_doc_frequency := max_doc_frequency;
           with_min_term_frequency := min_term_frequency; with_max_query_terms := max_query_terms;
           with_min_word_length := min_word_length; with_max_word_length := max_word_length;
           with_boost_factor := boost_factor; with_stop_words := stop_words |}
        document_fields document_id)
  | Input.PhrasePrefix field phrases max_expansions => lift (phrase_prefix field phrases max_expansions)
  | Input.Parse query_string lenient conjunction_mode => parse query_string lenient conjunction_mode
  | Input.ParseWithField field query_string lenient conjunction_mode =>
      parse (field +:+ ":(" +:+ query_string +:+ ")")%string lenient conjunction_mode
  | Input.Phrase field phrases slop => lift (phrase field phrases slop)
  | Input.Range field lower_bound upper_bound is_datetime =>
      lift (range_query field lower_bound upper_bound is_datetime)
  | Input.RangeContains field lower_bound upper_bound is_datetime =>
      lift (range_arm field lower_bound upper_bound is_datetime range_contains)
  | Input.RangeIntersects field lower_bound upper_bound is_datetime =>
      lift (range_arm field lower_bound upper_bound is_datetime range_intersects)
  | Input.RangeTerm field value is_datetime => lift (range_term_arm field value is_datetime)
  | Input.RangeWithin field lower_bound upper_bound is_datetime =>
      lift (range_arm field lower_bound upper_bound is_datetime range_within)
  | Input.Regex field pattern => lift (regex field pattern)
  | Input.RegexPhrase field regexes slop max_expansions =>
      lift (regex_phrase field regexes slop max_expansions)
  | Input.Term field value is_datetime => lift (term field value is_datetime)
  | Input.TermSet terms => lift (term_set terms)
  | Input.WithIndex _ query => into_tantivy_query query
  end.
End convert.

(** ** Induction on queries *)

Definition is_leaf `{RustF64} `{TantivyTypes} (q : SearchQueryInput) : bool :=
  match q with
  | Input.Boolean _ _ _ | Input.Boost _ _ | Input.ConstScore _ _ | Input.DisjunctionMax _ _
  | Input.WithIndex _ _ => false
  | _ => true
  end.

Section induction.
Context `{RustF64} `{TantivyTypes} (P : SearchQueryInput → Prop).
Hypothesis Hboolean : ∀ must should must_not,
  Forall P must → Forall P should → Forall P must_not → P (Input.Boolean must should must_not).
Hypothesis Hboost : ∀ q factor, P q → P (Input.Boost q factor).
Hypothesis Hconst : ∀ q score, P q → P (Input.ConstScore q score).
Hypothesis Hmax : ∀ disjuncts tie, Forall P disjuncts → P (Input.DisjunctionMax disjuncts tie).
Hypothesis Hindex : ∀ oid q, P q → P (Input.WithIndex oid q).
Hypothesis Hleaf : ∀ q, is_leaf q = true → P q.

Lemma input_ind : ∀ q, P q.
Proof.
  fix IH 1. assert (∀ l, (∀ q, q ∈ l → P q) → Forall P l) as _ by (intros; by apply Forall_forall).
  intros q. destruct q as [|must should must_not|q f|q s|l tie| | | | | | | | | | | | | | | | | | | |oid q];
    try by apply Hleaf.
  - apply Hboolean; [induction must|induction should|induction must_not]; constructor; auto.
  - apply Hboost, IH.
  - apply Hconst, IH.
  - apply Hmax. induction l; constructor; auto.
  - apply Hindex, IH.
Qed.
End induction.

(** ** What the conversion does to the parser *)

(** how many parts of the query ask for the conjunction mode *)
Fixpoint conjunctions `{RustF64} `{TantivyTypes} (q : SearchQueryInput) : nat :=
  match q with
  | Input.Boolean must should must_not =>
      foldr (λ q n, conjunctions q + n)%nat 0%nat must +
      (foldr (λ q n, conjunctions q + n)%nat 0%nat should +
       foldr (λ q n, conjunctions q + n)%nat 0%nat must_not)
  | Input.Boost q _ | Input.ConstScore q _ | Input.WithIndex _ q => conjunctions q
  | Input.DisjunctionMax l _ => foldr (λ q n, conjunctions q + n)%nat 0%nat l
  | Input.Parse _ _ (Some true) | Input.ParseWithField _ _ _ (Some true) => 1
  | _ => 0
  end.

Section parser.
Context `{RustF64} `{TantivyTypes} `{TantivyText} `{TantivyRegex} `{RustBuild} `{Chrono} `{!PgDates}
  `{AsFieldType} `{!TantivyParser}.
Implicit Types (p : QueryParser).

Lemma parse_inv s l c p (q : Query) p' :
  parse s l c p = Ok (q, p') → p' = match c with Some true => set_conjunction_by_default p | _ => p end.
Proof.
  unfold parse. set (p1 := match c with Some true => _ | _ => p end).
  rewrite (bind_ok _ _ p p1 tt) by (by destruct c as [[]|]).
  rewrite (bind_ok (gets _) _ p1 p1 p1) by done.
  destruct l as [[]|]; [by intros [= _ <-]| |];
    (destruct (parse_query p1 s); [by intros [= _ <-]|done]).
Qed.

Lemma traverse_parser `{!TantivySearcher} (l : list SearchQueryInput) :
  Forall (λ q, ∀ p (q' : Query) p', into_tantivy_query q p = Ok (q', p') →
            p' = Nat.iter (conjunctions q) set_conjunction_by_default p) l →
  ∀ p l' p', traverse into_tantivy_query l p = Ok (l', p') →
    p' = Nat.iter (foldr (λ q n, conjunctions q + n)%nat 0%nat l) set_conjunction_by_default p.
Proof.
  induction 1 as [|q l Hq _ IH]; intros p l' p'; [by intros [= _ <-]|].
  cbn [traverse foldr]. intros (q1 & p1 & Hq1 & Hrun)%bind_inv.
  apply bind_inv in Hrun as (l1 & p2 & Hl1 & Hrun). injection Hrun as _ <-.
  rewrite (IH _ _ _ Hl1), (Hq _ _ _ Hq1), Nat.add_comm. symmetry. apply Nat.iter_add.
Qed.

Lemma conversion_parser `{!TantivySearcher} (q : SearchQueryInput) p q' p' :
  into_tantivy_query q p = Ok (q', p') →
  p' = Nat.iter (conjunctions q) set_conjunction_by_default p.
Proof.
  revert q p q' p'. refine (input_ind _ _ _ _ _ _ _).
  - intros must should must_not Hm Hs Hn p q' p'. cbn [into_tantivy_query conjunctions].
    intros (a & p1 & Ha & Hrun)%bind_inv. apply bind_inv in Hrun as (b & p2 & Hb & Hrun).
    apply bind_inv in Hrun as (c & p3 & Hc & Hrun). injection Hrun as _ <-.
    rewrite (traverse_parser _ Hn _ _ _ Hc), (traverse_parser _ Hs _ _ _ Hb),
      (traverse_parser _ Hm _ _ _ Ha).
    rewrite <- !Nat.iter_add. f_equal. lia.
  - intros q f IH p q' p' (q1 & p1 & Hq & Hrun)%bind_inv. injection Hrun as _ <-. by eapply IH.
  - intros q f IH p q' p' (q1 & p1 & Hq & Hrun)%bind_inv. injection Hrun as _ <-. by eapply IH.
  - intros l t IH p q' p' (q1 & p1 & Hq & Hrun)%bind_inv. injection Hrun as _ <-.
    by eapply traverse_parser.
  - intros o q IH p q' p'. apply IH.
  - intros q Hl p q' p'. destruct q; try discriminate Hl; cbn [into_tantivy_query conjunctions];
      try (by intros [= _ <-]); try (by intros [-> _]%lift_inv); intros ->%parse_inv;
      by destruct conjunction_mode as [[]|].
Qed.
End parser.

(** ** Bounds of integers *)

Definition above (lo : Bound Z) (x : Z) : Prop :=
  match lo with Included a => a ≤ x | Excluded a => a < x | Unbounded => True end.
Definition below (hi : Bound Z) (x : Z) : Prop :=
  match hi with Included b => x ≤ b | Excluded b => x < b | Unbounded => True end.
Definition canon_lower (lo : Bound Z) : Bound Z :=
  match lo with Excluded a => Included (a + 1) | _ => lo end.
Definition canon_upper (hi : Bound Z) : Bound Z :=
  match hi with Included b => Excluded (b + 1) | _ => hi end.
(** the [n + 1] of a bound is an [i64] *)
Definition no_overflow (lo hi : Bound Z) : Prop :=
  (∀ a, lo = Excluded a → i64_min ≤ a < i64_max) ∧ (∀ b, hi = Included b → i64_min ≤ b < i64_max).

Section bound_theorems.
Context `{RustF64} `{TantivyTypes} `{TantivyText} `{RustBuild} `{Chrono} `{!PgDates}.

Lemma add_i64_ok a b : i64_min ≤ a + b ≤ i64_max → add_i64 a b = Ok (a + b).
Proof. unfold add_i64, add_width. zcmp. Qed.

Lemma check_ints typeoid lo hi :
  no_overflow lo hi →
  check_range_bounds typeoid (map_bound OI64 lo) (map_bound OI64 hi) =
    Ok (map_bound OI64 (canon_lower lo), map_bound OI64 (canon_upper hi)).
Proof.
  intros [Hlo Hhi]. unfold check_range_bounds.
  assert (check_lower_bound typeoid (map_bound OI64 lo) = Ok (map_bound OI64 (canon_lower lo))) as ->.
  { destruct lo as [a|a|]; cbn [map_bound canon_lower]; unfold check_lower_bound;
      [| |by destruct typeoid as [[]| |]].
    - by destruct typeoid as [[]| |].
    - specialize (Hlo a eq_refl). rewrite add_i64_ok by lia. by destruct typeoid as [[]| |]. }
  assert (check_upper_bound typeoid (map_bound OI64 hi) = Ok (map_bound OI64 (canon_upper hi))) as ->; [|done].
  destruct hi as [a|a|]; cbn [map_bound canon_upper]; unfold check_upper_bound;
    [| |by destruct typeoid as [[]| |]].
  - specialize (Hhi a eq_refl). rewrite add_i64_ok by lia. by destruct typeoid as [[]| |].
  - by destruct typeoid as [[]| |].
Qed.

Lemma canon_above lo x : above (canon_lower lo) x ↔ above lo x.
Proof. destruct lo; simpl; lia. Qed.
Lemma canon_below hi x : below (canon_upper hi) x ↔ below hi x.
Proof. destruct hi; simpl; lia. Qed.
End bound_theorems.

(** C35: check_range_bounds turns integer bounds into a half-open range with the same
    members; the upper bound i64::MAX, inclusive, overflows instead, into a panic in a
    checked build and into a bound of i64::MIN in a release build. *)
Theorem integer_bounds_canonical `{RustF64} `{TantivyTypes} `{TantivyText} `{RustBuild} `{Chrono} `{!PgDates}
    typeoid (lo hi : Bound Z) :
  (no_overflow lo hi →
   ∃ lo' hi', check_range_bounds typeoid (map_bound OI64 lo) (map_bound OI64 hi) =
       Ok (map_bound OI64 lo', map_bound OI64 hi') ∧
     (∀ x, (above lo' x ∧ below hi' x) ↔ (above lo x ∧ below hi x)) ∧
     (∀ a, lo' ≠ Excluded a) ∧ (∀ b, hi' ≠ Included b)) ∧
  (hi = Included i64_max → ¬ (∃ a, lo = Excluded a) →
   match check_range_bounds typeoid (map_bound OI64 lo) (map_bound OI64 hi) with
   | Ok (_, hi') => overflow_checks = false ∧ hi' = Excluded (OI64 i64_min)
   | Panic _ => overflow_checks = true
   | _ => False
   end).
Proof.
  split.
  - intros Hov. exists (canon_lower lo), (canon_upper hi). rewrite check_ints by done.
    split; [done|]. split; [|by destruct lo, hi].
    intros x. by rewrite canon_above, canon_below.
  - intros -> Hlo. unfold check_range_bounds.
    assert (check_lower_bound typeoid (map_bound OI64 lo) = Ok (map_bound OI64 lo)) as ->.
    { destruct lo as [a|a|]; [|exfalso; eauto|]; by destruct typeoid as [[]| |]. }
    assert (check_upper_bound typeoid (map_bound OI64 (Included i64_max)) =
            n' ← add_i64 i64_max 1; Ok (Excluded (OI64 n'))) as ->
      by (by destruct typeoid as [[]| |]).
    unfold add_i64, add_width. simpl. by destruct overflow_checks.
Qed.

(** ** Searching while converting *)

Section searchers.
Context `{RustF64} `{TantivyTypes} `{TantivyText} `{TantivyRegex} `{RustBuild} `{Chrono} `{!PgDates}
  `{AsFieldType} `{!TantivyParser}.

Lemma traverse_ext {S A B} (f g : A → M S B) l :
  Forall (λ x, ∀ s, f x s = g x s) l → ∀ s, traverse f l s = traverse g l s.
Proof.
  induction 1 as [|x l Hx _ IH]; intros s; [done|]. cbn [traverse].
  unfold mbind, M_bind. rewrite Hx. destruct (g x s) as [[y s']| | |]; [|done..]. by rewrite IH.
Qed.

Lemma existsb_Forall {A} (f : A → bool) (P : A → Prop) l :
  existsb f l = false → Forall (λ x, f x = false → P x) l → Forall P l.
Proof.
  intros Hf. induction 1 as [|x l Hx _ IH]; constructor; simpl in Hf;
    apply orb_false_iff in Hf as [? ?]; auto.
Qed.
End searchers.

(** contains_more_like_this is sound: when it says no, the conversion of the query
    gives the same result and the same parser with any searcher, so it runs no search.
    *)
Theorem only_more_like_this_searches `{RustF64} `{TantivyTypes} `{TantivyText} `{TantivyRegex} `{RustBuild}
    `{Chrono} `{!PgDates} `{AsFieldType} `{!TantivyParser} (q : SearchQueryInput)
    (s1 s2 : TantivySearcher) (p : QueryParser) :
  contains_more_like_this q = false →
  @into_tantivy_query _ _ _ _ _ _ _ _ _ s1 q p = @into_tantivy_query _ _ _ _ _ _ _ _ _ s2 q p.
Proof.
  revert q p. refine (input_ind _ _ _ _ _ _ _).
  - intros must should must_not Hm Hs Hn p Hc. cbn [contains_more_like_this] in Hc.
    apply orb_false_iff in Hc as [[Hcm Hcs]%orb_false_iff Hcn].
    assert (∀ l : list SearchQueryInput, existsb contains_more_like_this l = false →
      Forall (λ q, ∀ p, contains_more_like_this q = false →
        @into_tantivy_query _ _ _ _ _ _ _ _ _ s1 q p = @into_tantivy_query _ _ _ _ _ _ _ _ _ s2 q p) l →
      ∀ p, traverse (@into_tantivy_query _ _ _ _ _ _ _ _ _ s1) l p =
           traverse (@into_tantivy_query _ _ _ _ _ _ _ _ _ s2) l p) as Htr.
    { intros l Hl Hf. apply traverse_ext. eapply existsb_Forall; [exact Hl|].
      eapply Forall_impl; [exact Hf|]. auto. }
    cbn [into_tantivy_query]. unfold mbind, M_bind.
    rewrite (Htr _ Hcm Hm). destruct (traverse _ must p) as [[a p1]| | |]; [|done..].
    rewrite (Htr _ Hcs Hs). destruct (traverse _ should p1) as [[b p2]| | |]; [|done..].
    rewrite (Htr _ Hcn Hn). done.
  - intros q f IH p Hc. cbn [into_tantivy_query]. unfold mbind, M_bind. by rewrite IH.
  - intros q f IH p Hc. cbn [into_tantivy_query]. unfold mbind, M_bind. by rewrite IH.
  - intros l t Hl p Hc. cbn [contains_more_like_this] in Hc. cbn [into_tantivy_query].
    unfold mbind, M_bind. erewrite traverse_ext; [done|]. eapply existsb_Forall; [exact Hc|].
    eapply Forall_impl; [exact Hl|]. auto.
  - intros o q IH p Hc. by apply IH.
  - intros q Hl p Hc. by destruct q.
Qed.

(** The conjunction mode of one Parse clause is left set in the shared parser: a clause
    that follows it and did not ask for it is parsed in that mode, the same clause
    before it is not; after any successful conversion the parser has been switched once
    per clause that asked. *)
Theorem conjunction_mode_leaks `{RustF64} `{TantivyTypes} `{TantivyText} `{TantivyRegex} `{RustBuild}
    `{Chrono} `{!PgDates} `{AsFieldType} `{!TantivyParser} `{!TantivySearcher} (p : QueryParser) s1 s2 q1 q2 q2' :
  parse_query (set_conjunction_by_default p) s1 = Some q1 →
  parse_query p s2 = Some q2 → parse_query (set_conjunction_by_default p) s2 = Some q2' →
  let a := Input.Parse s1 None (Some true) in
  let b := Input.Parse s2 None None in
  (∃ p', into_tantivy_query (Input.Boolean [b; a] [] []) p =
     Ok (BooleanQuery [(Must, Parsed q2); (Must, Parsed q1)], p')) ∧
  (∃ p', into_tantivy_query (Input.Boolean [a; b] [] []) p =
     Ok (BooleanQuery [(Must, Parsed q1); (Must, Parsed q2')], p')) ∧
  (∀ q r p', into_tantivy_query q p = Ok (r, p') →
     p' = Nat.iter (conjunctions q) set_conjunction_by_default p).
Proof.
  intros Hq1 Hq2 Hq2' a b. split; [|split].
  - eexists. unfold a, b. cbn. unfold parse, mbind, M_bind, mret, M_ret, gets, modify. simpl.
    rewrite Hq2. simpl. rewrite Hq1. done.
  - eexists. unfold a, b. cbn. unfold parse, mbind, M_bind, mret, M_ret, gets, modify. simpl.
    rewrite Hq1. simpl. rewrite Hq2'. done.
  - intros q r p'. apply conversion_parser.
Qed.

(** A term on a path of a JSON field converts as a Term, but the same term inside a
    TermSet is rejected as not indexed, because TermSet looks the field up with its
    path. *)
Theorem term_set_ignores_path `{RustF64} `{TantivyTypes} `{TantivyText} `{TantivyRegex} `{RustBuild}
    `{Chrono} `{!PgDates} `{AsFieldType} `{!TantivyParser} `{!TantivySearcher} (p : QueryParser)
    (name first rest : string) f dots oid (text : string) :
  split_json_path name = [first; rest] →
  as_field_type first = Some (FJsonObject dots, oid, f) → is_datetime_typeoid oid = false →
  as_field_type name = None →
  let input := {| Input.field := name; Input.value := OStr text; Input.is_datetime := false |} in
  TermInput_try_from (Input.Term (Some name) (OStr text) false) = Ok input ∧
  into_tantivy_query (Input.Term (Some name) (OStr text) false) p =
    Ok (TermQuery (JsonTerm f rest dots (VStr text)) false, p) ∧
  into_tantivy_query (Input.TermSet [input]) p =
    Err ("field '" +:+ name +:+ "' is not part of the pg_search index")%string.
Proof.
  intros Hsplit Hfirst Hoid Hname input. split; [done|].
  assert (split_field_and_path name = Ok (first, Some rest)) as Hs.
  { unfold split_field_and_path. rewrite Hsplit. done. }
  split; cbn [into_tantivy_query]; unfold lift.
  - unfold term, indexed_field. rewrite Hs. simpl. rewrite Hfirst. simpl. rewrite Hoid. done.
  - unfold term_set, input. simpl. rewrite Hs. simpl. rewrite Hname. done.
Qed.

(** ** The types of terms *)

Section typed.
Context `{RustF64} `{TantivyTypes} `{TantivyText}.

(** a value of the type of a field; an unsigned number is one of a signed field if it
    fits, and a string is a date where dates are expected *)
Definition value_fits (ty : FieldType) (value : OwnedValue) (is_datetime : bool) : bool :=
  match ty, value with
  | FStr, OStr _ => negb is_datetime
  | FU64, OU64 _ | FI64, OI64 _ | FF64, OF64 _ | FBool, OBool _ | FDate, ODate _
  | FFacet, OFacet _ | FBytes, OBytes _ | FIpAddr, OIpAddr _ => true
  | FI64, OU64 n => n <=? i64_max
  | FDate, OStr _ => is_datetime
  | FJsonObject _, (OStr _ | OU64 _ | OI64 _ | OF64 _ | OBool _ | ODate _) => true
  | _, _ => false
  end.
Definition term_value_typed (ty : FieldType) (v : TermValue) : bool :=
  match ty, v with
  | FStr, VStr _ | FU64, VU64 _ | FI64, VI64 _ | FF64, VF64 _ | FBool, VBool _ | FDate, VDate _
  | FFacet, VFacet _ | FBytes, VBytes _ | FIpAddr, VIpAddr _ => true
  | FJsonObject _, (VStr _ | VU64 _ | VI64 _ | VF64 _ | VBool _ | VDate _) => true
  | _, _ => false
  end.
(** a term of a field of type [ty], at a path if it is a JSON field *)
Definition term_typed (field : Field) (path : option string) (ty : FieldType) (t : Term) : bool :=
  match ty, t with
  | FJsonObject dots, JsonTerm f p dots' v =>
      (f =? field) && bool_decide (p = default "" path) && Bool.eqb dots dots' && term_value_typed ty v
  | FJsonObject _, FieldTerm _ _ | _, JsonTerm _ _ _ _ => false
  | _, FieldTerm f v => (f =? field) && term_value_typed ty v
  end.
End typed.

(** C34: A value of the type of its field becomes a term of that field and that type -
    an unsigned number in a signed field if it fits, a string in a date field where
    dates are expected - and nothing fails but the parsing of a date; an unsigned number
    for a float field panics. *)
Theorem value_to_term_typed `{RustF64} `{TantivyTypes} `{TantivyText}
    (field : Field) (value : OwnedValue) (ty : FieldType) (path : option string) (is_datetime : bool) :
  value_fits ty value is_datetime = true →
  match value_to_term field value ty path is_datetime with
  | Ok t => term_typed field path ty t = true
  | Err _ => is_datetime = true ∧ ∃ text, value = OStr text ∧
      parse_from_str text "%Y-%m-%dT%H:%M:%SZ" = None ∧ parse_from_str text "%Y-%m-%dT%H:%M:%S%.fZ" = None
  | _ => False
  end ∧
  ∀ n, value_to_term field (OU64 n) FF64 path is_datetime = Panic "invalid field type for u64 value".
Proof.
  intros Hfit. split; [|by destruct is_datetime].
  destruct ty, value; try discriminate Hfit; destruct is_datetime; try discriminate Hfit; simpl in *;
    rewrite ?Z.eqb_refl, ?bool_decide_eq_true_2 by done; try done;
    unfold TantivyDateTime_try_from;
    repeat (case_match; simplify_eq/=); rewrite ?Z.eqb_refl, ?bool_decide_eq_true_2, ?eqb_reflx by done; eauto.
Qed.
