(* ===== verification/RangeQuery.v ===== *)
(** * RangeQuery: what the range queries match

    The documents' side of range fields ([schema/range.rs], [postgres/range.rs]: a
    Postgres range becomes a JSON object with its bounds and five flags) and the
    meaning of the queries that [Query.v] builds over them.  What Tantivy's queries
    match is the class [TantivySearch]; the specification is the one of Postgres'
    range operators: ranges as sets of integers for the discrete types, the order of
    bounds ([lower_le], [upper_le], [meets]) for the continuous ones. *)

From S2P Require Import Prelude PgUtils Query.

Open Scope Z_scope.

(** ** Range documents *)

Record TantivyRange (T : Type) := {
  tr_lower : option T;
  tr_upper : option T;
  tr_empty : bool;
  tr_lower_inclusive : bool;
  tr_upper_inclusive : bool;
  tr_lower_unbounded : bool;
  tr_upper_unbounded : bool
}.
Arguments tr_lower {T}. Arguments tr_upper {T}. Arguments tr_empty {T}.
Arguments tr_lower_inclusive {T}. Arguments tr_upper_inclusive {T}.
Arguments tr_lower_unbounded {T}. Arguments tr_upper_unbounded {T}.

Record TantivyRangeBuilder (T : Type) := {
  trb_lower : option T;
  trb_upper : option T;
  trb_empty : option bool;
  trb_lower_inclusive : option bool;
  trb_upper_inclusive : option bool;
  trb_lower_unbounded : option bool;
  trb_upper_unbounded : option bool
}.
Arguments trb_lower {T}. Arguments trb_upper {T}. Arguments trb_empty {T}.
Arguments trb_lower_inclusive {T}. Arguments trb_upper_inclusive {T}.
Arguments trb_lower_unbounded {T}. Arguments trb_upper_unbounded {T}.

Section builder.
Context {T : Type}.
Implicit Types (b : TantivyRangeBuilder T).

Definition trb_new : TantivyRangeBuilder T :=
  {| trb_lower := None; trb_upper := None; trb_empty := None; trb_lower_inclusive := None;
     trb_upper_inclusive := None; trb_lower_unbounded := None; trb_upper_unbounded := None |}.
Definition set_empty (empty : bool) b : TantivyRangeBuilder T :=
  {| trb_lower := trb_lower b; trb_upper := trb_upper b; trb_empty := Some empty;
     trb_lower_inclusive := trb_lower_inclusive b; trb_upper_inclusive := trb_upper_inclusive b;
     trb_lower_unbounded := trb_lower_unbounded b; trb_upper_unbounded := trb_upper_unbounded b |}.
Definition set_lower_value (lower : option T) b : TantivyRangeBuilder T :=
  {| trb_lower := lower; trb_upper := trb_upper b; trb_empty := trb_empty b;
     trb_lower_inclusive := trb_lower_inclusive b; trb_upper_inclusive := trb_upper_inclusive b;
     trb_lower_unbounded := trb_lower_unbounded b; trb_upper_unbounded := trb_upper_unbounded b |}.
Definition set_upper_value (upper : option T) b : TantivyRangeBuilder T :=
  {| trb_lower := trb_lower b; trb_upper := upper; trb_empty := trb_empty b;
     trb_lower_inclusive := trb_lower_inclusive b; trb_upper_inclusive := trb_upper_inclusive b;
     trb_lower_unbounded := trb_lower_unbounded b; trb_upper_unbounded := trb_upper_unbounded b |}.
Definition set_lower_inclusive (x : bool) b : TantivyRangeBuilder T :=
  {| trb_lower := trb_lower b; trb_upper := trb_upper b; trb_empty := trb_empty b;
     trb_lower_inclusive := Some x; trb_upper_inclusive := trb_upper_inclusive b;
     trb_lower_unbounded := trb_lower_unbounded b; trb_upper_unbounded := trb_upper_unbounded b |}.
Definition set_upper_inclusive (x : bool) b : TantivyRangeBuilder T :=
  {| trb_lower := trb_lower b; trb_upper := trb_upper b; trb_empty := trb_empty b;
     trb_lower_inclusive := trb_lower_inclusive b; trb_upper_inclusive := Some x;
     trb_lower_unbounded := trb_lower_unbounded b; trb_upper_unbounded := trb_upper_unbounded b |}.
Definition set_lower_unbounded (x : bool) b : TantivyRangeBuilder T :=
  {| trb_lower := trb_lower b; trb_upper := trb_upper b; trb_empty := trb_empty b;
     trb_lower_inclusive := trb_lower_inclusive b; trb_upper_inclusive := trb_upper_inclusive b;
     trb_lower_unbounded := Some x; trb_upper_unbounded := trb_upper_unbounded b |}.
Definition set_upper_unbounded (x : bool) b : TantivyRangeBuilder T :=
  {| trb_lower := trb_lower b; trb_upper := trb_upper b; trb_empty := trb_empty b;
     trb_lower_inclusive := trb_lower_inclusive b; trb_upper_inclusive := trb_upper_inclusive b;
     trb_lower_unbounded := trb_lower_unbounded b; trb_upper_unbounded := Some x |}.
Definition build b : TantivyRange T :=
  {| tr_lower := trb_lower b; tr_upper := trb_upper b;
     tr_empty := default false (trb_empty b);
     tr_lower_inclusive := default true (trb_lower_inclusive b);
     tr_upper_inclusive := default false (trb_upper_inclusive b);
     tr_lower_unbounded := default false (trb_lower_unbounded b);
     tr_upper_unbounded := default false (trb_upper_unbounded b) |}.
End builder.

(** a [pgrx::Range]: its bounds are [RangeBound::Inclusive], [Exclusive] and [Infinite] *)
Inductive PgRange (T : Type) := RangeEmpty | RangeOf (lower upper : Bound T).
Arguments RangeEmpty {T}.
Arguments RangeOf {T}.

Section from_range.
Context {T S : Type} (try_from : T → option S).

Definition bound_value (b : Bound T) : outcome (option S) :=
  match b with
  | Included val | Excluded val =>
      match try_from val with Some v => Ok (Some v) | None => Panic "unwrap" end
  | Unbounded => Ok None
  end.
Definition is_inclusive (b : Bound T) : bool := match b with Included _ => true | _ => false end.
Definition is_infinite (b : Bound T) : bool := match b with Unbounded => true | _ => false end.

Definition from_range (val : PgRange T) : outcome (TantivyRange S) :=
  match val with
  | RangeEmpty => Ok (build (set_empty true trb_new))
  | RangeOf l u =>
      lower ← bound_value l;
      upper ← bound_value u;
      let lower_inclusive := is_inclusive l in
      let upper_inclusive := is_inclusive u in
      let lower_unbounded := is_infinite l in
      let upper_unbounded := is_infinite u in
      Ok (build (set_upper_unbounded upper_unbounded (set_lower_unbounded lower_unbounded
           (set_upper_inclusive upper_inclusive (set_lower_inclusive lower_inclusive
             (set_upper_value upper (set_lower_value lower trb_new)))))))
  end.
End from_range.

(** the range a document was made from *)
Definition range_of (r : TantivyRange Z) : PgRange Z :=
  if tr_empty r then RangeEmpty
  else
    let bound (v : option Z) (incl : bool) :=
      match v with
      | None => Unbounded
      | Some a => if incl then Included a else Excluded a
      end in
    RangeOf (bound (tr_lower r) (tr_lower_inclusive r)) (bound (tr_upper r) (tr_upper_inclusive r)).

(** ** What Tantivy's queries match *)

Section order.
Context `{RustF64} `{TantivyTypes}.
(** values of one numeric type, in its order; terms of different types are not compared *)
Definition same_type (v w : TermValue) : bool :=
  match v, w with
  | VU64 _, VU64 _ | VI64 _, VI64 _ | VF64 _, VF64 _ | VDate _, VDate _ => true
  | _, _ => false
  end.
Definition value_lt (v w : TermValue) : bool :=
  match v, w with
  | VU64 a, VU64 b | VI64 a, VI64 b | VDate a, VDate b => a <? b
  | VF64 a, VF64 b => f64_lt a b
  | _, _ => false
  end.
Definition value_above (lo : Bound TermValue) (v : TermValue) : bool :=
  match lo with
  | Included w => negb (value_lt v w)
  | Excluded w => value_lt w v
  | Unbounded => true
  end.
Definition value_below (hi : Bound TermValue) (v : TermValue) : bool :=
  match hi with
  | Included w => negb (value_lt w v)
  | Excluded w => value_lt v w
  | Unbounded => true
  end.
Definition bound_type (b : Bound TermValue) (v : TermValue) : bool :=
  match b with Included w | Excluded w => same_type v w | Unbounded => true end.
End order.

(** the documents of an index and what the queries match, as Tantivy documents them *)
Class TantivySearch `{RustF64} `{TantivyTypes} := {
  Doc : Type;
  matches : Query → Doc → Prop;
  (** the values of a document at a path of a JSON field *)
  json_values : Doc → Field → string → list TermValue;
  (** every [Must], no [MustNot], and some [Should] when there is no [Must] *)
  matches_boolean l d :
    matches (BooleanQuery l) d ↔
      (∀ q, (Must, q) ∈ l → matches q d) ∧ (∀ q, (MustNot, q) ∈ l → ¬ matches q d) ∧
      ((∃ q, (Must, q) ∈ l) ∨ (∃ q, (Should, q) ∈ l ∧ matches q d));
  matches_nothing d : ¬ matches EmptyQuery d;
  matches_all d : matches AllQuery d;
  matches_term f path dots v basic d :
    matches (TermQuery (JsonTerm f path dots v) basic) d ↔ v ∈ json_values d f path;
  (** a range over the values of one type; one of the bounds names the field *)
  matches_range f path dots lo hi d :
    lo ≠ Unbounded ∨ hi ≠ Unbounded →
    Forall (λ v, bound_type lo v = true ∧ bound_type hi v = true) (json_values d f path) →
    matches (RangeQuery (map_bound (JsonTerm f path dots) lo) (map_bound (JsonTerm f path dots) hi)) d ↔
      Exists (λ v, value_above lo v = true ∧ value_below hi v = true) (json_values d f path);
  (** the pattern [.*] matches every term of the field *)
  matches_any f path d : json_values d f path ≠ [] → matches (RegexQuery ".*" f) d
}.

Section boolean.
Context `{RustF64} `{TantivyTypes} `{!TantivySearch}.
Implicit Types (d : Doc) (a b c : Query).

Ltac clauses :=
  rewrite matches_boolean; setoid_rewrite elem_of_cons; try setoid_rewrite elem_of_cons;
  try setoid_rewrite elem_of_cons; setoid_rewrite elem_of_nil; naive_solver.

Lemma matches_no_clause d : matches (BooleanQuery []) d ↔ False.
Proof. rewrite matches_boolean. setoid_rewrite elem_of_nil. naive_solver. Qed.
Lemma matches_must1 d a : matches (BooleanQuery [(Must, a)]) d ↔ matches a d.
Proof. clauses. Qed.
Lemma matches_should1 d a : matches (BooleanQuery [(Should, a)]) d ↔ matches a d.
Proof. clauses. Qed.
Lemma matches_must2 d a b :
  matches (BooleanQuery [(Must, a); (Must, b)]) d ↔ matches a d ∧ matches b d.
Proof. clauses. Qed.
Lemma matches_should2 d a b :
  matches (BooleanQuery [(Should, a); (Should, b)]) d ↔ matches a d ∨ matches b d.
Proof. clauses. Qed.
Lemma matches_must3 d a b c :
  matches (BooleanQuery [(Must, a); (Must, b); (Must, c)]) d ↔
    matches a d ∧ matches b d ∧ matches c d.
Proof. clauses. Qed.
Lemma matches_either d a b c e :
  matches (either a b c e) d ↔ matches a d ∧ matches b d ∨ matches c d ∧ matches e d.
Proof. unfold either. by rewrite matches_should2, !matches_must2. Qed.
End boolean.
Create HintDb clauses.
#[export] Hint Rewrite @matches_no_clause @matches_must1 @matches_should1 @matches_must2 @matches_should2
  @matches_must3 @matches_either : clauses.

(** ** Ranges of dates and of integers *)

(** the values of a range field: integers, or dates in nanoseconds *)
Inductive Kind := KInt | KDate.

Section kinds.
Context `{RustF64} `{TantivyTypes}.
Definition own (k : Kind) (z : Z) : OwnedValue := match k with KInt => OI64 z | KDate => ODate z end.
Definition emb (k : Kind) (z : Z) : TermValue := match k with KInt => VI64 z | KDate => VDate z end.

Lemma emb_lt k a b : value_lt (emb k a) (emb k b) = (a <? b).
Proof. by destruct k. Qed.
Lemma emb_type k a b : same_type (emb k a) (emb k b) = true.
Proof. by destruct k. Qed.
Lemma emb_inj k a b : emb k a = emb k b → a = b.
Proof. destruct k; by intros [= ->]. Qed.
Lemma own_eq k a b : owned_eq (own k a) (own k b) = (a =? b).
Proof. by destruct k. Qed.

(** what Tantivy indexed of the JSON object of [r]: each leaf at its key, nothing for
    a [null] *)
Definition indexed_as `{!TantivySearch} (k : Kind) (f : Field) (d : Doc) (r : TantivyRange Z) : Prop :=
  json_values d f LOWER_KEY = emb k <$> option_list (tr_lower r) ∧
  json_values d f UPPER_KEY = emb k <$> option_list (tr_upper r) ∧
  json_values d f EMPTY_KEY = [VBool (tr_empty r)] ∧
  json_values d f LOWER_INCLUSIVE_KEY = [VBool (tr_lower_inclusive r)] ∧
  json_values d f UPPER_INCLUSIVE_KEY = [VBool (tr_upper_inclusive r)] ∧
  json_values d f LOWER_UNBOUNDED_KEY = [VBool (tr_lower_unbounded r)] ∧
  json_values d f UPPER_UNBOUNDED_KEY = [VBool (tr_upper_unbounded r)].
End kinds.

(** the order of bounds: [lo] starts no later than [lo'], [hi] ends no later than
    [hi'], and something lies between [lo] and [hi] *)
Definition lower_le (lo lo' : Bound Z) : Prop :=
  match lo, lo' with
  | Unbounded, _ => True
  | _, Unbounded => False
  | Excluded a, Included b => a < b
  | Included a, Included b | Included a, Excluded b | Excluded a, Excluded b => a ≤ b
  end.
Definition upper_le (hi hi' : Bound Z) : Prop :=
  match hi, hi' with
  | _, Unbounded => True
  | Unbounded, _ => False
  | Included a, Excluded b => a < b
  | Included a, Included b | Excluded a, Included b | Excluded a, Excluded b => a ≤ b
  end.
Definition meets (lo hi : Bound Z) : Prop :=
  match lo, hi with
  | Unbounded, _ | _, Unbounded => True
  | Included a, Included b => a ≤ b
  | Included a, Excluded b | Excluded a, Included b | Excluded a, Excluded b => a < b
  end.

Definition in_range (R : PgRange Z) (x : Z) : Prop :=
  match R with RangeEmpty => False | RangeOf lo hi => above lo x ∧ below hi x end.

(** how Postgres stores a range: not empty, or the empty range; a discrete one is
    [\[a, b)] *)
Definition stored (R : PgRange Z) : Prop :=
  match R with RangeEmpty => True | RangeOf lo hi => meets lo hi end.
Definition discrete (R : PgRange Z) : Prop :=
  match R with
  | RangeEmpty => True
  | RangeOf lo hi => meets lo hi ∧ (∀ a, lo ≠ Excluded a) ∧ (∀ b, hi ≠ Included b)
  end.

Definition document (R : PgRange Z) : TantivyRange Z :=
  match from_range Some R with Ok r => r | _ => build trb_new end.

(** ** The parts of the queries *)

Section parts.
Context `{RustF64} `{TantivyTypes} `{TantivyText} `{TantivyRegex} `{!TantivySearch}.
Context (k : Kind) (rf : RangeField).
Implicit Types (d : Doc) (R : PgRange Z) (a : Z).
Notation indexed d R := (indexed_as k (rf_field rf) d (document R)).

Definition lower_of R : Bound Z := match R with RangeOf lo _ => lo | RangeEmpty => Unbounded end.
Definition upper_of R : Bound Z := match R with RangeOf _ hi => hi | RangeEmpty => Unbounded end.
Definition bound_val (b : Bound Z) : option Z :=
  match b with Included a | Excluded a => Some a | Unbounded => None end.

Lemma document_of lo hi :
  document (RangeOf lo hi) =
    {| tr_lower := bound_val lo; tr_upper := bound_val hi; tr_empty := false;
       tr_lower_inclusive := is_inclusive lo; tr_upper_inclusive := is_inclusive hi;
       tr_lower_unbounded := is_infinite lo; tr_upper_unbounded := is_infinite hi |}.
Proof. by destruct lo, hi. Qed.

Definition cmp (c : Comparison) (v a : Z) : Prop :=
  match c with
  | LessThan => v < a | LessThanOrEqual => v ≤ a
  | GreaterThan => a < v | GreaterThanOrEqual => a ≤ v
  end.

Lemma range_value f path (l : list Z) lo hi d :
  json_values d f path = emb k <$> l → lo ≠ Unbounded ∨ hi ≠ Unbounded →
  matches (RangeQuery (map_bound (JsonTerm f path EXPAND_DOTS) (map_bound (emb k) lo))
                      (map_bound (JsonTerm f path EXPAND_DOTS) (map_bound (emb k) hi))) d ↔
    Exists (λ x, above lo x ∧ below hi x) l.
Proof.
  intros Hl Hb. rewrite matches_range; try rewrite Hl.
  - rewrite Exists_fmap. apply Exists_iff. intros x. unfold compose.
    assert (value_above (map_bound (emb k) lo) (emb k x) = true ↔ above lo x) as ->.
    { destruct lo; simpl; rewrite ?emb_lt; [rewrite negb_true_iff, Z.ltb_ge|rewrite Z.ltb_lt|]; done. }
    assert (value_below (map_bound (emb k) hi) (emb k x) = true ↔ below hi x) as ->; [|done].
    destruct hi; simpl; rewrite ?emb_lt; [rewrite negb_true_iff, Z.ltb_ge|rewrite Z.ltb_lt|]; done.
  - destruct lo, hi; simpl; naive_solver.
  - rewrite Forall_fmap. apply Forall_true. intros x. unfold compose.
    destruct lo, hi; simpl; rewrite ?emb_type; done.
Qed.

Lemma as_range_term_own v key :
  as_range_term rf (own k v) (Some key) = Ok (JsonTerm (rf_field rf) key EXPAND_DOTS (emb k v)).
Proof. by destruct k. Qed.

Lemma exists_option (P : Z → Prop) o : Exists P (option_list o) ↔ ∃ a, o = Some a ∧ P a.
Proof.
  destruct o as [a|]; simpl; [rewrite Exists_cons, Exists_nil|rewrite Exists_nil]; naive_solver.
Qed.

(** a comparison with the lower bound of the document, and one with the upper *)
Lemma compare_lower v c :
  ∃ q, compare_lower_bound rf (own k v) c = Ok q ∧
    ∀ d R, indexed d R → matches q d ↔ ∃ a, tr_lower (document R) = Some a ∧ cmp c v a.
Proof.
  destruct c; unfold compare_lower_bound; rewrite as_range_term_own; eexists; (split; [done|]);
    intros d R (Hl & _); rewrite <- exists_option.
  - rewrite (range_value _ _ _ (Excluded v) Unbounded _ Hl) by by left.
    apply Exists_iff. simpl. naive_solver.
  - rewrite (range_value _ _ _ (Included v) Unbounded _ Hl) by by left. apply Exists_iff. simpl. naive_solver.
  - rewrite (range_value _ _ _ Unbounded (Excluded v) _ Hl) by by right. apply Exists_iff. simpl. naive_solver.
  - rewrite (range_value _ _ _ Unbounded (Included v) _ Hl) by by right. apply Exists_iff. simpl. naive_solver.
Qed.
Lemma compare_upper v c :
  ∃ q, compare_upper_bound rf (own k v) c = Ok q ∧
    ∀ d R, indexed d R → matches q d ↔ ∃ a, tr_upper (document R) = Some a ∧ cmp c v a.
Proof.
  destruct c; unfold compare_upper_bound; rewrite as_range_term_own; eexists; (split; [done|]);
    intros d R (_ & Hl & _); rewrite <- exists_option.
  - rewrite (range_value _ _ _ (Excluded v) Unbounded _ Hl) by by left. apply Exists_iff. simpl. naive_solver.
  - rewrite (range_value _ _ _ (Included v) Unbounded _ Hl) by by left. apply Exists_iff. simpl. naive_solver.
  - rewrite (range_value _ _ _ Unbounded (Excluded v) _ Hl) by by right. apply Exists_iff. simpl. naive_solver.
  - rewrite (range_value _ _ _ Unbounded (Included v) _ Hl) by by right. apply Exists_iff. simpl. naive_solver.
Qed.

(** the five flags *)
Lemma flag_matches f path dots (b val : bool) d :
  json_values d f path = [VBool b] →
  matches (TermQuery (JsonTerm f path dots (VBool val)) false) d ↔ b = val.
Proof. intros Hv. rewrite matches_term, Hv, list_elem_of_singleton. naive_solver. Qed.

Lemma exists_any : ∃ q, exists_ rf = Ok q ∧ ∀ d R, indexed d R → matches q d.
Proof.
  unfold exists_. rewrite regex_any. eexists. split; [done|]. intros d R (_ & _ & He & _).
  apply (matches_any _ EMPTY_KEY). by rewrite He.
Qed.
End parts.

(** ** The relations, bound by bound *)

Section relations.
Context `{RustF64} `{TantivyTypes} `{TantivyText} `{TantivyRegex} `{!TantivySearch}.
Context (k : Kind) (rf : RangeField).
Implicit Types (d : Doc) (R : PgRange Z) (lo hi : Bound Z).
Notation indexed d R := (indexed_as k (rf_field rf) d (document R)).

(** the clauses [l] hold of a document exactly when its bounds are related by [P];
    [Pe] says so of an empty range *)
Definition decides (o : outcome (list (Occur * Query))) (P : Bound Z → Bound Z → Prop) (Pe : Prop) : Prop :=
  ∃ l, o = Ok l ∧
    (∀ d lo hi, indexed d (RangeOf lo hi) → matches (BooleanQuery l) d ↔ P lo hi) ∧
    (∀ d, indexed d RangeEmpty → matches (BooleanQuery l) d → Pe).

#[local] Arguments compare_lower_bound : simpl never.
#[local] Arguments compare_upper_bound : simpl never.
#[local] Arguments exists_ : simpl never.
#[local] Arguments document : simpl never.
#[local] Arguments indexed_as : simpl never.

Ltac flags Hi :=
  destruct Hi as (_ & _ & ? & ? & ? & ? & ?);
  rewrite ?(flag_matches _ LOWER_INCLUSIVE_KEY), ?(flag_matches _ UPPER_INCLUSIVE_KEY),
    ?(flag_matches _ LOWER_UNBOUNDED_KEY), ?(flag_matches _ UPPER_UNBOUNDED_KEY),
    ?(flag_matches _ EMPTY_KEY) by eassumption.
(** the meaning of the comparisons and of the flags *)
Ltac meaning :=
  unfold decides; cbn;
  repeat match goal with
  | |- context [compare_lower_bound ?rf (own ?k ?v) ?c] =>
      let q := fresh "q" in let Hq := fresh "Hq" in let Hm := fresh "Hm" in
      destruct (compare_lower k rf v c) as (q & Hq & Hm); rewrite Hq; clear Hq
  | |- context [compare_upper_bound ?rf (own ?k ?v) ?c] =>
      let q := fresh "q" in let Hq := fresh "Hq" in let Hm := fresh "Hm" in
      destruct (compare_upper k rf v c) as (q & Hq & Hm); rewrite Hq; clear Hq
  | |- context [exists_ ?rf] =>
      let q := fresh "q" in let Hq := fresh "Hq" in let Hm := fresh "Hm" in
      destruct (exists_any k rf) as (q & Hq & Hm); rewrite Hq; clear Hq
  end; cbn; eexists; (split; [reflexivity|]);
  split;
    [let d := fresh "d" in let lo' := fresh "lo'" in let hi' := fresh "hi'" in
     let Hi := fresh "Hi" in intros d lo' hi' Hi
    |let d := fresh "d" in let Hi := fresh "Hi" in intros d Hi];
  autorewrite with clauses;
  repeat match goal with
  | Hm : (∀ d R, _ → (matches ?q d ↔ _)), Hi : indexed ?d0 _ |- context [matches ?q ?d0] =>
      rewrite (Hm _ _ Hi)
  | Hm : (∀ d R, _ → matches ?q d), Hi : indexed ?d0 _ |- _ => pose proof (Hm _ _ Hi); clear Hm
  end;
  match goal with Hi : indexed ?d0 _ |- _ => flags Hi end; rewrite ?document_of; cbn.

Ltac bounds_cases :=
  repeat match goal with b : Bound Z |- _ => destruct b end; simpl; naive_solver lia.

Lemma contains_lower_decides lo :
  decides (contains_lower rf (map_bound (own k) lo)) (λ lo' _, lower_le lo lo') True.
Proof. destruct lo; meaning; bounds_cases. Qed.
Lemma contains_upper_decides hi :
  decides (contains_upper rf (map_bound (own k) hi)) (λ _ hi', upper_le hi' hi) True.
Proof. destruct hi; meaning; bounds_cases. Qed.

(** a document's unbounded side has a flag of its own; the clauses see the others *)
Lemma intersects_lower_decides lo :
  decides (intersects_lower rf (map_bound (own k) lo))
    (λ _ hi', meets lo hi' ∧ (hi' ≠ Unbounded ∨ lo = Unbounded)) True.
Proof. destruct lo; meaning; bounds_cases. Qed.
Lemma intersects_upper_decides hi :
  decides (intersects_upper rf (map_bound (own k) hi))
    (λ lo' _, meets lo' hi ∧ (lo' ≠ Unbounded ∨ hi = Unbounded)) True.
Proof. destruct hi; meaning; bounds_cases. Qed.
Lemma within_lower_decides lo :
  decides (within_lower rf (map_bound (own k) lo)) (λ lo' _, lower_le lo' lo ∧ lo' ≠ Unbounded) False.
Proof. destruct lo; meaning; bounds_cases. Qed.
Lemma within_upper_decides hi :
  decides (within_upper rf (map_bound (own k) hi)) (λ _ hi', upper_le hi hi' ∧ hi' ≠ Unbounded) False.
Proof. destruct hi; meaning; bounds_cases. Qed.

(** [\[x, x)] *)
Definition nothing lo hi : bool :=
  match lo, hi with Included a, Excluded b => a =? b | _, _ => false end.
Lemma empty_bounds_nothing lo hi :
  empty_bounds (map_bound (own k) lo) (map_bound (own k) hi) = nothing lo hi.
Proof. destruct lo, hi; try done. apply own_eq. Qed.

(** the flag of an unbounded side makes up for the clauses *)
Lemma meets_upper lo hi' :
  (is_infinite hi' = true ∨ meets lo hi' ∧ (hi' ≠ Unbounded ∨ lo = Unbounded)) ↔ meets lo hi'.
Proof. destruct lo, hi'; simpl; naive_solver. Qed.
Lemma meets_lower lo' hi :
  (is_infinite lo' = true ∨ meets lo' hi ∧ (lo' ≠ Unbounded ∨ hi = Unbounded)) ↔ meets lo' hi.
Proof. destruct lo', hi; simpl; naive_solver. Qed.
Lemma lower_le_flag lo' lo :
  (is_infinite lo' = true ∨ lower_le lo' lo ∧ lo' ≠ Unbounded) ↔ lower_le lo' lo.
Proof. destruct lo', lo; simpl; naive_solver. Qed.
Lemma upper_le_flag hi hi' :
  (is_infinite hi' = true ∨ upper_le hi hi' ∧ hi' ≠ Unbounded) ↔ upper_le hi hi'.
Proof. destruct hi, hi'; simpl; naive_solver. Qed.

Lemma range_contains_spec lo hi :
  ∃ q, range_contains rf (map_bound (own k) lo) (map_bound (own k) hi) = Ok q ∧
    ∀ d R, indexed d R → matches q d ↔
      match R with RangeEmpty => True | RangeOf lo' hi' => lower_le lo lo' ∧ upper_le hi' hi end.
Proof.
  destruct (contains_lower_decides lo) as (l & Hl & Hlo & _).
  destruct (contains_upper_decides hi) as (u & Hu & Hhi & _).
  unfold range_contains. rewrite Hl. cbn. rewrite Hu. cbn. eexists. split; [done|].
  intros d R Hi. rewrite matches_must2, !matches_should2.
  destruct R as [|lo' hi'].
  - flags Hi. naive_solver.
  - rewrite (Hlo _ _ _ Hi), (Hhi _ _ _ Hi). flags Hi. rewrite document_of. cbn. naive_solver.
Qed.

Lemma range_intersects_spec lo hi :
  ∃ q, range_intersects rf (map_bound (own k) lo) (map_bound (own k) hi) = Ok q ∧
    ∀ d R, indexed d R → matches q d ↔ nothing lo hi = false ∧
      match R with RangeEmpty => False | RangeOf lo' hi' => meets lo hi' ∧ meets lo' hi end.
Proof.
  destruct (intersects_lower_decides lo) as (l & Hl & Hlo & _).
  destruct (intersects_upper_decides hi) as (u & Hu & Hhi & _).
  unfold range_intersects. rewrite Hl. cbn. rewrite Hu. cbn. rewrite empty_bounds_nothing.
  destruct (nothing lo hi); (eexists; split; [done|]); intros d R Hi.
  - split; [by intros ?%matches_nothing|by intros [? _]].
  - rewrite matches_must3, !matches_should2. destruct R as [|lo' hi'].
    + flags Hi. naive_solver.
    + rewrite (Hlo _ _ _ Hi), (Hhi _ _ _ Hi). flags Hi. rewrite document_of. cbn.
      rewrite meets_upper, meets_lower. tauto.
Qed.

Lemma range_within_spec lo hi :
  ∃ q, range_within rf (map_bound (own k) lo) (map_bound (own k) hi) = Ok q ∧
    ∀ d R, indexed d R → matches q d ↔ nothing lo hi = true ∨
      match R with RangeEmpty => False | RangeOf lo' hi' => lower_le lo' lo ∧ upper_le hi hi' end.
Proof.
  destruct (within_lower_decides lo) as (l & Hl & Hlo & Hel).
  destruct (within_upper_decides hi) as (u & Hu & Hhi & Heu).
  unfold range_within. rewrite Hl. cbn. rewrite Hu. cbn. rewrite empty_bounds_nothing.
  destruct (nothing lo hi).
  - destruct (exists_any k rf) as (q & Hq & Hm). exists q. split; [done|]. intros d R Hi.
    split; [by left|intros _; by eapply Hm].
  - eexists. split; [done|]. intros d R Hi. rewrite matches_must2, !matches_should2.
    destruct R as [|lo' hi'].
    + specialize (Hel d Hi). specialize (Heu d Hi). flags Hi. naive_solver.
    + rewrite (Hlo _ _ _ Hi), (Hhi _ _ _ Hi). flags Hi. rewrite document_of. cbn.
      rewrite lower_le_flag, upper_le_flag. intuition congruence.
Qed.

Lemma above_flags lo' v :
  (is_infinite lo' = true ∨ is_inclusive lo' = true ∧ (∃ a, bound_val lo' = Some a ∧ a ≤ v) ∨
   is_inclusive lo' = false ∧ (∃ a, bound_val lo' = Some a ∧ a < v)) ↔ above lo' v.
Proof. destruct lo'; simpl; naive_solver. Qed.
Lemma below_flags hi' v :
  (is_infinite hi' = true ∨ is_inclusive hi' = true ∧ (∃ a, bound_val hi' = Some a ∧ v ≤ a) ∨
   is_inclusive hi' = false ∧ (∃ a, bound_val hi' = Some a ∧ v < a)) ↔ below hi' v.
Proof. destruct hi'; simpl; naive_solver. Qed.

Lemma range_term_spec v :
  ∃ q, range_term rf (own k v) = Ok q ∧ ∀ d R, indexed d R → matches q d ↔ in_range R v.
Proof.
  unfold range_term.
  destruct (compare_lower k rf v GreaterThanOrEqual) as (q1 & Hq1 & Hm1).
  destruct (compare_lower k rf v GreaterThan) as (q2 & Hq2 & Hm2).
  destruct (compare_upper k rf v LessThanOrEqual) as (q3 & Hq3 & Hm3).
  destruct (compare_upper k rf v LessThan) as (q4 & Hq4 & Hm4).
  cbn. rewrite Hq1. cbn. rewrite Hq2. cbn. rewrite Hq3. cbn. rewrite Hq4. cbn.
  eexists. split; [done|]. intros d R Hi. rewrite matches_must2, !matches_should2, !matches_either.
  rewrite (Hm1 _ _ Hi), (Hm2 _ _ Hi), (Hm3 _ _ Hi), (Hm4 _ _ Hi). flags Hi.
  destruct R as [|lo' hi']; [cbn; naive_solver|]. rewrite document_of.
  split; (intros [Ha Hb]; split; [by apply above_flags|by apply below_flags]).
Qed.
End relations.

(** ** Integer ranges as sets *)

(** a query range [\[a, b)] with [a ≤ b], which Postgres' range constructors ensure *)
Definition ordered (lo hi : Bound Z) : Prop :=
  ∀ a b, canon_lower lo = Included a → canon_upper hi = Excluded b → a ≤ b.

Section sets.
Implicit Types (R : PgRange Z) (lo hi : Bound Z).

Lemma discrete_cases R :
  discrete R → R = RangeEmpty ∨ ∃ lo hi, R = RangeOf lo hi ∧ meets lo hi ∧
    ((∃ a, lo = Included a) ∨ lo = Unbounded) ∧ ((∃ b, hi = Excluded b) ∨ hi = Unbounded).
Proof.
  destruct R as [|lo hi]; [by left|right]. destruct H as (Hm & Hlo & Hhi). exists lo, hi.
  split; [done|]. split; [done|]. destruct lo, hi; naive_solver.
Qed.
Lemma canon_lower_cases lo : (∃ a, canon_lower lo = Included a) ∨ canon_lower lo = Unbounded.
Proof. destruct lo; simpl; eauto. Qed.
Lemma canon_upper_cases hi : (∃ b, canon_upper hi = Excluded b) ∨ canon_upper hi = Unbounded.
Proof. destruct hi; simpl; eauto. Qed.

(** every shape of a stored range and of a query's bounds *)
Ltac shapes HR lo hi :=
  destruct (discrete_cases _ HR) as [-> | (? & ? & -> & Hmeets & [[? ->]| ->] & [[? ->]| ->])];
  let El := fresh "El" in let Eu := fresh "Eu" in
  destruct (canon_lower_cases lo) as [[? El]|El], (canon_upper_cases hi) as [[? Eu]|Eu];
  rewrite El, Eu in *; clear El Eu; simpl in *.
(** the members that decide an inclusion: the ends, and points beyond both ends *)
Ltac members Hs :=
  pose proof (Hs 0);
  repeat match goal with
  | a : Z |- _ =>
      lazymatch goal with
      | _ : a = a |- _ => fail
      | _ => pose proof (Hs a); pose proof (Hs (a - 1)); assert (a = a) by done
      end
  end;
  repeat match goal with
  | a : Z, b : Z |- _ =>
      lazymatch a with
      | b => fail
      | _ =>
        lazymatch goal with
        | _ : a + b = a + b |- _ => fail
        | _ => pose proof (Hs (Z.min (a - 1) (b - 1))); pose proof (Hs (Z.max a b)); assert (a + b = a + b) by done
        end
      end
  end.

Ltac some_member :=
  match goal with
  | a : Z, b : Z |- _ => exists (Z.max a b); lia
  | a : Z |- _ => exists a; lia
  | a : Z, b : Z |- _ => exists (Z.min a b - 1); lia
  | a : Z |- _ => exists (a - 1); lia
  | |- _ => exists 0; lia
  end.

Lemma contains_set R lo hi :
  discrete R →
  match R with
  | RangeEmpty => True
  | RangeOf lo' hi' => lower_le (canon_lower lo) lo' ∧ upper_le hi' (canon_upper hi)
  end ↔ ∀ x, in_range R x → above (canon_lower lo) x ∧ below (canon_upper hi) x.
Proof.
  intros HR. shapes HR lo hi; (split; [naive_solver lia|intros Hs; members Hs; lia]).
Qed.

Lemma intersects_set R lo hi :
  discrete R → ordered lo hi →
  (nothing (canon_lower lo) (canon_upper hi) = false ∧
   match R with
   | RangeEmpty => False
   | RangeOf lo' hi' => meets (canon_lower lo) hi' ∧ meets lo' (canon_upper hi)
   end) ↔ ∃ x, in_range R x ∧ above (canon_lower lo) x ∧ below (canon_upper hi) x.
Proof.
  intros HR Ho. unfold ordered in Ho. shapes HR lo hi.
  1-4: naive_solver.
  all: split; [intros [Hn Hm]|intros (y & Hy1 & Hy2)].
  all: try (apply Z.eqb_neq in Hn; specialize (Ho _ _ eq_refl eq_refl)).
  all: try (rewrite Z.eqb_neq; split; lia).
  all: try (split; [done|lia]).
  all: some_member.
Qed.

Lemma within_set R lo hi :
  discrete R → ordered lo hi →
  (nothing (canon_lower lo) (canon_upper hi) = true ∨
   match R with
   | RangeEmpty => False
   | RangeOf lo' hi' => lower_le lo' (canon_lower lo) ∧ upper_le (canon_upper hi) hi'
   end) ↔ ∀ x, above (canon_lower lo) x ∧ below (canon_upper hi) x → in_range R x.
Proof.
  intros HR Ho. unfold ordered in Ho. shapes HR lo hi.
  all: try (specialize (Ho _ _ eq_refl eq_refl); rewrite Z.eqb_eq).
  all: split; [intros [Hn|Hm] y Hy; try done; lia|intros Hs; members Hs; lia].
Qed.
End sets.

(** ** The arms of [into_tantivy_query] *)

Section arms.
Context `{RustF64} `{TantivyTypes} `{TantivyText} `{TantivyRegex} `{RustBuild} `{Chrono} `{!PgDates}
  `{AsFieldType} `{!TantivyParser} `{!TantivySearcher} `{!TantivySearch}.

Lemma as_json_object_field field dots oid f :
  as_field_type field = Some (FJsonObject dots, oid, f) → as_json_object field = Some f.
Proof. intros Hf. unfold as_json_object. by rewrite Hf. Qed.

Lemma range_arm_run field dots oid f lo hi lo' hi' dt arm :
  as_field_type field = Some (FJsonObject dots, oid, f) →
  check_range_bounds oid lo hi = Ok (lo', hi') →
  range_arm field lo hi dt arm =
    arm {| rf_field := f; rf_is_datetime := is_datetime_typeoid oid || dt |} lo' hi'.
Proof.
  intros Hf Hc. unfold range_arm. rewrite Hf, Hc. cbn. by rewrite (as_json_object_field _ _ _ _ Hf).
Qed.

(** [check_range_bounds] leaves dates alone *)
Lemma check_dates oid lo hi :
  check_range_bounds oid (map_bound ODate lo) (map_bound ODate hi) =
    Ok (map_bound ODate lo, map_bound ODate hi).
Proof.
  unfold check_range_bounds.
  assert (check_lower_bound oid (map_bound ODate lo) = Ok (map_bound ODate lo)) as ->
    by (destruct lo; by destruct oid as [[]| |]).
  assert (check_upper_bound oid (map_bound ODate hi) = Ok (map_bound ODate hi)) as ->
    by (destruct hi; by destruct oid as [[]| |]).
  done.
Qed.
End arms.

(** RangeContains on an integer range field is the subset relation: the query it
    converts to matches the document of a stored discrete range exactly when every
    member of that range lies between the query's bounds, whatever their inclusivity,
    and the empty range always. *)
Theorem range_contains_subset `{RustF64} `{TantivyTypes} `{TantivyText} `{TantivyRegex} `{RustBuild}
    `{Chrono} `{!PgDates} `{AsFieldType} `{!TantivyParser} `{!TantivySearcher} `{!TantivySearch}
    (p : QueryParser) field dots oid f dt (lo hi : Bound Z) :
  as_field_type field = Some (FJsonObject dots, oid, f) → no_overflow lo hi →
  ∃ q, into_tantivy_query (Input.RangeContains field (map_bound OI64 lo) (map_bound OI64 hi) dt) p = Ok (q, p) ∧
    ∀ d R, discrete R → indexed_as KInt f d (document R) →
      matches q d ↔ ∀ x, in_range R x → above lo x ∧ below hi x.
Proof.
  intros Hf Hov. cbn [into_tantivy_query].
  rewrite (range_arm_run _ _ _ _ _ _ _ _ _ _ Hf (check_ints oid lo hi Hov)).
  destruct (range_contains_spec KInt {| rf_field := f; rf_is_datetime := is_datetime_typeoid oid || dt |}
    (canon_lower lo) (canon_upper hi)) as (q & Hq & Hm).
  exists q. split; [exact (lift_ok _ _ p Hq)|]. intros d R HR Hi.
  rewrite (Hm d R Hi), (contains_set R lo hi HR). by setoid_rewrite canon_above; setoid_rewrite canon_below.
Qed.

(** RangeIntersects on an integer range field is the overlap relation: for query
    bounds in order, the query it converts to matches the document of a stored discrete
    range exactly when some integer is in both. *)
Theorem range_intersects_overlap `{RustF64} `{TantivyTypes} `{TantivyText} `{TantivyRegex} `{RustBuild}
    `{Chrono} `{!PgDates} `{AsFieldType} `{!TantivyParser} `{!TantivySearcher} `{!TantivySearch}
    (p : QueryParser) field dots oid f dt (lo hi : Bound Z) :
  as_field_type field = Some (FJsonObject dots, oid, f) → no_overflow lo hi → ordered lo hi →
  ∃ q, into_tantivy_query (Input.RangeIntersects field (map_bound OI64 lo) (map_bound OI64 hi) dt) p = Ok (q, p) ∧
    ∀ d R, discrete R → indexed_as KInt f d (document R) →
      matches q d ↔ ∃ x, in_range R x ∧ above lo x ∧ below hi x.
Proof.
  intros Hf Hov Ho. cbn [into_tantivy_query].
  rewrite (range_arm_run _ _ _ _ _ _ _ _ _ _ Hf (check_ints oid lo hi Hov)).
  destruct (range_intersects_spec KInt {| rf_field := f; rf_is_datetime := is_datetime_typeoid oid || dt |}
    (canon_lower lo) (canon_upper hi)) as (q & Hq & Hm).
  exists q. split; [exact (lift_ok _ _ p Hq)|]. intros d R HR Hi.
  rewrite (Hm d R Hi), (intersects_set R lo hi HR Ho). by setoid_rewrite canon_above; setoid_rewrite canon_below.
Qed.

(** RangeWithin on an integer range field is the superset relation: for query bounds
    in order, the query it converts to matches the document of a stored discrete range
    exactly when that range has every integer between the bounds. *)
Theorem range_within_superset `{RustF64} `{TantivyTypes} `{TantivyText} `{TantivyRegex} `{RustBuild}
    `{Chrono} `{!PgDates} `{AsFieldType} `{!TantivyParser} `{!TantivySearcher} `{!TantivySearch}
    (p : QueryParser) field dots oid f dt (lo hi : Bound Z) :
  as_field_type field = Some (FJsonObject dots, oid, f) → no_overflow lo hi → ordered lo hi →
  ∃ q, into_tantivy_query (Input.RangeWithin field (map_bound OI64 lo) (map_bound OI64 hi) dt) p = Ok (q, p) ∧
    ∀ d R, discrete R → indexed_as KInt f d (document R) →
      matches q d ↔ ∀ x, above lo x ∧ below hi x → in_range R x.
Proof.
  intros Hf Hov Ho. cbn [into_tantivy_query].
  rewrite (range_arm_run _ _ _ _ _ _ _ _ _ _ Hf (check_ints oid lo hi Hov)).
  destruct (range_within_spec KInt {| rf_field := f; rf_is_datetime := is_datetime_typeoid oid || dt |}
    (canon_lower lo) (canon_upper hi)) as (q & Hq & Hm).
  exists q. split; [exact (lift_ok _ _ p Hq)|]. intros d R HR Hi.
  rewrite (Hm d R Hi), (within_set R lo hi HR Ho). by setoid_rewrite canon_above; setoid_rewrite canon_below.
Qed.

(** RangeTerm is membership: its query matches the document of a range of integers
    or dates, with any inclusivity of its ends, exactly when the value is in the range.
    *)
Theorem range_term_member `{RustF64} `{TantivyTypes} `{TantivyText} `{TantivyRegex} `{RustBuild}
    `{Chrono} `{!PgDates} `{AsFieldType} `{!TantivyParser} `{!TantivySearcher} `{!TantivySearch}
    (p : QueryParser) field dots oid f dt k (v : Z) :
  as_field_type field = Some (FJsonObject dots, oid, f) →
  ∃ q, into_tantivy_query (Input.RangeTerm field (own k v) dt) p = Ok (q, p) ∧
    ∀ d R, indexed_as k f d (document R) → matches q d ↔ in_range R v.
Proof.
  intros Hf. cbn [into_tantivy_query]. unfold range_term_arm.
  rewrite (as_json_object_field _ _ _ _ Hf).
  destruct (range_term_spec k {| rf_field := f; rf_is_datetime := dt |} v) as (q & Hq & Hm).
  exists q. split; [exact (lift_ok _ _ p Hq)|exact Hm].
Qed.

(** C15: On ranges of dates, which Postgres orders as continuous, the three relations
    compare the bounds the way Postgres' range operators do, with inclusive and
    exclusive ends told apart; a document of the empty range is contained in every query
    and matches neither of the others. *)
Theorem date_range_relations `{RustF64} `{TantivyTypes} `{TantivyText} `{TantivyRegex} `{RustBuild}
    `{Chrono} `{!PgDates} `{AsFieldType} `{!TantivyParser} `{!TantivySearcher} `{!TantivySearch}
    (p : QueryParser) field dots oid f dt (lo hi : Bound Z) :
  as_field_type field = Some (FJsonObject dots, oid, f) → nothing lo hi = false →
  let arm (C : string → Bound OwnedValue → Bound OwnedValue → bool → SearchQueryInput) :=
    into_tantivy_query (C field (map_bound ODate lo) (map_bound ODate hi) dt) p in
  ∃ qc qi qw, arm Input.RangeContains = Ok (qc, p) ∧ arm Input.RangeIntersects = Ok (qi, p) ∧
    arm Input.RangeWithin = Ok (qw, p) ∧
    (∀ d lo' hi', indexed_as KDate f d (document (RangeOf lo' hi')) →
      (matches qc d ↔ lower_le lo lo' ∧ upper_le hi' hi) ∧
      (matches qi d ↔ meets lo hi' ∧ meets lo' hi) ∧
      (matches qw d ↔ lower_le lo' lo ∧ upper_le hi hi')) ∧
    (∀ d, indexed_as KDate f d (document RangeEmpty) → matches qc d ∧ ¬ matches qi d ∧ ¬ matches qw d).
Proof.
  intros Hf Hn. cbn [into_tantivy_query].
  rewrite !(range_arm_run _ _ _ _ _ _ _ _ _ _ Hf (check_dates oid lo hi)).
  set (rf := {| rf_field := f; rf_is_datetime := is_datetime_typeoid oid || dt |}).
  destruct (range_contains_spec KDate rf lo hi) as (qc & Hqc & Hc).
  destruct (range_intersects_spec KDate rf lo hi) as (qi & Hqi & Hi).
  destruct (range_within_spec KDate rf lo hi) as (qw & Hqw & Hw).
  exists qc, qi, qw. split; [exact (lift_ok _ _ p Hqc)|]. split; [exact (lift_ok _ _ p Hqi)|].
  split; [exact (lift_ok _ _ p Hqw)|]. split.
  - intros d lo' hi' Hd. rewrite (Hc _ _ Hd), (Hi _ _ Hd), (Hw _ _ Hd), Hn. intuition congruence.
  - intros d Hd. rewrite (Hc _ _ Hd), (Hi _ _ Hd), (Hw _ _ Hd), Hn. intuition congruence.
Qed.

(** A Boolean query converts its clauses in the order must, should, must_not,
    threading the parser, and matches when every must clause, no must_not clause and,
    without a must clause, some should clause matches; a Boolean of negations only
    matches nothing. *)
Theorem boolean_query_matches `{RustF64} `{TantivyTypes} `{TantivyText} `{TantivyRegex} `{RustBuild}
    `{Chrono} `{!PgDates} `{AsFieldType} `{!TantivyParser} `{!TantivySearcher} `{!TantivySearch}
    (p p1 p2 p3 : QueryParser) must should must_not a b c :
  traverse into_tantivy_query must p = Ok (a, p1) →
  traverse into_tantivy_query should p1 = Ok (b, p2) →
  traverse into_tantivy_query must_not p2 = Ok (c, p3) →
  ∃ q, into_tantivy_query (Input.Boolean must should must_not) p = Ok (q, p3) ∧
    (∀ d, matches q d ↔ Forall (λ q, matches q d) a ∧ Forall (λ q, ¬ matches q d) c ∧
       (a ≠ [] ∨ Exists (λ q, matches q d) b)) ∧
    (must = [] → should = [] → ∀ d, ¬ matches q d).
Proof.
  intros Ha Hb Hc. eexists. split.
  { cbn [into_tantivy_query]. rewrite (bind_ok _ _ _ _ _ Ha), (bind_ok _ _ _ _ _ Hb), (bind_ok _ _ _ _ _ Hc).
    done. }
  assert (∀ d, matches (BooleanQuery ((pair Must <$> a) ++ (pair Should <$> b) ++ (pair MustNot <$> c))) d ↔
    Forall (λ q, matches q d) a ∧ Forall (λ q, ¬ matches q d) c ∧
       (a ≠ [] ∨ Exists (λ q, matches q d) b)) as Hm.
  { intros d. rewrite matches_boolean, !Forall_forall, Exists_exists.
    assert (∀ o q, (o, q) ∈ (pair Must <$> a) ++ (pair Should <$> b) ++ (pair MustNot <$> c) ↔
      o = Must ∧ q ∈ a ∨ o = Should ∧ q ∈ b ∨ o = MustNot ∧ q ∈ c) as Hin.
    { intros o q. rewrite !elem_of_app, !list_elem_of_fmap. naive_solver. }
    setoid_rewrite Hin. split.
    - intros (HM & HN & Hor). split; [naive_solver|]. split; [naive_solver|].
      destruct Hor as [[q Hq]|(q & Hq & ?)]; [left|right; naive_solver].
      destruct a; [|done]. destruct Hq as [[_ Hq]|[[? _]|[? _]]]; [by apply not_elem_of_nil in Hq|done..].
    - intros (HM & HN & Hor). split; [naive_solver|]. split; [naive_solver|].
      destruct Hor as [Hne|(q & Hq & ?)]; [left|right; naive_solver].
      destruct a as [|q a]; [done|]. exists q. left. split; [done|left]. }
  split; [exact Hm|]. intros -> -> d. injection Ha as <- <-. injection Hb as <- <-. rewrite Hm.
  intros (_ & _ & [?|Hex]); [done|by apply Exists_nil in Hex].
Qed.

(** The JSON document of a Postgres range loses nothing: the range is read back
    from it, empty and unbounded ones included, and the two unbounded flags say exactly
    which bounds are missing. *)
Theorem range_document_roundtrip (R : PgRange Z) :
  ∃ r, from_range Some R = Ok r ∧ range_of r = R ∧
    (tr_lower_unbounded r = true ↔ tr_lower r = None ∧ tr_empty r = false) ∧
    (tr_upper_unbounded r = true ↔ tr_upper r = None ∧ tr_empty r = false).
Proof. destruct R as [|[] []]; eexists; (split; [done|]); split_and!; naive_solver. Qed.
