(* ===== verification/CustomScan.v ===== *)
(** * CustomScan: from a WHERE clause to the query of a custom scan

    [postgres/customscan/pdbscan/qual_inspect.rs], [privdat.rs] and the parts of [mod.rs] and
    [builders/custom_path.rs] between them: the planner's restriction clauses become a [Qual],
    the qual and the rest of the plan's [PrivateData] travel as a list of Postgres nodes, and
    the executor reads them back and turns the qual into a [SearchQueryInput].  A Postgres
    node is a tree with the fields the code looks at; what [@@@]'s right hand side decodes to
    is a parameter. *)

From S2P Require Import Prelude PgUtils Query RangeQuery.
From Stdlib Require Import Ascii DecimalString DecimalN.

Open Scope Z_scope.

(** ** Postgres nodes *)

(** a [Datum] and the null one, [SearchQueryInput::from_datum(datum, is_null)]; [f64::round() as usize] *)
Class PgDatum `{RustF64} `{TantivyTypes} := {
  Datum : Type;
  null_datum : Datum;
  search_query_input_from_datum : Datum → bool → option SearchQueryInput;
  f64_round_as_usize : F64 → Z
}.

Record Var := { varno : Z; varattno : Z }.
Record Const `{PgDatum} := { constvalue : Datum; constisnull : bool }.

(** a [*mut pg_sys::Node]; the empty list is the null pointer *)
Inductive Node `{PgDatum} :=
  | NullNode
  | T_List (elements : list Node)
  | T_RestrictInfo (orclause clause : Node)
  | T_OpExpr (opno : Z) (args : list Node)
  | T_BoolExpr (boolop : Z) (args : list Node)
  | T_Var (var : Var)
  | T_Const (const : Const)
  | T_String (sval : string)
  | T_Integer (ival : Z)
  | T_Boolean (boolval : bool)
  | T_Other.

Definition AND_EXPR : Z := 0.
Definition OR_EXPR : Z := 1.
Definition NOT_EXPR : Z := 2.

(** [i32::from] of another width: [as i32] *)
Definition int_as_i32 (z : Z) : Z := (z + 2 ^ 31) mod 2 ^ 32 - 2 ^ 31.

Section nodes.
Context `{PgDatum}.

(** [PgList::from_pg] and [into_pg] *)
Definition into_pg (l : list Node) : Node := match l with [] => NullNode | _ => T_List l end.

(** [nodecast!(List, T_List, node)], of a list, and with [true]: the null pointer is a list too *)
Definition nodecast_list (n : Node) : option (list Node) := match n with T_List l => Some l | _ => None end.
Definition nodecast_list_or_null (n : Node) : option (list Node) :=
  match n with T_List l => Some l | NullNode => Some [] | _ => None end.
Definition nodecast_var (n : Node) : option Var := match n with T_Var v => Some v | _ => None end.
Definition nodecast_const (n : Node) : option Const := match n with T_Const c => Some c | _ => None end.

Definition as_int (n : Node) : option Z := match n with T_Integer i => Some i | _ => None end.
Definition as_bool (n : Node) : option bool := match n with T_Boolean b => Some b | _ => None end.

(** a C string ends at its first zero byte *)
Fixpoint c_str (s : string) : string :=
  match s with
  | EmptyString => ""
  | String c s => if Ascii.eqb c Ascii.zero then "" else String c (c_str s)
  end.
Definition as_c_str (n : Node) : option string := match n with T_String s => Some (c_str s) | _ => None end.

(** ** Integers as strings *)

(** [format!("{n}")] and [from_str] of an unsigned integer up to [max] *)
Definition display_unsigned (n : Z) : string := NilEmpty.string_of_uint (N.to_uint (Z.to_N n)).
Definition unsigned_from_str (max : Z) (s : string) : option Z :=
  let digits := match s with String "+"%char s' => s' | _ => s end in
  match digits with
  | EmptyString => None
  | _ =>
      d ← NilEmpty.uint_of_string digits;
      let n := Z.of_N (N.of_uint d) in
      if n <=? max then Some n else None
  end.

(** ** [AsValueNode] *)

Class AsValueNode (T : Type) := {
  as_value_node : T → Node;
  from_value_node : Node → option T
}.

(** the types an integer of the private data has *)
Record u32 := U32 { u32_val : Z }.
Record usize := Usize { usize_val : Z }.
Record Oid := MkOid { oid_val : Z }.
Inductive SortDirection := Asc | Desc | NoSort.
Definition sort_direction_as_i32 (d : SortDirection) : Z :=
  match d with Asc => 1 | Desc => 5 | NoSort => 3 end.

#[export] Instance u32_value_node : AsValueNode u32 := {
  as_value_node n := T_String (display_unsigned (u32_val n));
  from_value_node node := s ← as_c_str node; U32 <$> unsigned_from_str u32_max s
}.
#[export] Instance usize_value_node : AsValueNode usize := {
  as_value_node n := T_String (display_unsigned (usize_val n));
  from_value_node node := s ← as_c_str node; Usize <$> unsigned_from_str u64_max s
}.
#[export] Instance oid_value_node : AsValueNode Oid := {
  as_value_node o := T_String (display_unsigned (oid_val o));
  from_value_node node := s ← as_c_str node; MkOid <$> unsigned_from_str u32_max s
}.
#[export] Instance sort_direction_value_node : AsValueNode SortDirection := {
  as_value_node d := T_Integer (sort_direction_as_i32 d);
  from_value_node node :=
    integer ← as_int node;
    if integer =? sort_direction_as_i32 Asc then Some Asc
    else if integer =? sort_direction_as_i32 Desc then Some Desc
    else if integer =? sort_direction_as_i32 NoSort then Some NoSort
    else None
}.

(** [unwrapOrNull]: nothing is a null constant, [makeNullConst] *)
Definition unwrapOrNull (node : option Node) : Node :=
  default (T_Const {| constvalue := null_datum; constisnull := true |}) node.
Definition makeInteger {T} `{AsValueNode T} (input : option T) : Node := unwrapOrNull (as_value_node <$> input).
Definition makeString (input : option string) : Node := unwrapOrNull (T_String <$> input).
Definition makeBoolean (input : option bool) : Node := unwrapOrNull (T_Boolean <$> input).

Definition decodeInteger {T} `{AsValueNode T} (node : Node) : option T := from_value_node node.
(** [decodeString::<T>], with [T::from_str]; text that does not parse panics *)
Definition decodeString {T} (from_str : string → option T) (node : Node) : outcome (option T) :=
  match as_c_str node with
  | None => Ok None
  | Some s =>
      match from_str s with
      | Some v => Ok (Some v)
      | None => Panic "value should parse from a String"
      end
  end.
Definition decodeBoolean (node : Node) : option bool := as_bool node.
End nodes.

(** ** [Qual] *)

Inductive Qual `{PgDatum} :=
  | Ignore
  | OperatorExpression (var : Var) (opno : Oid) (val : Const)
  | And (quals : list Qual)
  | Or (quals : list Qual)
  | Not (qual : Qual).

Section qual.
Context `{PgDatum}.

(** [expect] and [unwrap] *)
Definition expect_some {A} (o : option A) (msg : string) : outcome A :=
  match o with Some a => Ok a | None => Panic msg end.

(** [impl From<&Qual> for SearchQueryInput] *)
Fixpoint qual_query (value : Qual) : outcome SearchQueryInput :=
  match value with
  | Ignore => Ok Input.All
  | OperatorExpression _ _ val =>
      expect_some (search_query_input_from_datum (constvalue val) (constisnull val))
        "rhs of @@@ operator Qual must not be null"
  | And quals =>
      must ← traverse_ok qual_query quals;
      match must with
      | [] => Panic "Qual::And should have at least one item"
      | [q] => Ok q
      | _ => Ok (Input.Boolean must [] [])
      end
  | Or quals =>
      should ← traverse_ok qual_query quals;
      match should with
      | [] => Panic "Qual::Or should have at least one item"
      | [q] => Ok q
      | _ => Ok (Input.Boolean [] should [])
      end
  | Not qual =>
      q ← qual_query qual;
      Ok (Input.Boolean [] [] [q])
  end.

(** [impl From<Qual> for PgList<pg_sys::Node>] *)
Fixpoint qual_list (value : Qual) : list Node :=
  match value with
  | Ignore => [makeString (Some "IGNORE"%string)]
  | OperatorExpression var opno val =>
      [makeString (Some "OPERATOR_EXPRESSION"%string); T_Var var; makeInteger (Some opno); T_Const val]
  | And quals =>
      makeString (Some "AND"%string) :: makeInteger (Some (Usize (zlen quals))) ::
      map (λ qual, into_pg (qual_list qual)) quals
  | Or quals =>
      makeString (Some "OR"%string) :: makeInteger (Some (Usize (zlen quals))) ::
      map (λ qual, into_pg (qual_list qual)) quals
  | Not qual => [makeString (Some "NOT"%string); into_pg (qual_list qual)]
  end.

(** [impl From<PgList<pg_sys::Node>> for Qual]: [from_list] of a list node, where
    [qual_of_list from_list] is its [inner].  Nothing, a [?] that fails, ends in the [expect]. *)
Definition quals_of_lists (from_list : Node → outcome Qual) : list Node → outcome (option (list Qual)) :=
  fix go items :=
    match items with
    | [] => Ok (Some [])
    | (T_List _ as item) :: items =>
        qual ← from_list item;
        quals ← go items;
        Ok (option_map (cons qual) quals)
    | _ :: _ => Ok None
    end.
Definition qual_of_list (from_list : Node → outcome Qual) (value : list Node) : outcome (option Qual) :=
  match value with
  | [] => Ok None
  | first :: rest =>
      type_ ← decodeString Some first;
      match type_ with
      | None => Panic "malformed Qual list"
      | Some type_ =>
          if String.eqb type_ "IGNORE"%string then Ok (Some Ignore)
          else if String.eqb type_ "OPERATOR_EXPRESSION"%string then
            Ok (var ← rest !! 0%nat ≫= nodecast_var;
                opno ← rest !! 1%nat ≫= from_value_node;
                val ← rest !! 2%nat ≫= nodecast_const;
                Some (OperatorExpression var opno val))
          else if String.eqb type_ "AND"%string then
            match rest with
            | len :: items =>
                match from_value_node (T:=usize) len with
                | None => Ok None
                | Some _ => quals ← quals_of_lists from_list items; Ok (option_map And quals)
                end
            | [] => Ok None
            end
          else if String.eqb type_ "OR"%string then
            match rest with
            | len :: items =>
                match from_value_node (T:=usize) len with
                | None => Ok None
                | Some _ => quals ← quals_of_lists from_list items; Ok (option_map Or quals)
                end
            | [] => Ok None
            end
          else if String.eqb type_ "NOT"%string then
            match rest with
            | (T_List _ as item) :: _ => qual ← from_list item; Ok (Some (Not qual))
            | _ => Ok None
            end
          else Panic "unexpected Qual list node"
      end
  end.
Fixpoint qual_from_list (value : Node) : outcome Qual :=
  match value with
  | T_List l => q ← qual_of_list qual_from_list l; expect_some q "Qual list should not be empty"
  | _ => Panic "Qual list should not be empty"
  end.
Definition Qual_from (value : list Node) : outcome Qual := qual_from_list (into_pg value).

(** ** [extract_quals] *)

(** [list]: the children's quals, if all have one *)
Definition extract_list (extract : Node → outcome (option Qual)) : list Node → outcome (option (list Qual)) :=
  fix go args :=
    match args with
    | [] => Ok (Some [])
    | child :: args =>
        qual ← extract child;
        match qual with
        | None => Ok None
        | Some qual => quals ← go args; Ok (option_map (cons qual) quals)
        end
    end.

Definition opexpr (rti : Z) (opno : Z) (args : list Node) (pdbopoid : Z) : option Qual :=
  lhs ← args !! 0%nat;
  rhs ← args !! 1%nat;
  lhs ← nodecast_var lhs;
  rhs ← nodecast_const rhs;
  if opno =? pdbopoid then
    if negb (int_as_i32 (varno lhs) =? int_as_i32 rti) then Some Ignore
    else Some (OperatorExpression lhs (MkOid opno) rhs)
  else None.

Fixpoint extract_quals (rti : Z) (node : Node) (pdbopoid : Z) : outcome (option Qual) :=
  match node with
  | NullNode => Panic "null pointer"
  | T_List l =>
      quals ← extract_list (λ n, extract_quals rti n pdbopoid) l;
      Ok (quals ← quals; match quals with [q] => Some q | _ => Some (And quals) end)
  | T_RestrictInfo NullNode clause => extract_quals rti clause pdbopoid
  | T_RestrictInfo orclause _ => extract_quals rti orclause pdbopoid
  | T_OpExpr opno args => Ok (opexpr rti opno args pdbopoid)
  | T_BoolExpr boolop args =>
      quals ← extract_list (λ n, extract_quals rti n pdbopoid) args;
      match quals with
      | None => Ok None
      | Some quals =>
          if boolop =? AND_EXPR then Ok (Some (And quals))
          else if boolop =? OR_EXPR then Ok (Some (Or quals))
          else if boolop =? NOT_EXPR then Ok (Not <$> last quals)
          else Panic "unexpected `BoolExprType`"
      end
  | _ => Ok None
  end.
End qual.

(** ** [PrivateData] *)

Inductive OrderByStyle := Score (pk_strategy : Z) | ByField (pk_strategy : Z) (name : string).

(** [OrderByStyle::direction]: of the path key's strategy *)
Definition direction (style : OrderByStyle) : outcome SortDirection :=
  let strategy := match style with Score s | ByField s _ => s end in
  if strategy =? 1 then Ok Asc
  else if strategy =? 5 then Ok Desc
  else Panic "unrecognized sort strategy number".

Record PrivateData `{PgDatum} := {
  heaprelid : option Oid;
  indexrelid : option Oid;
  range_table_index : option u32;
  pd_quals : option (list Node);
  limit : option usize;
  sort_field : option string;
  sort_direction : option SortDirection;
  var_attname_lookup : option (list Node);
  maybe_ff : bool;
  segment_count : usize
}.

Section private_data.
Context `{PgDatum}.

Definition private_default : PrivateData :=
  {| heaprelid := None; indexrelid := None; range_table_index := None; pd_quals := None; limit := None;
     sort_field := None; sort_direction := None; var_attname_lookup := None; maybe_ff := false;
     segment_count := Usize 0 |}.

(** a record with one field replaced, of each setter *)
Definition set_heaprelid (oid : Oid) (p : PrivateData) : PrivateData :=
  {| heaprelid := Some oid; indexrelid := indexrelid p; range_table_index := range_table_index p;
     pd_quals := pd_quals p; limit := limit p; sort_field := sort_field p; sort_direction := sort_direction p;
     var_attname_lookup := var_attname_lookup p; maybe_ff := maybe_ff p; segment_count := segment_count p |}.
Definition set_indexrelid (oid : Oid) (p : PrivateData) : PrivateData :=
  {| heaprelid := heaprelid p; indexrelid := Some oid; range_table_index := range_table_index p;
     pd_quals := pd_quals p; limit := limit p; sort_field := sort_field p; sort_direction := sort_direction p;
     var_attname_lookup := var_attname_lookup p; maybe_ff := maybe_ff p; segment_count := segment_count p |}.
Definition set_range_table_index (rti : u32) (p : PrivateData) : PrivateData :=
  {| heaprelid := heaprelid p; indexrelid := indexrelid p; range_table_index := Some rti;
     pd_quals := pd_quals p; limit := limit p; sort_field := sort_field p; sort_direction := sort_direction p;
     var_attname_lookup := var_attname_lookup p; maybe_ff := maybe_ff p; segment_count := segment_count p |}.
Definition set_quals (quals : Qual) (p : PrivateData) : PrivateData :=
  {| heaprelid := heaprelid p; indexrelid := indexrelid p; range_table_index := range_table_index p;
     pd_quals := Some (qual_list quals); limit := limit p; sort_field := sort_field p;
     sort_direction := sort_direction p; var_attname_lookup := var_attname_lookup p;
     maybe_ff := maybe_ff p; segment_count := segment_count p |}.
Definition set_limit (l : option F64) (p : PrivateData) : PrivateData :=
  {| heaprelid := heaprelid p; indexrelid := indexrelid p; range_table_index := range_table_index p;
     pd_quals := pd_quals p; limit := (λ l, Usize (f64_round_as_usize l)) <$> l; sort_field := sort_field p;
     sort_direction := sort_direction p; var_attname_lookup := var_attname_lookup p;
     maybe_ff := maybe_ff p; segment_count := segment_count p |}.
Definition set_sort_direction (d : option SortDirection) (p : PrivateData) : PrivateData :=
  {| heaprelid := heaprelid p; indexrelid := indexrelid p; range_table_index := range_table_index p;
     pd_quals := pd_quals p; limit := limit p; sort_field := sort_field p; sort_direction := d;
     var_attname_lookup := var_attname_lookup p; maybe_ff := maybe_ff p; segment_count := segment_count p |}.
Definition set_sort_field (name : string) (p : PrivateData) : PrivateData :=
  {| heaprelid := heaprelid p; indexrelid := indexrelid p; range_table_index := range_table_index p;
     pd_quals := pd_quals p; limit := limit p; sort_field := Some name; sort_direction := sort_direction p;
     var_attname_lookup := var_attname_lookup p; maybe_ff := maybe_ff p; segment_count := segment_count p |}.
Definition set_sort_info (pathkey : option OrderByStyle) (p : PrivateData) : outcome PrivateData :=
  match pathkey with
  | None => Ok p
  | Some style =>
      let p := match style with Score _ => p | ByField _ name => set_sort_field name p end in
      d ← direction style;
      Ok (set_sort_direction (Some d) p)
  end.
Definition set_var_attname_lookup (l : list Node) (p : PrivateData) : PrivateData :=
  {| heaprelid := heaprelid p; indexrelid := indexrelid p; range_table_index := range_table_index p;
     pd_quals := pd_quals p; limit := limit p; sort_field := sort_field p; sort_direction := sort_direction p;
     var_attname_lookup := Some l; maybe_ff := maybe_ff p; segment_count := segment_count p |}.
Definition set_maybe_ff (maybe : bool) (p : PrivateData) : PrivateData :=
  {| heaprelid := heaprelid p; indexrelid := indexrelid p; range_table_index := range_table_index p;
     pd_quals := pd_quals p; limit := limit p; sort_field := sort_field p; sort_direction := sort_direction p;
     var_attname_lookup := var_attname_lookup p; maybe_ff := maybe; segment_count := segment_count p |}.
Definition set_segment_count (n : usize) (p : PrivateData) : PrivateData :=
  {| heaprelid := heaprelid p; indexrelid := indexrelid p; range_table_index := range_table_index p;
     pd_quals := pd_quals p; limit := limit p; sort_field := sort_field p; sort_direction := sort_direction p;
     var_attname_lookup := var_attname_lookup p; maybe_ff := maybe_ff p; segment_count := n |}.

Definition quals (p : PrivateData) : outcome (option Qual) :=
  match pd_quals p with
  | None => Ok None
  | Some l => q ← Qual_from l; Ok (Some q)
  end.

Definition serialize (p : PrivateData) : list Node :=
  [ makeInteger (heaprelid p);
    makeInteger (indexrelid p);
    makeInteger (range_table_index p);
    unwrapOrNull (into_pg <$> pd_quals p);
    makeString ((λ n, display_unsigned (usize_val n)) <$> limit p);
    makeString (sort_field p);
    makeInteger (sort_direction p);
    unwrapOrNull (into_pg <$> var_attname_lookup p);
    makeBoolean (Some (maybe_ff p));
    makeString (Some (display_unsigned (usize_val (segment_count p)))) ].

(** [input.get_ptr(i).and_then(f)], of an [f] that may panic *)
Definition get_and_then {A} (input : list Node) (i : nat) (f : Node → outcome (option A)) : outcome (option A) :=
  match input !! i with Some n => f n | None => Ok None end.
Definition usize_from_str (s : string) : option usize := Usize <$> unsigned_from_str u64_max s.
Definition deserialize (input : list Node) : outcome PrivateData :=
  limit ← get_and_then input 4 (decodeString usize_from_str);
  sort_field ← get_and_then input 5 (decodeString Some);
  segment_count ← get_and_then input 9 (decodeString usize_from_str);
  Ok {| heaprelid := input !! 0%nat ≫= decodeInteger;
        indexrelid := input !! 1%nat ≫= decodeInteger;
        range_table_index := input !! 2%nat ≫= decodeInteger;
        pd_quals := input !! 3%nat ≫= nodecast_list;
        limit := limit;
        sort_field := sort_field;
        sort_direction := input !! 6%nat ≫= decodeInteger;
        var_attname_lookup := input !! 7%nat ≫= nodecast_list_or_null;
        maybe_ff := default false (input !! 8%nat ≫= decodeBoolean);
        segment_count := default (Usize 0) segment_count |}.
End private_data.

(** ** The plan's attribute names, and the executor's state *)

Section scan_state.
Context `{PgDatum}.

(** [as AttrNumber], 16 bits *)
Definition as_i16 (z : Z) : Z := (z + 2 ^ 15) mod 2 ^ 16 - 2 ^ 15.

(** the pushes of [plan_custom_path], one [Var] with its attribute name after another *)
Fixpoint attname_lookup_nodes (vars : list (Var * string)) : list Node :=
  match vars with
  | [] => []
  | (var, attname) :: vars =>
      T_Integer (int_as_i32 (varno var)) :: T_Integer (int_as_i32 (varattno var)) :: T_String attname ::
      attname_lookup_nodes vars
  end.

Fixpoint populate_var_attname_lookup (lookup : gmap (Z * Z) string) (iter : list Node)
    : option (gmap (Z * Z) string) :=
  match iter with
  | [] => Some lookup
  | node :: iter =>
      varno ← as_int node;
      match iter with
      | [] => None
      | node :: iter =>
          varattno ← as_int node;
          match iter with
          | [] => None
          | node :: iter =>
              attname ← as_c_str node;
              populate_var_attname_lookup (<[(varno, as_i16 varattno) := attname]> lookup) iter
          end
      end
  end.

(** the fields [create_custom_scan_state] takes from the private data *)
Record PdbScanFields := {
  st_heaprelid : Oid;
  st_indexrelid : Oid;
  st_rti : u32;
  st_limit : option usize;
  st_sort_field : option string;
  st_sort_direction : option SortDirection;
  st_search_query_input : SearchQueryInput;
  st_segment_count : usize;
  st_var_attname_lookup : gmap (Z * Z) string
}.
Definition create_custom_scan_state (p : PrivateData) : outcome PdbScanFields :=
  h ← expect_some (heaprelid p) "heaprelid should have a value";
  i ← expect_some (indexrelid p) "indexrelid should have a value";
  rti ← expect_some (range_table_index p) "range table index should have been set";
  q ← quals p;
  q ← expect_some q "should have a Qual structure";
  input ← qual_query q;
  lookup ← expect_some (var_attname_lookup p) "should have an attribute name lookup";
  if zlen lookup mod 3 =? 0 then
    m ← expect_some (populate_var_attname_lookup ∅ lookup)
      "failed to properly build `var_attname_lookup` due to mis-typed List";
    Ok {| st_heaprelid := h; st_indexrelid := i; st_rti := rti; st_limit := limit p;
          st_sort_field := sort_field p; st_sort_direction := sort_direction p;
          st_search_query_input := input; st_segment_count := segment_count p;
          st_var_attname_lookup := m |}
  else Panic "correct number of var_attname_lookup entries".
End scan_state.

(** ** Round trips *)

Lemma display_unsigned_from_str max n :
  0 ≤ n ≤ max → unsigned_from_str max (display_unsigned n) = Some n.
Proof.
  intros Hn. unfold unsigned_from_str, display_unsigned.
  pose proof (NilEmpty.usu (N.to_uint (Z.to_N n))) as Hs.
  assert (∀ d, ∃ c s, NilEmpty.string_of_uint d = String c s ∧ c ≠ "+"%char ∨ d = Decimal.Nil) as Hd.
  { intros []; [by exists "0"%char, ""%string; right|eexists _, _; left; split; [done|discriminate]..]. }
  destruct (Hd (N.to_uint (Z.to_N n))) as (c & s & [[Hc Hplus]|Hnil]).
  - rewrite Hc in Hs |- *.
    assert (match String c s with String "+"%char s' => s' | _ => String c s end = String c s) as ->.
    { destruct c as [[] [] [] [] [] [] [] []]; try reflexivity. by destruct Hplus. }
    rewrite Hs. cbn [mbind option_bind]. rewrite DecimalN.Unsigned.of_to, Z2N.id by lia. zcmp.
  - exfalso. pose proof (DecimalN.Unsigned.of_to (Z.to_N n)) as Ho. rewrite Hnil in Ho. simpl in Ho.
    assert (n = 0) as -> by lia. discriminate.
Qed.

(** no zero byte *)
Definition is_c_str (s : string) : bool := bool_decide (c_str s = s).

Lemma c_str_display n : c_str (display_unsigned n) = display_unsigned n.
Proof.
  unfold display_unsigned. generalize (N.to_uint (Z.to_N n)). intros d. induction d; simpl; [done|..].
  all: by rewrite IHd.
Qed.

Section roundtrip.
Context `{PgDatum}.
Implicit Types (q : Qual) (l : list Qual) (p : PrivateData).

Definition u32_ok (n : Z) : bool := (0 <=? n) && (n <=? u32_max).
Definition usize_ok (n : Z) : bool := (0 <=? n) && (n <=? u64_max).

Lemma u32_from_value_node (n : u32) : u32_ok (u32_val n) → from_value_node (as_value_node n) = Some n.
Proof.
  destruct n as [n]. unfold u32_ok. cbn -[display_unsigned]. intros Hn.
  rewrite c_str_display, display_unsigned_from_str; [done|]. apply Is_true_true, andb_true_iff in Hn. lia.
Qed.
Lemma oid_from_value_node (o : Oid) : u32_ok (oid_val o) → from_value_node (as_value_node o) = Some o.
Proof.
  destruct o as [n]. unfold u32_ok. cbn -[display_unsigned]. intros Hn.
  rewrite c_str_display, display_unsigned_from_str; [done|]. apply Is_true_true, andb_true_iff in Hn. lia.
Qed.
Lemma usize_from_str_display n : usize_ok n → usize_from_str (display_unsigned n) = Some (Usize n).
Proof.
  intros Hn%Is_true_true%andb_true_iff. unfold usize_from_str.
  rewrite display_unsigned_from_str; [done|]. lia.
Qed.
Lemma usize_from_value_node (n : usize) : usize_ok (usize_val n) → from_value_node (as_value_node n) = Some n.
Proof.
  destruct n as [n]. cbn -[display_unsigned]. intros Hn. rewrite c_str_display.
  apply (usize_from_str_display n Hn).
Qed.
Lemma sort_direction_from_value_node (d : SortDirection) : from_value_node (as_value_node d) = Some d.
Proof. by destruct d. Qed.

(** the operators are [Oid]s and the lists are not longer than an address space *)
Fixpoint qual_ok (q : Qual) : bool :=
  match q with
  | Ignore => true
  | OperatorExpression _ opno _ => u32_ok (oid_val opno)
  | And l | Or l => usize_ok (zlen l) && forallb qual_ok l
  | Not q => qual_ok q
  end.

Lemma Qual_ind' (P : Qual → Prop) :
  P Ignore → (∀ v o c, P (OperatorExpression v o c)) →
  (∀ l, Forall P l → P (And l)) → (∀ l, Forall P l → P (Or l)) → (∀ q, P q → P (Not q)) →
  ∀ q, P q.
Proof.
  intros HI HO HA HR HN. fix IH 1. intros [| v o c|l|l|q]; [done|apply HO| | |by apply HN].
  - apply HA. induction l; constructor; [apply IH|done].
  - apply HR. induction l; constructor; [apply IH|done].
Qed.

Lemma qual_list_node q : into_pg (qual_list q) = T_List (qual_list q).
Proof. by destruct q. Qed.

Lemma quals_of_lists_map (from_list : Node → outcome Qual) l :
  Forall (λ q, from_list (into_pg (qual_list q)) = Ok q) l →
  quals_of_lists from_list (map (λ q, into_pg (qual_list q)) l) = Ok (Some l).
Proof.
  induction 1 as [|q l Hq _ IH]; [done|]. cbn [map quals_of_lists]. rewrite qual_list_node in Hq |- *.
  rewrite Hq. cbn [mbind outcome_bind]. by rewrite IH.
Qed.

(** what each tag reads *)
Lemma qual_of_operator f v o c : u32_ok (oid_val o) →
  qual_of_list f (qual_list (OperatorExpression v o c)) = Ok (Some (OperatorExpression v o c)).
Proof.
  intros Ho%oid_from_value_node.
  cbn -[from_value_node as_value_node]. by rewrite Ho.
Qed.
Lemma qual_of_and f l : usize_ok (zlen l) →
  qual_of_list f (qual_list (And l)) =
    (qs ← quals_of_lists f (map (λ q, into_pg (qual_list q)) l); Ok (option_map And qs)).
Proof.
  intros Hl%(usize_from_value_node (Usize _)).
  cbn -[from_value_node as_value_node zlen quals_of_lists]. by rewrite Hl.
Qed.
Lemma qual_of_or f l : usize_ok (zlen l) →
  qual_of_list f (qual_list (Or l)) =
    (qs ← quals_of_lists f (map (λ q, into_pg (qual_list q)) l); Ok (option_map Or qs)).
Proof.
  intros Hl%(usize_from_value_node (Usize _)).
  cbn -[from_value_node as_value_node zlen quals_of_lists]. by rewrite Hl.
Qed.
Lemma qual_of_not f q :
  qual_of_list f (qual_list (Not q)) = (q ← f (into_pg (qual_list q)); Ok (Some (Not q))).
Proof. by destruct q. Qed.

(** the list of a qual reads back *)
Lemma qual_list_roundtrip q : qual_ok q → qual_from_list (into_pg (qual_list q)) = Ok q.
Proof.
  induction q as [|v o c|l IH|l IH|q IH] using Qual_ind'; cbn [qual_ok]; intros Hok;
    rewrite qual_list_node; cbn [qual_from_list].
  - done.
  - by rewrite qual_of_operator.
  - apply andb_prop_elim in Hok as [Hlen Hall%forallb_True].
    rewrite qual_of_and, quals_of_lists_map; [done| |done].
    apply Forall_forall. intros q Hq. rewrite Forall_forall in IH, Hall. auto.
  - apply andb_prop_elim in Hok as [Hlen Hall%forallb_True].
    rewrite qual_of_or, quals_of_lists_map; [done| |done].
    apply Forall_forall. intros q Hq. rewrite Forall_forall in IH, Hall. auto.
  - rewrite qual_of_not, IH; done.
Qed.

Lemma quals_set q p : qual_ok q → quals (set_quals q p) = Ok (Some q).
Proof. intros Hq%qual_list_roundtrip. unfold quals, Qual_from. cbn [pd_quals set_quals]. by rewrite Hq. Qed.

(** ids in their width, a name without zero bytes, and quals that are not an empty list *)
Definition private_ok (p : PrivateData) : bool :=
  from_option (λ o, u32_ok (oid_val o)) true (heaprelid p) &&
  from_option (λ o, u32_ok (oid_val o)) true (indexrelid p) &&
  from_option (λ n, u32_ok (u32_val n)) true (range_table_index p) &&
  from_option (λ n, usize_ok (usize_val n)) true (limit p) &&
  from_option is_c_str true (sort_field p) &&
  from_option (λ nodes, negb (zlen nodes =? 0)) true (pd_quals p) &&
  usize_ok (usize_val (segment_count p)).

Lemma decode_made `{AsValueNode T} (ok : T → bool) (o : option T) :
  (∀ v, ok v → from_value_node (as_value_node v) = Some v) →
  from_value_node (T_Const {| constvalue := null_datum; constisnull := true |}) = None →
  from_option ok true o → decodeInteger (makeInteger o) = o.
Proof. intros Hv Hn Ho. destruct o as [v|]; [by apply Hv|exact Hn]. Qed.

Lemma decode_limit (o : option usize) : from_option (λ n, usize_ok (usize_val n)) true o →
  decodeString usize_from_str (makeString ((λ n, display_unsigned (usize_val n)) <$> o)) = Ok o.
Proof.
  destruct o as [[n]|]; [|done]. cbn -[display_unsigned usize_from_str]. intros Hn. unfold decodeString.
  cbn -[display_unsigned usize_from_str]. rewrite c_str_display, usize_from_str_display; done.
Qed.

(** the private data of a plan reads back *)
Lemma private_data_read p : private_ok p → deserialize (serialize p) = Ok p.
Proof.
  unfold private_ok. rewrite !andb_True. intros ((((((Hh & Hi) & Hr) & Hl) & Hs) & Hq) & Hc).
  apply (decode_made _ _ oid_from_value_node eq_refl) in Hh, Hi.
  apply (decode_made _ _ u32_from_value_node eq_refl) in Hr.
  apply decode_limit in Hl. apply (decode_limit (Some _)) in Hc.
  assert (decodeString Some (makeString (sort_field p)) = Ok (sort_field p)) as Hs'.
  { destruct (sort_field p) as [s|]; [|done]. apply bool_decide_unpack in Hs. cbn. by rewrite Hs. }
  assert (decodeInteger (makeInteger (sort_direction p)) = sort_direction p) as Hd
    by (destruct (sort_direction p) as [[]|]; done).
  unfold deserialize, serialize, get_and_then.
  cbn [lookup list_lookup mbind option_bind].
  rewrite Hl. cbn [mbind outcome_bind]. rewrite Hs'. cbn [mbind outcome_bind fmap option_fmap option_map] in Hc |- *.
  rewrite Hc. cbn [mbind outcome_bind]. rewrite Hh, Hi, Hr, Hd. clear Hl Hs' Hc Hh Hi Hr Hd.
  destruct p as [h i r q l s d v ff c]. f_equal. cbn in *. f_equal.
  - by destruct q as [[|]|].
  - by destruct v as [[|]|].
Qed.
End roundtrip.

(** the attribute names of a plan's variables, the last one of a variable that comes twice *)
Definition attnames (vars : list (Var * string)) : gmap (Z * Z) string :=
  foldl (λ m '(var, attname), <[(varno var, varattno var) := attname]> m) ∅ vars.
Definition var_ok (var : Var) : bool :=
  (int_as_i32 (varno var) =? varno var) && (int_as_i32 (varattno var) =? varattno var) &&
  (as_i16 (varattno var) =? varattno var).

Section scan_state_read.
Context `{PgDatum}.

Lemma zlen_attname_lookup vars : zlen (attname_lookup_nodes vars) = 3 * zlen vars.
Proof.
  induction vars as [|[var name] vars IH]; [done|]. cbn [attname_lookup_nodes].
  rewrite !zlen_cons, IH. lia.
Qed.

Lemma populate_attname_lookup vars m :
  Forall (λ '(var, attname), var_ok var ∧ is_c_str attname) vars →
  populate_var_attname_lookup m (attname_lookup_nodes vars) =
    Some (foldl (λ m '(var, attname), <[(varno var, varattno var) := attname]> m) m vars).
Proof.
  intros Hall. revert m. induction Hall as [|[var name] vars [Hv Hn] _ IH]; intros m; [done|].
  cbn [attname_lookup_nodes populate_var_attname_lookup as_int as_c_str mbind option_bind foldl].
  unfold var_ok in Hv. rewrite !andb_True in Hv. destruct Hv as [[Hno Hatt] H16].
  apply bool_decide_unpack in Hn. rewrite Hn.
  apply Is_true_true, Z.eqb_eq in Hno, Hatt, H16. rewrite Hno, Hatt, H16. apply IH.
Qed.

(** C19: What the planner puts into a plan's private data is what the executor starts
    from: the list of nodes reads back as the same private data, with the same
    qualifiers, whose query, limit, sort order and names of columns - the last one of a
    column that comes twice - are those of the scan's state. *)
Theorem plan_reaches_executor (p : PrivateData) h i rti q input vars :
  private_ok p → qual_ok q → qual_query q = Ok input →
  Forall (λ '(var, attname), var_ok var ∧ is_c_str attname) vars →
  heaprelid p = Some h → indexrelid p = Some i → range_table_index p = Some rti →
  let plan := set_var_attname_lookup (attname_lookup_nodes vars) (set_quals q p) in
  deserialize (serialize plan) = Ok plan ∧
  quals plan = Ok (Some q) ∧
  create_custom_scan_state plan = Ok
    {| st_heaprelid := h; st_indexrelid := i; st_rti := rti; st_limit := limit p;
       st_sort_field := sort_field p; st_sort_direction := sort_direction p;
       st_search_query_input := input; st_segment_count := segment_count p;
       st_var_attname_lookup := attnames vars |}.
Proof.
  intros Hp Hq Hin Hvars Hh Hi Hr plan. split; [|split].
  - apply private_data_read. unfold private_ok in *. rewrite !andb_True in *.
    unfold plan. cbn -[zlen qual_list]. repeat split; try tauto.
    destruct q; cbn [qual_list]; rewrite zlen_cons; apply Is_true_true, negb_true_iff, Z.eqb_neq;
      match goal with |- context [zlen ?l] => pose proof (zlen_nonneg l) end; lia.
  - exact (quals_set q p Hq).
  - pose proof (quals_set q p Hq) as Hqs. unfold create_custom_scan_state, plan, quals in *.
    cbn [heaprelid indexrelid range_table_index pd_quals var_attname_lookup limit sort_field sort_direction
         segment_count set_quals set_var_attname_lookup] in *.
    rewrite Hh, Hi, Hr. cbn [expect_some mbind outcome_bind].
    rewrite Hqs. cbn [expect_some mbind outcome_bind]. rewrite Hin. cbn [mbind outcome_bind].
    rewrite zlen_attname_lookup, (Z.mul_comm 3), Z_mod_mult, populate_attname_lookup by done. done.
Qed.
End scan_state_read.
