(* ===== verification/WhereClause.v ===== *)
(** * WhereClause: what the query of a WHERE clause matches

    The meaning of [CustomScan.v]'s conversions: a restriction clause as Postgres evaluates it
    ([clause_eval]) against what the query of its [Qual] matches in the index.  A negation is
    a parameter of both, because the code's is a Boolean query without a positive clause. *)

From S2P Require Import Prelude PgUtils Query RangeQuery CustomScan.

Open Scope Z_scope.

Section meaning.
Context `{RustF64} `{TantivyTypes} `{TantivyText} `{TantivyRegex} `{RustBuild}
  `{Chrono} `{!PgDates} `{AsFieldType} `{!TantivyParser} `{!TantivySearcher} `{!TantivySearch} `{!PgDatum}.
Variables (rti pdbopoid : Z).
(** the query of each right hand side of [@@@] *)
Variable atoms : Const → Query.
Implicit Types (d : Doc) (c : Const).

(** the right hand side decodes to a query input that converts to [atoms c], whatever the state of the
    parser *)
Definition atom_ok (c : Const) : Prop :=
  ∃ input, search_query_input_from_datum (constvalue c) (constisnull c) = Some input ∧
    ∀ p, ∃ p', into_tantivy_query input p = Ok (atoms c, p').

(** a clause as Postgres evaluates it for the row of a document of the scanned relation, the operators on
    other relations left out; [neg] is the meaning of a negation *)
Fixpoint clause_eval (neg : Prop → Prop) (node : Node) (d : Doc) : Prop :=
  match node with
  | T_List l => foldr (λ n P, clause_eval neg n d ∧ P) True l
  | T_RestrictInfo NullNode clause => clause_eval neg clause d
  | T_RestrictInfo orclause _ => clause_eval neg orclause d
  | T_OpExpr _ (T_Var v :: T_Const c :: _) =>
      if int_as_i32 (varno v) =? int_as_i32 rti then matches (atoms c) d else True
  | T_BoolExpr boolop args =>
      if boolop =? AND_EXPR then foldr (λ n P, clause_eval neg n d ∧ P) True args
      else if boolop =? OR_EXPR then foldr (λ n P, clause_eval neg n d ∨ P) False args
      else match args with [arg] => neg (clause_eval neg arg d) | _ => False end
  | _ => False
  end.
Definition clause_holds : Node → Doc → Prop := clause_eval not.

(** the clauses the scan takes over: [@@@] with a column and a constant, under lists, AND, OR and NOT *)
Fixpoint supported (node : Node) : bool :=
  match node with
  | T_List l => negb (zlen l =? 0) && forallb supported l
  | T_RestrictInfo NullNode clause => supported clause
  | T_RestrictInfo orclause _ => supported orclause
  | T_OpExpr opno (T_Var _ :: T_Const _ :: _) => opno =? pdbopoid
  | T_BoolExpr boolop args =>
      ((boolop =? AND_EXPR) || (boolop =? OR_EXPR) || ((boolop =? NOT_EXPR) && (zlen args =? 1))) &&
      negb (zlen args =? 0) && forallb supported args
  | _ => false
  end.
Fixpoint negation_free (node : Node) : bool :=
  match node with
  | T_List l => forallb negation_free l
  | T_RestrictInfo NullNode clause => negation_free clause
  | T_RestrictInfo orclause _ => negation_free orclause
  | T_BoolExpr boolop args => negb (boolop =? NOT_EXPR) && forallb negation_free args
  | _ => true
  end.
(** the right hand sides of the scanned relation's operators *)
Fixpoint clause_consts (node : Node) : list Const :=
  match node with
  | T_List l => concat (map clause_consts l)
  | T_RestrictInfo NullNode clause => clause_consts clause
  | T_RestrictInfo orclause _ => clause_consts orclause
  | T_OpExpr _ (T_Var v :: T_Const c :: _) => if int_as_i32 (varno v) =? int_as_i32 rti then [c] else []
  | T_BoolExpr _ args => concat (map clause_consts args)
  | _ => []
  end.

(** the same of quals *)
Fixpoint qual_eval (neg : Prop → Prop) (q : Qual) (d : Doc) : Prop :=
  match q with
  | Ignore => True
  | OperatorExpression _ _ c => matches (atoms c) d
  | And l => foldr (λ q P, qual_eval neg q d ∧ P) True l
  | Or l => foldr (λ q P, qual_eval neg q d ∨ P) False l
  | Not q => neg (qual_eval neg q d)
  end.
Fixpoint qual_consts (q : Qual) : list Const :=
  match q with
  | Ignore => []
  | OperatorExpression _ _ c => [c]
  | And l | Or l => concat (map qual_consts l)
  | Not q => qual_consts q
  end.
Fixpoint nonempty (q : Qual) : bool :=
  match q with
  | And l | Or l => negb (zlen l =? 0) && forallb nonempty l
  | Not q => nonempty q
  | _ => true
  end.

(** *** From quals to queries *)

(** what the code makes of a negation: a Boolean query without a positive clause matches nothing *)
Definition nothing_matches (P : Prop) : Prop := False.

Definition converts (input : SearchQueryInput) (P : Doc → Prop) : Prop :=
  ∀ p, ∃ query p', into_tantivy_query input p = Ok (query, p') ∧ ∀ d, matches query d ↔ P d.

Lemma converts_all (inputs : list SearchQueryInput) (Ps : list (Doc → Prop)) :
  Forall2 converts inputs Ps →
  ∀ p, ∃ queries p', traverse into_tantivy_query inputs p = Ok (queries, p') ∧
    Forall2 (λ query (P : Doc → Prop), ∀ d, matches query d ↔ P d) queries Ps.
Proof.
  induction 1 as [|input P inputs Ps Hin _ IH]; intros p; [by exists [], p; split; [|constructor]|].
  destruct (Hin p) as (query & p1 & Hrun & Hm). destruct (IH p1) as (queries & p2 & Hruns & Hms).
  exists (query :: queries), p2. split; [|by constructor]. cbn [traverse].
  rewrite (bind_ok _ _ _ _ _ Hrun). change (traverse into_tantivy_query inputs p1 = Ok (queries, p2)) in Hruns.
  rewrite (bind_ok _ _ _ _ _ Hruns). done.
Qed.

(** a conjunction of several clauses, and a disjunction *)
Lemma converts_must inputs Ps :
  Forall2 converts inputs Ps → inputs ≠ [] →
  converts (Input.Boolean inputs [] []) (λ d, foldr (λ (P : Doc → Prop) Q, P d ∧ Q) True Ps).
Proof.
  intros Hall Hne p. destruct (converts_all _ _ Hall p) as (queries & p' & Hrun & Hm).
  destruct (boolean_query_matches p p' p' p' inputs [] [] queries [] [] Hrun eq_refl eq_refl)
    as (query & Hq & Hmq & _).
  exists query, p'. split; [done|]. intros d. rewrite Hmq.
  assert (queries ≠ []) as Hqn by (intros ->; apply Forall2_nil_inv_l in Hm as ->;
    by apply Forall2_nil_inv_r in Hall).
  assert (Forall (λ q, matches q d) queries ↔ foldr (λ (P : Doc → Prop) Q, P d ∧ Q) True Ps) as ->.
  { clear -Hm. induction Hm as [|query P queries Ps Hq _ IH]; [done|]. rewrite Forall_cons, IH, Hq. done. }
  rewrite Forall_nil. intuition.
Qed.
Lemma converts_should inputs Ps :
  Forall2 converts inputs Ps →
  converts (Input.Boolean [] inputs []) (λ d, foldr (λ (P : Doc → Prop) Q, P d ∨ Q) False Ps).
Proof.
  intros Hall p. destruct (converts_all _ _ Hall p) as (queries & p' & Hrun & Hm).
  destruct (boolean_query_matches p p p' p' [] inputs [] [] queries [] eq_refl Hrun eq_refl)
    as (query & Hq & Hmq & _).
  exists query, p'. split; [done|]. intros d. rewrite Hmq.
  assert (Exists (λ q, matches q d) queries ↔ foldr (λ (P : Doc → Prop) Q, P d ∨ Q) False Ps) as ->.
  { clear -Hm. induction Hm as [|query P queries Ps Hq _ IH]; [apply Exists_nil|].
    rewrite Exists_cons, IH, Hq. done. }
  rewrite !Forall_nil. naive_solver.
Qed.
Lemma converts_must_not input P :
  converts input P → converts (Input.Boolean [] [] [input]) (λ d, nothing_matches (P d)).
Proof.
  intros Hin p. destruct (Hin p) as (q & p' & Hrun & _).
  assert (traverse into_tantivy_query [input] p = Ok ([q], p')) as Hall
    by (cbn [traverse]; by rewrite (bind_ok _ _ _ _ _ Hrun)).
  destruct (boolean_query_matches p p p p' [] [] [input] [] [] [q] eq_refl eq_refl Hall)
    as (query & Hq & _ & Hno).
  exists query, p'. split; [done|]. intros d. split; [apply (Hno eq_refl eq_refl d)|done].
Qed.

Lemma foldr_map_and {A} (f : A → Doc → Prop) l d :
  foldr (λ (P : Doc → Prop) Q, P d ∧ Q) True (map f l) = foldr (λ x P, f x d ∧ P) True l.
Proof. induction l as [|x l IH]; [done|]. simpl. by rewrite IH. Qed.
Lemma foldr_map_or {A} (f : A → Doc → Prop) l d :
  foldr (λ (P : Doc → Prop) Q, P d ∨ Q) False (map f l) = foldr (λ x P, f x d ∨ P) False l.
Proof. induction l as [|x l IH]; [done|]. simpl. by rewrite IH. Qed.

Lemma converts_iff input (P Q : Doc → Prop) : (∀ d, P d ↔ Q d) → converts input P → converts input Q.
Proof.
  intros HPQ Hin p. destruct (Hin p) as (q & p' & Hrun & Hm). exists q, p'. split; [done|].
  intros d. by rewrite Hm.
Qed.

(** the inputs of the clauses of an AND or an OR *)
Lemma qual_queries (l : list Qual) :
  Forall (λ q, nonempty q → Forall atom_ok (qual_consts q) →
    ∃ input, qual_query q = Ok input ∧ converts input (qual_eval nothing_matches q)) l →
  forallb nonempty l → Forall atom_ok (concat (map qual_consts l)) →
  ∃ inputs, traverse_ok qual_query l = Ok inputs ∧
    Forall2 converts inputs (map (qual_eval nothing_matches) l).
Proof.
  induction 1 as [|q l Hq _ IH]; intros Hne Hat; [by exists []; split; [|constructor]|].
  cbn [forallb map concat] in Hne, Hat. apply andb_prop_elim in Hne as [Hne1 Hne2].
  apply Forall_app in Hat as [Hat1 Hat2].
  destruct (Hq Hne1 Hat1) as (input & Hin & Hc). destruct (IH Hne2 Hat2) as (inputs & Hins & Hcs).
  exists (input :: inputs). cbn [traverse_ok map]. rewrite Hin. cbn [mbind outcome_bind]. rewrite Hins.
  split; [done|by constructor].
Qed.

(** the query of a qual matches what the qual says, but a negation is never satisfied *)
Lemma qual_query_converts (q : Qual) :
  nonempty q → Forall atom_ok (qual_consts q) →
  ∃ input, qual_query q = Ok input ∧ converts input (qual_eval nothing_matches q).
Proof.
  induction q as [|v o c|l IH|l IH|q IH] using Qual_ind'; cbn [nonempty qual_consts qual_query qual_eval];
    intros Hne Hat.
  - exists Input.All. split; [done|]. intros p. exists AllQuery, p. split; [done|].
    intros d. split; [done|]. intros _. apply matches_all.
  - apply Forall_singleton in Hat as (input & Hin & Hrun). exists input. rewrite Hin. split; [done|].
    intros p. destruct (Hrun p) as [p' Hp']. by exists (atoms c), p'.
  - apply andb_prop_elim in Hne as [Hlen Hne]. destruct (qual_queries l IH Hne Hat) as (inputs & Hins & Hcs).
    rewrite Hins. cbn [mbind outcome_bind].
    pose proof (Forall2_length _ _ _ Hcs) as Hl. rewrite length_map in Hl.
    destruct inputs as [|i1 [|i2 inputs]].
    + by destruct l.
    + exists i1. split; [done|]. destruct l as [|q [|]]; try done. cbn [map] in Hcs.
      apply Forall2_cons in Hcs as [Hc _]. revert Hc. apply converts_iff. intros d. simpl. tauto.
    + eexists. split; [done|]. apply converts_must in Hcs; [|done]. revert Hcs. apply converts_iff.
      intros d. by rewrite foldr_map_and.
  - apply andb_prop_elim in Hne as [Hlen Hne]. destruct (qual_queries l IH Hne Hat) as (inputs & Hins & Hcs).
    rewrite Hins. cbn [mbind outcome_bind].
    pose proof (Forall2_length _ _ _ Hcs) as Hl. rewrite length_map in Hl.
    destruct inputs as [|i1 [|i2 inputs]].
    + by destruct l.
    + exists i1. split; [done|]. destruct l as [|q [|]]; try done. cbn [map] in Hcs.
      apply Forall2_cons in Hcs as [Hc _]. revert Hc. apply converts_iff. intros d. simpl. tauto.
    + eexists. split; [done|]. apply converts_should in Hcs. revert Hcs. apply converts_iff.
      intros d. by rewrite foldr_map_or.
  - destruct (IH Hne Hat) as (input & Hin & Hc). rewrite Hin. cbn [mbind outcome_bind].
    eexists. split; [done|]. by apply converts_must_not.
Qed.

(** *** From clauses to quals *)

Lemma Node_ind' (P : Node → Prop) :
  P NullNode → (∀ l, Forall P l → P (T_List l)) → (∀ o r, P o → P r → P (T_RestrictInfo o r)) →
  (∀ o l, P (T_OpExpr o l)) → (∀ b l, Forall P l → P (T_BoolExpr b l)) →
  (∀ v, P (T_Var v)) → (∀ c, P (T_Const c)) → (∀ s, P (T_String s)) → (∀ i, P (T_Integer i)) →
  (∀ b, P (T_Boolean b)) → P T_Other → ∀ n, P n.
Proof.
  intros HN HL HR HO HB HV HC HS HI HBo HOt. fix IH 1. intros [|l|o r|o l|b l|v|c|s|i|b|].
  - exact HN.
  - apply HL. induction l; constructor; [apply IH|assumption].
  - apply HR; apply IH.
  - apply HO.
  - apply HB. induction l; constructor; [apply IH|assumption].
  - apply HV.
  - apply HC.
  - apply HS.
  - apply HI.
  - apply HBo.
  - exact HOt.
Qed.

(** trees the planner makes: no null pointers, no empty lists, the three Boolean operators *)
Fixpoint well_formed (node : Node) : bool :=
  match node with
  | NullNode => false
  | T_List l => negb (zlen l =? 0) && forallb well_formed l
  | T_RestrictInfo NullNode clause => well_formed clause
  | T_RestrictInfo orclause _ => well_formed orclause
  | T_BoolExpr boolop args =>
      ((boolop =? AND_EXPR) || (boolop =? OR_EXPR) || ((boolop =? NOT_EXPR) && (zlen args =? 1))) &&
      negb (zlen args =? 0) && forallb well_formed args
  | _ => true
  end.

(** the qual of a clause: as many right hand sides, and true of the same documents *)
Definition qual_of (node : Node) (q : Qual) : Prop :=
  nonempty q ∧ qual_consts q = clause_consts node ∧
  ∀ (neg : Prop → Prop) d, (∀ P Q, (P ↔ Q) → (neg P ↔ neg Q)) → qual_eval neg q d ↔ clause_eval neg node d.
Definition extracts (node : Node) : Prop :=
  if supported node then ∃ q, extract_quals rti node pdbopoid = Ok (Some q) ∧ qual_of node q
  else extract_quals rti node pdbopoid = Ok None.

Lemma extract_list_spec l :
  Forall (λ n, well_formed n → extracts n) l → forallb well_formed l →
  if forallb supported l
  then ∃ qs, extract_list (λ n, extract_quals rti n pdbopoid) l = Ok (Some qs) ∧ Forall2 qual_of l qs
  else extract_list (λ n, extract_quals rti n pdbopoid) l = Ok None.
Proof.
  induction 1 as [|n l Hn _ IH]; cbn [forallb]; intros Hwf; [by exists []; split; [|constructor]|].
  apply andb_prop_elim in Hwf as [Hw1 Hw2]. specialize (IH Hw2). specialize (Hn Hw1).
  unfold extracts in Hn. cbn [extract_list]. destruct (supported n); cbn [andb].
  - destruct Hn as (q & Hq & Hof). rewrite Hq. cbn [mbind outcome_bind]. destruct (forallb supported l).
    + destruct IH as (qs & Hqs & Hall). rewrite Hqs. exists (q :: qs). split; [done|by constructor].
    + by rewrite IH.
  - by rewrite Hn.
Qed.

Lemma quals_of_nonempty l qs : Forall2 qual_of l qs → forallb nonempty qs.
Proof. induction 1 as [|n q l qs (Hne & _) _ IH]; [done|]. cbn [forallb]. by apply andb_prop_intro. Qed.
Lemma quals_of_consts l qs :
  Forall2 qual_of l qs → concat (map qual_consts qs) = concat (map clause_consts l).
Proof. induction 1 as [|n q l qs (_ & Hc & _) _ IH]; [done|]. cbn [map concat]. by rewrite Hc, IH. Qed.
Lemma quals_of_eval l qs (neg : Prop → Prop) d :
  Forall2 qual_of l qs → (∀ P Q, (P ↔ Q) → (neg P ↔ neg Q)) →
  (foldr (λ q P, qual_eval neg q d ∧ P) True qs ↔ foldr (λ n P, clause_eval neg n d ∧ P) True l) ∧
  (foldr (λ q P, qual_eval neg q d ∨ P) False qs ↔ foldr (λ n P, clause_eval neg n d ∨ P) False l).
Proof.
  intros Hall Hneg. induction Hall as [|n q l qs (_ & _ & He) _ [IH1 IH2]]; [done|].
  cbn [foldr]. by rewrite (He neg d Hneg), IH1, IH2.
Qed.
Lemma quals_of_zlen l qs : Forall2 qual_of l qs → zlen qs = zlen l.
Proof. intros Hl%Forall2_length. unfold zlen. by rewrite Hl. Qed.

Lemma qual_of_and_list l qs (n : Node) :
  Forall2 qual_of l qs → zlen l ≠ 0 → clause_consts n = concat (map clause_consts l) →
  (∀ neg d, clause_eval neg n d = foldr (λ n P, clause_eval neg n d ∧ P) True l) →
  qual_of n (And qs).
Proof.
  intros Hall Hl Hc He. split; [|split].
  - cbn [nonempty]. rewrite (quals_of_zlen _ _ Hall). apply andb_prop_intro.
    split; [apply Is_true_true, negb_true_iff, Z.eqb_neq; lia|by apply (quals_of_nonempty l)].
  - cbn [qual_consts]. by rewrite (quals_of_consts _ _ Hall).
  - intros neg d Hneg. rewrite He. by apply quals_of_eval.
Qed.

Lemma zlen_single {A} (l : list A) : zlen l = 1 → ∃ x, l = [x].
Proof.
  destruct l as [|x l]; [done|]. rewrite zlen_cons. intros Hl. exists x. f_equal. apply zlen_zero. lia.
Qed.

(** every tree of the planner is taken over exactly when it is supported *)
Lemma extract_spec (node : Node) : well_formed node → extracts node.
Proof.
  induction node as [|l IH|o r IHo IHr|opno args|b args IH|v|c|s|i|b|] using Node_ind'; intros Hwf; try done.
  - cbn [well_formed] in Hwf. apply andb_prop_elim in Hwf as [Hlen Hwf].
    pose proof (extract_list_spec l IH Hwf) as Hl. unfold extracts. cbn [supported extract_quals].
    apply Is_true_true in Hlen. rewrite Hlen. cbn [andb]. apply negb_true_iff, Z.eqb_neq in Hlen.
    destruct (forallb supported l).
    + destruct Hl as (qs & Hqs & Hall). rewrite Hqs. cbn [mbind outcome_bind option_bind].
      destruct qs as [|q [|q2 qs]].
      * eexists. split; [done|]. by apply (qual_of_and_list l).
      * exists q. split; [done|]. destruct l as [|n [|]]; try (by apply Forall2_length in Hall).
        apply Forall2_cons in Hall as [(Hne & Hc & He) _]. split; [done|]. cbn [clause_consts map concat].
        rewrite app_nil_r. split; [done|]. intros neg d Hneg. cbn [clause_eval foldr]. rewrite (He neg d Hneg). tauto.
      * eexists. split; [done|]. by apply (qual_of_and_list l).
    + by rewrite Hl.
  - destruct o; [apply IHr|apply IHo..]; exact Hwf.
  - unfold extracts. cbn [supported extract_quals]. unfold opexpr.
    destruct args as [|[] [|[] args]]; try done. cbn [lookup list_lookup mbind option_bind nodecast_var nodecast_const].
    destruct (opno =? pdbopoid); [|done]. unfold qual_of. cbn [clause_consts clause_eval].
    destruct (int_as_i32 (varno var) =? int_as_i32 rti); cbn [negb]; eexists; split; done.
  - cbn [well_formed] in Hwf. apply andb_prop_elim in Hwf as [Hwf1 Hwf]. apply andb_prop_elim in Hwf1 as [Hop Hlen].
    pose proof (extract_list_spec args IH Hwf) as Hl. unfold extracts. cbn [supported extract_quals].
    apply Is_true_true in Hop, Hlen. rewrite Hop, Hlen. cbn [andb]. apply negb_true_iff, Z.eqb_neq in Hlen.
    destruct (forallb supported args); [|by rewrite Hl].
    destruct Hl as (qs & Hqs & Hall). rewrite Hqs. cbn [mbind outcome_bind].
    destruct (b =? AND_EXPR) eqn:HA.
    { eexists. split; [done|]. apply (qual_of_and_list args); [done..|]. intros. cbn [clause_eval]. by rewrite HA. }
    destruct (b =? OR_EXPR) eqn:HO.
    { eexists. split; [done|]. pose proof (quals_of_nonempty _ _ Hall). split; [|split].
      - cbn [nonempty]. rewrite (quals_of_zlen _ _ Hall). apply andb_prop_intro.
        split; [apply Is_true_true, negb_true_iff, Z.eqb_neq; lia|done].
      - cbn [qual_consts clause_consts]. by apply quals_of_consts.
      - intros neg d Hneg. cbn [qual_eval clause_eval]. rewrite HA, HO. by apply quals_of_eval. }
    cbn [orb] in Hop. apply andb_true_iff in Hop as [HN (n & ->)%Z.eqb_eq%zlen_single]. rewrite HN.
    apply Forall2_cons_inv_l in Hall as (q & qs' & (Hne & Hc & He) & Hnil & ->).
    apply Forall2_nil_inv_l in Hnil as ->. eexists. split; [done|]. split; [done|]. split.
    + cbn [clause_consts map concat]. by rewrite app_nil_r.
    + intros neg d Hneg. cbn [qual_eval clause_eval]. rewrite HA, HO. apply Hneg. by apply He.
Qed.

Lemma supported_well_formed (node : Node) : supported node → well_formed node.
Proof.
  induction node as [|l IH|o r IHo IHr|opno args|b args IH|v|c|s|i|b|] using Node_ind'; intros Hs; try done.
  - cbn [supported well_formed] in *. apply andb_prop_elim in Hs as [Hlen Hall%forallb_True].
    apply andb_prop_intro. split; [done|]. apply forallb_True. revert IH Hall. rewrite !Forall_forall. auto.
  - destruct o; [apply IHr|apply IHo..]; exact Hs.
  - cbn [supported well_formed] in *. apply andb_prop_elim in Hs as [Hop Hall%forallb_True].
    apply andb_prop_intro. split; [done|]. apply forallb_True. revert IH Hall. rewrite !Forall_forall. auto.
Qed.

Lemma negation_free_eval (node : Node) (neg neg' : Prop → Prop) d :
  negation_free node → well_formed node → clause_eval neg node d ↔ clause_eval neg' node d.
Proof.
  assert (∀ l, Forall (λ n, negation_free n → well_formed n → clause_eval neg n d ↔ clause_eval neg' n d) l →
    forallb negation_free l → forallb well_formed l →
    (foldr (λ n P, clause_eval neg n d ∧ P) True l ↔ foldr (λ n P, clause_eval neg' n d ∧ P) True l) ∧
    (foldr (λ n P, clause_eval neg n d ∨ P) False l ↔ foldr (λ n P, clause_eval neg' n d ∨ P) False l)) as Hl.
  { induction 1 as [|n l Hn _ IH]; [done|]. cbn [forallb foldr].
    intros [Hf1 Hf2]%andb_prop_elim [Hw1 Hw2]%andb_prop_elim. destruct (IH Hf2 Hw2) as [IH1 IH2].
    by rewrite (Hn Hf1 Hw1), IH1, IH2. }
  induction node as [|l IH|o r IHo IHr|opno args|b args IH|v|c|s|i|b|] using Node_ind';
    cbn [negation_free well_formed]; intros Hf Hwf; try done.
  - apply andb_prop_elim in Hwf as [_ Hwf]. cbn [clause_eval]. by apply Hl.
  - destruct o; [apply IHr|apply IHo..]; done.
  - apply andb_prop_elim in Hwf as [Hwf1 Hwf]. apply andb_prop_elim in Hwf1 as [Hop _].
    apply andb_prop_elim in Hf as [Hno Hf]. cbn [clause_eval].
    destruct (b =? AND_EXPR) eqn:HA; [by apply Hl|]. destruct (b =? OR_EXPR) eqn:HO; [by apply Hl|].
    apply Is_true_true, negb_true_iff in Hno. cbn [orb] in Hop. by rewrite Hno in Hop.
Qed.

(** C16: A custom scan takes a WHERE clause over exactly when it consists of @@@
    operators with a column and a constant under AND, OR and NOT; without a NOT, the
    query it builds matches a document exactly when Postgres would evaluate the clause
    to true for its row, the operators on other relations left out. *)
Theorem where_clause_query (node : Node) :
  well_formed node → Forall atom_ok (clause_consts node) →
  (¬ supported node ∧ extract_quals rti node pdbopoid = Ok None) ∨
  (supported node ∧ ∃ q input, extract_quals rti node pdbopoid = Ok (Some q) ∧ qual_query q = Ok input ∧
     (negation_free node → ∀ p, ∃ query p', into_tantivy_query input p = Ok (query, p') ∧
        ∀ d, matches query d ↔ clause_holds node d)).
Proof.
  intros Hwf Hat. pose proof (extract_spec node Hwf) as Hex. unfold extracts in Hex.
  destruct (supported node) eqn:Hs; [right|left; split; [by intros []|done]]. split; [done|].
  destruct Hex as (q & Hq & Hne & Hc & He). rewrite <- Hc in Hat.
  destruct (qual_query_converts q Hne Hat) as (input & Hin & Hrun). exists q, input. split; [done|]. split; [done|].
  intros Hnf p. destruct (Hrun p) as (query & p' & Hrun' & Hm). exists query, p'. split; [done|].
  intros d. rewrite Hm, (He nothing_matches d) by done. by apply negation_free_eval.
Qed.

(** A NOT among the clauses of a WHERE empties the result: NOT becomes a Boolean query
    of a negation only, which matches no document, so a conjunction with it matches none
    either, whatever rows satisfy the clause. *)
Theorem negated_clause_matches_nothing (clauses : list Node) (negated : Node) :
  supported (T_List clauses) → Forall atom_ok (clause_consts (T_List clauses)) →
  T_RestrictInfo NullNode (T_BoolExpr NOT_EXPR [negated]) ∈ clauses →
  ∃ q input, extract_quals rti (T_List clauses) pdbopoid = Ok (Some q) ∧ qual_query q = Ok input ∧
    ∀ p, ∃ query p', into_tantivy_query input p = Ok (query, p') ∧ ∀ d, ¬ matches query d.
Proof.
  intros Hs Hat Hin. pose proof (extract_spec _ (supported_well_formed _ Hs)) as Hex. unfold extracts in Hex.
  apply Is_true_true in Hs. rewrite Hs in Hex. destruct Hex as (q & Hq & Hne & Hc & He). rewrite <- Hc in Hat.
  destruct (qual_query_converts q Hne Hat) as (input & Hi & Hrun). exists q, input. split; [done|]. split; [done|].
  intros p. destruct (Hrun p) as (query & p' & Hrun' & Hm). exists query, p'. split; [done|].
  intros d. rewrite Hm, (He nothing_matches d) by done. cbn [clause_eval]. clear -Hin.
  induction clauses as [|n l IH]; [by apply not_elem_of_nil in Hin|]. cbn [foldr].
  apply elem_of_cons in Hin as [<-|Hin]; [by intros [[] _]|intros [_ Hl]; by apply IH].
Qed.
End meaning.
