(* ===== verification/Tokens.v ===== *)
(** * Tokens: the source code and the Chinese tokenizers

    [tokenizers/code.rs] splits identifiers ("PigCafeFactory2"), [tokenizers/cjk.rs]
    makes a token of every ideograph and of every run of other letters and digits.
    Both are streams over the characters of a text with their byte offsets.  The
    specification is [words]: cut the text at the positions where a predicate on the
    two characters and the one after them says so, and drop the characters that belong
    to no token.  The Unicode tables are a parameter. *)

From S2P Require Import Prelude.

Open Scope Z_scope.

(** ** Characters and strings *)

(** the tables behind [char::is_alphabetic], [is_uppercase] and [is_numeric] *)
Class Unicode := {
  is_alphabetic : Z → bool;
  is_uppercase : Z → bool;
  is_numeric : Z → bool
}.

(** a [char] is its code point, a [&str] the list of its characters *)
Definition len_utf8 (c : Z) : Z :=
  if c <? 128 then 1 else if c <? 2048 then 2 else if c <? 65536 then 3 else 4.
Definition str_len (text : list Z) : Z := foldr (λ c n, len_utf8 c + n) 0 text.

Fixpoint char_indices_from (offset : Z) (text : list Z) : list (Z * Z) :=
  match text with
  | [] => []
  | c :: text => (offset, c) :: char_indices_from (offset + len_utf8 c) text
  end.
Definition char_indices (text : list Z) : list (Z * Z) := char_indices_from 0 text.

(** the text before and from a byte offset, which must lie between two characters *)
Fixpoint split_at (text : list Z) (n : Z) : option (list Z * list Z) :=
  if n =? 0 then Some ([], text)
  else
    match text with
    | [] => None
    | c :: text =>
        if n <? len_utf8 c then None
        else p ← split_at text (n - len_utf8 c); Some (c :: p.1, p.2)
    end.
(** [&text[from..to]] *)
Definition str_slice (text : list Z) (from to : Z) : outcome (list Z) :=
  match split_at text from with
  | Some (_, rest) =>
      match split_at rest (to - from) with
      | Some (s, _) => Ok s
      | None => Panic "byte index is not a char boundary"
      end
  | None => Panic "byte index is not a char boundary"
  end.

(** ** Tokens *)

Record Token := {
  offset_from : Z;
  offset_to : Z;
  position : Z;
  tok_text : list Z;
  position_length : Z
}.
Definition usize_max : Z := 2 ^ 64 - 1.
(** [Token::default()], and what [Token::reset] leaves *)
Definition Token_default : Token :=
  {| offset_from := 0; offset_to := 0; position := usize_max; tok_text := []; position_length := 1 |}.
(** [text.clear()] and [position.wrapping_add(1)] *)
Definition next_token (t : Token) : Token :=
  {| offset_from := offset_from t; offset_to := offset_to t; position := (position t + 1) mod 2 ^ 64;
     tok_text := []; position_length := position_length t |}.
Definition set_offsets (from to : Z) (s : list Z) (t : Token) : Token :=
  {| offset_from := from; offset_to := to; position := position t;
     tok_text := tok_text t ++ s; position_length := position_length t |}.

(** [while let Some(token) = stream.next()]: the tokens a stream yields *)
Fixpoint stream_tokens {S} (adv : S → outcome (bool * S)) (token : S → Token) (fuel : nat) (s : S)
    : outcome (list Token) :=
  match fuel with
  | O => NoFuel
  | S fuel =>
      '(more, s) ← adv s;
      if more : bool then ts ← stream_tokens adv token fuel s; Ok (token s :: ts) else Ok []
  end.

(** ** The source code tokenizer *)

Module Code.
Inductive CharType := UpperCase | LowerCase | Numeric | Delimiter.
#[export] Instance CharType_eq_dec : EqDecision CharType.
Proof. solve_decision. Defined.

Record ProcessingCharsState := {
  is_first_char : bool;
  start_offset : Z;
  current_char : Z;
  current_char_offset : Z;
  current_char_type : CharType
}.
Inductive CodeTokenStreamState := Empty | ProcessingChars (s : ProcessingCharsState).

Record CodeTokenStream := {
  cs_text : list Z;
  cs_chars : list (Z * Z);
  cs_token : Token;
  cs_state : CodeTokenStreamState
}.

Section code.
Context `{Unicode}.

Definition get_char_type (c : Z) : CharType :=
  if is_alphabetic c then if is_uppercase c then UpperCase else LowerCase
  else if is_numeric c then Numeric
  else Delimiter.

(** the offsets of a token that ends with the current character *)
Definition whole (state : ProcessingCharsState) : Z * Z :=
  (start_offset state, current_char_offset state + len_utf8 (current_char state)).

(** [CodeTokenStreamState::advance] *)
Definition state_advance (s : CodeTokenStreamState) (next_char_offset next_char : Z)
    : option (Z * Z) * CodeTokenStreamState :=
  let next_char_type := get_char_type next_char in
  match s with
  | Empty =>
      match next_char_type with
      | Delimiter => (None, Empty)
      | _ =>
          (None, ProcessingChars
             {| is_first_char := true; start_offset := next_char_offset; current_char := next_char;
                current_char_offset := next_char_offset; current_char_type := next_char_type |})
      end
  | ProcessingChars state =>
      match current_char_type state, next_char_type with
      | _, Delimiter => (Some (whole state), Empty)
      | UpperCase, LowerCase =>
          if is_first_char state then
            (None, ProcessingChars
               {| is_first_char := false; start_offset := start_offset state; current_char := next_char;
                  current_char_offset := next_char_offset; current_char_type := next_char_type |})
          else
            (Some (start_offset state, current_char_offset state), ProcessingChars
               {| is_first_char := false; start_offset := current_char_offset state;
                  current_char := next_char; current_char_offset := next_char_offset;
                  current_char_type := next_char_type |})
      | UpperCase, UpperCase | LowerCase, LowerCase | Numeric, Numeric =>
          (None, ProcessingChars
             {| is_first_char := false; start_offset := start_offset state; current_char := next_char;
                current_char_offset := next_char_offset; current_char_type := current_char_type state |})
      | _, _ =>
          (Some (whole state), ProcessingChars
             {| is_first_char := true; start_offset := next_char_offset; current_char := next_char;
                current_char_offset := next_char_offset; current_char_type := next_char_type |})
      end
  end.

Definition finalize (s : CodeTokenStreamState) : option (Z * Z) * CodeTokenStreamState :=
  match s with
  | Empty => (None, Empty)
  | ProcessingChars char_state => (Some (whole char_state), Empty)
  end.

Definition update_token (text : list Z) (offsets : Z * Z) (t : Token) : outcome Token :=
  s ← str_slice text offsets.1 offsets.2;
  Ok (set_offsets offsets.1 offsets.2 s t).

(** the loop of [TokenStream::advance]: whether there is a token, and the stream *)
Fixpoint code_advance_loop (text : list Z) (chars : list (Z * Z)) (token : Token) (state : CodeTokenStreamState)
    : outcome (bool * CodeTokenStream) :=
  match chars with
  | (next_char_offset, next_char) :: chars =>
      match state_advance state next_char_offset next_char with
      | (None, state) => code_advance_loop text chars token state
      | (Some token_offsets, state) =>
          token ← update_token text token_offsets token;
          Ok (true, {| cs_text := text; cs_chars := chars; cs_token := token; cs_state := state |})
      end
  | [] =>
      match finalize state with
      | (None, state) =>
          Ok (false, {| cs_text := text; cs_chars := []; cs_token := token; cs_state := state |})
      | (Some token_offsets, state) =>
          token ← update_token text token_offsets token;
          Ok (true, {| cs_text := text; cs_chars := []; cs_token := token; cs_state := state |})
      end
  end.
Definition code_advance (s : CodeTokenStream) : outcome (bool * CodeTokenStream) :=
  code_advance_loop (cs_text s) (cs_chars s) (next_token (cs_token s)) (cs_state s).

Definition code_token_stream (text : list Z) : CodeTokenStream :=
  {| cs_text := text; cs_chars := char_indices text; cs_token := Token_default; cs_state := Empty |}.
Definition code_tokens (text : list Z) : outcome (list Token) :=
  stream_tokens code_advance cs_token (S (length text)) (code_token_stream text).
End code.
End Code.

(** ** The Chinese tokenizer *)

Module Cjk.
Inductive Grouping := Keep | SplitKeep | SplitIgnore.
#[export] Instance Grouping_eq_dec : EqDecision Grouping.
Proof. solve_decision. Defined.

Record ChineseTokenStream := {
  text : list Z;
  last_char : option (Z * Z);
  chars : list (Z * Z);
  token : Token
}.

Definition char_is_cjk (c : Z) : bool :=
  (0x4500 <=? c) && (c <=? 0x9FFF) || (0x3400 <=? c) && (c <=? 0x4DBF) ||
  (0x20000 <=? c) && (c <=? 0x2A6DF) || (0x2A700 <=? c) && (c <=? 0x2CEAF).

Section cjk.
Context `{Unicode}.

Definition char_grouping (c : Z) : Grouping :=
  if is_alphabetic c || is_numeric c then
    if char_is_cjk c then SplitKeep else Keep
  else SplitIgnore.

(** [iter.find(|&(_, c)| char_grouping(c) != Keep)], and what is left *)
Fixpoint find_not_keep (chars : list (Z * Z)) : option (Z * Z) * list (Z * Z) :=
  match chars with
  | [] => (None, [])
  | (i, c) :: chars =>
      if bool_decide (char_grouping c = Keep) then find_not_keep chars else (Some (i, c), chars)
  end.

(** the loop of [advance] over [last_char] and then the characters *)
Fixpoint cjk_advance_loop (text : list Z) (iter : list (Z * Z)) (token : Token)
    : outcome (bool * ChineseTokenStream) :=
  match iter with
  | [] => Ok (false, {| text := text; last_char := None; chars := []; token := token |})
  | (offset_from, c) :: iter =>
      match char_grouping c with
      | Keep =>
          let '(found, rest) := find_not_keep iter in
          let offset_to := match found with Some (next_index, _) => next_index | None => str_len text end in
          s ← str_slice text offset_from offset_to;
          Ok (true, {| text := text; last_char := found; chars := rest;
                       token := set_offsets offset_from offset_to s token |})
      | SplitKeep =>
          let num_bytes_in_char := len_utf8 c in
          s ← str_slice text offset_from (offset_from + num_bytes_in_char);
          Ok (true, {| text := text; last_char := None; chars := iter;
                       token := set_offsets offset_from (offset_from + num_bytes_in_char) s token |})
      | SplitIgnore => cjk_advance_loop text iter token
      end
  end.
Definition cjk_advance (s : ChineseTokenStream) : outcome (bool * ChineseTokenStream) :=
  cjk_advance_loop (text s) (option_list (last_char s) ++ chars s) (next_token (token s)).

Definition cjk_token_stream (text : list Z) : ChineseTokenStream :=
  {| text := text; last_char := None; chars := char_indices text; token := Token_default |}.
Definition cjk_tokens (t : list Z) : outcome (list Token) :=
  stream_tokens cjk_advance token (S (length t)) (cjk_token_stream t).
End cjk.
End Cjk.


(** ** Cutting a text into words *)

Section words.
Context (dropped : Z → bool) (cut : Z → Z → option Z → bool).

(** the words of a text and where they start *)
Fixpoint words (off : Z) (text : list Z) : list (Z * list Z) :=
  match text with
  | [] => []
  | c :: rest =>
      let ws := words (off + len_utf8 c) rest in
      if dropped c then ws
      else
        match rest with
        | [] => [(off, [c])]
        | c2 :: rest =>
            if dropped c2 || cut c c2 (head rest) then (off, [c]) :: ws
            else match ws with (_, w) :: ws => (off, c :: w) :: ws | [] => [(off, [c])] end
        end
  end.

(** what makes a list of words one of a text *)
Inductive Words : Z → list Z → list (Z * list Z) → Prop :=
  | Words_nil off : Words off [] []
  | Words_drop off c text ws :
      dropped c = true → Words (off + len_utf8 c) text ws → Words off (c :: text) ws
  | Words_word off w text ws :
      w ≠ [] → Forall (λ c, dropped c = false) w →
      Words (off + str_len w) text ws → Words off (w ++ text) ((off, w) :: ws).
End words.

(** the token of a word *)
Definition token_of (i : nat) (w : Z * list Z) : Token :=
  {| offset_from := w.1; offset_to := w.1 + str_len w.2; position := Z.of_nat i mod 2 ^ 64;
     tok_text := w.2; position_length := 1 |}.
Definition span (w : Z * list Z) : Z * Z := (w.1, w.1 + str_len w.2).

Lemma len_utf8_pos c : 0 < len_utf8 c.
Proof. unfold len_utf8. zcmp. Qed.
Lemma str_len_app s t : str_len (s ++ t) = str_len s + str_len t.
Proof. induction s as [|c s IH]; [done|]. simpl. rewrite IH. lia. Qed.
Lemma str_len_nonneg s : 0 ≤ str_len s.
Proof. induction s as [|c s IH]; simpl; [lia|]. pose proof (len_utf8_pos c). lia. Qed.

Lemma split_at_app p r : split_at (p ++ r) (str_len p) = Some (p, r).
Proof.
  induction p as [|c p IH]; [by destruct r|]. cbn [app split_at str_len foldr]. fold (str_len p).
  pose proof (len_utf8_pos c). pose proof (str_len_nonneg p).
  rewrite (proj2 (Z.eqb_neq _ _)) by lia. rewrite (proj2 (Z.ltb_ge _ _)) by lia.
  rewrite Z.add_simpl_l, IH. done.
Qed.
Lemma str_slice_mid p w q :
  str_slice (p ++ w ++ q) (str_len p) (str_len p + str_len w) = Ok w.
Proof. unfold str_slice. rewrite split_at_app, Z.add_simpl_l, split_at_app. done. Qed.

Section words_facts.
Context (dropped : Z → bool) (cut : Z → Z → option Z → bool).
Notation words := (words dropped cut).
Notation Words := (Words dropped).

Lemma words_sound off text : Words off text (words off text).
Proof.
  revert off. induction text as [|c rest IH]; intros off; [constructor|]. simpl.
  destruct (dropped c) eqn:Hc; [by constructor|].
  assert (∀ ws, Words (off + len_utf8 c) rest ws → Words off (c :: rest) ((off, [c]) :: ws)) as Halone.
  { intros ws Hws. apply (Words_word _ off [c]); [done|by constructor|]. simpl. by rewrite Z.add_0_r. }
  specialize (IH (off + len_utf8 c)). destruct rest as [|c2 r2]; [apply Halone; constructor|].
  destruct (dropped c2) eqn:Hc2; [by apply Halone|]. cbn [orb].
  destruct (cut c c2 (head r2)); [by apply Halone|].
  destruct (words (off + len_utf8 c) (c2 :: r2)) as [|[o w] ws] eqn:E; [by apply Halone|].
  inversion IH as [|? ? ? ? Hd|? ? text ? Hne Hall Hws]; subst; [congruence|].
  apply (Words_word _ off (c :: w)); [done|by constructor|]. simpl. by rewrite Z.add_assoc.
Qed.

Lemma Words_kept off text ws :
  Words off text ws → concat (snd <$> ws) = filter (λ c, dropped c = false) text.
Proof.
  induction 1 as [|off c text ws Hc _ IH|off w text ws Hne Hall _ IH]; [done| |].
  - rewrite filter_cons_False by congruence. done.
  - rewrite fmap_cons, filter_app. simpl. rewrite IH. f_equal. clear -Hall. induction Hall as [|c w Hc _ IHw]; [done|].
    by rewrite filter_cons_True, <- IHw.
Qed.

(** the words are slices of the text, one after the other *)
Lemma Words_slices full front text ws :
  Words (str_len front) text ws → full = front ++ text →
  Forall (λ w, w.2 ≠ [] ∧ str_len front ≤ w.1 ∧ str_slice full w.1 (w.1 + str_len w.2) = Ok w.2) ws.
Proof.
  remember (str_len front) as off eqn:Hoff. intros Hw. revert front Hoff.
  induction Hw as [|off c text ws Hc _ IH|off w text ws Hne Hall _ IH]; intros front -> Hfull; [constructor| |].
  - assert (str_len (front ++ [c]) = str_len front + len_utf8 c) as Hs by (rewrite str_len_app; simpl; lia).
    specialize (IH (front ++ [c])). rewrite <- app_assoc in IH. pose proof (len_utf8_pos c).
    eapply Forall_impl; [apply IH; [lia|done]|]. simpl. intros w (? & ? & ?). split; [done|]. split; [lia|done].
  - constructor.
    + split; [done|]. split; [simpl; lia|]. subst full. apply str_slice_mid.
    + specialize (IH (front ++ w)). rewrite str_len_app, <- app_assoc in IH. pose proof (str_len_nonneg w).
      eapply Forall_impl; [by apply IH|]. simpl. intros w' (? & ? & ?). split; [done|]. split; [lia|done].
Qed.

Lemma Words_sorted off text ws :
  Words off text ws → Forall (λ w, off ≤ w.1) ws ∧ StronglySorted (λ a b, (span a).2 ≤ (span b).1) ws.
Proof.
  induction 1 as [|off c text ws Hc _ IH|off w text ws Hne Hall _ IH]; [repeat constructor| |].
  - destruct IH as [Hf Hs]. split; [|done]. pose proof (len_utf8_pos c).
    eapply Forall_impl; [exact Hf|]. simpl. lia.
  - destruct IH as [Hf Hs]. pose proof (str_len_nonneg w). split.
    + constructor; [simpl; lia|]. eapply Forall_impl; [exact Hf|]. simpl. lia.
    + by constructor.
Qed.

Lemma words_cons2 off c n rest :
  dropped c = false →
  words off (c :: n :: rest) =
    let ws := words (off + len_utf8 c) (n :: rest) in
    if dropped n || cut c n (head rest) then (off, [c]) :: ws
    else match ws with (_, w) :: ws => (off, c :: w) :: ws | [] => [(off, [c])] end.
Proof. intros Hc. simpl. by rewrite Hc. Qed.

Lemma words_first off c rest :
  dropped c = false → ∃ w ws, words off (c :: rest) = (off, c :: w) :: ws.
Proof.
  intros Hc. simpl. rewrite Hc. destruct rest as [|c2 r2]; [by eexists _, _|].
  destruct (_ || _); [by eexists _, _|]. destruct (words _ _) as [|[o w] ws]; by eexists _, _.
Qed.

Lemma Words_length off text ws : Words off text ws → (length ws ≤ length text)%nat.
Proof.
  induction 1 as [|off c text ws Hc _ IH|off w text ws Hne Hall _ IH]; simpl; [lia|lia|].
  rewrite length_app. destruct w; [done|]. simpl. lia.
Qed.
End words_facts.

(** ** The tokens of a list of words *)

Fixpoint toks (p : Z) (ws : list (Z * list Z)) : list Token :=
  match ws with
  | [] => []
  | w :: ws =>
      {| offset_from := w.1; offset_to := w.1 + str_len w.2; position := p; tok_text := w.2;
         position_length := 1 |} :: toks ((p + 1) mod 2 ^ 64) ws
  end.

Lemma toks_from n ws : toks (Z.of_nat n mod 2 ^ 64) ws = imap (λ i, token_of (n + i)) ws.
Proof.
  revert n. induction ws as [|w ws IH]; intros n; [done|]. cbn [toks]. rewrite imap_cons, Nat.add_0_r.
  f_equal. rewrite Zplus_mod_idemp_l. replace (Z.of_nat n + 1) with (Z.of_nat (S n)) by lia.
  rewrite IH. apply imap_ext. intros i x _. simpl. by rewrite Nat.add_succ_r.
Qed.
Lemma toks_imap ws : toks 0 ws = imap token_of ws.
Proof. apply (toks_from 0). Qed.

(** a token under construction: its text cleared, its position chosen *)
Definition blank (p : Z) (t : Token) : Prop :=
  position t = p ∧ tok_text t = [] ∧ position_length t = 1.

Lemma blank_next p t : position t = p → position_length t = 1 → blank ((p + 1) mod 2 ^ 64) (next_token t).
Proof. by intros <- ?. Qed.
Lemma blank_set p t from to w ws q :
  blank p t → to = from + str_len w → q = (p + 1) mod 2 ^ 64 →
  set_offsets from to w t :: toks q ws = toks p ((from, w) :: ws).
Proof. intros (<- & Ht & Hl) -> ->. unfold set_offsets. rewrite Ht, Hl. done. Qed.

Section code_words.
Context `{Unicode}.
Import Code.

(** where the source code tokenizer ends a word *)
Definition code_dropped (c : Z) : bool := bool_decide (get_char_type c = Delimiter).
Definition lower_next (next : option Z) : bool :=
  match next with Some n => bool_decide (get_char_type n = LowerCase) | None => false end.
Definition code_cut (a b : Z) (next : option Z) : bool :=
  match get_char_type a, get_char_type b with
  | UpperCase, UpperCase => lower_next next
  | UpperCase, LowerCase | LowerCase, LowerCase | Numeric, Numeric => false
  | _, _ => true
  end.
Definition code_words (off : Z) (text : list Z) : list (Z * list Z) := words code_dropped code_cut off text.

(** the words of the text from [pre ++ [c]] on, when [pre ++ [c]] is being read *)
Definition joined (off : Z) (pre : list Z) (c : Z) (rest : list Z) : list (Z * list Z) :=
  if negb (bool_decide (pre = [])) && bool_decide (get_char_type c = UpperCase) && lower_next (head rest)
  then (off, pre) :: code_words (off + str_len pre) (c :: rest)
  else
    match code_words (off + str_len pre) (c :: rest) with
    | (_, w) :: ws => (off, pre ++ w) :: ws
    | [] => []
    end.

Definition reading (off : Z) (pre : list Z) (c : Z) : CodeTokenStreamState :=
  ProcessingChars
    {| is_first_char := bool_decide (pre = []); start_offset := off; current_char := c;
       current_char_offset := off + str_len pre; current_char_type := get_char_type c |}.

(** what remains of [stream_tokens] in the middle of [advance] *)
Definition code_run (fuel : nat) (text : list Z) (chars : list (Z * Z)) (t : Token)
    (s : CodeTokenStreamState) : outcome (list Token) :=
  '(more, s) ← code_advance_loop text chars t s;
  if more : bool then ts ← stream_tokens code_advance cs_token fuel s; Ok (cs_token s :: ts) else Ok [].

Lemma stream_tokens_run fuel s :
  stream_tokens code_advance cs_token (S fuel) s =
  code_run fuel (cs_text s) (cs_chars s) (next_token (cs_token s)) (cs_state s).
Proof. done. Qed.

Lemma dropped_iff c : code_dropped c = false ↔ get_char_type c ≠ Delimiter.
Proof. unfold code_dropped. rewrite bool_decide_eq_false. done. Qed.

Lemma joined_nil off c rest :
  get_char_type c ≠ Delimiter → joined off [] c rest = code_words off (c :: rest).
Proof.
  intros Hc. unfold joined, code_words. cbn [app str_len foldr]. rewrite Z.add_0_r.
  destruct (words_first code_dropped code_cut off c rest (proj2 (dropped_iff c) Hc)) as (w & ws & ->). done.
Qed.

(** the last word ends with the text *)
Lemma joined_end off pre c :
  get_char_type c ≠ Delimiter → joined off pre c [] = [(off, pre ++ [c])].
Proof.
  intros Hc%dropped_iff. unfold joined, code_words. cbn [head lower_next words].
  by rewrite andb_false_r, Hc.
Qed.

(** ** The steps of the state machine, as the words see them *)

(** the word goes on with the next character *)
Lemma joined_more off pre c n rest :
  get_char_type c = get_char_type n ∨ pre = [] ∧ get_char_type c = UpperCase ∧ get_char_type n = LowerCase →
  get_char_type c ≠ Delimiter →
  joined off pre c (n :: rest) = joined off (pre ++ [c]) n rest.
Proof.
  intros Hcn Hc.
  assert (get_char_type n ≠ Delimiter) as Hn.
  { destruct Hcn as [<-|(_ & _ & ->)]; done. }
  unfold joined at 1, code_words. cbn [head lower_next].
  assert (negb (bool_decide (pre = [])) && bool_decide (get_char_type c = UpperCase)
          && bool_decide (get_char_type n = LowerCase) = false) as ->.
  { destruct Hcn as [<-|(-> & _ & _)]; [|done]. destruct (get_char_type c); by rewrite ?andb_false_r. }
  rewrite (words_cons2 _ _ _ c n rest (proj2 (dropped_iff c) Hc)), (proj2 (dropped_iff n) Hn). cbn [orb].
  unfold joined. rewrite bool_decide_eq_false_2 by (by destruct pre). cbn [negb andb].
  rewrite str_len_app. cbn [str_len foldr]. rewrite Z.add_0_r, Z.add_assoc.
  destruct (words_first code_dropped code_cut (off + str_len pre + len_utf8 c) n rest (proj2 (dropped_iff n) Hn))
    as (w & ws & Hw). unfold code_words. rewrite Hw.
  assert (code_cut c n (head rest) = bool_decide (get_char_type n = UpperCase) && lower_next (head rest)) as ->.
  { unfold code_cut. destruct Hcn as [Heq|(_ & -> & ->)]; [|done]. rewrite Heq.
    destruct (get_char_type n); try done. }
  destruct (_ && _) eqn:E; [done|]. by rewrite <- app_assoc.
Qed.

(** the word ends before the next character *)
Lemma joined_whole off pre c n rest :
  get_char_type c ≠ get_char_type n → ¬ (get_char_type c = UpperCase ∧ get_char_type n = LowerCase) →
  get_char_type c ≠ Delimiter →
  joined off pre c (n :: rest) =
    (off, pre ++ [c]) :: code_words (off + str_len pre + len_utf8 c) (n :: rest).
Proof.
  intros Hne Hul Hc. unfold joined, code_words. cbn [head lower_next].
  assert (bool_decide (get_char_type c = UpperCase) && bool_decide (get_char_type n = LowerCase) = false) as Hf.
  { apply andb_false_iff. rewrite !bool_decide_eq_false. revert Hul. destruct (get_char_type c), (get_char_type n); naive_solver. }
  rewrite <- andb_assoc, Hf, andb_false_r. rewrite (words_cons2 _ _ _ c n rest (proj2 (dropped_iff c) Hc)).
  assert (code_dropped n || code_cut c n (head rest) = true) as ->; [|done].
  unfold code_dropped, code_cut. revert Hne Hul Hc. destruct (get_char_type c), (get_char_type n); naive_solver.
Qed.

(** the word ends before the current character: [ABCa] *)
Lemma joined_before off pre c n rest :
  pre ≠ [] → get_char_type c = UpperCase → get_char_type n = LowerCase →
  joined off pre c (n :: rest) = (off, pre) :: joined (off + str_len pre) [c] n rest.
Proof.
  intros Hpre Hc Hn.
  change [c] with ([] ++ [c]) at 1.
  rewrite <- (joined_more (off + str_len pre) [] c n rest) by (rewrite ?Hc; auto).
  rewrite joined_nil by (by rewrite Hc). unfold joined at 1. cbn [head lower_next].
  rewrite bool_decide_eq_false_2, !bool_decide_eq_true_2 by done. done.
Qed.

(** ** The tokens of the stream *)

Lemma char_indices_cons off c text :
  char_indices_from off (c :: text) = (off, c) :: char_indices_from (off + len_utf8 c) text.
Proof. done. Qed.

(** a token is handed out: its slice is of the text *)
Lemma code_emit fuel front w back full chars t s p from to q ws :
  full = front ++ w ++ back → from = str_len front → to = from + str_len w →
  blank p t → q = (p + 1) mod 2 ^ 64 →
  (∀ t', blank q t' → code_run fuel full chars t' s = Ok (toks q ws)) →
  ('(more, s) ← (t ← update_token full (from, to) t;
                 Ok (true, {| cs_text := full; cs_chars := chars; cs_token := t; cs_state := s |}));
   if more : bool then ts ← stream_tokens code_advance cs_token (S fuel) s; Ok (cs_token s :: ts) else Ok [])
  = Ok (toks p ((from, w) :: ws)).
Proof.
  intros -> -> -> Ht Hq Hrun. unfold update_token. cbn [fst snd]. rewrite str_slice_mid. cbn [mbind outcome_bind].
  rewrite stream_tokens_run. cbn [cs_text cs_chars cs_token cs_state]. rewrite Hrun.
  - cbn [mbind outcome_bind]. f_equal. by apply blank_set.
  - subst q. apply blank_next; [apply Ht|apply Ht].
Qed.

(** from the state that reads no word, and from the one that reads [pre ++ [c]] *)
Definition runs_empty (full rest : list Z) : Prop :=
  ∀ fuel front p t, full = front ++ rest → (length rest < S fuel)%nat → blank p t →
    code_run fuel full (char_indices_from (str_len front) rest) t Empty =
    Ok (toks p (code_words (str_len front) rest)).
Definition runs_reading (full rest : list Z) : Prop :=
  ∀ fuel front pre c p t off, full = front ++ pre ++ c :: rest → (length rest < fuel)%nat → blank p t →
    get_char_type c ≠ Delimiter → off = str_len front + str_len pre + len_utf8 c →
    code_run fuel full (char_indices_from off rest) t (reading (str_len front) pre c) =
    Ok (toks p (joined (str_len front) pre c rest)).

Lemma runs_nil full : runs_empty full [] ∧ runs_reading full [].
Proof.
  split; [done|]. intros [|fuel] front pre c p t off Hfull Hfuel Ht Hc ->; [lia|].
  rewrite joined_end by done. unfold code_run. cbn [code_advance_loop char_indices_from finalize reading].
  apply (code_emit fuel front (pre ++ [c]) [] full [] t Empty p _ _ ((p + 1) mod 2 ^ 64) []); try done.
  - by rewrite <- app_assoc.
  - unfold whole. cbn. rewrite str_len_app. simpl. lia.
Qed.

Lemma runs_empty_drop full c rest fuel front p t :
  runs_empty full rest → code_dropped c = true → full = front ++ c :: rest →
  (length rest < S fuel)%nat → blank p t →
  code_run fuel full (char_indices_from (str_len front + len_utf8 c) rest) t Empty =
  Ok (toks p (code_words (str_len front) (c :: rest))).
Proof.
  intros He Hc Hfull Hfuel Ht.
  assert (str_len (front ++ [c]) = str_len front + len_utf8 c) as Hlen by (rewrite str_len_app; simpl; lia).
  unfold code_words. simpl. rewrite Hc, <- Hlen. apply He; [by rewrite <- app_assoc|done|done].
Qed.

Lemma runs_empty_cons full c rest :
  runs_empty full rest → runs_reading full rest → runs_empty full (c :: rest).
Proof.
  intros He Hr fuel front p t Hfull Hfuel Ht. simpl in Hfuel. rewrite char_indices_cons.
  destruct (decide (get_char_type c = Delimiter)) as [Hc|Hc].
  - unfold code_run. cbn [code_advance_loop state_advance]. rewrite Hc.
    apply runs_empty_drop; [done|by apply bool_decide_eq_true|done|lia|done].
  - rewrite <- joined_nil by done. rewrite <- (Hr fuel front [] c p t (str_len front + len_utf8 c));
      [|done|lia|done|done|simpl; lia].
    unfold code_run, reading. cbn [code_advance_loop state_advance str_len foldr]. rewrite Z.add_0_r.
    by destruct (get_char_type c).
Qed.

Lemma step_more off pre c n at_n :
  get_char_type c = get_char_type n ∨ pre = [] ∧ get_char_type c = UpperCase ∧ get_char_type n = LowerCase →
  get_char_type c ≠ Delimiter → at_n = off + str_len (pre ++ [c]) →
  state_advance (reading off pre c) at_n n = (None, reading off (pre ++ [c]) n).
Proof.
  intros Hcn Hc ->. unfold reading. rewrite (bool_decide_eq_false_2 (pre ++ [c] = [])) by (by destruct pre).
  cbn [state_advance current_char_type is_first_char]. destruct Hcn as [Heq|(-> & -> & ->)]; [|done].
  rewrite <- Heq. by destruct (get_char_type c).
Qed.
Lemma step_whole off pre c n at_n :
  get_char_type c ≠ get_char_type n → ¬ (get_char_type c = UpperCase ∧ get_char_type n = LowerCase) →
  state_advance (reading off pre c) at_n n =
    (Some (off, off + str_len pre + len_utf8 c),
     if code_dropped n then Empty else reading at_n [] n).
Proof.
  intros Hne Hul. unfold reading, code_dropped. rewrite (bool_decide_eq_true_2 ([] = [])) by done.
  cbn [state_advance current_char_type is_first_char str_len foldr]. rewrite Z.add_0_r.
  revert Hne Hul. destruct (get_char_type c), (get_char_type n); naive_solver.
Qed.
Lemma step_before off pre c n at_n :
  pre ≠ [] → get_char_type c = UpperCase → get_char_type n = LowerCase →
  at_n = off + str_len pre + str_len [c] →
  state_advance (reading off pre c) at_n n =
    (Some (off, off + str_len pre), reading (off + str_len pre) [c] n).
Proof.
  intros Hpre Hc Hn ->. unfold reading. rewrite (bool_decide_eq_false_2 (pre = [])) by done.
  cbn [state_advance current_char_type is_first_char]. by rewrite Hc, Hn.
Qed.

Lemma runs_reading_cons full n rest :
  runs_empty full rest → runs_reading full rest → runs_reading full (n :: rest).
Proof.
  intros He Hr [|fuel] front pre c p t off Hfull Hfuel Ht Hc ->; simpl in Hfuel; [lia|].
  rewrite char_indices_cons. unfold code_run. cbn [code_advance_loop].
  assert (str_len (front ++ pre ++ [c]) = str_len front + str_len pre + len_utf8 c) as Hlen.
  { rewrite !str_len_app. simpl. lia. }
  destruct (decide (get_char_type c = get_char_type n ∨
                    pre = [] ∧ get_char_type c = UpperCase ∧ get_char_type n = LowerCase)) as [Hmore|Hmore].
  { rewrite step_more by (try done; rewrite str_len_app; simpl; lia). rewrite joined_more by done.
    apply (Hr (S fuel)); [by rewrite <- !app_assoc|lia|done| |rewrite str_len_app; simpl; lia].
    destruct Hmore as [<-|(_ & _ & ->)]; done. }
  destruct (decide (get_char_type c = UpperCase ∧ get_char_type n = LowerCase)) as [[Hcu Hnl]|Hul].
  - assert (pre ≠ []) as Hpre by tauto. rewrite step_before by (try done; simpl; lia).
    rewrite joined_before by done.
    eapply (code_emit fuel front pre (c :: n :: rest)); try done.
    intros t' Ht'. rewrite <- (str_len_app front pre).
    apply Hr; [by rewrite <- app_assoc|lia|done|by rewrite Hnl|rewrite str_len_app; simpl; lia].
  - rewrite step_whole by tauto. rewrite joined_whole by tauto.
    eapply (code_emit fuel front (pre ++ [c]) (n :: rest)); try done.
    + by rewrite <- app_assoc.
    + rewrite str_len_app. simpl. lia.
    + intros t' Ht'. rewrite <- Hlen. destruct (code_dropped n) eqn:Hn.
      * apply runs_empty_drop; [done|done|by rewrite <- !app_assoc|lia|done].
      * rewrite <- joined_nil by by apply dropped_iff.
        apply Hr; [by rewrite <- !app_assoc|lia|done|by apply dropped_iff|simpl; lia].
Qed.

Lemma runs_all full rest : runs_empty full rest ∧ runs_reading full rest.
Proof.
  induction rest as [|c rest [He Hr]]; [apply runs_nil|].
  by split; [apply runs_empty_cons|apply runs_reading_cons].
Qed.

(** C39: The source code tokenizer returns every token of a text and stops, and its
    tokens are the words of a local rule: cut between characters of different types,
    except a capital before a lower case letter, and before the last capital of several
    when a lower case letter follows, where every alphabetic character that is not upper
    case, of any script, counts as a lower case letter, every numeric one as a digit,
    and only what is neither is a delimiter; each token is exactly the slice of its
    offsets, they come in order without overlap, and together they are the text without
    its delimiters. *)
Theorem code_tokens_words text :
  let ws := code_words 0 text in
  code_tokens text = Ok (imap token_of ws) ∧
  concat (snd <$> ws) = filter (λ c, get_char_type c ≠ Delimiter) text ∧
  Forall (λ w, w.2 ≠ [] ∧ str_slice text w.1 (w.1 + str_len w.2) = Ok w.2) ws ∧
  StronglySorted (λ a b, (span a).2 ≤ (span b).1) ws ∧
  ∀ c, (get_char_type c = Delimiter ↔ is_alphabetic c = false ∧ is_numeric c = false) ∧
    (is_alphabetic c = true → get_char_type c = if is_uppercase c then UpperCase else LowerCase) ∧
    (is_alphabetic c = false → is_numeric c = true → get_char_type c = Numeric).
Proof.
  intros ws. pose proof (words_sound code_dropped code_cut 0 text) as Hw. fold (code_words 0 text) ws in Hw.
  split; [|split; [|split; [|split]]].
  - unfold code_tokens. rewrite stream_tokens_run, <- toks_imap. unfold code_token_stream. cbn [cs_text cs_chars cs_token cs_state].
    apply (proj1 (runs_all text text) (length text) []); [done|lia|done].
  - rewrite (Words_kept _ _ _ _ Hw). apply list_filter_iff. intros c. apply dropped_iff.
  - eapply Forall_impl; [apply (Words_slices _ text [] text ws Hw); done|]. simpl. tauto.
  - apply (Words_sorted _ _ _ _ Hw).
  - intros c. unfold get_char_type.
    destruct (is_alphabetic c), (is_numeric c), (is_uppercase c); naive_solver.
Qed.
End code_words.

(** ** The words of the Chinese tokenizer *)

Section cjk_words.
Context `{Unicode}.
Import Cjk.

Definition cjk_dropped (c : Z) : bool := bool_decide (char_grouping c = SplitIgnore).
(** an ideograph is a word, and so is what is between ideographs and ignored characters *)
Definition cjk_cut (a b : Z) (_ : option Z) : bool :=
  negb (bool_decide (char_grouping a = Keep) && bool_decide (char_grouping b = Keep)).
Definition cjk_words (off : Z) (text : list Z) : list (Z * list Z) := words cjk_dropped cjk_cut off text.

Lemma cjk_dropped_iff c : cjk_dropped c = false ↔ char_grouping c ≠ SplitIgnore.
Proof. unfold cjk_dropped. rewrite bool_decide_eq_false. done. Qed.

(** the run of characters to keep that a text starts with *)
Fixpoint kept_run (text : list Z) : list Z * list Z :=
  match text with
  | [] => ([], [])
  | c :: rest =>
      if bool_decide (char_grouping c = Keep) then let '(w, r) := kept_run rest in (c :: w, r) else ([], text)
  end.
Lemma kept_run_app text : text = (kept_run text).1 ++ (kept_run text).2.
Proof. induction text as [|c rest IH]; [done|]. simpl. case_bool_decide; [|done]. destruct (kept_run rest). simpl in *. by f_equal. Qed.
Lemma find_kept off text :
  let found := find_not_keep (char_indices_from off text) in
  let '(w, r) := kept_run text in
  option_list found.1 ++ found.2 = char_indices_from (off + str_len w) r ∧
  (fst <$> found.1) = match r with [] => None | _ => Some (off + str_len w) end.
Proof.
  revert off. induction text as [|c rest IH]; intros off; simpl; [done|].
  case_bool_decide; [|simpl; by rewrite Z.add_0_r].
  specialize (IH (off + len_utf8 c)). destruct (kept_run rest) as [w r]. simpl in *.
  by rewrite Z.add_assoc.
Qed.
Lemma cjk_ends a b next :
  cjk_dropped b || cjk_cut a b next =
    negb (bool_decide (char_grouping a = Keep) && bool_decide (char_grouping b = Keep)) || cjk_dropped b.
Proof. unfold cjk_cut. by rewrite orb_comm. Qed.
Lemma cjk_words_kept off c rest :
  char_grouping c = Keep →
  cjk_words off (c :: rest) =
    (off, c :: (kept_run rest).1) :: cjk_words (off + str_len (c :: (kept_run rest).1)) (kept_run rest).2.
Proof.
  revert off c. induction rest as [|n rest IH]; intros off c Hc; unfold cjk_words.
  { simpl. unfold cjk_dropped. by rewrite bool_decide_eq_false_2 by (by rewrite Hc). }
  rewrite words_cons2 by (apply cjk_dropped_iff; by rewrite Hc).
  cbv zeta. rewrite cjk_ends, (bool_decide_eq_true_2 _ Hc).
  cbn [kept_run]. destruct (decide (char_grouping n = Keep)) as [Hn|Hn].
  - rewrite (proj2 (cjk_dropped_iff n)) by (by rewrite Hn). rewrite bool_decide_eq_true_2 by done.
    cbn [negb andb orb]. fold (cjk_words (off + len_utf8 c) (n :: rest)). rewrite IH by done.
    destruct (kept_run rest) as [w r]. cbn [fst snd]. f_equal. unfold cjk_words. f_equal. simpl. lia.
  - rewrite (bool_decide_eq_false_2 (_ = Keep)) by done. cbn [negb andb orb fst snd].
    simpl. by rewrite Z.add_0_r.
Qed.
Lemma cjk_words_ideograph off c rest :
  char_grouping c = SplitKeep → cjk_words off (c :: rest) = (off, [c]) :: cjk_words (off + len_utf8 c) rest.
Proof.
  intros Hc. destruct rest as [|n rest]; unfold cjk_words.
  { simpl. unfold cjk_dropped. by rewrite bool_decide_eq_false_2 by (by rewrite Hc). }
  rewrite words_cons2 by (apply cjk_dropped_iff; by rewrite Hc).
  cbv zeta. rewrite cjk_ends, (bool_decide_eq_false_2 (char_grouping c = Keep)) by (by rewrite Hc). done.
Qed.
Lemma cjk_words_ignored off c rest :
  char_grouping c = SplitIgnore → cjk_words off (c :: rest) = cjk_words (off + len_utf8 c) rest.
Proof. intros Hc. unfold cjk_words. simpl. unfold cjk_dropped at 1. by rewrite bool_decide_eq_true_2. Qed.

Definition cjk_run (fuel : nat) (text : list Z) (iter : list (Z * Z)) (t : Token) : outcome (list Token) :=
  '(more, s) ← cjk_advance_loop text iter t;
  if more : bool then ts ← stream_tokens cjk_advance token fuel s; Ok (token s :: ts) else Ok [].

Lemma cjk_stream_tokens_run fuel s :
  stream_tokens cjk_advance token (S fuel) s =
  cjk_run fuel (text s) (option_list (last_char s) ++ chars s) (next_token (token s)).
Proof. done. Qed.

Lemma cjk_emit fuel front w back full found rest t p from to q ws :
  full = front ++ w ++ back → from = str_len front → to = from + str_len w →
  blank p t → q = (p + 1) mod 2 ^ 64 →
  (∀ t', blank q t' → cjk_run fuel full (option_list found ++ rest) t' = Ok (toks q ws)) →
  ('(more, s) ← (s ← str_slice full from to;
                 Ok (true, {| text := full; last_char := found; chars := rest; token := set_offsets from to s t |}));
   if more : bool then ts ← stream_tokens cjk_advance token (S fuel) s; Ok (token s :: ts) else Ok [])
  = Ok (toks p ((from, w) :: ws)).
Proof.
  intros -> -> -> Ht Hq Hrun. rewrite str_slice_mid. cbn [mbind outcome_bind].
  rewrite cjk_stream_tokens_run. cbn [text last_char chars token]. rewrite Hrun.
  - cbn [mbind outcome_bind]. f_equal. by apply blank_set.
  - subst q. apply blank_next; [apply Ht|apply Ht].
Qed.

Lemma cjk_run_ok rest : ∀ full fuel front p t,
  full = front ++ rest → (length rest < S fuel)%nat → blank p t →
  cjk_run fuel full (char_indices_from (str_len front) rest) t = Ok (toks p (cjk_words (str_len front) rest)).
Proof.
  induction rest as [rest IH] using (well_founded_induction (Wf_nat.well_founded_ltof _ length)).
  unfold Wf_nat.ltof in IH. intros full fuel front p t Hfull Hfuel Ht.
  destruct rest as [|c rest]; [done|]. simpl in Hfuel.
  assert (∀ w, str_len (front ++ w) = str_len front + str_len w) as Hlen by (intros; apply str_len_app).
  unfold cjk_run. rewrite char_indices_cons. cbn [cjk_advance_loop].
  destruct (char_grouping c) eqn:Hc.
  - pose proof (find_kept (str_len front + len_utf8 c) rest) as Hfind. pose proof (kept_run_app rest) as Happ.
    rewrite cjk_words_kept by done.
    destruct (kept_run rest) as [w r], (find_not_keep _) as [found more]. simpl in Hfind, Happ.
    destruct Hfind as [Hiter Hto]. cbn [fst snd]. destruct fuel as [|fuel]; [lia|].
    eapply (cjk_emit fuel front (c :: w) r); try done.
    + by rewrite Hfull, Happ.
    + destruct found as [[next_index nc]|]; simpl in Hto; destruct r as [|? ?]; simplify_eq/=; [lia|].
      rewrite Hlen, app_nil_r. done.
    + intros t' Ht'. rewrite Hiter. replace (str_len front + len_utf8 c + str_len w) with (str_len (front ++ c :: w))
        by (rewrite Hlen; simpl; lia). rewrite <- Hlen.
      apply IH; [|by rewrite Hfull, Happ, <- app_assoc| |done]; subst rest; simpl in *; rewrite length_app in *; lia.
  - rewrite cjk_words_ideograph by done. destruct fuel as [|fuel]; [lia|].
    eapply (cjk_emit fuel front [c] rest); try done; [simpl; lia|].
    intros t' Ht'. simpl. replace (str_len front + len_utf8 c) with (str_len (front ++ [c])) by (rewrite Hlen; simpl; lia).
    apply IH; [simpl; lia|by rewrite Hfull, <- app_assoc|lia|done].
  - rewrite cjk_words_ignored by done.
    replace (str_len front + len_utf8 c) with (str_len (front ++ [c])) by (rewrite Hlen; simpl; lia).
    apply (IH rest); [simpl; lia|by rewrite Hfull, <- app_assoc|lia|done].
Qed.

Definition one_group (w : list Z) : Prop :=
  (∃ c, w = [c] ∧ char_grouping c = SplitKeep) ∨ Forall (λ c, char_grouping c = Keep) w.
Lemma kept_run_kept text : Forall (λ c, char_grouping c = Keep) (kept_run text).1.
Proof.
  induction text as [|c rest IH]; [constructor|]. simpl. case_bool_decide; [|constructor].
  destruct (kept_run rest). by constructor.
Qed.
Lemma cjk_words_groups rest : ∀ off, Forall (λ w, one_group w.2) (cjk_words off rest).
Proof.
  induction rest as [rest IH] using (well_founded_induction (Wf_nat.well_founded_ltof _ length)).
  unfold Wf_nat.ltof in IH. intros off. destruct rest as [|c rest]; [constructor|].
  destruct (char_grouping c) eqn:Hc.
  - rewrite cjk_words_kept by done. pose proof (kept_run_app rest) as Happ.
    constructor; [right; constructor; [done|apply kept_run_kept]|].
    apply IH. rewrite Happ at 2. simpl. rewrite length_app. lia.
  - rewrite cjk_words_ideograph by done. constructor; [left; by eexists|]. apply IH. simpl. lia.
  - rewrite cjk_words_ignored by done. apply IH. simpl. lia.
Qed.

(** The Chinese tokenizer returns every token of a text and stops, within a call
    per character and one more: each token is one ideograph or a maximal run of other
    letters and digits, exactly the slice of its offsets, in order, and together they
    are the text without its other characters. *)
Theorem cjk_tokens_words t :
  let ws := cjk_words 0 t in
  cjk_tokens t = Ok (imap token_of ws) ∧
  concat (snd <$> ws) = filter (λ c, char_grouping c ≠ SplitIgnore) t ∧
  Forall (λ w, w.2 ≠ [] ∧ str_slice t w.1 (w.1 + str_len w.2) = Ok w.2) ws ∧
  Forall (λ w, one_group w.2) ws ∧
  StronglySorted (λ a b, (span a).2 ≤ (span b).1) ws.
Proof.
  intros ws. pose proof (words_sound cjk_dropped cjk_cut 0 t) as Hw. fold (cjk_words 0 t) ws in Hw.
  split_and!.
  - unfold cjk_tokens. rewrite cjk_stream_tokens_run, <- toks_imap. unfold cjk_token_stream. cbn [text last_char chars token].
    apply (cjk_run_ok t t (length t) []); [done|lia|done].
  - rewrite (Words_kept _ _ _ _ Hw). apply list_filter_iff. intros c. apply cjk_dropped_iff.
  - eapply Forall_impl; [apply (Words_slices _ t [] t ws Hw); done|]. simpl. tauto.
  - apply cjk_words_groups.
  - apply (Words_sorted _ _ _ _ Hw).
Qed.
End cjk_words.
