(* ===== verification/WordTokens.v ===== *)
(** * WordTokens: tokens found by ICU and Lindera

    [tokenizers/icu.rs] makes tokens of the words ICU's break iterator finds, whose
    boundaries are UTF-16 positions, and [tokenizers/lindera.rs] of the tokens of Lindera's
    dictionaries.  The break iterator and the dictionaries are classes. *)

From S2P Require Import Prelude Tokens.

Open Scope Z_scope.

(** ** ICU *)

(** [char::encode_utf16(..).len()] *)
Definition len_utf16 (c : Z) : Z := if c <? 65536 then 1 else 2.
Definition utf16_len (text : list Z) : Z := foldr (λ c n, len_utf16 c + n) 0 text.

(** the boundaries of some pieces of a text, each with its piece's status *)
Fixpoint bounds (at_unit : Z) (segments : list (list Z * Z)) : list (Z * Z) :=
  match segments with
  | [] => []
  | (w, status) :: segments => (at_unit + utf16_len w, status) :: bounds (at_unit + utf16_len w) segments
  end.
(** [UBreakIterator] of type [UBRK_WORD]: the boundaries of a text after 0, in UTF-16 units, with
    their rule status; they cut the text into pieces *)
Class Icu := {
  word_boundaries : list Z → list (Z * Z);
  word_segments : list Z → list (list Z * Z);
  boundaries_of_segments text : word_boundaries text = bounds 0 (word_segments text);
  segments_cut text : concat (word_segments text).*1 = text
}.
(** where the iterator is, the status of that boundary, and the boundaries to come *)
Record UBreakIterator := { ub_current : Z; ub_status : Z; ub_rest : list (Z * Z) }.
Definition ub_next (it : UBreakIterator) : option Z * UBreakIterator :=
  match ub_rest it with
  | [] => (None, it)
  | (b, status) :: rest => (Some b, {| ub_current := b; ub_status := status; ub_rest := rest |})
  end.

Record ICUBreakingWord := {
  bw_text : list Z;
  utf16_indices_to_byte_offsets : list Z;
  default_breaking_iterator : UBreakIterator
}.
Definition set_iterator (it : UBreakIterator) (bw : ICUBreakingWord) : ICUBreakingWord :=
  {| bw_text := bw_text bw; utf16_indices_to_byte_offsets := utf16_indices_to_byte_offsets bw;
     default_breaking_iterator := it |}.

(** the loop of [From]: an entry per code unit of every character, and the end *)
Fixpoint byte_offsets (byte_offset : Z) (text : list Z) : list Z :=
  match text with
  | [] => [byte_offset]
  | ch :: text => replicate (Z.to_nat (len_utf16 ch)) byte_offset ++ byte_offsets (byte_offset + len_utf8 ch) text
  end.

Section icu.
Context `{Unicode} `{Icu}.

Definition breaking_word_from (text : list Z) : ICUBreakingWord :=
  {| bw_text := text; utf16_indices_to_byte_offsets := byte_offsets 0 text;
     default_breaking_iterator := {| ub_current := 0; ub_status := 0; ub_rest := word_boundaries text |} |}.

Definition is_alphanumeric (c : Z) : bool := is_alphabetic c || is_numeric c.

(** the text between two boundaries, and its byte offsets *)
Definition between (bw : ICUBreakingWord) (start end_ : Z) : outcome (list Z * Z * Z) :=
  start_byte ← index (utf16_indices_to_byte_offsets bw) start;
  end_byte ← index (utf16_indices_to_byte_offsets bw) end_;
  substring ← str_slice (bw_text bw) start_byte end_byte;
  Ok (substring, start_byte, end_byte).

(** [while cont && end.is_some()] *)
Fixpoint next_loop (fuel : nat) (bw : ICUBreakingWord) (cont : bool) (start : Z) (end_ : option Z)
    : outcome (Z * option Z * ICUBreakingWord) :=
  match end_, cont with
  | Some end_unit, true =>
      match fuel with
      | O => NoFuel
      | S fuel =>
          let '(start, end_, bw) :=
            if ub_status (default_breaking_iterator bw) =? 0 then
              let '(next, it) := ub_next (default_breaking_iterator bw) in (end_unit, next, set_iterator it bw)
            else (start, end_, bw) in
          cont ← match end_ with
            | Some index => '(substring, _, _) ← between bw start index; Ok (negb (existsb is_alphanumeric substring))
            | None => Ok cont
            end;
          next_loop fuel bw cont start end_
      end
  | _, _ => Ok (start, end_, bw)
  end.
(** [Iterator::next] *)
Definition breaking_word_next (fuel : nat) (bw : ICUBreakingWord) : outcome (option (list Z * Z * Z) * ICUBreakingWord) :=
  let start := ub_current (default_breaking_iterator bw) in
  let '(end_, it) := ub_next (default_breaking_iterator bw) in
  '(start, end_, bw) ← next_loop fuel (set_iterator it bw) true start end_;
  match (end_ : option Z) with
  | None => Ok (None, bw)
  | Some index => item ← between bw start index; Ok (Some item, bw)
  end.

Record ICUTokenizerTokenStream := { breaking_word : ICUBreakingWord; icu_token : Token }.
Definition icu_token_stream (text : list Z) : ICUTokenizerTokenStream :=
  {| breaking_word := breaking_word_from text; icu_token := Token_default |}.
Definition icu_advance (fuel : nat) (s : ICUTokenizerTokenStream) : outcome (bool * ICUTokenizerTokenStream) :=
  '(token, bw) ← breaking_word_next fuel (breaking_word s);
  match (token : option (list Z * Z * Z)) with
  | None => Ok (false, {| breaking_word := bw; icu_token := icu_token s |})
  | Some (text, from, to) =>
      Ok (true, {| breaking_word := bw; icu_token := set_offsets from to text (next_token (icu_token s)) |})
  end.
(** the tokens of a text; one bound for the loop of every call, one for the calls *)
Definition icu_tokens (fuel calls : nat) (text : list Z) : outcome (list Token) :=
  stream_tokens (icu_advance fuel) icu_token calls (icu_token_stream text).
End icu.

(** ** Lindera *)

Inductive DictionaryKind := CcCedict | IPADIC | KoDic.
Record LinderaToken := {
  lt_text : list Z;
  byte_start : Z;
  byte_end : Z;
  lt_position : Z;
  lt_position_length : Z
}.
(** the three static tokenizers, [None] when one fails, and [char::is_whitespace] *)
Class Lindera := {
  lindera_tokenize : DictionaryKind → list Z → option (list LinderaToken);
  is_whitespace : Z → bool
}.

Inductive MultiLanguageTokenStream :=
  | LinderaEmpty
  | LinderaTokenStream (tokens : list LinderaToken) (token : Token).

Section lindera.
Context `{Lindera}.

(** [text.trim().is_empty()] *)
Definition is_blank (text : list Z) : bool := forallb is_whitespace text.
(** [token_stream] of [LinderaChineseTokenizer], [LinderaJapaneseTokenizer] and [LinderaKoreanTokenizer],
    with the token the tokenizer keeps *)
Definition lindera_token_stream (kind : DictionaryKind) (token : Token) (text : list Z) : outcome MultiLanguageTokenStream :=
  if is_blank text then Ok LinderaEmpty
  else
    match lindera_tokenize kind text with
    | Some tokens => Ok (LinderaTokenStream tokens token)
    | None => Panic "Lindera tokenizer failed"
    end.
Definition lindera_chinese := lindera_token_stream CcCedict.
Definition lindera_japanese := lindera_token_stream IPADIC.
Definition lindera_korean := lindera_token_stream KoDic.

Definition token_from (t : LinderaToken) : Token :=
  {| offset_from := byte_start t; offset_to := byte_end t; position := lt_position t; tok_text := lt_text t;
     position_length := lt_position_length t |}.
Definition lindera_advance (s : MultiLanguageTokenStream) : bool * MultiLanguageTokenStream :=
  match s with
  | LinderaEmpty => (false, s)
  | LinderaTokenStream [] _ => (false, s)
  | LinderaTokenStream (t :: tokens) _ => (true, LinderaTokenStream tokens (token_from t))
  end.
Definition lindera_token (s : MultiLanguageTokenStream) : outcome Token :=
  match s with
  | LinderaEmpty => Panic "Cannot call token() on an empty token stream."
  | LinderaTokenStream _ token => Ok token
  end.
(** the tokens that are left: [token()] is called when [advance()] was [true] *)
Fixpoint lindera_tokens (calls : nat) (s : MultiLanguageTokenStream) : outcome (list Token) :=
  match calls with
  | O => NoFuel
  | S calls =>
      let '(more, s) := lindera_advance s in
      if (more : bool) then token ← lindera_token s; tokens ← lindera_tokens calls s; Ok (token :: tokens) else Ok []
  end.

(** A stream yields the dictionary's tokens as they are, and a blank text none. *)
Theorem lindera_tokens_dictionary kind token text tokens :
  lindera_tokenize kind text = Some tokens →
  ∃ s, lindera_token_stream kind token text = Ok s ∧
    lindera_tokens (S (length tokens)) s = Ok (if is_blank text then [] else token_from <$> tokens).
Proof.
  intros Ht. unfold lindera_token_stream. destruct (is_blank text); [by eexists|]. rewrite Ht. eexists. split; [done|].
  clear. revert token. induction tokens as [|t tokens IH]; intros token; [done|]. cbn. cbn in IH. by rewrite IH.
Qed.
End lindera.

(** ** The words ICU's tokenizer keeps *)

Section icu_lemmas.
Context `{Unicode} `{Icu}.
Implicit Types (text front w : list Z) (segments : list (list Z * Z)).

Definition alphanumeric w : bool := existsb is_alphanumeric w.
(** Pieces with the status 0 are dropped, but one that follows a dropped one is kept when it has a
    letter or number; [None]: a piece with another status and neither is never left. *)
Fixpoint kept (skipped : bool) (offset : Z) segments : option (list (Z * list Z)) :=
  match segments with
  | [] => Some []
  | (w, status) :: segments =>
      if (status =? 0) && negb (skipped && alphanumeric w) then kept true (offset + str_len w) segments
      else if alphanumeric w then cons (offset, w) <$> kept false (offset + str_len w) segments
      else None
  end.

Lemma utf16_len_app w w' : utf16_len (w ++ w') = utf16_len w + utf16_len w'.
Proof. induction w as [|c w IH]; [done|]. simpl. rewrite IH. lia. Qed.
Lemma len_utf16_pos c : 0 < len_utf16 c.
Proof. unfold len_utf16. zcmp. Qed.
Lemma utf16_len_nonneg w : 0 ≤ utf16_len w.
Proof. induction w as [|c w IH]; simpl; [lia|]. pose proof (len_utf16_pos c). lia. Qed.

(** the table has the byte offset of every character boundary *)
Lemma byte_offsets_at b front w : index (byte_offsets b (front ++ w)) (utf16_len front) = Ok (b + str_len front).
Proof.
  revert b. induction front as [|c front IH]; intros b; cbn [app utf16_len str_len foldr].
  - rewrite Z.add_0_r. destruct w as [|c w]; [done|]. cbn [byte_offsets]. pose proof (len_utf16_pos c).
    destruct (Z.to_nat (len_utf16 c)) eqn:Hc; [lia|]. done.
  - fold (utf16_len front). fold (str_len front). cbn [byte_offsets]. pose proof (len_utf16_pos c). pose proof (utf16_len_nonneg front).
    specialize (IH (b + len_utf8 c)). unfold index in *. rewrite znth_lookup in * by lia.
    rewrite lookup_app_r; rewrite length_replicate; [|lia].
    replace (Z.to_nat (len_utf16 c + utf16_len front) - Z.to_nat (len_utf16 c))%nat with (Z.to_nat (utf16_len front)) by lia.
    rewrite IH. f_equal. lia.
Qed.

Lemma between_ok text front w back it :
  text = front ++ w ++ back →
  between (set_iterator it (breaking_word_from text)) (utf16_len front) (utf16_len front + utf16_len w) =
    Ok (w, str_len front, str_len front + str_len w).
Proof.
  intros ->. unfold between. cbn [set_iterator utf16_indices_to_byte_offsets bw_text breaking_word_from].
  rewrite (byte_offsets_at 0 front). cbn [mbind outcome_bind]. rewrite <- utf16_len_app, app_assoc, (byte_offsets_at 0 (front ++ w)).
  cbn [mbind outcome_bind]. rewrite !Z.add_0_l, str_len_app, <- app_assoc, str_slice_mid. done.
Qed.

(** the iterator after the pieces of [front]; [status] is the last one's *)
Definition iter_at front (status : Z) segments : UBreakIterator :=
  {| ub_current := utf16_len front; ub_status := status; ub_rest := bounds (utf16_len front) segments |}.
Definition word_at text front (status : Z) segments : ICUBreakingWord :=
  set_iterator (iter_at front status segments) (breaking_word_from text).

Lemma between_at text front w back f status segments :
  text = front ++ w ++ back →
  between (word_at text f status segments) (utf16_len front) (utf16_len front + utf16_len w) =
    Ok (w, str_len front, str_len front + str_len w).
Proof. apply between_ok. Qed.
Lemma next_at text front status w s segments :
  ub_next (default_breaking_iterator (word_at text front status ((w, s) :: segments))) =
    (Some (utf16_len front + utf16_len w), iter_at (front ++ w) s segments).
Proof. unfold iter_at. rewrite utf16_len_app. done. Qed.

(** what the loop comes to, by what is kept: a word, none, or no end *)
Definition comes_to text (run : nat → outcome (Z * option Z * ICUBreakingWord)) (n : nat) (k : option (list (Z * list Z))) : Prop :=
  (∃ front w s segments, text = front ++ w ++ concat segments.*1 ∧ (length segments ≤ n)%nat ∧
     k = cons (str_len front, w) <$> kept false (str_len (front ++ w)) segments ∧
     ∀ fuel, run fuel = Ok (utf16_len front, Some (utf16_len front + utf16_len w), word_at text (front ++ w) s segments)
       ∨ run fuel = NoFuel ∧ (fuel ≤ S n)%nat) ∨
  (k = Some [] ∧ ∀ fuel, (∃ start bw, run fuel = Ok (start, None, bw)) ∨ run fuel = NoFuel ∧ (fuel ≤ S n)%nat) ∨
  (k = None ∧ ∀ fuel, run fuel = NoFuel).

Lemma next_loop_stuck text front w s segments fuel :
  text = front ++ w ++ concat segments.*1 → s ≠ 0 → alphanumeric w = false →
  next_loop fuel (word_at text (front ++ w) s segments) true (utf16_len front) (Some (utf16_len front + utf16_len w)) = NoFuel.
Proof.
  intros Htext Hs Hw. induction fuel as [|fuel IH]; [done|]. cbn [next_loop].
  cbn [word_at set_iterator default_breaking_iterator iter_at ub_status]. rewrite (proj2 (Z.eqb_neq s 0)) by done.
  unfold word_at. rewrite (between_ok text front w (concat segments.*1)) by done. cbn [mbind outcome_bind].
  unfold alphanumeric in Hw. rewrite Hw. exact IH.
Qed.

Lemma next_loop_ok text segments : ∀ front w s,
  text = front ++ w ++ concat segments.*1 →
  comes_to text (λ fuel, next_loop fuel (word_at text (front ++ w) s segments) true (utf16_len front)
      (Some (utf16_len front + utf16_len w)))
    (length segments) (kept false (str_len front) ((w, s) :: segments)).
Proof.
  induction segments as [|[w2 s2] segments IH]; intros front w s Htext; cbn [kept andb negb];
    (destruct (Z.eqb_spec s 0) as [->|Hs]; cbn [andb];
      [|destruct (alphanumeric w) eqn:Hw;
        [left; exists front, w, s; eexists; split; [exact Htext|]; split; [done|]; split; [by rewrite str_len_app|]
        |right; right; split; [done|]; intros fuel; by apply next_loop_stuck]]).
  2, 4: intros [|fuel]; [right; split; [done|lia]|left]; cbn [next_loop];
    cbn [word_at set_iterator default_breaking_iterator iter_at ub_status]; rewrite (proj2 (Z.eqb_neq s 0)) by done;
    unfold word_at; rewrite (between_ok text front w _) by done; cbn [mbind outcome_bind];
    unfold alphanumeric in Hw; rewrite Hw; by destruct fuel.
  - right; left. split; [done|]. intros [|fuel]; [right; split; [done|lia]|left]. by destruct fuel; eexists _, _.
  - assert (text = (front ++ w) ++ w2 ++ concat segments.*1) as Htext2 by (rewrite <- app_assoc; done).
    assert (∀ fuel, next_loop (S fuel) (word_at text (front ++ w) 0 ((w2, s2) :: segments)) true (utf16_len front)
        (Some (utf16_len front + utf16_len w)) =
      next_loop fuel (word_at text ((front ++ w) ++ w2) s2 segments) (negb (alphanumeric w2)) (utf16_len (front ++ w))
        (Some (utf16_len (front ++ w) + utf16_len w2))) as Hrun.
    { intros fuel. cbn [next_loop]. change (ub_status _) with 0. cbn [Z.eqb]. rewrite next_at.
      rewrite <- utf16_len_app.
      change (set_iterator ?it (word_at text _ _ _)) with (set_iterator it (breaking_word_from text)).
      rewrite (between_ok text (front ++ w) w2 (concat segments.*1)) by done. done. }
    cbn [kept]. rewrite <- str_len_app. destruct (alphanumeric w2) eqn:Hw2.
    + rewrite andb_false_r. left. exists (front ++ w), w2, s2, segments. split; [done|]. split; [cbn; lia|].
      split; [by rewrite (str_len_app (front ++ w) w2)|]. intros [|fuel]; [right; split; [done|lia]|left]. rewrite Hrun. by destruct fuel.
    + cbn [andb negb]. rewrite andb_true_r.
      specialize (IH (front ++ w) w2 s2 Htext2). cbn [kept andb negb] in IH. rewrite Hw2, andb_true_r in IH.
      destruct IH as [(f & w' & s' & segs & Ht & Hl & Hk & Hr)|[(Hk & Hr)|(Hk & Hr)]].
      * left. exists f, w', s', segs. split; [done|]. split; [cbn; lia|]. split; [done|].
        intros [|fuel]; [right; split; [done|lia]|]. rewrite Hrun. destruct (Hr fuel) as [?|[? ?]]; [by left|right; split; [done|cbn; lia]].
      * right; left. split; [done|]. intros [|fuel]; [right; split; [done|lia]|]. rewrite Hrun.
        destruct (Hr fuel) as [?|[? ?]]; [by left|right; split; [done|cbn; lia]].
      * right; right. split; [done|]. intros [|fuel]; [done|]. by rewrite Hrun.
Qed.

(** one word *)
Lemma word_next_ok text front status segments :
  text = front ++ concat segments.*1 →
  (∃ front' w s segments', text = front' ++ w ++ concat segments'.*1 ∧ (length segments' < length segments)%nat ∧
     kept false (str_len front) segments = cons (str_len front', w) <$> kept false (str_len (front' ++ w)) segments' ∧
     ∀ fuel, breaking_word_next fuel (word_at text front status segments) =
         Ok (Some (w, str_len front', str_len front' + str_len w), word_at text (front' ++ w) s segments') ∨
       breaking_word_next fuel (word_at text front status segments) = NoFuel ∧ (fuel ≤ length segments)%nat) ∨
  (kept false (str_len front) segments = Some [] ∧
     ∀ fuel, (∃ bw, breaking_word_next fuel (word_at text front status segments) = Ok (None, bw)) ∨
       breaking_word_next fuel (word_at text front status segments) = NoFuel ∧ (fuel ≤ length segments)%nat) ∨
  (kept false (str_len front) segments = None ∧ ∀ fuel, breaking_word_next fuel (word_at text front status segments) = NoFuel).
Proof.
  destruct segments as [|[w s] segments]; intros Htext.
  { right; left. split; [done|]. intros fuel. left. eexists. unfold breaking_word_next. by destruct fuel. }
  assert (∀ fuel, breaking_word_next fuel (word_at text front status ((w, s) :: segments)) =
    ('(start, end_, bw) ← next_loop fuel (word_at text (front ++ w) s segments) true (utf16_len front)
        (Some (utf16_len front + utf16_len w));
     match (end_ : option Z) with
     | None => Ok (None, bw)
     | Some index => item ← between bw start index; Ok (Some item, bw)
     end)) as Hrun.
  { intros fuel. unfold breaking_word_next. rewrite next_at. done. }
  destruct (next_loop_ok text segments front w s Htext) as [(f & w' & s' & segs & Ht & Hl & Hk & Hr)|[(Hk & Hr)|(Hk & Hr)]].
  - left. exists f, w', s', segs. split; [done|]. split; [cbn; lia|]. split; [done|]. intros fuel. rewrite Hrun.
    destruct (Hr fuel) as [->|[-> Hf]]; [left|right; by split].
    cbn [mbind outcome_bind]. by rewrite (between_at text f w' (concat segs.*1)).
  - right; left. split; [done|]. intros fuel. rewrite Hrun.
    destruct (Hr fuel) as [(start & bw & ->)|[-> Hf]]; [left; by exists bw|right; by split].
  - right; right. split; [done|]. intros fuel. by rewrite Hrun, Hr.
Qed.

Lemma icu_stream_step fuel calls bw t :
  stream_tokens (icu_advance fuel) icu_token (S calls) {| breaking_word := bw; icu_token := t |} =
    ('(item, bw) ← breaking_word_next fuel bw;
     match (item : option (list Z * Z * Z)) with
     | None => Ok []
     | Some (w, from, to) =>
         let t := set_offsets from to w (next_token t) in
         ts ← stream_tokens (icu_advance fuel) icu_token calls {| breaking_word := bw; icu_token := t |}; Ok (t :: ts)
     end).
Proof.
  set (rest := λ s, stream_tokens (icu_advance fuel) icu_token calls s).
  transitivity ('(more, s) ← icu_advance fuel {| breaking_word := bw; icu_token := t |};
    if (more : bool) then ts ← rest s; Ok (icu_token s :: ts) else Ok []); [done|].
  unfold icu_advance. cbn [breaking_word icu_token].
  destruct (breaking_word_next fuel bw) as [[[[[w from] to]|] bw']|msg|msg|]; done.
Qed.

Lemma icu_stream_ok text n : ∀ front status segments p t,
  (length segments ≤ n)%nat → text = front ++ concat segments.*1 → position t = p → position_length t = 1 →
  let run fuel calls := stream_tokens (icu_advance fuel) icu_token calls
    {| breaking_word := word_at text front status segments; icu_token := t |} in
  match kept false (str_len front) segments with
  | Some ws => ∀ fuel calls, (length segments < fuel)%nat → (length segments < calls)%nat →
      run fuel calls = Ok (toks ((p + 1) mod 2 ^ 64) ws)
  | None => ∀ fuel calls, run fuel calls = NoFuel
  end.
Proof.
  induction n as [n IH] using lt_wf_ind. intros front status segments p t Hn Htext Hp Hl run. unfold run. clear run.
  destruct (word_next_ok text front status segments Htext)
    as [(f & w & s & segs & Ht & Hlt & Hk & Hr)|[(Hk & Hr)|(Hk & Hr)]]; rewrite Hk.
  - set (q := (p + 1) mod 2 ^ 64).
    specialize (IH (length segs) ltac:(lia) (f ++ w) s segs q
      (set_offsets (str_len f) (str_len f + str_len w) w (next_token t)) ltac:(lia)).
    rewrite <- app_assoc in IH. specialize (IH Ht). destruct (blank_next p t Hp Hl) as (Hb1 & Hb2 & Hb3).
    specialize (IH Hb1 Hb3). cbn zeta in IH.
    destruct (kept false (str_len (f ++ w)) segs) as [ws|]; cbn [fmap option_fmap option_map].
    + intros fuel [|calls] Hf Hc; [lia|]. rewrite icu_stream_step.
      destruct (Hr fuel) as [->|[_ ?]]; [|lia]. cbn [mbind outcome_bind icu_token]. rewrite IH by lia. cbn [mbind outcome_bind].
      f_equal. unfold set_offsets. rewrite Hb1, Hb2, Hb3. done.
    + intros fuel [|calls]; [done|]. rewrite icu_stream_step.
      destruct (Hr fuel) as [->|[-> _]]; [|done]. cbn [mbind outcome_bind icu_token]. by rewrite IH.
  - intros fuel [|calls] Hf Hc; [lia|]. rewrite icu_stream_step.
    destruct (Hr fuel) as [(bw & ->)|[_ ?]]; [done|lia].
  - intros fuel [|calls]; [done|]. rewrite icu_stream_step. by rewrite Hr.
Qed.

(** C40: The ICU tokenizer either returns and its tokens are, in order and each at its
    own bytes, the pieces of ICU's segmentation that carry a letter or number and either
    a word status or a dropped piece in front; or, when it comes to a piece with a word
    status and neither letter nor number, it never returns, however long it runs. *)
Theorem icu_tokens_words text :
  let segments := word_segments text in
  match kept false 0 segments with
  | Some ws => icu_tokens (S (length segments)) (S (length segments)) text = Ok (imap token_of ws)
  | None => ∀ fuel calls, icu_tokens fuel calls text = NoFuel
  end.
Proof.
  intros segments. pose proof (icu_stream_ok text (length segments) [] 0 segments usize_max Token_default ltac:(done)
    ltac:(symmetry; apply segments_cut) ltac:(done) ltac:(done)) as Hs. cbn zeta in Hs.
  assert (icu_token_stream text = {| breaking_word := word_at text [] 0 segments; icu_token := Token_default |}) as Heq.
  { unfold icu_token_stream, word_at, breaking_word_from, set_iterator, iter_at, segments. cbn. by rewrite boundaries_of_segments. }
  unfold icu_tokens. rewrite Heq. change (str_len []) with 0 in Hs. destruct (kept false 0 segments) as [ws|]; [|exact Hs].
  rewrite Hs by lia. change ((usize_max + 1) mod 2 ^ 64) with 0. by rewrite toks_imap.
Qed.

(** Every token is a piece of the text with a letter or number, at its own place. *)
Lemma kept_pieces skipped offset segments ws :
  kept skipped offset segments = Some ws →
  Forall (λ ow, ow.2 ∈ segments.*1 ∧ alphanumeric ow.2 = true) ws.
Proof.
  revert skipped offset ws. induction segments as [|[w s] segments IH]; intros skipped offset ws; cbn [kept]; [intros [= <-]; constructor|].
  assert (∀ b o ws, kept b o segments = Some ws → Forall (λ ow, ow.2 ∈ (w :: segments.*1) ∧ alphanumeric ow.2 = true) ws) as Hrest.
  { intros b o ws' Hk. eapply Forall_impl; [by eapply IH|]. intros ow [Hin Ha]. split; [by right|done]. }
  destruct ((s =? 0) && _); [by apply Hrest|]. destruct (alphanumeric w) eqn:Hw; [|done].
  destruct (kept false _ segments) as [ws'|] eqn:Hk; [|done]. intros [= <-]. constructor; [split; [by left|done]|by eapply Hrest].
Qed.
(** When ICU's statuses tell pieces with a letter or number from the others, all of them are tokens. *)
Lemma kept_faithful skipped offset segments :
  Forall (λ ws, ws.2 = 0 ↔ alphanumeric ws.1 = false) segments →
  ∃ ws, kept skipped offset segments = Some ws ∧ ws.*2 = filter (λ w, alphanumeric w = true) segments.*1.
Proof.
  intros Hall. revert skipped offset. induction Hall as [|[w s] segments Hw _ IH]; intros skipped offset; [by exists []|].
  cbn [kept fst snd fmap list_fmap] in *. rewrite filter_cons. destruct (alphanumeric w) eqn:Ha.
  - rewrite (proj2 (Z.eqb_neq s 0)); [|by intros ?%Hw]. cbn [andb]. rewrite decide_True by done.
    destruct (IH false (offset + str_len w)) as (ws & -> & Hws). eexists. split; [done|]. cbn. by rewrite Hws.
  - rewrite (proj2 Hw), andb_false_r by done. rewrite decide_False by done. cbn. apply IH.
Qed.
End icu_lemmas.
