(* ===== verification/TokenizerConfig.v ===== *)
(** * TokenizerConfig: the tokenizers a field can ask for

    Models [tokenizers/manager.rs] ([SearchTokenizer], its JSON form, its name and the
    analyzer it builds) and [create_tokenizer_manager] of [tokenizers/lib.rs].  Tantivy's
    tokenizers and filters appear as the constructor calls the code makes
    ([TextAnalyzer]); which of their arguments Tantivy accepts is a parameter. *)

From stdpp Require Import pretty.
From Stdlib Require Import Ascii.
From S2P Require Import Prelude.

Open Scope Z_scope.

(** ** [serde_json::Value] *)

(** an integer of a JSON number is one of [u64] or [i64]; an object keeps the last
    value of a key *)
#[warnings="-register-all"]
Inductive Json :=
  | JNull
  | JBool (b : bool)
  | JInteger (n : Z)
  | JFloat (repr : string)
  | JString (s : string)
  | JArray (l : list Json)
  | JObject (entries : list (string * Json)).

Fixpoint assoc_lookup {A} (key : string) (l : list (string * A)) : option A :=
  match l with
  | [] => None
  | (k, v) :: l => if decide (key = k) then Some v else assoc_lookup key l
  end.
Definition assoc_insert {A} (key : string) (v : A) (l : list (string * A)) : list (string * A) :=
  (key, v) :: filter (λ kv, kv.1 ≠ key) l.

(** [value.get(key)], [value[key]], [as_u64], [as_bool] and [as_str] *)
Definition json_get (value : Json) (key : string) : option Json :=
  match value with JObject l => assoc_lookup key l | _ => None end.
Definition json_index (value : Json) (key : string) : Json := default JNull (json_get value key).
Definition json_as_u64 (value : Json) : option Z :=
  match value with JInteger n => if (0 <=? n) && (n <? 2 ^ 64) then Some n else None | _ => None end.
Definition json_as_bool (value : Json) : option bool := match value with JBool b => Some b | _ => None end.
Definition json_as_str (value : Json) : option string := match value with JString s => Some s | _ => None end.

(** ** The configuration *)

(** [tantivy::tokenizer::Language] *)
Inductive Language :=
  | Arabic | Danish | Dutch | English | Finnish | French | German | Greek | Hungarian | Italian
  | Norwegian | Portuguese | Romanian | Russian | Spanish | Swedish | Tamil | Turkish.
#[global] Instance Language_eq_dec : EqDecision Language.
Proof. solve_decision. Defined.

(** how a language is (de)serialized and printed for debugging *)
Class SerdeLanguage := {
  language_to_json : Language → Json;
  language_from_json : Json → option Language;
  language_debug : Language → string;
  language_json_roundtrip l : language_from_json (language_to_json l) = Some l;
  language_debug_inj : Inj (=) (=) language_debug
}.

Record SearchTokenizerFilters := {
  remove_long : option Z;
  lowercase : option bool;
  stemmer : option Language
}.
#[global] Instance SearchTokenizerFilters_eq_dec : EqDecision SearchTokenizerFilters.
Proof. solve_decision. Defined.
Definition filters_default : SearchTokenizerFilters :=
  {| remove_long := None; lowercase := None; stemmer := None |}.

Inductive SearchTokenizer :=
  | Default (filters : SearchTokenizerFilters)
  | Raw (filters : SearchTokenizerFilters)
  | EnStem (filters : SearchTokenizerFilters)
  | Stem (language : Language) (filters : SearchTokenizerFilters)
  | Lowercase (filters : SearchTokenizerFilters)
  | WhiteSpace (filters : SearchTokenizerFilters)
  | RegexTokenizer (pattern : string) (filters : SearchTokenizerFilters)
  | ChineseCompatible (filters : SearchTokenizerFilters)
  | SourceCode (filters : SearchTokenizerFilters)
  | Ngram (min_gram max_gram : Z) (prefix_only : bool) (filters : SearchTokenizerFilters)
  | ChineseLindera (filters : SearchTokenizerFilters)
  | JapaneseLindera (filters : SearchTokenizerFilters)
  | KoreanLindera (filters : SearchTokenizerFilters)
  | ICUTokenizer (filters : SearchTokenizerFilters).
#[global] Instance SearchTokenizer_eq_dec : EqDecision SearchTokenizer.
Proof. solve_decision. Defined.

Definition tokenizer_filters (t : SearchTokenizer) : SearchTokenizerFilters :=
  match t with
  | Default filters | Raw filters | EnStem filters | Stem _ filters | Lowercase filters
  | WhiteSpace filters | RegexTokenizer _ filters | ChineseCompatible filters | SourceCode filters
  | Ngram _ _ _ filters | ChineseLindera filters | JapaneseLindera filters | KoreanLindera filters
  | ICUTokenizer filters => filters
  end.

Section config.
Context `{SerdeLanguage}.

(** ** JSON *)

(** [value.map(f).transpose()?] *)
Definition get_field {A} (value : Json) (key msg : string) (f : Json → option A) : outcome (option A) :=
  match json_get value key with
  | Some v => match f v with Some a => Ok (Some a) | None => Err msg end
  | None => Ok None
  end.

Definition filters_from_json_value (value : Json) : outcome SearchTokenizerFilters :=
  remove_long ← get_field value "remove_long" "a 'remove_long' value must be of type u64" json_as_u64;
  lowercase ← get_field value "lowercase" "a 'lowercase' value must be of type bool" json_as_bool;
  stemmer ← get_field value "stemmer" "stemmer tokenizer requires a valid 'stemmer' field" language_from_json;
  Ok {| remove_long := remove_long; lowercase := lowercase; stemmer := stemmer |}.

Definition filters_to_json_value (filters : SearchTokenizerFilters) (enclosing : list (string * Json))
    : list (string * Json) :=
  let enclosing := match remove_long filters with
                   | Some value => assoc_insert "remove_long" (JInteger value) enclosing
                   | None => enclosing end in
  match lowercase filters with
  | Some value => assoc_insert "lowercase" (JBool value) enclosing
  | None => enclosing
  end.

Definition tokenizer_to_json_value (t : SearchTokenizer) : Json :=
  let tagged (type : string) (rest : list (string * Json)) := ("type", JString type) :: rest in
  let json :=
    match t with
    | Default _ => tagged "default" []
    | Raw _ => tagged "raw" []
    | EnStem _ => tagged "en_stem" []
    | Stem language _ => tagged "stem" [("language", language_to_json language)]
    | Lowercase _ => tagged "lowercase" []
    | WhiteSpace _ => tagged "whitespace" []
    | RegexTokenizer pattern _ => tagged "regex" [("pattern", JString pattern)]
    | ChineseCompatible _ => tagged "chinese_compatible" []
    | SourceCode _ => tagged "source_code" []
    | Ngram min_gram max_gram prefix_only _ =>
        tagged "ngram" [("min_gram", JInteger min_gram); ("max_gram", JInteger max_gram);
                        ("prefix_only", JBool prefix_only)]
    | ChineseLindera _ => tagged "chinese_lindera" []
    | JapaneseLindera _ => tagged "japanese_lindera" []
    | KoreanLindera _ => tagged "korean_lindera" []
    | ICUTokenizer _ => tagged "icu" []
    end in
  JObject (filters_to_json_value (tokenizer_filters t) json).

Definition ok_or {A} (o : option A) (msg : string) : outcome A :=
  match o with Some a => Ok a | None => Err msg end.

(** the build has the [icu] feature *)
Definition tokenizer_from_json_value (value : Json) : outcome SearchTokenizer :=
  tokenizer_type ← ok_or (json_as_str (json_index value "type")) "a 'type' must be passed";
  filters ← filters_from_json_value value;
  if decide (tokenizer_type = "default") then Ok (Default filters)
  else if decide (tokenizer_type = "raw") then Ok (Raw filters)
  else if decide (tokenizer_type = "en_stem") then Ok (EnStem filters)
  else if decide (tokenizer_type = "stem") then
    language ← ok_or (language_from_json (json_index value "language"))
      "stem tokenizer requires a valid 'language' field";
    Ok (Stem language filters)
  else if decide (tokenizer_type = "lowercase") then Ok (Lowercase filters)
  else if decide (tokenizer_type = "whitespace") then Ok (WhiteSpace filters)
  else if decide (tokenizer_type = "regex") then
    pattern ← ok_or (json_as_str (json_index value "pattern"))
      "regex tokenizer requires a string 'pattern' field";
    Ok (RegexTokenizer pattern filters)
  else if decide (tokenizer_type = "chinese_compatible") then Ok (ChineseCompatible filters)
  else if decide (tokenizer_type = "source_code") then Ok (SourceCode filters)
  else if decide (tokenizer_type = "ngram") then
    min_gram ← ok_or (json_as_u64 (json_index value "min_gram"))
      "ngram tokenizer requires an integer 'min_gram' field";
    max_gram ← ok_or (json_as_u64 (json_index value "max_gram"))
      "ngram tokenizer requires an integer 'max_gram' field";
    prefix_only ← ok_or (json_as_bool (json_index value "prefix_only"))
      "ngram tokenizer requires a boolean 'prefix_only' field";
    Ok (Ngram min_gram max_gram prefix_only filters)
  else if decide (tokenizer_type = "chinese_lindera") then Ok (ChineseLindera filters)
  else if decide (tokenizer_type = "japanese_lindera") then Ok (JapaneseLindera filters)
  else if decide (tokenizer_type = "korean_lindera") then Ok (KoreanLindera filters)
  else if decide (tokenizer_type = "icu") then Ok (ICUTokenizer filters)
  else Err "unknown tokenizer type".

(** ** Names *)

(** [write!(buffer, "{}...", sep(is_empty))] *)
Definition push_part (buffer : string * bool) (part : string) : string * bool :=
  (buffer.1 +:+ (if buffer.2 then "" else ",") +:+ part, false).
Definition bool_to_string (b : bool) : string := if b then "true" else "false".
(** the decimal digits of a [usize] *)
Definition usize_to_string (n : Z) : string := pretty (Z.to_N n).

Definition name_suffix (filters : SearchTokenizerFilters) : string :=
  let buffer := (EmptyString, true) in
  let buffer := match remove_long filters with
                | Some value => push_part buffer ("remove_long=" +:+ usize_to_string value)
                | None => buffer end in
  let buffer := match lowercase filters with
                | Some value => push_part buffer ("lowercase=" +:+ bool_to_string value)
                | None => buffer end in
  let buffer := match stemmer filters with
                | Some value => push_part buffer ("stemmer=" +:+ language_debug value)
                | None => buffer end in
  if buffer.2 then "" else "[" +:+ buffer.1 +:+ "]".

Definition language_to_str (lang : Language) : string :=
  match lang with
  | Arabic => "Arabic" | Danish => "Danish" | Dutch => "Dutch" | English => "English"
  | Finnish => "Finnish" | French => "French" | German => "German" | Greek => "Greek"
  | Hungarian => "Hungarian" | Italian => "Italian" | Norwegian => "Norwegian"
  | Portuguese => "Portuguese" | Romanian => "Romanian" | Russian => "Russian"
  | Spanish => "Spanish" | Swedish => "Swedish" | Tamil => "Tamil" | Turkish => "Turkish"
  end.

Definition tokenizer_name (t : SearchTokenizer) : string :=
  let filters_suffix := name_suffix (tokenizer_filters t) in
  match t with
  | Default _ => "default" +:+ filters_suffix
  | Raw _ => "raw" +:+ filters_suffix
  | EnStem _ => "en_stem" +:+ filters_suffix
  | Stem language _ => "stem_" +:+ language_to_str language +:+ filters_suffix
  | Lowercase _ => "lowercase" +:+ filters_suffix
  | WhiteSpace _ => "whitespace" +:+ filters_suffix
  | RegexTokenizer _ _ => "regex" +:+ filters_suffix
  | ChineseCompatible _ => "chinese_compatible" +:+ filters_suffix
  | SourceCode _ => "source_code" +:+ filters_suffix
  | Ngram min_gram max_gram prefix_only _ =>
      "ngram_mingram:" +:+ usize_to_string min_gram +:+ "_maxgram:" +:+ usize_to_string max_gram +:+
      "_prefixonly:" +:+ bool_to_string prefix_only +:+ filters_suffix
  | ChineseLindera _ => "chinese_lindera" +:+ filters_suffix
  | JapaneseLindera _ => "japanese_lindera" +:+ filters_suffix
  | KoreanLindera _ => "korean_lindera" +:+ filters_suffix
  | ICUTokenizer _ => "icu" +:+ filters_suffix
  end.
End config.

(** ** Analyzers *)

(** the calls of Tantivy's constructors *)
Inductive BaseTokenizer :=
  | SimpleBase | RawBase | WhitespaceBase | RegexBase (pattern : string)
  | NgramBase (min_gram max_gram : Z) (prefix_only : bool)
  | ChineseBase | CodeBase | LinderaChineseBase | LinderaJapaneseBase | LinderaKoreanBase | ICUBase.
Inductive TokenFilter :=
  | RemoveLongFilter (limit : Z) | LowerCaser | AsciiFoldingFilter | StemmerFilter (language : Language).
Record TextAnalyzer := { analyzer_base : BaseTokenizer; analyzer_filters : list TokenFilter }.

(** whether [RegexTokenizer::new] and [NgramTokenizer::new] accept their arguments, and
    the tokenizers of [TokenizerManager::default()] *)
Class TantivyTokenizers := {
  regex_new : string → bool;
  ngram_new : Z → Z → bool → bool;
  default_tokenizers : gmap string TextAnalyzer
}.

Definition DEFAULT_REMOVE_TOKEN_LENGTH : Z := 255.

(** an optional filter that is [None] filters nothing *)
Definition remove_long_filter (filters : SearchTokenizerFilters) : list TokenFilter :=
  [RemoveLongFilter (default DEFAULT_REMOVE_TOKEN_LENGTH (remove_long filters))].
Definition lower_caser (filters : SearchTokenizerFilters) : list TokenFilter :=
  match lowercase filters with Some false => [] | _ => [LowerCaser] end.
Definition stemmer_filter (filters : SearchTokenizerFilters) : list TokenFilter :=
  option_list (StemmerFilter <$> stemmer filters).

Section analyzers.
Context `{TantivyTokenizers}.

Definition usual_filters (filters : SearchTokenizerFilters) : list TokenFilter :=
  remove_long_filter filters ++ lower_caser filters ++ stemmer_filter filters.

Definition to_tantivy_tokenizer (t : SearchTokenizer) : outcome (option TextAnalyzer) :=
  let usual (base : BaseTokenizer) (filters : SearchTokenizerFilters) :=
    Ok (Some {| analyzer_base := base; analyzer_filters := usual_filters filters |}) in
  match t with
  | Default filters => usual SimpleBase filters
  | Raw filters => usual RawBase filters
  | Lowercase filters => usual RawBase filters
  | WhiteSpace filters => usual WhitespaceBase filters
  | RegexTokenizer pattern filters =>
      if regex_new pattern then usual (RegexBase pattern) filters
      else Panic "called `Result::unwrap()` on an `Err` value"
  | Ngram min_gram max_gram prefix_only filters =>
      if ngram_new min_gram max_gram prefix_only then usual (NgramBase min_gram max_gram prefix_only) filters
      else Panic "Ngram parameters should be valid parameters for NgramTokenizer"
  | ChineseCompatible filters => usual ChineseBase filters
  | SourceCode filters =>
      Ok (Some {| analyzer_base := CodeBase;
                  analyzer_filters := remove_long_filter filters ++ lower_caser filters ++
                    [AsciiFoldingFilter] ++ stemmer_filter filters |})
  | ChineseLindera filters => usual LinderaChineseBase filters
  | JapaneseLindera filters => usual LinderaJapaneseBase filters
  | KoreanLindera filters => usual LinderaKoreanBase filters
  | EnStem filters =>
      Ok (Some {| analyzer_base := SimpleBase;
                  analyzer_filters := remove_long_filter filters ++ lower_caser filters ++
                    [StemmerFilter English] |})
  | Stem language filters =>
      Ok (Some {| analyzer_base := SimpleBase;
                  analyzer_filters := remove_long_filter filters ++ lower_caser filters ++
                    [StemmerFilter language] |})
  | ICUTokenizer filters => usual ICUBase filters
  end.

(** [create_tokenizer_manager]: a name registered again is replaced *)
Context `{SerdeLanguage}.
Fixpoint register_tokenizers (search_tokenizers : list SearchTokenizer) (manager : gmap string TextAnalyzer)
    : outcome (gmap string TextAnalyzer) :=
  match search_tokenizers with
  | [] => Ok manager
  | t :: ts =>
      tokenizer_option ← to_tantivy_tokenizer t;
      register_tokenizers ts
        (match tokenizer_option with
         | Some text_analyzer => <[tokenizer_name t := text_analyzer]> manager
         | None => manager
         end)
  end.
Definition create_tokenizer_manager (search_tokenizers : list SearchTokenizer)
    : outcome (gmap string TextAnalyzer) :=
  register_tokenizers search_tokenizers default_tokenizers.
End analyzers.

Definition create_normalizer_manager : gmap string TextAnalyzer :=
  <["lowercase" := {| analyzer_base := RawBase;
                      analyzer_filters := [LowerCaser; RemoveLongFilter DEFAULT_REMOVE_TOKEN_LENGTH] |}]>
    {["raw" := {| analyzer_base := RawBase;
                  analyzer_filters := [RemoveLongFilter DEFAULT_REMOVE_TOKEN_LENGTH] |}]}.

(** [SearchNormalizer] *)
Inductive SearchNormalizer := NormalizeRaw | NormalizeLowercase.
Definition normalizer_name (n : SearchNormalizer) : string :=
  match n with NormalizeRaw => "raw" | NormalizeLowercase => "lowercase" end.

(** ** Reading strings back *)

Fixpoint all_chars (P : ascii → bool) (s : string) : bool :=
  match s with EmptyString => true | String c s => P c && all_chars P s end.
(** [s] does not go on with a character of [P] *)
Definition stops (P : ascii → bool) (s : string) : bool :=
  match s with EmptyString => true | String c _ => negb (P c) end.

Lemma string_app_nil s : "" +:+ s = s.
Proof. done. Qed.
Lemma string_app_cons c a s : String c a +:+ s = String c (a +:+ s).
Proof. done. Qed.

Lemma run_split P a1 s1 a2 s2 :
  all_chars P a1 = true → all_chars P a2 = true → stops P s1 = true → stops P s2 = true →
  a1 +:+ s1 = a2 +:+ s2 → a1 = a2 ∧ s1 = s2.
Proof.
  revert a2. induction a1 as [|c1 a1 IH]; intros [|c2 a2] H1 H2 Hs1 Hs2 Heq;
    rewrite ?string_app_nil, ?string_app_cons in Heq; simpl in *.
  - done.
  - subst s1. apply andb_true_iff in H2 as [Hc _]. simpl in Hs1. by rewrite Hc in Hs1.
  - subst s2. apply andb_true_iff in H1 as [Hc _]. simpl in Hs2. by rewrite Hc in Hs2.
  - injection Heq as -> Heq. apply andb_true_iff in H1 as [_ H1], H2 as [_ H2].
    by destruct (IH a2 H1 H2 Hs1 Hs2 Heq) as [-> ->].
Qed.
Lemma all_chars_app P a b : all_chars P (a +:+ b) = all_chars P a && all_chars P b.
Proof. induction a as [|c a IH]; [done|]. rewrite string_app_cons. simpl. by rewrite IH, andb_assoc. Qed.
Lemma all_chars_impl (P Q : ascii → bool) s : (∀ c, P c = true → Q c = true) → all_chars P s = true → all_chars Q s = true.
Proof. intros HPQ. induction s as [|c s IH]; [done|]. simpl. rewrite !andb_true_iff. intros [? ?]. auto. Qed.

Definition is_digit (c : ascii) : bool :=
  bool_decide (c ∈ ["0"; "1"; "2"; "3"; "4"; "5"; "6"; "7"; "8"; "9"]%char).
Lemma pretty_char_digit x : is_digit (pretty_N_char x) = true.
Proof. unfold pretty_N_char. by repeat case_match. Qed.
Lemma pretty_go_digits x s : all_chars is_digit s = true → all_chars is_digit (pretty_N_go x s) = true.
Proof.
  revert s. induction (N.lt_wf_0 x) as [x _ IH]; intros s Hs.
  destruct (decide (x = 0)%N) as [->|Hx]; [by rewrite pretty_N_go_0|].
  rewrite pretty_N_go_step by lia. apply IH; [apply N.div_lt; lia|]. simpl. by rewrite pretty_char_digit.
Qed.
Lemma usize_digits n : all_chars is_digit (usize_to_string n) = true.
Proof. unfold usize_to_string, pretty, pretty_N. case_decide; [done|]. by apply pretty_go_digits. Qed.
Lemma usize_split n1 s1 n2 s2 :
  0 ≤ n1 → 0 ≤ n2 → stops is_digit s1 = true → stops is_digit s2 = true →
  usize_to_string n1 +:+ s1 = usize_to_string n2 +:+ s2 → n1 = n2 ∧ s1 = s2.
Proof.
  intros H1 H2 Hs1 Hs2 Heq.
  apply (run_split is_digit) in Heq as [Hn ?]; [|apply usize_digits|apply usize_digits|done|done].
  split; [|done]. unfold usize_to_string in Hn. apply (inj pretty) in Hn. lia.
Qed.

(** ** Names identify tokenizers *)

Lemma string_app_assoc (a b c : string) : (a +:+ b) +:+ c = a +:+ (b +:+ c).
Proof. induction a as [|x a IH]; [done|]. by rewrite !string_app_cons, IH. Qed.
Lemma string_app_inv_tail (a b t : string) : a +:+ t = b +:+ t → a = b.
Proof.
  assert (∀ a : string, String.length (a +:+ t) = (String.length a + String.length t)%nat) as Hlen.
  { intros s. induction s as [|x s IH]; [done|]. rewrite string_app_cons. simpl. by rewrite IH. }
  revert b. induction a as [|x a IH]; intros [|y b] Heq; rewrite ?string_app_nil, ?string_app_cons in Heq; [done| | |].
  - apply (f_equal String.length) in Heq. simpl in Heq. rewrite Hlen in Heq. lia.
  - apply (f_equal String.length) in Heq. simpl in Heq. rewrite Hlen in Heq. lia.
  - injection Heq as -> Heq. by rewrite (IH b).
Qed.

(** the bounds of [usize] on the numbers of a configuration *)
Definition is_usize (n : Z) : Prop := 0 ≤ n < 2 ^ 64.
Definition tokenizer_ok (t : SearchTokenizer) : Prop :=
  (∀ n, remove_long (tokenizer_filters t) = Some n → is_usize n) ∧
  match t with Ngram min_gram max_gram _ _ => is_usize min_gram ∧ is_usize max_gram | _ => True end.

Section names.
Context `{SerdeLanguage}.
Implicit Types (f : SearchTokenizerFilters) (t : SearchTokenizer).

(** the suffix from its third, second and first part on *)
Definition part_sep (first : bool) : string := if first then "" else ",".
Definition suffix3 (first : bool) (stem : option Language) : string :=
  match stem with
  | Some l => part_sep first +:+ "stemmer=" +:+ language_debug l +:+ "]"
  | None => "]"
  end.
Definition suffix2 (first : bool) (lower : option bool) (stem : option Language) : string :=
  match lower with
  | Some b => part_sep first +:+ "lowercase=" +:+ bool_to_string b +:+ suffix3 false stem
  | None => suffix3 first stem
  end.
Definition suffix1 (remove : option Z) (lower : option bool) (stem : option Language) : string :=
  match remove with
  | Some n => "remove_long=" +:+ usize_to_string n +:+ suffix2 false lower stem
  | None => suffix2 true lower stem
  end.

Lemma name_suffix_eq f :
  name_suffix f =
    if decide (f = filters_default) then "" else "[" +:+ suffix1 (remove_long f) (lowercase f) (stemmer f).
Proof.
  destruct f as [[n|] [b|] [l|]]; unfold name_suffix; cbn [remove_long lowercase stemmer push_part fst snd];
    case_decide as Hd; try discriminate Hd; try done; unfold suffix1, suffix2, suffix3;
    rewrite ?string_app_nil, ?string_app_assoc; done.
Qed.

Lemma suffix3_inj first stem stem' : suffix3 first stem = suffix3 first stem' → stem = stem'.
Proof.
  destruct stem as [l|], stem' as [l'|]; intros Heq; [|by destruct first|by destruct first|done].
  do 2 apply (inj (String.append _)) in Heq. apply string_app_inv_tail in Heq.
  f_equal. by apply language_debug_inj.
Qed.
Lemma suffix2_inj first lower stem lower' stem' :
  suffix2 first lower stem = suffix2 first lower' stem' → lower = lower' ∧ stem = stem'.
Proof.
  destruct lower as [b|], lower' as [b'|]; intros Heq.
  - do 2 apply (inj (String.append _)) in Heq. destruct b, b'; try discriminate Heq;
      apply (inj (String.append _)) in Heq; by apply suffix3_inj in Heq as ->.
  - destruct stem' as [l'|], first; discriminate Heq.
  - destruct stem as [l|], first; discriminate Heq.
  - by apply suffix3_inj in Heq as ->.
Qed.
Lemma suffix2_stops lower stem : stops is_digit (suffix2 false lower stem) = true.
Proof. by destruct lower, stem. Qed.
Lemma suffix1_inj n lower stem n' lower' stem' :
  (∀ k, n = Some k → is_usize k) → (∀ k, n' = Some k → is_usize k) →
  suffix1 n lower stem = suffix1 n' lower' stem' → n = n' ∧ lower = lower' ∧ stem = stem'.
Proof.
  intros Hn Hn'. destruct n as [k|], n' as [k'|]; intros Heq.
  - destruct (Hn k eq_refl), (Hn' k' eq_refl). apply (inj (String.append _)) in Heq.
    apply usize_split in Heq as [-> Heq]; [|done|done|apply suffix2_stops|apply suffix2_stops].
    by apply suffix2_inj in Heq as [-> ->].
  - destruct lower' as [b'|], stem' as [l'|]; discriminate Heq.
  - destruct lower as [b|], stem as [l|]; discriminate Heq.
  - by apply suffix2_inj in Heq as [-> ->].
Qed.
Lemma name_suffix_inj f f' :
  (∀ k, remove_long f = Some k → is_usize k) → (∀ k, remove_long f' = Some k → is_usize k) →
  name_suffix f = name_suffix f' → f = f'.
Proof.
  intros Hf Hf'. rewrite !name_suffix_eq. do 2 case_decide; try congruence; intros Heq; try discriminate Heq.
  apply (inj (String.append _)) in Heq. apply suffix1_inj in Heq as (? & ? & ?); [|done|done].
  destruct f, f'. simpl in *. by subst.
Qed.

(** what comes before the filters *)
Definition name_prefix t : string :=
  match t with
  | Default _ => "default" | Raw _ => "raw" | EnStem _ => "en_stem"
  | Stem language _ => "stem_" +:+ language_to_str language
  | Lowercase _ => "lowercase" | WhiteSpace _ => "whitespace" | RegexTokenizer _ _ => "regex"
  | ChineseCompatible _ => "chinese_compatible" | SourceCode _ => "source_code"
  | Ngram min_gram max_gram prefix_only _ =>
      "ngram_mingram:" +:+ usize_to_string min_gram +:+ "_maxgram:" +:+ usize_to_string max_gram +:+
      "_prefixonly:" +:+ bool_to_string prefix_only
  | ChineseLindera _ => "chinese_lindera" | JapaneseLindera _ => "japanese_lindera"
  | KoreanLindera _ => "korean_lindera" | ICUTokenizer _ => "icu"
  end.
Lemma tokenizer_name_eq t : tokenizer_name t = name_prefix t +:+ name_suffix (tokenizer_filters t).
Proof. destruct t; cbn [tokenizer_name name_prefix tokenizer_filters]; rewrite ?string_app_assoc; done. Qed.

Definition not_bracket (c : ascii) : bool := negb (bool_decide (c = "["%char)).
Lemma digits_no_bracket s : all_chars is_digit s = true → all_chars not_bracket s = true.
Proof.
  apply all_chars_impl. intros c. unfold not_bracket. case_bool_decide as Hc; [|done]. by subst c.
Qed.
Lemma name_prefix_plain t : all_chars not_bracket (name_prefix t) = true.
Proof.
  destruct t as [| | |l| | | | | |a b p| | | |]; try done; [by destruct l|].
  cbn [name_prefix]. rewrite !all_chars_app, !(digits_no_bracket (usize_to_string _)) by apply usize_digits.
  by destruct p.
Qed.
Lemma name_suffix_stops f : stops not_bracket (name_suffix f) = true.
Proof. rewrite name_suffix_eq. by case_decide. Qed.

Lemma language_to_str_inj l l' : language_to_str l = language_to_str l' → l = l'.
Proof. destruct l, l'; done. Qed.

(** a prefix identifies the tokenizer but for the pattern of a regex *)
Definition same_but_pattern t t' : Prop :=
  t = t' ∨ ∃ p p' f, t = RegexTokenizer p f ∧ t' = RegexTokenizer p' f.

Lemma name_prefix_inj t t' :
  tokenizer_ok t → tokenizer_ok t' → name_prefix t = name_prefix t' →
  tokenizer_filters t = tokenizer_filters t' → same_but_pattern t t'.
Proof.
  intros [_ Ht] [_ Ht'] Heq Hf.
  destruct t as [| | |l| | |p| | |a b p| | | |], t' as [| | |l'| | |p'| | |a' b' p'| | | |];
    simpl in Hf; subst; try discriminate Heq; try by left.
  - apply (inj (String.append "stem_")), language_to_str_inj in Heq as ->. by left.
  - right. by eexists _, _, _.
  - left. destruct Ht as [[? _] [? _]], Ht' as [[? _] [? _]].
    apply (inj (String.append "ngram_mingram:")) in Heq. apply usize_split in Heq as [-> Heq]; [|done..].
    apply (inj (String.append "_maxgram:")) in Heq. apply usize_split in Heq as [-> Heq]; [|done..].
    by destruct p, p'.
Qed.
Lemma tokenizer_name_inj t t' :
  tokenizer_ok t → tokenizer_ok t' → tokenizer_name t = tokenizer_name t' → same_but_pattern t t'.
Proof.
  intros Ht Ht' Heq. rewrite !tokenizer_name_eq in Heq.
  apply (run_split not_bracket) in Heq as [Hp Hs];
    [|apply name_prefix_plain|apply name_prefix_plain|apply name_suffix_stops|apply name_suffix_stops].
  apply name_prefix_inj; [done|done|done|]. apply name_suffix_inj; [apply Ht|apply Ht'|done].
Qed.
End names.

(** ** The JSON form *)

Definition without_stemmer (f : SearchTokenizerFilters) : SearchTokenizerFilters :=
  {| remove_long := remove_long f; lowercase := lowercase f; stemmer := None |}.
Definition map_filters (g : SearchTokenizerFilters → SearchTokenizerFilters) (t : SearchTokenizer) : SearchTokenizer :=
  match t with
  | Default f => Default (g f) | Raw f => Raw (g f) | EnStem f => EnStem (g f)
  | Stem l f => Stem l (g f) | Lowercase f => Lowercase (g f) | WhiteSpace f => WhiteSpace (g f)
  | RegexTokenizer p f => RegexTokenizer p (g f) | ChineseCompatible f => ChineseCompatible (g f)
  | SourceCode f => SourceCode (g f) | Ngram a b p f => Ngram a b p (g f)
  | ChineseLindera f => ChineseLindera (g f) | JapaneseLindera f => JapaneseLindera (g f)
  | KoreanLindera f => KoreanLindera (g f) | ICUTokenizer f => ICUTokenizer (g f)
  end.

Section json.
Context `{SerdeLanguage}.

Lemma assoc_lookup_insert {A} key (v : A) l key' :
  assoc_lookup key' (assoc_insert key v l) = if decide (key' = key) then Some v else assoc_lookup key' l.
Proof.
  unfold assoc_insert. cbn [assoc_lookup]. destruct (decide (key' = key)) as [|Hne]; [done|].
  induction l as [|[k w] l IH]; [done|]. destruct (decide (k = key)) as [->|Hk].
  - rewrite filter_cons_False by (simpl; tauto). simpl. by rewrite decide_False by done.
  - rewrite filter_cons_True by done. simpl. by rewrite IH.
Qed.

(** what is read at a key of the JSON of a tokenizer *)
Lemma json_get_filters f l key :
  json_get (JObject (filters_to_json_value f l)) key =
    if decide (key = "lowercase") then
      match lowercase f with Some b => Some (JBool b) | None => assoc_lookup key l end
    else if decide (key = "remove_long") then
      match remove_long f with Some n => Some (JInteger n) | None => assoc_lookup key l end
    else assoc_lookup key l.
Proof.
  unfold filters_to_json_value. cbn [json_get].
  destruct (lowercase f) as [b|], (remove_long f) as [n|]; rewrite ?assoc_lookup_insert;
    repeat (case_decide; simplify_eq); done.
Qed.

Lemma u64_of_usize n : is_usize n → json_as_u64 (JInteger n) = Some n.
Proof. intros [? ?]. cbn [json_as_u64]. by rewrite (proj2 (Z.leb_le _ _)), (proj2 (Z.ltb_lt _ _)). Qed.

Lemma filters_json_roundtrip f l :
  (∀ n, remove_long f = Some n → is_usize n) →
  assoc_lookup "remove_long" l = None → assoc_lookup "lowercase" l = None → assoc_lookup "stemmer" l = None →
  filters_from_json_value (JObject (filters_to_json_value f l)) = Ok (without_stemmer f).
Proof.
  intros Hn Hr Hl Hs. unfold filters_from_json_value, get_field. rewrite !json_get_filters.
  repeat (first [rewrite decide_True by done | rewrite decide_False by done]). rewrite Hr, Hl, Hs.
  unfold without_stemmer. destruct (remove_long f) as [n|]; [rewrite u64_of_usize by auto|];
    destruct (lowercase f) as [b|]; done.
Qed.

#[local] Arguments json_as_u64 : simpl never.

(** The JSON form of a tokenizer is always accepted back, and gives the same
    tokenizer without its stemmer: to_json_value leaves the stemmer out, so the round
    trip is exact only for configurations that have none. *)
Theorem tokenizer_json_roundtrip (t : SearchTokenizer) :
  tokenizer_ok t →
  tokenizer_from_json_value (tokenizer_to_json_value t) = Ok (map_filters without_stemmer t) ∧
  (tokenizer_from_json_value (tokenizer_to_json_value t) = Ok t ↔ stemmer (tokenizer_filters t) = None).
Proof.
  intros Hok.
  assert (tokenizer_from_json_value (tokenizer_to_json_value t) = Ok (map_filters without_stemmer t)) as Hrt.
  { destruct Hok as [Hn Ht]. unfold tokenizer_from_json_value, tokenizer_to_json_value, json_index.
    rewrite !json_get_filters, filters_json_roundtrip by (try done; by destruct t).
    rewrite !decide_False by done.
    destruct t as [f|f|f|l f|f|f|p f|f|f|a b p f|f|f|f|f]; try reflexivity.
    - simpl. by rewrite language_json_roundtrip.
    - destruct Ht as [Ha Hb]. simpl. by rewrite !u64_of_usize. }
  split; [done|]. rewrite Hrt. split.
  - intros [= Heq]. apply (f_equal tokenizer_filters) in Heq.
    assert (tokenizer_filters (map_filters without_stemmer t) = without_stemmer (tokenizer_filters t)) as Hw by by destruct t.
    rewrite Hw in Heq. by rewrite <- Heq.
  - intros Hs. f_equal. destruct t as [f|f|f|l f|f|f|p f|f|f|a b p f|f|f|f|f]; simpl in *; f_equal;
      destruct f; simpl in *; by subst.
Qed.
End json.

(** ** The manager *)

Section manager.
Context `{TantivyTokenizers} `{SerdeLanguage}.

Lemma register_tokenizers_spec ts m m' name :
  register_tokenizers ts m = Ok m' →
  m' !! name = m !! name ∨
  ∃ t a, t ∈ ts ∧ tokenizer_name t = name ∧ to_tantivy_tokenizer t = Ok (Some a) ∧ m' !! name = Some a.
Proof.
  revert m. induction ts as [|t ts IH]; intros m; cbn [register_tokenizers]; [intros [= ->]; by left|].
  destruct (to_tantivy_tokenizer t) as [o| | |] eqn:Ht; cbn [mbind outcome_bind]; [|done..].
  intros Hrun. apply IH in Hrun as [Heq|(t' & a & Hin & Hname & Ha & Hm)].
  - rewrite Heq. destruct o as [a|]; [|by left]. destruct (decide (tokenizer_name t = name)) as [<-|Hne].
    + right. exists t, a. rewrite lookup_insert_eq. split; [left|done].
    + left. by apply lookup_insert_ne.
  - right. exists t', a. split; [by right|done].
Qed.
Lemma to_tantivy_some t o : to_tantivy_tokenizer t = Ok o → is_Some o.
Proof.
  destruct t; cbn [to_tantivy_tokenizer]; try (intros [= <-]; done);
    (destruct (_ : bool); [by intros [= <-]|done]).
Qed.
Lemma register_tokenizers_registers ts m m' t :
  register_tokenizers ts m = Ok m' → t ∈ ts →
  ∃ t' a, t' ∈ ts ∧ tokenizer_name t' = tokenizer_name t ∧ to_tantivy_tokenizer t' = Ok (Some a) ∧
    m' !! tokenizer_name t = Some a.
Proof.
  revert m. induction ts as [|t0 ts IH]; intros m Hrun Hin; [by apply not_elem_of_nil in Hin|].
  cbn [register_tokenizers] in Hrun.
  destruct (to_tantivy_tokenizer t0) as [o| | |] eqn:Ht; cbn [mbind outcome_bind] in Hrun; [|done..].
  apply elem_of_cons in Hin as [->|Hin].
  - destruct (register_tokenizers_spec _ _ _ (tokenizer_name t0) Hrun) as [Heq|(t' & a & Hin & Hrest)].
    + destruct (to_tantivy_some _ _ Ht) as [a ->]. exists t0, a. rewrite Heq, lookup_insert_eq. split; [left|done].
    + exists t', a. split; [by right|done].
  - destruct (IH _ Hrun Hin) as (t' & a & Hin' & Hrest). exists t', a. split; [by right|done].
Qed.
End manager.

(** Tokenizer names identify tokenizers: a field finds, under the name of its
    tokenizer, the analyzer of that very tokenizer, whatever else is registered, unless
    another regex tokenizer with the same filters and a different pattern is registered
    too, whose name is the same. *)
Theorem tokenizer_manager_finds `{TantivyTokenizers} `{SerdeLanguage} (ts : list SearchTokenizer)
    (m : gmap string TextAnalyzer) (t : SearchTokenizer) :
  Forall tokenizer_ok ts → create_tokenizer_manager ts = Ok m → t ∈ ts →
  ∃ t' a, t' ∈ ts ∧ to_tantivy_tokenizer t' = Ok (Some a) ∧ m !! tokenizer_name t = Some a ∧
    (t' = t ∨ ∃ p p' f, t = RegexTokenizer p f ∧ t' = RegexTokenizer p' f ∧ p ≠ p').
Proof.
  intros Hok Hrun Hin. rewrite Forall_forall in Hok.
  destruct (register_tokenizers_registers ts _ m t Hrun Hin) as (t' & a & Hin' & Hname & Ha & Hm).
  exists t', a. split; [done|]. split; [done|]. split; [done|].
  destruct (tokenizer_name_inj t t') as [->|(p & p' & f & -> & ->)]; [by apply Hok|by apply Hok|done|by left|].
  destruct (decide (p = p')) as [->|Hne]; [by left|]. right. by eexists _, _, _.
Qed.

(** Two regex tokenizers with the same filters share a name: both fields get the
    analyzer of the second. *)
Theorem regex_patterns_collide `{TantivyTokenizers} `{SerdeLanguage} (p p' : string) (f : SearchTokenizerFilters) :
  regex_new p = true → regex_new p' = true →
  tokenizer_name (RegexTokenizer p f) = tokenizer_name (RegexTokenizer p' f) ∧
  ∃ m, create_tokenizer_manager [RegexTokenizer p f; RegexTokenizer p' f] = Ok m ∧
    m !! tokenizer_name (RegexTokenizer p f) =
      Some {| analyzer_base := RegexBase p'; analyzer_filters := usual_filters f |}.
Proof.
  intros Hp Hp'. split; [done|]. eexists. split.
  - unfold create_tokenizer_manager. cbn [register_tokenizers to_tantivy_tokenizer]. rewrite Hp, Hp'. done.
  - apply lookup_insert_eq.
Qed.
