(* ===== verification/Schema.v ===== *)
(** * Schema: the fields of an index

    [schema/mod.rs] and [schema/document.rs]: the type a Postgres column gets in the
    index, the configuration of a field and its JSON form, the Tantivy options it
    becomes, and [SearchIndexSchema], the fields of an index with the Tantivy schema
    that holds them.  Tantivy's schema builder is the class [TantivySchema]; the options
    it is given are records of the setters the code calls. *)

From S2P Require Import Prelude PgUtils TokenizerConfig Query.

Open Scope Z_scope.

(** ** Types of fields *)

(** [pg_sys::type_is_enum], and [PgOid::from(pg_sys::get_element_type(oid))], which is
    [PgInvalid] unless the type is an array *)
Class PgTypes := {
  type_is_enum : Z → bool;
  get_element_type : PgOid → PgOid
}.

Inductive SearchFieldType := SText | SI64 | SF64 | SU64 | SBool | SJson | SDate | SRange.
#[global] Instance SearchFieldType_eq_dec : EqDecision SearchFieldType.
Proof. solve_decision. Defined.

Definition search_field_type `{PgTypes} (pg_oid : PgOid) : outcome SearchFieldType :=
  match pg_oid with
  | PgBuiltIn builtin =>
      match builtin with
      | TEXTOID | VARCHAROID | UUIDOID => Ok SText
      | INT2OID | INT4OID | INT8OID => Ok SI64
      | OIDOID | XIDOID => Ok SU64
      | FLOAT4OID | FLOAT8OID | NUMERICOID => Ok SF64
      | BOOLOID => Ok SBool
      | JSONOID | JSONBOID => Ok SJson
      | INT4RANGEOID | INT8RANGEOID | NUMRANGEOID | DATERANGEOID | TSRANGEOID | TSTZRANGEOID => Ok SRange
      | DATEOID | TIMESTAMPOID | TIMESTAMPTZOID | TIMEOID | TIMETZOID => Ok SDate
      | _ => Err "invalid postgres oid passed to search index schema"
      end
  | PgCustom custom =>
      if type_is_enum custom then Ok SF64
      else Err "invalid postgres oid passed to search index schema"
  | PgInvalid => Err "invalid postgres oid passed to search index schema"
  end.

(** ** Configurations *)

Inductive IndexRecordOption := Basic | WithFreqs | WithFreqsAndPositions.
#[global] Instance IndexRecordOption_eq_dec : EqDecision IndexRecordOption.
Proof. solve_decision. Defined.
Definition record_to_string (r : IndexRecordOption) : string :=
  match r with Basic => "basic" | WithFreqs => "freq" | WithFreqsAndPositions => "position" end.

#[global] Instance SearchNormalizer_eq_dec : EqDecision SearchNormalizer.
Proof. solve_decision. Defined.

Inductive SearchFieldConfig :=
  | TextConfig (indexed fast stored fieldnorms : bool) (tokenizer : SearchTokenizer)
      (record : IndexRecordOption) (normalizer : SearchNormalizer) (column : option string)
  | JsonConfig (indexed fast stored fieldnorms expand_dots : bool) (tokenizer : SearchTokenizer)
      (record : IndexRecordOption) (normalizer : SearchNormalizer) (column : option string)
  | RangeConfig (stored : bool) (column : option string)
  | NumericConfig (indexed fast stored : bool) (column : option string)
  | BooleanConfig (indexed fast stored : bool) (column : option string)
  | DateConfig (indexed fast stored : bool) (column : option string).
#[global] Instance SearchFieldConfig_eq_dec : EqDecision SearchFieldConfig.
Proof. solve_decision. Defined.

Definition column (config : SearchFieldConfig) : option string :=
  match config with
  | TextConfig _ _ _ _ _ _ _ column | JsonConfig _ _ _ _ _ _ _ _ column | RangeConfig _ column
  | NumericConfig _ _ _ column | BooleanConfig _ _ _ column | DateConfig _ _ _ column => column
  end.

Definition default_as_true : bool := true.
Definition default_as_false : bool := true.
Definition default_as_freqs_and_positions : IndexRecordOption := WithFreqsAndPositions.

Definition tokenizer_default : SearchTokenizer := Default filters_default.

(** [SearchFieldConfig::from_json(json!({"Text": {}}))] and the others: every key gets
    its [#[serde(default)]] *)
Definition default_text : SearchFieldConfig :=
  TextConfig default_as_true false default_as_false default_as_true tokenizer_default
    default_as_freqs_and_positions NormalizeRaw None.
Definition default_json : SearchFieldConfig :=
  JsonConfig default_as_true false default_as_false default_as_true default_as_true tokenizer_default
    default_as_freqs_and_positions NormalizeRaw None.
Definition default_numeric : SearchFieldConfig :=
  NumericConfig default_as_true default_as_true default_as_false None.
Definition default_boolean : SearchFieldConfig :=
  BooleanConfig default_as_true default_as_true default_as_false None.
Definition default_date : SearchFieldConfig :=
  DateConfig default_as_true default_as_true default_as_false None.

(** *** From JSON *)

Definition json_as_object (value : Json) : option (list (string * Json)) :=
  match value with JObject l => Some l | _ => None end.

(** the [Deserialize] of Tantivy's [IndexRecordOption] *)
Class SerdeRecord := { record_from_json : Json → option IndexRecordOption }.

(** the derived [Deserialize] of [SearchNormalizer]: a unit variant is its name, or an
    object with that one key *)
Definition normalizer_from_json (value : Json) : option SearchNormalizer :=
  match value with
  | JString s | JObject [(s, JNull)] =>
      if String.eqb s "raw" then Some NormalizeRaw
      else if String.eqb s "lowercase" then Some NormalizeLowercase
      else None
  | _ => None
  end.

(** [match obj.get(key) { Some(v) => f(v), None => Ok(default) }?] *)
Definition get_or {A} (obj : list (string * Json)) (key : string) (f : Json → outcome A) (dflt : A)
    : outcome A :=
  match assoc_lookup key obj with Some v => f v | None => Ok dflt end.
Definition bool_or (obj : list (string * Json)) (key : string) (dflt : bool) : outcome bool :=
  get_or obj key (λ v, ok_or (json_as_bool v) ("'" +:+ key +:+ "' field should be a boolean")%string) dflt.
Definition column_or_none (obj : list (string * Json)) : outcome (option string) :=
  get_or obj "column" (λ v, s ← ok_or (json_as_str v) "'column' field should be a string"; Ok (Some s)) None.

Section from_json.
Context `{SerdeLanguage} `{SerdeRecord}.

Definition text_from_json (value : Json) : outcome SearchFieldConfig :=
  obj ← ok_or (json_as_object value) "Expected a JSON object for Text configuration";
  indexed ← bool_or obj "indexed" true;
  fast ← bool_or obj "fast" false;
  stored ← bool_or obj "stored" false;
  fieldnorms ← bool_or obj "fieldnorms" true;
  tokenizer ← get_or obj "tokenizer" tokenizer_from_json_value tokenizer_default;
  record ← get_or obj "record" (λ v, ok_or (record_from_json v) "serde_json") default_as_freqs_and_positions;
  normalizer ← get_or obj "normalizer" (λ v, ok_or (normalizer_from_json v) "serde_json") NormalizeRaw;
  column ← column_or_none obj;
  Ok (TextConfig indexed fast stored fieldnorms tokenizer record normalizer column).

Definition json_from_json (value : Json) : outcome SearchFieldConfig :=
  obj ← ok_or (json_as_object value) "Expected a JSON object for Json configuration";
  indexed ← bool_or obj "indexed" true;
  fast ← bool_or obj "fast" false;
  stored ← bool_or obj "stored" false;
  expand_dots ← bool_or obj "expand_dots" true;
  tokenizer ← get_or obj "tokenizer" tokenizer_from_json_value tokenizer_default;
  record ← get_or obj "record" (λ v, ok_or (record_from_json v) "serde_json") default_as_freqs_and_positions;
  normalizer ← get_or obj "normalizer" (λ v, ok_or (normalizer_from_json v) "serde_json") NormalizeRaw;
  fieldnorms ← bool_or obj "fieldnorms" true;
  column ← column_or_none obj;
  Ok (JsonConfig indexed fast stored fieldnorms expand_dots tokenizer record normalizer column).

Definition range_from_json (value : Json) : outcome SearchFieldConfig :=
  obj ← ok_or (json_as_object value) "Expected a JSON object for Json configuration";
  stored ← bool_or obj "stored" false;
  column ← column_or_none obj;
  Ok (RangeConfig stored column).

Definition numeric_from_json (value : Json) : outcome SearchFieldConfig :=
  obj ← ok_or (json_as_object value) "Expected a JSON object for Numeric configuration";
  indexed ← bool_or obj "indexed" true;
  fast ← bool_or obj "fast" true;
  stored ← bool_or obj "stored" false;
  column ← column_or_none obj;
  Ok (NumericConfig indexed fast stored column).

Definition boolean_from_json (value : Json) : outcome SearchFieldConfig :=
  obj ← ok_or (json_as_object value) "Expected a JSON object for Boolean configuration";
  indexed ← bool_or obj "indexed" true;
  fast ← bool_or obj "fast" true;
  stored ← bool_or obj "stored" false;
  column ← column_or_none obj;
  Ok (BooleanConfig indexed fast stored column).

Definition date_from_json (value : Json) : outcome SearchFieldConfig :=
  obj ← ok_or (json_as_object value) "Expected a JSON object for Date configuration";
  indexed ← bool_or obj "indexed" true;
  fast ← bool_or obj "fast" true;
  stored ← bool_or obj "stored" false;
  column ← column_or_none obj;
  Ok (DateConfig indexed fast stored column).
End from_json.

(** ** Tantivy's options *)

(** [TextFieldIndexing::default()] with the setters called on it; [None] is not set *)
Record TextFieldIndexing := {
  set_index_option : option IndexRecordOption;
  set_fieldnorms : option bool;
  set_tokenizer : option string
}.
Definition text_field_indexing_default : TextFieldIndexing :=
  {| set_index_option := None; set_fieldnorms := None; set_tokenizer := None |}.

(** [TextOptions], [JsonObjectOptions], [NumericOptions] and [DateOptions] of the
    setters called on the default *)
Record TextOptions := {
  text_stored : bool; text_fast : option string; text_indexing : option TextFieldIndexing
}.
Record JsonObjectOptions := {
  json_stored : bool; json_fast : option string; json_expand_dots : bool;
  json_indexing : option TextFieldIndexing
}.
Record NumericOptions := { num_stored : bool; num_fast : bool; num_indexed : bool }.
Record DateOptions := { date_stored : bool; date_fast : bool; date_indexed : bool }.

Section options.
Context `{SerdeLanguage}.

Definition field_indexing (record : IndexRecordOption) (fieldnorms : bool) (tokenizer : SearchTokenizer)
    : TextFieldIndexing :=
  {| set_index_option := Some record; set_fieldnorms := Some fieldnorms;
     set_tokenizer := Some (tokenizer_name tokenizer) |}.

Definition text_options (config : SearchFieldConfig) : outcome TextOptions :=
  match config with
  | TextConfig indexed fast stored fieldnorms tokenizer record normalizer _ =>
      Ok {| text_stored := stored;
            text_fast := if fast then Some (normalizer_name normalizer) else None;
            text_indexing := if indexed then Some (field_indexing record fieldnorms tokenizer) else None |}
  | _ => Panic "attempted to convert non-text search field config to tantivy text config"
  end.

Definition numeric_options (config : SearchFieldConfig) : outcome NumericOptions :=
  match config with
  | NumericConfig indexed fast stored _ | BooleanConfig indexed fast stored _ =>
      Ok {| num_stored := stored; num_fast := fast; num_indexed := indexed |}
  | _ => Panic "attempted to convert non-numeric search field config to tantivy numeric config"
  end.

Definition json_options (config : SearchFieldConfig) : outcome JsonObjectOptions :=
  match config with
  | JsonConfig indexed fast stored fieldnorms expand_dots tokenizer record normalizer _ =>
      Ok {| json_stored := stored;
            json_fast := if fast then Some (normalizer_name normalizer) else None;
            json_expand_dots := expand_dots;
            json_indexing := if indexed then Some (field_indexing record fieldnorms tokenizer) else None |}
  | RangeConfig stored _ =>
      Ok {| json_stored := stored; json_fast := Some "raw"; json_expand_dots := false;
            json_indexing := Some text_field_indexing_default |}
  | _ => Panic "attempted to convert non-json search field config to tantivy json config"
  end.

Definition date_options (config : SearchFieldConfig) : outcome DateOptions :=
  match config with
  | DateConfig indexed fast stored _ =>
      Ok {| date_stored := stored; date_fast := fast; date_indexed := indexed |}
  | _ => Panic "attempted to convert non-date search field config to tantivy date config"
  end.
End options.

(** the calls [add_text_field], ... of the builder *)
Inductive FieldOptions :=
  | AddText (options : TextOptions)
  | AddI64 (options : NumericOptions)
  | AddU64 (options : NumericOptions)
  | AddF64 (options : NumericOptions)
  | AddBool (options : NumericOptions)
  | AddJson (options : JsonObjectOptions)
  | AddDate (options : DateOptions).

(** [FieldEntry::field_type] *)
Definition entry_type (o : FieldOptions) : FieldType :=
  match o with
  | AddText _ => FStr | AddI64 _ => FI64 | AddU64 _ => FU64 | AddF64 _ => FF64 | AddBool _ => FBool
  | AddJson o => FJsonObject (json_expand_dots o) | AddDate _ => FDate
  end.

(** [tantivy::schema::Schema] and its builder: fields are numbered as they are added,
    and a name can be added once *)
Class TantivySchema := {
  Schema : Type;
  SchemaBuilder : Type;
  schema_builder : SchemaBuilder;
  builder_fields : SchemaBuilder → list (string * FieldOptions);
  add_field : SchemaBuilder → string → FieldOptions → outcome (Field * SchemaBuilder);
  schema_build : SchemaBuilder → Schema;
  schema_entries : Schema → list (string * FieldOptions);
  builder_new : builder_fields schema_builder = [];
  add_field_fresh b name o :
    name ∉ (builder_fields b).*1 →
    ∃ b', add_field b name o = Ok (zlen (builder_fields b), b') ∧
          builder_fields b' = builder_fields b ++ [(name, o)];
  add_field_again b name o :
    name ∈ (builder_fields b).*1 → add_field b name o = Panic "Field already exists in schema";
  build_entries b : schema_entries (schema_build b) = builder_fields b
}.

Fixpoint position_of {A} (P : A → bool) (l : list A) : option Z :=
  match l with
  | [] => None
  | x :: l => if P x then Some 0 else Z.succ <$> position_of P l
  end.

Section tantivy.
Context `{TantivySchema}.
(** [Schema::get_field]; [unwrap] panics where it is [None] *)
Definition schema_get_field (s : Schema) (name : string) : option Field :=
  position_of (λ e, String.eqb e.1 name) (schema_entries s).
(** [schema.get_field_entry(field).field_type()] *)
Definition field_entry_type (s : Schema) (field : Field) : outcome FieldType :=
  e ← index (schema_entries s) field; Ok (entry_type e.2).
End tantivy.

(** ** The schema of an index *)

Record SearchField := {
  sf_id : Field;
  sf_name : string;
  sf_config : SearchFieldConfig;
  sf_type : SearchFieldType
}.

Record SearchIndexSchema `{TantivySchema} := {
  sis_fields : list SearchField;
  sis_key : Z;
  sis_schema : Schema;
  sis_lookup : option (gmap string Z)
}.

Notation FieldSpec := (string * SearchFieldConfig * SearchFieldType)%type.

(** [lookup.insert(name, idx)] in the order of the fields *)
Definition build_lookup (search_fields : list SearchField) : gmap string Z :=
  foldl (λ lookup '(idx, search_field), <[sf_name search_field := idx]> lookup) ∅
    (zip (Z.of_nat <$> seq 0 (length search_fields)) search_fields).

Section schema.
Context `{SerdeLanguage} `{TantivySchema}.

Definition field_options (config : SearchFieldConfig) (field_type : SearchFieldType) : outcome FieldOptions :=
  match field_type with
  | SText => o ← text_options config; Ok (AddText o)
  | SI64 => o ← numeric_options config; Ok (AddI64 o)
  | SU64 => o ← numeric_options config; Ok (AddU64 o)
  | SF64 => o ← numeric_options config; Ok (AddF64 o)
  | SBool => o ← numeric_options config; Ok (AddBool o)
  | SJson => o ← json_options config; Ok (AddJson o)
  | SRange => o ← json_options config; Ok (AddJson o)
  | SDate => o ← date_options config; Ok (AddDate o)
  end.

(** the loop of [SearchIndexSchema::new] *)
Fixpoint add_fields (fields : list FieldSpec) (builder : SchemaBuilder) (search_fields : list SearchField)
    : outcome (SchemaBuilder * list SearchField) :=
  match fields with
  | [] => Ok (builder, search_fields)
  | (name, config, field_type) :: fields =>
      o ← field_options config field_type;
      '(id, builder) ← add_field builder name o;
      add_fields fields builder
        (search_fields ++ [{| sf_id := id; sf_name := name; sf_config := config; sf_type := field_type |}])
  end.

Definition ctid_options : FieldOptions := AddU64 {| num_stored := false; num_fast := true; num_indexed := true |}.

Definition schema_new (fields : list FieldSpec) (key_index : Z) : outcome SearchIndexSchema :=
  '(builder, search_fields) ← add_fields fields schema_builder [];
  '(_, builder) ← add_field builder "ctid" ctid_options;
  Ok {| sis_key := key_index; sis_schema := schema_build builder;
        sis_lookup := Some (build_lookup search_fields); sis_fields := search_fields |}.

(** the closure of [SearchIndexSchema::open], and its [map] *)
Definition open_field (schema : Schema) (spec : FieldSpec) : outcome SearchField :=
  let '(field_name, field_config, field_type) := spec in
  match schema_get_field schema field_name with
  | Some field => Ok {| sf_id := field; sf_name := field_name; sf_config := field_config; sf_type := field_type |}
  | None => Panic "called `Result::unwrap()` on an `Err` value"
  end.
Definition schema_open (schema : Schema) (fields_of_index : outcome (list FieldSpec * Z))
    : outcome SearchIndexSchema :=
  '(fields, key_index) ← fields_of_index;
  search_fields ← traverse_ok (open_field schema) fields;
  Ok {| sis_key := key_index; sis_schema := schema; sis_lookup := Some (build_lookup search_fields);
        sis_fields := search_fields |}.

Implicit Types (s : SearchIndexSchema).

Definition schema_key_field s : outcome SearchField :=
  match znth (sis_fields s) (sis_key s) with
  | Some f => Ok f
  | None => Panic "key field should be present on search schema"
  end.
Definition is_key_field s (name : string) : outcome bool :=
  f ← schema_key_field s; Ok (String.eqb (sf_name f) name).

Definition get_search_field s (name : string) : option SearchField :=
  match sis_lookup s with
  | Some lookup => lookup !! name ≫= λ idx, znth (sis_fields s) idx
  | None => build_lookup (sis_fields s) !! name ≫= λ idx, znth (sis_fields s) idx
  end.

Definition is_field_sortable s (name : string) (desired_normalizer : SearchNormalizer) : option unit :=
  search_field ← get_search_field s name;
  match sf_config search_field with
  | TextConfig _ true _ _ _ _ normalizer _ =>
      if decide (normalizer = desired_normalizer) then Some tt else None
  | NumericConfig _ true _ _ => Some tt
  | BooleanConfig _ true _ _ => Some tt
  | DateConfig _ true _ _ => Some tt
  | _ => None
  end.
Definition is_field_raw_sortable s (name : string) : bool :=
  match is_field_sortable s name NormalizeRaw with Some _ => true | None => false end.
Definition is_field_lower_sortable s (name : string) : bool :=
  match is_field_sortable s name NormalizeLowercase with Some _ => true | None => false end.
Definition is_fast_field s (name : string) : bool := is_field_raw_sortable s name.
Definition is_numeric_fast_field s (name : string) : bool :=
  match get_search_field s name with
  | Some search_field =>
      match sf_config search_field with
      | NumericConfig _ true _ _ | BooleanConfig _ true _ _ | DateConfig _ true _ _ => true
      | _ => false
      end
  | None => false
  end.

(** [lookup.entry(column).or_insert_with(Vec::new).push(field)] *)
Definition alias_lookup s : gmap string (list SearchField) :=
  foldl (λ lookup field,
    match column (sf_config field) with
    | Some c => <[c := default [] (lookup !! c) ++ [field]]> lookup
    | None => lookup
    end) ∅ (sis_fields s).

(** ** The fields of queries *)

(** [index_relation.tuple_desc()]: the names and types of the attributes *)
Notation TupleDesc := (list (string * PgOid)).

(** [impl AsTypeOid for (&PgRelation, &SearchIndexSchema)] *)
Fixpoint attribute_typeoid (tupdesc : TupleDesc) (search_field : SearchField) : outcome PgOid :=
  match tupdesc with
  | [] => Panic "search field not found in index"
  | (attname, typeoid) :: tupdesc =>
      if String.eqb (sf_name search_field) attname then Ok typeoid
      else if bool_decide (column (sf_config search_field) = Some attname) then Ok typeoid
      else attribute_typeoid tupdesc search_field
  end.
Definition typeoid (tupdesc : TupleDesc) (search_field : SearchField) : outcome PgOid :=
  if String.eqb (sf_name search_field) "ctid" then Ok (PgBuiltIn TIDOID)
  else attribute_typeoid tupdesc search_field.

(** [impl AsTypeOid for HashMap<String, PgOid>] *)
Definition map_typeoid (lookup : gmap string PgOid) (search_field : SearchField) : outcome PgOid :=
  if String.eqb (sf_name search_field) "ctid" then Ok (PgBuiltIn TIDOID)
  else match lookup !! sf_name search_field with
       | Some oid => Ok oid
       | None => Panic "search field not found in index"
       end.

(** [impl AsFieldType<String> for (&PgRelation, &SearchIndexSchema)] *)
Definition field_type_of s (oid : SearchField → outcome PgOid) (search_field : SearchField)
    : outcome (FieldType * PgOid * Field) :=
  field_type ← field_entry_type (sis_schema s) (sf_id search_field);
  oid ← oid search_field;
  Ok (field_type, oid, sf_id search_field).
Definition schema_as_key_field s (tupdesc : TupleDesc) : outcome (FieldType * PgOid * Field) :=
  search_field ← schema_key_field s;
  field_type_of s (typeoid tupdesc) search_field.
Definition schema_as_fields s (tupdesc : TupleDesc) : outcome (list (FieldType * PgOid * Field)) :=
  let typeoid_lookup : gmap string PgOid := foldl (λ m '(name, oid), <[name := oid]> m) ∅ tupdesc in
  traverse_ok (field_type_of s (map_typeoid typeoid_lookup)) (sis_fields s).
Definition schema_as_field_type s (tupdesc : TupleDesc) (from : string)
    : outcome (option (FieldType * PgOid * Field)) :=
  match get_search_field s from with
  | Some search_field => f ← field_type_of s (typeoid tupdesc) search_field; Ok (Some f)
  | None => Ok None
  end.
End schema.

(** ** Lemmas *)

Section lookup.
Implicit Types (l : list SearchField) (f : SearchField).

Lemma build_lookup_snoc l f :
  build_lookup (l ++ [f]) = <[sf_name f := zlen l]> (build_lookup l).
Proof.
  unfold build_lookup. rewrite length_app, seq_app, fmap_app, zip_with_app by (by rewrite length_fmap, length_seq).
  by rewrite foldl_app.
Qed.
Lemma build_lookup_none l name : name ∉ sf_name <$> l → build_lookup l !! name = None.
Proof.
  induction l as [|f l IH] using rev_ind; [done|]. rewrite build_lookup_snoc, fmap_app, elem_of_app.
  intros Hn. rewrite lookup_insert_ne; [apply IH; tauto|]. intros <-. apply Hn. right. by left.
Qed.
Lemma build_lookup_some l name i :
  build_lookup l !! name = Some i → ∃ f, znth l i = Some f ∧ sf_name f = name.
Proof.
  induction l as [|f l IH] using rev_ind; [done|]. rewrite build_lookup_snoc. intros [[<- <-]|[Hne Hl]]%lookup_insert_Some.
  - exists f. split; [|done]. rewrite znth_lookup by apply zlen_nonneg. unfold zlen. rewrite Nat2Z.id.
    by apply list_lookup_middle.
  - destruct (IH Hl) as (f' & Hf & Hn). exists f'. split; [|done]. unfold znth in *.
    destruct (0 <=? i); [|done]. by apply lookup_app_l_Some.
Qed.
Lemma build_lookup_nodup l i f :
  NoDup (sf_name <$> l) → l !! i = Some f → build_lookup l !! sf_name f = Some (Z.of_nat i).
Proof.
  revert i. induction l as [|g l IH] using rev_ind; intros i; [done|]. rewrite fmap_app, NoDup_app.
  intros (Hl & Hg & _) Hi. rewrite build_lookup_snoc. apply lookup_snoc_Some in Hi as [[Hi Hf]|[-> ->]].
  - rewrite lookup_insert_ne; [by apply IH|]. intros Heq.
    apply (Hg (sf_name f)); [apply list_elem_of_fmap; exists f; split; [done|by eapply list_elem_of_lookup_2]|].
    rewrite <- Heq. by left.
  - by rewrite lookup_insert_eq.
Qed.
End lookup.

Section positions.
Context {A : Type} (P : A → bool).
Lemma position_of_some l i : position_of P l = Some i → ∃ x, znth l i = Some x ∧ P x = true.
Proof.
  revert i. induction l as [|x l IH]; intros i; [done|]. simpl. destruct (P x) eqn:HP.
  - intros [= <-]. by exists x.
  - destruct (position_of P l) as [j|]; [|done]. intros [= <-]. destruct (IH _ eq_refl) as (y & Hy & HPy).
    exists y. split; [|done]. unfold znth in *. destruct (Z.leb_spec 0 j); [|done].
    destruct (Z.leb_spec 0 (Z.succ j)); [|lia]. by replace (Z.to_nat (Z.succ j)) with (S (Z.to_nat j)) by lia.
Qed.
Lemma position_of_first l1 x l2 :
  Forall (λ y, P y = false) l1 → P x = true → position_of P (l1 ++ x :: l2) = Some (zlen l1).
Proof.
  intros Hl Hx. induction Hl as [|y l1 Hy _ IH]; simpl; [by rewrite Hx|].
  rewrite Hy, IH. simpl. by rewrite zlen_cons, Z.add_1_l.
Qed.
Lemma position_of_none l : Forall (λ y, P y = false) l → position_of P l = None.
Proof. induction 1 as [|y l Hy _ IH]; simpl; [done|]. by rewrite Hy, IH. Qed.
End positions.

Section schema_theorems.
Context `{SerdeLanguage} `{TantivySchema}.
Implicit Types (s : SearchIndexSchema) (specs : list FieldSpec).

(** the configuration is one of the type's *)
Definition config_fits (config : SearchFieldConfig) (field_type : SearchFieldType) : bool :=
  match field_type, config with
  | SText, TextConfig _ _ _ _ _ _ _ _ => true
  | (SI64 | SU64 | SF64 | SBool), (NumericConfig _ _ _ _ | BooleanConfig _ _ _ _) => true
  | (SJson | SRange), (JsonConfig _ _ _ _ _ _ _ _ _ | RangeConfig _ _) => true
  | SDate, DateConfig _ _ _ _ => true
  | _, _ => false
  end.
Definition fits (spec : FieldSpec) : Prop := config_fits spec.1.2 spec.2 = true.

Lemma field_options_fits config t :
  if config_fits config t then ∃ o, field_options config t = Ok o
  else ∃ msg, field_options config t = Panic msg.
Proof. destruct t, config; simpl; eauto. Qed.

(** the Tantivy type of a field *)
Definition tantivy_type (config : SearchFieldConfig) (t : SearchFieldType) : FieldType :=
  match t with
  | SText => FStr | SI64 => FI64 | SU64 => FU64 | SF64 => FF64 | SBool => FBool | SDate => FDate
  | SJson | SRange =>
      FJsonObject (match config with JsonConfig _ _ _ _ expand_dots _ _ _ _ => expand_dots | _ => false end)
  end.
Lemma field_options_type config t o : field_options config t = Ok o → entry_type o = tantivy_type config t.
Proof. destruct t, config; simpl; try done; by intros [= <-]. Qed.

Definition spec_field (id : Field) (spec : FieldSpec) : SearchField :=
  {| sf_id := id; sf_name := spec.1.1; sf_config := spec.1.2; sf_type := spec.2 |}.
(** the search fields of specs added after [n] others *)
Fixpoint fields_from (n : Z) specs : list SearchField :=
  match specs with [] => [] | spec :: specs => spec_field n spec :: fields_from (Z.succ n) specs end.
Lemma fields_from_lookup n specs i :
  fields_from n specs !! i = spec_field (n + Z.of_nat i) <$> specs !! i.
Proof.
  revert n i. induction specs as [|spec specs IH]; intros n [|i]; simpl; [done..| |].
  - by rewrite Z.add_0_r.
  - rewrite IH. by replace (Z.succ n + Z.of_nat i) with (n + Z.of_nat (S i)) by lia.
Qed.
Lemma fields_from_names n specs : sf_name <$> fields_from n specs = (λ spec : FieldSpec, spec.1.1) <$> specs.
Proof. revert n. induction specs as [|spec specs IH]; intros n; simpl; [done|]. by rewrite IH. Qed.
Lemma fields_from_length n specs : length (fields_from n specs) = length specs.
Proof. revert n. induction specs as [|spec specs IH]; intros n; simpl; [done|]. by rewrite IH. Qed.

(** each entry of the Tantivy schema is that of its spec *)
Definition entry_for (spec : FieldSpec) (e : string * FieldOptions) : Prop :=
  e.1 = spec.1.1 ∧ field_options spec.1.2 spec.2 = Ok e.2.

Lemma add_fields_ok specs b acc :
  Forall fits specs → NoDup ((builder_fields b).*1 ++ ((λ spec : FieldSpec, spec.1.1) <$> specs)) →
  ∃ b' es, add_fields specs b acc = Ok (b', acc ++ fields_from (zlen (builder_fields b)) specs) ∧
    builder_fields b' = builder_fields b ++ es ∧ Forall2 entry_for specs es.
Proof.
  revert b acc. induction specs as [|[[name config] t] specs IH]; intros b acc Hfits Hnd; simpl.
  { exists b, []. by rewrite !app_nil_r. }
  apply Forall_cons in Hfits as [Hf Hfits]. pose proof (field_options_fits config t) as Ho.
  unfold fits in Hf. simpl in Hf. rewrite Hf in Ho. destruct Ho as [o Ho]. rewrite Ho. simpl.
  destruct (add_field_fresh b name o) as (b1 & Hadd & Hb1).
  { apply NoDup_app in Hnd as (_ & Hn & _). intros Hin. apply (Hn name Hin). by left. }
  rewrite Hadd. simpl.
  destruct (IH b1 (acc ++ [spec_field (zlen (builder_fields b)) (name, config, t)])) as (b' & es & Hrun & Hb' & Hes); [done|..].
  { rewrite Hb1, fmap_app. simpl. by rewrite <- app_assoc. }
  exists b', ((name, o) :: es). split; [|split].
  - unfold spec_field in Hrun. simpl in Hrun. rewrite Hrun, Hb1, zlen_app, <- app_assoc. simpl.
    by replace (zlen (builder_fields b) + zlen [(name, o)]) with (Z.succ (zlen (builder_fields b))) by (unfold zlen; simpl; lia).
  - by rewrite Hb', Hb1, <- app_assoc.
  - by constructor.
Qed.
Lemma add_fields_panics specs b acc :
  ¬ (Forall fits specs ∧ NoDup ((builder_fields b).*1 ++ ((λ spec : FieldSpec, spec.1.1) <$> specs))) →
  NoDup (builder_fields b).*1 → ∃ msg, add_fields specs b acc = Panic msg.
Proof.
  revert b acc. induction specs as [|[[name config] t] specs IH]; intros b acc Hbad Hb; simpl.
  { destruct Hbad. by rewrite app_nil_r. }
  pose proof (field_options_fits config t) as Ho. destruct (config_fits config t) eqn:Hf.
  2: { destruct Ho as [msg ->]. by exists msg. }
  destruct Ho as [o ->]. simpl. destruct (decide (name ∈ (builder_fields b).*1)) as [Hin|Hin].
  { rewrite add_field_again by done. by eexists. }
  destruct (add_field_fresh b name o Hin) as (b1 & -> & Hb1). simpl. apply IH.
  - intros [Hfits Hnd]. apply Hbad. split; [by constructor|]. simpl.
    rewrite Hb1, fmap_app in Hnd. simpl in Hnd. by rewrite <- app_assoc in Hnd.
  - rewrite Hb1, fmap_app. apply NoDup_app. split; [done|]. split; [|apply NoDup_singleton].
    intros x Hx Hxn. simpl in Hxn. apply list_elem_of_singleton in Hxn as ->. done.
Qed.

Definition spec_names specs : list string := (λ spec : FieldSpec, spec.1.1) <$> specs.
Definition specs_ok specs : Prop :=
  Forall fits specs ∧ NoDup (spec_names specs) ∧ "ctid" ∉ spec_names specs.

Record made_of specs (k : Z) s : Prop := {
  made_fields : sis_fields s = fields_from 0 specs;
  made_key : sis_key s = k;
  made_lookup : sis_lookup s = Some (build_lookup (sis_fields s));
  made_entries : ∃ es, schema_entries (sis_schema s) = es ++ [("ctid", ctid_options)] ∧ Forall2 entry_for specs es
}.

Lemma entries_names specs es : Forall2 entry_for specs es → es.*1 = spec_names specs.
Proof.
  induction 1 as [|spec e specs' es' [Hn _] _ IH]; [done|].
  unfold spec_names in *. rewrite !fmap_cons, IH. by f_equal.
Qed.

Lemma schema_new_ok specs k : specs_ok specs → ∃ s, schema_new specs k = Ok s ∧ made_of specs k s.
Proof.
  intros (Hfits & Hnd & Hctid). unfold schema_new.
  destruct (add_fields_ok specs schema_builder []) as (b & es & Hrun & Hb & Hes); [done|by rewrite builder_new|].
  rewrite Hrun. simpl. rewrite builder_new in Hb. simpl in Hb.
  pose proof (entries_names _ _ Hes) as Hnames.
  destruct (add_field_fresh b "ctid" ctid_options) as (b' & -> & Hb'); [by rewrite Hb, Hnames|].
  simpl. eexists. split; [done|]. rewrite builder_new. split; [done..|]. simpl. exists es.
  by rewrite build_entries, Hb', Hb.
Qed.

Lemma specs_ok_with_ctid specs :
  specs_ok specs ↔ Forall fits specs ∧ NoDup (spec_names specs ++ ["ctid"]).
Proof.
  unfold specs_ok. rewrite NoDup_app. split.
  - intros (? & ? & ?). split; [done|]. split; [done|]. split; [|apply NoDup_singleton].
    intros x Hx ->%list_elem_of_singleton. done.
  - intros (? & ? & Hn & _). split; [done|]. split; [done|]. intros Hin. apply (Hn _ Hin). by left.
Qed.
Lemma schema_new_panics specs k : ¬ specs_ok specs → ∃ msg, schema_new specs k = Panic msg.
Proof.
  intros Hbad. unfold schema_new.
  destruct (decide (NoDup (spec_names specs))) as [Hnd|Hnd].
  2: { destruct (add_fields_panics specs schema_builder []) as [msg ->]; [by rewrite builder_new; intros [_ ?]|
         rewrite builder_new; constructor|by exists msg]. }
  destruct (decide (Forall fits specs)) as [Hf|Hf].
  2: { destruct (add_fields_panics specs schema_builder []) as [msg ->]; [by intros [? _]|
         rewrite builder_new; constructor|by exists msg]. }
  destruct (add_fields_ok specs schema_builder []) as (b & es & -> & Hb & Hes); [done|by rewrite builder_new|].
  simpl. rewrite add_field_again; [by eexists|]. rewrite Hb, builder_new.
  change ([] ++ es) with es. rewrite (entries_names _ _ Hes).
  destruct (decide ("ctid" ∈ spec_names specs)); [done|]. destruct Hbad. done.
Qed.

Lemma schema_new_inv specs k s : schema_new specs k = Ok s → specs_ok specs ∧ made_of specs k s.
Proof.
  intros Hs. assert (specs_ok specs) as Hok.
  { destruct (decide (specs_ok specs)) as [|Hbad]; [done|]. destruct (schema_new_panics specs k Hbad). congruence. }
  split; [done|]. destruct (schema_new_ok specs k Hok) as (s1 & Hs1 & Hm). congruence.
Qed.

Lemma made_field specs k s i spec :
  specs_ok specs → made_of specs k s → specs !! i = Some spec →
  get_search_field s spec.1.1 = Some (spec_field (Z.of_nat i) spec).
Proof.
  intros (_ & Hnd & _) Hs Hi. unfold get_search_field. rewrite (made_lookup _ _ _ Hs), (made_fields _ _ _ Hs).
  pose proof (fields_from_lookup 0 specs i) as Hl. rewrite Hi in Hl. simpl in Hl.
  change (spec.1.1) with (sf_name (spec_field (Z.of_nat i) spec)).
  rewrite (build_lookup_nodup _ i) by (rewrite ?fields_from_names; done). simpl.
  rewrite znth_lookup by lia. by rewrite Nat2Z.id.
Qed.
Lemma made_no_field specs k s name :
  made_of specs k s → name ∉ spec_names specs → get_search_field s name = None.
Proof.
  intros Hs Hn. unfold get_search_field. rewrite (made_lookup _ _ _ Hs), (made_fields _ _ _ Hs).
  by rewrite build_lookup_none by by rewrite fields_from_names.
Qed.
Lemma made_entry specs k s i spec :
  specs_ok specs → made_of specs k s → specs !! i = Some spec →
  schema_get_field (sis_schema s) spec.1.1 = Some (Z.of_nat i) ∧
  field_entry_type (sis_schema s) (Z.of_nat i) = Ok (tantivy_type spec.1.2 spec.2).
Proof.
  intros (_ & Hnd & _) Hs Hi. destruct (made_entries _ _ _ Hs) as (es & Hes & Hall).
  unfold schema_get_field, field_entry_type. rewrite Hes.
  destruct (Forall2_lookup_l _ _ _ _ _ Hall Hi) as (e & He & Hn & Ho). split.
  - rewrite <- (take_drop_middle es i e) by done. rewrite <- app_assoc. simpl.
    rewrite position_of_first; [f_equal; unfold zlen; rewrite length_take; apply lookup_lt_Some in He; lia| |by apply String.eqb_eq].
    apply Forall_forall. intros e' He'. apply String.eqb_neq. intros Heq.
    apply list_elem_of_lookup in He' as [j Hj]. apply lookup_take_Some in Hj as [Hj Hlt].
    destruct (Forall2_lookup_r _ _ _ _ _ Hall Hj) as (spec' & Hspec' & Hn' & _).
    assert (j = i); [|lia]. eapply NoDup_lookup; [exact Hnd|..]; unfold spec_names; rewrite list_lookup_fmap.
    + by rewrite Hspec'.
    + rewrite Hi. simpl. congruence.
  - unfold index. rewrite znth_lookup by lia. rewrite Nat2Z.id, lookup_app_l by (by eapply lookup_lt_Some).
    rewrite He. simpl. by rewrite (field_options_type _ _ _ Ho).
Qed.
Lemma made_ctid specs k s :
  specs_ok specs → made_of specs k s → schema_get_field (sis_schema s) "ctid" = Some (zlen specs).
Proof.
  intros (_ & _ & Hctid) Hs. destruct (made_entries _ _ _ Hs) as (es & Hes & Hall).
  unfold schema_get_field. rewrite Hes, position_of_first; [unfold zlen; by rewrite (Forall2_length _ _ _ Hall)| |done].
  apply Forall_forall. intros e He. apply String.eqb_neq. intros Heq. apply Hctid.
  apply list_elem_of_lookup in He as [j Hj]. destruct (Forall2_lookup_r _ _ _ _ _ Hall Hj) as (spec & Hspec & Hn & _).
  apply list_elem_of_fmap. exists spec. split; [congruence|by eapply list_elem_of_lookup_2].
Qed.
Lemma made_key_field specs k s spec :
  made_of specs k s → znth specs k = Some spec → schema_key_field s = Ok (spec_field k spec).
Proof.
  intros Hs Hk. unfold schema_key_field. rewrite (made_key _ _ _ Hs), (made_fields _ _ _ Hs). unfold znth in *.
  destruct (Z.leb_spec 0 k); [|done]. rewrite fields_from_lookup, Hk. simpl. by rewrite Z2Nat.id by done.
Qed.

(** the search field of a spec in a schema made of [specs] *)
Definition field_in specs (spec : FieldSpec) (f : SearchField) : Prop :=
  ∃ i, specs !! i = Some spec ∧ f = spec_field (Z.of_nat i) spec.

Lemma traverse_ok_all {A B} (f : A → outcome B) (R : A → B → Prop) l :
  Forall (λ x, ∃ y, f x = Ok y ∧ R x y) l → ∃ ys, traverse_ok f l = Ok ys ∧ Forall2 R l ys.
Proof.
  induction 1 as [|x l (y & Hy & HR) _ (ys & Hys & HF)]; [by exists []|].
  exists (y :: ys). simpl. rewrite Hy. simpl. rewrite Hys. by split; [|constructor].
Qed.
Lemma open_fields specs k s specs' :
  specs_ok specs → made_of specs k s → specs' ≡ₚ specs →
  ∃ fs, traverse_ok (open_field (sis_schema s)) specs' = Ok fs ∧ Forall2 (field_in specs) specs' fs.
Proof.
  intros Hok Hs Hperm. apply traverse_ok_all, Forall_forall. intros spec Hin.
  assert (spec ∈ specs) as [i Hi]%list_elem_of_lookup by by rewrite <- Hperm.
  exists (spec_field (Z.of_nat i) spec). split; [|by exists i].
  destruct (made_entry specs k s i spec Hok Hs Hi) as [He _]. destruct spec as [[name config] t].
  unfold open_field. simpl in He. by rewrite He.
Qed.
Lemma field_in_names specs specs' fs :
  Forall2 (field_in specs) specs' fs → sf_name <$> fs = spec_names specs'.
Proof.
  induction 1 as [|spec f specs' fs (i & _ & ->) _ IH]; [done|].
  unfold spec_names in *. rewrite !fmap_cons, IH. by f_equal.
Qed.

Lemma get_search_field_of s l i f :
  sis_fields s = l → sis_lookup s = Some (build_lookup l) → NoDup (sf_name <$> l) → l !! i = Some f →
  get_search_field s (sf_name f) = Some f.
Proof.
  intros Hl Hlk Hnd Hi. unfold get_search_field. rewrite Hlk, Hl, (build_lookup_nodup _ i) by done. simpl.
  rewrite znth_lookup by lia. by rewrite Nat2Z.id.
Qed.

Lemma reopened specs k s specs' k' :
  specs_ok specs → made_of specs k s → specs' ≡ₚ specs →
  ∃ s', schema_open (sis_schema s) (Ok (specs', k')) = Ok s' ∧ sis_schema s' = sis_schema s ∧
    (∀ name, get_search_field s' name = get_search_field s name) ∧
    (∀ spec, znth specs' k' = Some spec →
       schema_key_field s' = expect_ok (get_search_field s spec.1.1) "") ∧
    Forall2 (field_in specs) specs' (sis_fields s').
Proof.
  intros Hok Hs Hperm. destruct (open_fields _ _ _ _ Hok Hs Hperm) as (fs & Hrun & Hfs).
  eexists. split; [unfold schema_open; cbn [mbind outcome_bind]; by rewrite Hrun|].
  pose proof (field_in_names _ _ _ Hfs) as Hn.
  assert (NoDup (sf_name <$> fs)) as Hnd by by rewrite Hn; unfold spec_names; rewrite Hperm; apply Hok.
  split; [done|]. split; [|split; [|done]].
  - intros name. destruct (decide (name ∈ spec_names specs)) as [Hin|Hin].
    + assert (name ∈ sf_name <$> fs) as (f & -> & Hf)%list_elem_of_fmap
        by by rewrite Hn; unfold spec_names; rewrite Hperm.
      apply list_elem_of_lookup in Hf as [j Hj].
      rewrite (get_search_field_of _ fs j f) by done.
      destruct (Forall2_lookup_r _ _ _ _ _ Hfs Hj) as (spec & _ & i & Hi & ->).
      symmetry. by apply (made_field specs k).
    + rewrite (made_no_field specs k s) by done. unfold get_search_field. cbn [sis_lookup].
      rewrite build_lookup_none; [done|]. rewrite Hn. unfold spec_names. by rewrite Hperm.
  - intros spec Hk. unfold schema_key_field. cbn [sis_fields sis_key]. unfold znth in *. destruct (0 <=? k'); [|done].
    destruct (Forall2_lookup_l _ _ _ _ _ Hfs Hk) as (f & Hf & i & Hi & ->). rewrite Hf.
    by rewrite (made_field specs k s i) by done.
Qed.
Lemma schema_open_again specs specs' k k' s :
  schema_new specs k = Ok s → specs' ≡ₚ specs → znth specs' k' = znth specs k → is_Some (znth specs k) →
  ∃ s', schema_open (sis_schema s) (Ok (specs', k')) = Ok s' ∧
    (∀ name, get_search_field s' name = get_search_field s name) ∧
    schema_key_field s' = schema_key_field s.
Proof.
  intros [Hok Hm]%schema_new_inv Hperm Hk [spec Hspec].
  destruct (reopened specs k s specs' k' Hok Hm Hperm) as (s' & Hs' & _ & Hget & Hkey & _).
  exists s'. split; [done|]. split; [done|]. rewrite Hspec in Hk. rewrite (Hkey _ Hk).
  rewrite (made_key_field specs k s spec) by done. unfold znth in Hspec. destruct (Z.leb_spec 0 k); [|done].
  rewrite (made_field specs k s _ spec Hok Hm Hspec). simpl. by rewrite Z2Nat.id.
Qed.

(** *** The fields of queries *)

(** an attribute the field takes its values from *)
Definition source_of (f : SearchField) (attname : string) : Prop :=
  attname = sf_name f ∨ column (sf_config f) = Some attname.

Lemma attribute_typeoid_spec (tupdesc : list (string * PgOid)) f :
  (∃ attname, source_of f attname ∧ attname ∈ tupdesc.*1) ↔
  ∃ oid attname, attribute_typeoid tupdesc f = Ok oid ∧ source_of f attname ∧ (attname, oid) ∈ tupdesc.
Proof.
  split.
  2: { intros (oid & attname & _ & Hs & Hin). exists attname. split; [done|].
       by apply (list_elem_of_fmap_2 fst) in Hin. }
  intros (attname & Hs & Hin). induction tupdesc as [|[a oid] tupdesc IH]; [by apply not_elem_of_nil in Hin|].
  cbn [attribute_typeoid]. destruct (String.eqb_spec (sf_name f) a) as [Ha|Ha].
  { exists oid, a. split; [done|]. split; [by left|by left]. }
  destruct (bool_decide_reflect (column (sf_config f) = Some a)) as [Hc|Hc].
  { exists oid, a. split; [done|]. split; [by right|by left]. }
  rewrite fmap_cons in Hin. apply elem_of_cons in Hin as [->|Hin]; [by destruct Hs|].
  destruct (IH Hin) as (oid' & a' & Hrun & Hs' & Hin'). exists oid', a'. split; [done|]. split; [done|by right].
Qed.
Lemma attribute_typeoid_panics (tupdesc : list (string * PgOid)) f :
  (∀ attname, source_of f attname → attname ∉ tupdesc.*1) →
  attribute_typeoid tupdesc f = Panic "search field not found in index".
Proof.
  induction tupdesc as [|[a oid] tupdesc IH]; [done|]. intros Hn. cbn [attribute_typeoid]. rewrite fmap_cons in Hn.
  destruct (String.eqb_spec (sf_name f) a) as [Ha|Ha]; [destruct (Hn a); [by left|by left]|].
  destruct (bool_decide_reflect (column (sf_config f) = Some a)) as [Hc|Hc]; [destruct (Hn a); [by right|by left]|].
  apply IH. intros a' Ha' Hin. apply (Hn a' Ha'). by right.
Qed.

Lemma collect_typeoids (tupdesc : list (string * PgOid)) (m : gmap string PgOid) name :
  is_Some (foldl (λ m '(name, oid), <[name := oid]> m) m tupdesc !! name) ↔
  is_Some (m !! name) ∨ name ∈ tupdesc.*1.
Proof.
  revert m. induction tupdesc as [|[a oid] tupdesc IH]; intros m.
  { split; [by left|intros [?|Hin%not_elem_of_nil]; done]. }
  cbn [foldl]. rewrite IH, fmap_cons, elem_of_cons, lookup_insert_is_Some'. simpl. split.
  - intros [[->|?]|?]; [right; by left|by left|right; by right].
  - intros [?|[->|?]]; [left; by right|left; by left|by right].
Qed.

Lemma made_field_type specs k s i spec (oid : SearchField → outcome PgOid) :
  specs_ok specs → made_of specs k s → specs !! i = Some spec →
  field_type_of s oid (spec_field (Z.of_nat i) spec) =
    (o ← oid (spec_field (Z.of_nat i) spec); Ok (tantivy_type spec.1.2 spec.2, o, Z.of_nat i)).
Proof.
  intros Hok Hs Hi. unfold field_type_of. destruct (made_entry specs k s i spec Hok Hs Hi) as [_ Ht].
  cbn [sf_id spec_field]. by rewrite Ht.
Qed.

Lemma traverse_ok_panics {A B} (f : A → outcome B) l x msg :
  (∀ y, y ∈ l → (∃ b, f y = Ok b) ∨ f y = Panic msg) → x ∈ l → f x = Panic msg → traverse_ok f l = Panic msg.
Proof.
  intros Hall Hx Hf. induction l as [|y l IH]; [by apply not_elem_of_nil in Hx|]. simpl.
  destruct (Hall y) as [[b Hb]|Hp]; [by left| |by rewrite Hp].
  rewrite Hb. simpl. rewrite IH; [done|intros z Hz; apply Hall; by right|].
  apply elem_of_cons in Hx as [->|]; [congruence|done].
Qed.

Lemma made_in specs k s f :
  made_of specs k s → f ∈ sis_fields s ↔ ∃ i spec, specs !! i = Some spec ∧ f = spec_field (Z.of_nat i) spec.
Proof.
  intros Hs. rewrite (made_fields _ _ _ Hs), list_elem_of_lookup. split.
  - intros [i Hi]. rewrite fields_from_lookup in Hi. destruct (specs !! i) as [spec|] eqn:Hspec; [|done].
    injection Hi as <-. by exists i, spec.
  - intros (i & spec & Hi & ->). exists i. by rewrite fields_from_lookup, Hi.
Qed.
Lemma not_ctid specs i spec :
  specs_ok specs → specs !! i = Some spec → String.eqb spec.1.1 "ctid" = false.
Proof.
  intros (_ & _ & Hn) Hi. apply String.eqb_neq. intros Heq. apply Hn.
  apply list_elem_of_fmap. exists spec. split; [done|by eapply list_elem_of_lookup_2].
Qed.

(** the type of a field through the map of the attributes *)
Lemma map_field_type specs k s i spec (lookup : gmap string PgOid) :
  specs_ok specs → made_of specs k s → specs !! i = Some spec →
  field_type_of s (map_typeoid lookup) (spec_field (Z.of_nat i) spec) =
    match lookup !! spec.1.1 with
    | Some oid => Ok (tantivy_type spec.1.2 spec.2, oid, Z.of_nat i)
    | None => Panic "search field not found in index"
    end.
Proof.
  intros Hok Hs Hi. rewrite (made_field_type specs k) by done. unfold map_typeoid. cbn [sf_name spec_field].
  rewrite (not_ctid specs i) by done. by destruct (lookup !! spec.1.1).
Qed.

Lemma schema_fields_ok specs k s tupdesc :
  specs_ok specs → made_of specs k s → (∀ name, name ∈ spec_names specs → name ∈ tupdesc.*1) →
  ∃ l, schema_as_fields s tupdesc = Ok l.
Proof.
  intros Hok Hs Hall. unfold schema_as_fields. set (lookup := foldl _ _ _).
  destruct (traverse_ok_all (field_type_of s (map_typeoid lookup)) (λ _ _, True) (sis_fields s)) as (l & Hl & _); [|by exists l].
  apply Forall_forall. intros f (i & spec & Hi & ->)%(made_in specs k); [|done].
  rewrite (map_field_type specs k) by done. destruct (lookup !! spec.1.1) as [oid|] eqn:Hl; [by eexists|].
  destruct (proj2 (collect_typeoids tupdesc ∅ spec.1.1)) as [oid Hoid].
  - right. apply Hall, list_elem_of_fmap. exists spec. split; [done|by eapply list_elem_of_lookup_2].
  - unfold lookup in Hl. congruence.
Qed.
Lemma schema_fields_panic specs k s tupdesc :
  specs_ok specs → made_of specs k s → (∃ name, name ∈ spec_names specs ∧ name ∉ tupdesc.*1) →
  schema_as_fields s tupdesc = Panic "search field not found in index".
Proof.
  intros Hok Hs (name & (spec & -> & [i Hi]%list_elem_of_lookup)%list_elem_of_fmap & Hn).
  unfold schema_as_fields. set (lookup := foldl _ _ _).
  apply (traverse_ok_panics _ _ (spec_field (Z.of_nat i) spec)).
  - intros f (j & spec' & Hj & ->)%(made_in specs k); [|done]. rewrite (map_field_type specs k) by done.
    destruct (lookup !! spec'.1.1); [left; by eexists|by right].
  - apply (made_in specs k); [done|]. by exists i, spec.
  - rewrite (map_field_type specs k) by done. destruct (lookup !! spec.1.1) as [oid|] eqn:Hl; [|done].
    destruct (proj1 (collect_typeoids tupdesc ∅ spec.1.1)) as [[? ?]|?]; [by eexists|done..].
Qed.
End schema_theorems.

(** Field types are looked up through the alias's column, but the list of all
    fields, which a term query without a field uses, looks every field up under its own
    name: with an alias that is no column it panics. *)
Theorem unqualified_terms_need_columns `{SerdeLanguage} `{TantivySchema} (specs : list FieldSpec) (k : Z)
    (s : SearchIndexSchema) (tupdesc : list (string * PgOid)) :
  schema_new specs k = Ok s →
  (∀ i spec, specs !! i = Some spec →
     (∃ attname, source_of (spec_field (Z.of_nat i) spec) attname ∧ attname ∈ tupdesc.*1) →
     ∃ oid attname, schema_as_field_type s tupdesc spec.1.1 = Ok (Some (tantivy_type spec.1.2 spec.2, oid, Z.of_nat i)) ∧
       source_of (spec_field (Z.of_nat i) spec) attname ∧ (attname, oid) ∈ tupdesc) ∧
  ((∃ l, schema_as_fields s tupdesc = Ok l) ↔ ∀ name, name ∈ spec_names specs → name ∈ tupdesc.*1) ∧
  ((∃ name, name ∈ spec_names specs ∧ name ∉ tupdesc.*1) →
   schema_as_fields s tupdesc = Panic "search field not found in index").
Proof.
  intros [Hok Hs]%schema_new_inv. split; [|split].
  - intros i spec Hi Hsrc. unfold schema_as_field_type. rewrite (made_field specs k s i spec) by done.
    apply attribute_typeoid_spec in Hsrc as (oid & a & Hrun & Ha & Hina). exists oid, a. split; [|done].
    rewrite (made_field_type specs k) by done. unfold typeoid. cbn [sf_name spec_field].
    rewrite (not_ctid specs i), Hrun by done. done.
  - split; [|by apply (schema_fields_ok specs k)]. intros [l Hl] name Hn.
    destruct (decide (name ∈ tupdesc.*1)) as [|Hno]; [done|].
    by rewrite (schema_fields_panic specs k) in Hl by eauto.
  - by apply (schema_fields_panic specs k).
Qed.

(** A schema is made exactly when its field names are distinct and none is [ctid]; the
    fields get the ids of their places, and [ctid] the next one. *)
Theorem schema_new_correct `{SerdeLanguage} `{TantivySchema} (specs : list FieldSpec) (k : Z) :
  (specs_ok specs →
   ∃ s, schema_new specs k = Ok s ∧
     (∀ i spec, specs !! i = Some spec →
        get_search_field s spec.1.1 = Some (spec_field (Z.of_nat i) spec) ∧
        schema_get_field (sis_schema s) spec.1.1 = Some (Z.of_nat i) ∧
        field_entry_type (sis_schema s) (Z.of_nat i) = Ok (tantivy_type spec.1.2 spec.2)) ∧
     (∀ name, name ∉ spec_names specs → get_search_field s name = None) ∧
     schema_get_field (sis_schema s) "ctid" = Some (zlen specs) ∧
     (∀ spec, znth specs k = Some spec → schema_key_field s = Ok (spec_field k spec))) ∧
  (¬ specs_ok specs → ∃ msg, schema_new specs k = Panic msg).
Proof.
  split; [|apply schema_new_panics]. intros Hok. destruct (schema_new_ok specs k Hok) as (s & Hs & Hm).
  exists s. split; [done|]. split; [|split; [|split]].
  - intros i spec Hi. split; [by apply (made_field specs k)|by apply (made_entry specs k)].
  - intros name. by apply (made_no_field specs k).
  - by apply (made_ctid specs k).
  - intros spec. by apply (made_key_field specs).
Qed.
