(* ===== verification/Options.v ===== *)
(** * Options: from the options of an index to its fields

    [postgres/options.rs] ([SearchIndexCreateOptions]) and [postgres/index.rs]
    ([get_fields]): the JSON of the [WITH] clause, the columns of the index and those of
    its table give the fields of the index, their configuration and their type.  A hash
    map is iterated in the order of the class [HashIteration], which two calls need not
    share. *)

From S2P Require Import Prelude PgUtils TokenizerConfig Query Schema.

Open Scope Z_scope.

(** ** External code *)

(** [serde_json::from_str::<Map<String, Value>>]: the keys of a map are distinct *)
Class SerdeJsonText := {
  map_from_str : string → option (list (string * Json));
  map_from_str_keys s m : map_from_str s = Some m → NoDup m.*1
}.

(** the iteration of hash maps *)
Class HashIteration := {
  configs_iter : gmap string Json → list (string * Json);
  fields_iter : gmap string FieldSpec → list FieldSpec;
  configs_iter_perm m : configs_iter m ≡ₚ map_to_list m;
  fields_iter_perm m : fields_iter m ≡ₚ (map_to_list m).*2
}.

(** ** The options of an index *)

(** the string behind each offset; [None] is the offset zero *)
Record SearchIndexCreateOptions := {
  text_fields : option string;
  numeric_fields : option string;
  boolean_fields : option string;
  json_fields : option string;
  range_fields : option string;
  datetime_fields : option string;
  key_field_option : option string
}.
(** [PgBox::alloc0()] *)
Definition options_alloc0 : SearchIndexCreateOptions :=
  {| text_fields := None; numeric_fields := None; boolean_fields := None; json_fields := None;
     range_fields := None; datetime_fields := None; key_field_option := None |}.

Definition get_str (offset : option string) (dflt : string) : string := default dflt offset.

(** the names and types of the attributes of a relation *)
Notation TupleDesc := (list (string * PgOid)).

Section options.
Context `{SerdeLanguage} `{SerdeRecord} `{SerdeJsonText} `{HI : HashIteration} `{PgTypes}.
Implicit Types (opts : SearchIndexCreateOptions) (heap : TupleDesc).

(** [parser(field_config).expect(...)] for the entries, in their order *)
Definition field_config_expect (parser : Json → outcome SearchFieldConfig) (entry : string * Json)
    : outcome (string * SearchFieldConfig) :=
  config ← expect_res (parser entry.2) "field config should be valid for SearchFieldConfig";
  Ok (entry.1, config).
Definition deserialize_config_fields (serialized : string) (parser : Json → outcome SearchFieldConfig)
    : outcome (list (string * SearchFieldConfig)) :=
  match map_from_str serialized with
  | Some config_map => traverse_ok (field_config_expect parser) config_map
  | None => Panic "failed to deserialize field config"
  end.

Definition get_config_fields (offset : option string) (parser : Json → outcome SearchFieldConfig)
    : outcome (list (string * SearchFieldConfig)) :=
  let config := get_str offset "" in
  if String.eqb config "" then Ok [] else deserialize_config_fields config parser.
Definition get_text_fields opts := get_config_fields (text_fields opts) text_from_json.
Definition get_numeric_fields opts := get_config_fields (numeric_fields opts) numeric_from_json.
Definition get_boolean_fields opts := get_config_fields (boolean_fields opts) boolean_from_json.
Definition get_json_fields opts := get_config_fields (json_fields opts) json_from_json.
Definition get_range_fields opts := get_config_fields (range_fields opts) range_from_json.
Definition get_datetime_fields opts := get_config_fields (datetime_fields opts) date_from_json.

(** the validators of [amoptions], on the string of the option ([None] is a null pointer) *)
Definition cstr_to_rust_str (value : option string) : string := default "" value.
Definition validate_with (parser : Json → outcome SearchFieldConfig) (value : option string) : outcome unit :=
  let json_str := cstr_to_rust_str value in
  if String.eqb json_str "" then Ok ()
  else deserialize_config_fields json_str parser ≫= λ _, Ok ().
Definition validate_text_fields := validate_with text_from_json.
Definition validate_numeric_fields := validate_with numeric_from_json.
Definition validate_boolean_fields := validate_with boolean_from_json.
Definition validate_json_fields := validate_with json_from_json.
Definition validate_range_fields := validate_with range_from_json.
Definition validate_datetime_fields := validate_with date_from_json.

Definition json_value_to_search_field_config (field_type : SearchFieldType) (field_config : Json)
    : outcome SearchFieldConfig :=
  expect_res
    (match field_type with
     | SText => text_from_json field_config
     | SI64 => numeric_from_json field_config
     | SF64 => numeric_from_json field_config
     | SU64 => numeric_from_json field_config
     | SBool => boolean_from_json field_config
     | SJson => json_from_json field_config
     | SDate => date_from_json field_config
     | SRange => range_from_json field_config
     end) "field config should be valid for SearchFieldConfig".

Definition get_key_field opts : option string :=
  let key_field_name := get_str (key_field_option opts) "" in
  if String.eqb key_field_name "" then None else Some key_field_name.

(** the type of a column, or of the elements of an array *)
Definition base_oid (attribute_type_oid : PgOid) : PgOid :=
  let array_type := get_element_type attribute_type_oid in
  if decide (array_type ≠ PgInvalid) then array_type else attribute_type_oid.

(** the [filter_map] over the attributes, collected: a later name replaces an earlier one *)
Definition name_type_map heap : gmap string SearchFieldType :=
  foldl (λ m '(attname, oid),
    match search_field_type (base_oid oid) with
    | Ok search_field_type => <[attname := search_field_type]> m
    | _ => m
    end) ∅ heap.

Definition raw_tokenizer : SearchTokenizer := Raw filters_default.

(** the configuration of the key field, that differs only by [stored] in the two places *)
Definition key_config_stored (stored : bool) (field_type : SearchFieldType) : SearchFieldConfig :=
  match field_type with
  | SI64 | SU64 | SF64 => NumericConfig true true stored None
  | SText => TextConfig true true stored false raw_tokenizer Basic NormalizeRaw None
  | SJson => JsonConfig true true stored false false raw_tokenizer Basic NormalizeRaw None
  | SRange => RangeConfig stored None
  | SBool => BooleanConfig true true stored None
  | SDate => DateConfig true true stored None
  end.

Definition get_key_field_config opts heap : outcome FieldSpec :=
  key_field_name ← expect_ok (get_key_field opts) "must specify key_field";
  key_field_type ← expect_ok (name_type_map heap !! key_field_name) "key field does not exist";
  Ok (key_field_name, key_config_stored true key_field_type, key_field_type).

(** [collect::<HashMap<_, _>>()] of the entries of the options that are not empty *)
Fixpoint collect_configs (configs : list string) (m : gmap string Json) : outcome (gmap string Json) :=
  match configs with
  | [] => Ok m
  | config :: configs =>
      match map_from_str config with
      | Some entries => collect_configs configs (foldl (λ m '(k, v), <[k := v]> m) m entries)
      | None => Panic "error in JSON field config"
      end
  end.
Definition config_by_name opts : outcome (gmap string Json) :=
  collect_configs
    (filter (λ config, config ≠ "")
       ((λ offset, get_str offset "") <$>
          [text_fields opts; numeric_fields opts; boolean_fields opts; json_fields opts;
           range_fields opts; datetime_fields opts])) ∅.

(** the [map] over the columns of the index: what is left of [config_by_name], and the
    fields collected *)
Definition column_field heap (key_field_name : string) (configs : gmap string Json) (attr_number : Z)
    : outcome (gmap string Json * FieldSpec) :=
  '(column_name, column_type_oid) ← expect_ok (znth heap (attr_number - 1)) "attribute should exist";
  field_type ← expect_res (search_field_type (base_oid column_type_oid)) "cannot index column";
  if String.eqb column_name key_field_name && bool_decide (is_Some (configs !! column_name)) then
    Panic "cannot override BM25 configuration for key_field"
  else
    let json_config := default (JObject []) (configs !! column_name) in
    config ← json_value_to_search_field_config field_type json_config;
    Ok (delete column_name configs, (column_name, config, field_type)).
Fixpoint column_fields heap (key_field_name : string) (attr_numbers : list Z) (configs : gmap string Json)
    (fields_by_name : gmap string FieldSpec) : outcome (gmap string Json * gmap string FieldSpec) :=
  match attr_numbers with
  | [] => Ok (configs, fields_by_name)
  | attr_number :: attr_numbers =>
      '(configs, field) ← column_field heap key_field_name configs attr_number;
      column_fields heap key_field_name attr_numbers configs (<[field.1.1 := field]> fields_by_name)
  end.

(** the loop over the entries that are left, the aliases *)
Fixpoint alias_fields (aliases : list (string * Json)) (fields_by_name : gmap string FieldSpec)
    : outcome (gmap string FieldSpec) :=
  match aliases with
  | [] => Ok fields_by_name
  | (name, json_config) :: aliases =>
      match json_get json_config "column" ≫= json_as_str with
      | Some column =>
          match fields_by_name !! column with
          | Some (_, _, field_type) =>
              config ← json_value_to_search_field_config field_type json_config;
              alias_fields aliases (<[name := (name, config, field_type)]> fields_by_name)
          | None => alias_fields aliases fields_by_name
          end
      | None => Panic "Field does not match any column, and has no 'column' key"
      end
  end.

(** [fields_by_name], before [into_values] *)
Definition get_fields_by_name opts heap (index_attr_numbers : list Z) : outcome (gmap string FieldSpec) :=
  '(key_field_name, key_field_config, key_field_type) ← get_key_field_config opts heap;
  config_by_name ← config_by_name opts;
  '(config_by_name, fields_by_name) ←
    column_fields heap key_field_name index_attr_numbers config_by_name ∅;
  let fields_by_name :=
    <[key_field_name := (key_field_name, key_field_config, key_field_type)]> fields_by_name in
  alias_fields (configs_iter config_by_name) fields_by_name.
Definition options_get_fields opts heap (index_attr_numbers : list Z) : outcome (list FieldSpec) :=
  fields_by_name ← get_fields_by_name opts heap index_attr_numbers;
  Ok (fields_iter fields_by_name).

(** ** [postgres/index.rs] *)

(** the loops that check the type of the column of each configured field *)
Fixpoint check_types (name_types : gmap string SearchFieldType) (accepts : SearchFieldType → bool)
    (msg : string) (configured : list (string * SearchFieldConfig)) : outcome unit :=
  match configured with
  | [] => Ok ()
  | (name, config) :: configured =>
      let name := default name (column config) in
      match name_types !! name with
      | Some t =>
          if accepts t then check_types name_types accepts msg configured
          else Panic ("'" +:+ name +:+ "' cannot be indexed as a " +:+ msg +:+ " field")%string
      | None => Panic ("'" +:+ name +:+ "' cannot be indexed as a " +:+ msg +:+ " field")%string
      end
  end.
Definition check_configured opts (name_types : gmap string SearchFieldType) : outcome unit :=
  text ← get_text_fields opts;
  check_types name_types (λ t, match t with SText => true | _ => false end) "text" text ≫= λ _,
  numeric ← get_numeric_fields opts;
  check_types name_types (λ t, match t with SU64 | SI64 | SF64 => true | _ => false end) "numeric" numeric ≫= λ _,
  boolean ← get_boolean_fields opts;
  check_types name_types (λ t, match t with SBool => true | _ => false end) "boolean" boolean ≫= λ _,
  json ← get_json_fields opts;
  check_types name_types (λ t, match t with SJson => true | _ => false end) "JSON" json ≫= λ _,
  range ← get_range_fields opts;
  check_types name_types (λ t, match t with SRange => true | _ => false end) "range" range ≫= λ _,
  datetime ← get_datetime_fields opts;
  check_types name_types (λ t, match t with SDate => true | _ => false end) "datetime" datetime.

(** the key field's configuration in the index *)
Definition key_config (key_field_type : SearchFieldType) : SearchFieldConfig :=
  key_config_stored false key_field_type.

Definition get_fields (rd_options : option SearchIndexCreateOptions) heap (index_attr_numbers : list Z)
    : outcome (list FieldSpec * Z) :=
  let rdopts := default options_alloc0 rd_options in
  let name_type_map := name_type_map heap in
  _ ← check_configured rdopts name_type_map;
  key_field ← expect_ok (get_key_field rdopts) "must specify key_field";
  key_field_type ← expect_ok (name_type_map !! key_field) "key field does not exist";
  fields ← options_get_fields rdopts heap index_attr_numbers;
  let fields := filter (λ f : FieldSpec, f.1.1 ≠ key_field) fields
                ++ [(key_field, key_config key_field_type, key_field_type)] in
  key_field_index ← expect_ok (position_of (λ f : FieldSpec, String.eqb f.1.1 key_field) fields)
    "key field not found in columns";
  if zlen fields =? 1 then Panic "no fields specified" else Ok (fields, key_field_index).

(** [get_index_schema] of [index/search.rs] *)
Definition get_index_schema `{TantivySchema} (rd_options : option SearchIndexCreateOptions) heap
    (index_attr_numbers : list Z) : outcome SearchIndexSchema :=
  match rd_options with
  | None => Panic "must specify key_field"
  | Some _ =>
      '(fields, key_field_index) ← get_fields rd_options heap index_attr_numbers;
      schema_new fields key_field_index
  end.

(** [setup_tokenizers] of [index/search.rs]: the tokenizers registered *)
Definition field_tokenizer (config : SearchFieldConfig) : option SearchTokenizer :=
  match config with
  | TextConfig _ _ _ _ tokenizer _ _ _ | JsonConfig _ _ _ _ _ tokenizer _ _ _ => Some tokenizer
  | _ => None
  end.
Definition setup_tokenizers `{TantivyTokenizers} (rd_options : option SearchIndexCreateOptions) heap
    (index_attr_numbers : list Z) : outcome (gmap string TextAnalyzer * gmap string TextAnalyzer) :=
  '(fields, _) ← get_fields rd_options heap index_attr_numbers;
  let tokenizers := omap (λ f : FieldSpec, field_tokenizer f.1.2) fields in
  tokenizers ← create_tokenizer_manager tokenizers;
  Ok (tokenizers, create_normalizer_manager).
End options.

(** ** The configurations fit their types *)

Section config_lemmas.
Context `{SerdeLanguage} `{SerdeRecord}.

(** a computation that gives only values of [P] *)
Definition gives {A} (P : A → Prop) (o : outcome A) : Prop := ∀ a, o = Ok a → P a.
Lemma gives_bind {A B} (P : B → Prop) (m : outcome A) (k : A → outcome B) :
  (∀ a, gives P (k a)) → gives P (m ≫= k).
Proof. intros Hk b. destruct m; [apply Hk|done..]. Qed.
Lemma gives_ok {A} (P : A → Prop) a : P a → gives P (Ok a).
Proof. by intros Ha ? [= <-]. Qed.

Lemma gives_bind_eq {A B} (P : B → Prop) (m : outcome A) (k : A → outcome B) :
  (∀ a, m = Ok a → gives P (k a)) → gives P (m ≫= k).
Proof. intros Hk b. destruct m as [a| | |]; [by apply Hk|done..]. Qed.

(** the numbers in a tokenizer read from JSON are [usize]s *)
Lemma get_field_ok {A} value key msg (f : Json → option A) a :
  get_field value key msg f = Ok (Some a) → ∃ v, f v = Some a.
Proof.
  unfold get_field. destruct (json_get value key) as [v|]; [|done]. destruct (f v) eqn:Hf; [|done].
  intros [= ->]. by exists v.
Qed.
Lemma json_u64_usize v n : json_as_u64 v = Some n → is_usize n.
Proof.
  destruct v; try done. unfold json_as_u64, is_usize. destruct (Z.leb_spec 0 n0), (Z.ltb_spec n0 (2 ^ 64)); simpl; [|done..].
  by intros [= <-].
Qed.
Lemma filters_json_ok value : gives (λ f, ∀ n, remove_long f = Some n → is_usize n) (filters_from_json_value value).
Proof.
  unfold filters_from_json_value. apply gives_bind_eq. intros r Hr. do 2 (apply gives_bind; intros ?).
  apply gives_ok. simpl. intros n ->. apply get_field_ok in Hr as [v Hv]. by apply json_u64_usize in Hv.
Qed.
Lemma tokenizer_json_ok value : gives tokenizer_ok (tokenizer_from_json_value value).
Proof.
  unfold tokenizer_from_json_value. apply gives_bind. intros ty. apply gives_bind_eq. intros f Hf.
  apply filters_json_ok in Hf.
  repeat (case_decide; [first [by apply gives_ok|apply gives_bind_eq; intros ? Hx]|]).
  1, 2: by apply gives_ok.
  { apply gives_bind_eq. intros b Hy. apply gives_bind. intros p. apply gives_ok. split; [done|].
    unfold ok_or in Hx, Hy. repeat case_match; simplify_eq. split; by eapply json_u64_usize. }
  done.
Qed.
Definition tokenizer_good (config : SearchFieldConfig) : Prop :=
  match config with
  | TextConfig _ _ _ _ tokenizer _ _ _ | JsonConfig _ _ _ _ _ tokenizer _ _ _ => tokenizer_ok tokenizer
  | _ => True
  end.
Lemma get_or_ok {A} obj key (f : Json → outcome A) dflt (P : A → Prop) :
  (∀ v, gives P (f v)) → P dflt → gives P (get_or obj key f dflt).
Proof. intros Hf Hd. unfold get_or. destruct (assoc_lookup key obj); [apply Hf|by apply gives_ok]. Qed.
Lemma text_json_good value : gives tokenizer_good (text_from_json value).
Proof.
  unfold text_from_json. do 5 (apply gives_bind; intros ?). apply gives_bind_eq. intros t Ht.
  do 3 (apply gives_bind; intros ?). apply gives_ok. revert t Ht. by apply get_or_ok; [apply tokenizer_json_ok|].
Qed.
Lemma json_json_good value : gives tokenizer_good (json_from_json value).
Proof.
  unfold json_from_json. do 5 (apply gives_bind; intros ?). apply gives_bind_eq. intros t Ht.
  do 4 (apply gives_bind; intros ?). apply gives_ok. revert t Ht. by apply get_or_ok; [apply tokenizer_json_ok|].
Qed.
Lemma expect_gives {A} (P : A → Prop) (o : outcome A) msg : gives P o → gives P (expect_res o msg).
Proof. by intros Ho a; destruct o; try done; apply Ho. Qed.
Lemma json_value_fits t v config :
  json_value_to_search_field_config t v = Ok config → config_fits config t = true.
Proof.
  revert config. apply expect_gives. destruct t; (repeat (apply gives_bind; intros ?)); by apply gives_ok.
Qed.
Lemma json_value_good t v : gives tokenizer_good (json_value_to_search_field_config t v).
Proof.
  apply expect_gives. destruct t; first [apply text_json_good|apply json_json_good|
    repeat (apply gives_bind; intros ?); by apply gives_ok].
Qed.

(** the column a field is configured with *)
Definition alias_column (json : Json) : option string := json_get json "column" ≫= json_as_str.
Lemma column_or_none_gives l : gives (λ c, c = alias_column (JObject l)) (column_or_none l).
Proof.
  unfold column_or_none, get_or, alias_column. cbn [json_get]. destruct (assoc_lookup "column" l) as [v|]; [|by apply gives_ok].
  cbn [mbind option_bind]. destruct (json_as_str v); [|done]. by apply gives_ok.
Qed.
Lemma json_value_column t v : gives (λ config, column config = alias_column v) (json_value_to_search_field_config t v).
Proof.
  apply expect_gives. destruct v as [|b|n|r|s|l|l]; [by destruct t..|].
  destruct t; cbn [text_from_json json_from_json range_from_json numeric_from_json boolean_from_json date_from_json
    json_as_object ok_or mbind outcome_bind];
    (repeat lazymatch goal with
     | |- gives _ (column_or_none _ ≫= _) => apply gives_bind_eq; intros c Hc; apply gives_ok; by apply column_or_none_gives in Hc
     | |- _ => apply gives_bind; intros ?
     end).
Qed.

Lemma key_config_fits stored t : config_fits (key_config_stored stored t) t = true.
Proof. by destruct t. Qed.
End config_lemmas.

Section fields_lemmas.
Context `{SerdeLanguage} `{SerdeRecord} `{SerdeJsonText} `{PgTypes}.
Implicit Types (m : gmap string FieldSpec) (aliases : list (string * Json)).

(** a configuration of the field's type, with a tokenizer of [usize]s *)
Definition sound (f : FieldSpec) : Prop := fits f ∧ tokenizer_good f.1.2.
Lemma json_value_sound name t v config :
  json_value_to_search_field_config t v = Ok config → sound (name, config, t).
Proof. intros Hc. split; [by eapply json_value_fits|by eapply json_value_good]. Qed.
Lemma key_config_sound name stored t : sound (name, key_config_stored stored t, t).
Proof. split; [apply key_config_fits|by destruct t]. Qed.

(** every field is under its name and sound *)
Definition well_named m : Prop := map_Forall (λ name f, f.1.1 = name ∧ sound f) m.
Lemma well_named_insert m name config t :
  well_named m → sound (name, config, t) → well_named (<[name := (name, config, t)]> m).
Proof. intros Hm Hf. by apply map_Forall_insert_2. Qed.

Lemma column_field_fits heap key configs attr configs' f :
  column_field heap key configs attr = Ok (configs', f) → sound f.
Proof.
  unfold column_field. destruct (znth heap (attr - 1)) as [[name oid]|]; [|done]. simpl.
  destruct (search_field_type (base_oid oid)) as [t| | |]; [|done..]. simpl.
  destruct (_ && _); [done|].
  destruct (json_value_to_search_field_config t _) as [c| | |] eqn:Hc; [|done..]. intros [= _ <-].
  by eapply json_value_sound.
Qed.
Lemma column_fields_well_named heap key attrs configs m configs' m' :
  well_named m → column_fields heap key attrs configs m = Ok (configs', m') → well_named m'.
Proof.
  revert configs m. induction attrs as [|a attrs IH]; intros configs m Hm; simpl; [by intros [= _ <-]|].
  destruct (column_field heap key configs a) as [[configs1 f]| | |] eqn:Hf; [|done..]. simpl.
  apply IH. apply column_field_fits in Hf. destruct f as [[name config] t]. by apply well_named_insert.
Qed.
Lemma alias_fields_well_named aliases m m' :
  well_named m → alias_fields aliases m = Ok m' → well_named m'.
Proof.
  revert m. induction aliases as [|[name json] aliases IH]; intros m Hm; simpl; [by intros [= <-]|].
  destruct (json_get json "column" ≫= json_as_str) as [c|]; [|done].
  destruct (m !! c) as [[[? ?] t]|]; [|by apply IH].
  destruct (json_value_to_search_field_config t json) as [config| | |] eqn:Hc; [|done..]. simpl.
  apply IH, well_named_insert; [done|]. by eapply json_value_sound.
Qed.

(** ** The order of the aliases *)

(** no alias is the column of another *)
Definition no_chains aliases : Prop :=
  Forall (λ a : string * Json, ∀ c, alias_column a.2 = Some c → c ∉ aliases.*1) aliases.

Lemma alias_fields_perm aliases aliases' m m' :
  aliases ≡ₚ aliases' → NoDup aliases.*1 → no_chains aliases →
  alias_fields aliases m = Ok m' → alias_fields aliases' m = Ok m'.
Proof.
  intros Hp. unfold no_chains. revert m. induction Hp as [|[name json] l l' Hp IH|[n2 j2] [n1 j1] l|l1 l2 l3 Hp1 IH1 Hp2 IH2];
    intros m Hnd Hch; simpl.
  - done.
  - apply NoDup_cons in Hnd as [_ Hnd]. apply Forall_cons in Hch as [_ Hch].
    assert (Forall (λ a : string * Json, ∀ c, alias_column a.2 = Some c → c ∉ l.*1) l) as Hch'.
    { eapply Forall_impl; [exact Hch|]. simpl. intros a Ha c Hc. specialize (Ha c Hc). set_solver. }
    destruct (json_get json "column" ≫= json_as_str) as [c|]; [|done].
    destruct (m !! c) as [[[? ?] t]|]; [|by apply IH].
    destruct (json_value_to_search_field_config t json) as [config| | |]; [|done..]. by apply IH.
  - apply NoDup_cons in Hnd as [Hne _]. apply Forall_cons in Hch as [Hj1 Hch].
    apply Forall_cons in Hch as [Hj2 _]. unfold alias_column in *. simpl in *.
    destruct (json_get j1 "column" ≫= json_as_str) as [c1|]; [|done].
    destruct (json_get j2 "column" ≫= json_as_str) as [c2|].
    2: { by destruct (m !! c1) as [[[? ?] t1]|]; [destruct (json_value_to_search_field_config t1 j1)|]. }
    assert (n1 ≠ n2) as Hn by set_solver.
    assert (c2 ≠ n1) as Hc2 by (specialize (Hj2 c2 eq_refl); set_solver).
    assert (c1 ≠ n2) as Hc1 by (specialize (Hj1 c1 eq_refl); set_solver).
    destruct (m !! c1) as [[[? ?] t1]|] eqn:Hm1, (m !! c2) as [[[? ?] t2]|] eqn:Hm2; simpl;
      try (destruct (json_value_to_search_field_config t1 j1) as [f1| | |] eqn:Hf1; simpl);
      try (destruct (json_value_to_search_field_config t2 j2) as [f2| | |] eqn:Hf2; simpl);
      repeat (rewrite ?lookup_insert_ne, ?Hm1, ?Hm2, ?Hf1, ?Hf2 by done; simpl); try done.
    by rewrite insert_insert_ne.
  - intros Hrun. apply IH2; [by rewrite <- Hp1| |by apply IH1].
    eapply Forall_impl; [by rewrite <- Hp1|]. simpl. intros a Ha c Hc. rewrite <- Hp1. by apply Ha.
Qed.
End fields_lemmas.

(** ** What [get_fields] returns *)

Section get_fields_lemmas.
Context `{SerdeLanguage} `{SerdeRecord} `{SerdeJsonText} `{PgTypes}.
Implicit Types (heap : TupleDesc).

(** everything of a run but the iteration of the maps: the key field and its type, what
    is left of the configurations, and the fields before the aliases *)
Definition run_base (rd : option SearchIndexCreateOptions) heap (attrs : list Z) (key : string)
    (t : SearchFieldType) (left_configs : gmap string Json) (base : gmap string FieldSpec) : Prop :=
  let opts := default options_alloc0 rd in
  check_configured opts (name_type_map heap) = Ok () ∧
  get_key_field opts = Some key ∧ name_type_map heap !! key = Some t ∧
  ∃ configs cols, config_by_name opts = Ok configs ∧
    column_fields heap key attrs configs ∅ = Ok (left_configs, cols) ∧
    base = <[key := (key, key_config_stored true t, t)]> cols.

(** the vector that [get_fields] of [postgres/index.rs] makes of the map *)
Definition with_key (key : string) (t : SearchFieldType) (fields : list FieldSpec) : list FieldSpec :=
  filter (λ f : FieldSpec, f.1.1 ≠ key) fields ++ [(key, key_config t, t)].

Lemma position_with_key key t fields :
  position_of (λ f : FieldSpec, String.eqb f.1.1 key) (with_key key t fields) =
  Some (zlen (with_key key t fields) - 1).
Proof.
  unfold with_key. rewrite position_of_first.
  - f_equal. rewrite zlen_app. unfold zlen. simpl. lia.
  - apply Forall_forall. intros f [Hf _]%list_elem_of_filter. by apply String.eqb_neq.
  - apply String.eqb_refl.
Qed.

Lemma znth_with_key key t fields :
  znth (with_key key t fields) (zlen (with_key key t fields) - 1) = Some (key, key_config t, t).
Proof.
  unfold with_key. rewrite zlen_app. change (zlen [(key, key_config t, t)]) with 1. rewrite Z.add_simpl_r.
  rewrite znth_lookup by apply zlen_nonneg. unfold zlen. rewrite Nat2Z.id. by apply list_lookup_middle.
Qed.

Lemma get_fields_iff `{HI : HashIteration} rd heap attrs fields k :
  get_fields rd heap attrs = Ok (fields, k) ↔
  ∃ key t left_configs base m, run_base rd heap attrs key t left_configs base ∧
    alias_fields (configs_iter left_configs) base = Ok m ∧
    fields = with_key key t (fields_iter m) ∧ k = zlen fields - 1 ∧ zlen fields ≠ 1.
Proof.
  unfold get_fields, run_base, options_get_fields, get_fields_by_name, get_key_field_config.
  split.
  - destruct (check_configured _ _) as [[]| | |] eqn:Hc; [|done..]. simpl.
    destruct (get_key_field _) as [key|] eqn:Hk; [|done]. simpl.
    destruct (name_type_map heap !! key) as [t|] eqn:Ht; [|done]. simpl.
    destruct (config_by_name _) as [configs| | |] eqn:Hcfg; [|done..]. simpl.
    destruct (column_fields _ _ _ _ _) as [[left_configs cols]| | |] eqn:Hcols; [|done..]. simpl.
    destruct (alias_fields _ _) as [m| | |] eqn:Hm; [|done..]. cbn [mbind outcome_bind].
    fold (with_key key t (fields_iter m)). rewrite position_with_key. cbn [expect_ok mbind outcome_bind].
    destruct (Z.eqb_spec (zlen (with_key key t (fields_iter m))) 1) as [|Hne]; [done|]. intros [= <- <-].
    exists key, t, left_configs. eexists _, m. split; [|done].
    split; [done|]. split; [done|]. split; [done|]. by exists configs, cols.
  - intros (key & t & left_configs & base & m & (-> & -> & Ht & configs & cols & Hcfg & Hcols & ->) & Hm & Hf & Hk & Hne).
    cbn [mbind outcome_bind expect_ok]. rewrite Ht. cbn [mbind outcome_bind expect_ok]. rewrite Hcfg.
    cbn [mbind outcome_bind]. rewrite Hcols. cbn [mbind outcome_bind]. rewrite Hm. cbn [mbind outcome_bind].
    fold (with_key key t (fields_iter m)). rewrite position_with_key. cbn [expect_ok mbind outcome_bind].
    rewrite <- Hf. destruct (Z.eqb_spec (zlen fields) 1); [done|]. by subst k.
Qed.

Lemma run_base_unique rd heap attrs key t l b key' t' l' b' :
  run_base rd heap attrs key t l b → run_base rd heap attrs key' t' l' b' →
  key' = key ∧ t' = t ∧ l' = l ∧ b' = b.
Proof.
  intros (_ & Hk & Ht & c & cols & Hc & Hcols & ->) (_ & Hk' & Ht' & c' & cols' & Hc' & Hcols' & ->).
  rewrite Hk in Hk'. injection Hk' as <-. rewrite Ht in Ht'. injection Ht' as <-.
  rewrite Hc in Hc'. injection Hc' as <-. rewrite Hcols in Hcols'. by injection Hcols' as <- <-.
Qed.
Lemma run_base_well_named rd heap attrs key t l b : run_base rd heap attrs key t l b → well_named b.
Proof.
  intros (_ & _ & _ & configs & cols & _ & Hcols & ->). apply well_named_insert; [|apply key_config_sound].
  eapply column_fields_well_named; [|exact Hcols]. apply map_Forall_empty.
Qed.

Lemma fields_iter_names `{HI : HashIteration} m :
  well_named m → spec_names (fields_iter m) ≡ₚ (map_to_list m).*1.
Proof.
  intros Hm. etrans; [apply fmap_Permutation, fields_iter_perm|]. apply Permutation_refl'.
  assert (Forall (λ nf : string * FieldSpec, nf.2.1.1 = nf.1) (map_to_list m)) as Hl.
  { apply Forall_forall. intros [name f] Hin%elem_of_map_to_list. by apply Hm. }
  induction Hl as [|[name f] l Hn _ IH]; [done|]. rewrite !fmap_cons, IH. by f_equal.
Qed.
Lemma with_key_ok key t fields :
  Forall sound fields → NoDup (spec_names fields) →
  Forall sound (with_key key t fields) ∧ NoDup (spec_names (with_key key t fields)).
Proof.
  intros Hf Hnd. unfold with_key, spec_names in *. split.
  - apply Forall_app. split.
    { apply Forall_forall. intros f [_ Hin]%list_elem_of_filter. rewrite Forall_forall in Hf. by apply Hf. }
    apply Forall_singleton. apply key_config_sound.
  - rewrite fmap_app. apply NoDup_app. split; [|split; [|apply NoDup_singleton]].
    + clear Hf. induction fields as [|f fields IH]; [done|]. apply NoDup_cons in Hnd as [Hn Hnd].
      destruct (decide (f.1.1 ≠ key)) as [Hne|Hne].
      * rewrite filter_cons_True by done. simpl. apply NoDup_cons. split; [|by apply IH].
        intros (g & Hg & [_ Hin]%list_elem_of_filter)%list_elem_of_fmap. apply Hn. rewrite Hg.
        by apply (list_elem_of_fmap_2 (λ spec : FieldSpec, spec.1.1)).
      * rewrite filter_cons_False by done. by apply IH.
    + intros x (f & -> & [Hne _]%list_elem_of_filter)%list_elem_of_fmap. simpl.
      intros Hx%list_elem_of_singleton. done.
Qed.

Lemma get_fields_ok `{HI : HashIteration} rd heap attrs fields k :
  get_fields rd heap attrs = Ok (fields, k) → Forall sound fields ∧ NoDup (spec_names fields).
Proof.
  intros (key & t & l & b & m & Hb & Hm & -> & _ & _)%get_fields_iff.
  apply run_base_well_named in Hb. apply (alias_fields_well_named _ _ _ Hb) in Hm. apply with_key_ok.
  - rewrite fields_iter_perm. apply Forall_fmap, Forall_forall. intros [name f] Hin%elem_of_map_to_list.
    by destruct (Hm name f Hin).
  - rewrite (fields_iter_names m Hm). apply NoDup_fst_map_to_list.
Qed.

Lemma name_type_map_snoc heap name oid :
  name_type_map (heap ++ [(name, oid)]) =
    match search_field_type (base_oid oid) with
    | Ok t => <[name := t]> (name_type_map heap)
    | _ => name_type_map heap
    end.
Proof. unfold name_type_map. by rewrite foldl_app. Qed.
Lemma name_type_map_column heap name oid t :
  NoDup heap.*1 → (name, oid) ∈ heap → name_type_map heap !! name = Some t →
  search_field_type (base_oid oid) = Ok t.
Proof.
  induction heap as [|[n o] heap IH] using rev_ind; [by intros _ ?%not_elem_of_nil|].
  rewrite fmap_app, NoDup_app, name_type_map_snoc, elem_of_app, list_elem_of_singleton.
  intros (Hnd & Hn & _) Hin. destruct (decide (n = name)) as [->|Hne].
  - assert (name ∉ heap.*1) as Hni by (intros Hx; apply (Hn _ Hx); by left).
    destruct Hin as [Hin|[= ->]]; [by apply (list_elem_of_fmap_2 fst) in Hin|].
    assert (name_type_map heap !! name = None) as Hnone.
    { clear -Hni. induction heap as [|[n o] heap IH] using rev_ind; [done|]. rewrite name_type_map_snoc.
      rewrite fmap_app, elem_of_app in Hni. simpl in Hni. rewrite list_elem_of_singleton in Hni.
      destruct (search_field_type _); rewrite ?lookup_insert_ne by (intros ->; tauto); apply IH; tauto. }
    destruct (search_field_type (base_oid o)); rewrite ?lookup_insert_eq, ?Hnone; try done. by intros [= ->].
  - destruct Hin as [Hin|[= -> ->]]; [|done]. intros Ht. apply IH; [done..|].
    destruct (search_field_type (base_oid o)); by rewrite ?lookup_insert_ne in Ht.
Qed.

(** no alias is the column of another, in whatever order *)
Definition no_alias_chains (left_configs : gmap string Json) : Prop :=
  map_Forall (λ _ json, ∀ c, alias_column json = Some c → left_configs !! c = None) left_configs.
Lemma no_chains_iter `{HI : HashIteration} l :
  no_alias_chains l → NoDup (configs_iter l).*1 ∧ no_chains (configs_iter l).
Proof.
  intros Hl. split; [rewrite configs_iter_perm; apply NoDup_fst_map_to_list|].
  unfold no_chains. rewrite configs_iter_perm. apply Forall_forall. intros [name json] Hin%elem_of_map_to_list c Hc.
  rewrite configs_iter_perm. intros ([c' v] & -> & Hin')%list_elem_of_fmap. apply elem_of_map_to_list in Hin'.
  simpl in *. specialize (Hl name json Hin c' Hc). congruence.
Qed.
End get_fields_lemmas.

(** ** The fields of an index, described by its columns and its options *)

Section described.
Context `{SerdeLanguage} `{SerdeRecord} `{SerdeJsonText} `{PgTypes}.
Implicit Types (heap cs : TupleDesc) (configs : gmap string Json).

(** the columns of the index *)
Definition index_columns heap (attrs : list Z) : TupleDesc := omap (λ a, znth heap (a - 1)) attrs.

Definition of_column configs (name : string) (oid : PgOid) (f : FieldSpec) : Prop :=
  f.1.1 = name ∧ search_field_type (base_oid oid) = Ok f.2 ∧
  json_value_to_search_field_config f.2 (default (JObject []) (configs !! name)) = Ok f.1.2.

Lemma column_field_inv heap key configs a left_configs f :
  column_field heap key configs a = Ok (left_configs, f) →
  ∃ name oid, znth heap (a - 1) = Some (name, oid) ∧ left_configs = delete name configs ∧ of_column configs name oid f.
Proof.
  unfold column_field, of_column. destruct (znth heap (a - 1)) as [[name oid]|]; [|done]. simpl.
  destruct (search_field_type (base_oid oid)) as [t| | |] eqn:Ht; [|done..]. simpl.
  destruct (_ && _); [done|].
  destruct (json_value_to_search_field_config t _) as [c| | |] eqn:Hc; [|done..]. intros [= <- <-].
  by exists name, oid.
Qed.

Lemma column_fields_spec heap key attrs configs m left_configs m' :
  column_fields heap key attrs configs m = Ok (left_configs, m') →
  NoDup (index_columns heap attrs).*1 →
  (∀ name, left_configs !! name = if decide (name ∈ (index_columns heap attrs).*1) then None else configs !! name) ∧
  (∀ name f, m' !! name = Some f ↔
     (∃ oid, (name, oid) ∈ index_columns heap attrs ∧ of_column configs name oid f) ∨
     (name ∉ (index_columns heap attrs).*1 ∧ m !! name = Some f)).
Proof.
  revert configs m. induction attrs as [|a attrs IH]; intros configs m; cbn [column_fields index_columns omap list_omap].
  { intros [= <- <-] _. split; [intros name; by rewrite decide_False by apply not_elem_of_nil|].
    intros name f. split; [right; split; [apply not_elem_of_nil|done]|].
    intros [(oid & []%not_elem_of_nil & _)|[_ ?]]; done. }
  destruct (column_field heap key configs a) as [[configs1 f1]| | |] eqn:Hf; [|done..].
  apply column_field_inv in Hf as (name1 & oid1 & Ha & -> & Hf1). rewrite Ha. cbn [mbind outcome_bind]. rewrite fmap_cons. intros Hrun [Hn1 Hnd]%NoDup_cons.
  fold (index_columns heap attrs) in *.
  destruct (IH _ _ Hrun Hnd) as [Hleft Hm']. pose proof Hf1 as [Hname1 _]. split.
  - intros name. rewrite Hleft. destruct (decide (name = name1)) as [->|Hne].
    + rewrite decide_False by done. rewrite decide_True by by left. apply lookup_delete_eq.
    + rewrite lookup_delete_ne by done. repeat case_decide; set_solver.
  - intros name f. rewrite Hm', Hname1. setoid_rewrite elem_of_cons. split.
    + intros [(oid & Hin & Hf)|[Hn Hf]].
      * left. exists oid. split; [by right|]. unfold of_column in *.
        rewrite lookup_delete_ne in Hf; [done|]. intros ->. apply Hn1. by apply (list_elem_of_fmap_2 fst) in Hin.
      * destruct (decide (name = name1)) as [->|Hne].
        -- rewrite lookup_insert_eq in Hf. injection Hf as <-. left. exists oid1. split; [by left|done].
        -- rewrite lookup_insert_ne in Hf by done. right. split; [|done]. intros [?|?]; done.
    + intros [(oid & [[= -> ->]|Hin] & Hf)|[Hn Hf]].
      * right. split; [done|]. rewrite lookup_insert_eq. f_equal. destruct Hf1 as (H1n & H1t & H1c), Hf as (Hfn & Hft & Hfc).
        destruct f1 as [[n1 c1] t1], f as [[n c] t]. simpl in *. congruence.
      * left. exists oid. split; [done|]. unfold of_column in *. rewrite lookup_delete_ne; [done|].
        intros ->. apply Hn1. by apply (list_elem_of_fmap_2 fst) in Hin.
      * right. split; [tauto|]. rewrite lookup_insert_ne; [done|]. intros ->. tauto.
Qed.

Lemma column_fields_dom heap key attrs configs m left_configs m' :
  column_fields heap key attrs configs m = Ok (left_configs, m') →
  ∀ name, is_Some (m !! name) ∨ name ∈ (index_columns heap attrs).*1 → is_Some (m' !! name).
Proof.
  revert configs m. induction attrs as [|a attrs IH]; intros configs m; cbn [column_fields index_columns omap list_omap].
  { intros [= <- <-] name [?|Hin%not_elem_of_nil]; done. }
  destruct (column_field heap key configs a) as [[configs1 f1]| | |] eqn:Hf; [|done..].
  apply column_field_inv in Hf as (name1 & oid1 & -> & -> & Hn & _). cbn [mbind outcome_bind].
  fold (index_columns heap attrs). rewrite Hn, fmap_cons. intros Hrun name Hname. apply (IH _ _ Hrun).
  destruct Hname as [Hname|[->|?]%elem_of_cons]; [|left; rewrite lookup_insert_eq; by eexists|by right].
  left. apply lookup_insert_is_Some'. by right.
Qed.
Lemma assoc_unique {A} (l : list (string * A)) k v v' :
  NoDup l.*1 → (k, v) ∈ l → (k, v') ∈ l → v = v'.
Proof.
  intros Hnd [i Hi]%list_elem_of_lookup [j Hj]%list_elem_of_lookup.
  assert (i = j) as <- by (eapply NoDup_lookup; [exact Hnd|..]; rewrite list_lookup_fmap; [by rewrite Hi|by rewrite Hj]).
  congruence.
Qed.

(** the field of an alias, from the fields of the columns *)
Definition of_alias (m : gmap string FieldSpec) (name : string) (json : Json) (f : FieldSpec) : Prop :=
  ∃ c g, alias_column json = Some c ∧ m !! c = Some g ∧ f.2 = g.2 ∧ f.1.1 = name ∧
    json_value_to_search_field_config g.2 json = Ok f.1.2.

Lemma alias_fields_spec aliases m m' :
  alias_fields aliases m = Ok m' → NoDup aliases.*1 → no_chains aliases →
  Forall (λ a, m !! a = None) aliases.*1 →
  ∀ name f, m' !! name = Some f ↔
    m !! name = Some f ∨ ∃ json, (name, json) ∈ aliases ∧ of_alias m name json f.
Proof.
  unfold no_chains. revert m. induction aliases as [|[name1 json1] aliases IH]; intros m Hrun Hnd Hch Hfresh name f; simpl in *.
  { injection Hrun as <-. split; [by left|]. intros [?|(json & []%not_elem_of_nil & _)]; done. }
  apply NoDup_cons in Hnd as [Hn1 Hnd]. apply Forall_cons in Hch as [Hc1 Hch], Hfresh as [Hf1 Hfresh]. simpl in *.
  assert (Forall (λ a : string * Json, ∀ c, alias_column a.2 = Some c → c ∉ aliases.*1) aliases) as Hch'.
  { eapply Forall_impl; [exact Hch|]. simpl. intros a Ha c Hc. specialize (Ha c Hc). set_solver. }
  unfold alias_column in Hc1. fold (alias_column json1) in Hrun, Hc1.
  destruct (alias_column json1) as [c|] eqn:Hcol; [|done].
  specialize (Hc1 c eq_refl). apply not_elem_of_cons in Hc1 as [Hc1 _].
  setoid_rewrite elem_of_cons.
  destruct (m !! c) as [[[nc cc] t]|] eqn:Hmc.
  - destruct (json_value_to_search_field_config t json1) as [config| | |] eqn:Hconf; [|done..]. simpl in Hrun.
    assert (Forall (λ a, <[name1 := (name1, config, t)]> m !! a = None) aliases.*1) as Hfresh'.
    { rewrite Forall_forall in *. intros a Ha. rewrite lookup_insert_ne; [by apply Hfresh|]. by intros ->. }
    rewrite (IH _ Hrun Hnd Hch' Hfresh' name f).
    assert (∀ json, (name, json) ∈ aliases → of_alias (<[name1 := (name1, config, t)]> m) name json f ↔ of_alias m name json f) as Hsame.
    { intros json Hin. unfold of_alias. rewrite Forall_forall in Hch. specialize (Hch _ Hin). simpl in Hch.
      split; intros (c' & g & Hc' & Hg & Hrest); exists c', g; (split; [done|]); (split; [|done]);
        specialize (Hch c' Hc'); apply not_elem_of_cons in Hch as [Hch _];
        [by rewrite lookup_insert_ne in Hg|by rewrite lookup_insert_ne]. }
    split.
    + intros [Hf|(json & Hin & Hf)].
      * apply lookup_insert_Some in Hf as [[<- <-]|[_ Hf]]; [|by left].
        right. exists json1. split; [by left|]. by exists c, (nc, cc, t).
      * right. exists json. split; [by right|]. by apply Hsame.
    + intros [Hf|(json & [[= -> ->]|Hin] & Hf)].
      * left. rewrite lookup_insert_ne; [done|]. intros ->. congruence.
      * left. rewrite lookup_insert_eq. destruct Hf as (c' & g & Hc' & Hg & Hty & Hnm & Hcf).
        rewrite Hcol in Hc'. injection Hc' as <-. rewrite Hmc in Hg. injection Hg as <-.
        destruct f as [[? ?] ?]. simpl in *. congruence.
      * right. exists json. split; [done|]. by apply Hsame.
  - rewrite (IH _ Hrun Hnd Hch' Hfresh name f). split.
    + intros [?|(json & ? & ?)]; [by left|]. right. exists json. split; [by right|done].
    + intros [?|(json & [[= -> ->]|Hin] & Hf)]; [by left| |right; by exists json].
      destruct Hf as (c' & g & Hc' & Hg & _). rewrite Hcol in Hc'. injection Hc' as <-. congruence.
Qed.

(** the loop over the aliases ends without a panic exactly when each names a column and has
    a configuration for its type, where the column has a field *)
Lemma alias_fields_succeeds aliases m :
  no_chains aliases →
  (∃ m', alias_fields aliases m = Ok m') ↔
  ∀ name json, (name, json) ∈ aliases →
    ∃ c, alias_column json = Some c ∧
      ∀ g, m !! c = Some g → ∃ config, json_value_to_search_field_config g.2 json = Ok config.
Proof.
  unfold no_chains. revert m. induction aliases as [|[name1 json1] aliases IH]; intros m Hch; simpl.
  { split; [by intros _ ? ? []%not_elem_of_nil|by eexists]. }
  apply Forall_cons in Hch as [Hc1 Hch]. simpl in Hc1.
  assert (Forall (λ a : string * Json, ∀ c, alias_column a.2 = Some c → c ∉ aliases.*1) aliases) as Hch'.
  { eapply Forall_impl; [exact Hch|]. simpl. intros a Ha c Hc. specialize (Ha c Hc). set_solver. }
  fold (alias_column json1). destruct (alias_column json1) as [c|] eqn:Hcol.
  2: { split; [by intros [? ?]|]. intros Hall. destruct (Hall name1 json1) as (c & Hc & _); [by left|congruence]. }
  setoid_rewrite elem_of_cons. destruct (m !! c) as [[[nc cc] t]|] eqn:Hmc.
  2: { rewrite (IH m Hch'). split; [|by intros Hall name json Hin; apply (Hall name json); right].
       intros Hall name json [[= -> ->]|Hin]; [|by apply (Hall name json)]. exists c. split; [done|]. congruence. }
  assert (∀ config name json c', (name, json) ∈ aliases → alias_column json = Some c' →
    <[name1 := (name1, config, t)]> m !! c' = m !! c') as Hsame.
  { intros config name json c' Hin Hc'. rewrite Forall_forall in Hch. specialize (Hch _ Hin c' Hc').
    apply not_elem_of_cons in Hch as [Hne _]. by apply lookup_insert_ne. }
  destruct (json_value_to_search_field_config t json1) as [config| | |] eqn:Hconf; simpl.
  2-4: split; [by intros [? ?]|]; intros Hall; destruct (Hall name1 json1) as (c' & Hc' & Hg); [by left|];
    rewrite Hcol in Hc'; injection Hc' as <-; destruct (Hg _ Hmc) as [? Hg']; simpl in Hg'; congruence.
  rewrite (IH _ Hch'). split; intros Hall name json Hin.
  - destruct Hin as [[= -> ->]|Hin].
    + exists c. split; [done|]. rewrite Hmc. intros g [= <-]. by exists config.
    + destruct (Hall name json Hin) as (c' & Hc' & Hg). exists c'. split; [done|].
      by rewrite (Hsame config name json c' Hin Hc') in Hg.
  - destruct (Hall name json) as (c' & Hc' & Hg); [by right|]. exists c'. split; [done|].
    by rewrite (Hsame config name json c' Hin Hc').
Qed.

(** the type a column has in the index: the key field's comes from the table *)
Definition column_type cs (key : string) (kt : SearchFieldType) (c : string) (t : SearchFieldType) : Prop :=
  if decide (c = key) then t = kt
  else ∃ oid, (c, oid) ∈ cs ∧ search_field_type (base_oid oid) = Ok t.

Inductive field_described cs configs (key : string) (kt : SearchFieldType) : FieldSpec → Prop :=
  | described_key : field_described cs configs key kt (key, key_config kt, kt)
  | described_column name oid t config :
      name ≠ key → (name, oid) ∈ cs → search_field_type (base_oid oid) = Ok t →
      json_value_to_search_field_config t (default (JObject []) (configs !! name)) = Ok config →
      field_described cs configs key kt (name, config, t)
  | described_alias name json c t config :
      name ∉ cs.*1 → configs !! name = Some json → alias_column json = Some c →
      column_type cs key kt c t →
      json_value_to_search_field_config t json = Ok config →
      field_described cs configs key kt (name, config, t).

(** no alias is the column of another one *)
Definition chain_free cs configs : Prop :=
  ∀ name json c, configs !! name = Some json → name ∉ cs.*1 → alias_column json = Some c →
    configs !! c = None ∨ c ∈ cs.*1.

Lemma left_chain_free cs configs left_configs :
  (∀ name, left_configs !! name = if decide (name ∈ cs.*1) then None else configs !! name) →
  chain_free cs configs ↔ no_alias_chains left_configs.
Proof.
  intros Hleft. unfold chain_free, no_alias_chains. split.
  - intros Hch name json Hj c Hc. rewrite Hleft in *. destruct (decide (name ∈ cs.*1)); [done|].
    destruct (decide (c ∈ cs.*1)); [done|]. by destruct (Hch name json c Hj ltac:(done) Hc).
  - intros Hch name json c Hj Hn Hc. destruct (decide (c ∈ cs.*1)) as [|Hnc]; [by right|]. left.
    specialize (Hch name json). rewrite Hleft, decide_False in Hch by done. specialize (Hch Hj c Hc).
    by rewrite Hleft, decide_False in Hch by done.
Qed.

(** every alias names a column, with a configuration for its type where it is in the index *)
Definition aliases_valid cs configs (key : string) (kt : SearchFieldType) : Prop :=
  ∀ name json, configs !! name = Some json → name ∉ cs.*1 →
    ∃ c, alias_column json = Some c ∧
      ∀ t, column_type cs key kt c t → ∃ config, json_value_to_search_field_config t json = Ok config.

(** the fields before the aliases are those of the columns, with the key's *)
Lemma base_columns heap key kt attrs configs left_configs cols :
  let cs := index_columns heap attrs in
  let base := <[key := (key, key_config_stored true kt, kt)]> cols in
  column_fields heap key attrs configs ∅ = Ok (left_configs, cols) → NoDup cs.*1 →
  (∀ c g, base !! c = Some g → c ≠ key → ∃ oid, (c, oid) ∈ cs ∧ of_column configs c oid g) ∧
  (∀ c t, column_type cs key kt c t ↔ ∃ g, base !! c = Some g ∧ g.2 = t).
Proof.
  intros cs base Hcols Hnd. destruct (column_fields_spec _ _ _ _ _ _ _ Hcols Hnd) as [_ Hspec].
  assert (∀ c g, base !! c = Some g → c ≠ key → ∃ oid, (c, oid) ∈ cs ∧ of_column configs c oid g) as Hbase.
  { intros c g Hg Hc. unfold base in Hg. rewrite lookup_insert_ne in Hg by done.
    apply Hspec in Hg as [?|[_ ?]]; done. }
  split; [done|]. intros c t. unfold column_type. case_decide as Hc.
  { subst c. unfold base. rewrite lookup_insert_eq. split; [intros ->; by eexists|by intros (g & [= <-] & <-)]. }
  split.
  - intros (oid & Hin & Ht). unfold base. rewrite lookup_insert_ne by done.
    destruct (column_fields_dom _ _ _ _ _ _ _ Hcols c) as [g Hg];
      [right; by apply (list_elem_of_fmap_2 fst) in Hin|].
    exists g. split; [done|]. apply Hspec in Hg as [(oid' & Hin' & _ & Ht' & _)|[_ ?]]; [|done].
    rewrite (assoc_unique cs c oid' oid) in Ht' by done. congruence.
  - intros (g & Hg & <-). destruct (Hbase c g Hg Hc) as (oid & Hin & _ & Ht & _). by exists oid.
Qed.
Lemma left_entries `{HI : HashIteration} heap key attrs configs left_configs cols :
  column_fields heap key attrs configs ∅ = Ok (left_configs, cols) → NoDup (index_columns heap attrs).*1 →
  ∀ name json, (name, json) ∈ configs_iter left_configs ↔
    name ∉ (index_columns heap attrs).*1 ∧ configs !! name = Some json.
Proof.
  intros Hcols Hnd name json. destruct (column_fields_spec _ _ _ _ _ _ _ Hcols Hnd) as [Hleft _].
  rewrite configs_iter_perm, elem_of_map_to_list, Hleft. case_decide; naive_solver.
Qed.

(** the aliases are added without a panic exactly when they are valid *)
Lemma aliases_succeed `{HI : HashIteration} heap key kt attrs configs left_configs cols :
  let cs := index_columns heap attrs in
  column_fields heap key attrs configs ∅ = Ok (left_configs, cols) → NoDup cs.*1 → chain_free cs configs →
  (∃ m, alias_fields (configs_iter left_configs) (<[key := (key, key_config_stored true kt, kt)]> cols) = Ok m) ↔
  aliases_valid cs configs key kt.
Proof.
  intros cs Hcols Hnd Hch. destruct (column_fields_spec _ _ _ _ _ _ _ Hcols Hnd) as [Hleft _].
  apply (left_chain_free _ _ _ Hleft), no_chains_iter in Hch as [_ Hch].
  rewrite (alias_fields_succeeds _ _ Hch). pose proof (left_entries _ _ _ _ _ _ Hcols Hnd) as Hentries.
  destruct (base_columns _ _ kt _ _ _ _ Hcols Hnd) as [_ Hty]. unfold aliases_valid. split.
  - intros Hall name json Hj Hn. destruct (Hall name json) as (c & Hc & Hg); [by apply Hentries|].
    exists c. split; [done|]. intros t (g & Hg' & <-)%Hty. by apply Hg.
  - intros Hall name json [Hn Hj]%Hentries. destruct (Hall name json Hj Hn) as (c & Hc & Ht).
    exists c. split; [done|]. intros g Hg. apply Ht, Hty. by exists g.
Qed.

(** the map of fields before the key is moved to the end *)
Lemma map_described `{HI : HashIteration} rd heap attrs key kt left_configs base m configs :
  let cs := index_columns heap attrs in
  run_base rd heap attrs key kt left_configs base →
  alias_fields (configs_iter left_configs) base = Ok m →
  config_by_name (default options_alloc0 rd) = Ok configs →
  NoDup cs.*1 → key ∈ cs.*1 → chain_free cs configs →
  ∀ f, f.1.1 ≠ key → (m !! f.1.1 = Some f ↔ field_described cs configs key kt f).
Proof.
  intros cs (_ & _ & _ & configs' & cols & Hcfg & Hcols & ->) Hm Hcfg' Hnd Hkey Hch f Hf.
  rewrite Hcfg in Hcfg'. injection Hcfg' as ->.
  destruct (column_fields_spec _ _ _ _ _ _ _ Hcols Hnd) as [Hleft Hspec].
  apply (left_chain_free _ _ _ Hleft), no_chains_iter in Hch as [Hnd' Hch].
  destruct (base_columns _ _ kt _ _ _ _ Hcols Hnd) as [Hbase Hty].
  pose proof (left_entries _ _ _ _ _ _ Hcols Hnd) as Halias.
  set (base := <[key := _]> cols) in *.
  rewrite (alias_fields_spec _ _ _ Hm Hnd' Hch).
  2: { apply Forall_forall. intros a ([a' json] & -> & Hin)%list_elem_of_fmap. apply Halias in Hin as [Hn _]. simpl in *.
       destruct (base !! a') as [g|] eqn:Hg; [|done]. destruct (decide (a' = key)) as [->|Hne]; [done|].
       destruct (Hbase a' g Hg Hne) as (oid & Hin & _). by apply (list_elem_of_fmap_2 fst) in Hin. }
  destruct f as [[name config] t]. simpl in Hf. split.
  - intros [Hb|(json & [Hn Hj]%Halias & c & g & Hc & Hg & Htg & _ & Hconf)].
    + destruct (Hbase name _ Hb Hf) as (oid & Hin & _ & Ht & Hconf). by eapply described_column.
    + simpl in *. rewrite <- Htg in Hconf. eapply described_alias; [done..| |done]. apply Hty. by exists g.
  - intros Hd. inversion Hd as [|? oid ? ? Hne Hin Ht Hconf|? json c ? ? Hn Hj Hc Hct Hconf]; subst; [done| |].
    + left. unfold base. rewrite lookup_insert_ne by done. apply Hspec. left. by exists oid.
    + right. exists json. split; [by apply Halias|]. exists c. apply Hty in Hct as (g & Hg & Hgt). exists g. by rewrite Hgt.
Qed.
End described.

Section options_theorems.
Context `{SerdeLanguage} `{SerdeRecord} `{SerdeJsonText} `{PgTypes}.
Implicit Types (heap : TupleDesc).

(** another run, with other iteration orders, gives the same fields and the same key *)
Lemma get_fields_rerun (HI1 HI2 : HashIteration) rd heap attrs fields k :
  get_fields (HI := HI1) rd heap attrs = Ok (fields, k) →
  (∀ key t l b, run_base rd heap attrs key t l b → no_alias_chains l) →
  ∃ fields' k', get_fields (HI := HI2) rd heap attrs = Ok (fields', k') ∧
    fields' ≡ₚ fields ∧ znth fields' k' = znth fields k ∧ is_Some (znth fields k).
Proof.
  intros (key & t & l & b & m & Hb & Hm & -> & -> & Hne)%get_fields_iff Hch.
  destruct (no_chains_iter (HI := HI1) l (Hch _ _ _ _ Hb)) as [Hnd Hnc].
  assert (alias_fields (configs_iter (HashIteration := HI2) l) b = Ok m) as Hm2.
  { eapply alias_fields_perm; [|done..|exact Hm]. by rewrite !configs_iter_perm. }
  assert (with_key key t (fields_iter (HashIteration := HI2) m) ≡ₚ with_key key t (fields_iter (HashIteration := HI1) m)) as Hp.
  { unfold with_key. by rewrite !fields_iter_perm. }
  eexists _, _. split; [apply get_fields_iff; exists key, t, l, b, m; split; [done|]; split; [done|]; split; [done|]; split; [done|]|].
  - intros Heq. apply Hne. rewrite <- Heq. unfold zlen. by rewrite Hp.
  - split; [done|]. rewrite !znth_with_key. by split; [|eexists].
Qed.

Lemma described_fields `{HashIteration} (rd : option SearchIndexCreateOptions) heap (attrs : list Z) (key : string)
    (kt : SearchFieldType) (configs : gmap string Json) (fields : list FieldSpec) (k : Z) :
  get_fields rd heap attrs = Ok (fields, k) →
  get_key_field (default options_alloc0 rd) = Some key → name_type_map heap !! key = Some kt →
  config_by_name (default options_alloc0 rd) = Ok configs →
  NoDup (index_columns heap attrs).*1 → key ∈ (index_columns heap attrs).*1 →
  chain_free (index_columns heap attrs) configs →
  NoDup (spec_names fields) ∧ znth fields k = Some (key, key_config kt, kt) ∧
  (∀ f, f ∈ fields ↔ field_described (index_columns heap attrs) configs key kt f).
Proof.
  intros Hrun Hkey Hkt Hcfg Hnd Hkin Hch. split; [by eapply get_fields_ok|].
  apply get_fields_iff in Hrun as (key' & kt' & l & b & m & Hb & Hm & -> & -> & _).
  destruct (Hb) as (_ & Hk' & Hkt' & _). rewrite Hkey in Hk'. injection Hk' as <-. rewrite Hkt in Hkt'. injection Hkt' as <-.
  split; [apply znth_with_key|].
  intros f. unfold with_key. rewrite elem_of_app, list_elem_of_singleton, list_elem_of_filter.
  destruct (decide (f.1.1 = key)) as [Hf|Hf].
  - split; [intros [[? _]|Heq]; [done|subst f; constructor]|]. intros Hd. right. inversion Hd; subst; simpl in *; subst; done.
  - pose proof (map_described rd heap attrs key kt l b m configs Hb Hm Hcfg Hnd Hkin Hch f Hf) as Hd.
    assert (f ∈ fields_iter m ↔ m !! f.1.1 = Some f) as Hin.
    { rewrite fields_iter_perm, list_elem_of_fmap. split.
      - intros ([n g] & -> & Hg%elem_of_map_to_list). simpl. apply run_base_well_named in Hb.
        apply (alias_fields_well_named _ _ _ Hb) in Hm. destruct (Hm n g Hg) as [Hn _]. by rewrite Hn.
      - intros Hg. exists (f.1.1, f). split; [done|]. by apply elem_of_map_to_list. }
    rewrite Hin, Hd. split; [|tauto]. intros [[_ ?]|Heq]; [done|by subst f].
Qed.
(** when it succeeds at all *)
Lemma get_fields_succeeds `{HashIteration} (rd : option SearchIndexCreateOptions) heap (attrs : list Z) (key : string)
    (kt : SearchFieldType) (configs : gmap string Json) :
  let opts := default options_alloc0 rd in
  let cs := index_columns heap attrs in
  get_key_field opts = Some key → name_type_map heap !! key = Some kt → config_by_name opts = Ok configs →
  NoDup cs.*1 → key ∈ cs.*1 → chain_free cs configs →
  (∃ fields k, get_fields rd heap attrs = Ok (fields, k)) ↔
    check_configured opts (name_type_map heap) = Ok () ∧
    (∃ left_configs cols, column_fields heap key attrs configs ∅ = Ok (left_configs, cols)) ∧
    aliases_valid cs configs key kt ∧ ∃ f, field_described cs configs key kt f ∧ f.1.1 ≠ key.
Proof.
  intros opts cs Hkey Hkt Hcfg Hnd Hkin Hch. split.
  - intros (fields & k & Hrun). pose proof (described_fields rd _ _ _ _ _ _ _ Hrun Hkey Hkt Hcfg Hnd Hkin Hch) as (_ & _ & Hf).
    apply get_fields_iff in Hrun as (key' & kt' & l & b & m & (Hc & Hk' & Hkt' & configs' & cols & Hcfg' & Hcols & ->) & Hm & -> & _ & Hne).
    unfold opts in *. rewrite Hkey in Hk'. injection Hk' as <-. rewrite Hkt in Hkt'. injection Hkt' as <-.
    rewrite Hcfg in Hcfg'. injection Hcfg' as <-.
    split; [done|]. split; [by exists l, cols|]. split; [by eapply aliases_succeed; [..|exists m]|].
    destruct (filter (λ f : FieldSpec, f.1.1 ≠ key) (fields_iter m)) as [|f fs] eqn:Hfs.
    { unfold with_key in Hne. by rewrite Hfs in Hne. }
    assert (f ∈ filter (λ f : FieldSpec, f.1.1 ≠ key) (fields_iter m)) as Hin by (rewrite Hfs; left).
    exists f. split; [|by apply list_elem_of_filter in Hin as [? _]].
    apply Hf. unfold with_key. apply elem_of_app. by left.
  - intros (Hc & (l & cols & Hcols) & Hal & f & Hf & Hne).
    apply (aliases_succeed _ _ _ _ _ _ _ Hcols Hnd Hch) in Hal as [m Hm].
    assert (run_base rd heap attrs key kt l (<[key := (key, key_config_stored true kt, kt)]> cols)) as Hb.
    { split; [done|]. split; [done|]. split; [done|]. by exists configs, cols. }
    exists (with_key key kt (fields_iter m)). eexists. apply get_fields_iff.
    exists key, kt, l. eexists _, m. split; [exact Hb|]. split; [done|]. split; [done|]. split; [done|].
    apply (map_described _ _ _ _ _ _ _ _ _ Hb Hm Hcfg Hnd Hkin Hch f Hne) in Hf.
    assert (f ∈ filter (λ f : FieldSpec, f.1.1 ≠ key) (fields_iter m)) as Hin.
    { apply list_elem_of_filter. split; [done|]. rewrite fields_iter_perm. apply list_elem_of_fmap.
      exists (f.1.1, f). split; [done|]. by apply elem_of_map_to_list. }
    unfold with_key, zlen. rewrite length_app. destruct (filter _ _); [by apply not_elem_of_nil in Hin|]. simpl. lia.
Qed.
End options_theorems.

(** C5: The fields of an index whose options read as JSON and whose columns are distinct
    and include the key are exactly those its options describe: the key with its fixed
    configuration, each column with the one given for it or its type's default, and the
    aliases of columns of the index with their column's type, when no alias names
    another alias, in whatever order hash maps then iterate. Making them succeeds
    exactly when the checks of the options and of the columns do, every other entry
    names a column in a string and, if that column is in the index, is valid for its
    type, and there is a field besides the key: an alias of a column that is not in the
    index gives no field and no error. *)
Theorem fields_described_exactly `{SerdeLanguage} `{SerdeRecord} `{SerdeJsonText} `{HashIteration} `{PgTypes}
    (rd : option SearchIndexCreateOptions) (heap : TupleDesc) (attrs : list Z) (key : string) (kt : SearchFieldType)
    (configs : gmap string Json) :
  let opts := default options_alloc0 rd in
  let cs := index_columns heap attrs in
  get_key_field opts = Some key → name_type_map heap !! key = Some kt → config_by_name opts = Ok configs →
  NoDup cs.*1 → key ∈ cs.*1 → chain_free cs configs →
  ((∃ fields k, get_fields rd heap attrs = Ok (fields, k)) ↔
    check_configured opts (name_type_map heap) = Ok () ∧
    (∃ left_configs cols, column_fields heap key attrs configs ∅ = Ok (left_configs, cols)) ∧
    aliases_valid cs configs key kt ∧ ∃ f, field_described cs configs key kt f ∧ f.1.1 ≠ key) ∧
  ∀ fields k, get_fields rd heap attrs = Ok (fields, k) →
    NoDup (spec_names fields) ∧ znth fields k = Some (key, key_config kt, kt) ∧
    (∀ f, f ∈ fields ↔ field_described cs configs key kt f).
Proof.
  intros opts cs Hkey Hkt Hcfg Hnd Hkin Hch. split; [by apply get_fields_succeeds|].
  intros fields k Hrun. by apply (described_fields rd heap attrs).
Qed.

(** C10: When no alias names another alias, an index opens again on the schema that was
    stored when it was created: with the same options and columns every field name finds
    the same field, configuration and type, even when hash maps iterate in another
    order. *)
Theorem index_reopened `{SerdeLanguage} `{SerdeRecord} `{SerdeJsonText} `{PgTypes} `{TantivySchema}
    (HI1 HI2 : HashIteration) (rd : option SearchIndexCreateOptions) (heap : TupleDesc) (attrs : list Z)
    (s : SearchIndexSchema) :
  get_index_schema (HI := HI1) rd heap attrs = Ok s →
  (∀ key t l b, run_base rd heap attrs key t l b → no_alias_chains l) →
  ∃ s', schema_open (sis_schema s) (get_fields (HI := HI2) rd heap attrs) = Ok s' ∧
    (∀ name, get_search_field s' name = get_search_field s name) ∧
    schema_key_field s' = schema_key_field s.
Proof.
  unfold get_index_schema. destruct rd as [rd|]; [|done].
  destruct (get_fields (Some rd) heap attrs) as [[fields k]| | |] eqn:Hf; [|done..]. intros Hs Hch.
  cbn [mbind outcome_bind] in Hs.
  destruct (get_fields_rerun HI1 HI2 _ _ _ _ _ Hf Hch) as (fields' & k' & -> & Hp & Hk & Hsome).
  by apply (schema_open_again fields fields' k).
Qed.

(** The schema of an index is made exactly when no field is called [ctid]: an alias with
    that name panics. Its fields have the ids of their places in the list. *)
Theorem index_schema_made `{SerdeLanguage} `{SerdeRecord} `{SerdeJsonText} `{HashIteration} `{PgTypes} `{TantivySchema}
    (opts : SearchIndexCreateOptions) (heap : TupleDesc) (attrs : list Z) (fields : list FieldSpec) (k : Z) :
  get_fields (Some opts) heap attrs = Ok (fields, k) →
  ("ctid" ∉ spec_names fields →
   ∃ s, get_index_schema (Some opts) heap attrs = Ok s ∧ made_of fields k s) ∧
  ("ctid" ∈ spec_names fields → ∃ msg, get_index_schema (Some opts) heap attrs = Panic msg).
Proof.
  intros Hf. destruct (get_fields_ok _ _ _ _ _ Hf) as [Hsound Hnd].
  assert (Forall fits fields) as Hfits by by eapply Forall_impl; [exact Hsound|intros ? []].
  unfold get_index_schema. rewrite Hf.
  cbn [mbind outcome_bind]. split; intros Hc; [by apply schema_new_ok|].
  apply schema_new_panics. by intros (_ & _ & ?).
Qed.

(** An alias of an alias is a field or not depending on which of the two the hash map
    yields first. *)
Theorem alias_chain_depends_on_order `{SerdeLanguage} `{SerdeRecord} (m : gmap string FieldSpec)
    (a b c : string) (ja jb : Json) (name : string) (config ca cb : SearchFieldConfig) (t : SearchFieldType) :
  m !! a = None → m !! b = None → a ≠ b → alias_column ja = Some c → alias_column jb = Some a →
  m !! c = Some (name, config, t) → json_value_to_search_field_config t ja = Ok ca →
  json_value_to_search_field_config t jb = Ok cb →
  ∃ m1 m2, alias_fields [(a, ja); (b, jb)] m = Ok m1 ∧ m1 !! b = Some (b, cb, t) ∧
    alias_fields [(b, jb); (a, ja)] m = Ok m2 ∧ m2 !! b = None ∧ m2 !! a = Some (a, ca, t).
Proof.
  unfold alias_column. intros Ha Hb Hab Hja Hjb Hc Hca Hcb. eexists _, _. cbn [alias_fields]. rewrite Hja, Hjb, Hc, Ha, Hca.
  cbn [mbind outcome_bind]. rewrite lookup_insert_eq, Hcb. cbn [mbind outcome_bind].
  split; [done|]. split; [apply lookup_insert_eq|]. split; [done|].
  split; [by rewrite lookup_insert_ne|apply lookup_insert_eq].
Qed.

(** the names of analyzers in the options of a field *)
Definition indexing_tokenizer (o : FieldOptions) : option string :=
  match o with
  | AddText o => text_indexing o ≫= set_tokenizer
  | AddJson o => json_indexing o ≫= set_tokenizer
  | _ => None
  end.
Definition fast_tokenizer (o : FieldOptions) : option string :=
  match o with AddText o => text_fast o | AddJson o => json_fast o | _ => None end.

Lemma options_tokenizers `{SerdeLanguage} config t o :
  field_options config t = Ok o →
  (∀ name, indexing_tokenizer o = Some name → ∃ tk, field_tokenizer config = Some tk ∧ name = tokenizer_name tk) ∧
  (∀ name, fast_tokenizer o = Some name → is_Some (create_normalizer_manager !! name)).
Proof.
  intros Ho. destruct t, config as [i f s n tk r nz c|i f s n e tk r nz c|s c|i f s c|i f s c|i f s c]; try discriminate Ho;
    injection Ho as <-; split; try done; intros name; cbn; try (destruct i; cbn; [|done]; intros [= <-]; by exists tk);
    try (destruct f; [|done]; intros [= <-]; by destruct nz; eexists); intros [= <-]; by eexists.
Qed.

(** Every indexed field finds its analyzers: the tokenizer and the normalizer that
    a field's options name are registered when the index is opened, the tokenizer as one
    of a configured field with the same name. *)
Theorem fields_find_their_analyzers `{SerdeLanguage} `{SerdeRecord} `{SerdeJsonText} `{HashIteration} `{PgTypes}
    `{TantivyTokenizers} (rd : option SearchIndexCreateOptions) (heap : TupleDesc) (attrs : list Z)
    (fields : list FieldSpec) (k : Z) (analyzers normalizers : gmap string TextAnalyzer) (f : FieldSpec) :
  get_fields rd heap attrs = Ok (fields, k) → setup_tokenizers rd heap attrs = Ok (analyzers, normalizers) →
  f ∈ fields →
  ∃ o, field_options f.1.2 f.2 = Ok o ∧
    (∀ name, indexing_tokenizer o = Some name →
       ∃ t t' a, field_tokenizer f.1.2 = Some t ∧ name = tokenizer_name t ∧
         analyzers !! name = Some a ∧ to_tantivy_tokenizer t' = Ok (Some a) ∧
         (t' = t ∨ ∃ p p' fs, t = RegexTokenizer p fs ∧ t' = RegexTokenizer p' fs ∧ p ≠ p')) ∧
    (∀ name, fast_tokenizer o = Some name → is_Some (normalizers !! name)).
Proof.
  intros Hf Hsetup Hin. destruct (get_fields_ok _ _ _ _ _ Hf) as [Hsound _]. unfold setup_tokenizers in Hsetup.
  rewrite Hf in Hsetup. cbn [mbind outcome_bind] in Hsetup. set (ts := omap _ fields) in Hsetup.
  destruct (create_tokenizer_manager ts) as [m| | |] eqn:Hm; [|done..]. injection Hsetup as <- <-.
  rewrite Forall_forall in Hsound. pose proof (field_options_fits f.1.2 f.2) as Ho.
  destruct (Hsound f Hin) as [Hfits _]. unfold fits in Hfits. rewrite Hfits in Ho. destruct Ho as [o Ho].
  exists o. split; [done|]. destruct (options_tokenizers _ _ _ Ho) as [Hidx Hfast]. split; [|done].
  intros name Hname. destruct (Hidx name Hname) as (t & Ht & ->).
  assert (t ∈ ts) as Hts by by apply list_elem_of_omap; exists f.
  assert (∀ u, u ∈ ts → tokenizer_ok u) as Hok.
  { intros u (g & Hg & Hu)%list_elem_of_omap. destruct (Hsound g Hg) as [_ Hgood].
    by destruct (g.1.2); try done; injection Hu as <-. }
  destruct (register_tokenizers_registers ts _ m t Hm Hts) as (t' & a & Hin' & Hn & Ha & Hlk).
  exists t, t', a. split; [done|]. split; [done|]. split; [done|]. split; [done|].
  destruct (tokenizer_name_inj t t') as [->|(p & p' & fs & -> & ->)]; [by apply Hok|by apply Hok|done|by left|].
  destruct (decide (p = p')) as [->|Hne]; [by left|]. right. by exists p, p', fs.
Qed.
