(* ===== verification/Rows.v ===== *)
(** * Rows: from the datums of a row to a document

    [postgres/types.rs] ([TantivyValue]: the value a Postgres datum becomes in the index
    and back) and the rows of [postgres/utils.rs] ([categorize_fields],
    [row_to_search_document]).  The decoding of datums and the types of [pgrx] are the
    class [PgrxTypes]; a [TantivyValue] is its [OwnedValue]. *)

From S2P Require Import Prelude PgUtils TokenizerConfig Query RangeQuery Schema Options.

Open Scope Z_scope.

(** ** External code *)

(** the types of [pgrx] and [uuid], and what the code asks of them; [None] is an error *)
Class PgrxTypes `{RustF64} `{TantivyTypes} := {
  AnyNumeric : Type;
  Uuid : Type;
  Date : Type;
  Time : Type;
  TimeTz : Type;
  Timestamp : Type;
  TimestampTz : Type;
  (** [val.try_into()] *)
  numeric_to_f64 : AnyNumeric → option F64;
  f64_to_numeric : F64 → option AnyNumeric;
  uuid_to_string : Uuid → string;
  (** [uuid::Uuid::parse_str] and then [pgrx::Uuid::from_slice] *)
  uuid_parse_str : string → option Uuid;
  uuid_parse_print u : uuid_parse_str (uuid_to_string u) = Some u;
  (** [year], [month] and [day]; [to_hms_micro]; those with a time zone after [to_utc] *)
  date_ymd : Date → Z * Z * Z;
  time_hms_micro : Time → Z * Z * Z * Z;
  timetz_utc_hms_micro : TimeTz → Z * Z * Z * Z;
  timestamp_ymd : Timestamp → Z * Z * Z;
  timestamp_hms_micro : Timestamp → Z * Z * Z * Z;
  timestamptz_utc_ymd : TimestampTz → Z * Z * Z;
  timestamptz_utc_hms_micro : TimestampTz → Z * Z * Z * Z;
  (** [new], and [with_timezone(.., "UTC")] *)
  Date_new : Z → Z → Z → option Date;
  Date_new_ymd d y mo day : date_ymd d = (y, mo, day) → Date_new y mo day = Some d;
  Time_new : Z → Z → F64 → option Time;
  TimeTz_with_utc : Z → Z → F64 → option TimeTz;
  Timestamp_new : Z → Z → Z → Z → Z → F64 → option Timestamp;
  TimestampTz_with_utc : Z → Z → Z → Z → Z → F64 → option TimestampTz;
  (** [s as f64 + (micro as f64) / (MICROSECONDS_IN_SECOND as f64)] *)
  seconds_f64 : Z → Z → F64;
  (** [format!] and [from_str] of floats *)
  f32_to_string : F32 → string;
  f64_from_str : string → option F64;
  f64_to_string : F64 → string;
  f32_from_str : string → option F32;
  f32_into_f64 : F32 → F64;
  (** [to_value] of the types of range bounds *)
  f64_to_value : F64 → Json;
  timestamptz_to_value : TimestampTz → Json;
  (** the [TryFrom]s to [TimestampWithTimeZoneUtc], as they serialize *)
  date_to_utc_value : Date → option Json;
  timestamp_to_utc_value : Timestamp → option Json;
  (** [OwnedValue::from] a JSON value: an object is an object *)
  owned_from_json : Json → OwnedValue;
  owned_from_object l : ∃ v, owned_from_json (JObject l) = OObject v;
  (** [serde_json::to_string] and [to_value] of an object *)
  object_to_json : Opaque → option Json
}.

(** [into_primitive()] of a [DateTime]: its year, month and day, and its time of day *)
Class TimeCrate `{RustF64} `{TantivyTypes} `{TantivyText} `{Chrono} := {
  into_primitive : Z → (Z * Z * Z) * (Z * Z * Z * Z);
  (** both crates use the proleptic Gregorian calendar *)
  into_primitive_date y mo d date :
    from_ymd_opt y mo d = Some date →
    (into_primitive (from_timestamp_micros (and_time date 0))).1 = (y, mo, d)
}.

(** the representations of values as datums: [from_datum(datum, false)], [into_datum] *)
Class PgDatums `{PgrxTypes} := {
  RowDatum : Type;
  bool_from_datum : RowDatum → option bool;
  (** of [i16], [i32], [i64] and [u32], by width *)
  int_from_datum : Z → RowDatum → option Z;
  oid_from_datum : RowDatum → option Z;
  f32_from_datum : RowDatum → option F32;
  f64_from_datum : RowDatum → option F64;
  numeric_from_datum : RowDatum → option AnyNumeric;
  string_from_datum : RowDatum → option string;
  date_from_datum : RowDatum → option Date;
  time_from_datum : RowDatum → option Time;
  timetz_from_datum : RowDatum → option TimeTz;
  timestamp_from_datum : RowDatum → option Timestamp;
  timestamptz_from_datum : RowDatum → option TimestampTz;
  uuid_from_datum : RowDatum → option Uuid;
  jsonb_from_datum : RowDatum → option Json;
  json_from_datum : RowDatum → option Json;
  int_range_from_datum : Z → RowDatum → option (PgRange Z);
  numeric_range_from_datum : RowDatum → option (PgRange AnyNumeric);
  date_range_from_datum : RowDatum → option (PgRange Date);
  timestamp_range_from_datum : RowDatum → option (PgRange Timestamp);
  timestamptz_range_from_datum : RowDatum → option (PgRange TimestampTz);
  array_from_datum : RowDatum → option (list (option RowDatum));
  (** the ordinal of [lookup_enum_by_oid] *)
  enum_ordinal : Z → F32;
  bool_into_datum : bool → RowDatum;
  int_into_datum : Z → Z → RowDatum;
  oid_into_datum : Z → RowDatum;
  f32_into_datum : F32 → RowDatum;
  f64_into_datum : F64 → RowDatum;
  numeric_into_datum : AnyNumeric → RowDatum;
  string_into_datum : string → RowDatum;
  json_into_datum : Json → RowDatum;
  jsonb_into_datum : Json → RowDatum;
  date_into_datum : Date → RowDatum;
  time_into_datum : Time → RowDatum;
  timetz_into_datum : TimeTz → RowDatum;
  timestamp_into_datum : Timestamp → RowDatum;
  timestamptz_into_datum : TimestampTz → RowDatum;
  uuid_into_datum : Uuid → RowDatum;
  (** a decoded integer has its width; a datum made from a value decodes to it *)
  int_from_datum_range w d n : int_from_datum w d = Some n → - 2 ^ (w - 1) ≤ n < 2 ^ (w - 1);
  oid_from_datum_range d n : oid_from_datum d = Some n → is_u32 n;
  bool_from_into b : bool_from_datum (bool_into_datum b) = Some b;
  int_from_into w n : - 2 ^ (w - 1) ≤ n < 2 ^ (w - 1) → int_from_datum w (int_into_datum w n) = Some n;
  oid_from_into n : is_u32 n → oid_from_datum (oid_into_datum n) = Some n;
  f64_from_into x : f64_from_datum (f64_into_datum x) = Some x;
  string_from_into s : string_from_datum (string_into_datum s) = Some s;
  date_from_into d : date_from_datum (date_into_datum d) = Some d;
  uuid_from_into u : uuid_from_datum (uuid_into_datum u) = Some u
}.

(** ** Integers *)

(** [val as i{w}] of a wider integer *)
Definition as_signed (w n : Z) : Z := (n + 2 ^ (w - 1)) mod 2 ^ w - 2 ^ (w - 1).
Definition as_u32 (n : Z) : Z := n mod 2 ^ 32.

Section values.
Context `{RustF64} `{TantivyTypes} `{TantivyText} `{Chrono} `{!PgrxTypes} `{!TimeCrate}.

Definition unsupported_into {A} (type : string) : outcome A :=
  Err ("Cannot convert TantivyValue to type " +:+ type)%string.
Definition unsupported_from {A} (type : string) : outcome A :=
  Err ("Cannot convert type " +:+ type +:+ " to a TantivyValue")%string.

(** *** Bytes, strings, integers, booleans *)

Definition from_vec (val : list Z) : outcome OwnedValue := Ok (OBytes val).
Definition into_vec (value : OwnedValue) : outcome (list Z) :=
  match value with OBytes val => Ok val | _ => unsupported_into "Vec<u8>" end.
Definition from_string (val : string) : outcome OwnedValue := Ok (OStr val).
Definition into_string (value : OwnedValue) : outcome string :=
  match value with OStr val => Ok val | _ => unsupported_into "String" end.
Definition from_i8 (val : Z) : outcome OwnedValue := Ok (OI64 val).
Definition into_i8 (value : OwnedValue) : outcome Z :=
  match value with OI64 val => Ok (as_signed 8 val) | _ => unsupported_into "i8" end.
Definition from_i16 (val : Z) : outcome OwnedValue := Ok (OI64 val).
Definition into_i16 (value : OwnedValue) : outcome Z :=
  match value with OI64 val => Ok (as_signed 16 val) | _ => unsupported_into "i16" end.
Definition from_i32 (val : Z) : outcome OwnedValue := Ok (OI64 val).
Definition into_i32 (value : OwnedValue) : outcome Z :=
  match value with OI64 val => Ok (as_signed 32 val) | _ => unsupported_into "i32" end.
Definition from_i64 (val : Z) : outcome OwnedValue := Ok (OI64 val).
Definition into_i64 (value : OwnedValue) : outcome Z :=
  match value with OI64 val => Ok val | _ => unsupported_into "i64" end.
Definition from_u32 (val : Z) : outcome OwnedValue := Ok (OU64 val).
Definition into_u32 (value : OwnedValue) : outcome Z :=
  match value with OU64 val => Ok (as_u32 val) | _ => unsupported_into "u32" end.
Definition from_u64 (val : Z) : outcome OwnedValue := Ok (OU64 val).
Definition into_u64 (value : OwnedValue) : outcome Z :=
  match value with OU64 val => Ok val | _ => unsupported_into "u64" end.
Definition from_bool (val : bool) : outcome OwnedValue := Ok (OBool val).
Definition into_bool (value : OwnedValue) : outcome bool :=
  match value with OBool val => Ok val | _ => unsupported_into "bool" end.

(** *** Floats and numerics *)

Definition from_f32 (val : F32) : outcome OwnedValue :=
  let f32_string := f32_to_string val in
  val_as_f64 ← ok_or (f64_from_str f32_string) "ParseFloatError";
  Ok (OF64 val_as_f64).
Definition into_f32 (value : OwnedValue) : outcome F32 :=
  match value with
  | OF64 val =>
      let f64_string := f64_to_string val in
      ok_or (f32_from_str f64_string) "ParseFloatError"
  | _ => unsupported_into "f32"
  end.
Definition from_f64 (val : F64) : outcome OwnedValue := Ok (OF64 val).
Definition into_f64 (value : OwnedValue) : outcome F64 :=
  match value with OF64 val => Ok val | _ => unsupported_into "f64" end.
Definition from_numeric (val : AnyNumeric) : outcome OwnedValue :=
  x ← ok_or (numeric_to_f64 val) "PgrxNumericError"; Ok (OF64 x).
Definition into_numeric (value : OwnedValue) : outcome AnyNumeric :=
  match value with
  | OF64 val => ok_or (f64_to_numeric val) "PgrxNumericError"
  | _ => unsupported_into "numeric"
  end.

(** *** JSON *)

(** the same for [JsonString] and [JsonB] *)
Definition from_json_type (val : Json) : outcome OwnedValue := Ok (owned_from_json val).
Definition into_json_string (value : OwnedValue) : outcome Json :=
  match value with OObject val => ok_or (object_to_json val) "SerdeJsonError" | _ => unsupported_into "json" end.
Definition into_jsonb (value : OwnedValue) : outcome Json :=
  match value with OObject val => ok_or (object_to_json val) "SerdeJsonError" | _ => unsupported_into "jsonb" end.

(** *** Dates and times *)

Definition date_value (ymd : option (Z * Z * Z)) (hms_micro : Z * Z * Z * Z) : outcome OwnedValue :=
  micros ← datetime_components_to_tantivy_date ymd hms_micro; Ok (ODate (from_timestamp_micros micros)).
Definition from_date (val : Date) : outcome OwnedValue := date_value (Some (date_ymd val)) (0, 0, 0, 0).
Definition into_date (value : OwnedValue) : outcome Date :=
  match value with
  | ODate val =>
      let '(year, month, day) := (into_primitive val).1 in
      ok_or (Date_new year month day) "Could not generate datetime datum"
  | _ => unsupported_into "date"
  end.
Definition from_time (val : Time) : outcome OwnedValue := date_value None (time_hms_micro val).
Definition into_time (value : OwnedValue) : outcome Time :=
  match value with
  | ODate val =>
      let '(h, m, s, micro) := (into_primitive val).2 in
      ok_or (Time_new h m (seconds_f64 s micro)) "Could not generate datetime datum"
  | _ => unsupported_into "time"
  end.
Definition from_timestamp (val : Timestamp) : outcome OwnedValue :=
  date_value (Some (timestamp_ymd val)) (timestamp_hms_micro val).
Definition into_timestamp (value : OwnedValue) : outcome Timestamp :=
  match value with
  | ODate val =>
      let '((year, month, day), (h, m, s, micro)) := into_primitive val in
      ok_or (Timestamp_new year month day h m (seconds_f64 s micro)) "Could not generate datetime datum"
  | _ => unsupported_into "timestamp"
  end.
Definition from_timetz (val : TimeTz) : outcome OwnedValue := date_value None (timetz_utc_hms_micro val).
Definition into_timetz (value : OwnedValue) : outcome TimeTz :=
  match value with
  | ODate val =>
      let '(h, m, s, micro) := (into_primitive val).2 in
      ok_or (TimeTz_with_utc h m (seconds_f64 s micro)) "Could not generate datetime datum"
  | _ => unsupported_into "timetz"
  end.
Definition from_timestamptz (val : TimestampTz) : outcome OwnedValue :=
  date_value (Some (timestamptz_utc_ymd val)) (timestamptz_utc_hms_micro val).
Definition into_timestamptz (value : OwnedValue) : outcome TimestampTz :=
  match value with
  | ODate val =>
      let '((year, month, day), (h, m, s, micro)) := into_primitive val in
      ok_or (TimestampTz_with_utc year month day h m (seconds_f64 s micro)) "Could not generate datetime datum"
  | _ => unsupported_into "timestamptz"
  end.

(** *** The others *)

Definition from_uuid (val : Uuid) : outcome OwnedValue := Ok (OStr (uuid_to_string val)).
Definition into_uuid (value : OwnedValue) : outcome Uuid :=
  match value with OStr val => ok_or (uuid_parse_str val) "UuidError" | _ => unsupported_into "uuid" end.
(** of [AnyEnum], by its [ordinal()], which is [None] for a null *)
Definition from_any_enum (ordinal : option F32) : outcome OwnedValue :=
  match ordinal with Some ordinal => Ok (OF64 (f32_into_f64 ordinal)) | None => Ok ONull end.
(** [AnyArray], [BOX], [Point], [ItemPointerData] and [Inet] are refused by name *)
Definition from_array : outcome OwnedValue := unsupported_from "array".
Definition from_box : outcome OwnedValue := unsupported_from "box".
Definition from_point : outcome OwnedValue := unsupported_from "point".
Definition from_item_pointer : outcome OwnedValue := unsupported_from "tid".
Definition from_inet : outcome OwnedValue := unsupported_from "inet".

(** [TantivyValue::from_range] of [postgres/range.rs]: the JSON of [TantivyRange] *)
Definition range_to_value (r : TantivyRange Json) : Json :=
  let bound (b : option Json) := default JNull b in
  JObject [("lower", bound (tr_lower r)); ("upper", bound (tr_upper r)); ("empty", JBool (tr_empty r));
           ("lower_inclusive", JBool (tr_lower_inclusive r)); ("upper_inclusive", JBool (tr_upper_inclusive r));
           ("lower_unbounded", JBool (tr_lower_unbounded r)); ("upper_unbounded", JBool (tr_upper_unbounded r))].
Definition range_value {T} (try_from : T → option Json) (val : PgRange T) : outcome OwnedValue :=
  r ← from_range try_from val; Ok (owned_from_json (range_to_value r)).

(** *** Comparison *)

Definition f64_partial_cmp (x y : F64) : option comparison :=
  if f64_lt x y then Some Lt else if f64_eq x y then Some Eq else if f64_lt y x then Some Gt else None.
Definition tantivy_partial_cmp (a b : OwnedValue) : option comparison :=
  match a, b with
  | OStr s, OStr s' => Some (String.compare s s')
  | OU64 n, OU64 n' | OI64 n, OI64 n' | ODate n, ODate n' => Some (n ?= n')
  | OF64 x, OF64 x' => f64_partial_cmp x x'
  | OBool b, OBool b' => Some (match b, b' with false, true => Lt | true, false => Gt | _, _ => Eq end)
  | _, _ => None
  end.
End values.

(** ** Datums *)

Section datums.
Context `{RustF64} `{TantivyTypes} `{TantivyText} `{Chrono} `{!PgrxTypes} `{!TimeCrate} `{!PgDatums} `{PgTypes}.

Definition or_deref {A} (o : option A) : outcome A := ok_or o "Could not dereference postgres datum".

(** the type oid is read from the catalog for an enum, whose value is its ordinal *)
Definition try_from_datum (datum : RowDatum) (oid : PgOid) : outcome OwnedValue :=
  match oid with
  | PgBuiltIn builtin =>
      match builtin with
      | BOOLOID => or_deref (bool_from_datum datum) ≫= from_bool
      | INT2OID => or_deref (int_from_datum 16 datum) ≫= from_i16
      | INT4OID => or_deref (int_from_datum 32 datum) ≫= from_i32
      | INT8OID => or_deref (int_from_datum 64 datum) ≫= from_i64
      | OIDOID => or_deref (oid_from_datum datum) ≫= from_u32
      | FLOAT4OID => or_deref (f32_from_datum datum) ≫= from_f32
      | FLOAT8OID => or_deref (f64_from_datum datum) ≫= from_f64
      | NUMERICOID => or_deref (numeric_from_datum datum) ≫= from_numeric
      | TEXTOID | VARCHAROID => or_deref (string_from_datum datum) ≫= from_string
      | DATEOID => or_deref (date_from_datum datum) ≫= from_date
      | TIMESTAMPOID => or_deref (timestamp_from_datum datum) ≫= from_timestamp
      | TIMESTAMPTZOID => or_deref (timestamptz_from_datum datum) ≫= from_timestamptz
      | TIMEOID => or_deref (time_from_datum datum) ≫= from_time
      | TIMETZOID => or_deref (timetz_from_datum datum) ≫= from_timetz
      | UUIDOID => or_deref (uuid_from_datum datum) ≫= from_uuid
      | INT4RANGEOID => or_deref (int_range_from_datum 32 datum) ≫= range_value (λ n, Some (JInteger n))
      | INT8RANGEOID => or_deref (int_range_from_datum 64 datum) ≫= range_value (λ n, Some (JInteger n))
      | NUMRANGEOID =>
          or_deref (numeric_range_from_datum datum) ≫= range_value (λ n, option_map f64_to_value (numeric_to_f64 n))
      | DATERANGEOID => or_deref (date_range_from_datum datum) ≫= range_value date_to_utc_value
      | TSRANGEOID => or_deref (timestamp_range_from_datum datum) ≫= range_value timestamp_to_utc_value
      | TSTZRANGEOID =>
          or_deref (timestamptz_range_from_datum datum) ≫= range_value (λ t, Some (timestamptz_to_value t))
      | _ => Err "Type is not yet supported"
      end
  | PgCustom custom =>
      if type_is_enum custom then oid ← or_deref (oid_from_datum datum); from_f32 (enum_ordinal oid)
      else Err "Type is not yet supported"
  | PgInvalid => Err "Cannot convert oid of InvalidOid to TantivyValue"
  end.

Definition try_from_anyelement (any_element : RowDatum * PgOid) : outcome OwnedValue :=
  try_from_datum any_element.1 any_element.2.

(** [Null] is no datum *)
Definition try_into_datum (value : OwnedValue) (oid : PgOid) : outcome (option RowDatum) :=
  let into {A} (o : outcome A) (into_datum : A → RowDatum) := x ← o; Ok (Some (into_datum x)) in
  match value with
  | ONull => Ok None
  | _ =>
      match oid with
      | PgBuiltIn builtin =>
          match builtin with
          | BOOLOID => into (into_bool value) bool_into_datum
          | INT2OID => into (into_i16 value) (int_into_datum 16)
          | INT4OID => into (into_i32 value) (int_into_datum 32)
          | INT8OID => into (into_i64 value) (int_into_datum 64)
          | OIDOID => into (into_u32 value) oid_into_datum
          | FLOAT4OID => into (into_f32 value) f32_into_datum
          | FLOAT8OID => into (into_f64 value) f64_into_datum
          | NUMERICOID => into (into_numeric value) numeric_into_datum
          | TEXTOID | VARCHAROID => into (into_string value) string_into_datum
          | JSONOID => into (into_json_string value) json_into_datum
          | JSONBOID => into (into_jsonb value) jsonb_into_datum
          | DATEOID => into (into_date value) date_into_datum
          | TIMESTAMPOID => into (into_timestamp value) timestamp_into_datum
          | TIMESTAMPTZOID => into (into_timestamptz value) timestamptz_into_datum
          | TIMEOID => into (into_time value) time_into_datum
          | TIMETZOID => into (into_timetz value) timetz_into_datum
          | UUIDOID => into (into_uuid value) uuid_into_datum
          | _ => Err "Type is not yet supported"
          end
      | _ => Err "Cannot convert oid of InvalidOid to TantivyValue"
      end
  end.

(** an array at the top becomes the values of its elements, and so on inside *)
Fixpoint json_value_to_tantivy_value (value : Json) : list OwnedValue :=
  match value with
  | JArray value_vec => flat_map json_value_to_tantivy_value value_vec
  | _ => [owned_from_json value]
  end.

(** the elements that are not null, in their order *)
Definition try_from_datum_array (datum : RowDatum) (oid : PgOid) : outcome (list OwnedValue) :=
  match oid with
  | PgBuiltIn builtin =>
      match builtin with
      | BOOLOID | INT2OID | INT4OID | INT8OID | OIDOID | FLOAT4OID | FLOAT8OID | NUMERICOID | TEXTOID
      | VARCHAROID | DATEOID | TIMESTAMPOID | TIMESTAMPTZOID | TIMEOID | TIMETZOID | UUIDOID =>
          array ← or_deref (array_from_datum datum);
          traverse_ok (λ element_datum, try_from_datum element_datum oid) (omap id array)
      | _ => Err "Arrays of type are not yet supported"
      end
  | _ => Err "Cannot convert oid of InvalidOid to TantivyValue"
  end.

Definition try_from_datum_json (datum : RowDatum) (oid : PgOid) : outcome (list OwnedValue) :=
  match oid with
  | PgBuiltIn builtin =>
      match builtin with
      | JSONBOID => json_value ← or_deref (jsonb_from_datum datum); Ok (json_value_to_tantivy_value json_value)
      | JSONOID => json_value ← or_deref (json_from_datum datum); Ok (json_value_to_tantivy_value json_value)
      | _ => Err "Cannot convert builtin json oid to TantivyValue"
      end
  | _ => Err "Cannot convert oid of InvalidOid to TantivyValue"
  end.

(** ** Rows *)

Record CategorizedFieldData := {
  cf_attno : nat;
  cf_base_oid : PgOid;
  cf_is_array : bool;
  cf_is_json : bool
}.

Context `{SerdeLanguage} `{TantivySchema}.

(** the fields an attribute fills: those that name it as their column, and its own *)
Definition attribute_fields (s : SearchIndexSchema) (alias : gmap string (list SearchField)) (attname : string)
    : list SearchField :=
  default [] (alias !! attname) ++ option_list (get_search_field s attname).
Definition categorized_data (attno : nat) (attribute_type_oid : PgOid) : CategorizedFieldData :=
  let array_type := get_element_type attribute_type_oid in
  let '(base_oid, is_array) :=
    if decide (array_type ≠ PgInvalid) then (array_type, true) else (attribute_type_oid, false) in
  let is_json := match base_oid with PgBuiltIn (JSONBOID | JSONOID) => true | _ => false end in
  {| cf_attno := attno; cf_base_oid := base_oid; cf_is_array := is_array; cf_is_json := is_json |}.
Definition categorize_attribute (attno : nat) (attribute_type_oid : PgOid) (search_field : SearchField)
    : SearchField * CategorizedFieldData :=
  (search_field, categorized_data attno attribute_type_oid).
(** the loop; an alias entry is removed when its attribute is met *)
Fixpoint categorize_from (s : SearchIndexSchema) (attno : nat) (tupdesc : list (string * PgOid))
    (alias : gmap string (list SearchField)) : list (SearchField * CategorizedFieldData) :=
  match tupdesc with
  | [] => []
  | (attname, oid) :: tupdesc =>
      (categorize_attribute attno oid <$> attribute_fields s alias attname) ++
      categorize_from s (S attno) tupdesc (delete attname alias)
  end.
Definition categorize_fields (tupdesc : list (string * PgOid)) (s : SearchIndexSchema)
    : list (SearchField * CategorizedFieldData) :=
  categorize_from s 0 tupdesc (alias_lookup s).

(** the values of a Tantivy document, in the order they are added *)
Notation SearchDocument := (list (Field * OwnedValue)).
Definition document_insert (document : SearchDocument) (key : Field) (value : OwnedValue) : SearchDocument :=
  document ++ [(key, value)].

(** the values of a datum that is not null *)
Definition field_values (datum : RowDatum) (c : CategorizedFieldData) : outcome (list OwnedValue) :=
  if cf_is_array c then try_from_datum_array datum (cf_base_oid c)
  else if cf_is_json c then try_from_datum_json datum (cf_base_oid c)
  else value ← try_from_datum datum (cf_base_oid c); Ok [value].

(** [values] and [isnull] are the row's; the attributes are those of the relation *)
Fixpoint row_to_search_document (values : list RowDatum) (isnull : list bool) (key_field_name : string)
    (categorized_fields : list (SearchField * CategorizedFieldData)) (document : SearchDocument)
    : outcome SearchDocument :=
  match categorized_fields with
  | [] => Ok document
  | (search_field, c) :: categorized_fields =>
      datum ← expect_ok (values !! cf_attno c) "attribute";
      null ← expect_ok (isnull !! cf_attno c) "attribute";
      if String.eqb key_field_name (sf_name search_field) && null then
        Err ("key_field column '" +:+ key_field_name +:+ "' cannot be NULL")%string
      else if (null : bool) then
        row_to_search_document values isnull key_field_name categorized_fields document
      else
        vs ← field_values datum c;
        row_to_search_document values isnull key_field_name categorized_fields
          (foldl (λ document value, document_insert document (sf_id search_field) value) document vs)
  end.
End datums.

(** ** Values *)

Section value_theorems.
Context `{RustF64} `{TantivyTypes} `{TantivyText} `{Chrono} `{!PgrxTypes} `{!TimeCrate} `{!PgDatums} `{PgTypes}.

Lemma as_signed_range w n : 0 < w → - 2 ^ (w - 1) ≤ as_signed w n < 2 ^ (w - 1).
Proof.
  intros Hw. unfold as_signed. pose proof (Z.mod_pos_bound (n + 2 ^ (w - 1)) (2 ^ w)).
  replace w with (Z.succ (w - 1)) in * by lia. rewrite Z.pow_succ_r in * by lia.
  replace (Z.succ (w - 1) - 1) with (w - 1) in * by lia. lia.
Qed.
Lemma as_signed_id w n : 0 < w → - 2 ^ (w - 1) ≤ n < 2 ^ (w - 1) → as_signed w n = n.
Proof.
  intros Hw Hn. unfold as_signed. rewrite Z.mod_small; [lia|].
  replace w with (Z.succ (w - 1)) at 3 by lia. rewrite Z.pow_succ_r by lia. lia.
Qed.
Lemma as_signed_mod w n : 0 < w → as_signed w n mod 2 ^ w = n mod 2 ^ w.
Proof.
  intros Hw. unfold as_signed. rewrite Zminus_mod_idemp_l. f_equal. lia.
Qed.

(** the types whose datums come back from the index as they were *)
Definition exact_oid (oid : PgBuiltInOids) : bool :=
  match oid with
  | BOOLOID | INT2OID | INT4OID | INT8OID | OIDOID | FLOAT8OID | TEXTOID | VARCHAROID | DATEOID | UUIDOID => true
  | _ => false
  end.

Lemma or_deref_ok {A} (o : option A) a : or_deref o = Ok a → o = Some a.
Proof. destruct o; [|done]. by intros [= ->]. Qed.
Lemma deref_bind_ok {A B} (o : option A) (k : A → outcome B) b :
  or_deref o ≫= k = Ok b → ∃ a, o = Some a ∧ k a = Ok b.
Proof. destruct o as [a|]; [|done]. by exists a. Qed.

Lemma date_value_inv ymd v :
  date_value (Some ymd) (0, 0, 0, 0) = Ok v →
  ∃ date, from_ymd_opt ymd.1.1 ymd.1.2 ymd.2 = Some date ∧ v = ODate (from_timestamp_micros (and_time date 0)).
Proof.
  destruct ymd as [[y mo] d]. unfold date_value, datetime_components_to_tantivy_date, and_hms_micro_opt. simpl.
  destruct (from_ymd_opt y mo d) as [date|]; [|done]. simpl. change (0 mod MICROSECONDS_IN_SECOND) with 0.
  rewrite from_hms_micro_valid by lia. simpl.
  intros [= <-]. by exists date.
Qed.
End value_theorems.

(** C11: A datum of a scalar type that converts to a value converts back to a datum that
    gives the same value, for every type the two directions agree on. *)
Theorem datum_roundtrip `{RustF64} `{TantivyTypes} `{TantivyText} `{Chrono} `{!PgrxTypes} `{!TimeCrate} `{!PgDatums}
    `{PgTypes} (oid : PgBuiltInOids) (datum : RowDatum) (value : OwnedValue) :
  exact_oid oid = true → try_from_datum datum (PgBuiltIn oid) = Ok value →
  ∃ datum', try_into_datum value (PgBuiltIn oid) = Ok (Some datum') ∧
    try_from_datum datum' (PgBuiltIn oid) = Ok value.
Proof.
  intros Hoid Hv. destruct oid; try discriminate Hoid; cbn [try_from_datum] in *;
    apply deref_bind_ok in Hv as (x & Hx & Hv).
  (* dates *)
  1: { apply date_value_inv in Hv as (date & Hd & ->). cbn [try_into_datum into_date]. destruct (date_ymd x) as [[y mo] d] eqn:Hymd.
       rewrite (into_primitive_date y mo d) by done. cbn. rewrite (Date_new_ymd x y mo d) by done. cbn.
       eexists. split; [done|]. rewrite date_from_into. cbn. unfold from_date, date_value, datetime_components_to_tantivy_date, and_hms_micro_opt.
       rewrite Hymd. cbn in Hd |- *. rewrite Hd. cbn.
       change (0 mod MICROSECONDS_IN_SECOND) with 0. by rewrite from_hms_micro_valid by lia. }
  all: injection Hv as <-; cbn -[as_signed as_u32].
  1, 2: by eexists; (split; [done|]); rewrite string_from_into.
  1: { rewrite uuid_parse_print. cbn. eexists. split; [done|]. by rewrite uuid_from_into. }
  1, 2: apply int_from_datum_range in Hx; rewrite as_signed_id by lia; eexists; (split; [done|]);
    by rewrite int_from_into by lia.
  1: { apply int_from_datum_range in Hx. eexists. split; [done|]. by rewrite int_from_into by lia. }
  1: { apply oid_from_datum_range in Hx. unfold as_u32. unfold is_u32, u32_max in Hx. rewrite Z.mod_small by lia.
       eexists. split; [done|]. rewrite oid_from_into by (unfold is_u32, u32_max; lia). done. }
  all: eexists; (split; [done|]); by rewrite ?f64_from_into, ?bool_from_into.
Qed.

(** A value that does not fit an [int2] or [int4] result wraps around instead of being
    an error. *)
Theorem narrow_integers_wrap `{RustF64} `{TantivyTypes} `{TantivyText} `{Chrono} `{!PgrxTypes} `{!TimeCrate}
    `{!PgDatums} `{PgTypes} (n : Z) :
  (∃ r, try_into_datum (OI64 n) (PgBuiltIn INT4OID) = Ok (Some (int_into_datum 32 r)) ∧
     - 2 ^ 31 ≤ r < 2 ^ 31 ∧ r mod 2 ^ 32 = n mod 2 ^ 32 ∧ (r = n ↔ - 2 ^ 31 ≤ n < 2 ^ 31)) ∧
  (∃ r, try_into_datum (OI64 n) (PgBuiltIn INT2OID) = Ok (Some (int_into_datum 16 r)) ∧
     - 2 ^ 15 ≤ r < 2 ^ 15 ∧ r mod 2 ^ 16 = n mod 2 ^ 16 ∧ (r = n ↔ - 2 ^ 15 ≤ n < 2 ^ 15)).
Proof.
  split; eexists; (split; [reflexivity|]).
  - pose proof (as_signed_range 32 n). split; [lia|]. split; [by apply as_signed_mod|].
    split; [lia|apply (as_signed_id 32); lia].
  - pose proof (as_signed_range 16 n). split; [lia|]. split; [by apply as_signed_mod|].
    split; [lia|apply (as_signed_id 16); lia].
Qed.

Section type_theorems.
Context `{RustF64} `{TantivyTypes} `{TantivyText} `{Chrono} `{!PgrxTypes} `{!TimeCrate} `{!PgDatums} `{PgTypes}.

(** the values of a field of a type *)
Definition value_of_type (t : SearchFieldType) (v : OwnedValue) : bool :=
  match t, v with
  | SText, OStr _ | SI64, OI64 _ | SF64, OF64 _ | SU64, OU64 _ | SBool, OBool _ | SDate, ODate _
  | (SJson | SRange), OObject _ => true
  | _, _ => false
  end.

Lemma from_f32_type x v : from_f32 x = Ok v → value_of_type SF64 v = true.
Proof. unfold from_f32. destruct (f64_from_str _); [|done]. by intros [= <-]. Qed.
Lemma date_value_type ymd hms v : date_value ymd hms = Ok v → value_of_type SDate v = true.
Proof. unfold date_value. destruct (datetime_components_to_tantivy_date ymd hms); [|done..]. by intros [= <-]. Qed.
Lemma range_value_type {T} (f : T → option Json) r v : range_value f r = Ok v → value_of_type SRange v = true.
Proof.
  unfold range_value. destruct (from_range f r) as [tr| | |]; [|done..]. simpl. intros [= <-].
  unfold range_to_value. by edestruct owned_from_object as [? ->].
Qed.

Lemma try_from_datum_type datum oid v t :
  try_from_datum datum oid = Ok v → search_field_type oid = Ok t → value_of_type t v = true.
Proof.
  destruct oid as [oid|custom|]; [| |done].
  - destruct oid; cbn [try_from_datum search_field_type]; try done; intros (x & _ & Hv)%deref_bind_ok [= <-];
      first [by injection Hv as <-|by eapply date_value_type|by eapply range_value_type|by eapply from_f32_type|idtac].
    unfold from_numeric in Hv. destruct (numeric_to_f64 x); [|done]. by injection Hv as <-.
  - cbn [try_from_datum search_field_type]. destruct (type_is_enum custom); [|done].
    destruct (or_deref (oid_from_datum datum)); [|done..]. simpl. intros Hv [= <-]. by eapply from_f32_type.
Qed.
Lemma traverse_ok_forall {A B} (f : A → outcome B) (P : B → Prop) l bs :
  traverse_ok f l = Ok bs → (∀ a b, f a = Ok b → P b) → Forall P bs.
Proof.
  intros Hl Hf. revert bs Hl. induction l as [|a l IH]; intros bs; simpl; [by intros [= <-]|].
  destruct (f a) as [b| | |] eqn:Hb; [|done..]. simpl. destruct (traverse_ok f l) as [bs'| | |]; [|done..].
  intros [= <-]. constructor; [by eapply Hf|by apply IH].
Qed.

(** the values of JSON documents are not arrays *)
Fixpoint json_leaves (value : Json) : list Json :=
  match value with JArray l => flat_map json_leaves l | _ => [value] end.
Definition is_json_array (value : Json) : bool := match value with JArray _ => true | _ => false end.

Lemma json_flattened value :
  json_value_to_tantivy_value value = owned_from_json <$> json_leaves value ∧
  Forall (λ v, is_json_array v = false) (json_leaves value).
Proof.
  revert value. fix IH 1. intros [|b|n|r|s|l|l]; try (split; [reflexivity|by repeat constructor]). simpl.
  induction l as [|v l IHl]; [split; [reflexivity|constructor]|]. destruct (IH v) as [Hv Hf], IHl as [Hl Hfl]. simpl.
  split; [rewrite fmap_app, Hv, Hl; reflexivity|by apply Forall_app].
Qed.
End type_theorems.

(** ** Documents *)

Section row_lemmas.
Context `{RustF64} `{TantivyTypes} `{TantivyText} `{Chrono} `{!PgrxTypes} `{!TimeCrate} `{!PgDatums} `{PgTypes}.
Context `{SerdeLanguage} `{TantivySchema}.
Implicit Types (s : SearchIndexSchema) (f : SearchField) (tupdesc : list (string * PgOid)).
Notation SearchDocument := (list (Field * OwnedValue)).

Lemma alias_lookup_spec s c :
  default [] (alias_lookup s !! c) = filter (λ f, column (sf_config f) = Some c) (sis_fields s).
Proof.
  unfold alias_lookup. induction (sis_fields s) as [|f l IH] using rev_ind; [done|].
  rewrite foldl_app, filter_app. simpl. set (m := foldl _ _ l) in *.
  destruct (column (sf_config f)) as [c'|] eqn:Hc.
  - destruct (decide (c' = c)) as [->|Hne].
    + rewrite lookup_insert_eq, filter_cons_True by congruence. simpl. by rewrite IH.
    + rewrite lookup_insert_ne, filter_cons_False by congruence. by rewrite app_nil_r.
  - rewrite filter_cons_False by congruence. by rewrite app_nil_r.
Qed.

(** the fields an attribute fills, without the removal of the alias entries *)
Definition filled_by s (attname : string) : list SearchField :=
  filter (λ f, column (sf_config f) = Some attname) (sis_fields s) ++ option_list (get_search_field s attname).
Fixpoint categorize_spec s (attno : nat) tupdesc : list (SearchField * CategorizedFieldData) :=
  match tupdesc with
  | [] => []
  | (attname, oid) :: tupdesc =>
      (categorize_attribute attno oid <$> filled_by s attname) ++ categorize_spec s (S attno) tupdesc
  end.
Lemma categorize_fields_spec tupdesc s :
  NoDup tupdesc.*1 → categorize_fields tupdesc s = categorize_spec s 0 tupdesc.
Proof.
  unfold categorize_fields. intros Hnd.
  assert (∀ c, c ∈ tupdesc.*1 → default [] (alias_lookup s !! c) =
    filter (λ f, column (sf_config f) = Some c) (sis_fields s)) as Halias by (intros; apply alias_lookup_spec).
  revert Halias. generalize (alias_lookup s), 0%nat. induction tupdesc as [|[a oid] tupdesc IH]; intros m n Halias; [done|].
  rewrite fmap_cons in *. apply NoDup_cons in Hnd as [Ha Hnd]. cbn [categorize_from categorize_spec].
  unfold attribute_fields, filled_by. rewrite Halias by by left. f_equal. apply IH; [done|].
  intros c Hc. rewrite lookup_delete_ne by by intros <-. apply Halias. by right.
Qed.

(** what one categorized field adds to the document *)
Definition entry_values (values : list RowDatum) (isnull : list bool) (key_field_name : string)
    (e : SearchField * CategorizedFieldData) : outcome SearchDocument :=
  datum ← expect_ok (values !! cf_attno e.2) "attribute";
  null ← expect_ok (isnull !! cf_attno e.2) "attribute";
  if String.eqb key_field_name (sf_name e.1) && null then
    Err ("key_field column '" +:+ key_field_name +:+ "' cannot be NULL")%string
  else if (null : bool) then Ok []
  else vs ← field_values datum e.2; Ok ((λ v : OwnedValue, (sf_id e.1, v)) <$> (vs : list OwnedValue)).

Lemma insert_all (document : SearchDocument) key vs :
  foldl (λ document value, document_insert document key value) document vs = document ++ ((λ v, (key, v)) <$> vs).
Proof.
  revert document. induction vs as [|v vs IH]; intros document; [by rewrite app_nil_r|]. cbn [foldl].
  rewrite IH. unfold document_insert. by rewrite <- app_assoc.
Qed.
Lemma row_document_run values isnull key cats document :
  row_to_search_document values isnull key cats document =
    (vss ← traverse_ok (entry_values values isnull key) cats; Ok (document ++ concat vss)).
Proof.
  revert document. induction cats as [|[f c] cats IH]; intros document; [simpl; by rewrite app_nil_r|].
  cbn [row_to_search_document traverse_ok]. revert IH.
  generalize (traverse_ok (entry_values values isnull key) cats) as rest. intros rest IH.
  unfold entry_values. cbn [fst snd].
  destruct (values !! cf_attno c) as [datum|]; [|done]. destruct (isnull !! cf_attno c) as [null|]; [|done].
  cbn [expect_ok mbind outcome_bind]. destruct (String.eqb key (sf_name f)), null; cbn [andb]; try done.
  1, 3: destruct (field_values datum c) as [vs| | |]; [|done..]; cbn [mbind outcome_bind]; rewrite IH, insert_all;
    destruct rest as [vss| | |]; [|done..]; cbn [mbind outcome_bind concat]; by rewrite <- app_assoc.
  cbn [mbind outcome_bind]. rewrite IH. by destruct rest.
Qed.

(** the attributes a field takes values from, in their order: one by its [column] key,
    and the one of its name *)
Fixpoint sources_from (attno : nat) tupdesc f : list (nat * PgOid) :=
  match tupdesc with
  | [] => []
  | (attname, oid) :: tupdesc =>
      (if decide (column (sf_config f) = Some attname) then [(attno, oid)] else []) ++
      (if decide (sf_name f = attname) then [(attno, oid)] else []) ++
      sources_from (S attno) tupdesc f
  end.
Definition source_entry f (src : nat * PgOid) : SearchField * CategorizedFieldData :=
  categorize_attribute src.1 src.2 f.

Lemma filter_single {A} `{EqDecision B} (g : A → B) (l : list A) (P : A → Prop) `{!∀ x, Decision (P x)} x :
  NoDup (g <$> l) → x ∈ l → filter (λ y, g y = g x) (filter P l) = if decide (P x) then [x] else [].
Proof.
  intros Hnd Hx. induction l as [|y l IH]; [by apply not_elem_of_nil in Hx|].
  rewrite fmap_cons in Hnd. apply NoDup_cons in Hnd as [Hy Hnd].
  assert (∀ l', (∀ z, z ∈ l' → g z ≠ g x) → filter (λ y, g y = g x) (filter P l') = []) as Hnone.
  { clear. induction l' as [|z l' IH]; [done|]. intros Hz. rewrite filter_cons.
    assert (filter (λ y, g y = g x) (filter P l') = []) as Hl by (apply IH; intros; apply Hz; by right).
    destruct (decide (P z)); [|done]. rewrite filter_cons_False; [done|]. apply Hz. by left. }
  apply elem_of_cons in Hx as [->|Hx].
  - assert (filter (λ z, g z = g y) (filter P l) = []) as Hl.
    { apply Hnone. intros z Hz Heq. apply Hy. rewrite <- Heq. by apply list_elem_of_fmap_2. }
    rewrite filter_cons. destruct (decide (P y)); [|done]. by rewrite filter_cons_True, Hl.
  - assert (g y ≠ g x) as Hne by (intros Heq; apply Hy; rewrite Heq; by apply list_elem_of_fmap_2).
    rewrite (filter_cons P). destruct (decide (P y)); [rewrite filter_cons_False by done|]; by apply IH.
Qed.

Lemma filter_map {A B} (g : A → B) (P : B → Prop) `{!∀ x, Decision (P x)} (l : list A) :
  filter P (g <$> l) = g <$> filter (λ x, P (g x)) l.
Proof.
  induction l as [|x l IH]; [done|]. rewrite fmap_cons, !filter_cons. destruct (decide (P (g x))); [|done].
  by rewrite fmap_cons, IH.
Qed.

Lemma ids_from n specs : sf_id <$> fields_from n specs = Z.of_nat <$> seq (Z.to_nat n) (length specs) ∨ n < 0.
Proof.
  destruct (Z_lt_dec n 0); [by right|]. left. revert n n0. induction specs as [|spec specs IH]; intros n Hn; [done|].
  cbn [fields_from]. rewrite fmap_cons. cbn [length seq]. rewrite fmap_cons, IH by lia. f_equal; [simpl; lia|].
  by replace (Z.to_nat (Z.succ n)) with (S (Z.to_nat n)) by lia.
Qed.
Lemma made_ids_nodup specs k s : made_of specs k s → NoDup (sf_id <$> sis_fields s).
Proof.
  intros Hs. rewrite (made_fields _ _ _ Hs). destruct (ids_from 0 specs) as [->|?]; [|lia].
  apply NoDup_fmap_2; [apply _|apply NoDup_seq].
Qed.

Lemma filled_by_field specs k s i spec attname :
  specs_ok specs → made_of specs k s → specs !! i = Some spec →
  filter (λ f, sf_id f = Z.of_nat i) (filled_by s attname) =
    (if decide (column spec.1.2 = Some attname) then [spec_field (Z.of_nat i) spec] else []) ++
    (if decide (spec.1.1 = attname) then [spec_field (Z.of_nat i) spec] else []).
Proof.
  intros Hok Hs Hi. unfold filled_by. rewrite filter_app. f_equal.
  - pose proof (filter_single sf_id (sis_fields s) (λ f, column (sf_config f) = Some attname) (spec_field (Z.of_nat i) spec)) as Hf.
    apply Hf.
    + by apply (made_ids_nodup specs k).
    + apply (made_in specs k); [done|]. by exists i, spec.
  - case_decide as Hn.
    + subst attname. rewrite (made_field specs k s i spec) by done. simpl. by rewrite filter_cons_True.
    + destruct (decide (attname ∈ spec_names specs)) as [Hin|Hin].
      2: { by rewrite (made_no_field specs k s). }
      apply list_elem_of_fmap in Hin as (spec' & -> & [j Hj]%list_elem_of_lookup).
      rewrite (made_field specs k s j spec') by done. simpl. rewrite filter_cons_False; [done|].
      simpl. intros Heq%Nat2Z.inj. subst j. congruence.
Qed.
Lemma categorize_field specs k s i spec n tupdesc :
  specs_ok specs → made_of specs k s → specs !! i = Some spec →
  filter (λ e : SearchField * CategorizedFieldData, sf_id e.1 = Z.of_nat i) (categorize_spec s n tupdesc) =
    source_entry (spec_field (Z.of_nat i) spec) <$> sources_from n tupdesc (spec_field (Z.of_nat i) spec).
Proof.
  intros Hok Hs Hi. revert n. induction tupdesc as [|[a oid] tupdesc IH]; intros n; [done|].
  cbn [categorize_spec sources_from]. rewrite filter_app, IH, filter_map, !fmap_app, app_assoc. f_equal.
  assert (∀ l : list SearchField, filter (λ f, sf_id (categorize_attribute n oid f).1 = Z.of_nat i) l =
    filter (λ f, sf_id f = Z.of_nat i) l) as -> by done.
  rewrite (filled_by_field specs k s i spec a) by done. rewrite fmap_app. cbn [sf_config sf_name spec_field].
  by repeat case_decide.
Qed.

(** what an attribute adds to a field *)
Definition source_values (values : list RowDatum) (isnull : list bool) (src : nat * PgOid) : outcome (list OwnedValue) :=
  datum ← expect_ok (values !! src.1) "attribute";
  null ← expect_ok (isnull !! src.1) "attribute";
  if (null : bool) then Ok [] else field_values datum (categorized_data src.1 src.2).

Lemma traverse_filter {A B} (h : A → outcome (list (Field * B))) (P : A → Prop) `{!∀ x, Decision (P x)} (i : Z) l vss :
  traverse_ok h l = Ok vss →
  (∀ x vs, h x = Ok vs → P x → filter (λ kv, kv.1 = i) vs = vs) →
  (∀ x vs, h x = Ok vs → ¬ P x → filter (λ kv, kv.1 = i) vs = []) →
  ∃ wss, traverse_ok h (filter P l) = Ok wss ∧ filter (λ kv, kv.1 = i) (concat vss) = concat wss.
Proof.
  intros Hl Hin Hout. revert vss Hl. induction l as [|x l IH]; intros vss; [intros [= <-]; by exists []|].
  cbn [traverse_ok]. destruct (h x) as [vs| | |] eqn:Hx; [|done..].
  destruct (traverse_ok h l) as [vss'| | |] eqn:Hvss; [|done..]. intros [= <-].
  destruct (IH _ eq_refl) as (wss & Hwss & Hf). cbn [concat]. rewrite filter_app, Hf, filter_cons.
  destruct (decide (P x)) as [HP|HP].
  - exists (vs :: wss). cbn [traverse_ok]. rewrite Hx, Hwss. split; [done|]. cbn [concat]. by rewrite (Hin x vs).
  - exists wss. split; [done|]. by rewrite (Hout x vs).
Qed.

Lemma categorized_attno attno oid : cf_attno (categorized_data attno oid) = attno.
Proof. unfold categorized_data. by destruct (decide _). Qed.

Lemma entry_values_inv values isnull key f src vs :
  entry_values values isnull key (source_entry f src) = Ok vs →
  ∃ ws null, source_values values isnull src = Ok ws ∧ vs = (λ v, (sf_id f, v)) <$> ws ∧
    isnull !! src.1 = Some null ∧ (sf_name f = key → null = false).
Proof.
  unfold entry_values, source_values, source_entry, categorize_attribute. cbn [fst snd]. rewrite categorized_attno.
  destruct (values !! src.1) as [datum|]; [|done]. destruct (isnull !! src.1) as [null|]; [|done]. cbn [expect_ok mbind outcome_bind].
  destruct (String.eqb_spec key (sf_name f)) as [Hk|Hk], null; cbn [andb]; try done.
  - destruct (field_values datum _) as [ws| | |]; [|done..]. intros [= <-]. by exists ws, false.
  - intros [= <-]. exists [], true. split; [done|]. split; [done|]. split; [done|]. intros Heq. by destruct Hk.
  - destruct (field_values datum _) as [ws| | |]; [|done..]. intros [= <-]. by exists ws, false.
Qed.
Lemma sources_values values isnull key f srcs vss :
  traverse_ok (entry_values values isnull key) (source_entry f <$> srcs) = Ok vss →
  ∃ wss, traverse_ok (source_values values isnull) srcs = Ok wss ∧ (concat vss).*2 = concat wss ∧
    (sf_name f = key → Forall (λ src, isnull !! src.1 = Some false) srcs).
Proof.
  revert vss. induction srcs as [|src srcs IH]; intros vss.
  { intros [= <-]. exists []. repeat split; [done..|]. by constructor. }
  rewrite fmap_cons. cbn [traverse_ok].
  destruct (entry_values values isnull key (source_entry f src)) as [vs| | |] eqn:Hvs; [|done..].
  apply entry_values_inv in Hvs as (ws & null & Hws & -> & Hnull & Hkey).
  destruct (traverse_ok (entry_values values isnull key) _) as [vss'| | |]; [|done..]. intros [= <-].
  destruct (IH _ eq_refl) as (wss & -> & Hc & Hk). exists (ws :: wss). rewrite Hws. split; [done|]. split.
  - cbn [concat]. rewrite fmap_app, Hc, <- list_fmap_compose. f_equal. apply list_fmap_id.
  - intros Hn. constructor; [|by apply Hk]. by rewrite Hnull, (Hkey Hn).
Qed.
Lemma entry_values_ids values isnull key e vs :
  entry_values values isnull key e = Ok vs → Forall (λ kv, kv.1 = sf_id e.1) vs.
Proof.
  unfold entry_values. destruct (values !! _); [|done]. destruct (isnull !! _) as [null|]; [|done]. cbn [expect_ok mbind outcome_bind].
  destruct (_ && null); [done|]. destruct null; [intros [= <-]; constructor|].
  destruct (field_values _ _) as [ws| | |]; [|done..]. intros [= <-]. by apply Forall_fmap, Forall_true.
Qed.
Lemma filter_ids (vs : SearchDocument) (i j : Z) :
  Forall (λ kv, kv.1 = j) vs → filter (λ kv, kv.1 = i) vs = if decide (j = i) then vs else [].
Proof.
  induction 1 as [|kv vs Hkv _ IH]; [by case_decide|]. rewrite filter_cons, IH, Hkv. by case_decide.
Qed.
Lemma row_values_of specs k s tupdesc values isnull key (doc : SearchDocument) i spec :
  schema_new specs k = Ok s → NoDup tupdesc.*1 →
  row_to_search_document values isnull key (categorize_fields tupdesc s) [] = Ok doc →
  specs !! i = Some spec →
  ∃ vss, traverse_ok (source_values values isnull) (sources_from 0 tupdesc (spec_field (Z.of_nat i) spec)) = Ok vss ∧
    (filter (λ kv, kv.1 = Z.of_nat i) doc).*2 = concat vss ∧
    (spec.1.1 = key →
     Forall (λ src, isnull !! src.1 = Some false) (sources_from 0 tupdesc (spec_field (Z.of_nat i) spec))).
Proof.
  intros [Hok Hs]%schema_new_inv Hnd Hrow Hi. rewrite categorize_fields_spec in Hrow by done.
  rewrite row_document_run in Hrow.
  destruct (traverse_ok _ (categorize_spec s 0 tupdesc)) as [vss| | |] eqn:Hvss; [|done..]. injection Hrow as <-.
  destruct (traverse_filter (entry_values values isnull key)
    (λ e : SearchField * CategorizedFieldData, sf_id e.1 = Z.of_nat i) (Z.of_nat i) _ _ Hvss) as (wss & Hwss & Hf).
  - intros e vs He Hid. rewrite (filter_ids _ _ _ (entry_values_ids _ _ _ _ _ He)). by rewrite decide_True.
  - intros e vs He Hid. rewrite (filter_ids _ _ _ (entry_values_ids _ _ _ _ _ He)). by rewrite decide_False.
  - rewrite (categorize_field specs k s i spec) in Hwss by done.
    destruct (sources_values _ _ _ _ _ _ Hwss) as (uss & Huss & Hc & Hkey).
    exists uss. split; [done|]. split; [|done]. change ([] ++ concat vss) with (concat vss). by rewrite Hf.
Qed.
Lemma traverse_ok_elem {A B} (f : A → outcome (list B)) l vss v :
  traverse_ok f l = Ok vss → v ∈ concat vss → ∃ a vs, a ∈ l ∧ f a = Ok vs ∧ v ∈ vs.
Proof.
  revert vss. induction l as [|a l IH]; intros vss; simpl; [intros [= <-]; by intros ?%not_elem_of_nil|].
  destruct (f a) as [vs| | |] eqn:Ha; [|done..]. simpl. destruct (traverse_ok f l) as [vss'| | |]; [|done..].
  intros [= <-]. simpl. rewrite elem_of_app. intros [Hv|Hv].
  - exists a, vs. split; [by left|done].
  - destruct (IH _ eq_refl Hv) as (a' & vs' & Hin & ?). exists a', vs'. split; [by right|done].
Qed.


(** every value of a document is in a field of the schema *)
Lemma categorize_in specs k s n tupdesc e :
  specs_ok specs → made_of specs k s → e ∈ categorize_spec s n tupdesc →
  ∃ i spec, specs !! i = Some spec ∧ e.1 = spec_field (Z.of_nat i) spec.
Proof.
  intros Hok Hs. revert n. induction tupdesc as [|[a oid] tupdesc IH]; intros n; [by intros ?%not_elem_of_nil|].
  cbn [categorize_spec]. rewrite elem_of_app. intros [(f & -> & Hf)%list_elem_of_fmap|Hin]; [|by eapply IH].
  cbn [fst categorize_attribute]. unfold filled_by in Hf. apply elem_of_app in Hf as [[_ Hf]%list_elem_of_filter|Hf].
  { by apply (made_in specs k s f Hs). }
  destruct (decide (a ∈ spec_names specs)) as [(spec & -> & [i Hi]%list_elem_of_lookup)%list_elem_of_fmap|Hn].
  - rewrite (made_field specs k s i spec) in Hf by done. apply list_elem_of_singleton in Hf as ->. by exists i, spec.
  - rewrite (made_no_field specs k s) in Hf by done. by apply not_elem_of_nil in Hf.
Qed.
Lemma document_fields specs k s tupdesc values isnull key doc i v :
  specs_ok specs → made_of specs k s → NoDup tupdesc.*1 →
  row_to_search_document values isnull key (categorize_fields tupdesc s) [] = Ok doc → (i, v) ∈ doc →
  ∃ j spec, specs !! j = Some spec ∧ i = Z.of_nat j.
Proof.
  intros Hok Hs Hnd Hrow Hin. rewrite categorize_fields_spec, row_document_run in Hrow by done.
  destruct (traverse_ok _ _) as [vss| | |] eqn:Hvss; [|done..]. injection Hrow as <-.
  destruct (traverse_ok_elem _ _ _ _ Hvss Hin) as (e & vs & He & Hvs & Hv).
  apply entry_values_ids in Hvs. rewrite Forall_forall in Hvs. specialize (Hvs _ Hv).
  destruct (categorize_in specs k s 0 tupdesc e Hok Hs He) as (j & spec & Hj & Hf). exists j, spec.
  split; [done|]. simpl in Hvs. by rewrite Hvs, Hf.
Qed.
End row_lemmas.

(** C6: The document of a row holds for each field exactly the values of its sources -
    the column with its name and the column its configuration names, those of the two
    that are in the index, twice if they are one - in the order of the index's columns,
    array elements one by one and nulls not at all; with a null key there is no
    document. Every value is of one of the fields listed for the schema, so the tuple's
    address is not yet among them. *)
Theorem row_document_values `{RustF64} `{TantivyTypes} `{TantivyText} `{Chrono} `{!PgrxTypes} `{!TimeCrate}
    `{!PgDatums} `{PgTypes} `{SerdeLanguage} `{TantivySchema} (specs : list FieldSpec) (k : Z) (s : SearchIndexSchema)
    (tupdesc : list (string * PgOid)) (values : list RowDatum) (isnull : list bool) (key : string)
    (doc : list (Field * OwnedValue)) :
  schema_new specs k = Ok s → NoDup tupdesc.*1 →
  row_to_search_document values isnull key (categorize_fields tupdesc s) [] = Ok doc →
  (∀ (i : nat) spec, specs !! i = Some spec →
   ∃ vss, traverse_ok (source_values values isnull) (sources_from 0 tupdesc (spec_field (Z.of_nat i) spec)) = Ok vss ∧
     (filter (λ kv, kv.1 = Z.of_nat i) doc).*2 = concat vss ∧
     (spec.1.1 = key →
      Forall (λ src, isnull !! src.1 = Some false) (sources_from 0 tupdesc (spec_field (Z.of_nat i) spec)))) ∧
  (∀ id v, (id, v) ∈ doc → ∃ (i : nat) spec, specs !! i = Some spec ∧ id = Z.of_nat i).
Proof.
  intros Hs Hnd Hrow. split.
  - intros i spec Hi. by eapply row_values_of.
  - intros id v Hin. destruct (schema_new_inv _ _ _ Hs) as [Hok Hm].
    by apply (document_fields specs k s tupdesc values isnull key doc id v).
Qed.

(** ** The types of the values of a document *)

Section typed.
Context `{RustF64} `{TantivyTypes} `{TantivyText} `{Chrono} `{!PgrxTypes} `{!TimeCrate} `{!PgDatums} `{PgTypes}.
Context `{SerdeLanguage} `{TantivySchema}.
Implicit Types (s : SearchIndexSchema) (tupdesc : list (string * PgOid)).

(** a value of a field: in a JSON field, the value of a JSON that is not an array *)
Definition typed (t : SearchFieldType) (v : OwnedValue) : Prop :=
  if decide (t = SJson) then ∃ j, v = owned_from_json j ∧ is_json_array j = false else value_of_type t v = true.

Lemma categorized_base attno oid : cf_base_oid (categorized_data attno oid) = base_oid oid.
Proof. unfold categorized_data, base_oid. by destruct (decide (get_element_type oid ≠ PgInvalid)). Qed.

Lemma json_values_typed j : Forall (typed SJson) (json_value_to_tantivy_value j).
Proof.
  destruct (json_flattened j) as [-> Hl]. apply Forall_fmap. eapply Forall_impl; [exact Hl|].
  intros j' Hj'. cbv [typed compose]. case_decide; [by exists j'|done].
Qed.
Lemma datum_typed datum oid v t :
  try_from_datum datum oid = Ok v → search_field_type oid = Ok t → typed t v.
Proof.
  intros Hv Ht. pose proof (try_from_datum_type _ _ _ _ Hv Ht) as Hty. unfold typed. case_decide as Hj; [|done]. subst t.
  destruct oid as [oid|custom|]; [|cbn in Ht; by destruct (type_is_enum custom)|done]. by destruct oid.
Qed.
Lemma field_values_typed datum attno oid vs t :
  field_values datum (categorized_data attno oid) = Ok vs → search_field_type (base_oid oid) = Ok t →
  Forall (typed t) vs.
Proof.
  unfold field_values. rewrite categorized_base. generalize (base_oid oid) as b. intros b Hv Ht.
  destruct (cf_is_array _).
  { unfold try_from_datum_array in Hv. destruct b as [b| |]; [|done..].
    assert (∃ array, traverse_ok (λ d, try_from_datum d (PgBuiltIn b)) (omap id array) = Ok vs) as [array Ha]
      by (destruct b; try done; apply deref_bind_ok in Hv as (a & _ & Ha); by exists a).
    eapply traverse_ok_forall; [exact Ha|]. intros d v Hd.
    exact (datum_typed _ _ _ _ Hd Ht). }
  destruct (cf_is_json _).
  { unfold try_from_datum_json in Hv. destruct b as [b| |]; [|done..].
    destruct b; try done; injection Ht as <-; apply deref_bind_ok in Hv as (j & _ & Hv); injection Hv as <-;
      apply json_values_typed. }
  destruct (try_from_datum datum b) as [v| | |] eqn:Hd; [|done..]. injection Hv as <-.
  apply Forall_singleton. by eapply datum_typed.
Qed.

Lemma sources_from_in n tupdesc f src :
  src ∈ sources_from n tupdesc f → ∃ attname, (attname, src.2) ∈ tupdesc ∧ source_of f attname.
Proof.
  revert n. induction tupdesc as [|[a oid] tupdesc IH]; intros n; [by intros ?%not_elem_of_nil|].
  cbn [sources_from]. rewrite !elem_of_app. intros [Hin|[Hin|Hin]].
  - case_decide as Hc; [|by apply not_elem_of_nil in Hin]. apply list_elem_of_singleton in Hin as ->.
    exists a. split; [by left|by right].
  - case_decide as Hc; [|by apply not_elem_of_nil in Hin]. apply list_elem_of_singleton in Hin as ->.
    exists a. split; [by left|by left].
  - destruct (IH _ Hin) as (a' & ? & ?). exists a'. split; [by right|done].
Qed.
Lemma source_values_typed values isnull src vs t :
  source_values values isnull src = Ok vs → search_field_type (base_oid src.2) = Ok t → Forall (typed t) vs.
Proof.
  unfold source_values. destruct (values !! src.1) as [datum|]; [|done]. destruct (isnull !! src.1) as [null|]; [|done].
  cbn [expect_ok mbind outcome_bind]. destruct null; [intros [= <-] _; constructor|]. by apply field_values_typed.
Qed.
(** the type of a described field is that of each of its sources *)
Lemma described_source_type heap attrs configs key kt f attname oid `{SerdeRecord} :
  field_described (index_columns heap attrs) configs key kt f →
  NoDup heap.*1 → NoDup (index_columns heap attrs).*1 → name_type_map heap !! key = Some kt →
  (∀ name json, configs !! name = Some json → name ∈ (index_columns heap attrs).*1 → alias_column json = None) →
  (attname, oid) ∈ index_columns heap attrs → source_of (spec_field 0 f) attname →
  search_field_type (base_oid oid) = Ok f.2.
Proof.
  intros Hd Hheap Hnd Hkt Hnocol Hin Hsrc.
  assert (∀ name o, (name, o) ∈ index_columns heap attrs → (name, o) ∈ heap) as Hsub.
  { intros name o (a & _ & Ha)%list_elem_of_omap. unfold znth in Ha. destruct (0 <=? a - 1); [|done].
    by eapply list_elem_of_lookup_2. }
  destruct Hd as [|name o t config Hne Ho Ht Hc|name json c t config Hn Hj Hcol Hct Hc]; unfold source_of in Hsrc;
    cbn [sf_name sf_config spec_field fst snd] in Hsrc |- *.
  - assert (attname = key) as -> by (destruct Hsrc as [?|Hk]; [done|by destruct kt]).
    by apply (name_type_map_column heap key oid); [|apply Hsub|].
  - apply json_value_column in Hc.
    assert (attname = name) as ->.
    { destruct Hsrc as [?|Hk]; [done|]. rewrite Hc in Hk. destruct (configs !! name) as [json|] eqn:Hj; [|done].
      simpl in Hk. rewrite (Hnocol name json Hj) in Hk; [done|]. by apply (list_elem_of_fmap_2 fst) in Ho. }
    by rewrite (assoc_unique _ name oid o Hnd Hin Ho).
  - apply json_value_column in Hc. rewrite Hcol in Hc.
    assert (attname = c) as ->.
    { destruct Hsrc as [->|Hk]; [|congruence]. destruct Hn. by apply (list_elem_of_fmap_2 fst) in Hin. }
    unfold column_type in Hct. case_decide as Hck.
    + subst c t. by apply (name_type_map_column heap key oid); [|apply Hsub|].
    + destruct Hct as (o & Ho & Ht). by rewrite (assoc_unique _ c oid o Hnd Hin Ho).
Qed.
End typed.

(** C7: Documents are well typed: every value a row puts into the document of an index
    whose aliases are no columns belongs to a field of the schema and has the type that
    field was made for, whatever the datums decode to. *)
Theorem documents_typed `{RustF64} `{TantivyTypes} `{TantivyText} `{Chrono} `{!PgrxTypes} `{!TimeCrate}
    `{!PgDatums} `{PgTypes} `{SerdeLanguage} `{SerdeRecord} `{SerdeJsonText} `{HashIteration} `{TantivySchema}
    (opts : SearchIndexCreateOptions) (heap : list (string * PgOid)) (attrs : list Z) (key : string) (kt : SearchFieldType)
    (configs : gmap string Json) (fields : list FieldSpec) (k : Z) (s : SearchIndexSchema)
    (values : list RowDatum) (isnull : list bool) (doc : list (Field * OwnedValue)) :
  get_fields (Some opts) heap attrs = Ok (fields, k) → schema_new fields k = Ok s →
  get_key_field opts = Some key → name_type_map heap !! key = Some kt → config_by_name opts = Ok configs →
  NoDup heap.*1 → NoDup (index_columns heap attrs).*1 → key ∈ (index_columns heap attrs).*1 →
  chain_free (index_columns heap attrs) configs →
  (∀ name json, configs !! name = Some json → name ∈ (index_columns heap attrs).*1 → alias_column json = None) →
  row_to_search_document values isnull key (categorize_fields (index_columns heap attrs) s) [] = Ok doc →
  ∀ i v, (i, v) ∈ doc → ∃ spec, znth fields i = Some spec ∧ typed spec.2 v.
Proof.
  intros Hf Hs Hkey Hkt Hcfg Hheap Hnd Hkin Hch Hnocol Hrow i v Hin.
  destruct (schema_new_inv _ _ _ Hs) as [Hok Hm].
  destruct (document_fields _ _ _ _ _ _ _ _ _ _ Hok Hm Hnd Hrow Hin) as (j & spec & Hj & ->).
  exists spec. split; [rewrite znth_lookup by lia; by rewrite Nat2Z.id|].
  destruct (row_values_of fields k s _ values isnull key doc j spec Hs Hnd Hrow Hj) as (vss & Hvss & Hfilter & _).
  assert (v ∈ concat vss) as Hv.
  { rewrite <- Hfilter. apply list_elem_of_fmap. exists (Z.of_nat j, v). split; [done|]. by apply list_elem_of_filter. }
  destruct (traverse_ok_elem _ _ _ _ Hvss Hv) as ([attno oid] & vs & Hsrc & Hvs & Hvin).
  apply sources_from_in in Hsrc as (attname & Hain & Hsrc).
  assert (field_described (index_columns heap attrs) configs key kt spec) as Hd.
  { destruct (described_fields (Some opts) heap attrs key kt configs fields k) as (_ & _ & Hd); [done..|].
    apply Hd. by eapply list_elem_of_lookup_2. }
  assert (search_field_type (base_oid oid) = Ok spec.2) as Ht by by eapply described_source_type.
  pose proof (source_values_typed _ _ _ _ _ Hvs Ht) as Hall. rewrite Forall_forall in Hall. by apply Hall.
Qed.

(** the types of columns that an index takes but whose values it cannot: *)
Definition unindexable `{PgTypes} (oid : PgOid) : bool :=
  if decide (get_element_type oid ≠ PgInvalid) then
    match get_element_type oid with
    | PgBuiltIn (JSONOID | JSONBOID | XIDOID | INT4RANGEOID | INT8RANGEOID | NUMRANGEOID | DATERANGEOID
                 | TSRANGEOID | TSTZRANGEOID) | PgCustom _ => true
    | _ => false
    end
  else match oid with PgBuiltIn XIDOID => true | _ => false end.

(** The schema accepts columns no row can be inserted into: a column of type xid,
    and arrays of types without an element conversion, make a field, and every row with
    a value there fails. *)
Theorem accepted_types_fail_on_insert `{RustF64} `{TantivyTypes} `{TantivyText} `{Chrono} `{!PgrxTypes} `{!TimeCrate}
    `{!PgDatums} `{PgTypes} `{SerdeLanguage} `{TantivySchema} (values : list RowDatum) (isnull : list bool) (key : string)
    (f : SearchField) (attno : nat) (oid : PgOid) (rest : list (SearchField * CategorizedFieldData))
    (doc : list (Field * OwnedValue)) :
  unindexable oid = true →
  ((∃ custom, base_oid oid = PgCustom custom) ∨ ∃ t, search_field_type (base_oid oid) = Ok t) ∧
  (is_Some (values !! attno) → isnull !! attno = Some false →
   ∃ msg, row_to_search_document values isnull key ((f, categorized_data attno oid) :: rest) doc = Err msg).
Proof.
  intros Hun. split.
  - unfold unindexable, base_oid in *. case_decide.
    + destruct (get_element_type oid) as [b|custom|]; [right|left; by eexists|done].
      destruct b; try discriminate Hun; by eexists.
    + right. destruct oid as [b|?|]; [|done..]. destruct b; try discriminate Hun. by eexists.
  - intros [datum Hd] Hn. cbn [row_to_search_document]. rewrite categorized_attno, Hd, Hn. cbn [expect_ok mbind outcome_bind].
    rewrite andb_false_r.
    assert (∃ msg, field_values datum (categorized_data attno oid) = Err msg) as [msg ->]; [|by eexists].
    unfold field_values. rewrite categorized_base. unfold unindexable, base_oid, categorized_data in *. case_decide; simpl.
    + unfold try_from_datum_array. destruct (get_element_type oid) as [b|custom|]; [|by eexists..].
      destruct b; try discriminate Hun; by eexists.
    + destruct oid as [b|?|]; [|done..]. destruct b; try discriminate Hun. by eexists.
Qed.
