(* ===== verification/Api.v ===== *)
(** * Api: the SQL functions that build queries

    [api/index.rs]: the functions of the schema [paradedb] whose results are
    [SearchQueryInput]s, and [schema], which lists the fields of an index.  An argument
    that may be NULL is an [option]. *)

From S2P Require Import Prelude Page Block PgUtils TokenizerConfig Query RangeQuery Schema Rows.

Open Scope Z_scope.

(** casts of [i32] arguments *)
Definition cast_u8 (n : Z) : Z := n mod 2 ^ 8.
Definition cast_u64 (n : Z) : Z := n mod 2 ^ 64.

(** what Tantivy tells of a field entry, and [json5::from_str] into a hash map, in its order *)
Class TantivyFieldEntry := {
  index_option : TextFieldIndexing → IndexRecordOption;
  tokenizer_of : TextFieldIndexing → string;
  is_stored : FieldOptions → bool;
  is_indexed : FieldOptions → bool;
  is_fast : FieldOptions → bool;
  has_fieldnorms : FieldOptions → bool
}.
Class Json5 `{RustF64} `{TantivyTypes} := {
  json5_from_str : string → option (list (string * OwnedValue))
}.

Inductive RangeRelation := Intersects | Contains | Within.
Definition relation_to_string (r : RangeRelation) : string :=
  match r with Intersects => "Intersects" | Contains => "Contains" | Within => "Within" end.

(** ** [schema] *)

Record SchemaRow := {
  row_name : string;
  row_field_type : string;
  row_stored : bool;
  row_indexed : bool;
  row_fast : bool;
  row_fieldnorms : bool;
  row_expand_dots : option bool;
  row_tokenizer : option string;
  row_record : option string;
  row_normalizer : option string
}.

Section schema.
Context `{TantivySchema} `{TantivyFieldEntry}.

(** the type, the tokenizer, the record, the normalizer and whether dots expand *)
Definition entry_details (o : FieldOptions)
    : string * option string * option string * option string * option bool :=
  match o with
  | AddI64 _ => ("I64"%string, None, None, None, None)
  | AddU64 _ => ("U64"%string, None, None, None, None)
  | AddF64 _ => ("F64"%string, None, None, None, None)
  | AddBool _ => ("Bool"%string, None, None, None, None)
  | AddText text_options =>
      let indexing_options := text_indexing text_options in
      ("Str"%string, tokenizer_of <$> indexing_options,
       (λ opt, record_to_string (index_option opt)) <$> indexing_options, text_fast text_options, None)
  | AddJson json_options =>
      let indexing_options := json_indexing json_options in
      ("JsonObject"%string, tokenizer_of <$> indexing_options,
       (λ opt, record_to_string (index_option opt)) <$> indexing_options, json_fast json_options,
       Some (json_expand_dots json_options))
  | AddDate _ => ("Date"%string, None, None, None, None)
  end.
Definition schema_row (entry : string * FieldOptions) : SchemaRow :=
  let '(field_type, tokenizer, record, normalizer, expand_dots) := entry_details entry.2 in
  {| row_name := entry.1; row_field_type := field_type; row_stored := is_stored entry.2;
     row_indexed := is_indexed entry.2; row_fast := is_fast entry.2; row_fieldnorms := has_fieldnorms entry.2;
     row_expand_dots := expand_dots; row_tokenizer := tokenizer; row_record := record; row_normalizer := normalizer |}.
(** a stable sort by name, then a row for each field *)
Definition name_le (a b : string * FieldOptions) : Prop := String.le a.1 b.1.
#[export] Instance name_le_dec : RelDecision name_le := λ a b, decide (String.le a.1 b.1).
Definition schema_rows (schema : Schema) : list SchemaRow := schema_row <$> merge_sort name_le (schema_entries schema).
End schema.

(** ** The functions *)

Section builders.
Context `{RustF64} `{TantivyTypes} `{TantivyText} `{Chrono} `{!PgrxTypes} `{!TimeCrate} `{!PgDatums} `{PgTypes}
  `{!Json5}.
Notation FieldName := string.

Definition all : SearchQueryInput := Input.All.
Definition boolean_arrays (must should must_not : list SearchQueryInput) : SearchQueryInput :=
  Input.Boolean must should must_not.
Definition boolean_singles (must should must_not : option SearchQueryInput) : SearchQueryInput :=
  boolean_arrays (option_list must) (option_list should) (option_list must_not).
Definition boost (factor : F32) (query : SearchQueryInput) : SearchQueryInput := Input.Boost query factor.
Definition const_score (score : F32) (query : SearchQueryInput) : SearchQueryInput := Input.ConstScore query score.
(** [iter_deny_null] panics at a null element *)
Definition disjunction_max (disjuncts : list (option SearchQueryInput)) (tie_breaker : option F32)
    : outcome SearchQueryInput :=
  disjuncts ← traverse_ok (λ d, expect_ok d "array contains NULL") disjuncts;
  Ok (Input.DisjunctionMax disjuncts tie_breaker).
Definition sql_empty : SearchQueryInput := Input.Empty.
Definition sql_exists (field : FieldName) : SearchQueryInput := Input.Exists field.

(** [match range.into_inner()]: [default] are the bounds of an empty range *)
Definition range_bound {T A} (into : T → outcome A) (b : Bound T) : outcome (Bound A) :=
  match b with
  | Unbounded => Ok Unbounded
  | Included n => v ← into n; Ok (Included v)
  | Excluded n => v ← into n; Ok (Excluded v)
  end.
Definition range_bounds {T A} (default : A) (into : T → outcome A) (range : PgRange T) : outcome (Bound A * Bound A) :=
  match range with
  | RangeEmpty => Ok (Included default, Excluded default)
  | RangeOf lower upper =>
      lower_bound ← range_bound into lower;
      upper_bound ← range_bound into upper;
      Ok (lower_bound, upper_bound)
  end.

Definition fast_field_range_weight (field : FieldName) (range : option (PgRange Z)) : outcome SearchQueryInput :=
  range ← expect_ok range "`range` argument is required";
  '(lower_bound, upper_bound) ← range_bounds 0 (λ n, Ok (cast_u64 n)) range;
  Ok (Input.FastFieldRangeWeight field lower_bound upper_bound).

Definition sql_fuzzy_term (field : FieldName) (value : option string) (distance : option Z)
    (transposition_cost_one prefix : option bool) : outcome SearchQueryInput :=
  value ← expect_ok value "`value` argument is required";
  Ok (Input.FuzzyTerm field value (cast_u8 <$> distance) transposition_cost_one prefix).
Definition sql_fuzzy_phrase (field : FieldName) (value : option string) (distance : option Z)
    (transposition_cost_one prefix match_all_terms : option bool) : outcome SearchQueryInput :=
  value ← expect_ok value "`value` argument is required";
  Ok (Input.FuzzyPhrase field value (cast_u8 <$> distance) transposition_cost_one prefix match_all_terms).

Definition more_like_this_empty : outcome SearchQueryInput :=
  Panic "more_like_this must be called with either document_id or document_fields".
Definition more_like_this_fields (document_fields : string) (min_doc_frequency max_doc_frequency min_term_frequency
    max_query_terms min_word_length max_word_length : option Z) (boost_factor : option F32)
    (stop_words : option (list string)) : outcome SearchQueryInput :=
  document_fields ← expect_ok (json5_from_str document_fields) "could not parse document_fields";
  Ok (Input.MoreLikeThis (cast_u64 <$> min_doc_frequency) (cast_u64 <$> max_doc_frequency) (cast_u64 <$> min_term_frequency)
        (cast_u64 <$> max_query_terms) (cast_u64 <$> min_word_length) (cast_u64 <$> max_word_length) boost_factor stop_words
        (Some document_fields) None).
Definition more_like_this_id (document_id : RowDatum) (document_oid : PgOid) (min_doc_frequency max_doc_frequency
    min_term_frequency max_query_terms min_word_length max_word_length : option Z) (boost_factor : option F32)
    (stop_words : option (list string)) : outcome SearchQueryInput :=
  id ← expect_res (try_from_datum document_id document_oid) "could not read more_like_this document_id";
  Ok (Input.MoreLikeThis (cast_u64 <$> min_doc_frequency) (cast_u64 <$> max_doc_frequency) (cast_u64 <$> min_term_frequency)
        (cast_u64 <$> max_query_terms) (cast_u64 <$> min_word_length) (cast_u64 <$> max_word_length) boost_factor stop_words
        None (Some id)).

Definition sql_parse (query_string : string) (lenient conjunction_mode : option bool) : SearchQueryInput :=
  Input.Parse query_string lenient conjunction_mode.
Definition sql_parse_with_field (field : FieldName) (query_string : string) (lenient conjunction_mode : option bool)
    : SearchQueryInput :=
  Input.ParseWithField field query_string lenient conjunction_mode.
Definition sql_phrase (field : FieldName) (phrases : list string) (slop : option Z) : SearchQueryInput :=
  Input.Phrase field phrases (as_u32 <$> slop).
Definition sql_phrase_prefix (field : FieldName) (phrases : list string) (max_expansion : option Z) : SearchQueryInput :=
  Input.PhrasePrefix field phrases (as_u32 <$> max_expansion).
Definition sql_regex (field : FieldName) (pattern : string) : SearchQueryInput := Input.Regex field pattern.
Definition sql_regex_phrase (field : FieldName) (regexes : list string) (slop max_expansions : option Z)
    : SearchQueryInput :=
  Input.RegexPhrase field regexes (as_u32 <$> slop) (as_u32 <$> max_expansions).

(** *** [range] *)

Definition range_int (field : FieldName) (range : PgRange Z) : outcome SearchQueryInput :=
  '(lower_bound, upper_bound) ← range_bounds (OI64 0) (λ n, Ok (OI64 n)) range;
  Ok (Input.Range field lower_bound upper_bound false).
Definition range_i32 := range_int.
Definition range_i64 := range_int.
Definition range_numeric (field : FieldName) (range : PgRange AnyNumeric) : outcome SearchQueryInput :=
  '(lower_bound, upper_bound) ←
    range_bounds (OF64 (f64_of_Z 0))
      (λ n, x ← expect_ok (numeric_to_f64 n) "numeric should be a valid f64"; Ok (OF64 x)) range;
  Ok (Input.Range field lower_bound upper_bound false).
(** [datetime_range_fn!] *)
Definition as_datetime (v : OwnedValue) : option Z := match v with ODate val => Some val | _ => None end.
Definition datetime_range_fn {T} (try_from : T → outcome OwnedValue) (field : FieldName) (range : PgRange T)
    : outcome SearchQueryInput :=
  '(lower_bound, upper_bound) ←
    range_bounds (ODate (from_timestamp_micros 0))
      (λ n, v ← expect_res (try_from n) "n should be a valid TantivyValue representation";
            d ← expect_ok (as_datetime v) "OwnedValue should be a valid datetime value"; Ok (ODate d)) range;
  Ok (Input.Range field lower_bound upper_bound true).
Definition range_date := datetime_range_fn from_date.
Definition range_timestamp := datetime_range_fn from_timestamp.
Definition range_timestamptz := datetime_range_fn from_timestamptz.

(** *** [term] *)

Definition is_date_value (v : OwnedValue) : bool := match v with ODate _ => true | _ => false end.
(** [term_fn!] *)
Definition term_fn {T} (try_from : T → outcome OwnedValue) (field : option FieldName) (value : option T)
    : outcome SearchQueryInput :=
  match value with
  | Some value =>
      tantivy_value ← expect_res (try_from value) "value should be a valid TantivyValue representation";
      Ok (Input.Term field tantivy_value (is_date_value tantivy_value))
  | None => Panic "no value provided to term query"
  end.
Definition term_anyenum (field : FieldName) (ordinal : option F32) : outcome SearchQueryInput :=
  tantivy_value ← expect_res (from_any_enum ordinal) "value should be a valid TantivyValue representation";
  Ok (Input.Term (Some field) tantivy_value (is_date_value tantivy_value)).
(** [term_fn_unsupported!] *)
Definition term_fn_unsupported (term_type : string) (field : FieldName) : outcome SearchQueryInput :=
  Panic ("not implemented: " +:+ term_type +:+ " in term query not implemented").
Definition term_bytes := term_fn from_vec.
Definition term_str := term_fn from_string.
Definition term_i8 := term_fn from_i8.
Definition term_i16 := term_fn from_i16.
Definition term_i32 := term_fn from_i32.
Definition term_i64 := term_fn from_i64.
Definition term_f32 := term_fn from_f32.
Definition term_f64 := term_fn from_f64.
Definition term_bool := term_fn from_bool.
Definition term_date := term_fn from_date.
Definition term_time := term_fn from_time.
Definition term_timestamp := term_fn from_timestamp.
Definition term_timetz := term_fn from_timetz.
Definition term_timestamptz := term_fn from_timestamptz.
Definition term_numeric := term_fn from_numeric.
Definition term_uuid := term_fn from_uuid.

(** *** [range_term] *)

(** [range_term_fn!] *)
Definition range_term_fn {T} (try_from : T → outcome OwnedValue) (is_datetime : bool) (field : FieldName) (value : T)
    : outcome SearchQueryInput :=
  value ← expect_res (try_from value) "term should be a valid TantivyValue representation";
  Ok (Input.RangeTerm field value is_datetime).
Definition range_term_i8 := range_term_fn from_i8 false.
Definition range_term_i16 := range_term_fn from_i16 false.
Definition range_term_i32 := range_term_fn from_i32 false.
Definition range_term_i64 := range_term_fn from_i64 false.
Definition range_term_f32 := range_term_fn from_f32 false.
Definition range_term_f64 := range_term_fn from_f64 false.
Definition range_term_numeric := range_term_fn from_numeric false.
Definition range_term_date := range_term_fn from_date true.
Definition range_term_timestamp := range_term_fn from_timestamp true.
Definition range_term_timestamptz := range_term_fn from_timestamptz true.

(** [range_term_range_fn!] *)
Definition range_term_range_fn {T} (try_from : T → outcome OwnedValue) (is_datetime : bool) (default : OwnedValue)
    (field : FieldName) (range : PgRange T) (relation : RangeRelation) : outcome SearchQueryInput :=
  '(lower_bound, upper_bound) ←
    range_bounds default (λ n, expect_res (try_from n) "value should be a valid TantivyValue representation") range;
  Ok match relation with
     | Intersects => Input.RangeIntersects field lower_bound upper_bound is_datetime
     | Contains => Input.RangeContains field lower_bound upper_bound is_datetime
     | Within => Input.RangeWithin field lower_bound upper_bound is_datetime
     end.
Definition range_term_range_int4range := range_term_range_fn from_i32 false (OI64 0).
Definition range_term_range_int8range := range_term_range_fn from_i64 false (OI64 0).
Definition range_term_range_numrange := range_term_range_fn from_numeric false (OF64 (f64_of_Z 0)).
Definition range_term_range_daterange := range_term_range_fn from_date true (ODate (from_timestamp_micros 0)).
Definition range_term_range_tsrange := range_term_range_fn from_timestamp true (ODate (from_timestamp_micros 0)).
Definition range_term_range_tstzrange := range_term_range_fn from_timestamptz true (ODate (from_timestamp_micros 0)).

(** *** [term_set]: a term without a field is left out *)

Fixpoint term_inputs (terms : list SearchQueryInput) : outcome (list Input.TermInput) :=
  match terms with
  | [] => Ok []
  | Input.Term field value is_datetime :: terms =>
      rest ← term_inputs terms;
      Ok (match field with
          | Some field => {| Input.field := field; Input.value := value; Input.is_datetime := is_datetime |} :: rest
          | None => rest
          end)
  | _ :: _ => Panic "only term queries can be passed to term_set"
  end.
Definition sql_term_set (terms : list SearchQueryInput) : outcome SearchQueryInput :=
  terms ← term_inputs terms; Ok (Input.TermSet terms).
End builders.

(** ** What the functions promise *)

Section promises.
Context `{RustF64} `{TantivyTypes} `{TantivyText} `{Chrono} `{!PgrxTypes} `{!TimeCrate}.

(** how the document [Q] documents of a stored range compares with the range [Q] of a query *)
Definition relation_holds (relation : RangeRelation) (R Q : PgRange Z) : Prop :=
  match relation with
  | Intersects => ∃ x, in_range R x ∧ in_range Q x
  | Contains => ∀ x, in_range R x → in_range Q x
  | Within => ∀ x, in_range Q x → in_range R x
  end.

(** the bounds of an integer range; those of the empty one are [\[0, 0)] *)
Definition int_bounds (Q : PgRange Z) : Bound Z * Bound Z :=
  match Q with RangeEmpty => (Included 0, Excluded 0) | RangeOf lo hi => (lo, hi) end.
Lemma int_bounds_range Q x : in_range Q x ↔ above (int_bounds Q).1 x ∧ below (int_bounds Q).2 x.
Proof. destruct Q as [|lo hi]; [|done]. cbn. split; [done|lia]. Qed.
Lemma int_bounds_ok Q : discrete Q → no_overflow (int_bounds Q).1 (int_bounds Q).2 ∧ ordered (int_bounds Q).1 (int_bounds Q).2.
Proof.
  destruct Q as [|lo hi]; intros Hd.
  - split; [by split|]. intros a b [= <-] [= <-]. lia.
  - destruct Hd as (Hm & Hlo & Hhi). destruct lo as [a|a|]; [|by destruct (Hlo a)|];
      (destruct hi as [b|b|]; [by destruct (Hhi b)| |]); (split; [by split|]); intros a' b' [= <-] [= <-]; cbn in Hm; lia.
Qed.
Lemma range_term_input field Q relation :
  range_term_range_int8range field Q relation =
    Ok (let '(lo, hi) := int_bounds Q in
        match relation with
        | Intersects => Input.RangeIntersects field (map_bound OI64 lo) (map_bound OI64 hi) false
        | Contains => Input.RangeContains field (map_bound OI64 lo) (map_bound OI64 hi) false
        | Within => Input.RangeWithin field (map_bound OI64 lo) (map_bound OI64 hi) false
        end).
Proof. destruct Q as [|[] []], relation; done. Qed.
End promises.

(** C14: The SQL function range_term does with integer ranges what the docs say, for
    every range Postgres can pass, the empty one too: the query that Intersects,
    Contains or Within builds and converts to matches the document of a stored range
    exactly when the two share an integer, the stored range is a subset of the argument,
    or the argument a subset of it. *)
Theorem range_term_relations `{RustF64} `{TantivyTypes} `{TantivyText} `{TantivyRegex} `{RustBuild}
    `{Chrono} `{!PgDates} `{!PgrxTypes} `{!TimeCrate} `{AsFieldType} `{!TantivyParser} `{!TantivySearcher}
    `{!TantivySearch} (p : QueryParser) field dots oid f (Q : PgRange Z) (relation : RangeRelation) :
  as_field_type field = Some (FJsonObject dots, oid, f) → discrete Q →
  ∃ input q, range_term_range_int4range field Q relation = Ok input ∧
    range_term_range_int8range field Q relation = Ok input ∧
    into_tantivy_query input p = Ok (q, p) ∧
    ∀ d R, discrete R → indexed_as KInt f d (document R) → matches q d ↔ relation_holds relation R Q.
Proof.
  intros Hf [Hov Ho]%int_bounds_ok. pose proof (int_bounds_range Q) as Hin.
  change (range_term_range_int4range field Q relation) with (range_term_range_int8range field Q relation).
  rewrite range_term_input. destruct (int_bounds Q) as [lo hi]. cbn [fst snd] in *.
  destruct relation; unfold relation_holds; setoid_rewrite Hin.
  - destruct (range_intersects_overlap p field dots oid f false lo hi Hf Hov Ho) as (q & Hq & Hm). by eexists _, q.
  - destruct (range_contains_subset p field dots oid f false lo hi Hf Hov) as (q & Hq & Hm). by eexists _, q.
  - destruct (range_within_superset p field dots oid f false lo hi Hf Hov Ho) as (q & Hq & Hm). by eexists _, q.
Qed.

(** the inputs of terms *)
Lemma term_inputs_ok `{RustF64} `{TantivyTypes} (terms : list (option string * OwnedValue * bool)) :
  term_inputs ((λ '(field, value, dt), Input.Term field value dt) <$> terms) =
    Ok (omap (λ '(field, value, dt),
          (λ field, {| Input.field := field; Input.value := value; Input.is_datetime := dt |}) <$> (field : option string)) terms).
Proof.
  induction terms as [|[[field value] dt] terms IH]; [done|]. cbn [fmap list_fmap term_inputs]. rewrite IH. cbn.
  by destruct field.
Qed.
(** A term set keeps the terms with a field; one without a field, which alone is looked for in every field, is dropped
    without an error, and anything that is no term panics. *)
Theorem term_set_drops_unqualified `{RustF64} `{TantivyTypes}
    (terms : list (option string * OwnedValue * bool)) (value : OwnedValue) (dt : bool) :
  let inputs := (λ '(field, value, dt), Input.Term field value dt) <$> terms in
  sql_term_set (inputs ++ [Input.Term None value dt]) = sql_term_set inputs ∧
  ∃ input, sql_term_set inputs = Ok input.
Proof.
  unfold sql_term_set. cbn zeta. split.
  - pose proof (term_inputs_ok (terms ++ [(None, value, dt)])) as Ha. rewrite fmap_app in Ha. cbn [fmap list_fmap] in Ha.
    rewrite Ha, term_inputs_ok, omap_app. cbn. by rewrite app_nil_r.
  - rewrite term_inputs_ok. by eexists.
Qed.

(** [schema] lists every field of the index once, in the order of the names. *)
Theorem schema_rows_sorted `{TantivySchema} `{TantivyFieldEntry} (s : Schema) :
  schema_rows s ≡ₚ (schema_row <$> schema_entries s) ∧ StronglySorted String.le (row_name <$> schema_rows s).
Proof.
  unfold schema_rows. split; [by rewrite merge_sort_Permutation|]. rewrite <- list_fmap_compose.
  assert (∀ l, (row_name ∘ schema_row <$> l) = (fst <$> l)) as ->.
  { intros l. apply list_fmap_ext. intros i [n o] _. cbn. unfold schema_row. by destruct (entry_details _) as [[[[? ?] ?] ?] ?]. }
  apply (StronglySorted_fmap fst name_le); [done|].
  assert (Transitive name_le) by (intros a b c; apply (transitivity (R := String.le))).
  assert (Total name_le) by (intros a b; apply (total String.le)).
  apply (StronglySorted_merge_sort _).
Qed.

(** The integer arguments of SQL are cast, not checked: a distance wraps at 256, so 256 asks for exact matches and a
    negative one for 255 edits, and a negative slop becomes more than two billion. *)
Theorem query_integers_wrap `{RustF64} `{TantivyTypes} (field value : string) (phrases : list string) (n k : Z)
    (tco prefix : option bool) :
  sql_fuzzy_term field (Some value) (Some (n + 256 * k)) tco prefix = sql_fuzzy_term field (Some value) (Some n) tco prefix ∧
  (- 2 ^ 31 ≤ n < 0 → ∃ slop, sql_phrase field phrases (Some n) = Input.Phrase field phrases (Some slop) ∧ 2 ^ 31 ≤ slop < 2 ^ 32) ∧
  (0 ≤ n < 256 → sql_fuzzy_term field (Some value) (Some n) tco prefix = Ok (Input.FuzzyTerm field value (Some n) tco prefix)).
Proof.
  split; [|split].
  - unfold sql_fuzzy_term. cbn. unfold cast_u8. replace (n + 256 * k) with (n + k * 2 ^ 8) by lia. by rewrite Z.mod_add.
  - intros Hn. eexists. split; [done|]. unfold as_u32.
    replace (n mod 2 ^ 32) with (n + 2 ^ 32); [lia|]. apply (Z.mod_unique _ _ (-1)); lia.
  - intros Hn. unfold sql_fuzzy_term. cbn. unfold cast_u8. by rewrite Z.mod_small by lia.
Qed.
