(* ===== verification/Reader.v ===== *)
(** * Reader: searching the segments of an index

    [index/reader/index.rs]: [SearchIndexReader] with its searches over all segments, over one
    segment, and of the best [n] documents, and [SearchResults], the iterator they return, which
    looks up the tuple address of each document through a cached column.  Tantivy is a
    parameter: what a scorer iterates over, the live documents of a segment, its [ctid] column,
    and the collector of the best documents. *)

From S2P Require Import Prelude Block PgUtils Query.

Open Scope Z_scope.

(** ** Tantivy's side *)

(** [reader::index::SortDirection] *)
Inductive ReaderSort := SortAsc | SortDesc | SortNone.
(** [Order], and [From<SortDirection>] for it *)
Inductive Order := OrderAsc | OrderDesc.
Definition order_from (value : ReaderSort) : Order :=
  match value with SortAsc => OrderAsc | SortDesc => OrderDesc | SortNone => OrderAsc end.

(** [TopDocs::with_limit(n)] and what it is ordered by; a tweaked score is ordered by the direction *)
Inductive TopDocs :=
  | TopByScore (n : Z)
  | TopByTweakedScore (dir : ReaderSort) (n : Z)
  | TopByU64Field (field : string) (order : Order) (n : Z).
Definition top_limit (t : TopDocs) : Z :=
  match t with TopByScore n | TopByTweakedScore _ n | TopByU64Field _ _ n => n end.

Record DocAddr := { segment_ord : Z; doc_id : Z }.

(** [Weight] and [Scorer]: a scorer iterates over the documents of a segment that match, with their
    scores, the deleted ones included; [alive] is the segment's [alive_bitset] *)
Class TantivyReader `{RustF64} `{TantivyTypes} `{!TantivyParser} `{TantivyIndex} := {
  Score : Type;
  score_one : Score;
  SegmentReader : Type;
  reader_segment_id : SegmentReader → SegmentId;
  alive_bitset : SegmentReader → option (Z → bool);
  scorer : Query → bool → SegmentReader → list (Z * Score);
  (** the fast field [ctid] *)
  ctid_column : SegmentReader → Z → option Z;
  for_index : QueryParser;
  (** a collector's documents over some segments, with their ordinals, best first *)
  top_docs : TopDocs → Query → bool → list (Z * SegmentReader) → list (Score * DocAddr)
}.

Section reader.
Context `{RustF64} `{TantivyTypes} `{TantivyText} `{TantivyRegex} `{RustBuild}
  `{Chrono} `{!PgDates} `{AsFieldType} `{!TantivyParser} `{!TantivySearcher} `{TantivyIndex} `{!TantivyReader}.

(** [Searcher]: the segment readers *)
Notation Searcher := (list SegmentReader).
(** [FFType] of the [ctid] column *)
Notation FFType := (Z → option Z).

(** ** [DeferredScorer] and [ScorerIter] *)

Record DeferredScorer := {
  weight : Query * bool;
  ds_reader : SegmentReader;
  inner : option (list (Z * Score))
}.
Definition deferred_new (w : Query * bool) (segment_reader : SegmentReader) : DeferredScorer :=
  {| weight := w; ds_reader := segment_reader; inner := None |}.
(** [scorer_mut]: what is left to iterate *)
Definition scorer_mut (s : DeferredScorer) : list (Z * Score) :=
  match inner s with
  | Some docs => docs
  | None => scorer (weight s).1 (weight s).2 (ds_reader s)
  end.
Definition set_inner (docs : list (Z * Score)) (s : DeferredScorer) : DeferredScorer :=
  {| weight := weight s; ds_reader := ds_reader s; inner := Some docs |}.

Record ScorerIter := { deferred : DeferredScorer; si_segment_ord : Z; si_reader : SegmentReader }.
Definition scorer_iter_new (s : DeferredScorer) (segment_ord : Z) (segment_reader : SegmentReader) : ScorerIter :=
  {| deferred := s; si_segment_ord := segment_ord; si_reader := segment_reader |}.

Definition is_alive (segment_reader : SegmentReader) (doc : Z) : bool :=
  match alive_bitset segment_reader with Some alive => alive doc | None => true end.

(** the loop of [ScorerIter::next]: the first live document, and the scorer after it *)
Fixpoint next_alive (segment_reader : SegmentReader) (ord : Z) (docs : list (Z * Score))
    : option (Score * DocAddr) * list (Z * Score) :=
  match docs with
  | [] => (None, [])
  | (doc, score) :: docs =>
      if is_alive segment_reader doc
      then (Some (score, {| segment_ord := ord; doc_id := doc |}), docs)
      else next_alive segment_reader ord docs
  end.
Definition scorer_iter_next (it : ScorerIter) : option (Score * DocAddr) * ScorerIter :=
  let (item, docs) := next_alive (si_reader it) (si_segment_ord it) (scorer_mut (deferred it)) in
  (item, {| deferred := set_inner docs (deferred it); si_segment_ord := si_segment_ord it;
            si_reader := si_reader it |}).

(** ** [SearchResults] *)

Record SearchIndexScore := { ctid : Z; bm25 : Score }.

Inductive SearchResults :=
  | NoResults
  | TopNByScore (searcher : Searcher) (ff_lookup : gmap Z FFType) (iter : list (Score * DocAddr))
  | TopNByTweakedScore (searcher : Searcher) (ff_lookup : gmap Z FFType) (iter : list (Score * DocAddr))
  | TopNByField (searcher : Searcher) (ff_lookup : gmap Z FFType) (iter : list (Score * DocAddr))
  | SingleSegment (searcher : Searcher) (ord : Z) (fftype : option FFType) (iter : ScorerIter)
  | AllSegments (searcher : Searcher) (fftype : option FFType) (iters : list ScorerIter).

(** [FFType::new_ctid(searcher.segment_reader(ord).fast_fields())] *)
Definition new_ctid (searcher : Searcher) (ord : Z) : outcome FFType :=
  segment_reader ← index searcher ord; Ok (ctid_column segment_reader).
(** [get_or_insert_with], and the entry of a map *)
Definition get_or_insert (fftype : option FFType) (searcher : Searcher) (ord : Z) : outcome FFType :=
  match fftype with Some ff => Ok ff | None => new_ctid searcher ord end.
Definition scored (ff : FFType) (score : Score) (addr : DocAddr) : outcome SearchIndexScore :=
  match ff (doc_id addr) with
  | Some c => Ok {| ctid := c; bm25 := score |}
  | None => Panic "ctid should be present"
  end.

(** the end of [next], for the best documents *)
Definition next_top (searcher : Searcher) (ff_lookup : gmap Z FFType) (score : Score) (addr : DocAddr)
    : outcome (SearchIndexScore * gmap Z FFType) :=
  ff ← get_or_insert (ff_lookup !! segment_ord addr) searcher (segment_ord addr);
  s ← scored ff score addr;
  Ok (s, <[segment_ord addr := ff]> ff_lookup).

(** the loop over the iterators, from the last one; there are not more iterations than iterators *)
Fixpoint next_all (fuel : nat) (searcher : Searcher) (fftype : option FFType) (iters : list ScorerIter)
    : outcome (option (SearchIndexScore * DocAddr) * SearchResults) :=
  match fuel with
  | O => NoFuel
  | S fuel =>
      match last iters with
      | None => Ok (None, AllSegments searcher fftype iters)
      | Some it =>
          match scorer_iter_next it with
          | (Some (score, addr), it) =>
              ff ← get_or_insert fftype searcher (segment_ord addr);
              s ← scored ff score addr;
              Ok (Some (s, addr), AllSegments searcher (Some ff) (removelast iters ++ [it]))
          | (None, _) => next_all fuel searcher None (removelast iters)
          end
      end
  end.

Definition next (r : SearchResults) : outcome (option (SearchIndexScore * DocAddr) * SearchResults) :=
  match r with
  | NoResults => Ok (None, r)
  | TopNByScore searcher ff_lookup iter =>
      match iter with
      | [] => Ok (None, r)
      | (score, addr) :: iter =>
          '(s, ff_lookup) ← next_top searcher ff_lookup score addr;
          Ok (Some (s, addr), TopNByScore searcher ff_lookup iter)
      end
  | TopNByTweakedScore searcher ff_lookup iter =>
      match iter with
      | [] => Ok (None, r)
      | (score, addr) :: iter =>
          '(s, ff_lookup) ← next_top searcher ff_lookup score addr;
          Ok (Some (s, addr), TopNByTweakedScore searcher ff_lookup iter)
      end
  | TopNByField searcher ff_lookup iter =>
      match iter with
      | [] => Ok (None, r)
      | (_, addr) :: iter =>
          '(s, ff_lookup) ← next_top searcher ff_lookup score_one addr;
          Ok (Some (s, addr), TopNByField searcher ff_lookup iter)
      end
  | SingleSegment searcher ord fftype iter =>
      match scorer_iter_next iter with
      | (None, iter) => Ok (None, SingleSegment searcher ord fftype iter)
      | (Some (score, addr), iter) =>
          ff ← get_or_insert fftype searcher ord;
          s ← scored ff score addr;
          Ok (Some (s, addr), SingleSegment searcher ord (Some ff) iter)
      end
  | AllSegments searcher fftype iters => next_all (S (length iters)) searcher fftype iters
  end.

(** [Iterator::count] of a [ScorerIter], and [SearchResults::count] *)
Definition scorer_iter_count (it : ScorerIter) : Z :=
  zlen (filter (λ dp, is_alive (si_reader it) dp.1) (scorer_mut (deferred it))).
Definition count (r : SearchResults) : Z :=
  match r with
  | NoResults => 0
  | TopNByScore _ _ iter | TopNByTweakedScore _ _ iter | TopNByField _ _ iter => zlen iter
  | SingleSegment _ _ _ iter => scorer_iter_count iter
  | AllSegments _ _ iters => foldr (λ it n, scorer_iter_count it + n) 0 iters
  end.

(** ** [SearchIndexReader] *)

(** the searcher, and whether the schema has a field of a name *)
Record SearchIndexReader := { searcher : Searcher; get_search_field : string → bool }.
Implicit Types self : SearchIndexReader.

(** [query]: a fresh parser each time *)
Definition reader_query (search_query_input : SearchQueryInput) : outcome Query :=
  match into_tantivy_query search_query_input for_index with
  | Ok (q, _) => Ok q
  | Err _ => Panic "must be able to parse query"
  | Panic msg => Panic msg
  | NoFuel => NoFuel
  end.
(** [weight]: the query, and whether scores are needed *)
Definition reader_weight (need_scores : bool) (input : SearchQueryInput) : outcome (Query * bool) :=
  q ← reader_query input; Ok (q, need_scores).

(** [segment_readers().iter().enumerate()] *)
Definition enumerate {A} (l : list A) : list (Z * A) := imap (λ i x, (Z.of_nat i, x)) l.

(** one iterator for each segment *)
Definition segment_iter (need_scores : bool) (query : SearchQueryInput) (seg : Z * SegmentReader)
    : outcome ScorerIter :=
  w ← reader_weight need_scores query;
  Ok (scorer_iter_new (deferred_new w seg.2) seg.1 seg.2).
Definition search self (need_scores : bool) (query : SearchQueryInput) : outcome SearchResults :=
  iters ← traverse_ok (segment_iter need_scores query) (enumerate (searcher self));
  Ok (AllSegments (searcher self) None iters).

(** [segment_readers().iter().enumerate().find(...)] *)
Definition find_segment self (id : SegmentId) : outcome (Z * SegmentReader) :=
  match list_find (λ seg, reader_segment_id seg.2 = id) (enumerate (searcher self)) with
  | Some (_, seg) => Ok seg
  | None => Panic "segment {segment_id} should exist"
  end.

Definition search_segment self (need_scores : bool) (id : SegmentId) (query : SearchQueryInput)
    : outcome SearchResults :=
  w ← reader_weight need_scores query;
  seg ← find_segment self id;
  Ok (SingleSegment (searcher self) seg.1 None (scorer_iter_new (deferred_new w seg.2) seg.1 seg.2)).

(** [TopDocs::with_limit] asserts that the limit is positive *)
Definition with_limit (t : TopDocs) : outcome TopDocs :=
  if 0 <? top_limit t then Ok t else Panic "Limit must be strictly greater than 0.".
(** [collect] *)
Definition collect self (query : SearchQueryInput) (t : TopDocs) (need_scores : bool)
    : outcome (list (Score * DocAddr)) :=
  q ← reader_query query;
  Ok (top_docs t q need_scores (enumerate (searcher self))).

Definition top_by_field self (query : SearchQueryInput) (sort_field : string) (sortdir : ReaderSort) (n : Z)
    : outcome SearchResults :=
  if get_search_field self sort_field then
    t ← with_limit (TopByU64Field sort_field (order_from sortdir) n);
    docs ← collect self query t true;
    Ok (TopNByField (searcher self) ∅ docs)
  else Panic "sort field should exist in index schema".

Definition top_by_score self (query : SearchQueryInput) (sortdir : ReaderSort) (n : Z) (need_scores : bool)
    : outcome SearchResults :=
  match sortdir with
  | SortAsc =>
      t ← with_limit (TopByTweakedScore sortdir n);
      docs ← collect self query t true;
      Ok (TopNByTweakedScore (searcher self) ∅ docs)
  | SortDesc =>
      t ← with_limit (TopByScore n);
      docs ← collect self query t true;
      Ok (TopNByScore (searcher self) ∅ docs)
  | SortNone => search self need_scores query
  end.

Definition search_top_n self (query : SearchQueryInput) (sort_field : option string) (sortdir : ReaderSort)
    (n : Z) (need_scores : bool) : outcome SearchResults :=
  match sort_field with
  | Some sort_field => top_by_field self query sort_field sortdir n
  | None => top_by_score self query sortdir n need_scores
  end.

Definition top_by_field_in_segment self (id : SegmentId) (query : SearchQueryInput) (sort_field : string)
    (sortdir : ReaderSort) (n : Z) : outcome SearchResults :=
  seg ← find_segment self id;
  if get_search_field self sort_field then
    t ← with_limit (TopByU64Field sort_field (order_from sortdir) n);
    q ← reader_query query;
    Ok (TopNByField (searcher self) ∅ (top_docs t q true [seg]))
  else Panic "sort field should exist in index schema".

Definition top_by_score_in_segment self (id : SegmentId) (query : SearchQueryInput) (sortdir : ReaderSort)
    (n : Z) : outcome SearchResults :=
  seg ← find_segment self id;
  q ← reader_query query;
  match sortdir with
  | SortAsc =>
      t ← with_limit (TopByTweakedScore sortdir n);
      Ok (TopNByTweakedScore (searcher self) ∅ (top_docs t q true [seg]))
  | SortDesc =>
      t ← with_limit (TopByScore n);
      Ok (TopNByScore (searcher self) ∅ (top_docs t q true [seg]))
  | SortNone =>
      Ok (SingleSegment (searcher self) seg.1 None (scorer_iter_new (deferred_new (q, true) seg.2) seg.1 seg.2))
  end.

Definition search_top_n_in_segment self (id : SegmentId) (query : SearchQueryInput) (sort_field : option string)
    (sortdir : ReaderSort) (n : Z) (need_scores : bool) : outcome SearchResults :=
  match sort_field with
  | Some sort_field =>
      if need_scores then Panic "cannot sort by field and get scores in the same query"
      else top_by_field_in_segment self id query sort_field sortdir n
  | None => top_by_score_in_segment self id query sortdir n
  end.
End reader.

(** ** What the results yield *)

Section results.
Context `{RustF64} `{TantivyTypes} `{TantivyText} `{TantivyRegex} `{RustBuild}
  `{Chrono} `{!PgDates} `{AsFieldType} `{!TantivyParser} `{!TantivySearcher} `{TantivyIndex} `{!TantivyReader}.
Implicit Types (it : ScorerIter) (sr : list SegmentReader).

(** the live documents an iterator has left, and those of some results, in the order they come *)
Definition live_docs (segment_reader : SegmentReader) (ord : Z) (docs : list (Z * Score)) : list (Score * DocAddr) :=
  (λ dp, (dp.2, {| segment_ord := ord; doc_id := dp.1 |})) <$> filter (λ dp, is_alive segment_reader dp.1) docs.
Definition iter_left it : list (Score * DocAddr) := live_docs (si_reader it) (si_segment_ord it) (scorer_mut (deferred it)).
Definition left_docs (r : SearchResults) : list (Score * DocAddr) :=
  match r with
  | NoResults => []
  | TopNByScore _ _ iter | TopNByTweakedScore _ _ iter => iter
  | TopNByField _ _ iter => (λ sa, (score_one, sa.2)) <$> iter
  | SingleSegment _ _ _ it => iter_left it
  | AllSegments _ _ iters => concat (iter_left <$> reverse iters)
  end.
Definition results_searcher (r : SearchResults) : list SegmentReader :=
  match r with
  | NoResults => []
  | TopNByScore sr _ _ | TopNByTweakedScore sr _ _ | TopNByField sr _ _
  | SingleSegment sr _ _ _ | AllSegments sr _ _ => sr
  end.

(** the [ctid] of a document *)
Definition ctid_at sr (addr : DocAddr) : option Z :=
  segment_reader ← znth sr (segment_ord addr); ctid_column segment_reader (doc_id addr).

(** the cached columns are those of their segments: the single one is of the last iterator's *)
Definition iter_wf sr it : Prop := znth sr (si_segment_ord it) = Some (si_reader it).
Definition lookup_wf sr (ff_lookup : gmap Z (Z → option Z)) : Prop :=
  ∀ ord ff, ff_lookup !! ord = Some ff → ctid_column <$> znth sr ord = Some ff.
Definition results_wf (r : SearchResults) : Prop :=
  match r with
  | NoResults => True
  | TopNByScore sr ff _ | TopNByTweakedScore sr ff _ | TopNByField sr ff _ => lookup_wf sr ff
  | SingleSegment sr ord fftype it =>
      iter_wf sr it ∧ si_segment_ord it = ord ∧ (∀ ff, fftype = Some ff → ff = ctid_column (si_reader it))
  | AllSegments sr fftype iters =>
      Forall (iter_wf sr) iters ∧
      (∀ ff, fftype = Some ff → ∃ it, last iters = Some it ∧ ff = ctid_column (si_reader it))
  end.

Lemma next_alive_left segment_reader ord docs :
  match next_alive segment_reader ord docs with
  | (None, docs') => live_docs segment_reader ord docs = [] ∧ docs' = []
  | (Some (score, addr), docs') => segment_ord addr = ord ∧
      live_docs segment_reader ord docs = (score, addr) :: live_docs segment_reader ord docs'
  end.
Proof.
  induction docs as [|[doc score] docs IH]; [done|]. cbn [next_alive]. unfold live_docs in *.
  rewrite filter_cons. cbn [fst]. by destruct (is_alive segment_reader doc).
Qed.

Lemma scorer_iter_next_left it :
  match scorer_iter_next it with
  | (None, it') => iter_left it = [] ∧ iter_left it' = []
  | (Some (score, addr), it') => segment_ord addr = si_segment_ord it ∧ iter_left it = (score, addr) :: iter_left it'
  end ∧
  si_segment_ord (scorer_iter_next it).2 = si_segment_ord it ∧ si_reader (scorer_iter_next it).2 = si_reader it.
Proof.
  unfold scorer_iter_next, iter_left.
  pose proof (next_alive_left (si_reader it) (si_segment_ord it) (scorer_mut (deferred it))) as Hn.
  destruct (next_alive _ _ _) as [[[score addr]|] docs]; cbn; (split; [|done]).
  - destruct Hn as [? Hn]. split; [done|]. rewrite Hn. done.
  - destruct Hn as [Hn ->]. by rewrite Hn.
Qed.

Lemma new_ctid_ok sr ord segment_reader :
  znth sr ord = Some segment_reader → new_ctid sr ord = Ok (ctid_column segment_reader).
Proof. intros Hn. unfold new_ctid, index. by rewrite Hn. Qed.

Lemma ctid_of_iter sr it addr c :
  iter_wf sr it → segment_ord addr = si_segment_ord it → ctid_at sr addr = Some c →
  ctid_column (si_reader it) (doc_id addr) = Some c.
Proof. unfold ctid_at, iter_wf. intros Hwf -> Hc. by rewrite Hwf in Hc. Qed.

(** one step of [next] takes the first document that is left *)
Definition steps_to (r : SearchResults) (o : outcome (option (SearchIndexScore * DocAddr) * SearchResults)) : Prop :=
  match left_docs r with
  | [] => ∃ r', o = Ok (None, r') ∧ results_wf r' ∧ left_docs r' = [] ∧ results_searcher r' = results_searcher r
  | (score, addr) :: docs => ∀ c, ctid_at (results_searcher r) addr = Some c →
      ∃ r', o = Ok (Some ({| ctid := c; bm25 := score |}, addr), r') ∧ results_wf r' ∧ left_docs r' = docs ∧
        results_searcher r' = results_searcher r
  end.

Lemma next_top_ok sr ff_lookup score addr c :
  lookup_wf sr ff_lookup → ctid_at sr addr = Some c →
  ∃ ff_lookup', next_top sr ff_lookup score addr = Ok ({| ctid := c; bm25 := score |}, ff_lookup') ∧
    lookup_wf sr ff_lookup'.
Proof.
  intros Hwf Hc. unfold ctid_at in Hc. apply bind_Some in Hc as (rd & Hrd & Hc).
  assert (get_or_insert (ff_lookup !! segment_ord addr) sr (segment_ord addr) = Ok (ctid_column rd)) as Hff.
  { destruct (ff_lookup !! segment_ord addr) as [ff|] eqn:Hl; [|by apply new_ctid_ok].
    apply Hwf in Hl. rewrite Hrd in Hl. by injection Hl as <-. }
  eexists. split.
  - unfold next_top. rewrite Hff. cbn [mbind outcome_bind]. unfold scored. rewrite Hc. done.
  - intros ord ff. destruct (decide (ord = segment_ord addr)) as [->|Hne].
    + rewrite lookup_insert_eq. intros [= <-]. by rewrite Hrd.
    + rewrite lookup_insert_ne by done. apply Hwf.
Qed.

Lemma last_split {A} (l : list A) x : last l = Some x → l = removelast l ++ [x].
Proof.
  intros Hl. apply last_Some in Hl as [l' ->]. by rewrite removelast_last.
Qed.

Lemma next_all_steps fuel sr fftype (iters : list ScorerIter) :
  (length iters < fuel)%nat → results_wf (AllSegments sr fftype iters) →
  steps_to (AllSegments sr fftype iters) (next_all fuel sr fftype iters).
Proof.
  revert fftype iters. induction fuel as [|fuel IH]; intros fftype iters Hf [Hwf Hff]; [lia|].
  unfold steps_to. cbn [next_all left_docs results_searcher].
  destruct (last iters) as [it|] eqn:Hl.
  2:{ apply last_None in Hl as ->. cbn. eexists. split; [done|]. repeat split; try done; constructor. }
  apply last_split in Hl. set (front := removelast iters) in *. clearbody front. subst iters.
  apply Forall_app in Hwf as [Hfront Hit]. rewrite Forall_singleton in Hit.
  rewrite reverse_app. cbn [reverse rev_append app fmap list_fmap concat].
  destruct (scorer_iter_next_left it) as (Hnext & Hord & Hrd).
  assert (iter_wf sr (scorer_iter_next it).2) as Hit' by (unfold iter_wf; rewrite Hord, Hrd; exact Hit).
  destruct (scorer_iter_next it) as [[[score addr]|] it']; cbn [snd] in *.
  - destruct Hnext as [Haddr ->]. cbn [app]. intros c Hc.
    assert (get_or_insert fftype sr (segment_ord addr) = Ok (ctid_column (si_reader it))) as ->.
    { rewrite Haddr. destruct fftype as [ff|]; [|by apply new_ctid_ok].
      destruct (Hff ff eq_refl) as (it2 & Hlast & ->). by simplify_eq. }
    cbn [mbind outcome_bind]. unfold scored. rewrite (ctid_of_iter sr it addr c) by done. cbn [mbind outcome_bind].
    eexists. split; [done|]. split; [|split; [|done]].
    + split; [apply Forall_app; split; [done|by apply Forall_singleton]|]. intros ff [= <-].
      exists it'. rewrite last_snoc. by rewrite Hrd.
    + cbn [left_docs]. by rewrite reverse_app.
  - destruct Hnext as [-> _]. cbn [app]. rewrite length_app in Hf. simpl in Hf.
    specialize (IH None front ltac:(lia)). unfold steps_to in IH. cbn [left_docs results_searcher] in IH.
    apply IH. split; [done|]. intros ff [=].
Qed.

Lemma next_steps (r : SearchResults) : results_wf r → steps_to r (next r).
Proof.
  destruct r as [|sr ff iter|sr ff iter|sr ff iter|sr ord fftype it|sr fftype iters]; intros Hwf.
  - by exists NoResults.
  - unfold steps_to. cbn [left_docs results_searcher next]. destruct iter as [|[score addr] iter]; [by eexists|].
    intros c Hc. destruct (next_top_ok sr ff score addr c Hwf Hc) as (ff' & -> & Hwf'). by eexists.
  - unfold steps_to. cbn [left_docs results_searcher next]. destruct iter as [|[score addr] iter]; [by eexists|].
    intros c Hc. destruct (next_top_ok sr ff score addr c Hwf Hc) as (ff' & -> & Hwf'). by eexists.
  - unfold steps_to. cbn [left_docs results_searcher next]. destruct iter as [|[score addr] iter]; [by eexists|].
    cbn [fmap list_fmap snd].
    intros c Hc. destruct (next_top_ok sr ff score_one addr c Hwf Hc) as (ff' & -> & Hwf'). by eexists.
  - destruct Hwf as (Hit & Hord & Hff). unfold steps_to. cbn [left_docs results_searcher next].
    destruct (scorer_iter_next_left it) as (Hnext & Hord' & Hrd).
    assert (iter_wf sr (scorer_iter_next it).2) as Hit' by (unfold iter_wf; rewrite Hord', Hrd; exact Hit).
    destruct (scorer_iter_next it) as [[[score addr]|] it']; cbn [snd] in *.
    + destruct Hnext as [Haddr ->]. intros c Hc.
      assert (get_or_insert fftype sr ord = Ok (ctid_column (si_reader it))) as ->.
      { destruct fftype as [ff|]; [by rewrite (Hff ff eq_refl)|]. rewrite <- Hord. by apply new_ctid_ok. }
      cbn [mbind outcome_bind]. unfold scored. rewrite (ctid_of_iter sr it addr c) by done.
      cbn [mbind outcome_bind]. eexists. split; [done|]. split; [|done]. split; [done|]. split; [congruence|].
      intros ff [= <-]. by rewrite Hrd.
    + destruct Hnext as [-> Hnone]. eexists. split; [done|]. split; [|done]. split; [done|]. split; [congruence|].
      intros ff Heq. rewrite Hrd. auto.
  - apply next_all_steps; [lia|done].
Qed.

(** [for row in results] *)
Fixpoint drain (fuel : nat) (r : SearchResults) : outcome (list (SearchIndexScore * DocAddr)) :=
  match fuel with
  | O => NoFuel
  | S fuel =>
      '(item, r) ← next r;
      match item with
      | None => Ok []
      | Some row => rows ← drain fuel r; Ok (row :: rows)
      end
  end.

(** a row of a document: its address, score and tuple address *)
Definition row_of sr (row : SearchIndexScore * DocAddr) (doc : Score * DocAddr) : Prop :=
  row.2 = doc.2 ∧ bm25 row.1 = doc.1 ∧ ctid_at sr doc.2 = Some (ctid row.1).
Definition has_ctid sr (doc : Score * DocAddr) : Prop := is_Some (ctid_at sr doc.2).

Lemma drain_all r :
  results_wf r → Forall (has_ctid (results_searcher r)) (left_docs r) →
  ∃ rows, drain (S (length (left_docs r))) r = Ok rows ∧ Forall2 (row_of (results_searcher r)) rows (left_docs r).
Proof.
  remember (left_docs r) as docs eqn:Hd. revert r Hd.
  induction docs as [|[score addr] docs IH]; intros r Hd Hwf Hct;
    pose proof (next_steps r Hwf) as Hs; unfold steps_to in Hs; rewrite <- Hd in Hs.
  - destruct Hs as (r' & Hn & _). exists []. cbn [drain length]. rewrite Hn. split; [done|constructor].
  - apply Forall_cons in Hct as [[c Hc] Hct]. destruct (Hs c Hc) as (r' & Hn & Hwf' & Hd' & Hsr).
    destruct (IH r' (eq_sym Hd') Hwf' ltac:(by rewrite Hsr)) as (rows & Hrows & Hall).
    exists (({| ctid := c; bm25 := score |}, addr) :: rows). cbn [length] in *.
    change (drain (S (S (length docs))) r) with ('(item, r) ← next r;
      match item with None => Ok [] | Some row => rows ← drain (S (length docs)) r; Ok (row :: rows) end).
    rewrite Hn. cbn [mbind outcome_bind]. rewrite Hrows. split; [done|]. constructor; [done|by rewrite Hsr in Hall].
Qed.

(** *** The searches *)

Lemma znth_enumerate {A} (l : list A) ord x : (ord, x) ∈ enumerate l → znth l ord = Some x.
Proof.
  unfold enumerate. intros (i & Hi)%list_elem_of_lookup. rewrite list_lookup_imap in Hi.
  apply fmap_Some in Hi as (y & Hy & [= -> ->]). rewrite znth_lookup by lia. by rewrite Nat2Z.id.
Qed.

(** the live documents of a segment that match *)
Definition matching (q : Query) (need_scores : bool) (seg : Z * SegmentReader) : list (Score * DocAddr) :=
  live_docs seg.2 seg.1 (scorer q need_scores seg.2).

Lemma zlen_live_docs segment_reader ord docs :
  zlen (live_docs segment_reader ord docs) = zlen (filter (λ dp, is_alive segment_reader dp.1) docs).
Proof. unfold live_docs, zlen. by rewrite length_fmap. Qed.

Lemma count_left r : count r = zlen (left_docs r).
Proof.
  destruct r as [|sr ff iter|sr ff iter|sr ff iter|sr ord fftype it|sr fftype iters]; cbn [count left_docs]; try done.
  - unfold zlen. by rewrite length_fmap.
  - unfold scorer_iter_count, iter_left. by rewrite zlen_live_docs.
  - induction iters as [|it iters IH]; [done|]. cbn [foldr]. rewrite IH, reverse_cons, fmap_app, concat_app, zlen_app.
    cbn [fmap list_fmap concat]. rewrite app_nil_r. unfold scorer_iter_count, iter_left. rewrite zlen_live_docs. lia.
Qed.

Lemma reader_query_ok input q p' :
  into_tantivy_query input for_index = Ok (q, p') → reader_query input = Ok q.
Proof. intros Hq. unfold reader_query. by rewrite Hq. Qed.

Definition fresh_iter (w : Query * bool) (seg : Z * SegmentReader) : ScorerIter :=
  scorer_iter_new (deferred_new w seg.2) seg.1 seg.2.

Lemma traverse_ok_map {A B} (f : A → outcome B) (g : A → B) l :
  (∀ x, f x = Ok (g x)) → traverse_ok f l = Ok (map g l).
Proof. intros Hf. induction l as [|x l IH]; [done|]. cbn [traverse_ok map]. by rewrite Hf, IH. Qed.

Lemma search_ok (self : SearchIndexReader) need_scores input q p' :
  into_tantivy_query input for_index = Ok (q, p') →
  ∃ r, search self need_scores input = Ok r ∧ results_wf r ∧ results_searcher r = searcher self ∧
    left_docs r = concat (matching q need_scores <$> reverse (enumerate (searcher self))).
Proof.
  intros Hq%reader_query_ok. eexists. split; [|split; [|split]].
  - unfold search. rewrite (traverse_ok_map _ (fresh_iter (q, need_scores))); [done|].
    intros seg. unfold segment_iter, reader_weight. by rewrite Hq.
  - split; [|done]. apply Forall_forall. intros it ([ord rd] & -> & Hin)%list_elem_of_fmap.
    by apply znth_enumerate.
  - done.
  - cbn [left_docs]. rewrite <- fmap_reverse, <- list_fmap_compose. done.
Qed.

Lemma search_segment_ok (self : SearchIndexReader) need_scores id input q p' seg :
  into_tantivy_query input for_index = Ok (q, p') → find_segment self id = Ok seg →
  ∃ r, search_segment self need_scores id input = Ok r ∧ results_wf r ∧ results_searcher r = searcher self ∧
    left_docs r = matching q need_scores seg.
Proof.
  intros Hq%reader_query_ok Hseg. eexists. split; [|split; [|split]].
  - unfold search_segment, reader_weight. rewrite Hq, Hseg. done.
  - split; [|done]. unfold find_segment in Hseg.
    destruct (list_find _ _) as [[i [ord rd]]|] eqn:Hf; [|done]. injection Hseg as <-.
    apply list_find_Some in Hf as (Hin & _). apply list_elem_of_lookup_2, znth_enumerate in Hin. done.
  - done.
  - done.
Qed.

(** Searching yields every live matching document of every segment exactly once and
    ends, segments from the last to the first, each with its score and the tuple address
    of its own segment's column, through the column the iterator caches; count gives
    their number. *)
Theorem search_yields_live_documents (self : SearchIndexReader) need_scores input q p' :
  into_tantivy_query input for_index = Ok (q, p') →
  let docs := concat (matching q need_scores <$> reverse (enumerate (searcher self))) in
  Forall (has_ctid (searcher self)) docs →
  ∃ r rows, search self need_scores input = Ok r ∧ count r = zlen docs ∧
    drain (S (length docs)) r = Ok rows ∧ Forall2 (row_of (searcher self)) rows docs.
Proof.
  intros Hq docs Hct. destruct (search_ok self need_scores input q p' Hq) as (r & Hr & Hwf & Hsr & Hleft).
  destruct (drain_all r Hwf) as (rows & Hrows & Hall); [by rewrite Hsr, Hleft|].
  exists r, rows. rewrite count_left. rewrite Hleft, ?Hsr in *. done.
Qed.
End results.
