(* ===== verification/Parallel.v ===== *)
(** * Parallel: a scan shared by several backends

    Models [postgres/parallel.rs], [ParallelScanState] of [postgres/mod.rs] and the use
    [postgres/scan.rs] makes of them: the leader writes the segment ids into shared memory,
    every participant claims one segment after the other under a spinlock and returns its
    tuples.  Searching a segment is a parameter. *)

From S2P Require Import Prelude Block.

Open Scope Z_scope.

(** ** The shared state *)

Section shared.
Context `{TantivyIndex}.

(** [segment_uuids] is the memory after the struct *)
Record ParallelScanState := {
  segment_count : Z;
  remaining_segments : Z;
  segment_uuids : gmap Z SegmentId
}.
Implicit Types (state : ParallelScanState) (ids : list SegmentId).

Definition u16_MAX : Z := 65535.

Definition get_segment_id (i : Z) state : outcome SegmentId :=
  if segment_count state <=? i then Panic "index out of bounds"
  else match segment_uuids state !! i with
       | Some id => Ok id
       | None => Panic "the memory was never written"
       end.

Definition set_segment_id (i : Z) (segment_id : SegmentId) state : outcome ParallelScanState :=
  if segment_count state <=? i then Panic "segment ordinal is out of bounds"
  else if u16_MAX <=? i then Panic "index has more segments than parallel scans support"
  else Ok {| segment_count := segment_count state; remaining_segments := remaining_segments state;
             segment_uuids := <[i := segment_id]> (segment_uuids state) |}.

(** [for (i, segment_reader) in segment_readers().iter().enumerate()] *)
Fixpoint set_segment_ids (i : Z) ids state : outcome ParallelScanState :=
  match ids with
  | [] => Ok state
  | id :: ids => state ← set_segment_id i id state; set_segment_ids (i + 1) ids state
  end.
Definition assign_segment_ids ids state : outcome ParallelScanState :=
  set_segment_ids 0 ids
    {| segment_count := zlen ids; remaining_segments := zlen ids; segment_uuids := segment_uuids state |}.

(** ** Starting and claiming, each under the lock *)

(** [maybe_init_parallel_scan]; worker -1 is the leader, and [None] is a scan that is
    not parallel *)
Definition maybe_init_parallel_scan (worker_number : Z) ids (scan : option ParallelScanState)
    : outcome (option Z * option ParallelScanState) :=
  match scan with
  | None => Ok (None, None)
  | Some state =>
      state ← (if worker_number =? -1 then assign_segment_ids ids state else Ok state);
      Ok (Some worker_number, Some state)
  end.

Definition maybe_claim_segment (scan : option ParallelScanState)
    : outcome (option SegmentId * option ParallelScanState) :=
  match scan with
  | None => Ok (None, None)
  | Some state =>
      if remaining_segments state =? 0 then Ok (None, Some state)
      else
        let state := {| segment_count := segment_count state;
                        remaining_segments := remaining_segments state - 1;
                        segment_uuids := segment_uuids state |} in
        id ← get_segment_id (remaining_segments state) state;
        Ok (Some id, Some state)
  end.
End shared.

(** ** The participants *)

(** [Rescanning]: in [amrescan], between the two critical sections; [Scanning]: with
    what is left of the results of the segment it searches; [Done]: [amgettuple] has
    returned [false] *)
Inductive ScanPhase :=
  | NotStarted
  | Rescanning
  | Scanning (results : list Z)
  | Done.

#[global] Instance ScanPhase_eq_dec : EqDecision ScanPhase.
Proof. solve_decision. Defined.

Record ScanConf `{TantivyIndex} := {
  sc_shared : ParallelScanState;
  sc_workers : gmap Z ScanPhase;
  (* the tuple addresses returned so far, by anyone *)
  sc_emitted : list Z
}.
Definition set_phase `{TantivyIndex} (i : Z) (ph : ScanPhase) (shared : ParallelScanState) (emitted : list Z)
    (c : ScanConf) : ScanConf :=
  {| sc_shared := shared; sc_workers := <[i := ph]> (sc_workers c); sc_emitted := sc_emitted c ++ emitted |}.

Section scan.
Context `{TantivyIndex}.
(** the segments of the leader's reader, and the results of searching one *)
Context (ids : list SegmentId) (search_segment : SegmentId → list Z).

(** [amrescan] and [amgettuple] *)
Inductive scan_step : ScanConf → ScanConf → Prop :=
  | step_init i c shared :
      sc_workers c !! i = Some NotStarted →
      maybe_init_parallel_scan i ids (Some (sc_shared c)) = Ok (Some i, Some shared) →
      scan_step c (set_phase i Rescanning shared [] c)
  | step_first_claim i c o shared :
      sc_workers c !! i = Some Rescanning →
      maybe_claim_segment (Some (sc_shared c)) = Ok (o, Some shared) →
      scan_step c (set_phase i (Scanning (match o with Some id => search_segment id | None => [] end))
                     shared [] c)
  | step_tuple i c ctid results :
      sc_workers c !! i = Some (Scanning (ctid :: results)) →
      scan_step c (set_phase i (Scanning results) (sc_shared c) [ctid] c)
  | step_next_segment i c id shared :
      sc_workers c !! i = Some (Scanning []) →
      maybe_claim_segment (Some (sc_shared c)) = Ok (Some id, Some shared) →
      scan_step c (set_phase i (Scanning (search_segment id)) shared [] c)
  | step_done i c shared :
      sc_workers c !! i = Some (Scanning []) →
      maybe_claim_segment (Some (sc_shared c)) = Ok (None, Some shared) →
      scan_step c (set_phase i Done shared [] c).

(** everyone is about to start; nothing is claimable before the leader has written *)
Definition scan_start (workers : gset Z) (shared : ParallelScanState) : ScanConf :=
  {| sc_shared := shared; sc_workers := gset_to_gmap NotStarted workers; sc_emitted := [] |}.

(** something of every participant, together *)
Definition gather {A} (g : ScanPhase → list A) (workers : gmap Z ScanPhase) : list A :=
  map_to_list workers ≫= λ iph, g iph.2.

Lemma gather_split {A} (g : ScanPhase → list A) i ph workers :
  workers !! i = Some ph →
  ∃ rest, gather g workers ≡ₚ g ph ++ rest ∧ ∀ ph', gather g (<[i := ph']> workers) ≡ₚ g ph' ++ rest.
Proof.
  intros Hi. exists (gather g (base.delete i workers)).
  assert (∀ w ph, w !! i = None → gather g (<[i := ph]> w) ≡ₚ g ph ++ gather g w) as Hins.
  { intros w q Hw. unfold gather. by rewrite map_to_list_insert. }
  split.
  - rewrite <- (insert_delete_id workers i ph Hi) at 1. apply Hins, lookup_delete_eq.
  - intros ph'. rewrite <- (insert_delete_eq workers i ph'). apply Hins, lookup_delete_eq.
Qed.
Lemma gather_same {A} (g : ScanPhase → list A) (l : list A) workers :
  (∀ i ph, workers !! i = Some ph → g ph = l) → gather g workers = concat (replicate (size workers) l).
Proof.
  intros Hg. unfold gather. rewrite <- length_map_to_list.
  assert (∀ iph, iph ∈ map_to_list workers → g iph.2 = l) as Hl.
  { intros [i ph] Hin. apply elem_of_map_to_list in Hin. by apply (Hg i). }
  induction (map_to_list workers) as [|iph ws IH]; [done|]. simpl. rewrite Hl by left. f_equal. apply IH.
  intros iph' Hin. apply Hl. by right.
Qed.

(** what a participant still holds *)
Definition held (ph : ScanPhase) : list Z := match ph with Scanning results => results | _ => [] end.
Definition all_held (workers : gmap Z ScanPhase) : list Z := gather held workers.

Lemma all_held_split i ph workers :
  workers !! i = Some ph →
  ∃ rest, all_held workers ≡ₚ held ph ++ rest ∧ ∀ ph', all_held (<[i := ph']> workers) ≡ₚ held ph' ++ rest.
Proof. apply gather_split. Qed.
Lemma all_held_nil workers : (∀ i ph, workers !! i = Some ph → held ph = []) → all_held workers = [].
Proof.
  intros Hnone. unfold all_held. rewrite (gather_same held []) by done. by induction (size workers).
Qed.

(** ** The invariant *)

Implicit Types (c : ScanConf).

(** the leader's segments are in place, and the claimed ones are accounted for *)
Definition scan_ready c : Prop :=
  segment_count (sc_shared c) = zlen ids ∧
  0 ≤ remaining_segments (sc_shared c) ≤ zlen ids ∧
  (∀ i : nat, segment_uuids (sc_shared c) !! Z.of_nat i = ids !! i ∨ (length ids ≤ i)%nat) ∧
  sc_emitted c ++ all_held (sc_workers c) ≡ₚ zdrop (remaining_segments (sc_shared c)) ids ≫= search_segment ∧
  (sc_workers c !! (-1) = Some Done → remaining_segments (sc_shared c) = 0).
(** the leader has not started *)
Definition scan_fresh c : Prop :=
  sc_workers c !! (-1) = Some NotStarted ∧ remaining_segments (sc_shared c) = 0 ∧
  sc_emitted c ++ all_held (sc_workers c) = [].
Definition scan_inv c : Prop := scan_fresh c ∨ scan_ready c ∧ sc_workers c !! (-1) ≠ Some NotStarted.

Lemma set_segment_ids_spec pre l state :
  segment_count state = zlen (pre ++ l) → zlen (pre ++ l) ≤ u16_MAX →
  (∀ i : nat, (i < length pre)%nat → segment_uuids state !! Z.of_nat i = pre !! i) →
  ∃ state', set_segment_ids (zlen pre) l state = Ok state' ∧
    segment_count state' = segment_count state ∧ remaining_segments state' = remaining_segments state ∧
    ∀ i : nat, (i < length (pre ++ l))%nat → segment_uuids state' !! Z.of_nat i = (pre ++ l) !! i.
Proof.
  revert pre state. induction l as [|id l IH]; intros pre state Hc Hmax Hu.
  { exists state. rewrite app_nil_r. done. }
  rewrite zlen_app, zlen_cons in *. pose proof (zlen_nonneg l).
  cbn [set_segment_ids]. unfold set_segment_id at 1.
  destruct (Z.leb_spec (segment_count state) (zlen pre)); [lia|].
  destruct (Z.leb_spec u16_MAX (zlen pre)); [lia|]. cbn [mbind outcome_bind].
  match goal with |- context [set_segment_ids _ l ?st] => set (st1 := st) end.
  destruct (IH (pre ++ [id]) st1) as (state' & Hrun & Hc' & Hr' & Hu').
  - simpl. rewrite <- app_assoc, zlen_app. simpl. by rewrite zlen_cons.
  - rewrite <- app_assoc, zlen_app. simpl. by rewrite zlen_cons.
  - intros i Hi. rewrite length_app in Hi. simpl in Hi. unfold st1. cbn [segment_uuids].
    destruct (decide (i = length pre)) as [->|Hne].
    + change (Z.of_nat (length pre)) with (zlen pre). rewrite lookup_insert_eq.
      by rewrite lookup_app_r, Nat.sub_diag by lia.
    + rewrite lookup_insert_ne by (unfold zlen; lia). rewrite lookup_app_l by lia. apply Hu. lia.
  - exists state'. rewrite zlen_app in Hrun. change (zlen [id]) with 1 in Hrun.
    split; [done|]. split; [done|]. split; [done|]. intros i Hi. rewrite <- app_assoc in Hu'. by apply Hu'.
Qed.

Lemma assign_spec state :
  zlen ids ≤ u16_MAX →
  ∃ state', assign_segment_ids ids state = Ok state' ∧ segment_count state' = zlen ids ∧
    remaining_segments state' = zlen ids ∧
    ∀ i : nat, (i < length ids)%nat → segment_uuids state' !! Z.of_nat i = ids !! i.
Proof.
  intros Hmax. destruct (set_segment_ids_spec [] ids {| segment_count := zlen ids;
    remaining_segments := zlen ids; segment_uuids := segment_uuids state |}) as (state' & Hrun & Hc & Hr & Hu);
    [done|done|intros i Hi; simpl in Hi; lia|].
  exists state'. done.
Qed.

(** a claim takes the last segment that is left *)
Lemma claim_spec c :
  scan_ready c →
  (remaining_segments (sc_shared c) = 0 ∧ maybe_claim_segment (Some (sc_shared c)) = Ok (None, Some (sc_shared c))) ∨
  ∃ id shared, maybe_claim_segment (Some (sc_shared c)) = Ok (Some id, Some shared) ∧
    segment_count shared = zlen ids ∧ segment_uuids shared = segment_uuids (sc_shared c) ∧
    0 ≤ remaining_segments shared < remaining_segments (sc_shared c) ∧
    zdrop (remaining_segments shared) ids = id :: zdrop (remaining_segments (sc_shared c)) ids.
Proof.
  intros (Hc & Hr & Hu & _). unfold maybe_claim_segment.
  destruct (Z.eqb_spec (remaining_segments (sc_shared c)) 0) as [|Hne]; [by left|]. right.
  set (k := Z.to_nat (remaining_segments (sc_shared c) - 1)).
  assert ((k < length ids)%nat) as Hk by (unfold zlen in Hr; lia).
  destruct (lookup_lt_is_Some_2 _ _ Hk) as [id Hid].
  exists id. eexists. unfold get_segment_id. cbn [segment_count remaining_segments segment_uuids].
  rewrite (proj2 (Z.leb_gt _ _)) by lia.
  replace (remaining_segments (sc_shared c) - 1) with (Z.of_nat k) by lia.
  destruct (Hu k) as [->|]; [|lia]. rewrite Hid. split; [done|]. split; [done|]. split; [done|].
  cbn [remaining_segments]. split; [lia|]. unfold zdrop.
  replace (Z.to_nat (remaining_segments (sc_shared c))) with (S k) by lia. rewrite Nat2Z.id.
  by apply drop_S.
Qed.

Hypothesis few_segments : zlen ids ≤ u16_MAX.

Lemma set_phase_leader i ph shared l c ph' :
  sc_workers c !! i = Some ph' → ph' ≠ NotStarted → sc_workers c !! (-1) ≠ Some NotStarted → ph ≠ NotStarted →
  sc_workers (set_phase i ph shared l c) !! (-1) ≠ Some NotStarted.
Proof.
  intros Hi Hne Hl Hp. simpl. destruct (decide (i = -1)) as [->|?].
  - rewrite lookup_insert_eq. congruence.
  - by rewrite lookup_insert_ne.
Qed.

(** a participant other than the leader starts, or finds nothing to claim before it *)
Lemma fresh_step i ph ph' c :
  scan_fresh c → sc_workers c !! i = Some ph → held ph = [] → held ph' = [] → i ≠ -1 →
  scan_fresh (set_phase i ph' (sc_shared c) [] c).
Proof.
  intros (Hl & Hr & He) Hi Hp Hp' Hne. split_and!; simpl; [by rewrite lookup_insert_ne|done|].
  rewrite app_nil_r. destruct (all_held_split i ph _ Hi) as (rest & Hall & Hall').
  apply app_eq_nil in He as [-> He]. rewrite He, Hp in Hall. specialize (Hall' ph').
  rewrite Hp' in Hall'. simpl in *. apply Permutation_nil in Hall. subst rest.
  symmetry in Hall'. by apply Permutation_nil in Hall'.
Qed.

(** a step of a participant that leaves the shared state as it is *)
Lemma ready_step i ph ph' l c :
  scan_ready c → sc_workers c !! i = Some ph → l ++ held ph' = held ph →
  (ph' = Done → remaining_segments (sc_shared c) = 0) → ph ≠ Done →
  scan_ready (set_phase i ph' (sc_shared c) l c).
Proof.
  intros (Hc & Hr & Hu & He & Hd) Hi Hheld Hdone Hne.
  split_and!; simpl; try done; try lia.
  - destruct (all_held_split i ph _ Hi) as (rest & Hall & Hall').
    rewrite (Hall' ph'), <- He, Hall, <- Hheld. by rewrite <- !app_assoc.
  - destruct (decide (i = -1)) as [->|?]; [rewrite lookup_insert_eq; intros [= ->]; by apply Hdone|].
    by rewrite lookup_insert_ne.
Qed.

(** a claim *)
Lemma ready_claim i ph id shared c :
  scan_ready c → sc_workers c !! i = Some ph → held ph = [] → ph ≠ Done →
  maybe_claim_segment (Some (sc_shared c)) = Ok (Some id, Some shared) →
  scan_ready (set_phase i (Scanning (search_segment id)) shared [] c).
Proof.
  intros Hready Hi Hheld Hne Hclaim. pose proof Hready as (Hc & Hr & Hu & He & Hd).
  destruct (claim_spec c Hready) as [[_ Hn]|(id' & shared' & Hrun & Hc' & Hu' & Hr' & Hdrop)]; [congruence|].
  assert (id' = id ∧ shared' = shared) as [-> ->] by (split; congruence).
  split_and!; simpl; try done; try lia.
  - by rewrite Hu'.
  - destruct (all_held_split i ph _ Hi) as (rest & Hall & Hall').
    rewrite Hdrop, (Hall' (Scanning _)), app_nil_r. simpl. rewrite <- He, Hall, Hheld. simpl. solve_Permutation.
  - destruct (decide (i = -1)) as [->|?]; [by rewrite lookup_insert_eq|].
    rewrite lookup_insert_ne by done. intros Hdn. specialize (Hd Hdn). lia.
Qed.

Lemma claim_nothing c o shared :
  scan_inv c → maybe_claim_segment (Some (sc_shared c)) = Ok (o, Some shared) →
  remaining_segments (sc_shared c) = 0 → o = None ∧ shared = sc_shared c.
Proof. intros _ Hclaim Hz. unfold maybe_claim_segment in Hclaim. rewrite Hz in Hclaim. simpl in Hclaim. by simplify_eq. Qed.

Lemma claim_none c shared :
  maybe_claim_segment (Some (sc_shared c)) = Ok (None, Some shared) →
  remaining_segments (sc_shared c) = 0 ∧ shared = sc_shared c.
Proof.
  unfold maybe_claim_segment. destruct (Z.eqb_spec (remaining_segments (sc_shared c)) 0); [intros [= <-]; done|].
  by destruct (get_segment_id _ _).
Qed.

Lemma scan_step_inv c c' : scan_step c c' → scan_inv c → scan_inv c'.
Proof.
  destruct 1 as [i c shared Hi Hinit|i c o shared Hi Hclaim|i c ctid results Hi|i c id shared Hi Hclaim|i c shared Hi Hclaim];
    intros Hinv.
  - destruct (decide (i = -1)) as [->|Hne].
    + destruct Hinv as [(_ & _ & He)|[_ Hn]]; [|done]. right. cbn in Hinit.
      destruct (assign_spec (sc_shared c) few_segments) as (st & Hrun & Hc & Hr & Hu). rewrite Hrun in Hinit.
      simplify_eq/=. split; [|simpl; by rewrite lookup_insert_eq].
      pose proof (zlen_nonneg ids). split_and!; simpl; try lia.
      * intros j. destruct (decide (j < length ids)%nat); [left; by apply Hu|right; lia].
      * destruct (all_held_split (-1) NotStarted _ Hi) as (rest & Hall & Hall').
        rewrite (Hall' Rescanning), Hr, app_nil_r. simpl in *. rewrite <- Hall, He.
        by rewrite zdrop_ge by lia.
      * by rewrite lookup_insert_eq.
    + assert (shared = sc_shared c) as ->.
      { cbn in Hinit. rewrite (proj2 (Z.eqb_neq i (-1))) in Hinit by done. by simplify_eq/=. }
      destruct Hinv as [Hf|[Hr Hn]]; [left; by eapply fresh_step|right].
      split; [by eapply ready_step|]. simpl. by rewrite lookup_insert_ne.
  - destruct Hinv as [Hf|[Hr Hn]].
    + left. destruct (claim_nothing c o shared) as [-> ->]; [by left|done|apply Hf|].
      eapply fresh_step; try done. intros ->. destruct Hf as [Hf _]. congruence.
    + right. split; [|by eapply set_phase_leader]. destruct o as [id|]; [by eapply ready_claim|].
      apply claim_none in Hclaim as [_ ->]. by eapply ready_step.
  - destruct Hinv as [(Hl & Hz & He)|[Hr Hn]].
    + destruct (all_held_split i _ _ Hi) as (rest & Hall & _). apply app_eq_nil in He as [_ He].
      rewrite He in Hall. by apply Permutation_nil in Hall.
    + right. split; [|by eapply set_phase_leader]. by eapply ready_step.
  - destruct Hinv as [Hf|[Hr Hn]].
    + destruct (claim_nothing c (Some id) shared) as [? _]; [by left|done|apply Hf|done].
    + right. split; [|by eapply set_phase_leader]. by eapply ready_claim.
  - apply claim_none in Hclaim as [Hz ->]. destruct Hinv as [Hf|[Hr Hn]].
    + left. eapply fresh_step; try done. intros ->. destruct Hf as [Hf _]. congruence.
    + right. split; [|by eapply set_phase_leader]. by eapply ready_step.
Qed.

Lemma scan_runs_inv c c' : rtc scan_step c c' → scan_inv c → scan_inv c'.
Proof. induction 1 as [|c c1 c' Hs _ IH]; [done|]. intros Hi. by eapply IH, scan_step_inv. Qed.

Lemma scan_start_inv workers shared :
  -1 ∈ workers → remaining_segments shared = 0 → scan_inv (scan_start workers shared).
Proof.
  intros Hl Hz. left. split_and!; simpl; [by apply lookup_gset_to_gmap_Some|done|].
  apply all_held_nil. intros i ph Hp. apply lookup_gset_to_gmap_Some in Hp as [_ <-]. done.
Qed.

(** ** Every run ends *)

(** a bound on the steps a participant and the segments that are left still allow *)
Definition phase_steps (ph : ScanPhase) : list unit :=
  match ph with
  | NotStarted => replicate 3 tt
  | Rescanning => replicate 2 tt
  | Scanning results => tt :: replicate (length results) tt
  | Done => []
  end.
Definition segment_steps (id : SegmentId) : list unit := tt :: replicate (length (search_segment id)) tt.
Definition steps_left c : nat :=
  (length (gather phase_steps (sc_workers c)) +
   length ((match sc_workers c !! (-1)%Z with
            | Some NotStarted => ids
            | _ => ztake (remaining_segments (sc_shared c)) ids
            end) ≫= segment_steps))%nat.

(** the segments that are left are a choice of the leader's phase *)
Lemma steps_left_change i ph ph' shared l c (left left' : list SegmentId) :
  sc_workers c !! i = Some ph →
  left = match sc_workers c !! (-1) with
         | Some NotStarted => ids | _ => ztake (remaining_segments (sc_shared c)) ids end →
  left' = match <[i := ph']> (sc_workers c) !! (-1) with
          | Some NotStarted => ids | _ => ztake (remaining_segments shared) ids end →
  (length (phase_steps ph') + length (left' ≫= segment_steps) <
   length (phase_steps ph) + length (left ≫= segment_steps))%nat →
  (steps_left (set_phase i ph' shared l c) < steps_left c)%nat.
Proof.
  intros Hi -> -> Hlt. unfold steps_left. cbn [set_phase sc_workers sc_shared].
  destruct (gather_split phase_steps i ph _ Hi) as (rest & Hg & Hg').
  rewrite (Permutation_length Hg), (Permutation_length (Hg' ph')), !length_app. lia.
Qed.

Lemma claim_left c id shared :
  scan_ready c → maybe_claim_segment (Some (sc_shared c)) = Ok (Some id, Some shared) →
  length (ztake (remaining_segments (sc_shared c)) ids ≫= segment_steps) =
  (length (ztake (remaining_segments shared) ids ≫= segment_steps) + length (segment_steps id))%nat.
Proof.
  intros Hready Hclaim. pose proof Hready as (_ & Hr & _).
  destruct (claim_spec c Hready) as [[_ Hn]|(id' & shared' & Hrun & _ & _ & Hr' & Hdrop)]; [congruence|].
  assert (id' = id ∧ shared' = shared) as [-> ->] by (split; congruence).
  assert (ztake (remaining_segments (sc_shared c)) ids = ztake (remaining_segments shared) ids ++ [id]) as ->.
  { apply (app_inv_tail (zdrop (remaining_segments (sc_shared c)) ids)).
    rewrite <- app_assoc. simpl. by rewrite <- Hdrop, !ztake_zdrop. }
  rewrite bind_app, length_app. f_equal. simpl. by rewrite app_nil_r.
Qed.

Lemma left_started (o : option ScanPhase) (l l' : list SegmentId) :
  o ≠ Some NotStarted → l' = match o with Some NotStarted => l | _ => l' end.
Proof. destruct o as [[]|]; done. Qed.
Lemma left_not_started (o : option ScanPhase) (l l' : list SegmentId) :
  o = Some NotStarted → l = match o with Some NotStarted => l | _ => l' end.
Proof. by intros ->. Qed.

(** a step after the leader has started, and one of another before that *)
Lemma ready_decreases i ph ph' shared l c :
  sc_workers c !! i = Some ph → ph ≠ NotStarted → ph' ≠ NotStarted → sc_workers c !! (-1) ≠ Some NotStarted →
  (length (phase_steps ph') + length (ztake (remaining_segments shared) ids ≫= segment_steps) <
   length (phase_steps ph) + length (ztake (remaining_segments (sc_shared c)) ids ≫= segment_steps))%nat →
  (steps_left (set_phase i ph' shared l c) < steps_left c)%nat.
Proof.
  intros Hi Hp Hp' Hl. eapply steps_left_change; [done|by apply left_started|]. apply left_started.
  pose proof (set_phase_leader i ph' shared l c ph Hi Hp Hl Hp') as Hs. exact Hs.
Qed.
Lemma fresh_decreases i ph ph' shared l c :
  sc_workers c !! i = Some ph → i ≠ -1 → sc_workers c !! (-1) = Some NotStarted →
  (length (phase_steps ph') < length (phase_steps ph))%nat →
  (steps_left (set_phase i ph' shared l c) < steps_left c)%nat.
Proof.
  intros Hi Hne Hl Hlt. eapply (steps_left_change _ _ _ _ _ _ ids ids); [done|by apply left_not_started| |lia].
  apply left_not_started. by rewrite lookup_insert_ne.
Qed.

Lemma scan_step_decreases c c' : scan_inv c → scan_step c c' → (steps_left c' < steps_left c)%nat.
Proof.
  intros Hinv.
  destruct 1 as [i c shared Hi Hinit|i c o shared Hi Hclaim|i c ctid results Hi|i c id shared Hi Hclaim|i c shared Hi Hclaim].
  - destruct (decide (i = -1)) as [->|Hne].
    + cbn in Hinit. destruct (assign_spec (sc_shared c) few_segments) as (st & Hrun & _ & Hr & _).
      rewrite Hrun in Hinit. simplify_eq/=.
      eapply (steps_left_change _ _ _ _ _ _ ids ids); [done|by apply left_not_started| |simpl; lia].
      rewrite lookup_insert_eq, Hr. by rewrite ztake_ge by lia.
    + assert (shared = sc_shared c) as ->.
      { cbn in Hinit. rewrite (proj2 (Z.eqb_neq i (-1))) in Hinit by done. by simplify_eq/=. }
      destruct Hinv as [Hf|[Hr Hn]]; [eapply fresh_decreases; [done|done|apply Hf|simpl; lia]|].
      eapply steps_left_change; [done|by apply left_started| |].
      * apply left_started. by rewrite lookup_insert_ne.
      * simpl. lia.
  - destruct Hinv as [Hf|[Hr Hn]].
    + destruct (claim_nothing c o shared) as [-> ->]; [by left|done|apply Hf|].
      eapply fresh_decreases; [done| |apply Hf|simpl; lia]. intros ->. destruct Hf as [Hf _]. congruence.
    + eapply ready_decreases; try done. destruct o as [id|].
      * rewrite (claim_left _ _ _ Hr Hclaim). simpl. lia.
      * apply claim_none in Hclaim as [_ ->]. simpl. lia.
  - destruct Hinv as [(Hl & Hz & He)|[Hr Hn]].
    + eapply fresh_decreases; [done| |done|simpl; lia]. intros ->. congruence.
    + eapply ready_decreases; try done. simpl. lia.
  - destruct Hinv as [Hf|[Hr Hn]].
    + destruct (claim_nothing c (Some id) shared) as [? _]; [by left|done|apply Hf|done].
    + eapply ready_decreases; try done. rewrite (claim_left _ _ _ Hr Hclaim). simpl. lia.
  - apply claim_none in Hclaim as [Hz ->]. destruct Hinv as [Hf|[Hr Hn]].
    + eapply fresh_decreases; [done| |apply Hf|simpl; lia]. intros ->. destruct Hf as [Hf _]. congruence.
    + eapply ready_decreases; try done. simpl. lia.
Qed.

Lemma scan_steps_bounded n c c' : nsteps scan_step n c c' → scan_inv c → (n + steps_left c' ≤ steps_left c)%nat.
Proof.
  intros Hn. induction Hn as [c|n c c1 c' Hs _ IH]; intros Hi; [lia|].
  pose proof (scan_step_decreases _ _ Hi Hs). specialize (IH (scan_step_inv _ _ Hs Hi)). lia.
Qed.

(** a participant that is not done can go on *)
Lemma scan_progress c i ph :
  scan_inv c → sc_workers c !! i = Some ph → ph ≠ Done → ∃ c', scan_step c c'.
Proof.
  intros Hinv Hi Hne.
  assert (∃ o shared, maybe_claim_segment (Some (sc_shared c)) = Ok (o, Some shared)) as (o & shared & Hclaim).
  { destruct Hinv as [(_ & Hz & _)|[Hr _]].
    - exists None, (sc_shared c). unfold maybe_claim_segment. by rewrite Hz.
    - destruct (claim_spec c Hr) as [[_ ->]|(id & sh & -> & _)]; by eexists _, _. }
  destruct ph as [| |[|ctid results]|]; [| | | |done].
  - destruct (decide (i = -1)) as [->|Hn].
    + destruct (assign_spec (sc_shared c) few_segments) as (st & Hrun & _).
      eexists. apply (step_init (-1) c st Hi). cbn. by rewrite Hrun.
    + eexists. apply (step_init i c (sc_shared c) Hi). cbn. by rewrite (proj2 (Z.eqb_neq i (-1))).
  - eexists. by eapply step_first_claim.
  - destruct o as [id|]; eexists; [by eapply step_next_segment|by eapply step_done].
  - eexists. by eapply step_tuple.
Qed.

Lemma scan_covers c :
  scan_inv c → sc_workers c !! (-1) = Some Done → sc_emitted c ++ all_held (sc_workers c) ≡ₚ ids ≫= search_segment.
Proof.
  intros [(Hn & _)|[(_ & _ & _ & He & Hz) _]] Hd; [congruence|]. by rewrite He, Hz.
Qed.

Lemma scan_step_workers c c' : scan_step c c' → dom (sc_workers c') = dom (sc_workers c).
Proof.
  assert (∀ i ph ph' c shared l, sc_workers c !! i = Some ph →
    dom (sc_workers (set_phase i ph' shared l c)) = dom (sc_workers c)) as Hdom.
  { intros i ph ph' c0 shared l Hi. apply dom_insert_lookup_L. by exists ph. }
  destruct 1; by eapply Hdom.
Qed.

Lemma segment_steps_length l : length (l ≫= segment_steps) = (length l + length (l ≫= search_segment))%nat.
Proof.
  induction l as [|id l IH]; [done|]. cbn [mbind list_bind] in *. rewrite !length_app, IH.
  unfold segment_steps. cbn [length]. rewrite length_replicate. lia.
Qed.

Lemma steps_left_start workers shared :
  -1 ∈ workers →
  steps_left (scan_start workers shared) = (3 * size workers + length ids + length (ids ≫= search_segment))%nat.
Proof.
  intros Hl. unfold steps_left. cbn [scan_start sc_workers sc_shared].
  rewrite (proj2 (lookup_gset_to_gmap_Some NotStarted workers (-1) NotStarted)) by done.
  rewrite (gather_same phase_steps (replicate 3 tt)).
  2: { intros i ph Hp. by apply lookup_gset_to_gmap_Some in Hp as [_ <-]. }
  rewrite <- size_dom, dom_gset_to_gmap, <- Nat.add_assoc. f_equal.
  - induction (size workers) as [|n IH]; [done|]. cbn [replicate concat app length] in *. rewrite IH. lia.
  - apply segment_steps_length.
Qed.
End scan.

(** C38: Every run of a parallel scan ends, within three steps per participant and one
    per segment and per tuple. Once the leader is done, what was returned, with what
    participants still hold of the segments they claimed, is every tuple of every
    segment exactly once; and a run can only stop when every participant is done, and
    then all of them have been returned. *)
Theorem parallel_scan_ends `{TantivyIndex} (ids : list SegmentId) (search_segment : SegmentId → list Z)
    (workers : gset Z) (shared : ParallelScanState) (n : nat) (c : ScanConf) :
  zlen ids ≤ u16_MAX → -1 ∈ workers → remaining_segments shared = 0 →
  nsteps (scan_step ids search_segment) n (scan_start workers shared) c →
  (n ≤ 3 * size workers + length ids + length (ids ≫= search_segment))%nat ∧
  (sc_workers c !! (-1) = Some Done →
   sc_emitted c ++ all_held (sc_workers c) ≡ₚ ids ≫= search_segment) ∧
  ((∀ c', ¬ scan_step ids search_segment c c') →
   (∀ i, i ∈ workers → sc_workers c !! i = Some Done) ∧ sc_emitted c ≡ₚ ids ≫= search_segment).
Proof.
  intros Hmax Hl Hz Hruns.
  pose proof (scan_start_inv ids search_segment workers shared Hl Hz) as Hi.
  assert (rtc (scan_step ids search_segment) (scan_start workers shared) c) as Hrtc by by eapply rtc_nsteps_2.
  pose proof (scan_runs_inv ids search_segment Hmax _ _ Hrtc Hi) as Hi'. split; [|split].
  - pose proof (scan_steps_bounded ids search_segment Hmax _ _ _ Hruns Hi).
    rewrite (steps_left_start ids search_segment) in * by done. lia.
  - by apply scan_covers.
  - intros Hstuck.
    assert (dom (sc_workers c) = workers) as Hdom.
    { clear -Hrtc. remember (scan_start workers shared) as c0 eqn:E.
      assert (dom (sc_workers c0) = workers) as Hc0 by (subst c0; apply dom_gset_to_gmap). clear E.
      induction Hrtc as [|c0 c1 c' Hs _ IH]; [done|]. apply IH. by rewrite (scan_step_workers _ _ _ _ Hs). }
    assert (∀ i ph, sc_workers c !! i = Some ph → ph = Done) as Hdone.
    { intros i ph Hph. destruct (decide (ph = Done)) as [|Hne]; [done|]. exfalso.
      destruct (scan_progress ids search_segment Hmax c i ph Hi' Hph Hne) as [c' Hs]. by apply (Hstuck c'). }
    assert (∀ i, i ∈ workers → sc_workers c !! i = Some Done) as Hall.
    { intros i Hin. rewrite <- Hdom in Hin. apply elem_of_dom in Hin as [ph Hph]. by rewrite Hph, (Hdone _ _ Hph). }
    split; [done|]. rewrite <- (scan_covers ids search_segment c Hi' (Hall _ Hl)).
    rewrite all_held_nil; [by rewrite app_nil_r|]. intros i ph Hph. by rewrite (Hdone _ _ Hph).
Qed.
