(* ===== verification/ScanExec.v ===== *)
(** * ScanExec: the execution of a custom scan

    [postgres/customscan/pdbscan/exec_methods.rs], [exec_methods/normal.rs],
    [exec_methods/top_n.rs], [checkout_segment] of [parallel.rs] and the executor's loop
    [exec_custom_scan] of [mod.rs]: an exec method takes documents from search results, asks for
    more of them when they end, and the loop drops those that are not visible.  The heap and its
    visibility map are parameters, as they are for the scan's snapshot. *)

From S2P Require Import Prelude Page Block PgUtils Query CustomScan Reader Parallel.

Open Scope Z_scope.

(** the heap: what the snapshot sees of a tuple address, the visibility map of a block, and the dead
    and live tuples Postgres has counted *)
Class PgHeap := {
  visible : Z → bool;
  block_all_visible : Z → bool;
  n_dead_tuples : Z;
  n_live_tuples : Z
}.
(** what a virtual slot holds for each of its columns that is not null *)
Class PgSlots := { SlotDatum : Type }.
(** the [f64] operations of the retry's scaling factor *)
Class RustF64Ops `{RustF64} := {
  f64_add : F64 → F64 → F64;
  f64_div : F64 → F64 → F64;
  f64_ceil_as_usize : F64 → Z
}.
(** [SegmentId::default()] *)
Class SegmentIdDefault `{TantivyIndex} := { segment_id_default : SegmentId }.

Definition is_block_all_visible `{PgHeap} (heap_blockno : Z) : bool := block_all_visible heap_blockno.

(** multiplication of [usize]s *)
Definition mul_u64 `{RustBuild} (a b : Z) : outcome Z :=
  if a * b <=? u64_max then Ok (a * b)
  else if overflow_checks then Panic "attempt to multiply with overflow"
  else Ok ((a * b) mod 2 ^ 64).

Section exec.
Context `{RustF64} `{TantivyTypes} `{TantivyText} `{TantivyRegex} `{RustBuild}
  `{Chrono} `{!PgDates} `{AsFieldType} `{!TantivyParser} `{!TantivySearcher} `{TantivyIndex} `{!TantivyReader}
  `{PgHeap} `{PgSlots} `{!RustF64Ops} `{!SegmentIdDefault}.

(** ** [PdbScanState] and [ExecMethod] *)

Record PdbScanState := {
  parallel_state : option ParallelScanState;
  search_query_input : SearchQueryInput;
  search_reader : option SearchIndexReader;
  targetlist_len : Z;
  state_limit : option Z;
  state_sort_field : option string;
  need_scores_field : bool;
  heap_tuple_check_count : Z;
  virtual_tuple_count : Z;
  invisible_tuple_count : Z
}.
Definition set_parallel_state (p : option ParallelScanState) (st : PdbScanState) : PdbScanState :=
  {| parallel_state := p; search_query_input := search_query_input st; search_reader := search_reader st;
     targetlist_len := targetlist_len st; state_limit := state_limit st; state_sort_field := state_sort_field st;
     need_scores_field := need_scores_field st; heap_tuple_check_count := heap_tuple_check_count st;
     virtual_tuple_count := virtual_tuple_count st; invisible_tuple_count := invisible_tuple_count st |}.
(** the counters of one more tuple: checked in the heap, virtual, invisible *)
Definition add_counts (checked virtual invisible : Z) (st : PdbScanState) : PdbScanState :=
  {| parallel_state := parallel_state st; search_query_input := search_query_input st;
     search_reader := search_reader st; targetlist_len := targetlist_len st; state_limit := state_limit st;
     state_sort_field := state_sort_field st; need_scores_field := need_scores_field st;
     heap_tuple_check_count := heap_tuple_check_count st + checked;
     virtual_tuple_count := virtual_tuple_count st + virtual;
     invisible_tuple_count := invisible_tuple_count st + invisible |}.

Definition set_search_reader (reader : SearchIndexReader) (st : PdbScanState) : PdbScanState :=
  {| parallel_state := parallel_state st; search_query_input := search_query_input st;
     search_reader := Some reader; targetlist_len := targetlist_len st; state_limit := state_limit st;
     state_sort_field := state_sort_field st; need_scores_field := need_scores_field st;
     heap_tuple_check_count := heap_tuple_check_count st; virtual_tuple_count := virtual_tuple_count st;
     invisible_tuple_count := invisible_tuple_count st |}.

Definition need_scores (st : PdbScanState) : bool :=
  need_scores_field st || contains_more_like_this (search_query_input st).

Inductive ExecState :=
  | RequiresVisibilityCheck (ctid : Z) (score : Score) (doc_address : DocAddr)
  | Virtual (slot : list (option SlotDatum))
  | Eof.

(** [trait ExecMethod]: the required methods, and the provided [next], whose loop runs the scan's
    queries one after the other *)
Class ExecMethod (E : Type) := {
  exec_init : E → PdbScanState → E;
  exec_query : E → PdbScanState → outcome (bool * E * PdbScanState);
  internal_next : E → PdbScanState → outcome (ExecState * E * PdbScanState)
}.
Fixpoint exec_next `{ExecMethod E} (fuel : nat) (e : E) (st : PdbScanState)
    : outcome (ExecState * E * PdbScanState) :=
  match fuel with
  | O => NoFuel
  | S fuel =>
      '(s, e, st) ← internal_next e st;
      match s with
      | Eof =>
          '(more, e, st) ← exec_query e st;
          if (more : bool) then exec_next fuel e st else Ok (Eof, e, st)
      | other => Ok (other, e, st)
      end
  end.

(** [checkout_segment], under the lock *)
Definition checkout_segment (pscan_state : ParallelScanState) : outcome (option SegmentId * ParallelScanState) :=
  if 0 <? remaining_segments pscan_state then
    let pscan_state :=
      {| Parallel.segment_count := Parallel.segment_count pscan_state;
         remaining_segments := remaining_segments pscan_state - 1;
         segment_uuids := segment_uuids pscan_state |} in
    id ← get_segment_id (remaining_segments pscan_state) pscan_state;
    Ok (Some id, pscan_state)
  else Ok (None, pscan_state).

(** ** [NormalScanExecState] *)

Record NormalScanExecState := {
  can_use_visibility_map : bool;
  normal_results : SearchResults;
  blockvis : Z * bool;
  normal_did_query : bool
}.
Definition normal_default : NormalScanExecState :=
  {| can_use_visibility_map := false; normal_results := NoResults; blockvis := (InvalidBlockNumber, false);
     normal_did_query := false |}.
Definition normal_init (e : NormalScanExecState) (st : PdbScanState) : NormalScanExecState :=
  {| can_use_visibility_map := targetlist_len st =? 0; normal_results := normal_results e; blockvis := blockvis e;
     normal_did_query := normal_did_query e |}.
Definition set_normal (results : SearchResults) (did_query : bool) (e : NormalScanExecState) : NormalScanExecState :=
  {| can_use_visibility_map := can_use_visibility_map e; normal_results := results; blockvis := blockvis e;
     normal_did_query := did_query |}.
Definition set_blockvis (b : Z * bool) (e : NormalScanExecState) : NormalScanExecState :=
  {| can_use_visibility_map := can_use_visibility_map e; normal_results := normal_results e; blockvis := b;
     normal_did_query := normal_did_query e |}.

Definition do_query (e : NormalScanExecState) (st : PdbScanState) : outcome (bool * NormalScanExecState) :=
  if normal_did_query e then Ok (false, e)
  else
    reader ← expect_some (search_reader st) "unwrap";
    results ← search reader (need_scores st) (search_query_input st);
    Ok (true, set_normal results true e).

Definition normal_query (e : NormalScanExecState) (st : PdbScanState)
    : outcome (bool * NormalScanExecState * PdbScanState) :=
  match parallel_state st with
  | Some pscan_state =>
      '(o, pscan_state) ← checkout_segment pscan_state;
      let st := set_parallel_state (Some pscan_state) st in
      match o with
      | Some segment_id =>
          reader ← expect_some (search_reader st) "unwrap";
          results ← search_segment reader (need_scores st) segment_id (search_query_input st);
          Ok (true, set_normal results (normal_did_query e) e, st)
      | None => Ok (false, set_normal NoResults (normal_did_query e) e, st)
      end
  | None =>
      if normal_did_query e then Ok (false, e, st)
      else
        '(_, e) ← do_query e st;
        Ok (true, set_normal (normal_results e) true e, st)
  end.

Definition normal_internal_next (e : NormalScanExecState) (st : PdbScanState)
    : outcome (ExecState * NormalScanExecState * PdbScanState) :=
  '(item, results) ← next (normal_results e);
  let e := set_normal results (normal_did_query e) e in
  match item with
  | None => Ok (Eof, e, st)
  | Some (scored, doc_address) =>
      if can_use_visibility_map e then
        let blockno := ip_blkid (u64_to_item_pointer (ctid scored)) in
        let e := if blockno =? (blockvis e).1 then e
                 else set_blockvis (blockno, is_block_all_visible blockno) e in
        if (blockvis e).2 then Ok (Virtual [], e, st)
        else Ok (RequiresVisibilityCheck (ctid scored) (bm25 scored) doc_address, e, st)
      else Ok (RequiresVisibilityCheck (ctid scored) (bm25 scored) doc_address, e, st)
  end.

#[export] Instance NormalExec : ExecMethod NormalScanExecState := {
  exec_init := normal_init;
  exec_query := normal_query;
  internal_next := normal_internal_next
}.

(** ** [TopNScanExecState] *)

Definition SUBSEQUENT_RETRY_SCALE_FACTOR : Z := 2.
Definition MAX_CHUNK_SIZE : Z := 5000.

Record TopNScanExecState := {
  top_limit_ : Z;
  top_direction : SortDirection;
  top_need_scores : bool;
  top_query_input : option SearchQueryInput;
  top_sort_field : option string;
  top_results : SearchResults;
  top_did_query : bool;
  last_ctid : Z;
  found : Z;
  chunk_size : Z;
  retry_count : Z;
  current_segment : SegmentId
}.
Definition top_new (limit : Z) (d : SortDirection) (scores : bool) : TopNScanExecState :=
  {| top_limit_ := limit; top_direction := d; top_need_scores := scores; top_query_input := None;
     top_sort_field := None; top_results := NoResults; top_did_query := false; last_ctid := 0; found := 0;
     chunk_size := 0; retry_count := 0; current_segment := segment_id_default |}.
Definition top_init (e : TopNScanExecState) (st : PdbScanState) : TopNScanExecState :=
  {| top_limit_ := top_limit_ e; top_direction := top_direction e; top_need_scores := top_need_scores e;
     top_query_input := Some (search_query_input st); top_sort_field := state_sort_field st;
     top_results := top_results e; top_did_query := top_did_query e; last_ctid := last_ctid e; found := found e;
     chunk_size := chunk_size e; retry_count := retry_count e; current_segment := current_segment e |}.
(** the fields that change while it runs *)
Definition set_top (results : SearchResults) (did_query : bool) (tracking : Z * Z * Z * Z) (segment : SegmentId)
    (e : TopNScanExecState) : TopNScanExecState :=
  let '(ctid, fnd, chunk, retries) := tracking in
  {| top_limit_ := top_limit_ e; top_direction := top_direction e; top_need_scores := top_need_scores e;
     top_query_input := top_query_input e; top_sort_field := top_sort_field e;
     top_results := results; top_did_query := did_query; last_ctid := ctid; found := fnd;
     chunk_size := chunk; retry_count := retries; current_segment := segment |}.
Definition tracking (e : TopNScanExecState) : Z * Z * Z * Z := (last_ctid e, found e, chunk_size e, retry_count e).

(** [From<custom_path::SortDirection> for reader::SortDirection] *)
Definition reader_sort (d : SortDirection) : ReaderSort :=
  match d with Asc => SortAsc | Desc => SortDesc | NoSort => SortNone end.

Definition query_more_results (e : TopNScanExecState) (st : PdbScanState) (segment : option SegmentId)
    : outcome (SearchResults * TopNScanExecState * PdbScanState) :=
  match parallel_state st with
  | Some pscan_state =>
      '(o, pscan_state) ← match segment with
        | Some id => Ok (Some id, pscan_state)
        | None => checkout_segment pscan_state
        end;
      let st := set_parallel_state (Some pscan_state) st in
      match o with
      | Some id =>
          let e := set_top (top_results e) (top_did_query e) (tracking e) id e in
          reader ← expect_some (search_reader st) "unwrap";
          input ← expect_some (top_query_input e) "unwrap";
          results ← search_top_n_in_segment reader id input (top_sort_field e) (reader_sort (top_direction e))
            (top_limit_ e) (top_need_scores e);
          Ok (results, e, st)
      | None => Ok (NoResults, e, st)
      end
  | None =>
      if top_did_query e then Ok (NoResults, e, st)
      else
        reader ← expect_some (search_reader st) "unwrap";
        input ← expect_some (top_query_input e) "unwrap";
        results ← search_top_n reader input (top_sort_field e) (reader_sort (top_direction e))
          (top_limit_ e) (top_need_scores e);
        Ok (results, e, st)
  end.

Definition top_query (e : TopNScanExecState) (st : PdbScanState) : outcome (bool * TopNScanExecState * PdbScanState) :=
  '(results, e, st) ← query_more_results e st None;
  let e := set_top (top_results e) true (tracking e) (current_segment e) e in
  match results with
  | NoResults => Ok (false, e, st)
  | _ => Ok (true, set_top results true (0, 0, 0, 0) (current_segment e) e, st)
  end.

(** [for (scored, _) in &mut results { if scored.ctid == last_ctid { break } }] *)
Fixpoint fast_forward (fuel : nat) (last : Z) (results : SearchResults) : outcome SearchResults :=
  match fuel with
  | O => NoFuel
  | S fuel =>
      '(item, results) ← next results;
      match item with
      | None => Ok results
      | Some (scored, _) => if ctid scored =? last then Ok results else fast_forward fuel last results
      end
  end.

Definition scaling_factor (e : TopNScanExecState) : Z :=
  if chunk_size e =? 0 then
    f64_ceil_as_usize
      (f64_add (f64_of_Z 1)
        (f64_div (f64_add (f64_of_Z 1) (f64_of_Z n_dead_tuples)) (f64_add (f64_of_Z 1) (f64_of_Z n_live_tuples))))
  else SUBSEQUENT_RETRY_SCALE_FACTOR.

(** the rest of the loop of [internal_next]: its second iteration has a document and ends *)
Definition retry (e : TopNScanExecState) (st : PdbScanState) : outcome (ExecState * TopNScanExecState * PdbScanState) :=
  let factor := scaling_factor e in
  chunk ← mul_u64 (chunk_size e) factor;
  at_least ← mul_u64 (top_limit_ e) factor;
  let e := set_top (top_results e) (top_did_query e)
    (last_ctid e, found e, Z.min (Z.max chunk at_least) MAX_CHUNK_SIZE, retry_count e + 1) (current_segment e) e in
  '(results, e, st) ← query_more_results e st (Some (current_segment e));
  results ← fast_forward (S (Z.to_nat (count results))) (last_ctid e) results;
  '(item, results) ← next results;
  match item with
  | None => Ok (Eof, e, st)
  | Some (scored, doc_address) =>
      Ok (RequiresVisibilityCheck (ctid scored) (bm25 scored) doc_address,
          set_top results (top_did_query e) (tracking e) (current_segment e) e, st)
  end.

Definition top_internal_next (e : TopNScanExecState) (st : PdbScanState)
    : outcome (ExecState * TopNScanExecState * PdbScanState) :=
  '(item, results) ← next (top_results e);
  let e := set_top results (top_did_query e) (tracking e) (current_segment e) e in
  match item with
  | Some (scored, doc_address) =>
      Ok (RequiresVisibilityCheck (ctid scored) (bm25 scored) doc_address, e, st)
  | None =>
      if negb (top_did_query e) then Ok (Eof, e, st)
      else if found e <=? top_limit_ e then Ok (Eof, e, st)
      else retry e st
  end.

#[export] Instance TopNExec : ExecMethod TopNScanExecState := {
  exec_init := top_init;
  exec_query := top_query;
  internal_next := top_internal_next
}.

(** ** [rescan_custom_scan] and [exec_custom_scan] *)

(** with a reader that was just opened; [begin_custom_scan] ends with it too *)
Definition rescan_custom_scan `{ExecMethod E} (reader : SearchIndexReader) (e : E) (st : PdbScanState)
    : E * PdbScanState :=
  let st := set_search_reader reader st in (exec_init e st, st).

(** a returned slot: a tuple of the heap, with the score if it is projected, or a virtual tuple *)
Inductive Row := HeapRow (ctid : Z) (score : option Score) | VirtualRow (slot : list (option SlotDatum)).

Fixpoint exec_custom_scan `{ExecMethod E} (fuel next_fuel : nat) (e : E) (st : PdbScanState)
    : outcome (option Row * E * PdbScanState) :=
  match fuel with
  | O => NoFuel
  | S fuel =>
      '(s, e, st) ← exec_next next_fuel e st;
      match s with
      | Eof => Ok (None, e, st)
      | RequiresVisibilityCheck ctid score _ =>
          if visible ctid
          then Ok (Some (HeapRow ctid (if need_scores st then Some score else None)), e, add_counts 1 0 0 st)
          else exec_custom_scan fuel next_fuel e (add_counts 0 0 1 st)
      | Virtual slot => Ok (Some (VirtualRow slot), e, add_counts 0 1 0 st)
      end
  end.

(** the executor calls it until it returns no slot *)
Fixpoint scan_rows `{ExecMethod E} (calls fuel next_fuel : nat) (e : E) (st : PdbScanState)
    : outcome (list Row * E * PdbScanState) :=
  match calls with
  | O => NoFuel
  | S calls =>
      '(row, e, st) ← exec_custom_scan fuel next_fuel e st;
      match row with
      | None => Ok ([], e, st)
      | Some row => '(rows, e, st) ← scan_rows calls fuel next_fuel e st; Ok (row :: rows, e, st)
      end
  end.
End exec.

(** ** What a scan returns *)

Section rows.
Context `{RustF64} `{TantivyTypes} `{TantivyText} `{TantivyRegex} `{RustBuild}
  `{Chrono} `{!PgDates} `{AsFieldType} `{!TantivyParser} `{!TantivySearcher} `{TantivyIndex} `{!TantivyReader}
  `{PgHeap} `{PgSlots} `{!RustF64Ops} `{!SegmentIdDefault}.
Implicit Types (st : PdbScanState) (doc : Score * DocAddr) (docs : list (Score * DocAddr)).

Definition block_of (c : Z) : Z := ip_blkid (u64_to_item_pointer c).

(** the columns of a virtual slot for a document *)
Notation SlotSpec := (list (option SlotDatum) → Score * DocAddr → Prop).
(** the slot of the normal method has no columns *)
Definition no_columns : SlotSpec := λ slot _, slot = [].

(** what an exec method may return for a document *)
Definition yields (sr : list SegmentReader) (slot_ok : SlotSpec) (s : ExecState) doc : Prop :=
  match s with
  | RequiresVisibilityCheck c score addr => addr = doc.2 ∧ score = doc.1 ∧ ctid_at sr addr = Some c
  | Virtual slot => slot_ok slot doc ∧ ∃ c, ctid_at sr doc.2 = Some c ∧ block_all_visible (block_of c) = true
  | Eof => False
  end.
(** a step of an exec method leaves the query and the counters as they are *)
Definition quiet st st' : Prop :=
  need_scores st' = need_scores st ∧ heap_tuple_check_count st' = heap_tuple_check_count st ∧
  virtual_tuple_count st' = virtual_tuple_count st ∧ invisible_tuple_count st' = invisible_tuple_count st ∧
  (parallel_state st = None → parallel_state st' = None).

(** the contract of an exec method over the segments [sr]: [pending e st docs] says that it will return
    the documents [docs], one with each [next], and then the end, in a state that is [ended] *)
Class ExecMethodOk {E} `{!ExecMethod E} (sr : list SegmentReader) (slot_ok : SlotSpec) (nf : nat)
    (pending : E → PdbScanState → list (Score * DocAddr) → Prop) (ended : E → PdbScanState → Prop) : Prop := {
  pending_counts e st docs a b c : pending e st docs → pending e (add_counts a b c st) docs;
  next_end e st : pending e st [] → ∃ e' st', exec_next nf e st = Ok (Eof, e', st') ∧ quiet st st' ∧ ended e' st';
  next_doc e st doc docs : pending e st (doc :: docs) → has_ctid sr doc →
    ∃ s e' st', exec_next nf e st = Ok (s, e', st') ∧ yields sr slot_ok s doc ∧ pending e' st' docs ∧ quiet st st'
}.

(** the row of a document *)
Definition row_for (sr : list SegmentReader) (slot_ok : SlotSpec) (scores : bool) (row : Row) doc : Prop :=
  ∃ c, ctid_at sr doc.2 = Some c ∧
    match row with
    | HeapRow c' score => c' = c ∧ score = if scores then Some doc.1 else None
    | VirtualRow slot => slot_ok slot doc ∧ block_all_visible (block_of c) = true
    end.
Definition seen (sr : list SegmentReader) doc : Prop :=
  from_option visible false (ctid_at sr doc.2).
#[export] Instance seen_dec sr doc : Decision (seen sr doc) := _.
Lemma seen_ctid sr doc c : ctid_at sr doc.2 = Some c → seen sr doc ↔ visible c = true.
Proof. intros Hc. unfold seen. rewrite Hc. cbn [from_option]. by destruct (visible c). Qed.
(** the tuples of a block the visibility map marks are visible *)
Definition map_sound (sr : list SegmentReader) doc : Prop :=
  ∀ c, ctid_at sr doc.2 = Some c → block_all_visible (block_of c) = true → visible c = true.

Section scan.
Context {E} `{!ExecMethod E} (sr : list SegmentReader) (slot_ok : SlotSpec) (nf : nat)
  (pending : E → PdbScanState → list (Score * DocAddr) → Prop) (ended : E → PdbScanState → Prop)
  `{!ExecMethodOk sr slot_ok nf pending ended}.
Implicit Types e : E.

Definition counted st st' (returned dropped : nat) : Prop :=
  need_scores st' = need_scores st ∧
  heap_tuple_check_count st' + virtual_tuple_count st' =
    heap_tuple_check_count st + virtual_tuple_count st + Z.of_nat returned ∧
  invisible_tuple_count st' = invisible_tuple_count st + Z.of_nat dropped ∧
  (parallel_state st = None → parallel_state st' = None).

(** one slot: the next document the snapshot sees *)
Lemma exec_custom_scan_next docs fuel e st :
  (length docs < fuel)%nat → pending e st docs → Forall (has_ctid sr) docs → Forall (map_sound sr) docs →
  (filter (seen sr) docs = [] ∧
     ∃ e' st', exec_custom_scan fuel nf e st = Ok (None, e', st') ∧ counted st st' 0 (length docs) ∧ ended e' st') ∨
  (∃ pre doc rest row e' st', docs = pre ++ doc :: rest ∧ filter (seen sr) docs = doc :: filter (seen sr) rest ∧
     exec_custom_scan fuel nf e st = Ok (Some row, e', st') ∧ row_for sr slot_ok (need_scores st) row doc ∧
     pending e' st' rest ∧ counted st st' 1 (length pre)).
Proof.
  revert fuel e st. induction docs as [|doc docs IH]; intros fuel e st Hf Hp Hct Hvm;
    (destruct fuel as [|fuel]; [simpl in Hf; lia|]).
  - left. split; [done|]. destruct (next_end e st Hp) as (e' & st' & Hn & Hq & He). cbn [exec_custom_scan].
    rewrite Hn. exists e', st'. split; [done|]. destruct Hq as (? & ? & ? & ? & ?). cbn [length].
    split; [|done]. split; [done|]. split; [lia|]. split; [lia|done].
  - apply Forall_cons in Hct as [Hct Hcts]. apply Forall_cons in Hvm as [Hvm Hvms].
    destruct (next_doc e st doc docs Hp Hct) as (s & e1 & st1 & Hn & Hy & Hp1 & Hq).
    cbn [exec_custom_scan]. rewrite Hn. cbn [mbind outcome_bind]. destruct Hq as (Hsc & Hh & Hv & Hi & Hpar).
    destruct s as [c score addr|slot|]; cbn [yields] in Hy; [| |done].
    + destruct Hy as (-> & -> & Hc). rewrite Hsc. pose proof (seen_ctid sr doc c Hc) as Hseen.
      destruct (visible c) eqn:Hvis.
      * right. exists [], doc, docs. eexists _, e1, _. split; [done|].
        split; [by apply filter_cons_True, Hseen|].
        split; [done|]. split; [exists c; done|]. split; [by apply pending_counts|].
        unfold counted, need_scores, add_counts in *. cbn in *. split; [done|]. split; [lia|]. split; [lia|done].
      * rewrite filter_cons_False by (rewrite Hseen; done). destruct (IH fuel e1 (add_counts 0 0 1 st1)) as
          [(Hnil & e' & st' & Hrun & Hcnt & He)|(pre & d & rest & row & e' & st' & -> & Hfil & Hrun & Hrow & Hp' & Hcnt)];
          [simpl in Hf; lia|by apply pending_counts|done|done| |].
        -- left. split; [done|]. exists e', st'. split; [done|]. split; [|done].
           unfold counted, need_scores, add_counts in *. cbn in *. destruct Hcnt as (? & ? & ? & ?).
           split; [congruence|]. split; [lia|]. split; [lia|auto].
        -- right. exists (doc :: pre), d, rest, row, e', st'. split; [done|]. split; [done|]. split; [done|].
           split; [by rewrite <- Hsc|]. split; [done|].
           unfold counted, need_scores, add_counts in *. cbn in *. destruct Hcnt as (? & ? & ? & ?).
           split; [congruence|]. split; [lia|]. split; [lia|auto].
    + destruct Hy as (Hslot & c & Hc & Hall).
      right. exists [], doc, docs, (VirtualRow slot), e1. eexists. split; [done|].
      split; [by apply filter_cons_True, (seen_ctid sr doc c Hc), Hvm|]. split; [done|].
      split; [exists c; done|]. split; [by apply pending_counts|].
      unfold counted, need_scores, add_counts in *. cbn in *. split; [done|]. split; [lia|]. split; [lia|done].
Qed.

(** all slots: the visible documents, in their order *)
Lemma scan_rows_visible docs calls fuel e st :
  (length docs < calls)%nat → (length docs < fuel)%nat → pending e st docs →
  Forall (has_ctid sr) docs → Forall (map_sound sr) docs →
  ∃ rows e' st', scan_rows calls fuel nf e st = Ok (rows, e', st') ∧
    Forall2 (row_for sr slot_ok (need_scores st)) rows (filter (seen sr) docs) ∧
    counted st st' (length rows) (length docs - length rows) ∧ ended e' st'.
Proof.
  revert docs e st. induction calls as [|calls IH]; intros docs e st Hcalls Hf Hp Hct Hvm; [lia|].
  cbn [scan_rows]. destruct (exec_custom_scan_next docs fuel e st) as
    [(Hnil & e' & st' & Hrun & Hcnt & He)|(pre & doc & rest & row & e1 & st1 & Hdocs & Hfil & Hrun & Hrow & Hp' & Hcnt)];
    try done; rewrite Hrun; cbn [mbind outcome_bind].
  - exists [], e', st'. split; [done|]. rewrite Hnil. split; [constructor|]. cbn [length].
    split; [by rewrite Nat.sub_0_r|done].
  - subst docs. rewrite length_app in Hcalls, Hf. cbn [length] in Hcalls, Hf.
    apply Forall_app in Hct as [_ Hct]. apply Forall_app in Hvm as [_ Hvm].
    apply Forall_cons in Hct as [_ Hct]. apply Forall_cons in Hvm as [_ Hvm].
    destruct (IH rest e1 st1) as (rows & e' & st' & Hrows & Hall & Hcnt' & He); [lia|lia|done..|].
    rewrite Hrows. cbn [mbind outcome_bind]. eexists _, e', st'. split; [done|]. rewrite Hfil.
    destruct Hcnt as (Hs & Hc1 & Hc2 & Hp1), Hcnt' as (Hs' & Hc1' & Hc2' & Hp2).
    split; [constructor; [done|by rewrite <- Hs]|]. split; [|done]. split; [congruence|].
    pose proof (Forall2_length _ _ _ Hall) as Hlen. pose proof (length_filter (seen sr) rest).
    rewrite length_app. cbn [length]. split; [lia|]. split; [lia|auto].
Qed.
End scan.
End rows.

(** ** The two exec methods *)

Section methods.
Context `{RustF64} `{TantivyTypes} `{TantivyText} `{TantivyRegex} `{RustBuild}
  `{Chrono} `{!PgDates} `{AsFieldType} `{!TantivyParser} `{!TantivySearcher} `{TantivyIndex} `{!TantivyReader}
  `{PgHeap} `{PgSlots} `{!RustF64Ops} `{!SegmentIdDefault}.
(** the scan's reader and query, and the result of the query's conversion *)
Variables (reader : SearchIndexReader) (input : SearchQueryInput) (q : Query) (p' : QueryParser).
Hypothesis Hquery : into_tantivy_query input for_index = Ok (q, p').
Implicit Types (st : PdbScanState) (docs : list (Score * DocAddr)).

Definition scans (st : PdbScanState) : Prop := search_reader st = Some reader ∧ search_query_input st = input.

(** results of the scan's reader *)
Definition results_ok (r : SearchResults) : Prop :=
  results_wf r ∧ (results_searcher r = searcher reader ∨ left_docs r = []).

Lemma next_results_ok r : results_ok r →
  match left_docs r with
  | [] => ∃ r', next r = Ok (None, r') ∧ results_ok r' ∧ left_docs r' = []
  | (score, addr) :: docs => ∀ c, ctid_at (searcher reader) addr = Some c →
      ∃ r', next r = Ok (Some ({| ctid := c; bm25 := score |}, addr), r') ∧ results_ok r' ∧ left_docs r' = docs
  end.
Proof.
  intros [Hwf Hsr]. pose proof (next_steps r Hwf) as Hn. unfold steps_to in Hn.
  destruct (left_docs r) as [|[score addr] docs].
  - destruct Hn as (r' & Hn & Hwf' & Hl & Hs). exists r'. split; [done|]. split; [|done]. split; [done|by right].
  - destruct Hsr as [Hsr|]; [|done]. rewrite Hsr in Hn. intros c Hc.
    destruct (Hn c Hc) as (r' & Hr' & Hwf' & Hl & Hs). exists r'. split; [done|]. split; [|done].
    split; [done|left; congruence].
Qed.

(** the segments that are left to claim *)
Definition claims (ps : ParallelScanState) (segs : list (Z * SegmentReader)) : Prop :=
  remaining_segments ps = zlen segs ∧
  ∀ (i : nat) seg, segs !! i = Some seg →
    ∃ id, get_segment_id (Z.of_nat i) ps = Ok id ∧ find_segment reader id = Ok seg.

Lemma checkout_none ps : claims ps [] → checkout_segment ps = Ok (None, ps).
Proof. intros [Hrem _]. unfold checkout_segment. by rewrite Hrem. Qed.
Lemma checkout_some ps segs seg : claims ps (segs ++ [seg]) →
  ∃ id ps', checkout_segment ps = Ok (Some id, ps') ∧ find_segment reader id = Ok seg ∧ claims ps' segs.
Proof.
  intros [Hrem Hids]. rewrite zlen_app, zlen_cons, zlen_nil in Hrem. pose proof (zlen_nonneg segs).
  destruct (Hids (length segs) seg) as (id & Hid & Hfind); [by rewrite lookup_app_r, Nat.sub_diag|].
  unfold checkout_segment. destruct (Z.ltb_spec 0 (remaining_segments ps)); [|lia].
  set (ps' := {| Parallel.segment_count := _; remaining_segments := _; segment_uuids := _ |}).
  assert (remaining_segments ps' = Z.of_nat (length segs)) as Hrem'
    by (unfold ps'; cbn; unfold zlen in Hrem; lia).
  exists id, ps'. cbn zeta. rewrite Hrem'. change (get_segment_id (Z.of_nat (length segs)) ps') with
    (get_segment_id (Z.of_nat (length segs)) ps). rewrite Hid. split; [done|]. split; [done|]. split; [done|].
  intros i seg' Hi. apply Hids. rewrite lookup_app_l; [done|]. by apply lookup_lt_Some in Hi.
Qed.
Lemma same_parallel_state st ps : parallel_state st = Some ps → set_parallel_state (Some ps) st = st.
Proof. intros <-. by destruct st. Qed.

Notation SlotSpec := (list (option SlotDatum) → Score * DocAddr → Prop).

(** *** Methods that run a query for all segments, or one for each segment they claim *)

(** what such a method [E] has to satisfy: [left] are the documents of its current results, [did] whether it has
    queried all segments; a query brings the documents of [batch_all], or the [batch] of a segment *)
Class DrivenMethod {E} `{!ExecMethod E} (slot_ok : SlotSpec) (ok : E → Prop) (left : E → list (Score * DocAddr))
    (did : E → bool) (doc_ok : Score * DocAddr → Prop)
    (batch : bool → Z * SegmentReader → list (Score * DocAddr)) (batch_all : bool → list (Score * DocAddr)) : Prop := {
  driven_none e st : ok e → left e = [] →
    ∃ e', internal_next e st = Ok (Eof, e', st) ∧ ok e' ∧ left e' = [] ∧ did e' = did e;
  driven_doc e st doc docs : ok e → left e = doc :: docs → has_ctid (searcher reader) doc → doc_ok doc →
    ∃ s e', internal_next e st = Ok (s, e', st) ∧ yields (searcher reader) slot_ok s doc ∧
      left e' = docs ∧ ok e' ∧ did e' = did e;
  driven_segment e st ps segs seg : scans st → ok e → parallel_state st = Some ps → claims ps (segs ++ [seg]) →
    ∃ e' ps', exec_query e st = Ok (true, e', set_parallel_state (Some ps') st) ∧ claims ps' segs ∧ ok e' ∧
      left e' = batch (need_scores st) seg ∧ did e' = did e;
  driven_no_segment e st ps : ok e → left e = [] → parallel_state st = Some ps → claims ps [] →
    ∃ e', exec_query e st = Ok (false, e', st) ∧ ok e' ∧ left e' = [] ∧ did e' = did e;
  driven_did e st : parallel_state st = None → did e = true → exec_query e st = Ok (false, e, st);
  driven_first e st : scans st → ok e → parallel_state st = None → did e = false →
    ∃ e', exec_query e st = Ok (true, e', st) ∧ ok e' ∧ left e' = batch_all (need_scores st) ∧ did e' = true
}.

Section driven.
Context {E} `{!ExecMethod E} (slot_ok : SlotSpec) (ok : E → Prop) (left : E → list (Score * DocAddr)) (did : E → bool)
  (doc_ok : Score * DocAddr → Prop) (batch : bool → Z * SegmentReader → list (Score * DocAddr))
  (batch_all : bool → list (Score * DocAddr)).
Context `{!DrivenMethod slot_ok ok left did doc_ok batch batch_all}.
Implicit Types e : E.

(** the documents of the segments a participant claims, the last one first *)
Definition batches (scores : bool) (segs : list (Z * SegmentReader)) : list (Score * DocAddr) :=
  concat (batch scores <$> reverse segs).

Definition driven_pending (nf : nat) e st docs : Prop :=
  scans st ∧ ok e ∧ Forall doc_ok docs ∧
  match parallel_state st with
  | None => ((if did e then 0 else 1) < nf)%nat ∧ docs = left e ++ (if did e then [] else batch_all (need_scores st))
  | Some ps => ∃ segs, claims ps segs ∧ (length segs < nf)%nat ∧ docs = left e ++ batches (need_scores st) segs
  end.
(** after the last document: without the other participants, there is no further query *)
Definition driven_ended e st : Prop :=
  scans st ∧ ok e ∧ left e = [] ∧ (parallel_state st = None → did e = true).

(** the next query: its results come first *)
Lemma driven_query nf e st docs :
  driven_pending (S nf) e st docs → left e = [] →
  (∃ e', exec_query e st = Ok (false, e', st) ∧ docs = [] ∧ driven_ended e' st) ∨
  (∃ e' st', exec_query e st = Ok (true, e', st') ∧ quiet st st' ∧ driven_pending nf e' st' docs).
Proof.
  intros (Hsc & He & Hok & Hp) Hl. rewrite Hl in Hp. destruct (parallel_state st) as [ps|] eqn:Hps.
  - destruct Hp as (segs & Hcl & Hf & Hdocs). destruct segs as [|seg segs _] using rev_ind.
    + left. destruct (driven_no_segment e st ps He Hl Hps Hcl) as (e' & Hq & He' & Hl' & _).
      exists e'. split; [done|]. split; [done|]. split; [done|]. split; [done|]. split; [done|]. by rewrite Hps.
    + right. destruct (driven_segment e st ps segs seg Hsc He Hps Hcl) as (e' & ps' & Hq & Hcl' & He' & Hl' & _).
      eexists _, _. split; [exact Hq|]. split; [repeat split; by rewrite Hps|]. split; [exact Hsc|]. split; [done|].
      split; [done|]. cbn [parallel_state set_parallel_state]. exists segs. split; [done|].
      rewrite length_app in Hf. cbn [length] in Hf. split; [lia|]. rewrite Hdocs, Hl'. cbn [app].
      unfold batches. by rewrite reverse_snoc.
  - destruct Hp as [Hf Hdocs]. destruct (did e) eqn:Hd.
    + left. exists e. split; [by apply driven_did|]. split; [done|]. split; [done|]. split; [done|]. by split.
    + right. destruct (driven_first e st Hsc He Hps Hd) as (e' & Hq & He' & Hl' & Hd'). exists e', st.
      split; [done|]. split; [done|]. split; [done|]. split; [done|]. split; [done|]. rewrite Hps, Hd'.
      split; [lia|]. by rewrite Hl', app_nil_r.
Qed.

Lemma driven_pending_mono nf nf' e st docs : (nf ≤ nf')%nat → driven_pending nf e st docs → driven_pending nf' e st docs.
Proof.
  intros Hle (Hs & He & Hok & Hp). split; [done|]. split; [done|]. split; [done|].
  destruct (parallel_state st) as [ps|].
  - destruct Hp as (segs & Hc & Hf & Hd). exists segs. split; [done|]. split; [lia|done].
  - destruct Hp as [Hf Hd]. split; [lia|done].
Qed.

(** the documents in front of what is pending *)
Lemma driven_pending_front nf e st docs :
  driven_pending nf e st docs → ∃ later, docs = left e ++ later ∧
    ∀ e', ok e' → did e' = did e → Forall doc_ok (left e') → driven_pending nf e' st (left e' ++ later).
Proof.
  intros (Hs & He & Hok & Hp). destruct (parallel_state st) as [ps|] eqn:Hps.
  - destruct Hp as (segs & Hc & Hf & Hd). eexists. split; [exact Hd|]. intros e' He' Hd' Hok'. rewrite Hd in Hok.
    apply Forall_app in Hok as [_ Hok]. split; [done|]. split; [done|]. split; [by apply Forall_app|]. rewrite Hps. by exists segs.
  - destruct Hp as [Hf Hd]. eexists. split; [exact Hd|]. intros e' He' Hd' Hok'. rewrite Hd in Hok.
    apply Forall_app in Hok as [_ Hok]. split; [done|]. split; [done|]. split; [by apply Forall_app|].
    by rewrite Hps, Hd'.
Qed.

Lemma driven_next nf e st docs : driven_pending nf e st docs →
  match docs with
  | [] => ∃ e' st', exec_next nf e st = Ok (Eof, e', st') ∧ quiet st st' ∧ driven_ended e' st'
  | doc :: docs => has_ctid (searcher reader) doc →
      ∃ s e' st', exec_next nf e st = Ok (s, e', st') ∧ yields (searcher reader) slot_ok s doc ∧
        driven_pending nf e' st' docs ∧ quiet st st'
  end.
Proof.
  revert e st. induction nf as [|nf IH]; intros e st Hp.
  { exfalso. destruct Hp as (_ & _ & _ & Hp). destruct (parallel_state st) as [ps|].
    - destruct Hp as (segs & _ & Hf & _). lia.
    - destruct Hp as [Hf _]. lia. }
  destruct (driven_pending_front _ _ _ _ Hp) as (later & Hdocs & Hback).
  pose proof Hp as (Hsc & He & Hok & _). destruct (left e) as [|doc front] eqn:Hl.
  - destruct (driven_none e st He Hl) as (e0 & Hn & He0 & Hl0 & Hd0).
    specialize (Hback e0 He0 Hd0 ltac:(rewrite Hl0; constructor)). rewrite Hl0 in Hback. cbn [app] in Hdocs, Hback. subst later.
    cbn [exec_next]. rewrite Hn. cbn [mbind outcome_bind].
    destruct (driven_query nf _ _ _ Hback Hl0) as [(e1 & Hq & -> & He1)|(e1 & st1 & Hq & Hquiet & Hp1)];
      rewrite Hq; cbn [mbind outcome_bind].
    + by exists e1, st.
    + specialize (IH e1 st1 Hp1). destruct docs as [|doc docs].
      * destruct IH as (e2 & st2 & Hn2 & Hq2 & He2). exists e2, st2. split; [done|]. split; [|done].
        unfold quiet in *. intuition congruence.
      * intros Hc. destruct (IH Hc) as (s & e2 & st2 & Hn2 & Hy & Hp2 & Hq2). exists s, e2, st2. split; [done|].
        split; [done|]. split; [by apply (driven_pending_mono nf); [lia|]|]. unfold quiet in *. intuition congruence.
  - subst docs. cbn [app] in *. intros Hc. apply Forall_cons in Hok as [Hdoc Hok]. apply Forall_app in Hok as [Hfront _].
    destruct (driven_doc e st doc front He Hl Hc Hdoc) as (s & e' & Hn & Hy & Hl' & He' & Hd').
    exists s, e', st. cbn [exec_next]. rewrite Hn. cbn [mbind outcome_bind]. split; [by destruct s|]. split; [done|].
    split; [|done]. rewrite <- Hl'. apply Hback; [done|done|by rewrite Hl'].
Qed.

#[export] Instance driven_ok nf : ExecMethodOk (searcher reader) slot_ok nf (driven_pending nf) driven_ended.
Proof.
  split.
  - intros e st docs a b c Hp. exact Hp.
  - intros e st Hp. exact (driven_next nf e st [] Hp).
  - intros e st doc docs Hp. exact (driven_next nf e st (doc :: docs) Hp).
Qed.
End driven.

(** *** The normal method *)

Definition all_matching (scores : bool) (segs : list (Z * SegmentReader)) : list (Score * DocAddr) :=
  concat (matching q scores <$> reverse segs).

Definition blockvis_ok (e : NormalScanExecState) : Prop :=
  (blockvis e).2 = true → block_all_visible (blockvis e).1 = true.
Definition normal_ok (e : NormalScanExecState) : Prop := results_ok (normal_results e) ∧ blockvis_ok e.
Definition normal_left (e : NormalScanExecState) : list (Score * DocAddr) := left_docs (normal_results e).
Definition any_doc (doc : Score * DocAddr) : Prop := True.

(** a document that is left is returned as it should *)
Lemma normal_next_doc e st doc docs :
  results_ok (normal_results e) → blockvis_ok e → left_docs (normal_results e) = doc :: docs →
  has_ctid (searcher reader) doc →
  ∃ s e', normal_internal_next e st = Ok (s, e', st) ∧ yields (searcher reader) no_columns s doc ∧
    left_docs (normal_results e') = docs ∧ results_ok (normal_results e') ∧ blockvis_ok e' ∧
    normal_did_query e' = normal_did_query e.
Proof.
  intros Hr Hb Hl [c Hc]. pose proof (next_results_ok _ Hr) as Hn. rewrite Hl in Hn. destruct doc as [score addr].
  destruct (Hn c Hc) as (r' & Hnext & Hr' & Hl'). unfold normal_internal_next. rewrite Hnext.
  cbn [mbind outcome_bind can_use_visibility_map set_normal ctid bm25 blockvis].
  destruct (can_use_visibility_map e); [|by eexists _, _; split; [done|]].
  set (blk := ip_blkid (u64_to_item_pointer c)).
  destruct (Z.eqb_spec blk (blockvis e).1) as [Heq|Hne]; cbn [blockvis set_blockvis set_normal snd].
  - destruct (blockvis e).2 eqn:Hv; eexists _, _; (split; [done|]); [|done].
    split; [|done]. split; [done|]. exists c. split; [done|]. unfold block_of. fold blk. rewrite Heq. by apply Hb.
  - unfold is_block_all_visible. destruct (block_all_visible blk) eqn:Hv; eexists _, _; (split; [done|]).
    + split; [split; [done|by exists c]|]. split; [done|]. split; [done|]. split; [|done]. by intros _.
    + split; [done|]. split; [done|]. split; [done|]. split; [|done]. by intros [=].
Qed.
Lemma normal_next_none e st :
  results_ok (normal_results e) → left_docs (normal_results e) = [] →
  ∃ r', normal_internal_next e st = Ok (Eof, set_normal r' (normal_did_query e) e, st) ∧ results_ok r' ∧ left_docs r' = [].
Proof.
  intros Hr Hl. pose proof (next_results_ok _ Hr) as Hn. rewrite Hl in Hn. destruct Hn as (r' & Hn & Hr' & Hl').
  exists r'. unfold normal_internal_next. rewrite Hn. done.
Qed.

#[export] Instance normal_driven :
  DrivenMethod no_columns normal_ok normal_left normal_did_query any_doc (matching q)
    (λ scores, all_matching scores (enumerate (searcher reader))).
Proof.
  split; cbn [exec_query internal_next NormalExec].
  - intros e st [Hr Hb] Hl. destruct (normal_next_none e st Hr Hl) as (r' & Hn & Hr' & Hl'). by eexists _.
  - intros e st doc docs [Hr Hb] Hl Hc _.
    destruct (normal_next_doc e st doc docs Hr Hb Hl Hc) as (s & e' & Hn & Hy & Hl' & Hr' & Hb' & Hd'). by exists s, e'.
  - intros e st ps segs seg [Hrd Hin] [Hr Hb] Hps Hcl. unfold normal_query. rewrite Hps.
    destruct (checkout_some ps segs seg Hcl) as (id & ps' & Hco & Hfind & Hcl').
    rewrite Hco. cbn [mbind outcome_bind search_reader set_parallel_state]. rewrite Hrd. cbn [expect_some mbind outcome_bind].
    destruct (search_segment_ok reader (need_scores st) id input q p' seg Hquery Hfind) as (r & Hse & Hwf & Hsr & Hleft).
    change (need_scores (set_parallel_state (Some ps') st)) with (need_scores st).
    change (search_query_input (set_parallel_state (Some ps') st)) with (search_query_input st).
    rewrite Hin, Hse. cbn [mbind outcome_bind]. eexists _, ps'. split; [done|]. split; [done|].
    split; [split; [by split; [|left]|done]|]. by split.
  - intros e st ps [Hr Hb] Hl Hps Hcl. unfold normal_query. rewrite Hps, (checkout_none _ Hcl).
    cbn [mbind outcome_bind]. rewrite same_parallel_state by done. eexists. split; [done|].
    split; [split; [by split; [|right]|done]|]. by split.
  - intros e st Hps Hd. unfold normal_query. by rewrite Hps, Hd.
  - intros e st [Hrd Hin] [Hr Hb] Hps Hd. unfold normal_query, do_query. rewrite Hps, Hd, Hrd.
    cbn [expect_some mbind outcome_bind]. rewrite Hin.
    destruct (search_ok reader (need_scores st) input q p' Hquery) as (r & Hse & Hwf & Hsr & Hleft).
    rewrite Hse. cbn [mbind outcome_bind]. eexists. split; [done|]. split; [split; [by split; [|left]|done]|]. by split.
Qed.
End methods.

(** the pending documents of the normal method, and its end *)
Notation normal_pending reader input q :=
  (driven_pending reader input (normal_ok reader) normal_left normal_did_query any_doc (matching q)
     (λ scores, all_matching q scores (enumerate (searcher reader)))).
Notation normal_ended reader input := (driven_ended reader input (normal_ok reader) normal_left normal_did_query).

(** C20: A custom scan with the normal method ends and returns, in order, one row for
    each live matching document of the segments it claims, or of all when it is not
    parallel, whose tuple the snapshot sees, and no other row; the counters account for
    every document. *)
Theorem normal_scan_returns_visible `{RustF64} `{TantivyTypes} `{TantivyText} `{TantivyRegex} `{RustBuild}
    `{Chrono} `{!PgDates} `{AsFieldType} `{!TantivyParser} `{!TantivySearcher} `{TantivyIndex} `{!TantivyReader}
    `{PgHeap} `{PgSlots} `{!RustF64Ops} `{!SegmentIdDefault}
    (reader : SearchIndexReader) (st : PdbScanState) q p' segs calls :
  into_tantivy_query (search_query_input st) for_index = Ok (q, p') →
  search_reader st = Some reader →
  match parallel_state st with
  | None => segs = enumerate (searcher reader)
  | Some ps => claims reader ps segs
  end →
  let docs := all_matching q (need_scores st) segs in
  Forall (has_ctid (searcher reader)) docs → Forall (map_sound (searcher reader)) docs →
  (length docs < calls)%nat →
  ∃ rows e' st', scan_rows calls calls (length segs + 2) (normal_init normal_default st) st = Ok (rows, e', st') ∧
    Forall2 (row_for (searcher reader) no_columns (need_scores st)) rows (filter (seen (searcher reader)) docs) ∧
    heap_tuple_check_count st' + virtual_tuple_count st' =
      heap_tuple_check_count st + virtual_tuple_count st + zlen rows ∧
    invisible_tuple_count st' = invisible_tuple_count st + zlen docs - zlen rows.
Proof.
  intros Hq Hrd Hsegs docs Hct Hvm Hcalls.
  pose proof (normal_driven reader (search_query_input st) q p' Hq) as Hdriven.
  destruct (scan_rows_visible (searcher reader) no_columns (length segs + 2)
    (normal_pending reader (search_query_input st) q (length segs + 2)) (normal_ended reader (search_query_input st))
    docs calls calls (normal_init normal_default st) st) as (rows & e' & st' & Hrun & Hall & Hcnt); try done.
  - split; [done|]. split; [split; [split; [done|by right]|done]|]. split; [by apply Forall_true|].
    destruct (parallel_state st) as [ps|].
    + exists segs. split; [done|]. split; [lia|done].
    + split; [cbn; lia|]. unfold docs. by rewrite Hsegs.
  - exists rows, e', st'. split; [done|]. split; [done|]. destruct Hcnt as [(_ & Hc & Hi & _) _].
    pose proof (Forall2_length _ _ _ Hall) as Hlen. pose proof (length_filter (seen (searcher reader)) docs).
    unfold zlen. lia.
Qed.

Section top_n.
Context `{RustF64} `{TantivyTypes} `{TantivyText} `{TantivyRegex} `{RustBuild}
  `{Chrono} `{!PgDates} `{AsFieldType} `{!TantivyParser} `{!TantivySearcher} `{TantivyIndex} `{!TantivyReader}
  `{PgHeap} `{PgSlots} `{!RustF64Ops} `{!SegmentIdDefault}.
Variables (reader : SearchIndexReader) (input : SearchQueryInput) (q : Query) (p' : QueryParser).
Hypothesis Hquery : into_tantivy_query input for_index = Ok (q, p').
Implicit Types (e : TopNScanExecState) (st : PdbScanState) (docs : list (Score * DocAddr)).

(** what [search_top_n] finds: the collector's documents, or all that match without an order *)
Definition best_docs (sort_field : option string) (dir : ReaderSort) (n : Z) (scores : bool)
    : list (Score * DocAddr) :=
  let segs := enumerate (searcher reader) in
  match sort_field with
  | Some f => (λ doc, (score_one, doc.2)) <$> top_docs (TopByU64Field f (order_from dir) n) q true segs
  | None =>
      match dir with
      | SortAsc => top_docs (TopByTweakedScore SortAsc n) q true segs
      | SortDesc => top_docs (TopByScore n) q true segs
      | SortNone => all_matching q scores segs
      end
  end.

Lemma search_top_n_ok sort_field dir n scores :
  0 < n → from_option (get_search_field reader) true sort_field →
  ∃ r, search_top_n reader input sort_field dir n scores = Ok r ∧ results_ok reader r ∧ r ≠ NoResults ∧
    left_docs r = best_docs sort_field dir n scores.
Proof.
  intros Hn Hf. pose proof (reader_query_ok _ _ _ Hquery) as Hq.
  assert (∀ t, top_limit t = n → with_limit t = Ok t) as Hlim by (intros t Ht; unfold with_limit; rewrite Ht; zcmp).
  assert (∀ t, collect reader input t true = Ok (top_docs t q true (enumerate (searcher reader)))) as Hcol
    by (intros t; unfold collect; by rewrite Hq).
  unfold search_top_n, top_by_field, top_by_score.
  destruct sort_field as [f|]; [|destruct dir].
  - apply Is_true_true in Hf. cbn [from_option] in Hf. rewrite Hf, (Hlim (TopByU64Field f (order_from dir) n) eq_refl). cbn [mbind outcome_bind].
    rewrite Hcol. eexists. split; [done|]. split; [|done]. split; [|by left]. intros ord ff [=].
  - rewrite (Hlim (TopByTweakedScore SortAsc n) eq_refl). cbn [mbind outcome_bind]. rewrite Hcol.
    eexists. split; [done|]. split; [|done]. split; [|by left]. intros ord ff [=].
  - rewrite (Hlim (TopByScore n) eq_refl). cbn [mbind outcome_bind]. rewrite Hcol.
    eexists. split; [done|]. split; [|done]. split; [|by left]. intros ord ff [=].
  - destruct (search_ok reader scores input q p' Hquery) as (r & Hr & Hwf & Hsr & Hleft). exists r.
    split; [done|]. split; [split; [done|by left]|]. split; [|done].
    intros ->. unfold search in Hr. destruct (traverse_ok _ _); discriminate.
Qed.

(** nothing counts what is found, so [found] stays 0 *)
Definition top_pending (nf : nat) e st docs : Prop :=
  search_reader st = Some reader ∧ parallel_state st = None ∧ top_query_input e = Some input ∧
  results_ok reader (top_results e) ∧ found e = 0 ∧ 0 < top_limit_ e ∧
  from_option (get_search_field reader) true (top_sort_field e) ∧
  ((if top_did_query e then 0 else 1) < nf)%nat ∧
  docs = left_docs (top_results e) ++
    (if top_did_query e then []
     else best_docs (top_sort_field e) (reader_sort (top_direction e)) (top_limit_ e) (top_need_scores e)).

Lemma top_next_doc nf e st docs doc left :
  top_pending nf e st docs → left_docs (top_results e) = doc :: left → has_ctid (searcher reader) doc →
  ∃ s e', top_internal_next e st = Ok (s, e', st) ∧ yields (searcher reader) no_columns s doc ∧ s ≠ Eof ∧
    ∃ docs', docs = doc :: docs' ∧ top_pending nf e' st docs'.
Proof.
  intros (Hrd & Hps & Hi & Hr & Hfd & Hlim & Hsf & Hf & ->) Hl [c Hc]. pose proof (next_results_ok _ _ Hr) as Hn.
  rewrite Hl in Hn. destruct doc as [score addr]. destruct (Hn c Hc) as (r' & Hnext & Hr' & Hl').
  unfold top_internal_next. rewrite Hnext. cbn [mbind outcome_bind].
  eexists _, _. split; [done|]. split; [done|]. split; [done|]. rewrite Hl. eexists. split; [done|].
  repeat (split; [done|]). cbn [top_results set_top tracking]. by rewrite Hl'.
Qed.

(** the end of the results is the end of the scan, whatever the snapshot saw of them *)
Lemma top_next_none nf e st docs :
  top_pending nf e st docs → left_docs (top_results e) = [] →
  ∃ e', top_internal_next e st = Ok (Eof, e', st) ∧ top_pending nf e' st docs ∧ left_docs (top_results e') = [].
Proof.
  intros (Hrd & Hps & Hi & Hr & Hfd & Hlim & Hsf & Hf & ->) Hl. pose proof (next_results_ok _ _ Hr) as Hn.
  rewrite Hl in Hn. destruct Hn as (r' & Hnext & Hr' & Hl'). unfold top_internal_next. rewrite Hnext.
  cbn [mbind outcome_bind]. set (e' := set_top r' _ _ _ e).
  assert (found e' <=? top_limit_ e' = true) as -> by (unfold e'; cbn; rewrite Hfd; apply Z.leb_le; lia).
  exists e'. split; [by destruct (top_did_query e')|]. split; [|done].
  repeat (split; [done|]). by rewrite Hl, <- Hl'.
Qed.

Lemma top_query_first nf e st docs :
  top_pending (S nf) e st docs → left_docs (top_results e) = [] → top_did_query e = false →
  ∃ e', top_query e st = Ok (true, e', st) ∧ top_pending nf e' st docs.
Proof.
  intros (Hrd & Hps & Hi & Hr & Hfd & Hlim & Hsf & Hf & Hdocs) Hl Hd. rewrite Hl, Hd in Hdocs. rewrite Hd in Hf.
  destruct (search_top_n_ok (top_sort_field e) (reader_sort (top_direction e)) (top_limit_ e)
    (top_need_scores e) Hlim Hsf) as (r & Hs & Hr' & Hne & Hleft).
  exists (set_top r true (0, 0, 0, 0) (current_segment e)
    (set_top (top_results e) true (tracking e) (current_segment e) e)). split.
  - unfold top_query, query_more_results. rewrite Hps, Hd, Hrd, Hi. cbn [expect_some mbind outcome_bind].
    rewrite Hs. by destruct r.
  - repeat (split; [done|]). split; [cbn; lia|]. cbn. by rewrite app_nil_r, Hleft.
Qed.

Definition top_ended e st : Prop := top_did_query e = true ∧ left_docs (top_results e) = [].

Lemma top_next_spec nf e st docs : top_pending nf e st docs →
  match docs with
  | [] => ∃ e' st', exec_next nf e st = Ok (Eof, e', st') ∧ quiet st st' ∧ top_ended e' st'
  | doc :: docs => has_ctid (searcher reader) doc →
      ∃ s e' st', exec_next nf e st = Ok (s, e', st') ∧ yields (searcher reader) no_columns s doc ∧
        top_pending nf e' st' docs ∧ quiet st st'
  end.
Proof.
  revert e docs. induction nf as [|nf IH]; intros e docs Hp.
  { exfalso. destruct Hp as (_ & _ & _ & _ & _ & _ & _ & Hf & _). lia. }
  destruct (left_docs (top_results e)) as [|doc left] eqn:Hl.
  - destruct (top_next_none _ e st docs Hp Hl) as (e1 & Hn & Hp1 & Hl1). cbn [exec_next].
    change (internal_next e st) with (top_internal_next e st). rewrite Hn. cbn [mbind outcome_bind].
    cbn [exec_query TopNExec]. destruct (top_did_query e1) eqn:Hd.
    + destruct Hp1 as (Hrd & Hps & Hi & Hr & Hfd & Hlim & Hsf & Hf & Hdocs). rewrite Hl1, Hd in Hdocs. subst docs.
      unfold top_query, query_more_results. rewrite Hps, Hd. cbn [mbind outcome_bind]. by eexists _, st.
    + destruct (top_query_first nf e1 st docs Hp1 Hl1 Hd) as (e2 & Hq & Hp2). rewrite Hq. cbn [mbind outcome_bind].
      specialize (IH e2 docs Hp2). destruct docs as [|doc docs]; [exact IH|].
      intros Hc. destruct (IH Hc) as (s & e3 & st3 & Hn3 & Hy & Hp3 & Hq3). exists s, e3, st3.
      split; [done|]. split; [done|]. split; [|done]. unfold top_pending in *. intuition lia.
  - pose proof Hp as Hp'. destruct docs as [|doc' docs].
    { destruct Hp' as (_ & _ & _ & _ & _ & _ & _ & _ & Hd). rewrite Hl in Hd. discriminate. }
    assert (doc' = doc) as ->.
    { destruct Hp' as (_ & _ & _ & _ & _ & _ & _ & _ & Hd). rewrite Hl in Hd. by injection Hd. }
    intros Hc. destruct (top_next_doc _ e st _ doc left Hp Hl Hc) as (s & e' & Hn & Hy & Hne & docs' & Hd & Hp1).
    injection Hd as <-. exists s, e', st. cbn [exec_next].
    change (internal_next e st) with (top_internal_next e st). rewrite Hn. cbn [mbind outcome_bind].
    split; [by destruct s|]. done.
Qed.

#[export] Instance top_ok nf : ExecMethodOk (searcher reader) no_columns nf (top_pending nf) top_ended.
Proof.
  split.
  - intros e st docs a b c Hp. exact Hp.
  - intros e st Hp. exact (top_next_spec nf e st [] Hp).
  - intros e st doc docs Hp. exact (top_next_spec nf e st (doc :: docs) Hp).
Qed.
End top_n.

(** C28: A top-n scan returns exactly the visible ones among the n best documents and
    never looks further: when one of those is not visible it returns fewer than n rows,
    however many others match, since what was found is never counted and its retry never
    runs. *)
Theorem top_n_stops_short `{RustF64} `{TantivyTypes} `{TantivyText} `{TantivyRegex} `{RustBuild}
    `{Chrono} `{!PgDates} `{AsFieldType} `{!TantivyParser} `{!TantivySearcher} `{TantivyIndex} `{!TantivyReader}
    `{PgHeap} `{PgSlots} `{!RustF64Ops} `{!SegmentIdDefault}
    (reader : SearchIndexReader) (st : PdbScanState) (n : Z) (dir : SortDirection) (scores : bool) q p' calls :
  into_tantivy_query (search_query_input st) for_index = Ok (q, p') →
  search_reader st = Some reader → parallel_state st = None → 0 < n →
  from_option (get_search_field reader) true (state_sort_field st) →
  let docs := best_docs reader q (state_sort_field st) (reader_sort dir) n scores in
  Forall (has_ctid (searcher reader)) docs → Forall (map_sound (searcher reader)) docs →
  (length docs < calls)%nat →
  ∃ rows e' st', scan_rows calls calls 2 (top_init (top_new n dir scores) st) st = Ok (rows, e', st') ∧
    Forall2 (row_for (searcher reader) no_columns (need_scores st)) rows (filter (seen (searcher reader)) docs) ∧
    invisible_tuple_count st' = invisible_tuple_count st + zlen docs - zlen rows ∧
    (zlen docs ≤ n → Exists (λ doc, ¬ seen (searcher reader) doc) docs → zlen rows < n).
Proof.
  intros Hq Hrd Hps Hn Hsf docs Hct Hvm Hcalls.
  pose proof (top_ok reader (search_query_input st) q p' Hq 2) as Hok.
  destruct (scan_rows_visible (searcher reader) no_columns 2 (top_pending reader (search_query_input st) q 2) top_ended
    docs calls calls (top_init (top_new n dir scores) st) st) as (rows & e' & st' & Hrun & Hall & Hcnt); try done.
  - repeat (split; [done|]). split; [split; [done|by right]|]. repeat (split; [done|]). split; [cbn; lia|]. done.
  - exists rows, e', st'. split; [done|]. split; [done|]. destruct Hcnt as [(_ & _ & Hi & _) _].
    pose proof (Forall2_length _ _ _ Hall) as Hlen. pose proof (length_filter (seen (searcher reader)) docs).
    split; [unfold zlen; lia|]. intros Hdn (doc & Hin & Hno)%Exists_exists.
    apply list_elem_of_split in Hin as (l1 & l2 & Heq). rewrite Heq in Hdn, Hlen.
    rewrite filter_app, filter_cons_False, length_app in Hlen by done.
    pose proof (length_filter (seen (searcher reader)) l1). pose proof (length_filter (seen (searcher reader)) l2).
    rewrite zlen_app, zlen_cons in Hdn. unfold zlen in *. lia.
Qed.

(** C27: A rescan does not rewind: after a serial scan with the normal method has
    returned its rows, scanning again after rescan_custom_scan returns none, because the
    method still has its query down as done. *)
Theorem rescan_returns_nothing `{RustF64} `{TantivyTypes} `{TantivyText} `{TantivyRegex} `{RustBuild}
    `{Chrono} `{!PgDates} `{AsFieldType} `{!TantivyParser} `{!TantivySearcher} `{TantivyIndex} `{!TantivyReader}
    `{PgHeap} `{PgSlots} `{!RustF64Ops} `{!SegmentIdDefault}
    (reader reader' : SearchIndexReader) (st : PdbScanState) q p' :
  into_tantivy_query (search_query_input st) for_index = Ok (q, p') →
  parallel_state st = None →
  let docs := all_matching q (need_scores st) (enumerate (searcher reader)) in
  Forall (has_ctid (searcher reader)) docs → Forall (map_sound (searcher reader)) docs →
  ∀ calls, (length docs < calls)%nat →
  let '(e, st) := rescan_custom_scan reader normal_default st in
  ∃ rows e' st', scan_rows calls calls 2 e st = Ok (rows, e', st') ∧
    Forall2 (row_for (searcher reader) no_columns (need_scores st)) rows (filter (seen (searcher reader)) docs) ∧
    let '(e, st) := rescan_custom_scan reader' e' st' in
    ∃ e' st', scan_rows calls calls 2 e st = Ok ([], e', st').
Proof.
  intros Hq Hps docs Hct Hvm calls Hcalls. cbn [rescan_custom_scan].
  set (st1 := set_search_reader reader st).
  pose proof (normal_driven reader (search_query_input st) q p' Hq) as Hdriven.
  destruct (scan_rows_visible (searcher reader) no_columns 2 (normal_pending reader (search_query_input st) q 2)
    (normal_ended reader (search_query_input st)) docs calls calls (normal_init normal_default st1) st1)
    as (rows & e' & st' & Hrun & Hall & (_ & _ & _ & Hpar) & He); try done.
  { split; [done|]. split; [split; [split; [done|by right]|done]|]. split; [by apply Forall_true|]. unfold st1.
    cbn [parallel_state set_search_reader]. rewrite Hps. split; [cbn; lia|done]. }
  exists rows, e', st'. split; [done|]. split; [done|].
  set (st2 := set_search_reader reader' st').
  assert (parallel_state st2 = None) as Hps2 by (apply Hpar; exact Hps).
  destruct He as (_ & [Hr _] & Hl & Hd). specialize (Hd Hps2).
  destruct (normal_next_none reader (normal_init e' st2) st2 Hr Hl) as (r & Hn & _ & _).
  assert (exec_next 2 (normal_init e' st2) st2 = Ok (Eof, set_normal r (normal_did_query e') (normal_init e' st2), st2))
    as Heof.
  { cbn [exec_next internal_next NormalExec exec_query]. rewrite Hn. cbn [mbind outcome_bind]. unfold normal_query.
    rewrite Hps2. cbn [normal_did_query set_normal normal_init]. by rewrite Hd. }
  destruct calls as [|calls]; [lia|]. cbn [scan_rows exec_custom_scan].
  change (exec_init e' st2) with (normal_init e' st2). rewrite Heof. by eexists _, _.
Qed.
