(* ===== verification/FastFields.v ===== *)
(** * FastFields: columns of an index as values of a row

    [index/fast_fields_helper.rs] ([FFHelper], [FFType], [WhichFastField]) and
    [customscan/pdbscan/exec_methods/fast_fields/mod.rs]: which targets of a query columns
    can answer, the exec method that does, and the datum of a target.  Tantivy's columns
    are a class. *)

From S2P Require Import Prelude Page Block PgUtils TokenizerConfig Query Schema Rows Reader.

Open Scope Z_scope.

(** [FastFieldReaders] of a segment and [StrColumn]: [None] is an error, or no such column *)
Class TantivyColumns `{TantivyReader} := {
  StrColumn : Type;
  column_i64 : SegmentReader → string → option (Z → option Z);
  column_str : SegmentReader → string → option StrColumn;
  column_u64 : SegmentReader → string → option (Z → option Z);
  column_f64 : SegmentReader → string → option (Z → option F64);
  column_bool : SegmentReader → string → option (Z → option bool);
  column_date : SegmentReader → string → option (Z → option Z);
  (** the ordinals of a document's terms, and the term of an ordinal *)
  term_ords : StrColumn → Z → list Z;
  ord_to_str : StrColumn → Z → option string;
  (** the terms [dictionary().sorted_ords_to_term_cb] calls back with *)
  sorted_ords_to_terms : StrColumn → list Z → list string;
  term_ord_resolves c doc ord : ord ∈ term_ords c doc → is_Some (ord_to_str c ord);
  ord_to_str_inj c o o' t : ord_to_str c o = Some t → ord_to_str c o' = Some t → o = o';
  sorted_ords_terms c ords terms :
    StronglySorted Z.lt ords → Forall2 (λ o t, ord_to_str c o = Some t) ords terms →
    sorted_ords_to_terms c ords = terms
}.

(** the datums of a tuple's address and of a score *)
Class SlotDatums `{TantivyReader} `{PgDatums} := {
  tid_into_datum : ItemPointerData → RowDatum;
  score_into_datum : Score → RowDatum
}.

(** ** [WhichFastField] *)

Inductive FastFieldType := FFString | FFNumeric.
#[global] Instance FastFieldType_eq_dec : EqDecision FastFieldType.
Proof. solve_decision. Defined.
Definition fast_field_type_from (value : SearchFieldType) : FastFieldType :=
  match value with SText => FFString | _ => FFNumeric end.

Inductive WhichFastField :=
  | WJunk (s : string)
  | WCtid
  | WTableOid
  | WScore
  | WNamed (name : string) (ty : FastFieldType).
#[global] Instance WhichFastField_eq_dec : EqDecision WhichFastField.
Proof. solve_decision. Defined.

Definition which_name (w : WhichFastField) : string :=
  match w with
  | WJunk s => "junk(" +:+ s +:+ ")"
  | WCtid => "ctid"
  | WTableOid => "tableoid"
  | WScore => "paradedb.score()"
  | WNamed s _ => s
  end.

(** [str::trim_start_matches] and [trim_end_matches]: every repetition is removed *)
Fixpoint trim_start_matches (fuel : nat) (pat s : string) : string :=
  match fuel with
  | O => s
  | S fuel =>
      if String.prefix pat s
      then trim_start_matches fuel pat (String.substring (String.length pat) (String.length s - String.length pat) s)
      else s
  end.
Definition ends_with (pat s : string) : bool :=
  (String.length pat <=? String.length s)%nat &&
  String.eqb (String.substring (String.length s - String.length pat) (String.length pat) s) pat.
Fixpoint trim_end_matches (fuel : nat) (pat s : string) : string :=
  match fuel with
  | O => s
  | S fuel =>
      if ends_with pat s then trim_end_matches fuel pat (String.substring 0 (String.length s - String.length pat) s)
      else s
  end.
(** [From<(S, FastFieldType)>] *)
Definition which_from (value : string * FastFieldType) : WhichFastField :=
  let name := value.1 in
  if String.eqb name "ctid" then WCtid
  else if String.eqb name "tableoid" then WTableOid
  else if String.eqb name "paradedb.score()" then WScore
  else if String.prefix "junk(" name && ends_with ")" name then
    let len := String.length name in
    WJunk (trim_end_matches len ")" (trim_start_matches len "junk(" name))
  else WNamed name value.2.

(** the derived [Ord]: by variant, then by fields *)
Definition which_rank (w : WhichFastField) : Z :=
  match w with WJunk _ => 0 | WCtid => 1 | WTableOid => 2 | WScore => 3 | WNamed _ _ => 4 end.
Definition type_rank (t : FastFieldType) : Z := match t with FFString => 0 | FFNumeric => 1 end.
Definition which_leb (a b : WhichFastField) : bool :=
  match a, b with
  | WJunk s, WJunk s' => String.leb s s'
  | WNamed s t, WNamed s' t' => if String.eqb s s' then type_rank t <=? type_rank t' else String.leb s s'
  | _, _ => which_rank a <=? which_rank b
  end.
Definition which_le (a b : WhichFastField) : Prop := which_leb a b = true.
#[global] Instance which_le_dec : RelDecision which_le := λ a b, decide (which_leb a b = true).

(** [Itertools::dedup] *)
Fixpoint dedup (l : list WhichFastField) : list WhichFastField :=
  match l with
  | a :: (b :: _) as rest => if decide (a = b) then dedup rest else a :: dedup rest
  | _ => l
  end.
(** [.iter().sorted().dedup()] *)
Definition sorted_dedup (l : list WhichFastField) : list WhichFastField := dedup (merge_sort which_le l).

(** ** [FFType] *)

Section columns.
Context `{RustF64} `{TantivyTypes} `{TantivyText} `{TantivyIndex} `{!TantivyParser} `{!TantivyReader} `{!TantivyColumns}.

Inductive FFType :=
  | FFJunk
  | FFText (ff : StrColumn)
  | FFI64 (ff : Z → option Z)
  | FFF64 (ff : Z → option F64)
  | FFU64 (ff : Z → option Z)
  | FFBool (ff : Z → option bool)
  | FFDate (ff : Z → option Z).

Definition fftype_new (ffr : SegmentReader) (field_name : string) : outcome FFType :=
  match column_i64 ffr field_name with
  | Some ff => Ok (FFI64 ff)
  | None =>
  match column_str ffr field_name with
  | Some ff => Ok (FFText ff)
  | None =>
  match column_u64 ffr field_name with
  | Some ff => Ok (FFU64 ff)
  | None =>
  match column_f64 ffr field_name with
  | Some ff => Ok (FFF64 ff)
  | None =>
  match column_bool ffr field_name with
  | Some ff => Ok (FFBool ff)
  | None =>
  match column_date ffr field_name with
  | Some ff => Ok (FFDate ff)
  | None => Panic "`{field_name}` is missing or is not configured as a fast field"
  end end end end end end.

(** [ff.first(doc).map(|first| first.into()).unwrap_or(OwnedValue::Null)] *)
Definition first_or_null {A} (into : A → OwnedValue) (first : option A) : OwnedValue :=
  match first with Some first => into first | None => ONull end.

Definition ff_value (ff : FFType) (doc : Z) : outcome OwnedValue :=
  match ff with
  | FFJunk => Ok ONull
  | FFText ff =>
      ord ← expect_ok (head (term_ords ff doc)) "term ord should be retrievable";
      s ← expect_ok (ord_to_str ff ord) "string should be retrievable for term ord";
      Ok (OStr s)
  | FFI64 ff => Ok (first_or_null OI64 (ff doc))
  | FFF64 ff => Ok (first_or_null OF64 (ff doc))
  | FFU64 ff => Ok (first_or_null OU64 (ff doc))
  | FFBool ff => Ok (first_or_null OBool (ff doc))
  | FFDate ff => Ok (first_or_null ODate (ff doc))
  end.
(** [string]: whether it is [Some], and the buffer *)
Definition ff_string (ff : FFType) (doc : Z) (value : string) : bool * string :=
  match ff with
  | FFText ff =>
      match head (term_ords ff doc) with
      | Some ord => match ord_to_str ff ord with Some s => (true, s) | None => (false, "") end
      | None => (false, "")
      end
  | _ => (false, value)
  end.
Definition ff_value_fast (ff : FFType) (doc : Z) : outcome OwnedValue :=
  match ff with
  | FFText ff => ord ← expect_ok (head (term_ords ff doc)) "term ord should be retrievable"; Ok (OU64 ord)
  | other => ff_value other doc
  end.
Definition ff_as_i64 (ff : FFType) (doc : Z) : option Z := match ff with FFI64 ff => ff doc | _ => None end.
Definition ff_as_u64 (ff : FFType) (doc : Z) : option Z := match ff with FFU64 ff => ff doc | _ => None end.

(** ** [FFHelper]: for each segment and field, a column that is opened when it is first used *)

Notation FFEntry := (SegmentReader * string * option FFType)%type.
Notation FFHelper := (list (list FFEntry)).

Definition ff_entry (ffr : SegmentReader) (field : WhichFastField) : FFEntry :=
  match field with
  | WNamed name _ => (ffr, name, None)
  | _ => (ffr, "junk"%string, Some FFJunk)
  end.
Definition ff_with_fields (reader : list SegmentReader) (fields : list WhichFastField) : FFHelper :=
  (λ ffr, ff_entry ffr <$> fields) <$> reader.

(** [entry.2.get_or_init(|| FFType::new(...))] of [self.0[segment_ord][field]] *)
Definition ff_get_or_init (h : FFHelper) (field : nat) (doc_address : DocAddr) : outcome (FFType * FFHelper) :=
  row ← Prelude.index h (segment_ord doc_address);
  '(ffr, name, cell) ← Prelude.index row (Z.of_nat field);
  match cell with
  | Some ff => Ok (ff, h)
  | None =>
      ff ← fftype_new ffr name;
      Ok (ff, <[Z.to_nat (segment_ord doc_address) := <[field := (ffr, name, Some ff)]> row]> h)
  end.
Definition ffh_value (h : FFHelper) (field : nat) (doc_address : DocAddr) : outcome (OwnedValue * FFHelper) :=
  '(ff, h) ← ff_get_or_init h field doc_address;
  value ← ff_value ff (doc_id doc_address);
  Ok (value, h).
Definition ffh_i64 (h : FFHelper) (field : nat) (doc_address : DocAddr) : outcome (option Z * FFHelper) :=
  '(ff, h) ← ff_get_or_init h field doc_address; Ok (ff_as_i64 ff (doc_id doc_address), h).
Definition ffh_string (h : FFHelper) (field : nat) (doc_address : DocAddr) (value : string)
    : outcome (bool * string * FFHelper) :=
  '(ff, h) ← ff_get_or_init h field doc_address;
  Ok (ff_string ff (doc_id doc_address) value, h).
End columns.

(** ** [ff_to_datum] *)

Section datums.
Context `{RustF64} `{TantivyTypes} `{TantivyText} `{Chrono} `{!PgrxTypes} `{!TimeCrate} `{!PgDatums} `{PgTypes}.
Context `{TantivyIndex} `{!TantivyParser} `{!TantivyReader} `{!TantivyColumns} `{!SlotDatums}.
Notation FFHelper := (list (list (SegmentReader * string * option FFType))).

Definition is_integer_type (typid : PgOid) : bool :=
  bool_decide (typid = PgBuiltIn INT2OID) || bool_decide (typid = PgBuiltIn INT4OID) ||
  bool_decide (typid = PgBuiltIn INT8OID).
Definition is_text_type (typid : PgOid) : bool :=
  bool_decide (typid = PgBuiltIn TEXTOID) || bool_decide (typid = PgBuiltIn VARCHAROID).

(** the slot's [tts_tid] and [tts_tableOid] *)
Record SlotTuple := { tts_tid : ItemPointerData; tts_tableOid : Z }.

Definition ff_to_datum (which : WhichFastField) (field_index : nat) (typid : PgOid) (score : Score)
    (doc_address : DocAddr) (ff_helper : FFHelper) (strbuf : string) (slot : SlotTuple)
    : outcome (option RowDatum * FFHelper * string) :=
  if is_integer_type typid then
    '(v, ff_helper) ← ffh_i64 ff_helper field_index doc_address;
    Ok (int_into_datum 64 <$> (v : option Z), ff_helper, strbuf)
  else match which with
  | WCtid => Ok (Some (tid_into_datum (tts_tid slot)), ff_helper, strbuf)
  | WTableOid => Ok (Some (oid_into_datum (tts_tableOid slot)), ff_helper, strbuf)
  | WScore => Ok (Some (score_into_datum score), ff_helper, strbuf)
  | WNamed _ FFString => Ok (Some (string_into_datum strbuf), ff_helper, strbuf)
  | _ =>
      if is_text_type typid then
        '(found, strbuf, ff_helper) ← ffh_string ff_helper field_index doc_address strbuf;
        Ok (if (found : bool) then Some (string_into_datum strbuf) else None, ff_helper, strbuf)
      else
        '(value, ff_helper) ← ffh_value ff_helper field_index doc_address;
        datum ← expect_res (try_into_datum value typid) "value should be convertible to Datum";
        Ok (datum, ff_helper, strbuf)
  end.

(** the loop over the result's attributes in [internal_next]: the values of the slot, [None] where it is null *)
Fixpoint fill_slot (which_fast_fields : list WhichFastField) (i : nat) (tupdesc : list PgOid) (score : Score)
    (doc_address : DocAddr) (ff_helper : FFHelper) (strbuf : string) (slot : SlotTuple)
    : outcome (list (option RowDatum) * FFHelper * string) :=
  match tupdesc with
  | [] => Ok ([], ff_helper, strbuf)
  | atttypid :: tupdesc =>
      which ← Prelude.index which_fast_fields (Z.of_nat i);
      '(datum, ff_helper, strbuf) ← ff_to_datum which i atttypid score doc_address ff_helper strbuf slot;
      '(datums, ff_helper, strbuf) ←
        fill_slot which_fast_fields (S i) tupdesc score doc_address ff_helper strbuf slot;
      Ok (datum :: datums, ff_helper, strbuf)
  end.
End datums.

(** ** The targets columns can answer *)

(** an expression of a target list, as far as the code looks into it *)
Inductive Expr :=
  | E_Var (varno varattno : Z) (vartype : PgOid)
  | E_Const
  | E_FuncExpr (funcid : Z) (args : list Expr)
  | E_Aggref (args : list Expr)
  | E_WindowFunc (args : list Expr)
  | E_Other (args : list Expr).
Record TargetEntry := { resorigtbl : Z; te_expr : Expr }.

Section scores.
Context (score_funcoid rti : Z).

(** [expression_tree_walker]: the first child that is [true] ends it *)
Fixpoint any_child (walker : Expr → outcome bool) (args : list Expr) : outcome bool :=
  match args with
  | [] => Ok false
  | arg :: args => b ← walker arg; if (b : bool) then Ok true else any_child walker args
  end.
(** the argument of the score function is a column of the relation *)
Definition scores_relation (args : list Expr) : outcome bool :=
  match args with
  | [E_Var varno _ _] => Ok (varno =? rti)
  | [_] => Ok false
  | _ => Panic "score function must have 1 argument"
  end.
Fixpoint uses_scores (node : Expr) : outcome bool :=
  match node with
  | E_Var _ _ _ | E_Const => Ok false
  | E_FuncExpr funcid args =>
      b ← (if funcid =? score_funcoid then scores_relation args else Ok false);
      if (b : bool) then Ok true else any_child uses_scores args
  | E_Aggref args | E_WindowFunc args | E_Other args => any_child uses_scores args
  end.
Definition is_score_func (node : Expr) : outcome bool :=
  match node with
  | E_FuncExpr funcid args => if funcid =? score_funcoid then scores_relation args else Ok false
  | _ => Ok false
  end.
End scores.

Definition SelfItemPointerAttributeNumber : Z := -1.
Definition MinTransactionIdAttributeNumber : Z := -2.
Definition MinCommandIdAttributeNumber : Z := -3.
Definition MaxTransactionIdAttributeNumber : Z := -4.
Definition MaxCommandIdAttributeNumber : Z := -5.
Definition TableOidAttributeNumber : Z := -6.

Section pullup.
Context `{SerdeLanguage} `{TantivySchema} (score_funcoid heap_oid : Z) (heap : list (string * PgOid)).

(** [tupdesc.get((attno - 1) as usize)] *)
Definition attribute_at (attno : Z) : option (string * PgOid) :=
  if 1 <=? attno then znth heap (attno - 1) else None.

(** one entry: [None] is [continue] without a match, [Some None] the function's [None] *)
Definition pullup_entry (schema : SearchIndexSchema) (rti : Z) (te : TargetEntry)
    : outcome (option (option WhichFastField)) :=
  if negb (resorigtbl te =? 0) && negb (resorigtbl te =? heap_oid) then Ok None
  else match te_expr te with
  | E_Var _ varattno vartype =>
      if bool_decide (varattno ∈ [MinTransactionIdAttributeNumber; MaxTransactionIdAttributeNumber;
                                  MinCommandIdAttributeNumber; MaxCommandIdAttributeNumber]) then Ok (Some None)
      else if varattno =? SelfItemPointerAttributeNumber then Ok (Some (Some WCtid))
      else if varattno =? TableOidAttributeNumber then Ok (Some (Some WTableOid))
      else
        att ← expect_ok (attribute_at varattno) "attnum should exist in tupdesc";
        if is_fast_field schema (fst att) then
          Ok (Some (Some (WNamed (fst att) (if is_text_type vartype then FFString else FFNumeric))))
        else Ok (Some None)
  | expr =>
      scores ← uses_scores score_funcoid rti expr;
      if (scores : bool) then Ok (Some (Some WScore))
      else match expr with
      | E_Aggref _ => Ok (Some (Some (WJunk "agg")))
      | E_Const => Ok (Some (Some (WJunk "const")))
      | E_WindowFunc _ => Ok (Some (Some (WJunk "window")))
      | _ => Ok (Some None)
      end
  end.

Fixpoint pullup_matches (schema : SearchIndexSchema) (rti : Z) (targetlist : list TargetEntry)
    : outcome (option (list WhichFastField)) :=
  match targetlist with
  | [] => Ok (Some [])
  | te :: targetlist =>
      m ← pullup_entry schema rti te;
      match m with
      | None => pullup_matches schema rti targetlist
      | Some None => Ok None
      | Some (Some w) => rest ← pullup_matches schema rti targetlist; Ok (cons w <$> (rest : option (list WhichFastField)))
      end
  end.

Definition is_string_field (w : WhichFastField) : bool :=
  match w with WNamed _ FFString => true | _ => false end.

Definition pullup_fast_fields (schema : SearchIndexSchema) (rti : Z) (node : list TargetEntry)
    : outcome (option (list WhichFastField)) :=
  matches ← pullup_matches schema rti node;
  match matches with
  | None => Ok None
  | Some matches =>
      if 1 <? zlen (List.filter is_string_field (sorted_dedup matches)) then Ok None else Ok (Some matches)
  end.

(** [count]: what [maybe_ff] is set to, and the number of different fields *)
Definition ff_count (schema : SearchIndexSchema) (rti : Z) (target_list : list TargetEntry) : outcome (bool * Z) :=
  ff ← pullup_fast_fields schema rti target_list;
  let ff := default [] ff in
  Ok (negb (bool_decide (ff = [])), zlen (sorted_dedup ff)).
Definition ff_collect (maybe_ff : bool) (schema : SearchIndexSchema) (rti : Z) (target_list : list TargetEntry)
    : outcome (option (list WhichFastField)) :=
  if maybe_ff then pullup_fast_fields schema rti target_list else Ok None.
End pullup.

(** ** Choosing the exec method *)

Inductive AssignedMethod :=
  | StringFastField (field : string) (which_fast_fields : list WhichFastField)
  | NumericFastField (which_fast_fields : list WhichFastField)
  | NormalScan.

(** the loop: a second string field ends it *)
Fixpoint single_string_field (string_field : option string) (ffs : list WhichFastField) : option string :=
  match ffs with
  | [] => string_field
  | ff :: ffs =>
      match ff with
      | WNamed _ FFString =>
          match string_field with None => single_string_field (Some (which_name ff)) ffs | Some _ => None end
      | _ => single_string_field string_field ffs
      end
  end.
Definition is_string_agg_capable_ex (limit : option Z) (which_fast_fields : option (list WhichFastField)) : option string :=
  match limit with
  | Some _ => None
  | None => single_string_field None (default [] which_fast_fields)
  end.
Definition is_numeric_fast_field_capable (which_fast_fields : option (list WhichFastField)) (targetlist_len : Z) : bool :=
  match which_fast_fields with
  | None => false
  | Some ffs => negb (targetlist_len =? 0) && negb (existsb is_string_field ffs)
  end.
Definition assign_exec_method (limit : option Z) (which_fast_fields : option (list WhichFastField)) (targetlist_len : Z)
    : outcome AssignedMethod :=
  match is_string_agg_capable_ex limit which_fast_fields with
  | Some field => ffs ← expect_ok which_fast_fields "unwrap"; Ok (StringFastField field ffs)
  | None =>
      if is_numeric_fast_field_capable which_fast_fields targetlist_len then
        ffs ← expect_ok which_fast_fields "unwrap"; Ok (NumericFastField ffs)
      else Ok NormalScan
  end.

(** ** The cached columns *)

Section helper_lemmas.
Context `{RustF64} `{TantivyTypes} `{TantivyText} `{TantivyIndex} `{!TantivyParser} `{!TantivyReader} `{!TantivyColumns}.
Notation FFEntry := (SegmentReader * string * option FFType)%type.
Variables (segs : list SegmentReader) (fields : list WhichFastField).

(** a cell that is set holds the column the field would be opened as *)
Definition entry_ok (ffr : SegmentReader) (field : WhichFastField) (entry : FFEntry) : Prop :=
  match field with
  | WNamed name _ => ∃ cell, entry = (ffr, name, cell) ∧ ∀ ff, cell = Some ff → fftype_new ffr name = Ok ff
  | _ => entry = (ffr, "junk"%string, Some FFJunk)
  end.
Definition helper_ok (h : list (list FFEntry)) : Prop :=
  Forall2 (λ ffr row, Forall2 (entry_ok ffr) fields row) segs h.

(** the column of a field in the segment of a document, without the cache *)
Definition ff_at (field : nat) (doc_address : DocAddr) : outcome FFType :=
  ffr ← Prelude.index segs (segment_ord doc_address);
  which ← Prelude.index fields (Z.of_nat field);
  match which with WNamed name _ => fftype_new ffr name | _ => Ok FFJunk end.

Lemma with_fields_ok : helper_ok (ff_with_fields segs fields).
Proof.
  unfold helper_ok, ff_with_fields. apply Forall2_fmap_r, Forall_Forall2_diag, Forall_true. intros ffr.
  apply Forall2_fmap_r, Forall_Forall2_diag, Forall_true. intros [| | | |name ty]; try done.
  by exists None.
Qed.

Lemma index_inv {A} (l : list A) i a : Prelude.index l i = Ok a → ∃ n : nat, i = Z.of_nat n ∧ l !! n = Some a.
Proof.
  unfold Prelude.index. intros Ha. destruct (znth l i) as [x|] eqn:Hx; [|done]. injection Ha as ->.
  unfold znth in Hx. destruct (Z.leb_spec 0 i); [|done]. exists (Z.to_nat i). split; [lia|done].
Qed.
Lemma index_ok {A} (l : list A) (n : nat) a : l !! n = Some a → Prelude.index l (Z.of_nat n) = Ok a.
Proof. intros Ha. unfold Prelude.index. rewrite znth_lookup by lia. by rewrite Nat2Z.id, Ha. Qed.

Lemma Forall2_insert_at {A B} (P : A → B → Prop) l k (n : nat) x y :
  Forall2 P l k → l !! n = Some x → P x y → Forall2 P l (<[n := y]> k).
Proof.
  intros Hl. revert n. induction Hl as [|a b l k Hab Hl IH]; intros [|n]; simpl; try done.
  - intros [= ->] Hy. by constructor.
  - intros Hn Hy. constructor; [done|by apply IH].
Qed.

Lemma get_or_init_ok h field doc_address ff :
  helper_ok h → ff_at field doc_address = Ok ff →
  ∃ h', ff_get_or_init h field doc_address = Ok (ff, h') ∧ helper_ok h'.
Proof.
  intros Hh Hff. unfold ff_at in Hff.
  destruct (Prelude.index segs _) as [ffr| | |] eqn:Hseg; [|done..]. simpl in Hff.
  destruct (Prelude.index fields _) as [w| | |] eqn:Hw; [|done..]. simpl in Hff.
  apply index_inv in Hseg as (n & Hn & Hseg), Hw as (k & Hk%Nat2Z.inj & Hw). subst k.
  destruct (Forall2_lookup_l _ _ _ _ _ Hh Hseg) as (row & Hrow & Hents).
  destruct (Forall2_lookup_l _ _ _ _ _ Hents Hw) as (entry & Hentry & Hok).
  unfold ff_get_or_init. rewrite Hn, (index_ok _ _ _ Hrow). simpl. rewrite (index_ok _ _ _ Hentry). simpl.
  destruct w as [| | | |name ty]; try (simpl in Hok; subst entry; injection Hff as <-; by exists h).
  destruct Hok as (cell & -> & Hcell). destruct cell as [ff'|].
  - rewrite (Hcell _ eq_refl) in Hff. injection Hff as ->. by exists h.
  - rewrite Hff. simpl. eexists. split; [done|]. rewrite Nat2Z.id.
    eapply Forall2_insert_at; [done|done|].
    eapply Forall2_insert_at; [done|done|].
    exists (Some ff). split; [done|]. by intros ? [= <-].
Qed.
End helper_lemmas.

(** ** The datum of a target *)

Section target_lemmas.
Context `{RustF64} `{TantivyTypes} `{TantivyText} `{Chrono} `{!PgrxTypes} `{!TimeCrate} `{!PgDatums} `{PgTypes}.
Context `{TantivyIndex} `{!TantivyParser} `{!TantivyReader} `{!TantivyColumns} `{!SlotDatums}.
Variables (segs : list SegmentReader) (fields : list WhichFastField).

(** what [ff_to_datum] makes of a document, from the columns themselves; [text] is the buffer's *)
Definition target_datum (i : nat) (typid : PgOid) (doc : Score * DocAddr) (text : string) (slot : SlotTuple)
    : outcome (option RowDatum) :=
  which ← Prelude.index fields (Z.of_nat i);
  if is_integer_type typid then
    ff ← ff_at segs fields i doc.2; Ok (int_into_datum 64 <$> ff_as_i64 ff (doc_id doc.2))
  else match which with
  | WCtid => Ok (Some (tid_into_datum (tts_tid slot)))
  | WTableOid => Ok (Some (oid_into_datum (tts_tableOid slot)))
  | WScore => Ok (Some (score_into_datum doc.1))
  | WNamed _ FFString => Ok (Some (string_into_datum text))
  | _ =>
      ff ← ff_at segs fields i doc.2;
      if is_text_type typid then
        let '(found, text) := ff_string ff (doc_id doc.2) text in
        Ok (if (found : bool) then Some (string_into_datum text) else None)
      else value ← ff_value ff (doc_id doc.2); expect_res (try_into_datum value typid) "value should be convertible to Datum"
  end.
Fixpoint slot_values (i : nat) (tupdesc : list PgOid) (doc : Score * DocAddr) (text : string) (slot : SlotTuple)
    : outcome (list (option RowDatum)) :=
  match tupdesc with
  | [] => Ok []
  | typid :: tupdesc =>
      datum ← target_datum i typid doc text slot;
      datums ← slot_values (S i) tupdesc doc text slot;
      Ok (datum :: datums)
  end.

(** a column read as a number is not of a text type *)
Definition text_is_string (i : nat) (typid : PgOid) : Prop :=
  is_text_type typid = true → ∀ name, fields !! i ≠ Some (WNamed name FFNumeric).

Lemma ff_to_datum_ok h i typid doc text slot datum which :
  helper_ok segs fields h → text_is_string i typid → fields !! i = Some which →
  target_datum i typid doc text slot = Ok datum →
  ∃ h', ff_to_datum which i typid doc.1 doc.2 h text slot = Ok (datum, h', text) ∧ helper_ok segs fields h'.
Proof.
  intros Hh Htext Hw. unfold target_datum, ff_to_datum. rewrite (index_ok _ _ _ Hw). simpl.
  assert (∀ ff, ff_at segs fields i doc.2 = Ok ff →
    ∃ h', ff_get_or_init h i doc.2 = Ok (ff, h') ∧ helper_ok segs fields h') as Hget
    by (intros; by apply get_or_init_ok).
  destruct (is_integer_type typid).
  { destruct (ff_at _ _ _ _) as [ff| | |] eqn:Hff; [|done..]. intros [= <-].
    destruct (Hget ff eq_refl) as (h' & Hrun & Hh'). exists h'. unfold ffh_i64. rewrite Hrun. done. }
  assert (∀ w, match w with WJunk _ | WNamed _ FFNumeric => True | _ => False end → fields !! i = Some w →
    (ff ← ff_at segs fields i doc.2;
     if is_text_type typid then
       let '(found, text) := ff_string ff (doc_id doc.2) text in
       Ok (if (found : bool) then Some (string_into_datum text) else None)
     else value ← ff_value ff (doc_id doc.2); expect_res (try_into_datum value typid) "value should be convertible to Datum")
     = Ok datum →
    ∃ h', (if is_text_type typid then
             '(found, strbuf, ff_helper) ← ffh_string h i doc.2 text;
             Ok (if (found : bool) then Some (string_into_datum strbuf) else None, ff_helper, strbuf)
           else
             '(value, ff_helper) ← ffh_value h i doc.2;
             datum ← expect_res (try_into_datum value typid) "value should be convertible to Datum";
             Ok (datum, ff_helper, text)) = Ok (datum, h', text) ∧ helper_ok segs fields h') as Hother.
  { intros w Hkind Hfield. destruct (ff_at _ _ _ _) as [ff| | |] eqn:Hff; [|done..]. simpl.
    destruct (Hget ff eq_refl) as (h' & Hrun & Hh'). destruct (is_text_type typid) eqn:Hty.
    - destruct w as [s| | | |name []]; try done; [|by destruct (Htext Hty name)].
      assert (ff = FFJunk) as Heq.
      { unfold ff_at in Hff. destruct (Prelude.index segs _); [|done..]. simpl in Hff.
        rewrite (index_ok _ _ _ Hfield) in Hff. by injection Hff. }
      rewrite Heq. simpl. intros [= <-]. exists h'. unfold ffh_string. rewrite Hrun, Heq. done.
    - destruct (ff_value ff _) as [v| | |] eqn:Hv; [|done..]. simpl.
      destruct (try_into_datum v typid) as [d| | |] eqn:Hd; [|done..]. simpl. intros [= <-].
      exists h'. unfold ffh_value. rewrite Hrun. simpl. rewrite Hv. simpl. by rewrite Hd. }
  destruct which as [s| | | |name []]; try (intros [= <-]; by exists h).
  - by apply (Hother (WJunk s)).
  - by apply (Hother (WNamed name FFNumeric)).
Qed.

Lemma fill_slot_ok h i tupdesc doc text slot datums :
  helper_ok segs fields h → (∀ j typid, tupdesc !! j = Some typid → text_is_string (i + j) typid) →
  slot_values i tupdesc doc text slot = Ok datums →
  ∃ h', fill_slot fields i tupdesc doc.1 doc.2 h text slot = Ok (datums, h', text) ∧ helper_ok segs fields h'.
Proof.
  revert h i datums. induction tupdesc as [|typid tupdesc IH]; intros h i datums Hh Htext; simpl.
  { intros [= <-]. by exists h. }
  intros (datum & Hd & (rest & Hrest & [= <-])%obind_inv)%obind_inv.
  assert (text_is_string i typid) as Ht by (rewrite <- (Nat.add_0_r i); by apply Htext).
  assert (∃ which, fields !! i = Some which) as [which Hw].
  { unfold target_datum in Hd. apply obind_inv in Hd as (w & (n & Hn%Nat2Z.inj & Hw)%index_inv & _). subst n. by exists w. }
  rewrite (index_ok _ _ _ Hw). simpl.
  destruct (ff_to_datum_ok _ _ _ _ _ _ _ _ Hh Ht Hw Hd) as (h1 & Hrun & Hh1). rewrite Hrun. simpl.
  destruct (IH h1 (S i) rest Hh1) as (h' & Hrun' & Hh'); [|done|].
  - intros j ty Hj. replace (S i + j)%nat with (i + S j)%nat by lia. by apply Htext.
  - rewrite Hrun'. by exists h'.
Qed.
End target_lemmas.

(** ** Which targets columns answer *)

(** the byte order of strings *)
Lemma leb_refl s : String.leb s s = true.
Proof. pose proof (String.leb_total s s). tauto. Qed.
Lemma leb_trans s1 s2 s3 : String.leb s1 s2 = true → String.leb s2 s3 = true → String.leb s1 s3 = true.
Proof.
  intros H1%Is_true_true H2%Is_true_true. apply Is_true_true. by apply (transitivity (R := String.le) (y := s2)).
Qed.
Lemma which_le_po : PartialOrder which_le.
Proof.
  unfold which_le. split; [split|].
  - intros [s| | | |s t]; simpl; try done; [apply leb_refl|]. rewrite String.eqb_refl. lia.
  - intros a b c. destruct a as [s| | | |s t], b as [s'| | | |s' t'], c as [s''| | | |s'' t'']; simpl; try done.
    + apply leb_trans.
    + destruct (String.eqb_spec s s') as [->|H1], (String.eqb_spec s' s'') as [->|H2]; try done.
      * destruct (String.eqb s'' s'') eqn:He; [|by rewrite String.eqb_refl in He]. simpl. rewrite !Z.leb_le. lia.
      * destruct (String.eqb_spec s s'') as [->|]; [done|done].
      * intros Ha Hb. destruct (String.eqb_spec s s'') as [->|H3]; [|by eapply leb_trans].
        destruct H1. by apply String.leb_antisym.
  - intros a b. destruct a as [s| | | |s t], b as [s'| | | |s' t']; simpl; try done.
    + intros H1 H2. f_equal. by apply String.leb_antisym.
    + rewrite (String.eqb_sym s' s). destruct (String.eqb_spec s s') as [->|Hne].
      * intros H1 H2. f_equal. destruct t, t'; simpl in *; try done; lia.
      * intros H1 H2. destruct Hne. by apply String.leb_antisym.
Qed.
Lemma which_le_total : Total which_le.
Proof.
  unfold which_le. intros [s| | | |s t] [s'| | | |s' t']; simpl; auto.
  - pose proof (String.leb_total s s'). tauto.
  - rewrite (String.eqb_sym s' s). destruct (String.eqb s s').
    + destruct (Z.le_ge_cases (type_rank t) (type_rank t')); [left|right]; lia.
    + pose proof (String.leb_total s s'). tauto.
Qed.

Lemma dedup_cons a b l : dedup (a :: b :: l) = if decide (a = b) then dedup (b :: l) else a :: dedup (b :: l).
Proof. done. Qed.
Lemma elem_of_dedup w l : w ∈ dedup l ↔ w ∈ l.
Proof.
  induction l as [|a l IH]; [done|]. destruct l as [|b l]; [done|].
  rewrite dedup_cons. case_decide as Hab.
  - rewrite IH. subst b. rewrite !elem_of_cons. tauto.
  - rewrite elem_of_cons, IH, (elem_of_cons _ _ a). done.
Qed.
Lemma dedup_NoDup l : StronglySorted which_le l → NoDup (dedup l).
Proof.
  induction 1 as [|a l Hl IH Ha]; [constructor|]. destruct l as [|b l]; [repeat constructor; set_solver|].
  rewrite dedup_cons. case_decide as Hab; [done|]. apply NoDup_cons. split; [|done].
  intros Hin. rewrite elem_of_dedup in Hin. apply elem_of_cons in Hin as [|Hin]; [done|].
  apply StronglySorted_inv in Hl as [_ Hb]. rewrite Forall_forall in Ha, Hb. apply Hab.
  pose proof which_le_po as Hpo. apply (anti_symm which_le); [apply Ha; by left|by apply Hb].
Qed.
Lemma elem_of_sorted_dedup w l : w ∈ sorted_dedup l ↔ w ∈ l.
Proof. unfold sorted_dedup. by rewrite elem_of_dedup, merge_sort_Permutation. Qed.
Lemma sorted_dedup_NoDup l : NoDup (sorted_dedup l).
Proof.
  pose proof which_le_po. pose proof which_le_total. apply dedup_NoDup, (StronglySorted_merge_sort _).
Qed.
(** the number of different fields *)
Lemma sorted_dedup_length l : zlen (sorted_dedup l) = zlen (remove_dups l).
Proof.
  unfold zlen. f_equal. apply Permutation_length, NoDup_Permutation.
  - apply sorted_dedup_NoDup.
  - apply NoDup_remove_dups.
  - intros w. by rewrite elem_of_sorted_dedup, elem_of_remove_dups.
Qed.
Lemma single_string ws w w' :
  zlen (List.filter is_string_field (sorted_dedup ws)) ≤ 1 →
  w ∈ ws → w' ∈ ws → is_string_field w = true → is_string_field w' = true → w = w'.
Proof.
  intros Hlen Hw Hw' Hs Hs'.
  assert (∀ x, x ∈ ws → is_string_field x = true → x ∈ List.filter is_string_field (sorted_dedup ws)) as Hin.
  { intros x Hx Hxs. apply list_elem_of_In, filter_In. split; [|done]. by apply list_elem_of_In, elem_of_sorted_dedup. }
  pose proof (Hin _ Hw Hs) as H1. pose proof (Hin _ Hw' Hs') as H2. revert Hlen H1 H2. clear.
  destruct (List.filter _ _) as [|a [|b l]]; unfold zlen; simpl; [set_solver|set_solver|lia].
Qed.

Section pullup_lemmas.
Context `{SerdeLanguage} `{TantivySchema} (score_funcoid heap_oid : Z) (heap : list (string * PgOid)).
Variables (schema : SearchIndexSchema) (rti : Z).

(** a target of the relation, or of none *)
Definition own_target (te : TargetEntry) : Prop := resorigtbl te = 0 ∨ resorigtbl te = heap_oid.
(** the field that answers a target *)
Definition target_answer (te : TargetEntry) (w : WhichFastField) : Prop :=
  match te_expr te with
  | E_Var _ attno vartype =>
      (attno = SelfItemPointerAttributeNumber ∧ w = WCtid) ∨ (attno = TableOidAttributeNumber ∧ w = WTableOid) ∨
      ∃ name oid, attribute_at heap attno = Some (name, oid) ∧ is_fast_field schema name = true ∧
        w = WNamed name (if is_text_type vartype then FFString else FFNumeric)
  | E_Const => w = WJunk "const"
  | expr =>
      (uses_scores score_funcoid rti expr = Ok true ∧ w = WScore) ∨
      (uses_scores score_funcoid rti expr = Ok false ∧
       match expr with E_Aggref _ => w = WJunk "agg" | E_WindowFunc _ => w = WJunk "window" | _ => False end)
  end.

Lemma pullup_entry_own te m :
  own_target te → pullup_entry score_funcoid heap_oid heap schema rti te = Ok m →
  ∃ w, m = Some w ∧ ∀ w', w = Some w' → target_answer te w'.
Proof.
  intros Hown. unfold pullup_entry.
  assert (negb (resorigtbl te =? 0) && negb (resorigtbl te =? heap_oid) = false) as ->.
  { destruct Hown as [-> | ->]; [done|]. rewrite Z.eqb_refl. by rewrite andb_false_r. }
  unfold target_answer. destruct (te_expr te) as [varno attno vartype| |funcid args|args|args|args].
  - case_bool_decide; [intros [= <-]; by eexists|].
    destruct (Z.eqb_spec attno SelfItemPointerAttributeNumber) as [->|_].
    { intros [= <-]. eexists. split; [done|]. intros w' [= <-]. by left. }
    destruct (Z.eqb_spec attno TableOidAttributeNumber) as [->|_].
    { intros [= <-]. eexists. split; [done|]. intros w' [= <-]. right. by left. }
    destruct (attribute_at heap attno) as [[name oid]|] eqn:Hatt; [|done]. simpl.
    destruct (is_fast_field schema name) eqn:Hfast; intros [= <-]; eexists; (split; [done|]); [|done].
    intros w' [= <-]. right. right. by exists name, oid.
  - simpl. intros [= <-]. eexists. split; [done|]. by intros w' [= <-].
  - destruct (uses_scores _ _ _) as [[]| | |]; [| |done..]; intros [= <-]; eexists; (split; [done|]); [|done].
    intros w' [= <-]. by left.
  - destruct (uses_scores _ _ _) as [[]| | |]; [| |done..]; intros [= <-]; eexists; (split; [done|]);
      intros w' [= <-]; [by left|by right].
  - destruct (uses_scores _ _ _) as [[]| | |]; [| |done..]; intros [= <-]; eexists; (split; [done|]);
      intros w' [= <-]; [by left|by right].
  - destruct (uses_scores _ _ _) as [[]| | |]; [| |done..]; intros [= <-]; eexists; (split; [done|]); [|done].
    intros w' [= <-]. by left.
Qed.

Lemma pullup_matches_own targetlist ws :
  Forall own_target targetlist →
  pullup_matches score_funcoid heap_oid heap schema rti targetlist = Ok (Some ws) →
  Forall2 target_answer targetlist ws.
Proof.
  intros Hown. revert ws. induction Hown as [|te targetlist Hte _ IH]; intros ws; simpl; [by intros [= <-]|].
  intros (m & Hm & Hrest)%obind_inv. destruct (pullup_entry_own te m Hte Hm) as (w & -> & Hw).
  destruct w as [w|]; [|done]. apply obind_inv in Hrest as (rest & Hrest & [= Hws]).
  destruct rest as [rest|]; [|done]. injection Hws as <-. constructor; [by apply Hw|by apply IH].
Qed.

Lemma pullup_some node ws :
  pullup_fast_fields score_funcoid heap_oid heap schema rti node = Ok (Some ws) →
  pullup_matches score_funcoid heap_oid heap schema rti node = Ok (Some ws) ∧
  zlen (List.filter is_string_field (sorted_dedup ws)) ≤ 1.
Proof.
  unfold pullup_fast_fields. intros (m & Hm & Hws)%obind_inv. destruct m as [m|]; [|done].
  destruct (Z.ltb_spec 1 (zlen (List.filter is_string_field (sorted_dedup m)))); [done|].
  injection Hws as ->. by split.
Qed.
End pullup_lemmas.

(** A target list is answered from columns one target at a time: a column of the table by its fast field, as text
    exactly when the target is text, [ctid], [tableoid] and scores by what the scan knows; different text fields
    never come together, and the planner counts the different fields. *)
Theorem targets_answered `{SerdeLanguage} `{TantivySchema} (score_funcoid heap_oid rti : Z)
    (heap : list (string * PgOid)) (schema : SearchIndexSchema) (node : list TargetEntry) (ws : list WhichFastField) :
  Forall (own_target heap_oid) node →
  pullup_fast_fields score_funcoid heap_oid heap schema rti node = Ok (Some ws) →
  Forall2 (target_answer score_funcoid heap schema rti) node ws ∧
  (∀ w w', w ∈ ws → w' ∈ ws → is_string_field w = true → is_string_field w' = true → w = w') ∧
  ff_count score_funcoid heap_oid heap schema rti node = Ok (negb (bool_decide (node = [])), zlen (remove_dups ws)).
Proof.
  intros Hown Hws. pose proof Hws as [Hm Hone]%pullup_some. pose proof (pullup_matches_own _ _ _ _ _ _ _ Hown Hm) as Hall.
  split; [done|]. split; [intros w w'; by apply single_string|].
  unfold ff_count. rewrite Hws. simpl. rewrite sorted_dedup_length. do 3 f_equal.
  apply bool_decide_ext. destruct Hall; done.
Qed.

(** the value of a target that is no column *)
Lemma expression_datum `{RustF64} `{TantivyTypes} `{TantivyText} `{Chrono} `{!PgrxTypes} `{!TimeCrate}
    `{!PgDatums} `{PgTypes} `{TantivyIndex} `{!TantivyParser} `{!TantivyReader} `{!TantivyColumns} `{!SlotDatums}
    `{SerdeLanguage} `{TantivySchema} (score_funcoid heap_oid rti : Z) (heap : list (string * PgOid))
    (schema : SearchIndexSchema) (node : list TargetEntry) (ws : list WhichFastField)
    (segs : list SegmentReader) (i : nat) (te : TargetEntry) (typid : PgOid) (doc : Score * DocAddr)
    (text : string) (slot : SlotTuple) :
  Forall (own_target heap_oid) node →
  pullup_fast_fields score_funcoid heap_oid heap schema rti node = Ok (Some ws) →
  is_Some (znth segs (segment_ord doc.2)) → node !! i = Some te →
  match te_expr te with
  | E_Var _ _ _ => True
  | expr =>
      ∃ w scores, ws !! i = Some w ∧ (∀ name ty, w ≠ WNamed name ty) ∧ uses_scores score_funcoid rti expr = Ok scores ∧
      target_datum segs ws i typid doc text slot
        = Ok (if scores && negb (is_integer_type typid) then Some (score_into_datum doc.1) else None)
  end.
Proof.
  intros Hown [Hm _]%pullup_some [ffr Hseg] Hi.
  pose proof (pullup_matches_own _ _ _ _ _ _ _ Hown Hm) as Hall.
  destruct (Forall2_lookup_l _ _ _ _ _ Hall Hi) as (w & Hw & Hans).
  assert (∀ w, match w with WNamed _ _ => False | _ => True end → ws !! i = Some w → ff_at segs ws i doc.2 = Ok FFJunk)
    as Hjunk.
  { intros w' Hk Hw'. unfold ff_at.
    assert (Prelude.index segs (segment_ord doc.2) = Ok ffr) as -> by (unfold Prelude.index; by rewrite Hseg). simpl. rewrite (index_ok _ _ _ Hw'). simpl.
    by destruct w'. }
  assert (∀ s, ws !! i = Some (WJunk s) → target_datum segs ws i typid doc text slot = Ok None) as Hnull.
  { intros s Hs. unfold target_datum. rewrite (index_ok _ _ _ Hs). simpl. rewrite (Hjunk (WJunk s) I Hs). simpl.
    by destruct (is_integer_type typid), (is_text_type typid). }
  assert (ws !! i = Some WScore → target_datum segs ws i typid doc text slot
    = Ok (if negb (is_integer_type typid) then Some (score_into_datum doc.1) else None)) as Hscore.
  { intros Hs. unfold target_datum. rewrite (index_ok _ _ _ Hs). simpl. rewrite (Hjunk WScore I Hs). simpl.
    by destruct (is_integer_type typid). }
  unfold target_answer in Hans. destruct (te_expr te) as [| |funcid args|args|args|args]; [done| |..].
  - subst w. exists (WJunk "const"), false. split; [done|]. split; [done|]. split; [done|]. by apply (Hnull "const"%string).
  - destruct Hans as [[Hu ->]|[_ []]]. exists WScore, true. split; [done|]. split; [done|]. split; [done|]. by apply Hscore.
  - destruct Hans as [[Hu ->]|[Hu ->]]; eexists _, _; (split; [exact Hw|]); (split; [done|]); (split; [exact Hu|]); [by apply Hscore|by eapply Hnull].
  - destruct Hans as [[Hu ->]|[Hu ->]]; eexists _, _; (split; [exact Hw|]); (split; [done|]); (split; [exact Hu|]); [by apply Hscore|by eapply Hnull].
  - destruct Hans as [[Hu ->]|[_ []]]. exists WScore, true. split; [done|]. split; [done|]. split; [done|]. by apply Hscore.
Qed.

(** When a target list is answered from columns, a target that is no column of the table
    gets no value of its own: it becomes the bare score of the document when the score
    function occurs anywhere in it, and null otherwise - a constant and an aggregate
    too. *)
Theorem virtual_rows_lose_expressions `{RustF64} `{TantivyTypes} `{TantivyText} `{Chrono} `{!PgrxTypes} `{!TimeCrate}
    `{!PgDatums} `{PgTypes} `{TantivyIndex} `{!TantivyParser} `{!TantivyReader} `{!TantivyColumns} `{!SlotDatums}
    `{SerdeLanguage} `{TantivySchema} (score_funcoid heap_oid rti : Z) (heap : list (string * PgOid))
    (schema : SearchIndexSchema) (node : list TargetEntry) (ws : list WhichFastField)
    (segs : list SegmentReader) h (i : nat) (te : TargetEntry) (typid : PgOid) (doc : Score * DocAddr)
    (text : string) (slot : SlotTuple) :
  Forall (own_target heap_oid) node →
  pullup_fast_fields score_funcoid heap_oid heap schema rti node = Ok (Some ws) →
  helper_ok segs ws h → is_Some (znth segs (segment_ord doc.2)) → node !! i = Some te →
  match te_expr te with
  | E_Var _ _ _ => True
  | expr =>
      ∃ w scores h', ws !! i = Some w ∧ uses_scores score_funcoid rti expr = Ok scores ∧
      ff_to_datum w i typid doc.1 doc.2 h text slot
        = Ok (if scores && negb (is_integer_type typid) then Some (score_into_datum doc.1) else None, h', text)
  end.
Proof.
  intros Hown Hws Hh Hseg Hi.
  pose proof (expression_datum _ _ _ _ _ _ _ segs i te typid doc text slot Hown Hws Hseg Hi) as He.
  assert (∀ w scores, ws !! i = Some w → (∀ name ty, w ≠ WNamed name ty) →
    target_datum segs ws i typid doc text slot
      = Ok (if scores && negb (is_integer_type typid) then Some (score_into_datum doc.1) else None) →
    ∃ h', ff_to_datum w i typid doc.1 doc.2 h text slot
      = Ok (if scores && negb (is_integer_type typid) then Some (score_into_datum doc.1) else None, h', text)) as Hrun.
  { intros w scores Hw Hn Hd. assert (text_is_string ws i typid) as Ht.
    { intros _ name Hc. rewrite Hw in Hc. injection Hc as ->. by destruct (Hn name FFNumeric). }
    destruct (ff_to_datum_ok _ _ _ _ _ _ _ _ _ _ Hh Ht Hw Hd) as (h' & Hr & _). by exists h'. }
  destruct (te_expr te); [done|..]; destruct He as (w & scores & Hw & Hn & Hu & Hd);
    destruct (Hrun w scores Hw Hn Hd) as [h' Hr]; by exists w, scores, h'.
Qed.

(** The relation of a column is not looked at: a target that is a column of something without a table of its own, a
    function say, with a number the table has no column for, or the whole row of the table, makes planning panic. *)
Theorem foreign_column_panics `{SerdeLanguage} `{TantivySchema} (score_funcoid heap_oid rti : Z)
    (heap : list (string * PgOid)) (schema : SearchIndexSchema) (te : TargetEntry) (node : list TargetEntry)
    (varno attno : Z) (vartype : PgOid) :
  own_target heap_oid te → te_expr te = E_Var varno attno vartype → 0 ≤ attno → (attno = 0 ∨ zlen heap < attno) →
  ff_count score_funcoid heap_oid heap schema rti (te :: node) = Panic "attnum should exist in tupdesc".
Proof.
  intros Hown He Hge Hatt. unfold ff_count, pullup_fast_fields. cbn [pullup_matches]. unfold pullup_entry. rewrite He.
  assert (negb (resorigtbl te =? 0) && negb (resorigtbl te =? heap_oid) = false) as ->.
  { destruct Hown as [-> | ->]; [done|]. rewrite Z.eqb_refl. by rewrite andb_false_r. }
  unfold SelfItemPointerAttributeNumber, TableOidAttributeNumber.
  rewrite bool_decide_eq_false_2.
  2: { unfold MinTransactionIdAttributeNumber, MaxTransactionIdAttributeNumber, MinCommandIdAttributeNumber,
         MaxCommandIdAttributeNumber. intros Hin. repeat apply elem_of_cons in Hin as [Hin|Hin]; [lia..|].
       by apply not_elem_of_nil in Hin. }
  destruct (Z.eqb_spec attno (-1)); [lia|]. destruct (Z.eqb_spec attno (-6)); [lia|].
  assert (attribute_at heap attno = None) as ->; [|done].
  unfold attribute_at. destruct (Z.leb_spec 1 attno); [|done]. destruct Hatt as [->|Hlen]; [lia|].
  rewrite znth_lookup by lia. apply lookup_ge_None. unfold zlen in Hlen. lia.
Qed.

(** A null in a text column that is returned as another type, a [uuid] say, panics. *)
Theorem null_text_value_panics `{RustF64} `{TantivyTypes} `{TantivyText} `{Chrono} `{!PgrxTypes} `{!TimeCrate}
    `{!PgDatums} `{PgTypes} `{TantivyIndex} `{!TantivyParser} `{!TantivyReader} `{!TantivyColumns} `{!SlotDatums}
    (segs : list SegmentReader) (fields : list WhichFastField) h (i : nat) (name : string) (ff : StrColumn)
    (typid : PgOid) (doc : Score * DocAddr) (text : string) (slot : SlotTuple) :
  helper_ok segs fields h → ff_at segs fields i doc.2 = Ok (FFText ff) →
  is_integer_type typid = false → is_text_type typid = false → term_ords ff (doc_id doc.2) = [] →
  ff_to_datum (WNamed name FFNumeric) i typid doc.1 doc.2 h text slot = Panic "term ord should be retrievable".
Proof.
  intros Hh Hff Hint Htext Hnone. destruct (get_or_init_ok _ _ _ _ _ _ Hh Hff) as (h' & Hget & _).
  unfold ff_to_datum, ffh_value. rewrite Hint, Htext, Hget. cbn [mbind outcome_bind ff_value]. by rewrite Hnone.
Qed.
