(* ===== verification/FastFieldExec.v ===== *)
(** * FastFieldExec: scans answered from columns

    [customscan/pdbscan/exec_methods/fast_fields/numeric.rs] and [string.rs]: the exec
    methods that fill a virtual slot from columns when the tuple's block is all visible.
    The numeric method searches like the normal one; the string method first groups all
    matching documents by the term of one text column. *)

From S2P Require Import Prelude Page Block PgUtils TokenizerConfig Query CustomScan Schema Rows Reader Parallel ScanExec FastFields.

Open Scope Z_scope.

(** a slot holds datums *)
Definition DatumSlots `{PgDatums} : PgSlots := {| SlotDatum := RowDatum |}.
#[local] Existing Instance DatumSlots.

(** ** [BTreeMap::entry(k).or_default().append(vs)]: a list of entries in the order of their keys *)
Section btree.
Context {K V : Type} `{EqDecision K} (le : K → K → Prop) `{!RelDecision le}.

Fixpoint entry_append (k : K) (vs : list V) (m : list (K * list V)) : list (K * list V) :=
  match m with
  | [] => [(k, vs)]
  | (k', vs') :: m =>
      if decide (k = k') then (k', vs' ++ vs) :: m
      else if decide (le k k') then (k, vs) :: (k', vs') :: m
      else (k', vs') :: entry_append k vs m
  end.
(** the values with their keys *)
Definition btree_flat (m : list (K * list V)) : list (K * V) := m ≫= λ kvs, pair kvs.1 <$> kvs.2.
End btree.

(** the tasks of [into_par_iter] lock the merged map in any order, and an [FxHashMap] iterates in any order *)
Class StringAggOrder := {
  par_order : ∀ {A : Type}, list A → list A;
  fx_order : ∀ {A : Type}, list A → list A;
  par_order_perm {A : Type} (l : list A) : par_order l ≡ₚ l;
  fx_order_perm {A : Type} (l : list A) : fx_order l ≡ₚ l
}.
(** the score a collector is given when it does not require scores *)
Class ScoreZero `{TantivyReader} := { score_zero : Score }.

Section exec.
Context `{RustF64} `{TantivyTypes} `{TantivyText} `{TantivyRegex} `{RustBuild}
  `{Chrono} `{!PgDates} `{AsFieldType} `{!TantivyParser} `{!TantivySearcher} `{TantivyIndex} `{!TantivyReader}
  `{PgHeap} `{!PgrxTypes} `{!TimeCrate} `{!PgDatums} `{PgTypes} `{!TantivyColumns} `{!SlotDatums}
  `{StringAggOrder} `{!ScoreZero}.
(** the types of [ps_ResultTupleDesc] and the [rd_id] of the table *)
Context (result_tupdesc : list PgOid) (rd_id : Z).
Notation FFHelper := (list (list (SegmentReader * string * option FFType))).

(** ** [FastFieldExecState] *)

Record FastFieldExecState := {
  ffhelper : FFHelper;
  strbuf : string;
  which_fast_fields : list WhichFastField;
  ff_results : SearchResults;
  ff_blockvis : Z * bool;
  ff_did_query : bool
}.
Definition ff_exec_new (which : list WhichFastField) : FastFieldExecState :=
  {| ffhelper := []; strbuf := ""; which_fast_fields := which; ff_results := NoResults;
     ff_blockvis := (InvalidBlockNumber, false); ff_did_query := false |}.
(** [init] of both methods; the reader was set by the rescan *)
Definition ff_init (e : FastFieldExecState) (st : PdbScanState) : FastFieldExecState :=
  {| ffhelper :=
       match search_reader st with
       | Some reader => ff_with_fields (searcher reader) (which_fast_fields e)
       | None => ffhelper e
       end;
     strbuf := strbuf e; which_fast_fields := which_fast_fields e; ff_results := ff_results e;
     ff_blockvis := ff_blockvis e; ff_did_query := ff_did_query e |}.
Definition set_ff (results : SearchResults) (did_query : bool) (e : FastFieldExecState) : FastFieldExecState :=
  {| ffhelper := ffhelper e; strbuf := strbuf e; which_fast_fields := which_fast_fields e; ff_results := results;
     ff_blockvis := ff_blockvis e; ff_did_query := did_query |}.
Definition set_ff_blockvis (b : Z * bool) (e : FastFieldExecState) : FastFieldExecState :=
  {| ffhelper := ffhelper e; strbuf := strbuf e; which_fast_fields := which_fast_fields e; ff_results := ff_results e;
     ff_blockvis := b; ff_did_query := ff_did_query e |}.
Definition set_ff_helper (h : FFHelper) (e : FastFieldExecState) : FastFieldExecState :=
  {| ffhelper := h; strbuf := strbuf e; which_fast_fields := which_fast_fields e; ff_results := ff_results e;
     ff_blockvis := ff_blockvis e; ff_did_query := ff_did_query e |}.
Definition set_strbuf (buf : string) (e : FastFieldExecState) : FastFieldExecState :=
  {| ffhelper := ffhelper e; strbuf := buf; which_fast_fields := which_fast_fields e; ff_results := ff_results e;
     ff_blockvis := ff_blockvis e; ff_did_query := ff_did_query e |}.

Definition virtual (datums : list (option RowDatum)) : ExecState := Virtual datums.
(** a virtual slot from the columns; [buf] is the buffer of strings, returned with the result *)
Definition ff_virtual (scored : SearchIndexScore) (doc_address : DocAddr) (buf : string) (e : FastFieldExecState)
    : outcome (ExecState * string * FastFieldExecState) :=
  '(datums, h, buf) ←
    fill_slot (which_fast_fields e) 0 result_tupdesc (bm25 scored) doc_address (ffhelper e) buf
      {| tts_tid := u64_to_item_pointer (ctid scored); tts_tableOid := rd_id |};
  Ok (virtual datums, buf, set_ff_helper h e).
(** the rest of [internal_next], which the methods share: the block's visibility is looked up once in a row *)
Definition ff_emit (scored : SearchIndexScore) (doc_address : DocAddr) (buf : string) (e : FastFieldExecState)
    : outcome (ExecState * string * FastFieldExecState) :=
  let blockno := ip_blkid (u64_to_item_pointer (ctid scored)) in
  let e := if blockno =? (ff_blockvis e).1 then e
           else set_ff_blockvis (blockno, is_block_all_visible blockno) e in
  if (ff_blockvis e).2 then ff_virtual scored doc_address buf e
  else Ok (RequiresVisibilityCheck (ctid scored) (bm25 scored) doc_address, buf, e).

(** ** [NumericFastFieldExecState] *)

Record NumericFastFieldExecState := { numeric_inner : FastFieldExecState }.

Definition numeric_query (m : NumericFastFieldExecState) (st : PdbScanState)
    : outcome (bool * NumericFastFieldExecState * PdbScanState) :=
  let e := numeric_inner m in
  match parallel_state st with
  | Some pscan_state =>
      '(o, pscan_state) ← checkout_segment pscan_state;
      let st := set_parallel_state (Some pscan_state) st in
      match o with
      | Some segment_id =>
          reader ← expect_some (search_reader st) "unwrap";
          results ← search_segment reader (need_scores st) segment_id (search_query_input st);
          Ok (true, {| numeric_inner := set_ff results (ff_did_query e) e |}, st)
      | None => Ok (false, {| numeric_inner := set_ff NoResults (ff_did_query e) e |}, st)
      end
  | None =>
      if ff_did_query e then Ok (false, m, st)
      else
        reader ← expect_some (search_reader st) "unwrap";
        results ← search reader (need_scores st) (search_query_input st);
        Ok (true, {| numeric_inner := set_ff results true e |}, st)
  end.
Definition numeric_internal_next (m : NumericFastFieldExecState) (st : PdbScanState)
    : outcome (ExecState * NumericFastFieldExecState * PdbScanState) :=
  let e := numeric_inner m in
  '(item, results) ← next (ff_results e);
  let e := set_ff results (ff_did_query e) e in
  match item with
  | None => Ok (Eof, {| numeric_inner := e |}, st)
  | Some (scored, doc_address) =>
      '(s, buf, e) ← ff_emit scored doc_address (strbuf e) e;
      Ok (s, {| numeric_inner := set_strbuf buf e |}, st)
  end.
#[export] Instance NumericExec : ExecMethod NumericFastFieldExecState := {
  exec_init m st := {| numeric_inner := ff_init (numeric_inner m) st |};
  exec_query := numeric_query;
  internal_next := numeric_internal_next
}.

(** ** [StringAggSearcher] *)

Notation AggItem := (SearchIndexScore * DocAddr)%type.
Notation TermOrds := (list (Z * list AggItem)).

(** [TermOrdSegmentCollector::collect] of each document; one without a term is left out *)
Fixpoint collect_docs (ff : StrColumn) (ctid_ff : FFType) (segment_ord : Z) (docs : list (Z * Score)) (results : TermOrds)
    : outcome TermOrds :=
  match docs with
  | [] => Ok results
  | (doc, score) :: docs =>
      match head (term_ords ff doc) with
      | Some term_ord =>
          let doc_address := {| Reader.segment_ord := segment_ord; doc_id := doc |} in
          ctid ← expect_ok (ff_as_u64 ctid_ff doc) "ctid should be present";
          let scored := {| ctid := ctid; bm25 := score |} in
          collect_docs ff ctid_ff segment_ord docs (entry_append Z.le term_ord [(scored, doc_address)] results)
      | None => collect_docs ff ctid_ff segment_ord docs results
      end
  end.
(** [Collector::collect_segment]: [for_segment], then [collect] for the live documents that match *)
Definition collect_segment (need_scores : bool) (field : string) (q : Query) (seg : Z * SegmentReader)
    : outcome (StrColumn * TermOrds) :=
  ff ← expect_ok (column_str seg.2 field) "ff should be a str field";
  let ctid_ff := FFU64 (ctid_column seg.2) in
  let docs := filter (λ dp, is_alive seg.2 dp.1) (scorer q need_scores seg.2) in
  let docs := if need_scores then docs else (λ dp, (dp.1, score_zero)) <$> docs in
  results ← collect_docs ff ctid_ff seg.1 docs [];
  Ok (ff, results).

(** the callback of [sorted_ords_to_term_cb]: the terms with the values of their ordinals *)
Fixpoint resolve_terms (terms : list string) (values : list (list AggItem)) : outcome (list (string * list AggItem)) :=
  match terms with
  | [] => Ok []
  | term :: terms =>
      match values with
      | v :: values => rest ← resolve_terms terms values; Ok ((term, v) :: rest)
      | [] => Panic "internal error: don't have the same number of TermOrd keys and values"
      end
  end.
Definition resolve_segment (str_ff : StrColumn) (results : TermOrds) : outcome (list (string * list AggItem)) :=
  resolve_terms (sorted_ords_to_terms str_ff (fst <$> results)) (snd <$> results).

Inductive StringAggResults :=
  | AggNone
  | Batched (current : string * list AggItem) (set : list (string * list AggItem))
  | SingleSegmentAgg (iter : list (AggItem * string)).

Fixpoint batched_next (current : string * list AggItem) (set : list (string * list AggItem))
    : option (AggItem * string) * (string * list AggItem) * list (string * list AggItem) :=
  match current.2 with
  | item :: items => (Some (item, current.1), (current.1, items), set)
  | [] => match set with [] => (None, current, []) | next_set :: set => batched_next next_set set end
  end.
Definition agg_next (r : StringAggResults) : option (AggItem * string) * StringAggResults :=
  match r with
  | AggNone => (None, AggNone)
  | Batched current set =>
      let '(item, current, set) := batched_next current set in (item, Batched current set)
  | SingleSegmentAgg [] => (None, SingleSegmentAgg [])
  | SingleSegmentAgg (item :: iter) => (Some item, SingleSegmentAgg iter)
  end.

(** [for (term, results) in resolved { guard.entry(term).or_default().append(results) }] *)
Definition merge_resolved (resolved : list (string * list AggItem)) (merged : list (string * list AggItem))
    : list (string * list AggItem) :=
  foldl (λ m tr, entry_append String.le tr.1 tr.2 m) merged (fx_order resolved).
Definition string_agg (self : SearchIndexReader) (need_scores : bool) (query : SearchQueryInput) (field : string)
    : outcome StringAggResults :=
  q ← reader_query query;
  results ← traverse_ok (collect_segment need_scores field q) (enumerate (searcher self));
  resolved ← traverse_ok (λ fr : StrColumn * TermOrds, resolve_segment fr.1 fr.2) (par_order results);
  Ok (Batched ("", []) (foldl (λ m r, merge_resolved r m) [] resolved)).
Definition string_agg_by_segment (self : SearchIndexReader) (need_scores : bool) (query : SearchQueryInput)
    (field : string) (segment_id : SegmentId) : outcome StringAggResults :=
  seg ← find_segment self segment_id;
  q ← reader_query query;
  '(str_ff, results) ← collect_segment need_scores field q seg;
  resolved ← resolve_segment str_ff results;
  Ok (SingleSegmentAgg (resolved ≫= λ tr : string * list AggItem, (λ item, (item, tr.1)) <$> tr.2)).

(** ** [StringFastFieldExecState] *)

Record StringFastFieldExecState := {
  string_inner : FastFieldExecState;
  agg_results : StringAggResults;
  agg_field : string
}.
Definition string_new (field : string) (which : list WhichFastField) : StringFastFieldExecState :=
  {| string_inner := ff_exec_new which; agg_results := AggNone; agg_field := field |}.

(** at the end of a parallel scan it is the other results that are reset *)
Definition string_query (m : StringFastFieldExecState) (st : PdbScanState)
    : outcome (bool * StringFastFieldExecState * PdbScanState) :=
  let e := string_inner m in
  match parallel_state st with
  | Some pscan_state =>
      '(o, pscan_state) ← checkout_segment pscan_state;
      let st := set_parallel_state (Some pscan_state) st in
      match o with
      | Some segment_id =>
          reader ← expect_some (search_reader st) "unwrap";
          results ← string_agg_by_segment reader (need_scores st) (search_query_input st) (agg_field m) segment_id;
          Ok (true, {| string_inner := e; agg_results := results; agg_field := agg_field m |}, st)
      | None =>
          Ok (false, {| string_inner := set_ff NoResults (ff_did_query e) e; agg_results := agg_results m;
                        agg_field := agg_field m |}, st)
      end
  | None =>
      if ff_did_query e then Ok (false, m, st)
      else
        reader ← expect_some (search_reader st) "unwrap";
        results ← string_agg reader (need_scores st) (search_query_input st) (agg_field m);
        Ok (true, {| string_inner := set_ff (ff_results e) true e; agg_results := results; agg_field := agg_field m |}, st)
  end.
Definition string_internal_next (m : StringFastFieldExecState) (st : PdbScanState)
    : outcome (ExecState * StringFastFieldExecState * PdbScanState) :=
  match agg_results m with
  | AggNone => Ok (Eof, m, st)
  | results =>
      let (item, results) := agg_next results in
      match item with
      | None => Ok (Eof, {| string_inner := string_inner m; agg_results := results; agg_field := agg_field m |}, st)
      | Some ((scored, doc_address), term) =>
          '(s, _, e) ← ff_emit scored doc_address term (string_inner m);
          Ok (s, {| string_inner := e; agg_results := results; agg_field := agg_field m |}, st)
      end
  end.
#[export] Instance StringExec : ExecMethod StringFastFieldExecState := {
  exec_init m st := {| string_inner := ff_init (string_inner m) st; agg_results := agg_results m; agg_field := agg_field m |};
  exec_query := string_query;
  internal_next := string_internal_next
}.
End exec.

(** ** The merged map *)

Section btree_lemmas.
Context {K V : Type} `{EqDecision K} (le : K → K → Prop) `{!RelDecision le} `{!PartialOrder le} `{!Total le}.
Implicit Types m : list (K * list V).

(** the keys are in order, and different *)
Definition btree_ok m : Prop := StronglySorted le m.*1 ∧ NoDup m.*1.

Lemma btree_flat_cons k vs m : btree_flat ((k, vs) :: m) = (pair k <$> vs) ++ btree_flat m.
Proof. done. Qed.
Lemma entry_append_flat k vs m : btree_flat (entry_append le k vs m) ≡ₚ (pair k <$> vs) ++ btree_flat m.
Proof.
  induction m as [|[k' vs'] m IH]; cbn [entry_append]; [done|]. case_decide as Hk; [|case_decide].
  - subst k'. rewrite !btree_flat_cons, fmap_app, app_assoc. by rewrite (Permutation_app_comm (pair k <$> vs')).
  - by rewrite !btree_flat_cons.
  - rewrite !btree_flat_cons, IH. rewrite !app_assoc. by rewrite (Permutation_app_comm (pair k' <$> vs')).
Qed.
Lemma entry_append_keys k vs m k' : k' ∈ (entry_append le k vs m).*1 ↔ k' = k ∨ k' ∈ m.*1.
Proof.
  induction m as [|[k1 vs1] m IH]; cbn [entry_append]; [cbn; set_solver|]. case_decide as Hk; [|case_decide].
  - subst k1. cbn. set_solver.
  - cbn. set_solver.
  - rewrite !fmap_cons, !elem_of_cons, IH. cbn. tauto.
Qed.
Lemma entry_append_ok k vs m : btree_ok m → btree_ok (entry_append le k vs m).
Proof.
  intros [Hs Hn]. induction m as [|[k1 vs1] m IH]; cbn [entry_append].
  { split; cbn; repeat constructor. by intros ?%not_elem_of_nil. }
  rewrite fmap_cons in Hs, Hn. cbn [fst] in Hs, Hn.
  apply StronglySorted_inv in Hs as Hs'. destruct Hs' as [Hm Hle]. apply NoDup_cons in Hn as Hn'. destruct Hn' as [Hk1 Hm'].
  case_decide as Hk; [|case_decide as Hkk].
  - subst k1. by split.
  - split; rewrite fmap_cons; cbn [fst].
    + constructor; [done|]. apply Forall_forall. intros x [->|Hx]%elem_of_cons; [done|].
      rewrite Forall_forall in Hle. etrans; [exact Hkk|by apply Hle].
    + apply NoDup_cons. split; [|done]. intros [->|Hx]%elem_of_cons; [done|].
      apply Hk, (anti_symm le); [done|]. rewrite Forall_forall in Hle. by apply Hle.
  - destruct (IH Hm Hm') as [IHs IHn]. split; rewrite fmap_cons; cbn [fst].
    + constructor; [done|]. apply Forall_forall. intros x [->|Hx]%entry_append_keys.
      * destruct (total le k1 k); [done|contradiction].
      * rewrite Forall_forall in Hle. by apply Hle.
    + apply NoDup_cons. split; [|done]. intros [Hx|Hx]%entry_append_keys; [by subst|done].
Qed.
Lemma btree_flat_sorted m : btree_ok m → StronglySorted le (btree_flat m).*1.
Proof.
  intros [Hs _]. induction m as [|[k vs] m IH]; [constructor|]. rewrite btree_flat_cons, fmap_app.
  rewrite fmap_cons in Hs. apply StronglySorted_inv in Hs as [Hm Hk]. cbn [fst] in Hk.
  assert (Forall (le k) (btree_flat m).*1) as Hflat.
  { clear -Hk. induction m as [|[k' vs'] m IH]; [constructor|]. rewrite btree_flat_cons, fmap_app.
    rewrite fmap_cons in Hk. apply Forall_cons in Hk as [Hk Hm]. apply Forall_app. split; [|by apply IH].
    rewrite <- list_fmap_compose. cbn. apply Forall_fmap, Forall_true. done. }
  rewrite <- list_fmap_compose. induction vs as [|v vs IHv]; [by apply IH|]. cbn.
  constructor; [done|]. apply Forall_app. split; [|done].
  apply Forall_fmap, Forall_true. intros ?. cbn. reflexivity.
Qed.
End btree_lemmas.

(** ** The string method's documents *)

Section agg_lemmas.
Context `{RustF64} `{TantivyTypes} `{TantivyText} `{TantivyRegex} `{RustBuild}
  `{Chrono} `{!PgDates} `{AsFieldType} `{!TantivyParser} `{!TantivySearcher} `{TantivyIndex} `{!TantivyReader}
  `{!TantivyColumns} `{StringAggOrder} `{!ScoreZero}.
Notation AggItem := (SearchIndexScore * DocAddr)%type.
Notation TermOrds := (list (Z * list AggItem)).
Implicit Types (sr : list SegmentReader) (item : AggItem).

Definition item_doc item : Score * DocAddr := (bm25 item.1, item.2).

(** the documents a collector is given for a segment *)
Definition collected (scores : bool) (q : Query) (seg : Z * SegmentReader) : list (Score * DocAddr) :=
  if scores then matching q true seg else (λ doc, (score_zero, doc.2)) <$> matching q false seg.

(** the first term of a document in a column, and in the text field of its segment *)
Definition first_term (ff : StrColumn) (doc : Z) : option string := head (term_ords ff doc) ≫= ord_to_str ff.
Definition doc_text sr (field : string) (addr : DocAddr) : option string :=
  seg ← znth sr (segment_ord addr); ff ← column_str seg field; first_term ff (doc_id addr).

(** an item of a segment: its address and its term are those of the document *)
Definition ord_item (ff : StrColumn) (seg : SegmentReader) (o : Z) item : Prop :=
  head (term_ords ff (doc_id item.2)) = Some o ∧ ctid_column seg (doc_id item.2) = Some (ctid item.1).

Lemma head_term ff doc o : head (term_ords ff doc) = Some o → is_Some (ord_to_str ff o).
Proof. intros Ho. apply (term_ord_resolves ff doc). destruct (term_ords ff doc); [done|]. injection Ho as ->. by left. Qed.

Definition has_term (ff : StrColumn) (doc : Score * DocAddr) : Prop := is_Some (head (term_ords ff (doc_id doc.2))).
#[export] Instance has_term_dec ff doc : Decision (has_term ff doc).
Proof. unfold has_term. apply _. Defined.

(** the map of a segment while documents are collected *)
Definition ords_ok (ff : StrColumn) (seg : SegmentReader) (m : TermOrds) : Prop :=
  btree_ok Z.le m ∧ (∀ o, o ∈ m.*1 → is_Some (ord_to_str ff o)) ∧
  (∀ o item, (o, item) ∈ btree_flat m → ord_item ff seg o item).

Lemma collect_docs_ok ff seg ord docs m :
  (∀ dp, dp ∈ docs → is_Some (ctid_column seg dp.1)) → ords_ok ff seg m →
  ∃ m', collect_docs ff (FFU64 (ctid_column seg)) ord docs m = Ok m' ∧ ords_ok ff seg m' ∧
    (item_doc ∘ snd <$> btree_flat m') ≡ₚ (item_doc ∘ snd <$> btree_flat m) ++
      filter (has_term ff) ((λ dp, (dp.2, {| segment_ord := ord; doc_id := dp.1 |})) <$> docs).
Proof.
  revert m. induction docs as [|[doc score] docs IH]; intros m Hct Hok; cbn [collect_docs fmap list_fmap].
  { exists m. rewrite app_nil_r. done. }
  assert (∀ dp, dp ∈ docs → is_Some (ctid_column seg dp.1)) as Hcts by (intros dp Hdp; apply Hct; by right).
  rewrite filter_cons. cbn [fst snd]. destruct (head (term_ords ff doc)) as [o|] eqn:Ho.
  - destruct (Hct (doc, score)) as [c Hc]; [by left|]. cbn [fst] in Hc. cbn [ff_as_u64]. rewrite Hc. cbn [expect_ok mbind outcome_bind].
    rewrite decide_True by (unfold has_term; cbn; by rewrite Ho).
    set (item := ({| ctid := c; bm25 := score |}, {| segment_ord := ord; doc_id := doc |}) : AggItem).
    destruct (IH (entry_append Z.le o [item] m)) as (m' & Hrun & Hm' & Hperm); [done| |].
    { destruct Hok as (Hm & Hkeys & Hit). split; [by apply (entry_append_ok Z.le)|]. split.
      - intros o' Hin. apply (entry_append_keys Z.le) in Hin as [->|Hin]; [by eapply head_term|by apply Hkeys].
      - intros o' item'. rewrite (entry_append_flat Z.le). cbn [fmap list_fmap app].
        intros [[= -> ->]|Hin]%elem_of_cons; [done|by apply Hit]. }
    exists m'. split; [done|]. split; [done|]. rewrite Hperm. rewrite (entry_append_flat Z.le).
    cbn [fmap list_fmap app]. by rewrite Permutation_middle.
  - rewrite decide_False by (unfold has_term; cbn; rewrite Ho; by intros [? ?]). by apply IH.
Qed.

(** the terms of the ordinals of a segment, resolved one by one *)
Lemma sorted_lt (l : list Z) : StronglySorted Z.le l → NoDup l → StronglySorted Z.lt l.
Proof.
  induction 1 as [|a l Hl IH Ha]; intros Hn; [constructor|]. apply NoDup_cons in Hn as [Hna Hn].
  constructor; [by apply IH|]. rewrite Forall_forall in *. intros x Hx. specialize (Ha x Hx).
  assert (a ≠ x) by (by intros ->). lia.
Qed.
(** an item under its term *)
Definition term_item (ff : StrColumn) (seg : SegmentReader) (t : string) item : Prop :=
  first_term ff (doc_id item.2) = Some t ∧ ctid_column seg (doc_id item.2) = Some (ctid item.1).
Lemma resolve_values ff seg (m : TermOrds) terms :
  (∀ o item, (o, item) ∈ btree_flat m → ord_item ff seg o item) →
  Forall2 (λ o t, ord_to_str ff o = Some t) m.*1 terms →
  ∃ resolved, resolve_terms terms m.*2 = Ok resolved ∧ (btree_flat resolved).*2 = (btree_flat m).*2 ∧
    ∀ t item, (t, item) ∈ btree_flat resolved → term_item ff seg t item.
Proof.
  revert terms. induction m as [|[o items] m IH]; intros terms Hit Hterms; cbn [fmap list_fmap] in Hterms |- *.
  { inversion Hterms. exists []. split; [done|]. split; [done|]. by intros t item ?%not_elem_of_nil. }
  inversion Hterms as [|? t ? terms' Ht Hrest]; subst. cbn [fst snd resolve_terms].
  destruct (IH terms') as (resolved & Hrun & Hflat & Hres); [|done|].
  { intros o' item Hin. apply Hit. rewrite btree_flat_cons. apply elem_of_app. by right. }
  rewrite Hrun. cbn [mbind outcome_bind]. exists ((t, items) :: resolved). split; [done|].
  rewrite !btree_flat_cons, !fmap_app, <- !list_fmap_compose. split; [by rewrite Hflat|].
  intros t' item [Hin|Hin]%elem_of_app; [|by apply Hres].
  apply list_elem_of_fmap in Hin as (item' & [= -> ->] & Hin).
  destruct (Hit o item') as [Ho Hc].
  { rewrite btree_flat_cons. apply elem_of_app. left. apply list_elem_of_fmap. by exists item'. }
  split; [|done]. unfold first_term. by rewrite Ho.
Qed.
Lemma resolve_segment_ok ff seg (m : TermOrds) :
  ords_ok ff seg m →
  ∃ resolved, resolve_segment ff m = Ok resolved ∧ (btree_flat resolved).*2 = (btree_flat m).*2 ∧
    ∀ t item, (t, item) ∈ btree_flat resolved → term_item ff seg t item.
Proof.
  intros ([Hs Hn] & Hkeys & Hit).
  assert (∃ terms, Forall2 (λ o t, ord_to_str ff o = Some t) m.*1 terms) as [terms Hterms].
  { clear -Hkeys. induction m.*1 as [|o l IH]; [by exists []|]. destruct IH as [terms Ht].
    { intros o' Ho'. apply Hkeys. by right. }
    destruct (Hkeys o) as [t Hto]; [by left|]. exists (t :: terms). by constructor. }
  unfold resolve_segment. rewrite (sorted_ords_terms ff _ terms); [|by apply sorted_lt|done].
  by apply resolve_values.
Qed.

(** the documents with a text *)
Definition has_text sr (field : string) (doc : Score * DocAddr) : Prop := is_Some (doc_text sr field doc.2).
#[export] Instance has_text_dec sr field doc : Decision (has_text sr field doc).
Proof. unfold has_text. apply _. Defined.
(** an item that is returned with its term *)
Definition agg_item_ok sr (field : string) (it : AggItem * string) : Prop :=
  ctid_at sr it.1.2 = Some (ctid it.1.1) ∧ doc_text sr field it.1.2 = Some it.2.

Lemma collected_addr scores q seg doc : doc ∈ collected scores q seg → segment_ord doc.2 = seg.1.
Proof.
  unfold collected, matching, live_docs. destruct scores.
  - by intros (dp & -> & _)%list_elem_of_fmap.
  - by intros (doc' & -> & (dp & -> & _)%list_elem_of_fmap)%list_elem_of_fmap.
Qed.
Lemma collect_segment_ok scores field q (seg : Z * SegmentReader) ff :
  column_str seg.2 field = Some ff →
  (∀ doc, doc ∈ collected scores q seg → is_Some (ctid_column seg.2 (doc_id doc.2))) →
  ∃ m, collect_segment scores field q seg = Ok (ff, m) ∧ ords_ok ff seg.2 m ∧
    (item_doc ∘ snd <$> btree_flat m) ≡ₚ filter (has_term ff) (collected scores q seg).
Proof.
  intros Hff Hct. unfold collect_segment. rewrite Hff. cbn [expect_ok mbind outcome_bind].
  set (docs := if scores then _ else _).
  assert (collected scores q seg = (λ dp, (dp.2, {| segment_ord := seg.1; doc_id := dp.1 |})) <$> docs) as Hdocs.
  { unfold docs, collected, matching, live_docs. destruct scores; [done|]. by rewrite <- !list_fmap_compose. }
  destruct (collect_docs_ok ff seg.2 seg.1 docs []) as (m & Hrun & Hm & Hperm).
  - intros dp Hdp. apply (Hct (dp.2, {| segment_ord := seg.1; doc_id := dp.1 |})). rewrite Hdocs.
    apply list_elem_of_fmap. by exists dp.
  - split; [split; constructor|]. split; [by intros ? ?%not_elem_of_nil|by intros ? ? ?%not_elem_of_nil].
  - rewrite Hrun. exists m. split; [done|]. split; [done|]. by rewrite Hdocs.
Qed.

(** a segment's documents with a text, under their terms *)
Lemma segment_resolved sr scores field q (seg : Z * SegmentReader) :
  seg ∈ enumerate sr → is_Some (column_str seg.2 field) → Forall (has_ctid sr) (collected scores q seg) →
  ∃ ff m resolved, collect_segment scores field q seg = Ok (ff, m) ∧ resolve_segment ff m = Ok resolved ∧
    (item_doc ∘ snd <$> btree_flat resolved) ≡ₚ filter (has_text sr field) (collected scores q seg) ∧
    ∀ t item, (t, item) ∈ btree_flat resolved → agg_item_ok sr field (item, t).
Proof.
  destruct seg as [ord seg]. intros Hseg%znth_enumerate [ff Hff] Hct. cbn [snd] in Hff.
  assert (∀ doc, doc ∈ collected scores q (ord, seg) → znth sr (segment_ord doc.2) = Some seg) as Hat
    by (intros doc Hdoc; by rewrite (collected_addr _ _ _ _ Hdoc)).
  destruct (collect_segment_ok scores field q (ord, seg) ff Hff) as (m & Hrun & Hm & Hperm).
  { intros doc Hdoc. rewrite Forall_forall in Hct. destruct (Hct doc Hdoc) as [c Hc]. unfold ctid_at in Hc.
    rewrite (Hat doc Hdoc) in Hc. cbn in Hc |- *. by exists c. }
  destruct (resolve_segment_ok ff seg m Hm) as (resolved & Hres & Hflat & Hit).
  assert ((item_doc ∘ snd <$> btree_flat resolved) = (item_doc ∘ snd <$> btree_flat m)) as Heq
    by (by rewrite !list_fmap_compose, Hflat).
  assert (filter (has_text sr field) (collected scores q (ord, seg)) = filter (has_term ff) (collected scores q (ord, seg))) as Hfil.
  { apply filter_ext_in. intros doc Hdoc. unfold has_text, doc_text, has_term, first_term. rewrite (Hat doc Hdoc).
    cbn. rewrite Hff. cbn. split; [intros [t Ht]; destruct (head (term_ords ff _)); [done|discriminate Ht]|]. intros [o Ho]. rewrite Ho. cbn. by eapply head_term. }
  exists ff, m, resolved. split; [done|]. split; [done|]. split; [by rewrite Heq, Hfil|].
  intros t item Hin. destruct (Hit t item Hin) as [Ht Hc].
  assert (item_doc item ∈ collected scores q (ord, seg)) as Hdoc.
  { assert (item_doc item ∈ (item_doc ∘ snd <$> btree_flat resolved)) as H'
      by (apply list_elem_of_fmap; by exists (t, item)).
    rewrite Heq, Hperm in H'. by apply list_elem_of_filter in H' as [_ H']. }
  apply Hat in Hdoc. unfold agg_item_ok, ctid_at, doc_text. cbn [item_doc fst snd] in *. rewrite Hdoc. cbn.
  by rewrite Hff.
Qed.

(** *** The merged terms of all segments, and the iterator over them *)

Lemma merge_resolved_ok (resolved merged : list (string * list AggItem)) :
  btree_ok String.le merged →
  btree_ok String.le (merge_resolved resolved merged) ∧
  btree_flat (merge_resolved resolved merged) ≡ₚ btree_flat merged ++ btree_flat resolved.
Proof.
  unfold merge_resolved. intros Hm. assert (btree_flat (fx_order resolved) ≡ₚ btree_flat resolved) as <-.
  { unfold btree_flat. by rewrite (fx_order_perm resolved). }
  revert merged Hm. generalize (fx_order resolved) as rs. intros rs. induction rs as [|[t items] rs IH]; intros merged Hm; cbn [foldl].
  { by rewrite app_nil_r. }
  destruct (IH (entry_append String.le t items merged)) as [Hok Hflat]; [by apply (entry_append_ok String.le)|].
  split; [done|]. rewrite Hflat, (entry_append_flat String.le), btree_flat_cons. cbn [fst snd].
  rewrite <- app_assoc. apply Permutation_app_swap_app.
Qed.
Lemma merge_all_ok (rs : list (list (string * list AggItem))) merged :
  btree_ok String.le merged →
  let all := foldl (λ m r, merge_resolved r m) merged rs in
  btree_ok String.le all ∧ btree_flat all ≡ₚ btree_flat merged ++ concat (btree_flat <$> rs).
Proof.
  revert merged. induction rs as [|r rs IH]; intros merged Hm; cbn [foldl fmap list_fmap concat].
  { by rewrite app_nil_r. }
  destruct (merge_resolved_ok r merged Hm) as [Hm1 Hf1]. destruct (IH _ Hm1) as [Hok Hflat].
  split; [done|]. by rewrite Hflat, Hf1, app_assoc.
Qed.

(** the documents that are left, with their terms *)
Definition swap_item (ti : string * AggItem) : AggItem * string := (ti.2, ti.1).
Definition agg_items (r : StringAggResults) : list (AggItem * string) :=
  match r with
  | AggNone => []
  | Batched current set => swap_item <$> btree_flat (current :: set)
  | SingleSegmentAgg iter => iter
  end.
Lemma batched_next_ok current set :
  match swap_item <$> btree_flat (current :: set) with
  | [] => ∃ current' set', batched_next current set = (None, current', set') ∧ btree_flat (current' :: set') = []
  | it :: its => ∃ current' set', batched_next current set = (Some it, current', set') ∧
      swap_item <$> btree_flat (current' :: set') = its
  end.
Proof.
  revert current. induction set as [|next set IH]; intros [t [|item items]].
  - by exists (t, []), [].
  - by exists (t, items), [].
  - rewrite btree_flat_cons. cbn [fmap list_fmap app]. destruct next as [t' items']. exact (IH (t', items')).
  - by exists (t, items), (next :: set).
Qed.
Lemma agg_next_ok r :
  match agg_items r with
  | [] => ∃ r', agg_next r = (None, r') ∧ agg_items r' = []
  | it :: its => ∃ r', agg_next r = (Some it, r') ∧ agg_items r' = its
  end.
Proof.
  destruct r as [|current set|[|it its]]; cbn [agg_items agg_next].
  - by exists AggNone.
  - pose proof (batched_next_ok current set) as Hn. destruct (swap_item <$> _) as [|it its].
    + destruct Hn as (c' & s' & -> & Hf). exists (Batched c' s'). cbn [agg_items]. by rewrite Hf.
    + destruct Hn as (c' & s' & -> & Hf). by exists (Batched c' s').
  - by exists (SingleSegmentAgg []).
  - by exists (SingleSegmentAgg its).
Qed.

(** *** What the searches find *)

(** the documents of results, and their terms *)
Definition agg_docs (r : StringAggResults) : list (Score * DocAddr) := item_doc ∘ fst <$> agg_items r.
Definition agg_terms (r : StringAggResults) : list string := snd <$> agg_items r.

Lemma traverse_ok_Forall2 {A B} (f : A → outcome B) (P : A → B → Prop) l :
  (∀ a, a ∈ l → ∃ b, f a = Ok b ∧ P a b) → ∃ bs, traverse_ok f l = Ok bs ∧ Forall2 P l bs.
Proof.
  induction l as [|a l IH]; intros Hf; [by exists []|]. destruct (Hf a) as (b & Hb & HP); [by left|].
  destruct IH as (bs & Hbs & Hall); [intros; apply Hf; by right|]. exists (b :: bs). cbn [traverse_ok].
  rewrite Hb, Hbs. split; [done|by constructor].
Qed.

Section found.
Context (reader : SearchIndexReader) (input : SearchQueryInput) (q : Query) (p' : QueryParser) (field : string).
Hypothesis Hquery : into_tantivy_query input for_index = Ok (q, p').
Hypothesis Hcolumn : Forall (λ seg, is_Some (column_str seg field)) (searcher reader).
Variable scores : bool.
Hypothesis Hctids : Forall (λ seg, Forall (has_ctid (searcher reader)) (collected scores q seg)) (enumerate (searcher reader)).
Notation sr := (searcher reader).

(** what the collected documents with a text become *)
Definition resolves (seg : Z * SegmentReader) (fm : StrColumn * TermOrds) : Prop :=
  ∃ resolved, resolve_segment fm.1 fm.2 = Ok resolved ∧
    (item_doc ∘ snd <$> btree_flat resolved) ≡ₚ filter (has_text sr field) (collected scores q seg) ∧
    ∀ t item, (t, item) ∈ btree_flat resolved → agg_item_ok sr field (item, t).
Lemma collect_resolves seg : seg ∈ enumerate sr →
  ∃ fm, collect_segment scores field q seg = Ok fm ∧ resolves seg fm.
Proof.
  intros Hin. pose proof (proj1 (Forall_forall _ _) Hctids) as Hct. pose proof (proj1 (Forall_forall _ _) Hcolumn) as Hcol. destruct (segment_resolved sr scores field q seg Hin) as
    (ff & m & resolved & Hrun & Hres & Hperm & Hit).
  - apply Hcol. destruct seg as [ord seg]. apply znth_enumerate in Hin. unfold znth in Hin.
    destruct (0 <=? ord); [|done]. by apply list_elem_of_lookup_2 in Hin.
  - by apply Hct.
  - exists (ff, m). split; [done|]. by exists resolved.
Qed.

(** the documents of one segment, in the order of their terms' ordinals *)
Definition segment_docs (seg : Z * SegmentReader) : list (Score * DocAddr) :=
  match '(ff, m) ← collect_segment scores field q seg; resolve_segment ff m with
  | Ok resolved => item_doc ∘ snd <$> btree_flat resolved
  | _ => []
  end.
Lemma find_segment_in id seg : find_segment reader id = Ok seg → seg ∈ enumerate sr.
Proof.
  unfold find_segment. destruct (list_find _ _) as [[i s]|] eqn:Hf; [|done]. intros [= ->].
  apply list_find_Some in Hf as [Hf _]. by apply list_elem_of_lookup_2 in Hf.
Qed.
Lemma segment_docs_ok seg : seg ∈ enumerate sr →
  segment_docs seg ≡ₚ filter (has_text sr field) (collected scores q seg).
Proof.
  intros Hin. destruct (collect_resolves seg Hin) as ([ff m] & Hrun & resolved & Hres & Hperm & _).
  unfold segment_docs. rewrite Hrun. cbn [mbind outcome_bind fst snd] in Hres |- *. by rewrite Hres.
Qed.
Lemma string_agg_by_segment_ok id seg : find_segment reader id = Ok seg →
  ∃ r, string_agg_by_segment reader scores input field id = Ok r ∧
    agg_docs r = segment_docs seg ∧ Forall (agg_item_ok sr field) (agg_items r).
Proof.
  intros Hfind. destruct (collect_resolves seg (find_segment_in _ _ Hfind)) as ([ff m] & Hrun & resolved & Hres & Hperm & Hit).
  unfold string_agg_by_segment, segment_docs. rewrite Hfind, (reader_query_ok _ _ _ Hquery). cbn [mbind outcome_bind].
  rewrite Hrun. cbn [mbind outcome_bind fst snd] in Hres |- *. rewrite Hres. cbn [mbind outcome_bind].
  eexists. split; [done|].
  assert ((resolved ≫= λ tr : string * list AggItem, (λ item, (item, tr.1)) <$> tr.2) = swap_item <$> btree_flat resolved) as Heq.
  { clear. induction resolved as [|[t items] l IH]; [done|]. rewrite btree_flat_cons, fmap_app, <- IH, <- list_fmap_compose. done. }
  unfold agg_docs. cbn [agg_items]. rewrite Heq, <- list_fmap_compose. split; [done|].
  apply Forall_fmap, Forall_forall. intros [t item] Hti. by apply Hit.
Qed.

Lemma resolve_all segs fms : Forall2 resolves segs fms →
  ∃ rs, traverse_ok (λ fr : StrColumn * TermOrds, resolve_segment fr.1 fr.2) fms = Ok rs ∧
    (item_doc ∘ snd <$> concat (btree_flat <$> rs)) ≡ₚ filter (has_text sr field) (concat (collected scores q <$> segs)) ∧
    Forall (agg_item_ok sr field) (swap_item <$> concat (btree_flat <$> rs)).
Proof.
  induction 1 as [|seg fm segs fms (resolved & Hres & Hperm & Hit) _ (rs & Hrs & Hp & Hok)]; [by exists []|].
  exists (resolved :: rs). cbn [traverse_ok]. rewrite Hres, Hrs. split; [done|].
  cbn [fmap list_fmap concat]. rewrite filter_app, fmap_app, Hperm, Hp. split; [done|].
  change (Forall (agg_item_ok sr field) (swap_item <$> btree_flat resolved ++ concat (btree_flat <$> rs))).
  rewrite fmap_app. apply Forall_app. split; [|done].
  apply Forall_fmap, Forall_forall. intros [t item] Hti. by apply Hit.
Qed.
Lemma string_agg_ok :
  ∃ r, string_agg reader scores input field = Ok r ∧
    agg_docs r ≡ₚ filter (has_text sr field) (concat (collected scores q <$> enumerate sr)) ∧
    StronglySorted String.le (agg_terms r) ∧ Forall (agg_item_ok sr field) (agg_items r).
Proof.
  unfold string_agg. rewrite (reader_query_ok _ _ _ Hquery). cbn [mbind outcome_bind].
  destruct (traverse_ok_Forall2 _ _ _ collect_resolves) as (fms & -> & Hall). cbn [mbind outcome_bind].
  destruct (Permutation_Forall2 (symmetry (par_order_perm fms)) (proj2 (Forall2_flip _ _ _) Hall)) as (segs & Hsegs & Hall'%Forall2_flip).
  destruct (resolve_all _ _ Hall') as (rs & -> & Hperm & Hok). cbn [mbind outcome_bind].
  destruct (merge_all_ok rs []) as [Hbt Hflat]; [split; constructor|]. cbn [btree_flat mbind list_bind app] in Hflat.
  set (all := foldl _ _ _) in *. eexists. split; [done|].
  assert (agg_items (Batched ("", []) all) = swap_item <$> btree_flat all) as Heq by done.
  unfold agg_docs, agg_terms. rewrite Heq, <- !list_fmap_compose.
  split; [|split].
  - change (item_doc ∘ snd <$> btree_flat all ≡ₚ filter (has_text sr field) (concat (collected scores q <$> enumerate sr))).
    rewrite Hflat, Hperm. by rewrite Hsegs.
  - by apply (btree_flat_sorted String.le).
  - by rewrite Hflat.
Qed.
End found.
End agg_lemmas.

(** ** The methods as methods of a scan *)

Section methods.
Context `{RustF64} `{TantivyTypes} `{TantivyText} `{TantivyRegex} `{RustBuild}
  `{Chrono} `{!PgDates} `{AsFieldType} `{!TantivyParser} `{!TantivySearcher} `{TantivyIndex} `{!TantivyReader}
  `{PgHeap} `{!PgrxTypes} `{!TimeCrate} `{!PgDatums} `{PgTypes} `{!TantivyColumns} `{!SlotDatums}
  `{StringAggOrder} `{!ScoreZero}.
Variables (result_tupdesc : list PgOid) (rd_id : Z) (reader : SearchIndexReader) (which : list WhichFastField).
Notation sr := (searcher reader).
Implicit Types (doc : Score * DocAddr) (e : FastFieldExecState) (st : PdbScanState).

(** the values of a document's tuple, where [text_of] gives the buffer of strings *)
Definition tuple_of (c : Z) : SlotTuple := {| tts_tid := u64_to_item_pointer c; tts_tableOid := rd_id |}.
Definition columns_of (text_of : DocAddr → option string) (slot : list (option RowDatum)) doc : Prop :=
  ∃ c text, ctid_at sr doc.2 = Some c ∧ text_of doc.2 = Some text ∧
    slot_values sr which 0 result_tupdesc doc text (tuple_of c) = Ok slot.
(** every value of the document's tuple converts *)
Definition values_convert (text_of : DocAddr → option string) doc : Prop :=
  ∀ c text, ctid_at sr doc.2 = Some c → text_of doc.2 = Some text →
    ∃ slot, slot_values sr which 0 result_tupdesc doc text (tuple_of c) = Ok slot.

Definition ff_ok e : Prop :=
  which_fast_fields e = which ∧ helper_ok sr which (ffhelper e) ∧
  ((ff_blockvis e).2 = true → block_all_visible (ff_blockvis e).1 = true).
Lemma ff_init_ok st : search_reader st = Some reader → ff_ok (ff_init (ff_exec_new which) st).
Proof. intros Hrd. unfold ff_init. rewrite Hrd. split; [done|]. split; [apply with_fields_ok|done]. Qed.

Hypothesis Htext : ∀ j typid, result_tupdesc !! j = Some typid → text_is_string which j typid.

Lemma ff_emit_ok text_of e doc c text :
  ff_ok e → ctid_at sr doc.2 = Some c → text_of doc.2 = Some text → values_convert text_of doc →
  ∃ s e', ff_emit result_tupdesc rd_id {| ctid := c; bm25 := doc.1 |} doc.2 text e = Ok (s, text, e') ∧
    yields sr (columns_of text_of) s doc ∧ ff_ok e' ∧ ff_results e' = ff_results e ∧
    ff_did_query e' = ff_did_query e ∧ strbuf e' = strbuf e.
Proof.
  intros (Hw & Hh & Hb) Hc Ht Hconv. destruct (Hconv c text Hc Ht) as [slot Hslot].
  unfold ff_emit. cbn [ctid bm25]. fold (block_of c). set (e1 := if block_of c =? (ff_blockvis e).1 then e else set_ff_blockvis (block_of c, is_block_all_visible (block_of c)) e).
  assert (ff_ok e1 ∧ (ff_blockvis e1).1 = block_of c ∧ ff_results e1 = ff_results e ∧
    ff_did_query e1 = ff_did_query e ∧ strbuf e1 = strbuf e) as (Hok & Hblk & Hr & Hd & Hs).
  { unfold e1. destruct (Z.eqb_spec (block_of c) (ff_blockvis e).1) as [->|Hne]; [done|]. done. }
  destruct Hok as (Hw1 & Hh1 & Hb1). clearbody e1. destruct (ff_blockvis e1).2 eqn:Hvis.
  - unfold ff_virtual. cbn [ctid bm25]. rewrite Hw1. fold (tuple_of c).
    destruct (fill_slot_ok sr which (ffhelper e1) 0 result_tupdesc doc text (tuple_of c) slot Hh1 Htext Hslot)
      as (h' & -> & Hh'). cbn [mbind outcome_bind]. eexists _, _. split; [done|].
    split; [split; [by exists c, text|]; exists c; split; [done|]; rewrite <- Hblk; by apply Hb1|].
    split; [|done]. split; [done|]. split; [done|]. intros _. by apply Hb1.
  - eexists _, e1. split; [done|]. split; [done|]. split; [|done]. split; [done|]. split; [done|]. intros Hv. cbn in Hv. congruence.
Qed.

Variables (input : SearchQueryInput) (q : Query) (p' : QueryParser).
Hypothesis Hquery : into_tantivy_query input for_index = Ok (q, p').

(** *** The numeric method: its buffer stays empty *)

Definition no_text (addr : DocAddr) : option string := Some ""%string.
Definition numeric_ok (m : NumericFastFieldExecState) : Prop :=
  ff_ok (numeric_inner m) ∧ results_ok reader (ff_results (numeric_inner m)) ∧ strbuf (numeric_inner m) = ""%string.
Definition numeric_left (m : NumericFastFieldExecState) : list (Score * DocAddr) := left_docs (ff_results (numeric_inner m)).
Definition numeric_did (m : NumericFastFieldExecState) : bool := ff_did_query (numeric_inner m).
#[local] Instance NumericExec' : ExecMethod NumericFastFieldExecState := NumericExec result_tupdesc rd_id.

#[export] Instance numeric_driven :
  DrivenMethod reader input (columns_of no_text) numeric_ok numeric_left numeric_did (values_convert no_text) (matching q)
    (λ scores, all_matching q scores (enumerate sr)).
Proof.
  split; cbn [exec_query internal_next NumericExec' NumericExec].
  - intros m st (Hok & Hr & Hs) Hl. unfold numeric_internal_next. pose proof (next_results_ok reader _ Hr) as Hn.
    unfold numeric_left in *. rewrite Hl in Hn. destruct Hn as (r' & -> & Hr' & Hl'). cbn [mbind outcome_bind].
    by eexists.
  - intros m st doc docs (Hok & Hr & Hs) Hl [c Hc] Hconv. unfold numeric_internal_next.
    pose proof (next_results_ok reader _ Hr) as Hn. unfold numeric_left in *. rewrite Hl in Hn.
    destruct doc as [score addr]. destruct (Hn c Hc) as (r' & -> & Hr' & Hl'). cbn [mbind outcome_bind].
    set (e := set_ff r' _ _). assert (strbuf e = ""%string) as -> by done.
    destruct (ff_emit_ok no_text e (score, addr) c "" Hok Hc eq_refl Hconv) as (s & e' & Hrun & Hy & Hok' & Hre & Hd & Hsb).
    cbn [fst snd] in Hrun. rewrite Hrun. cbn [mbind outcome_bind]. eexists s, _. split; [done|]. split; [done|].
    cbn [numeric_inner]. unfold numeric_ok, numeric_did. cbn [numeric_inner set_strbuf ff_results strbuf ff_did_query].
    rewrite Hre, Hd. done.
  - intros m st ps segs seg [Hrd Hin] (Hok & Hr & Hs) Hps Hcl. unfold numeric_query. rewrite Hps.
    destruct (checkout_some reader ps segs seg Hcl) as (id & ps' & Hco & Hfind & Hcl').
    rewrite Hco. cbn [mbind outcome_bind search_reader set_parallel_state]. rewrite Hrd. cbn [expect_some mbind outcome_bind].
    destruct (search_segment_ok reader (need_scores st) id input q p' seg Hquery Hfind) as (r & Hse & Hwf & Hsr & Hleft).
    change (need_scores (set_parallel_state (Some ps') st)) with (need_scores st).
    change (search_query_input (set_parallel_state (Some ps') st)) with (search_query_input st).
    rewrite Hin, Hse. cbn [mbind outcome_bind]. eexists _, ps'. split; [done|]. split; [done|].
    split; [split; [done|]; split; [by split; [|left]|done]|]. by split.
  - intros m st ps (Hok & Hr & Hs) Hl Hps Hcl. unfold numeric_query. rewrite Hps, (checkout_none reader _ Hcl).
    cbn [mbind outcome_bind]. rewrite same_parallel_state by done. eexists. split; [done|].
    split; [split; [done|]; split; [by split; [|right]|done]|]. by split.
  - intros m st Hps Hd. unfold numeric_query. unfold numeric_did in Hd. by rewrite Hps, Hd.
  - intros m st [Hrd Hin] (Hok & Hr & Hs) Hps Hd. unfold numeric_query. unfold numeric_did in Hd. rewrite Hps, Hd, Hrd.
    cbn [expect_some mbind outcome_bind]. rewrite Hin.
    destruct (search_ok reader (need_scores st) input q p' Hquery) as (r & Hse & Hwf & Hsr & Hleft).
    rewrite Hse. cbn [mbind outcome_bind]. eexists. split; [done|].
    split; [split; [done|]; split; [by split; [|left]|done]|]. by split.
Qed.

(** *** The string method: its results are grouped by the terms of its field *)

Section string.
Variable field : string.
Hypothesis Hcolumn : Forall (λ seg, is_Some (column_str seg field)) sr.
Hypothesis Hctids : ∀ scores, Forall (λ seg, Forall (has_ctid sr) (collected scores q seg)) (enumerate sr).

Definition string_ok (m : StringFastFieldExecState) : Prop :=
  ff_ok (string_inner m) ∧ agg_field m = field ∧ Forall (agg_item_ok sr field) (agg_items (agg_results m)).
Definition string_left (m : StringFastFieldExecState) : list (Score * DocAddr) := agg_docs (agg_results m).
Definition string_did (m : StringFastFieldExecState) : bool := ff_did_query (string_inner m).
(** the documents of a query of all segments *)
Definition agg_all (scores : bool) : list (Score * DocAddr) :=
  match string_agg reader scores input field with Ok r => agg_docs r | _ => [] end.
#[local] Instance StringExec' : ExecMethod StringFastFieldExecState := StringExec result_tupdesc rd_id.

Lemma string_next_none m st : string_left m = [] →
  ∃ r, string_internal_next result_tupdesc rd_id m st =
      Ok (Eof, {| string_inner := string_inner m; agg_results := r; agg_field := agg_field m |}, st) ∧ agg_items r = [].
Proof.
  unfold string_left, agg_docs, string_internal_next. intros Hl%fmap_nil_inv. pose proof (agg_next_ok (agg_results m)) as Hn.
  rewrite Hl in Hn. destruct Hn as (r' & Hn & Hr'). destruct m as [e r f]. cbn [agg_results string_inner agg_field] in *.
  destruct r as [|c s|it]; [by exists AggNone|..]; rewrite Hn; by exists r'.
Qed.
Lemma string_next_some m st it its : agg_items (agg_results m) = it :: its →
  ∃ r, agg_items r = its ∧ string_internal_next result_tupdesc rd_id m st =
    ('(s, _, e) ← ff_emit result_tupdesc rd_id it.1.1 it.1.2 it.2 (string_inner m);
     Ok (s, {| string_inner := e; agg_results := r; agg_field := agg_field m |}, st)).
Proof.
  intros Hit. pose proof (agg_next_ok (agg_results m)) as Hn. rewrite Hit in Hn. destruct Hn as (r' & Hn & Hr').
  exists r'. split; [done|]. unfold string_internal_next. destruct m as [e r f]. cbn [agg_results string_inner agg_field] in *.
  destruct r as [|c s|l]; [done|..]; rewrite Hn; by destruct it as [[scored addr] term].
Qed.

#[export] Instance string_driven :
  DrivenMethod reader input (columns_of (doc_text sr field)) string_ok string_left string_did
    (values_convert (doc_text sr field)) (λ scores, segment_docs q field scores) agg_all.
Proof.
  split; cbn [exec_query internal_next StringExec' StringExec].
  - intros m st (Hok & Hf & Hit) Hl. destruct (string_next_none m st Hl) as (r & Hrun & Hr). eexists. split; [exact Hrun|].
    unfold string_ok, string_left, string_did, agg_docs. cbn [string_inner agg_results agg_field]. by rewrite Hr.
  - intros m st doc docs (Hok & Hf & Hit) Hl _ Hconv. unfold string_left, agg_docs in Hl.
    destruct (agg_items (agg_results m)) as [|it its] eqn:Hits; [done|]. injection Hl as <- <-.
    apply Forall_cons in Hit as [[Hc Ht] Hits']. destruct (string_next_some m st it its Hits) as (r & Hr & ->).
    destruct it as [[[c score] addr] term]. cbn [fst snd ctid] in Hc, Ht |- *.
    destruct (ff_emit_ok (doc_text sr field) (string_inner m) (score, addr) c term Hok Hc Ht Hconv)
      as (s & e' & Hrun & Hy & Hok' & _ & Hd & _). cbn [fst snd] in Hrun. rewrite Hrun. cbn [mbind outcome_bind].
    eexists s, _. split; [done|]. split; [done|]. unfold string_left, string_ok, string_did, agg_docs.
    cbn [agg_results string_inner agg_field]. by rewrite Hr.
  - intros m st ps segs seg [Hrd Hin] (Hok & Hf & Hit) Hps Hcl. unfold string_query. rewrite Hps.
    destruct (checkout_some reader ps segs seg Hcl) as (id & ps' & Hco & Hfind & Hcl').
    rewrite Hco. cbn [mbind outcome_bind search_reader set_parallel_state]. rewrite Hrd. cbn [expect_some mbind outcome_bind].
    destruct (string_agg_by_segment_ok reader input q p' field Hquery Hcolumn (need_scores st) (Hctids _) id seg Hfind)
      as (r & Hr & Hdocs & Hok').
    change (need_scores (set_parallel_state (Some ps') st)) with (need_scores st).
    change (search_query_input (set_parallel_state (Some ps') st)) with (search_query_input st).
    rewrite Hin, Hf, Hr. cbn [mbind outcome_bind]. eexists _, ps'. split; [done|]. split; [done|].
    split; [by split|]. by split.
  - intros m st ps (Hok & Hf & Hit) Hl Hps Hcl. unfold string_query. rewrite Hps, (checkout_none reader _ Hcl).
    cbn [mbind outcome_bind]. rewrite same_parallel_state by done. eexists. split; [done|]. by split.
  - intros m st Hps Hd. unfold string_query. unfold string_did in Hd. by rewrite Hps, Hd.
  - intros m st [Hrd Hin] (Hok & Hf & Hit) Hps Hd. unfold string_query. unfold string_did in Hd. rewrite Hps, Hd, Hrd.
    cbn [expect_some mbind outcome_bind]. rewrite Hin, Hf. unfold agg_all.
    destruct (string_agg_ok reader input q p' field Hquery Hcolumn (need_scores st) (Hctids _)) as (r & Hr & _ & _ & Hok').
    rewrite Hr. cbn [mbind outcome_bind]. eexists. split; [done|]. split; [by split|]. by split.
Qed.
End string.
End methods.

(** the text of a document is the term it is grouped by *)
Lemma agg_terms_ok `{RustF64} `{TantivyTypes} `{!TantivyParser} `{TantivyIndex} `{!TantivyReader} `{!TantivyColumns}
    (sr : list SegmentReader) (field : string) (items : list (SearchIndexScore * DocAddr * string)) :
  Forall (agg_item_ok sr field) items →
  Forall2 (λ doc t, doc_text sr field doc.2 = Some t) (item_doc ∘ fst <$> items) items.*2.
Proof. induction 1 as [|it items [_ Ht] _ IH]; [constructor|]. by constructor. Qed.
Lemma claims_in `{RustF64} `{TantivyTypes} `{!TantivyParser} `{TantivyIndex} `{!TantivyReader}
    (reader : SearchIndexReader) ps segs seg : claims reader ps segs → seg ∈ segs → seg ∈ enumerate (searcher reader).
Proof.
  intros [_ Hids] (i & Hi)%list_elem_of_lookup. destruct (Hids i seg Hi) as (id & _ & Hf). by eapply find_segment_in.
Qed.

(** C25: A custom scan with the numeric fast field method ends and returns, in order,
    one row for each live matching document whose tuple the snapshot sees, and no other:
    either the heap tuple, or, only when its block is all visible, a virtual tuple whose
    values are those of the document's own columns, with its address, its table and its
    score. This needs that the values of every matching document convert to their
    columns' types and that no column read as a number is of a text type. *)
Theorem numeric_scan_returns_columns `{RustF64} `{TantivyTypes} `{TantivyText} `{TantivyRegex} `{RustBuild}
    `{Chrono} `{!PgDates} `{AsFieldType} `{!TantivyParser} `{!TantivySearcher} `{TantivyIndex} `{!TantivyReader}
    `{PgHeap} `{!PgrxTypes} `{!TimeCrate} `{!PgDatums} `{PgTypes} `{!TantivyColumns} `{!SlotDatums}
    `{StringAggOrder} `{!ScoreZero}
    (result_tupdesc : list PgOid) (rd_id : Z) (reader : SearchIndexReader) (which : list WhichFastField)
    (st : PdbScanState) q p' segs calls :
  (∀ j typid, result_tupdesc !! j = Some typid → text_is_string which j typid) →
  into_tantivy_query (search_query_input st) for_index = Ok (q, p') →
  search_reader st = Some reader →
  match parallel_state st with
  | None => segs = enumerate (searcher reader)
  | Some ps => claims reader ps segs
  end →
  let docs := all_matching q (need_scores st) segs in
  Forall (has_ctid (searcher reader)) docs → Forall (map_sound (searcher reader)) docs →
  Forall (values_convert result_tupdesc rd_id reader which no_text) docs →
  (length docs < calls)%nat →
  let method := NumericExec result_tupdesc rd_id in
  ∃ rows e' st',
    scan_rows calls calls (length segs + 2) (exec_init {| numeric_inner := ff_exec_new which |} st) st = Ok (rows, e', st') ∧
    Forall2 (row_for (searcher reader) (columns_of result_tupdesc rd_id reader which no_text) (need_scores st))
      rows (filter (seen (searcher reader)) docs).
Proof.
  intros Htext Hq Hrd Hsegs docs Hct Hvm Hconv Hcalls method.
  pose proof (numeric_driven result_tupdesc rd_id reader which Htext (search_query_input st) q p' Hq) as Hdriven.
  pose proof (driven_ok reader (search_query_input st) _ _ _ _ _ _ _ (length segs + 2)) as Hmethod.
  destruct (scan_rows_visible (searcher reader) _ (length segs + 2) _ _ docs calls calls
    (exec_init {| numeric_inner := ff_exec_new which |} st) st) as (rows & e' & st' & Hrun & Hall & _); try done.
  - split; [done|]. split; [split; [by apply ff_init_ok|]; split; [by split; [|right]|]|].
    + cbn. unfold ff_init. by destruct (search_reader st).
    + split; [done|]. destruct (parallel_state st) as [ps|].
      * exists segs. split; [done|]. split; [lia|]. unfold numeric_left. cbn. unfold ff_init. by destruct (search_reader st).
      * unfold numeric_did, numeric_left. cbn. split; [lia|]. unfold docs. by rewrite Hsegs.
  - by exists rows, e', st'.
Qed.

(** C26: A custom scan with the string fast field method returns exactly the visible
    documents that have a term in its field, each once with its own term, sorted by the
    terms across all segments when it is not parallel, in whatever order segments merge;
    a matching and visible document whose text is null is never returned. *)
Theorem string_scan_drops_nulls `{RustF64} `{TantivyTypes} `{TantivyText} `{TantivyRegex} `{RustBuild}
    `{Chrono} `{!PgDates} `{AsFieldType} `{!TantivyParser} `{!TantivySearcher} `{TantivyIndex} `{!TantivyReader}
    `{PgHeap} `{!PgrxTypes} `{!TimeCrate} `{!PgDatums} `{PgTypes} `{!TantivyColumns} `{!SlotDatums}
    `{StringAggOrder} `{!ScoreZero}
    (result_tupdesc : list PgOid) (rd_id : Z) (reader : SearchIndexReader) (which : list WhichFastField) (field : string)
    (st : PdbScanState) q p' segs calls :
  (∀ j typid, result_tupdesc !! j = Some typid → text_is_string which j typid) →
  into_tantivy_query (search_query_input st) for_index = Ok (q, p') →
  search_reader st = Some reader →
  match parallel_state st with
  | None => segs = enumerate (searcher reader)
  | Some ps => claims reader ps segs
  end →
  Forall (λ seg, is_Some (column_str seg field)) (searcher reader) →
  (∀ scores, Forall (λ seg, Forall (has_ctid (searcher reader)) (collected scores q seg)) (enumerate (searcher reader))) →
  let found := concat (collected (need_scores st) q <$> segs) in
  let text := doc_text (searcher reader) field in
  Forall (map_sound (searcher reader)) found → Forall (values_convert result_tupdesc rd_id reader which text) found →
  (length found < calls)%nat →
  let method := StringExec result_tupdesc rd_id in
  ∃ docs rows e' st',
    docs ≡ₚ filter (has_text (searcher reader) field) found ∧
    (parallel_state st = None →
       ∃ terms, Forall2 (λ doc t, text doc.2 = Some t) docs terms ∧ StronglySorted String.le terms) ∧
    scan_rows calls calls (length segs + 2) (exec_init (string_new field which) st) st = Ok (rows, e', st') ∧
    Forall2 (row_for (searcher reader) (columns_of result_tupdesc rd_id reader which text) (need_scores st))
      rows (filter (seen (searcher reader)) docs).
Proof.
  intros Htext Hq Hrd Hsegs Hcol Hcts found text Hvm Hconv Hcalls method.
  pose proof (string_driven result_tupdesc rd_id reader which Htext (search_query_input st) q p' Hq field Hcol Hcts) as Hdriven.
  pose proof (driven_ok reader (search_query_input st) _ _ _ _ _ _ _ (length segs + 2)) as Hmethod.
  set (docs := match parallel_state st with
               | None => agg_all reader (search_query_input st) field (need_scores st)
               | Some _ => batches (λ scores, segment_docs q field scores) (need_scores st) segs
               end).
  assert (∀ seg, seg ∈ segs → seg ∈ enumerate (searcher reader)) as Hin.
  { intros seg Hseg. destruct (parallel_state st) as [ps|]; [by eapply claims_in|by subst segs]. }
  destruct (string_agg_ok reader (search_query_input st) q p' field Hq Hcol (need_scores st) (Hcts _))
    as (r & Hr & Hperm & Hsorted & Hitems).
  assert (docs ≡ₚ filter (has_text (searcher reader) field) found) as Hdocs.
  { unfold docs. destruct (parallel_state st) as [ps|].
    - unfold batches, found. rewrite (reverse_Permutation segs). clear -Hin Hq Hcol Hcts.
      induction segs as [|seg segs IH]; [done|]. cbn [fmap list_fmap concat]. rewrite filter_app. f_equiv.
      + apply (segment_docs_ok reader q field Hcol _ (Hcts _)), Hin. by left.
      + apply IH. intros s Hs. apply Hin. by right.
    - unfold agg_all. rewrite Hr. by subst segs. }
  assert (∀ P : Score * DocAddr → Prop, Forall P found → Forall P docs) as Hsub.
  { intros P HP. rewrite Hdocs. apply Forall_forall. intros doc [_ Hd]%list_elem_of_filter.
    by apply (proj1 (Forall_forall _ _) HP). }
  exists docs.
  destruct (scan_rows_visible (searcher reader) _ (length segs + 2) _ _ docs calls calls
    (exec_init (string_new field which) st) st) as (rows & e' & st' & Hrun & Hall & _); try done.
  - rewrite Hdocs. pose proof (length_filter (has_text (searcher reader) field) found). lia.
  - rewrite Hdocs. pose proof (length_filter (has_text (searcher reader) field) found). lia.
  - split; [done|]. split; [split; [by apply ff_init_ok|done]|].
    split; [by apply Hsub|]. unfold docs. destruct (parallel_state st) as [ps|].
    + exists segs. split; [done|]. split; [lia|done].
    + cbn. split; [lia|done].
  - apply Hsub. apply Forall_concat, Forall_fmap, Forall_forall. intros seg Hseg.
    apply (proj1 (Forall_forall _ _) (Hcts (need_scores st))), Hin, Hseg.
  - by apply Hsub.
  - exists rows, e', st'. split; [done|]. split; [|done]. intros Hps. exists (agg_terms r). split; [|done].
    unfold docs. rewrite Hps. unfold agg_all. rewrite Hr. by apply agg_terms_ok.
Qed.
