(* ===== verification/Operator.v ===== *)
(** * Operator: the [@@@] operator

    [api/operator.rs], [api/operator/text.rs] and [api/operator/searchqueryinput.rs]: the
    planner's support functions, which rewrite every use of the operator to one of the
    key field with a query that names its index, and the function that evaluates it
    outside of an index scan. *)

From S2P Require Import Prelude Page Block PgUtils TokenizerConfig Query CustomScan Schema Rows Reader Parallel ScanExec FastFields.

Open Scope Z_scope.

(** ** [search_with_query_input]: the operator evaluated for one tuple *)

Section evaluate.
Context `{RustF64} `{TantivyTypes} `{TantivyText} `{TantivyRegex} `{RustBuild}
  `{Chrono} `{!PgDates} `{AsFieldType} `{!TantivyParser} `{!TantivySearcher} `{TantivyIndex} `{!TantivyReader}
  `{!PgrxTypes} `{!TimeCrate} `{!PgDatums} `{PgTypes} `{!TantivyColumns} `{TantivySchema}.
(** [PgRelation::with_lock] and [SearchIndexReader::open]: the reader of an index, and its schema *)
Context (open_index : Z → SearchIndexReader * SearchIndexSchema).
Notation FFHelper := (list (list (SegmentReader * string * option FFType))).

(** [FxHashSet<TantivyValue>], as the values that were inserted: [Hash] refuses some, and an empty set hashes
    nothing; that equal ones are kept once does not show *)
Definition hashable (v : OwnedValue) : bool :=
  match v with OStr _ | OU64 _ | OI64 _ | OF64 _ | OBool _ | ODate _ | OBytes _ => true | _ => false end.
Definition hs_insert (v : OwnedValue) (hs : list OwnedValue) : outcome (list OwnedValue) :=
  if hashable v then Ok (v :: hs)
  else Panic "tantivy owned value not supported".
Definition hs_contains (v : OwnedValue) (hs : list OwnedValue) : outcome bool :=
  match hs with
  | [] => Ok false
  | _ => if hashable v then Ok (existsb (owned_eq v) hs) else Panic "tantivy owned value not supported"
  end.

(** [for (_, doc_address) in top_docs] *)
Fixpoint collect_keys (fuel : nat) (top_docs : SearchResults) (fast_fields : FFHelper) (hs : list OwnedValue)
    : outcome (list OwnedValue) :=
  match fuel with
  | O => NoFuel
  | S fuel =>
      '(item, top_docs) ← next top_docs;
      match item with
      | None => Ok hs
      | Some (_, doc_address) =>
          '(value, fast_fields) ← ffh_value fast_fields 0 doc_address;
          hs ← hs_insert value hs;
          collect_keys fuel top_docs fast_fields hs
      end
  end.
Definition default_hash_set (query : SearchQueryInput) : outcome (string * list OwnedValue) :=
  index_oid ← match query with
    | Input.WithIndex oid _ => Ok oid
    | _ => Panic "the SearchQueryInput must be wrapped in a WithIndex variant"
    end;
  let '(search_reader, schema) := open_index index_oid in
  key_field ← schema_key_field schema;
  let key_field_name := sf_name key_field in
  let key_field_type := fast_field_type_from (sf_type key_field) in
  let fast_fields := ff_with_fields (searcher search_reader) [which_from (key_field_name, key_field_type)] in
  top_docs ← search search_reader (contains_more_like_this query) query;
  hs ← collect_keys (S (Z.to_nat (count top_docs))) top_docs fast_fields [];
  Ok (key_field_name, hs).

(** the set is made by the first call and kept in [fcinfo] for the others *)
Definition search_with_query_input (element : RowDatum) (oid : PgOid) (query : SearchQueryInput)
    (fcinfo : option (string * list OwnedValue)) : outcome (bool * option (string * list OwnedValue)) :=
  cached ← match fcinfo with Some cached => Ok cached | None => default_hash_set query end;
  key_field_value ← expect_res (try_from_datum element oid) "no value present in key_field {} in tuple: {err}";
  b ← hs_contains key_field_value (snd cached);
  Ok (b, Some cached).
(** a sequential scan that filters by the operator, whose key column has the type [oid] *)
Fixpoint filter_tuples (elements : list RowDatum) (oid : PgOid) (query : SearchQueryInput)
    (fcinfo : option (string * list OwnedValue)) : outcome (list bool) :=
  match elements with
  | [] => Ok []
  | element :: elements =>
      '(b, fcinfo) ← search_with_query_input element oid query fcinfo;
      bs ← filter_tuples elements oid query fcinfo;
      Ok (b :: bs)
  end.
End evaluate.

Section evaluate_lemmas.
Context `{RustF64} `{TantivyTypes} `{TantivyText} `{TantivyRegex} `{RustBuild}
  `{Chrono} `{!PgDates} `{AsFieldType} `{!TantivyParser} `{!TantivySearcher} `{TantivyIndex} `{!TantivyReader}
  `{!PgrxTypes} `{!TimeCrate} `{!PgDatums} `{PgTypes} `{!TantivyColumns}.
Variables (reader : SearchIndexReader) (which : WhichFastField).
Notation sr := (searcher reader).

(** the key of a document, as its segment's column has it *)
Definition key_at (doc : Score * DocAddr) : outcome OwnedValue :=
  ff ← ff_at sr [which] 0 doc.2; ff_value ff (doc_id doc.2).
Definition key_ok (doc : Score * DocAddr) : Prop :=
  has_ctid sr doc ∧ ∃ k, key_at doc = Ok k ∧ hashable k = true.

Lemma collect_keys_ok fuel r h hs :
  results_ok reader r → helper_ok sr [which] h → Forall key_ok (left_docs r) → (length (left_docs r) < fuel)%nat →
  ∃ hs', collect_keys fuel r h hs = Ok hs' ∧
    ∀ v, v ∈ hs' ↔ v ∈ hs ∨ ∃ doc, doc ∈ left_docs r ∧ key_at doc = Ok v.
Proof.
  revert r h hs. induction fuel as [|fuel IH]; intros r h hs Hr Hh Hkeys Hf; [lia|]. cbn [collect_keys].
  pose proof (next_results_ok reader r Hr) as Hn. destruct (left_docs r) as [|[score addr] docs] eqn:Hl.
  - destruct Hn as (r' & -> & _ & _). cbn. exists hs. split; [done|]. intros v. split; [by left|].
    by intros [?|(doc & ?%not_elem_of_nil & _)].
  - apply Forall_cons in Hkeys as [([c Hc] & k & Hk & Hhash) Hkeys]. destruct (Hn c Hc) as (r' & -> & Hr' & Hl').
    cbn [mbind outcome_bind]. pose proof Hk as Hk'. unfold key_at in Hk'.
    apply obind_inv in Hk' as (ff & Hff & Hv). destruct (get_or_init_ok sr [which] h 0 addr ff Hh Hff) as (h' & Hget & Hh').
    unfold ffh_value. rewrite Hget. cbn [mbind outcome_bind]. cbn [snd] in Hv. rewrite Hv. cbn [mbind outcome_bind].
    unfold hs_insert. rewrite Hhash. cbn [mbind outcome_bind].
    destruct (IH r' h' (k :: hs) Hr' Hh') as (hs' & Hrun & Hin); [by rewrite Hl'|rewrite Hl'; simpl in Hf; lia|].
    exists hs'. split; [done|]. intros v. rewrite Hin, Hl', elem_of_cons. split.
    + intros [[->|?]|(doc & Hd & Hkd)]; [right; exists (score, addr); by split; [left|]|by left|].
      right. exists doc. by split; [right|].
    + intros [?|(doc & [->|Hd]%elem_of_cons & Hkd)]; [by left; right|left; left|right; by exists doc].
      rewrite Hk in Hkd. by injection Hkd.
Qed.
Lemma hs_contains_ok v hs : hashable v = true →
  ∃ b, hs_contains v hs = Ok b ∧ (b = true ↔ ∃ w, w ∈ hs ∧ owned_eq v w = true).
Proof.
  intros Hv. assert (hs_contains v hs = Ok (existsb (owned_eq v) hs)) as Hc.
  { unfold hs_contains. rewrite Hv. by destruct hs. }
  eexists. split; [exact Hc|]. rewrite existsb_exists. by setoid_rewrite list_elem_of_In.
Qed.

(** a call that finds or makes the set [cached] answers from it and keeps it *)
Lemma search_with_set `{TantivySchema} open_index element oid query fcinfo cached key :
  match fcinfo with Some cached => Ok cached | None => default_hash_set open_index query end = Ok cached →
  try_from_datum element oid = Ok key → hashable key = true →
  ∃ b, search_with_query_input open_index element oid query fcinfo = Ok (b, Some cached) ∧
    (b = true ↔ ∃ w, w ∈ cached.2 ∧ owned_eq key w = true).
Proof.
  intros Hset Hkey Hhash. destruct (hs_contains_ok key cached.2 Hhash) as (b & Hb & Hiff).
  exists b. split; [|done]. unfold search_with_query_input. rewrite Hset. cbn [mbind outcome_bind].
  rewrite Hkey. cbn [expect_res mbind outcome_bind]. by rewrite Hb.
Qed.
Lemma default_hash_set_ok `{TantivySchema} open_index index_oid query schema key_field q p' :
  open_index index_oid = (reader, schema) → schema_key_field schema = Ok key_field →
  which = which_from (sf_name key_field, fast_field_type_from (sf_type key_field)) →
  into_tantivy_query (Input.WithIndex index_oid query) for_index = Ok (q, p') →
  let docs := all_matching q (contains_more_like_this query) (enumerate sr) in
  Forall key_ok docs →
  ∃ hs, default_hash_set open_index (Input.WithIndex index_oid query) = Ok (sf_name key_field, hs) ∧
    ∀ v, v ∈ hs ↔ ∃ doc, doc ∈ docs ∧ key_at doc = Ok v.
Proof.
  intros Hopen Hkf Hwhich Hq docs Hdocs. set (input := Input.WithIndex index_oid query) in *.
  destruct (search_ok reader (contains_more_like_this query) input q p' Hq) as (r & Hsearch & Hwf & Hsr & Hleft).
  destruct (collect_keys_ok (S (Z.to_nat (count r))) r (ff_with_fields sr [which]) []) as (hs & Hcollect & Hin).
  { split; [done|by left]. }
  { apply with_fields_ok. }
  { by rewrite Hleft. }
  { rewrite count_left. unfold zlen. lia. }
  exists hs. split.
  - unfold default_hash_set. cbn [mbind outcome_bind input]. rewrite Hopen, Hkf. cbn [mbind outcome_bind].
    change (contains_more_like_this input) with (contains_more_like_this query). rewrite Hsearch. cbn [mbind outcome_bind].
    rewrite <- Hwhich. by rewrite Hcollect.
  - intros v. rewrite Hin, Hleft. split; [intros [?%not_elem_of_nil|?]; done|by right].
Qed.
End evaluate_lemmas.

(** C18: Outside of an index scan the operator's first call searches the index and
    leaves the set of keys to the later ones, which answer from it whatever their query
    and the index are by then. It is true for a tuple exactly when its key equals the
    key column of some live matching document that the first call found; no document's
    own tuple is looked at, so the key of an old version of a row that matches is
    enough. *)
Theorem seqscan_operator_by_key `{RustF64} `{TantivyTypes} `{TantivyText} `{TantivyRegex} `{RustBuild}
    `{Chrono} `{!PgDates} `{AsFieldType} `{!TantivyParser} `{!TantivySearcher} `{TantivyIndex} `{!TantivyReader}
    `{!PgrxTypes} `{!TimeCrate} `{!PgDatums} `{PgTypes} `{!TantivyColumns} `{TantivySchema}
    (open_index : Z → SearchIndexReader * SearchIndexSchema) (index_oid : Z) (query : SearchQueryInput)
    (reader : SearchIndexReader) (schema : SearchIndexSchema) (key_field : SearchField) q p' (oid : PgOid) :
  open_index index_oid = (reader, schema) → schema_key_field schema = Ok key_field →
  let which := which_from (sf_name key_field, fast_field_type_from (sf_type key_field)) in
  let input := Input.WithIndex index_oid query in
  into_tantivy_query input for_index = Ok (q, p') →
  let docs := all_matching q (contains_more_like_this query) (enumerate (searcher reader)) in
  Forall (key_ok reader which) docs →
  let answers (b : bool) key := b = true ↔
    ∃ doc k, doc ∈ docs ∧ key_at reader which doc = Ok k ∧ owned_eq key k = true in
  ∃ cached,
    (∀ element key, try_from_datum element oid = Ok key → hashable key = true →
     ∃ b, search_with_query_input open_index element oid input None = Ok (b, Some cached) ∧ answers b key) ∧
    (∀ open_index' query' element key, try_from_datum element oid = Ok key → hashable key = true →
     ∃ b, search_with_query_input open_index' element oid query' (Some cached) = Ok (b, Some cached) ∧ answers b key) ∧
    ∀ elements keys,
      Forall2 (λ element key, try_from_datum element oid = Ok key ∧ hashable key = true) elements keys →
      ∃ results, filter_tuples open_index elements oid input None = Ok results ∧ Forall2 answers results keys.
Proof.
  intros Hopen Hkf which input Hq docs Hdocs answers.
  destruct (default_hash_set_ok reader which open_index index_oid query schema key_field q p') as (hs & Hset & Hin); [done..|].
  set (cached := (sf_name key_field, hs)).
  assert (∀ open_index' query' fcinfo element key,
    match fcinfo with Some cached => Ok cached | None => default_hash_set open_index' query' end = Ok cached →
    try_from_datum element oid = Ok key → hashable key = true →
    ∃ b, search_with_query_input open_index' element oid query' fcinfo = Ok (b, Some cached) ∧ answers b key) as Hcall.
  { intros open_index' query' fcinfo element key Hc Hkey Hhash.
    destruct (search_with_set open_index' element oid query' fcinfo cached key Hc Hkey Hhash) as (b & Hb & Hiff).
    exists b. split; [done|]. unfold answers. rewrite Hiff. cbn [snd cached]. setoid_rewrite Hin. split.
    - intros (w & (doc & Hd & Hk) & He). by exists doc, w.
    - intros (doc & k & Hd & Hk & He). exists k. split; [by exists doc|done]. }
  exists cached. split; [by intros; apply Hcall|]. split; [by intros; apply Hcall|]. intros elements keys Hkeys.
  assert (∀ fcinfo, match fcinfo with Some cached => Ok cached | None => default_hash_set open_index input end = Ok cached →
    ∃ results, filter_tuples open_index elements oid input fcinfo = Ok results ∧ Forall2 answers results keys) as Hall; [|by apply Hall].
  induction Hkeys as [|element key elements keys [Hkey Hhash] _ IH]; intros fcinfo Hfc; [by exists []|].
  destruct (Hcall open_index input fcinfo element key Hfc Hkey Hhash) as (b & Hb & Hans).
  destruct (IH (Some cached) eq_refl) as (results & Hrun & Hres).
  exists (b :: results). cbn [filter_tuples]. rewrite Hb. cbn [mbind outcome_bind]. rewrite Hrun. split; [done|by constructor].
Qed.

(** ** The planner's view: range tables and target lists *)

Record TargetItem := { te_resorigtbl : Z; te_resorigcol : Z }.
(** the query of a CTE: its RETURNING list, empty when there is none, and its target list *)
Inductive CteQuery := CteOf (returningList targetList : list TargetItem) | CteNoQuery.
Inductive RangeTblEntry :=
  | RTE_RELATION (relid : Z)
  | RTE_SUBQUERY (targetList : list TargetItem)
  | RTE_CTE (ctename : string) (ctelevelsup : nat)
  | RTE_OTHER (rtekind : Z).
Inductive PlannerInfo := {
  rtable : list RangeTblEntry;
  cteList : list (string * CteQuery);
  parent_root : option PlannerInfo
}.

(** an index of a table: its key columns, and the type, typmod and collation of its attributes *)
Record IndexRel := {
  irel_oid : Z;
  irel_isvalid : bool;
  irel_is_bm25 : bool;
  irel_indkey : list Z;
  irel_atts : list (PgOid * Z * Z)
}.
(** the names of a relation's columns, and its indexes; [None] is the error that it cannot be opened *)
Class PgCatalog := {
  relation_open : Z → option (list string);
  relation_indices : Z → list IndexRel
}.
(** the oids of the operators and their functions *)
Class OperatorOids := {
  anyelement_query_input_opoid : Z;
  anyelement_query_input_procoid : Z;
  anyelement_text_opoid : Z;
  anyelement_text_procoid : Z;
  opoids_differ : anyelement_query_input_opoid ≠ anyelement_text_opoid
}.
(** a datum of a text, and of a query *)
Class QueryDatum `{PgDatum} := {
  text_from_datum : Datum → bool → option string;
  query_into_datum : SearchQueryInput → Datum;
  query_from_into q : search_query_input_from_datum (query_into_datum q) false = Some q
}.

Record VarNode := { vn_var : Var; vartype : PgOid; vartypmod : Z; varcollid : Z }.

Section rewrite.
Context `{PgDatum} `{!QueryDatum} `{PgCatalog} `{OperatorOids} `{RustBuild}.

(** an argument of the operator; [ParseWithFieldCall] is a call of [paradedb.parse_with_field] with a parameter *)
Inductive Arg :=
  | A_Var (var : VarNode)
  | A_Const (const : Const)
  | A_Param (paramid : Z)
  | ParseWithFieldCall (field : string) (paramid : Z)
  | A_Other.
Record OpExpr := { op_opno : Z; op_opfuncid : Z; op_args : list Arg }.
(** what [qual_inspect] sees of it *)
Definition arg_node (a : Arg) : Node :=
  match a with A_Var v => T_Var (vn_var v) | A_Const c => T_Const c | _ => T_Other end.
Definition opexpr_node (o : OpExpr) : Node := T_OpExpr (op_opno o) (arg_node <$> op_args o).

Definition InvalidOid : Z := 0.

(** [locate_bm25_index]: of the valid ones the one with the highest oid; [max_by_key] keeps the last of equals *)
Definition max_by_oid (best : option IndexRel) (index : IndexRel) : option IndexRel :=
  match best with
  | Some b => if irel_oid b <=? irel_oid index then Some index else Some b
  | None => Some index
  end.
Definition locate_bm25_index (heaprelid : Z) : outcome (option IndexRel) :=
  _ ← expect_ok (relation_open heaprelid) "could not open relation";
  Ok (foldl max_by_oid None (List.filter irel_is_bm25 (List.filter irel_isvalid (relation_indices heaprelid)))).

(** [targetlist.get_ptr(varattno as usize - 1)] *)
Definition target_at (targetlist : list TargetItem) (varattno : Z) (msg : string) : outcome TargetItem :=
  if (varattno =? 0) && overflow_checks then Panic "attempt to subtract with overflow"
  else expect_ok (if 1 <=? varattno then znth targetlist (varattno - 1) else None) msg.

Fixpoint cte_root (levelsup : nat) (root : PlannerInfo) : outcome PlannerInfo :=
  match levelsup with
  | O => Ok root
  | S levelsup =>
      cteroot ← expect_ok (parent_root root) "bad levelsup for CTE";
      cte_root levelsup cteroot
  end.

Definition find_var_relation (var : VarNode) (root : PlannerInfo) : outcome (Z * Z * option (list TargetItem)) :=
  rte ← Prelude.index (rtable root) (varno (vn_var var) - 1);
  match rte with
  | RTE_RELATION relid => Ok (relid, varattno (vn_var var), None)
  | RTE_SUBQUERY targetlist =>
      te ← target_at targetlist (varattno (vn_var var)) "var should exist in subquery TargetList";
      Ok (te_resorigtbl te, te_resorigcol te, Some targetlist)
  | RTE_CTE ctename ctelevelsup =>
      cteroot ← cte_root ctelevelsup root;
      cte ← expect_ok (snd <$> List.find (λ c, String.eqb c.1 ctename) (cteList cteroot)) "unable to find cte named";
      match cte with
      | CteNoQuery => Panic "CTE is not a query"
      | CteOf returningList targetList =>
          let targetlist := match returningList with [] => targetList | _ => returningList end in
          te ← target_at targetlist (varattno (vn_var var)) "var should exist in cte TargetList";
          Ok (te_resorigtbl te, te_resorigcol te, Some targetlist)
      end
  | RTE_OTHER _ => Panic "unsupported RTEKind"
  end.

Definition SelfItemPointerAttno : Z := -1.
Definition attname_from_var (root : PlannerInfo) (var : VarNode) : outcome (Z * option string) :=
  '(heaprelid, attno, _) ← find_var_relation var root;
  if varattno (vn_var var) =? 0 then Ok (heaprelid, None)
  else
    tupdesc ← expect_ok (relation_open heaprelid) "could not open relation";
    if attno =? SelfItemPointerAttno then Ok (heaprelid, Some "ctid"%string)
    else if (attno =? 0) && overflow_checks then Panic "attempt to subtract with overflow"
    else Ok (heaprelid, if 1 <=? attno then znth tupdesc (attno - 1) else None).

(** the position of the index's first column in a target list, by its number alone *)
Definition key_position (targetlist : list TargetItem) (key : Z) : option Z :=
  position_of (λ te, te_resorigcol te =? key) targetlist.

Definition make_search_query_input_opexpr_node (root : PlannerInfo) (input_args : list Arg) (var : VarNode)
    (query : option SearchQueryInput) (parse_with_field : option (Z * string)) (opoid procoid : Z) : outcome OpExpr :=
  '(relid, _, targetlist) ← find_var_relation var root;
  if relid =? InvalidOid then Panic "could not determine relation for var"
  else
    located ← locate_bm25_index relid;
    indexrel ← expect_ok located "relation must have a `USING bm25` index";
    att ← expect_ok (head (irel_atts indexrel)) "attribute not found";
    key ← Prelude.index (irel_indkey indexrel) 0;
    varattno ← match (targetlist : option (list TargetItem)) with
      | Some targetlist =>
          i ← expect_ok (key_position targetlist key) "index's first column is not in the var's targetlist";
          Ok (as_signed 16 (i + 1))
      | None => Ok key
      end;
    let var := {| vn_var := {| varno := varno (vn_var var); varattno := varattno |};
                  vartype := fst (fst att); vartypmod := snd (fst att); varcollid := snd att |} in
    let input_args := <[0%nat := A_Var var]> input_args in
    match query, parse_with_field with
    | Some query, _ =>
        let wrapped_query := Input.WithIndex (irel_oid indexrel) query in
        let search_query_input_const := {| constvalue := query_into_datum wrapped_query; constisnull := false |} in
        Ok {| op_opno := anyelement_query_input_opoid; op_opfuncid := anyelement_query_input_procoid;
              op_args := <[1%nat := A_Const search_query_input_const]> input_args |}
    | None, Some (param, attname) =>
        Ok {| op_opno := anyelement_query_input_opoid; op_opfuncid := anyelement_query_input_procoid;
              op_args := <[1%nat := ParseWithFieldCall attname param]> input_args |}
    | None, None => Ok {| op_opno := opoid; op_opfuncid := procoid; op_args := input_args |}
    end.

(** ** The support functions *)

Record SupportRequestSimplify := { srs_root : option PlannerInfo; srs_args : list Arg }.
Inductive SupportRequest := Simplify (srs : SupportRequestSimplify) | Cost | OtherRequest.

Definition make_query_from_var_and_const (root : PlannerInfo) (var : VarNode) (const_ : Const)
    : outcome (Z * SearchQueryInput) :=
  '(heaprelid, attname) ← attname_from_var root var;
  query_string ← expect_ok (text_from_datum (constvalue const_) (constisnull const_)) "query must not be NULL";
  Ok (heaprelid,
      match (attname : option string) with
      | Some field => Input.ParseWithField field query_string None None
      | None => Input.Parse query_string None None
      end).

(** [None] is the null pointer: nothing is simplified *)
Definition text_support (arg : option SupportRequest) : outcome (option OpExpr) :=
  match arg with
  | Some (Simplify {| srs_root := Some root; srs_args := input_args |}) =>
      match input_args with
      | A_Var var :: rhs :: _ =>
          '(query, param) ← match rhs with
            | A_Const const_ => '(_, query) ← make_query_from_var_and_const root var const_; Ok (Some query, None)
            | A_Param param =>
                '(_, attname) ← attname_from_var root var;
                attname ← expect_ok (attname : option string) "should be able to determine Var name";
                Ok (None, Some (param, attname))
            | _ => Panic "when the left side of the `@@@` operator is a column name the right side must be a text literal"
            end;
          node ← make_search_query_input_opexpr_node root input_args var query param
            anyelement_text_opoid anyelement_text_procoid;
          Ok (Some node)
      | _ => Ok None
      end
  | _ => Ok None
  end.

(** the result: a new expression, or the cost request with its costs set *)
Inductive SupportResult := NoNode | Rewritten (node : OpExpr) | CostSet.
Definition query_input_support_request_simplify (srs : SupportRequestSimplify) : outcome (option OpExpr) :=
  let input_args := srs_args srs in
  match input_args with
  | A_Var var :: rhs :: _ =>
      let query := match rhs with
        | A_Const const_ => search_query_input_from_datum (constvalue const_) (constisnull const_)
        | _ => None
        end in
      root ← expect_ok (srs_root srs) "null pointer";
      node ← make_search_query_input_opexpr_node root input_args var query None
        anyelement_query_input_opoid anyelement_query_input_procoid;
      Ok (Some node)
  | _ => Ok None
  end.
Definition query_input_support (arg : option SupportRequest) : outcome SupportResult :=
  match arg with
  | None => Ok NoNode
  | Some (Simplify srs) =>
      node ← query_input_support_request_simplify srs;
      Ok match (node : option OpExpr) with Some node => Rewritten node | None => NoNode end
  | Some Cost => Ok CostSet
  | Some OtherRequest => Ok NoNode
  end.
End rewrite.

(** ** What the rewriting does *)

Section rewrite_lemmas.
Context `{PgDatum} `{!QueryDatum} `{PgCatalog} `{OperatorOids} `{RustBuild}.

(** the table of a variable and the index its queries use *)
Definition uses_index (relid : Z) (index : IndexRel) (key : Z) (att : PgOid * Z * Z) : Prop :=
  relid ≠ InvalidOid ∧ locate_bm25_index relid = Ok (Some index) ∧
  znth (irel_indkey index) 0 = Some key ∧ head (irel_atts index) = Some att.

(** the index of a table that [locate_bm25_index] is for *)
Definition newest_bm25 (relid : Z) (index : IndexRel) : Prop :=
  index ∈ relation_indices relid ∧ irel_isvalid index = true ∧ irel_is_bm25 index = true ∧
  ∀ other, other ∈ relation_indices relid → irel_isvalid other = true → irel_is_bm25 other = true →
    irel_oid other <= irel_oid index.

Lemma max_by_oid_max l best :
  match foldl max_by_oid best l with
  | Some index => (best = Some index ∨ index ∈ l) ∧
      ∀ other, best = Some other ∨ other ∈ l → irel_oid other <= irel_oid index
  | None => best = None ∧ l = []
  end.
Proof.
  revert best. induction l as [|i l IH]; intros best; cbn [foldl].
  { destruct best; [|done]. split; [by left|]. intros other [[= ->]|?%not_elem_of_nil]; [lia|done]. }
  specialize (IH (max_by_oid best i)). destruct (foldl max_by_oid (max_by_oid best i) l) as [index|].
  2: { destruct IH as [Hb _]. unfold max_by_oid in Hb. destruct best as [b|]; [by destruct (_ <=? _)|done]. }
  assert (∀ x, max_by_oid best i = Some x → best = Some x ∨ x = i) as Hwho.
  { intros x. unfold max_by_oid. destruct best as [b|]; [destruct (_ <=? _)|]; intros [= <-]; auto. }
  assert (∀ x, best = Some x ∨ x = i → ∃ y, max_by_oid best i = Some y ∧ irel_oid x <= irel_oid y) as Hle.
  { intros x. unfold max_by_oid. destruct best as [b|].
    - destruct (Z.leb_spec (irel_oid b) (irel_oid i)); (intros [[= <-]| ->]; (eexists; split; [done|lia])).
    - intros [?| ->]; [done|]. eexists. split; [done|lia]. }
  destruct IH as [Hin Hmax]. split.
  - destruct Hin as [[?| ->]%Hwho|?]; [by left|right; left|by right; right].
  - intros other Ho. assert ((best = Some other ∨ other = i) ∨ other ∈ l) as [Hother|Hl] by (rewrite elem_of_cons in Ho; tauto);
      [|apply Hmax; by right].
    destruct (Hle other Hother) as (y & Hy & ?). pose proof (Hmax y (or_introl Hy)). lia.
Qed.
Lemma locate_bm25_newest relid names :
  relation_open relid = Some names →
  (∃ index, index ∈ relation_indices relid ∧ irel_isvalid index = true ∧ irel_is_bm25 index = true) →
  ∃ index, locate_bm25_index relid = Ok (Some index) ∧ newest_bm25 relid index.
Proof.
  intros Hopen Hsome. unfold locate_bm25_index. rewrite Hopen. cbn [expect_ok mbind outcome_bind].
  set (l := List.filter _ _).
  assert (∀ i, i ∈ l ↔ i ∈ relation_indices relid ∧ irel_isvalid i = true ∧ irel_is_bm25 i = true) as Hl.
  { intros i. unfold l. rewrite !list_elem_of_In, !List.filter_In. tauto. }
  pose proof (max_by_oid_max l None) as Hmax. destruct (foldl max_by_oid None l) as [index|].
  - exists index. split; [done|]. destruct Hmax as [[?|(? & ? & ?)%Hl] Hmax]; [done|].
    split; [done|]. split; [done|]. split; [done|]. intros other Ho Hv Hb. apply Hmax. right. by apply Hl.
  - destruct Hmax as [_ Hnil], Hsome as (i & Hi). apply Hl in Hi. rewrite Hnil in Hi. by apply not_elem_of_nil in Hi.
Qed.

Lemma make_node_ok root args var query param opoid procoid relid attno targetlist index key att i :
  find_var_relation var root = Ok (relid, attno, targetlist) → uses_index relid index key att →
  match targetlist with None => i = key | Some l => ∃ n, key_position l key = Some n ∧ i = as_signed 16 (n + 1) end →
  ∃ op, make_search_query_input_opexpr_node root args var query param opoid procoid = Ok op ∧
    (0 < length args → op_args op !! 0 = Some (A_Var {|
       vn_var := {| varno := varno (vn_var var); varattno := i |};
       vartype := fst (fst att); vartypmod := snd (fst att); varcollid := snd att |}))%nat ∧
    (1 < length args → op_args op !! 1 = match query, param with
       | Some query, _ => Some (A_Const {| constvalue := query_into_datum (Input.WithIndex (irel_oid index) query);
                                           constisnull := false |})
       | None, Some (param, attname) => Some (ParseWithFieldCall attname param)
       | None, None => args !! 1 end)%nat ∧
    op_opno op = match query, param with None, None => opoid | _, _ => anyelement_query_input_opoid end.
Proof.
  intros Hfind (Hrel & Hloc & Hkey & Hatt) Hi. unfold make_search_query_input_opexpr_node.
  rewrite Hfind. cbn [mbind outcome_bind]. destruct (Z.eqb_spec relid InvalidOid); [done|].
  rewrite Hloc. cbn [mbind outcome_bind expect_ok]. rewrite Hatt. cbn [mbind outcome_bind expect_ok].
  assert (Prelude.index (irel_indkey index) 0 = Ok key) as -> by (unfold Prelude.index; by rewrite Hkey).
  cbn [mbind outcome_bind].
  assert (match targetlist with
      | Some targetlist => i ← expect_ok (key_position targetlist key) "index's first column is not in the var's targetlist";
          Ok (as_signed 16 (i + 1))
      | None => Ok key
      end = Ok i) as ->.
  { destruct targetlist as [l|]; [|by subst i]. destruct Hi as (pos & Hpos & Hi). rewrite Hpos. cbn. by rewrite Hi. }
  cbn [mbind outcome_bind].
  destruct query as [query|]; [|destruct param as [[param attname]|]]; (eexists; split; [done|]); cbn [op_args op_opno];
    (split; [|split; [|done]]); intros Hlen.
  - rewrite list_lookup_insert_ne by done. by apply list_lookup_insert_eq.
  - apply list_lookup_insert_eq. by rewrite length_insert.
  - rewrite list_lookup_insert_ne by done. by apply list_lookup_insert_eq.
  - apply list_lookup_insert_eq. by rewrite length_insert.
  - by apply list_lookup_insert_eq.
  - by rewrite list_lookup_insert_ne by done.
Qed.
End rewrite_lemmas.

(** the query a text asks for on a column, or on the whole row *)
Definition text_query `{RustF64} `{TantivyTypes} (names : list string) (attno : Z) (text : string)
    : option SearchQueryInput :=
  if attno =? 0 then Some (Input.Parse text None None)
  else if attno =? SelfItemPointerAttno then Some (Input.ParseWithField "ctid" text None None)
  else (λ name, Input.ParseWithField name text None None) <$> (if 1 <=? attno then znth names (attno - 1) else None).

(** C17: column @@@ 'text' on a table with a valid bm25 index is rewritten to the
    operator on the first column of the index, the key field, of the same range table
    entry, with a query that names the index: of the table's valid bm25 indexes the one
    with the highest oid. The custom scan takes that expression over, and what it
    converts is the parse of the text in that column, or in all fields when the left
    side is the row itself. *)
Theorem text_operator_reaches_scan `{RustF64} `{TantivyTypes} `{TantivyText} `{TantivyRegex} `{RustBuild}
    `{Chrono} `{!PgDates} `{AsFieldType} `{!TantivyParser} `{!TantivySearcher}
    `{!PgDatum} `{!QueryDatum} `{PgCatalog} `{OperatorOids}
    (root : PlannerInfo) (var : VarNode) (const : Const) (relid : Z) (names : list string) (text : string)
    (rti : Z) query (p : QueryParser) :
  znth (rtable root) (varno (vn_var var) - 1) = Some (RTE_RELATION relid) →
  relid ≠ InvalidOid → relation_open relid = Some names →
  (∃ index, index ∈ relation_indices relid ∧ irel_isvalid index = true ∧ irel_is_bm25 index = true) →
  (∀ index, index ∈ relation_indices relid → irel_indkey index ≠ [] ∧ irel_atts index ≠ []) →
  text_from_datum (constvalue const) (constisnull const) = Some text →
  text_query names (varattno (vn_var var)) text = Some query →
  int_as_i32 (varno (vn_var var)) = int_as_i32 rti →
  ∃ op qual index key att, text_support (Some (Simplify {| srs_root := Some root; srs_args := [A_Var var; A_Const const] |}))
      = Ok (Some op) ∧
    newest_bm25 relid index ∧ head (irel_indkey index) = Some key ∧ head (irel_atts index) = Some att ∧
    op_opno op = anyelement_query_input_opoid ∧
    op_args op !! 0%nat = Some (A_Var {|
      vn_var := {| varno := varno (vn_var var); varattno := key |};
      vartype := fst (fst att); vartypmod := snd (fst att); varcollid := snd att |}) ∧
    extract_quals rti (opexpr_node op) anyelement_query_input_opoid = Ok (Some qual) ∧
    qual_query qual = Ok (Input.WithIndex (irel_oid index) query) ∧
    into_tantivy_query (Input.WithIndex (irel_oid index) query) p = into_tantivy_query query p.
Proof.
  intros Hrte Hrel Hopen Hsome Hcols Htext Hquery Hrti.
  destruct (locate_bm25_newest relid names Hopen Hsome) as (index & Hloc & Hnew).
  destruct (Hcols index (proj1 Hnew)) as [Hkeys Hatts].
  destruct (irel_indkey index) as [|key keys] eqn:Hkey; [done|].
  destruct (irel_atts index) as [|att atts] eqn:Hatt; [done|].
  assert (uses_index relid index key att) as Hindex by (split; [done|]; split; [done|]; by rewrite Hkey, Hatt).
  assert (find_var_relation var root = Ok (relid, varattno (vn_var var), None)) as Hfind.
  { unfold find_var_relation, Prelude.index. by rewrite Hrte. }
  assert (make_query_from_var_and_const root var const = Ok (relid, query)) as Hmake.
  { unfold make_query_from_var_and_const, attname_from_var. rewrite Hfind. cbn [mbind outcome_bind].
    unfold text_query in Hquery. destruct (Z.eqb_spec (varattno (vn_var var)) 0) as [Hz|Hz]; cbn [mbind outcome_bind].
    { rewrite Htext. by injection Hquery as <-. }
    rewrite Hopen. cbn [expect_ok mbind outcome_bind].
    destruct (Z.eqb_spec (varattno (vn_var var)) SelfItemPointerAttno); cbn [mbind outcome_bind andb];
      rewrite Htext; cbn [expect_ok mbind outcome_bind]; [by injection Hquery as <-|].
    destruct (if 1 <=? varattno (vn_var var) then _ else None); [|done]. by injection Hquery as <-. }
  destruct (make_node_ok root [A_Var var; A_Const const] var (Some query) None anyelement_text_opoid anyelement_text_procoid
    relid (varattno (vn_var var)) None index key att key Hfind Hindex eq_refl) as (op & Hop & Hlhs & Hrhs & Hno).
  specialize (Hlhs ltac:(simpl; lia)). specialize (Hrhs ltac:(simpl; lia)).
  unfold text_support. rewrite Hmake. cbn [mbind outcome_bind]. rewrite Hop. cbn [mbind outcome_bind].
  assert (∀ const', op_args op !! 1%nat = Some (A_Const const') →
    ∃ lhs, extract_quals rti (opexpr_node op) anyelement_query_input_opoid
      = Ok (Some (OperatorExpression lhs (MkOid anyelement_query_input_opoid) const'))) as Hextract.
  { intros const' Hc. eexists. cbn [opexpr_node extract_quals]. unfold opexpr. rewrite !list_lookup_fmap, Hlhs, Hc. cbn.
    rewrite Hno, Z.eqb_refl, Hrti, Z.eqb_refl. done. }
  destruct (Hextract _ Hrhs) as [lhs Hq]. eexists op, _, index, key, att. rewrite Hkey, Hatt.
  do 6 (split; [done|]). split; [exact Hq|]. cbn [qual_query constvalue constisnull]. by rewrite query_from_into.
Qed.

(** Over a subquery or a CTE the operator is moved to the first target whose column
    number is the key's, whatever table the target is of: with a column of another table
    at that number in front, the rewritten operator compares that column with the keys
    of the matches. *)
Theorem subquery_key_of_any_table `{RustF64} `{TantivyTypes} `{!PgDatum} `{!QueryDatum} `{PgCatalog} `{OperatorOids} `{RustBuild}
    (root : PlannerInfo) (var : VarNode) (args : list Arg) query param opoid procoid relid attno
    (before after : list TargetItem) (te : TargetItem) (index : IndexRel) (key : Z) att :
  find_var_relation var root = Ok (relid, attno, Some (before ++ te :: after)) → uses_index relid index key att →
  Forall (λ te', te_resorigcol te' ≠ key) before → te_resorigcol te = key → zlen before < 2 ^ 15 - 1 → args ≠ [] →
  ∃ op v, make_search_query_input_opexpr_node root args var query param opoid procoid = Ok op ∧
    op_args op !! 0%nat = Some (A_Var v) ∧ varno (vn_var v) = varno (vn_var var) ∧
    znth (before ++ te :: after) (varattno (vn_var v) - 1) = Some te ∧ vartype v = att.1.1.
Proof.
  intros Hfind Hindex Hbefore Hte Hlen Hargs. pose proof (zlen_nonneg before).
  destruct (make_node_ok root args var query param opoid procoid relid attno _ index key att (as_signed 16 (zlen before + 1))
    Hfind Hindex) as (op & Hop & Hlhs & _).
  { exists (zlen before). split; [|done]. apply position_of_first; [|lia].
    eapply Forall_impl; [exact Hbefore|]. intros te' Hne. by apply Z.eqb_neq. }
  assert (0 < length args)%nat as Hl by (destruct args; [done|simpl; lia]).
  eexists op, _. split; [done|]. split; [exact (Hlhs Hl)|]. cbn [vn_var varno varattno vartype]. split; [done|]. split; [|done].
  assert (as_signed 16 (zlen before + 1) - 1 = zlen before) as ->.
  { unfold as_signed. change (2 ^ (16 - 1)) with 32768. change (2 ^ 16) with 65536. change (2 ^ 15 - 1) with 32767 in Hlen. rewrite Z.mod_small; lia. }
  rewrite znth_lookup by done. rewrite lookup_app_r by (unfold zlen; lia). unfold zlen. by rewrite Nat2Z.id, Nat.sub_diag.
Qed.

(** ** Selectivity *)

(** the number of live documents of a segment, what a scorer says of the documents it will return, and the floats *)
Class SegmentStats `{TantivyReader} := {
  num_docs : SegmentReader → Z;
  scorer_size_hint : Query → bool → SegmentReader → Z
}.
Class RustF64Class `{RustF64} := {
  is_normal : F64 → bool;
  is_sign_negative : F64 → bool;
  UNKNOWN_SELECTIVITY : F64;
  unknown_below_one : f64_lt (f64_of_Z 1) UNKNOWN_SELECTIVITY = false
}.
(** the estimate of a table's rows, as an [f64] *)
Class RelStats `{RustF64} := { reltuples : Z → option F64 }.

Section restrict.
Context `{RustF64} `{TantivyTypes} `{TantivyText} `{TantivyRegex} `{RustBuild}
  `{Chrono} `{!PgDates} `{AsFieldType} `{!TantivyParser} `{!TantivySearcher} `{TantivyIndex} `{!TantivyReader}
  `{!PgDatum} `{!QueryDatum} `{PgCatalog} `{OperatorOids} `{!SegmentStats} `{!RustF64Class} `{!RustF64Ops} `{!RelStats}.
Context (open_reader : Z → SearchIndexReader).

(** [max_by_key(|reader| reader.num_docs())] keeps the last of equals *)
Definition max_by_docs (best : option SegmentReader) (reader : SegmentReader) : option SegmentReader :=
  match best with
  | Some b => if num_docs b <=? num_docs reader then Some reader else Some b
  | None => Some reader
  end.
Definition estimate_docs (self : SearchIndexReader) (search_query_input : SearchQueryInput) : outcome (option Z) :=
  match foldl max_by_docs None (searcher self) with
  | None => Ok None
  | Some largest_reader =>
      '(q, need_scores) ← reader_weight (contains_more_like_this search_query_input) search_query_input;
      let count := scorer_size_hint q need_scores largest_reader in
      let segment_doc_proportion :=
        f64_div (f64_of_Z (num_docs largest_reader)) (f64_of_Z (foldr Z.add 0 (num_docs <$> searcher self))) in
      Ok (Some (f64_ceil_as_usize (f64_div (f64_of_Z count) segment_doc_proportion)))
  end.

Definition estimate_selectivity (indexrel : IndexRel) (heaprelid : Z) (search_query_input : SearchQueryInput)
    : outcome (option F64) :=
  let rows := default (f64_of_Z 1) (reltuples heaprelid) in
  if negb (is_normal rows) || is_sign_negative rows then Ok None
  else
    docs ← estimate_docs (open_reader (irel_oid indexrel)) search_query_input;
    let selectivity := f64_div (f64_of_Z (default 1 docs)) rows in
    Ok (Some (if f64_lt (f64_of_Z 1) selectivity then f64_of_Z 1 else selectivity)).

Definition restrict_result (inner : option F64) : F64 :=
  let selectivity := default UNKNOWN_SELECTIVITY inner in
  if f64_lt (f64_of_Z 1) selectivity then UNKNOWN_SELECTIVITY else selectivity.
Definition text_restrict (planner_info : option PlannerInfo) (operator_oid : Z) (args : option (list Arg)) : outcome F64 :=
  if negb (operator_oid =? anyelement_text_opoid) then Panic "assertion failed"
  else
    inner ← match planner_info, args with
      | Some info, Some (A_Var var :: A_Const const_ :: _) =>
          '(heaprelid, search_query_input) ← make_query_from_var_and_const info var const_;
          located ← locate_bm25_index heaprelid;
          match located with
          | Some indexrel => estimate_selectivity indexrel heaprelid search_query_input
          | None => Ok None
          end
      | _, _ => Ok None
      end;
    Ok (restrict_result inner).
Definition query_input_restrict (planner_info : option PlannerInfo) (operator_oid : Z) (args : option (list Arg))
    : outcome F64 :=
  if negb (operator_oid =? anyelement_query_input_opoid) then Panic "assertion failed"
  else
    inner ← match planner_info, args with
      | Some info, Some (A_Var var :: A_Const const_ :: _) =>
          '(heaprelid, _, _) ← find_var_relation var info;
          located ← locate_bm25_index heaprelid;
          match located with
          | Some indexrel =>
              match search_query_input_from_datum (constvalue const_) (constisnull const_) with
              | Some query => estimate_selectivity indexrel heaprelid (Input.WithIndex (irel_oid indexrel) query)
              | None => Ok None
              end
          | None => Ok None
          end
      | _, _ => Ok None
      end;
    Ok (restrict_result inner).

Lemma restrict_result_at_most_one inner : f64_lt (f64_of_Z 1) (restrict_result inner) = false.
Proof.
  unfold restrict_result. destruct (f64_lt (f64_of_Z 1) (default UNKNOWN_SELECTIVITY inner)) eqn:Hlt; [|done].
  apply unknown_below_one.
Qed.
End restrict.

(** The selectivity of either operator is never above one. *)
Theorem selectivity_at_most_one `{RustF64} `{TantivyTypes} `{TantivyText} `{TantivyRegex} `{RustBuild}
    `{Chrono} `{!PgDates} `{AsFieldType} `{!TantivyParser} `{!TantivySearcher} `{TantivyIndex} `{!TantivyReader}
    `{!PgDatum} `{!QueryDatum} `{PgCatalog} `{OperatorOids} `{!SegmentStats} `{!RustF64Class} `{!RustF64Ops} `{!RelStats}
    (open_reader : Z → SearchIndexReader) info oid args s :
  text_restrict open_reader info oid args = Ok s ∨ query_input_restrict open_reader info oid args = Ok s →
  f64_lt (f64_of_Z 1) s = false.
Proof.
  unfold text_restrict, query_input_restrict.
  intros [Hs|Hs]; destruct (negb _); try done; apply obind_inv in Hs as (inner & _ & [= <-]);
    apply restrict_result_at_most_one.
Qed.
