(* ===== verification/AmScan.v ===== *)
(** * AmScan: the index's own scans

    [postgres/scan.rs] and [postgres/cost.rs]: what the access method does between
    [ambeginscan] and [amendscan] - the query of the scan keys, plain, index only, bitmap and
    parallel scans - which types it can return, and what it tells the planner a scan costs.
    Heap tuples are Postgres's, a class. *)

From S2P Require Import Prelude Page Block PgUtils TokenizerConfig Query RangeQuery CustomScan WhereClause Schema Rows Reader Parallel ScanExec FastFields Operator.

Open Scope Z_scope.

(** the bytes a value of a type takes when all values take the same ([pg_type.typlen]) *)
Definition typlen (oid : PgBuiltInOids) : option Z :=
  match oid with
  | BOOLOID => Some 1
  | INT2OID => Some 2
  | INT4OID | FLOAT4OID | OIDOID | DATEOID => Some 4
  | INT8OID | FLOAT8OID => Some 8
  | UUIDOID => Some 16
  | _ => None
  end.

(** Heap tuples of a row type.  A tuple has room for the data it was formed with; filling it
    with more writes past its end ([None]). *)
Class HeapTuples `{PgDatums} := {
  HeapTuple : Type;
  tuple_room : HeapTuple → Z;
  heap_compute_data_size : list PgOid → list (option RowDatum) → Z;
  heap_form_tuple : list PgOid → list (option RowDatum) → HeapTuple;
  heap_fill_tuple : list PgOid → list (option RowDatum) → Z → HeapTuple → option HeapTuple;
  heap_deform_tuple : list PgOid → HeapTuple → list (option RowDatum);
  form_room desc values : tuple_room (heap_form_tuple desc values) = heap_compute_data_size desc values;
  form_deform desc values :
    length values = length desc → heap_deform_tuple desc (heap_form_tuple desc values) = values;
  fill_fits desc values t :
    length values = length desc → heap_compute_data_size desc values ≤ tuple_room t →
    ∃ t', heap_fill_tuple desc values (heap_compute_data_size desc values) t = Some t' ∧
      tuple_room t' = tuple_room t ∧ heap_deform_tuple desc t' = values;
  fill_overflows desc values len t : tuple_room t < len → heap_fill_tuple desc values len t = None;
  (** a first value of a fixed size takes that, and nulls take nothing *)
  data_size_first oid len desc d : typlen oid = Some len →
    heap_compute_data_size (PgBuiltIn oid :: desc) (Some d :: replicate (length desc) None) = len
}.

(** [repr(u16)] *)
Inductive ScanStrategy := TextQuery | SearchQueryInputStrategy.
Definition scan_strategy_try_from (value : Z) : option ScanStrategy :=
  if value =? 1 then Some TextQuery else if value =? 2 then Some SearchQueryInputStrategy else None.

Section scan.
Context `{RustF64} `{TantivyTypes} `{TantivyText} `{TantivyRegex} `{RustBuild}
  `{Chrono} `{!PgDates} `{AsFieldType} `{!TantivyParser} `{!TantivySearcher} `{TantivyIndex} `{!TantivyReader}
  `{!PgrxTypes} `{!TimeCrate} `{!PgDatums} `{PgTypes} `{!TantivyColumns} `{TantivySchema}
  `{!PgDatum} `{!QueryDatum} `{!HeapTuples}.
Notation FFHelper := (list (list (SegmentReader * string * option FFType))).

(** ** The state of a scan *)

Record ScanKeyData := { sk_strategy : Z; sk_argument : Datum }.

(** [itup]: [None] is a null *)
Record Bm25ScanState := {
  bs_need_scores : bool;
  bs_fast_fields : FFHelper;
  bs_reader : SearchIndexReader;
  bs_search_query_input : SearchQueryInput;
  bs_results : SearchResults;
  itup : list (option RowDatum);
  key_field_oid : PgOid
}.
Definition set_results (results : SearchResults) (s : Bm25ScanState) : Bm25ScanState :=
  {| bs_need_scores := bs_need_scores s; bs_fast_fields := bs_fast_fields s; bs_reader := bs_reader s;
     bs_search_query_input := bs_search_query_input s; bs_results := results; itup := itup s;
     key_field_oid := key_field_oid s |}.
Definition set_key (fast_fields : FFHelper) (values : list (option RowDatum)) (s : Bm25ScanState) : Bm25ScanState :=
  {| bs_need_scores := bs_need_scores s; bs_fast_fields := fast_fields; bs_reader := bs_reader s;
     bs_search_query_input := bs_search_query_input s; bs_results := bs_results s; itup := values;
     key_field_oid := key_field_oid s |}.

(** [IndexScanDescData], with the shared memory a parallel scan has; [opaque]: null, or a pointer to an [Option] *)
Record IndexScanDesc := {
  xs_hitupdesc : list PgOid;
  xs_want_itup : bool;
  parallel_scan : option ParallelScanState;
  xs_recheck : bool;
  xs_heaptid : ItemPointerData;
  xs_hitup : option HeapTuple;
  opaque : option (option Bm25ScanState)
}.
Definition set_opaque (state : option Bm25ScanState) (shared : option ParallelScanState) (scan : IndexScanDesc)
    : IndexScanDesc :=
  {| xs_hitupdesc := xs_hitupdesc scan; xs_want_itup := xs_want_itup scan; parallel_scan := shared;
     xs_recheck := xs_recheck scan; xs_heaptid := xs_heaptid scan; xs_hitup := xs_hitup scan;
     opaque := Some state |}.
Definition set_tuple (tid : ItemPointerData) (hitup : option HeapTuple) (scan : IndexScanDesc) : IndexScanDesc :=
  {| xs_hitupdesc := xs_hitupdesc scan; xs_want_itup := xs_want_itup scan; parallel_scan := parallel_scan scan;
     xs_recheck := xs_recheck scan; xs_heaptid := tid; xs_hitup := hitup; opaque := opaque scan |}.
Definition no_recheck (scan : IndexScanDesc) : IndexScanDesc :=
  {| xs_hitupdesc := xs_hitupdesc scan; xs_want_itup := xs_want_itup scan; parallel_scan := parallel_scan scan;
     xs_recheck := false; xs_heaptid := xs_heaptid scan; xs_hitup := xs_hitup scan; opaque := opaque scan |}.

(** [ambeginscan]: what [RelationGetIndexScan] makes, whose fields the executor sets afterwards *)
Definition ambeginscan (relation_get_index_scan : IndexScanDesc) (rd_att : list PgOid) : IndexScanDesc :=
  let scandesc := relation_get_index_scan in
  {| xs_hitupdesc := rd_att; xs_want_itup := xs_want_itup scandesc; parallel_scan := parallel_scan scandesc;
     xs_recheck := xs_recheck scandesc; xs_heaptid := xs_heaptid scandesc; xs_hitup := xs_hitup scandesc;
     opaque := opaque scandesc |}.

(** ** [amrescan] *)

Definition key_to_search_query_input (key : ScanKeyData) : outcome SearchQueryInput :=
  strategy ← expect_ok (scan_strategy_try_from (sk_strategy key)) "`key.sk_strategy` is unrecognized";
  match strategy with
  | TextQuery =>
      query_string ← expect_ok (text_from_datum (sk_argument key) false) "ScanKey.sk_argument must not be null";
      Ok (Input.Parse query_string None None)
  | SearchQueryInputStrategy =>
      expect_ok (search_query_input_from_datum (sk_argument key) false) "ScanKey.sk_argument must not be null"
  end.
(** the loop over the other keys *)
Fixpoint and_keys (search_query_input : SearchQueryInput) (keys : list ScanKeyData) : outcome SearchQueryInput :=
  match keys with
  | [] => Ok search_query_input
  | key :: keys =>
      key ← key_to_search_query_input key;
      and_keys (Input.Boolean [search_query_input; key] [] []) keys
  end.
Definition keys_query (keys : list ScanKeyData) : outcome SearchQueryInput :=
  match keys with
  | [] => Panic "assertion failed: nkeys > 0"
  | key :: keys => search_query_input ← key_to_search_query_input key; and_keys search_query_input keys
  end.

Section rescan.
(** [SearchIndexReader::open], which with [true] also pins the cleanup lock; the index's [key_field]
    option and this backend's worker number *)
Context (open_reader : bool → outcome SearchIndexReader) (schema : SearchIndexSchema)
  (get_key_field : option string) (parallel_worker_number : Z).

Definition search_results (need_scores : bool) (search_query_input : SearchQueryInput) (search_reader : SearchIndexReader)
    (shared : option ParallelScanState) : outcome (SearchResults * option ParallelScanState) :=
  match shared with
  | None => results ← search search_reader need_scores search_query_input; Ok (results, None)
  | Some _ =>
      '(segment_number, shared) ← maybe_claim_segment shared;
      match (segment_number : option SegmentId) with
      | Some segment_number =>
          results ← search_segment search_reader need_scores segment_number search_query_input;
          Ok (results, shared)
      | None => Ok (NoResults, shared)
      end
  end.
Definition amrescan (scan : IndexScanDesc) (keys : list ScanKeyData) : outcome IndexScanDesc :=
  search_query_input ← keys_query keys;
  search_reader ← open_reader (xs_want_itup scan);
  '(_, shared) ← maybe_init_parallel_scan parallel_worker_number
    (reader_segment_id <$> searcher search_reader) (parallel_scan scan);
  key_field ← expect_ok get_key_field "bm25 index should have a key_field";
  field ← schema_key_field schema;
  let key_field_type := fast_field_type_from (sf_type field) in
  let need_scores := contains_more_like_this search_query_input in
  '(results, shared) ← search_results need_scores search_query_input search_reader shared;
  state ← (if xs_want_itup scan then
      oid ← index (xs_hitupdesc scan) 0;
      Ok {| bs_need_scores := need_scores;
            bs_fast_fields := ff_with_fields (searcher search_reader) [which_from (key_field, key_field_type)];
            bs_reader := search_reader; bs_search_query_input := search_query_input; bs_results := results;
            itup := replicate (length (xs_hitupdesc scan)) None; key_field_oid := oid |}
    else
      Ok {| bs_need_scores := need_scores; bs_fast_fields := []; bs_reader := search_reader;
            bs_search_query_input := search_query_input; bs_results := results; itup := [];
            key_field_oid := PgInvalid |});
  Ok (set_opaque (Some state) shared scan).
End rescan.

(** [amendscan] *)
Definition amendscan (scan : IndexScanDesc) : outcome IndexScanDesc :=
  match opaque scan with
  | Some _ => Ok (set_opaque None (parallel_scan scan) scan)
  | None => Panic "null pointer"
  end.

(** ** [amgettuple] and [amgetbitmap] *)

Definition scan_state (scan : IndexScanDesc) : outcome Bm25ScanState :=
  match opaque scan with
  | Some (Some state) => Ok state
  | Some None => Panic "opaque should be a Bm25ScanState"
  | None => Panic "null pointer"
  end.

(** if there is a segment to be claimed, its results *)
Definition search_next_segment (shared : option ParallelScanState) (state : Bm25ScanState)
    : outcome (bool * option ParallelScanState * Bm25ScanState) :=
  '(segment_number, shared) ← maybe_claim_segment shared;
  match (segment_number : option SegmentId) with
  | Some segment_number =>
      results ← search_segment (bs_reader state) (bs_need_scores state) segment_number (bs_search_query_input state);
      Ok (true, shared, set_results results state)
  | None => Ok (false, shared, state)
  end.

(** the index tuple of an index only scan: a new one, or the last one written over *)
Definition form_itup (desc : list PgOid) (values : list (option RowDatum)) (hitup : option HeapTuple)
    : outcome HeapTuple :=
  match hitup with
  | None => Ok (heap_form_tuple desc values)
  | Some t =>
      let data_len := heap_compute_data_size desc values in
      expect_ok (heap_fill_tuple desc values data_len t) "written past the end of the tuple"
  end.
Definition return_tuple (scan : IndexScanDesc) (state : Bm25ScanState) (row : SearchIndexScore * DocAddr)
    : outcome (IndexScanDesc * Bm25ScanState) :=
  let '(scored, doc_address) := row in
  let ipd := u64_to_item_pointer (ctid scored) in
  if xs_want_itup scan then
    '(key, fast_fields) ← ffh_value (bs_fast_fields state) 0 doc_address;
    key_field_datum ← expect_res (try_into_datum key (key_field_oid state)) "key_field value should convert to a Datum";
    _ ← index (itup state) 0;
    let values := <[0%nat := (key_field_datum : option RowDatum)]> (itup state) in
    hitup ← form_itup (xs_hitupdesc scan) values (xs_hitup scan);
    Ok (set_tuple ipd (Some hitup) scan, set_key fast_fields values state)
  else Ok (set_tuple ipd (xs_hitup scan) scan, state).

(** each iteration but the last claims a segment *)
Fixpoint amgettuple_loop (fuel : nat) (scan : IndexScanDesc) (state : Bm25ScanState)
    : outcome (bool * IndexScanDesc) :=
  match fuel with
  | O => NoFuel
  | S fuel =>
      '(item, results) ← next (bs_results state);
      let state := set_results results state in
      match item with
      | Some row =>
          '(scan, state) ← return_tuple scan state row;
          Ok (true, set_opaque (Some state) (parallel_scan scan) scan)
      | None =>
          '(more, shared, state) ← search_next_segment (parallel_scan scan) state;
          let scan := set_opaque (Some state) shared scan in
          if (more : bool) then amgettuple_loop fuel scan state else Ok (false, scan)
      end
  end.
Definition claimable (shared : option ParallelScanState) : nat :=
  match shared with Some s => Z.to_nat (remaining_segments s) | None => 0 end.
Definition amgettuple (scan : IndexScanDesc) : outcome (bool * IndexScanDesc) :=
  state ← scan_state scan;
  amgettuple_loop (S (claimable (parallel_scan scan))) (no_recheck scan) state.

(** [for (scored, _) in state.results.by_ref()]; the bitmap is the tuples added *)
Fixpoint add_results (fuel : nat) (results : SearchResults) (tbm : list ItemPointerData) (cnt : Z)
    : outcome (SearchResults * list ItemPointerData * Z) :=
  match fuel with
  | O => NoFuel
  | S fuel =>
      '(item, results) ← next results;
      match item with
      | Some (scored, _) => add_results fuel results (tbm ++ [u64_to_item_pointer (ctid scored)]) (cnt + 1)
      | None => Ok (results, tbm, cnt)
      end
  end.
Fixpoint amgetbitmap_loop (fuel : nat) (scan : IndexScanDesc) (state : Bm25ScanState) (tbm : list ItemPointerData) (cnt : Z)
    : outcome (Z * list ItemPointerData * IndexScanDesc) :=
  match fuel with
  | O => NoFuel
  | S fuel =>
      '(results, tbm, cnt) ← add_results (S (Z.to_nat (count (bs_results state)))) (bs_results state) tbm cnt;
      '(more, shared, state) ← search_next_segment (parallel_scan scan) (set_results results state);
      let scan := set_opaque (Some state) shared scan in
      if (more : bool) then amgetbitmap_loop fuel scan state tbm cnt else Ok (cnt, tbm, scan)
  end.
Definition amgetbitmap (scan : IndexScanDesc) (tbm : list ItemPointerData)
    : outcome (Z * list ItemPointerData * IndexScanDesc) :=
  state ← scan_state scan;
  amgetbitmap_loop (S (claimable (parallel_scan scan))) scan state tbm 0.

(** ** [amcanreturn] *)

Definition returnable : list PgBuiltInOids := [INT4OID; INT8OID; FLOAT4OID; FLOAT8OID; BOOLOID; UUIDOID].
Definition amcanreturn (tupdesc : list PgOid) (attno : Z) : outcome bool :=
  if negb (attno =? 1) then Ok false
  else
    att ← expect_ok (znth tupdesc (attno - 1)) "attno should exist in index tupledesc";
    Ok (existsb (λ oid, bool_decide (PgBuiltIn oid = att)) returnable).
End scan.

(** ** One tuple of a scan *)

Section tuple_lemmas.
Context `{RustF64} `{TantivyTypes} `{TantivyText} `{TantivyRegex} `{RustBuild}
  `{Chrono} `{!PgDates} `{AsFieldType} `{!TantivyParser} `{!TantivySearcher} `{TantivyIndex} `{!TantivyReader}
  `{!PgrxTypes} `{!TimeCrate} `{!PgDatums} `{PgTypes} `{!TantivyColumns} `{TantivySchema}
  `{!PgDatum} `{!QueryDatum} `{!HeapTuples}.
(** the key column, and the row type of the index *)
Variables (reader : SearchIndexReader) (which : WhichFastField) (oid : PgBuiltInOids) (desc : list PgOid).
Notation sr := (searcher reader).

(** the key of a document as a datum of the index's first column *)
Definition key_datum (doc : Score * DocAddr) : outcome (option RowDatum) :=
  key ← key_at reader which doc;
  expect_res (try_into_datum key (PgBuiltIn oid)) "key_field value should convert to a Datum".

(** what holds of a scan's state between calls: an index only scan's tuple, if there is one, has
    room for a value of the first column *)
Definition itup_ok (scan : IndexScanDesc) (state : Bm25ScanState) : Prop :=
  xs_want_itup scan = true →
  xs_hitupdesc scan = PgBuiltIn oid :: desc ∧ key_field_oid state = PgBuiltIn oid ∧
  helper_ok sr [which] (bs_fast_fields state) ∧ (∃ v, itup state = v :: replicate (length desc) None) ∧
  ∃ len, typlen oid = Some len ∧ ∀ t, xs_hitup scan = Some t → tuple_room t = len.
Definition state_ok (need_scores : bool) (input : SearchQueryInput) (scan : IndexScanDesc) (state : Bm25ScanState) : Prop :=
  results_ok reader (bs_results state) ∧ bs_reader state = reader ∧
  bs_need_scores state = need_scores ∧ bs_search_query_input state = input ∧ itup_ok scan state.
(** what is asked of a document that is returned, and what is returned for it *)
Definition returnable_doc (want_itup : bool) (doc : Score * DocAddr) : Prop :=
  has_ctid sr doc ∧ (want_itup = true → ∃ d, key_datum doc = Ok (Some d)).
Definition returned (doc : Score * DocAddr) (scan : IndexScanDesc) : Prop :=
  xs_recheck scan = false ∧
  (∃ c, ctid_at sr doc.2 = Some c ∧ xs_heaptid scan = u64_to_item_pointer c) ∧
  (xs_want_itup scan = true → ∃ d t, key_datum doc = Ok (Some d) ∧ xs_hitup scan = Some t ∧
     heap_deform_tuple (PgBuiltIn oid :: desc) t = Some d :: replicate (length desc) None).
(** what a call leaves as it is *)
Definition same_scan (scan scan' : IndexScanDesc) : Prop :=
  xs_want_itup scan' = xs_want_itup scan ∧ xs_hitupdesc scan' = xs_hitupdesc scan.

(** the tuple is written in place of the last one, which has the same size *)
Lemma form_itup_ok len d hitup :
  typlen oid = Some len → (∀ t, hitup = Some t → tuple_room t = len) →
  ∃ t, form_itup (PgBuiltIn oid :: desc) (Some d :: replicate (length desc) None) hitup = Ok t ∧ tuple_room t = len ∧
    heap_deform_tuple (PgBuiltIn oid :: desc) t = Some d :: replicate (length desc) None.
Proof.
  intros Hlen Hroom. set (row := Some d :: replicate (length desc) None).
  assert (length row = length (PgBuiltIn oid :: desc)) as Hl by (simpl; by rewrite length_replicate).
  pose proof (data_size_first oid len desc d Hlen) as Hsize. fold row in Hsize. unfold form_itup.
  destruct hitup as [t|].
  - destruct (fill_fits (PgBuiltIn oid :: desc) row t Hl) as (t' & Hfill & Hr & Hd); [rewrite Hsize, (Hroom t) by done; lia|].
    exists t'. rewrite Hfill. split; [done|]. split; [|done]. rewrite Hr. by apply Hroom.
  - eexists. split; [done|]. split; [by rewrite form_room|by apply form_deform].
Qed.

Lemma return_tuple_ok ns input scan state doc scored :
  state_ok ns input scan state → xs_recheck scan = false → returnable_doc (xs_want_itup scan) doc →
  ctid_at sr doc.2 = Some (ctid scored) →
  ∃ scan' state', return_tuple scan state (scored, doc.2) = Ok (scan', state') ∧ state_ok ns input scan' state' ∧
    returned doc scan' ∧ parallel_scan scan' = parallel_scan scan ∧ same_scan scan scan' ∧ bs_results state' = bs_results state.
Proof.
  intros (Hres & Hrd & Hns & Hin & Hi) Hrc [_ Hkey] Hct. unfold return_tuple, state_ok, itup_ok, returned, same_scan in *.
  destruct (xs_want_itup scan) eqn:Hwant.
  - destruct (Hi eq_refl) as (Hdesc & Hoid & Hh & (v & Hv) & len & Hlen & Hroom). destruct (Hkey eq_refl) as (d & Hd).
    pose proof Hd as Hd'. unfold key_datum, key_at in Hd'.
    apply obind_inv in Hd' as (k & Hk & Hdat). apply obind_inv in Hk as (ff & Hff & Hval).
    destruct (get_or_init_ok sr [which] _ 0 doc.2 ff Hh Hff) as (h' & Hget & Hh').
    unfold ffh_value. rewrite Hget. cbn [mbind outcome_bind]. rewrite Hval. cbn [mbind outcome_bind]. rewrite Hoid, Hdat.
    cbn [mbind outcome_bind]. rewrite Hv. unfold Prelude.index. rewrite znth_lookup by done. cbn [Z.to_nat lookup list_lookup mbind outcome_bind].
    change (<[0%nat:=Some d]> (v :: replicate (length desc) None)) with (Some d :: replicate (length desc) None).
    rewrite Hdesc. destruct (form_itup_ok len d (xs_hitup scan) Hlen Hroom) as (t & -> & Hr & Hdef). cbn [mbind outcome_bind].
    eexists _, _. split; [done|]. cbn. rewrite Hwant. split_and!; try done.
    + intros _. split_and!; try done; [by exists (Some d)|]. exists len. split; [done|]. by intros ? [= <-].
    + by eexists.
    + intros _. by exists d, t.
  - eexists _, _. split; [done|]. cbn. rewrite Hwant. split_and!; try done. by eexists.
Qed.

(** the first result that is left is returned *)
Lemma loop_some ns input fuel scan state doc docs :
  state_ok ns input scan state → xs_recheck scan = false → left_docs (bs_results state) = doc :: docs →
  returnable_doc (xs_want_itup scan) doc →
  ∃ scan' state', amgettuple_loop (S fuel) scan state = Ok (true, scan') ∧ opaque scan' = Some (Some state') ∧
    state_ok ns input scan' state' ∧ left_docs (bs_results state') = docs ∧ returned doc scan' ∧
    parallel_scan scan' = parallel_scan scan ∧ same_scan scan scan'.
Proof.
  intros (Hres & Hreader & Hns & Hin & Hi) Hrc Hl Hdoc. cbn [amgettuple_loop].
  pose proof (next_results_ok reader _ Hres) as Hn. rewrite Hl in Hn. destruct doc as [score addr].
  destruct Hdoc as [[c Hc] Hkey]. destruct (Hn c Hc) as (r' & -> & Hr' & Hl'). cbn [mbind outcome_bind].
  destruct (return_tuple_ok ns input scan (set_results r' state) (score, addr) {| ctid := c; bm25 := score |})
    as (scan' & state' & Hrun & Hok & Hret & Hp & Hs & Hr); try done; [by split; [exists c|]|].
  cbn [snd] in Hrun. rewrite Hrun. cbn [mbind outcome_bind]. eexists _, state'. split; [done|]. split; [done|].
  split; [done|]. by rewrite Hr.
Qed.
(** or none is left, and a segment is claimed *)
Lemma loop_none ns input fuel scan state :
  state_ok ns input scan state → left_docs (bs_results state) = [] →
  ∃ r, results_ok reader r ∧ left_docs r = [] ∧
    amgettuple_loop (S fuel) scan state =
      ('(more, shared, state) ← search_next_segment (parallel_scan scan) (set_results r state);
       let scan := set_opaque (Some state) shared scan in
       if (more : bool) then amgettuple_loop fuel scan state else Ok (false, scan)).
Proof.
  intros (Hres & _) Hl. cbn [amgettuple_loop]. pose proof (next_results_ok reader _ Hres) as Hn. rewrite Hl in Hn.
  destruct Hn as (r' & -> & Hr' & Hl'). by exists r'.
Qed.

(** ** Scans that are not parallel *)

(** the scan as the executor sees it after each tuple *)
Fixpoint fetch (fuel : nat) (scan : IndexScanDesc) : outcome (list IndexScanDesc) :=
  match fuel with
  | O => NoFuel
  | S fuel =>
      '(more, scan) ← amgettuple scan;
      if (more : bool) then rows ← fetch fuel scan; Ok (scan :: rows) else Ok []
  end.

Lemma fetch_ok ns input scan state :
  state_ok ns input scan state → opaque scan = Some (Some state) → parallel_scan scan = None →
  Forall (returnable_doc (xs_want_itup scan)) (left_docs (bs_results state)) →
  ∃ rows, fetch (S (length (left_docs (bs_results state)))) scan = Ok rows ∧
    Forall2 returned (left_docs (bs_results state)) rows.
Proof.
  remember (left_docs (bs_results state)) as docs eqn:Hl. symmetry in Hl. revert scan state Hl.
  induction docs as [|doc docs IH]; intros scan state Hl Hok Hop Hp Hdocs; cbn [length];
    (change (fetch (S ?n) scan) with ('(more, scan) ← amgettuple scan;
      if (more : bool) then rows ← fetch n scan; Ok (scan :: rows) else Ok []));
    unfold amgettuple, scan_state; rewrite Hop; cbn [mbind outcome_bind].
  - destruct (loop_none ns input (claimable (parallel_scan scan)) (no_recheck scan) state Hok Hl) as (r & _ & _ & ->).
    cbn [parallel_scan no_recheck]. rewrite Hp. exists []. split; [done|constructor].
  - apply Forall_cons in Hdocs as [Hdoc Hdocs].
    destruct (loop_some ns input (claimable (parallel_scan scan)) (no_recheck scan) state doc docs Hok eq_refl Hl Hdoc)
      as (scan' & state' & -> & Hop' & Hok' & Hl' & Hret & Hp' & Hw & Hd).
    cbn [mbind outcome_bind]. destruct (IH scan' state' Hl' Hok' Hop') as (rows & Hrows & Hall).
    + by rewrite Hp'.
    + by rewrite Hw.
    + exists (scan' :: rows). rewrite Hrows. split; [done|by constructor].
Qed.

(** the address of a document's tuple *)
Definition tid_of (doc : Score * DocAddr) (tid : ItemPointerData) : Prop :=
  ∃ c, ctid_at sr doc.2 = Some c ∧ tid = u64_to_item_pointer c.
Lemma add_results_ok fuel r tbm cnt :
  results_ok reader r → Forall (has_ctid sr) (left_docs r) → (length (left_docs r) < fuel)%nat →
  ∃ r' tids, add_results fuel r tbm cnt = Ok (r', tbm ++ tids, cnt + zlen (left_docs r)) ∧
    Forall2 tid_of (left_docs r) tids ∧ results_ok reader r' ∧ left_docs r' = [].
Proof.
  revert r tbm cnt. induction fuel as [|fuel IH]; intros r tbm cnt Hr Hdocs Hf; [lia|]. cbn [add_results].
  pose proof (next_results_ok reader r Hr) as Hn. destruct (left_docs r) as [|[score addr] docs] eqn:Hl.
  - destruct Hn as (r' & -> & Hr' & Hl'). exists r', []. rewrite app_nil_r. change (zlen []) with 0. rewrite Z.add_0_r.
    split; [done|]. split; [constructor|done].
  - apply Forall_cons in Hdocs as [[c Hc] Hdocs]. destruct (Hn c Hc) as (r' & -> & Hr' & Hl'). cbn [mbind outcome_bind].
    destruct (IH r' (tbm ++ [u64_to_item_pointer c]) (cnt + 1) Hr') as (r'' & tids & Hrun & Hall & Hr'' & Hl'');
      [by rewrite Hl'|rewrite Hl'; simpl in Hf; lia|].
    exists r'', (u64_to_item_pointer c :: tids). cbn [ctid]. rewrite Hrun, Hl', zlen_cons, <- app_assoc. split.
    { f_equal. f_equal. lia. }
    split; [|done]. rewrite Hl' in Hall. constructor; [by exists c|done].
Qed.
Lemma amgetbitmap_ok ns input scan state tbm :
  state_ok ns input scan state → opaque scan = Some (Some state) → parallel_scan scan = None →
  Forall (has_ctid sr) (left_docs (bs_results state)) →
  ∃ scan' tids, amgetbitmap scan tbm = Ok (zlen (left_docs (bs_results state)), tbm ++ tids, scan') ∧
    Forall2 tid_of (left_docs (bs_results state)) tids.
Proof.
  intros (Hres & _) Hop Hp Hdocs. unfold amgetbitmap, scan_state. rewrite Hop. cbn [mbind outcome_bind amgetbitmap_loop].
  destruct (add_results_ok (S (Z.to_nat (count (bs_results state)))) (bs_results state) tbm 0 Hres Hdocs)
    as (r' & tids & -> & Hall & _ & _); [rewrite count_left; unfold zlen; lia|].
  cbn [mbind outcome_bind]. rewrite Hp, Z.add_0_l. by eexists _, tids.
Qed.
End tuple_lemmas.

(** ** Starting a scan *)

Section rescan_lemmas.
Context `{RustF64} `{TantivyTypes} `{TantivyText} `{TantivyRegex} `{RustBuild}
  `{Chrono} `{!PgDates} `{AsFieldType} `{!TantivyParser} `{!TantivySearcher} `{TantivyIndex} `{!TantivyReader}
  `{!PgrxTypes} `{!TimeCrate} `{!PgDatums} `{PgTypes} `{!TantivyColumns} `{TantivySchema}
  `{!PgDatum} `{!QueryDatum} `{!HeapTuples}.
Variables (open_reader : bool → outcome SearchIndexReader) (schema : SearchIndexSchema) (key_field : string)
  (field : SearchField) (reader : SearchIndexReader) (oid : PgBuiltInOids) (desc : list PgOid).
Hypothesis Hfield : schema_key_field schema = Ok field.
(** the column of the [key_field] option *)
Definition key_column : WhichFastField := which_from (key_field, fast_field_type_from (sf_type field)).

(** the executor wants index tuples only of a type that can be returned, and a tuple of an
    earlier scan has the size of such a type *)
Definition scan_ready_for (scan : IndexScanDesc) : Prop :=
  open_reader (xs_want_itup scan) = Ok reader ∧ xs_hitupdesc scan = PgBuiltIn oid :: desc ∧
  (xs_want_itup scan = true → amcanreturn (xs_hitupdesc scan) 1 = Ok true) ∧
  (∀ t len, xs_hitup scan = Some t → typlen oid = Some len → tuple_room t = len).

Lemma returnable_typlen rest : amcanreturn (PgBuiltIn oid :: rest) 1 = Ok true → ∃ len, typlen oid = Some len.
Proof.
  unfold amcanreturn. cbn. intros [= Hin]. repeat (case_bool_decide; [simplify_eq; by eexists|]). done.
Qed.

Lemma amrescan_ok w scan keys input shared0 shared results i :
  scan_ready_for scan → keys_query keys = Ok input →
  maybe_init_parallel_scan i (reader_segment_id <$> searcher reader) (parallel_scan scan) = Ok (w, shared0) →
  search_results (contains_more_like_this input) input reader shared0 = Ok (results, shared) → results_ok reader results →
  ∃ state, amrescan open_reader schema (Some key_field) i scan keys = Ok (set_opaque (Some state) shared scan) ∧
    bs_results state = results ∧
    state_ok reader key_column oid desc (contains_more_like_this input) input (set_opaque (Some state) shared scan) state.
Proof.
  intros (Hopen & Hdesc & Hcan & Hroom) Hkeys Hinit Hsearch Hres. unfold amrescan. rewrite Hkeys. cbn [mbind outcome_bind].
  rewrite Hopen. cbn [mbind outcome_bind]. rewrite Hinit. cbn [mbind outcome_bind expect_ok]. rewrite Hfield.
  cbn [mbind outcome_bind]. rewrite Hsearch. cbn [mbind outcome_bind]. unfold state_ok, itup_ok.
  destruct (xs_want_itup scan) eqn:Hwant.
  - rewrite Hdesc in *. destruct (returnable_typlen desc (Hcan eq_refl)) as (len & Hlen).
    cbn [index znth mbind outcome_bind]. unfold index. rewrite znth_lookup by done. cbn [Z.to_nat lookup list_lookup mbind outcome_bind].
    eexists. split; [done|]. split; [done|]. cbn. rewrite Hdesc. split_and!; try done. intros _. split_and!; try done.
    + apply with_fields_ok.
    + by exists None.
    + exists len. split; [done|]. intros t Ht. by apply Hroom.
  - cbn [mbind outcome_bind]. eexists. split; [done|]. cbn. rewrite Hwant. split_and!; done.
Qed.
End rescan_lemmas.

(** C23: An index scan returns each live document that matches the scan keys exactly
    once and then ends, as a plain scan by its tuple address, as an index only scan with
    the key in the index tuple, which the scan then writes over in place and never past
    its end, and as a bitmap scan by adding all addresses and reporting their number. *)
Theorem index_scan_returns_matches `{RustF64} `{TantivyTypes} `{TantivyText} `{TantivyRegex} `{RustBuild}
    `{Chrono} `{!PgDates} `{AsFieldType} `{!TantivyParser} `{!TantivySearcher} `{TantivyIndex} `{!TantivyReader}
    `{!PgrxTypes} `{!TimeCrate} `{!PgDatums} `{PgTypes} `{!TantivyColumns} `{TantivySchema}
    `{!PgDatum} `{!QueryDatum} `{!HeapTuples}
    (open_reader : bool → outcome SearchIndexReader) schema key_field field reader oid desc worker scan keys input q p' tbm :
  schema_key_field schema = Ok field → scan_ready_for open_reader reader oid desc scan → parallel_scan scan = None →
  keys_query keys = Ok input → into_tantivy_query input for_index = Ok (q, p') →
  let which := key_column key_field field in
  let docs := concat (matching q (contains_more_like_this input) <$> reverse (enumerate (searcher reader))) in
  Forall (returnable_doc reader which oid (xs_want_itup scan)) docs →
  ∃ scan' rows scan'' tids,
    amrescan open_reader schema (Some key_field) worker scan keys = Ok scan' ∧
    fetch (S (length docs)) scan' = Ok rows ∧ Forall2 (returned reader which oid desc) docs rows ∧
    amgetbitmap scan' tbm = Ok (zlen docs, tbm ++ tids, scan'') ∧ Forall2 (tid_of reader) docs tids.
Proof.
  intros Hfield Hready Hp Hkeys Hq which docs Hdocs.
  destruct (search_ok reader (contains_more_like_this input) input q p' Hq) as (r & Hsearch & Hwf & Hsr & Hleft).
  destruct (amrescan_ok open_reader schema key_field field reader oid desc Hfield None scan keys input None None r worker)
    as (state & Hrun & Hr & Hok); try done.
  { by rewrite Hp. }
  { unfold search_results. by rewrite Hsearch. }
  { by split; [|left]. }
  set (scan' := set_opaque (Some state) None scan) in *.
  destruct (fetch_ok reader which oid desc _ _ scan' state Hok) as (rows & Hrows & Hall); [done..|by rewrite Hr, Hleft|].
  destruct (amgetbitmap_ok reader which oid desc _ _ scan' state tbm Hok) as (scan'' & tids & Hbm & Htids); [done..| |].
  { rewrite Hr, Hleft. eapply Forall_impl; [exact Hdocs|]. by intros doc [? _]. }
  rewrite Hr, Hleft in *. by exists scan', rows, scan'', tids.
Qed.

(** ** Parallel scans *)

Section parallel_lemmas.
Context `{RustF64} `{TantivyTypes} `{TantivyText} `{TantivyRegex} `{RustBuild}
  `{Chrono} `{!PgDates} `{AsFieldType} `{!TantivyParser} `{!TantivySearcher} `{TantivyIndex} `{!TantivyReader}
  `{!PgrxTypes} `{!TimeCrate} `{!PgDatums} `{PgTypes} `{!TantivyColumns} `{TantivySchema}
  `{!PgDatum} `{!QueryDatum} `{!HeapTuples}.
Variables (reader : SearchIndexReader) (which : WhichFastField) (oid : PgBuiltInOids) (desc : list PgOid).
Variables (input : SearchQueryInput) (q : Query) (p' : QueryParser) (want_itup : bool).
Notation sr := (searcher reader).
Notation ns := (contains_more_like_this input).

(** the segments, and the tuple addresses of the documents of one that match *)
Definition all_segment_ids : list SegmentId := reader_segment_id <$> sr.
Definition doc_ctids (docs : list (Score * DocAddr)) : list Z := omap (λ doc, ctid_at sr doc.2) docs.
Definition segment_ctids (id : SegmentId) : list Z :=
  match find_segment reader id with Ok seg => doc_ctids (matching q ns seg) | _ => [] end.

(** participant [i] is where its scan descriptor says *)
Definition participant (c : ScanConf) (i : Z) (scan : IndexScanDesc) (state : Bm25ScanState) : Prop :=
  state_ok reader which oid desc ns input scan state ∧ xs_want_itup scan = want_itup ∧
  Forall (returnable_doc reader which oid want_itup) (left_docs (bs_results state)) ∧
  parallel_scan scan = Some (sc_shared c) ∧
  sc_workers c !! i = Some (Scanning (doc_ctids (left_docs (bs_results state)))).

Hypothesis Hquery : into_tantivy_query input for_index = Ok (q, p').
Hypothesis few_segments : zlen all_segment_ids ≤ u16_MAX.
Hypothesis Hdocs : Forall (returnable_doc reader which oid want_itup) (concat (matching q ns <$> enumerate sr)).
Notation step := (scan_step all_segment_ids segment_ctids).
Notation inv := (scan_inv all_segment_ids segment_ctids).

Lemma find_segment_ok id : id ∈ all_segment_ids → ∃ seg, find_segment reader id = Ok seg ∧ seg ∈ enumerate sr.
Proof.
  intros (rd & -> & Hin)%list_elem_of_fmap. unfold find_segment.
  destruct (list_find _ (enumerate sr)) as [[n seg]|] eqn:Hf.
  - exists seg. split; [done|]. apply list_find_Some in Hf as (Hn & _). by apply list_elem_of_lookup_2 in Hn.
  - exfalso. apply list_find_None in Hf. apply list_elem_of_lookup in Hin as (n & Hn).
    rewrite Forall_forall in Hf. apply (Hf (Z.of_nat n, rd)); [|done].
    apply list_elem_of_lookup. exists n. unfold enumerate. by rewrite list_lookup_imap, Hn.
Qed.

(** a claim: what it is depends on how many segments are left *)
Lemma claim_some c :
  inv c → remaining_segments (sc_shared c) ≠ 0 →
  ∃ id shared, maybe_claim_segment (Some (sc_shared c)) = Ok (Some id, Some shared) ∧ id ∈ all_segment_ids ∧
    (claimable (Some shared) < claimable (Some (sc_shared c)))%nat.
Proof.
  intros [(_ & Hz & _)|[Hr _]] Hne; [done|].
  destruct (claim_spec all_segment_ids segment_ctids c Hr) as [[? _]|(id & shared & Hrun & _ & _ & Hlt & Hdrop)]; [done|].
  exists id, shared. split; [done|]. split; [|cbn; lia].
  apply (subseteq_drop (Z.to_nat (remaining_segments shared))). fold (zdrop (remaining_segments shared) all_segment_ids).
  rewrite Hdrop. by left.
Qed.
Lemma claim_zero c : remaining_segments (sc_shared c) = 0 →
  maybe_claim_segment (Some (sc_shared c)) = Ok (None, Some (sc_shared c)).
Proof. intros Hz. unfold maybe_claim_segment. by rewrite Hz. Qed.

(** the results of a claimed segment *)
Lemma claimed_results id :
  id ∈ all_segment_ids →
  ∃ r, search_segment reader ns id input = Ok r ∧ results_ok reader r ∧
    doc_ctids (left_docs r) = segment_ctids id ∧ Forall (returnable_doc reader which oid want_itup) (left_docs r).
Proof.
  intros (seg & Hseg & Hin)%find_segment_ok.
  destruct (search_segment_ok reader ns id input q p' seg Hquery Hseg) as (r & Hr & Hwf & Hsr & Hl).
  exists r. split; [done|]. split; [by split; [|left]|]. rewrite Hl. unfold segment_ctids. rewrite Hseg. split; [done|].
  apply Forall_forall. intros doc Hd. rewrite Forall_forall in Hdocs. apply Hdocs.
  apply list_elem_of_In, in_concat. exists (matching q ns seg).
  split; apply list_elem_of_In; [|done]. by apply list_elem_of_fmap_2.
Qed.

(** what a call has done when it returns *)
Definition call_ends (c : ScanConf) (i : Z) (more : bool) (scan' : IndexScanDesc) : Prop :=
  ∃ c' state', rtc step c c' ∧ opaque scan' = Some (Some state') ∧
    if more then
      (∃ ctid doc, sc_emitted c' = sc_emitted c ++ [ctid] ∧ ctid_at sr doc.2 = Some ctid ∧ returned reader which oid desc doc scan') ∧
      participant c' i scan' state'
    else sc_emitted c' = sc_emitted c ∧ sc_workers c' !! i = Some Done ∧ parallel_scan scan' = Some (sc_shared c').

Lemma call_ends_step c c1 i more scan' :
  step c c1 → sc_emitted c1 = sc_emitted c → call_ends c1 i more scan' → call_ends c i more scan'.
Proof.
  intros Hs He (c' & state' & Hrtc & Hrest). exists c', state'. split; [by eapply rtc_l|]. by rewrite <- He.
Qed.

Lemma participant_loop fuel c i scan state :
  inv c → participant c i scan state → xs_recheck scan = false → (claimable (Some (sc_shared c)) < fuel)%nat →
  ∃ more scan', amgettuple_loop fuel scan state = Ok (more, scan') ∧ call_ends c i more scan'.
Proof.
  revert c scan state. induction fuel as [|fuel IH]; intros c scan state Hinv (Hok & Hw & Hret & Hp & Hi) Hrc Hf; [lia|].
  destruct (left_docs (bs_results state)) as [|doc docs] eqn:Hl.
  - destruct (loop_none reader which oid desc ns input fuel scan state Hok Hl) as (r & Hr & Hlr & ->).
    unfold search_next_segment. rewrite Hp.
    destruct (decide (remaining_segments (sc_shared c) = 0)) as [Hz|Hne].
    + rewrite (claim_zero c Hz). cbn [mbind outcome_bind]. eexists _, _. split; [done|].
      exists (set_phase i Done (sc_shared c) [] c). eexists. split; [|split; [done|]].
      * apply rtc_once. apply step_done; [done|]. by apply claim_zero.
      * cbn. rewrite app_nil_r, lookup_insert_eq. done.
    + destruct (claim_some c Hinv Hne) as (id & shared & Hclaim & Hid & Hlt). rewrite Hclaim. cbn [mbind outcome_bind].
      destruct Hok as (_ & Hrd & Hns & Hin & Hitup). cbn [set_results bs_reader bs_need_scores bs_search_query_input].
      rewrite Hrd, Hns, Hin. destruct (claimed_results id Hid) as (r1 & -> & Hr1 & Hct & Hret1). cbn [mbind outcome_bind].
      set (c1 := set_phase i (Scanning (segment_ctids id)) shared [] c).
      set (state1 := set_results r1 (set_results r state)). set (scan1 := set_opaque (Some state1) (Some shared) scan).
      assert (step c c1) as Hs by by apply step_next_segment.
      destruct (IH c1 scan1 state1) as (more & scan' & Hrun & Hends); [by eapply scan_step_inv| |done|change (sc_shared c1) with shared; lia|].
      * split; [by split_and!|]. split; [done|]. split; [done|]. split; [done|]. cbn. by rewrite lookup_insert_eq, Hct.
      * exists more, scan'. split; [done|]. eapply call_ends_step; [done| |done]. cbn. by rewrite app_nil_r.
  - apply Forall_cons in Hret as [Hdoc Hret]. rewrite <- Hw in Hdoc.
    destruct (loop_some reader which oid desc ns input fuel scan state doc docs Hok Hrc Hl Hdoc)
      as (scan' & state' & -> & Hop' & Hok' & Hl' & Hretd & Hp' & Hw' & Hd').
    exists true, scan'. split; [done|]. destruct Hdoc as [[ctid Hc] _].
    cbn [doc_ctids omap list_omap] in Hi. unfold doc_ctids in Hi. cbn [omap list_omap] in Hi. rewrite Hc in Hi.
    exists (set_phase i (Scanning (doc_ctids docs)) (sc_shared c) [ctid] c), state'.
    split; [by apply rtc_once, step_tuple|]. split; [done|]. split; [by exists ctid, doc|].
    split; [done|]. split; [congruence|]. rewrite Hl'. split; [done|]. split; [by rewrite Hp'|]. cbn. by rewrite lookup_insert_eq.
Qed.

Lemma participant_gettuple c i scan state :
  inv c → participant c i scan state → opaque scan = Some (Some state) →
  ∃ more scan', amgettuple scan = Ok (more, scan') ∧ call_ends c i more scan'.
Proof.
  intros Hinv Hpart Hop. pose proof Hpart as (Hok & Hw & Hret & Hp & Hi). unfold amgettuple, scan_state.
  rewrite Hop. cbn [mbind outcome_bind]. apply (participant_loop _ c i (no_recheck scan) state); [done|by split_and!|done|].
  rewrite Hp. lia.
Qed.

Lemma init_step c i :
  inv c → sc_workers c !! i = Some NotStarted →
  ∃ shared, maybe_init_parallel_scan i all_segment_ids (Some (sc_shared c)) = Ok (Some i, Some shared).
Proof.
  intros Hinv Hi. cbn. destruct (i =? -1); [|by eexists].
  destruct (assign_spec all_segment_ids (sc_shared c) few_segments) as (st & -> & _). by eexists.
Qed.

(** [amrescan] is a participant's start and its first claim *)
Lemma participant_rescan open_reader schema key_field field keys c i scan :
  schema_key_field schema = Ok field → which = key_column key_field field →
  scan_ready_for open_reader reader oid desc scan → keys_query keys = Ok input → xs_want_itup scan = want_itup →
  inv c → parallel_scan scan = Some (sc_shared c) → sc_workers c !! i = Some NotStarted →
  ∃ scan' state' c', amrescan open_reader schema (Some key_field) i scan keys = Ok scan' ∧
    opaque scan' = Some (Some state') ∧ rtc step c c' ∧ sc_emitted c' = sc_emitted c ∧ participant c' i scan' state'.
Proof.
  intros Hfield Hwhich Hready Hkeys Hw Hinv Hp Hi. destruct (init_step c i Hinv Hi) as (shared & Hinit).
  set (c1 := set_phase i Rescanning shared [] c).
  assert (step c c1) as Hs1 by by apply step_init.
  pose proof (scan_step_inv _ _ few_segments _ _ Hs1 Hinv) as Hinv1.
  assert (sc_workers c1 !! i = Some Rescanning) as Hi1 by (cbn; by rewrite lookup_insert_eq).
  assert (∃ o shared' r, maybe_claim_segment (Some shared) = Ok (o, Some shared') ∧
    search_results ns input reader (Some shared) = Ok (r, Some shared') ∧ results_ok reader r ∧
    match o with Some id => segment_ctids id | None => [] end = doc_ctids (left_docs r) ∧
    Forall (returnable_doc reader which oid want_itup) (left_docs r))
    as (o & shared' & r & Hclaim & Hsearch & Hr & Hct & Hret).
  { unfold search_results. destruct (decide (remaining_segments shared = 0)) as [Hz|Hne].
    - exists None, shared, NoResults. pose proof (claim_zero c1 Hz) as Hc. cbn [sc_shared set_phase c1] in Hc. rewrite Hc.
      split; [done|]. split; [done|]. split; [by split; [|right]|]. split; [done|constructor].
    - destruct (claim_some c1 Hinv1 Hne) as (id & shared' & Hc & Hid & _). cbn [sc_shared set_phase c1] in Hc.
      destruct (claimed_results id Hid) as (r & Hrun & Hr & Hct & Hret). exists (Some id), shared', r.
      rewrite Hc. cbn [mbind outcome_bind]. by rewrite Hrun. }
  destruct (amrescan_ok open_reader schema key_field field reader oid desc Hfield (Some i) scan keys input
    (Some shared) (Some shared') r i) as (state & Hrun & Hres & Hok); [done|done|by rewrite Hp|done|done|].
  eexists _, state, (set_phase i (Scanning (doc_ctids (left_docs r))) shared' [] c1).
  split; [exact Hrun|]. split; [done|]. split; [|split; [cbn; by rewrite !app_nil_r|]].
  - eapply rtc_l; [exact Hs1|]. apply rtc_once. rewrite <- Hct. by apply step_first_claim.
  - unfold participant. rewrite Hres, Hwhich. split; [exact Hok|]. split; [done|].
    split; [by rewrite <- Hwhich|]. split; [done|]. cbn. by rewrite lookup_insert_eq.
Qed.
End parallel_lemmas.

(** C24: Every call of a participant of a parallel index scan is a run of the step
    relation whose runs end with every tuple returned once: starting the scan claims at
    most one segment and returns nothing, and each further call returns, always ends,
    and either emits exactly the tuple it puts in the descriptor or leaves the
    participant done with nothing left to claim. *)
Theorem parallel_calls_refine `{RustF64} `{TantivyTypes} `{TantivyText} `{TantivyRegex} `{RustBuild}
    `{Chrono} `{!PgDates} `{AsFieldType} `{!TantivyParser} `{!TantivySearcher} `{TantivyIndex} `{!TantivyReader}
    `{!PgrxTypes} `{!TimeCrate} `{!PgDatums} `{PgTypes} `{!TantivyColumns} `{TantivySchema}
    `{!PgDatum} `{!QueryDatum} `{!HeapTuples}
    (open_reader : bool → outcome SearchIndexReader) schema key_field field reader oid desc want_itup keys input q p' c i scan :
  schema_key_field schema = Ok field → keys_query keys = Ok input → into_tantivy_query input for_index = Ok (q, p') →
  let which := key_column key_field field in
  let ids := all_segment_ids reader in
  let ctids := segment_ctids reader input q in
  zlen ids ≤ u16_MAX →
  Forall (returnable_doc reader which oid want_itup)
    (concat (matching q (contains_more_like_this input) <$> enumerate (searcher reader))) →
  scan_inv ids ctids c → parallel_scan scan = Some (sc_shared c) → xs_want_itup scan = want_itup →
  (sc_workers c !! i = Some NotStarted → scan_ready_for open_reader reader oid desc scan →
   ∃ scan' state' c', amrescan open_reader schema (Some key_field) i scan keys = Ok scan' ∧
     opaque scan' = Some (Some state') ∧ rtc (scan_step ids ctids) c c' ∧ sc_emitted c' = sc_emitted c ∧
     participant reader which oid desc input want_itup c' i scan' state') ∧
  (∀ state, participant reader which oid desc input want_itup c i scan state → opaque scan = Some (Some state) →
   ∃ more scan', amgettuple scan = Ok (more, scan') ∧
     call_ends reader which oid desc input q want_itup c i more scan').
Proof.
  intros Hfield Hkeys Hq which ids ctids Hfew Hdocs Hinv Hp Hw. split.
  - intros Hi Hready. by eapply participant_rescan.
  - intros state Hpart Hop. by eapply participant_gettuple.
Qed.

(** ** The query of the scan keys *)

(** The query of several keys matches what every key's matches. *)
Theorem keys_query_conjoins `{RustF64} `{TantivyTypes} `{TantivyText} `{TantivyRegex} `{RustBuild}
    `{Chrono} `{!PgDates} `{AsFieldType} `{!TantivyParser} `{!TantivySearcher} `{!TantivySearch}
    `{!PgDatum} `{!QueryDatum} (keys : list ScanKeyData) (Ps : list (Doc → Prop)) :
  keys ≠ [] →
  Forall2 (λ key P, ∃ input, key_to_search_query_input key = Ok input ∧ converts input P) keys Ps →
  ∃ input, keys_query keys = Ok input ∧ converts input (λ d, Forall (λ P : Doc → Prop, P d) Ps).
Proof.
  intros Hne Hall. destruct Hall as [|key P keys Ps (input & Hkey & Hin) Hall]; [done|]. cbn [keys_query].
  rewrite Hkey. cbn [mbind outcome_bind]. clear Hne Hkey. revert input P Hin.
  induction Hall as [|key' P' keys Ps (input' & Hkey & Hin') _ IH]; intros input P Hin; cbn [and_keys].
  - exists input. split; [done|]. eapply converts_iff; [|exact Hin]. intros d. by rewrite Forall_singleton.
  - rewrite Hkey. cbn [mbind outcome_bind].
    destruct (IH (Input.Boolean [input; input'] [] []) (λ d, P d ∧ P' d ∧ True)) as (all & Hrun & Hc).
    { apply (converts_must [input; input'] [P; P']); [|done]. by repeat constructor. }
    exists all. split; [exact Hrun|]. eapply converts_iff; [|exact Hc]. intros d. cbn. rewrite !Forall_cons. tauto.
Qed.

(** ** [amcostestimate] *)

Class PlannerCosts `{RustF64} := { DEFAULT_STARTUP_COST : F64; cpu_index_tuple_cost : F64; cpu_tuple_cost : F64 }.

Section cost.
Context `{RustF64} `{!RustF64Ops} `{!RustF64Class} `{!PlannerCosts}.

Record CostEstimate := {
  index_startup_cost : F64;
  index_total_cost : F64;
  index_selectivity : F64;
  index_correlation : F64;
  index_pages : F64
}.
(** [a.partial_cmp(b).unwrap_or(Greater)] is not [Greater] *)
Definition f64_le (a b : F64) : bool := f64_lt a b || f64_eq a b.
(** [min_by] keeps the first of equals *)
Definition min_by_cmp (norms : list F64) : option F64 :=
  match norms with
  | [] => None
  | norm :: norms => Some (foldl (λ a b, if f64_le a b then a else b) norm norms)
  end.
Definition is_positive (norm : F64) : bool := f64_lt (f64_of_Z 0) norm.

(** [norm_selecs]: of the clauses' [RestrictInfo]s; [heap_reltuples]: [None] is no heap relation, or no estimate in it *)
Definition amcostestimate (norm_selecs : list F64) (heap_reltuples : option (option F64)) (page_estimate : Z)
    : outcome CostEstimate :=
  reltuples ← expect_ok heap_reltuples "index relation must have a valid corresponding heap relation";
  let reltuples := default (f64_of_Z 1) reltuples in
  let selectivity := default UNKNOWN_SELECTIVITY (min_by_cmp (List.filter is_positive norm_selecs)) in
  Ok {| index_startup_cost := DEFAULT_STARTUP_COST;
        index_total_cost :=
          f64_add DEFAULT_STARTUP_COST (f64_mul (f64_mul selectivity reltuples) cpu_index_tuple_cost);
        index_selectivity := selectivity;
        index_correlation := f64_of_Z 0;
        index_pages := f64_mul selectivity (f64_of_Z page_estimate) |}.

Lemma min_by_cmp_least norms :
  (∀ a b, a ∈ norms → b ∈ norms → f64_le a b = true ∨ f64_le b a = true) →
  (∀ a b c, f64_le a b = true → f64_le b c = true → f64_le a c = true) →
  match min_by_cmp norms with
  | None => norms = []
  | Some s => s ∈ norms ∧ Forall (λ n, f64_le s n = true) norms
  end.
Proof.
  destruct norms as [|norm norms]; [done|]. cbn [min_by_cmp]. intros Htot Htrans.
  revert norm Htot. induction norms as [|b norms IH]; intros a Htot; cbn [foldl].
  { split; [by left|]. constructor; [|constructor]. by destruct (Htot a a ltac:(left) ltac:(left)). }
  destruct (f64_le a b) eqn:Hab; [destruct (IH a) as [Hin Hall]|destruct (IH b) as [Hin Hall]];
    try (intros x y Hx Hy; apply Htot; set_solver).
  - split; [set_solver|]. apply Forall_cons in Hall as [Ha Hall]. constructor; [done|]. constructor; [|done]. by eapply Htrans.
  - split; [set_solver|]. constructor; [|done]. apply Forall_cons in Hall as [Hb _]. eapply Htrans; [exact Hb|].
    destruct (Htot a b); [by left|by right; left|congruence|done].
Qed.
(** The estimate uses the most selective of the clauses that have an estimate. *)
Theorem most_selective_clause norm_selecs heap_reltuples page_estimate e :
  (∀ a b, a ∈ norm_selecs → b ∈ norm_selecs → f64_le a b = true ∨ f64_le b a = true) →
  (∀ a b c, f64_le a b = true → f64_le b c = true → f64_le a c = true) →
  amcostestimate norm_selecs heap_reltuples page_estimate = Ok e →
  (∀ n, n ∈ norm_selecs → is_positive n = true → f64_le (index_selectivity e) n = true) ∧
  (index_selectivity e ∈ norm_selecs ∨ index_selectivity e = UNKNOWN_SELECTIVITY).
Proof.
  intros Htot Htrans Hrun. unfold amcostestimate in Hrun. apply obind_inv in Hrun as (rows & _ & [= <-]). cbn [index_selectivity].
  assert (∀ n, n ∈ List.filter is_positive norm_selecs ↔ n ∈ norm_selecs ∧ is_positive n = true) as Hf.
  { intros n. rewrite !list_elem_of_In. apply List.filter_In. }
  pose proof (min_by_cmp_least (List.filter is_positive norm_selecs)) as Hmin.
  destruct (min_by_cmp _) as [s|]; cbn [default from_option].
  - destruct Hmin as [Hin Hall]; [intros a b [? _]%Hf [? _]%Hf; by apply Htot|done|].
    split; [|left; by apply Hf in Hin as [? _]]. intros n Hn Hp. rewrite Forall_forall in Hall. by apply Hall, Hf.
  - split; [|by right]. intros n Hn Hp. assert (n ∈ List.filter is_positive norm_selecs) as Hin by by apply Hf.
    rewrite Hmin in Hin; [by apply not_elem_of_nil in Hin| |done]. intros a b [? _]%Hf [? _]%Hf. by apply Htot.
Qed.
End cost.
