(* ===== verification/Planner.v ===== *)
(** * Planner: the custom scan's path

    [customscan/pdbscan/mod.rs] ([callback], the choice of the exec method),
    [customscan/builders/custom_path.rs], [customscan/hook.rs], [projections/mod.rs] and the
    cardinality estimate of [exec_methods/fast_fields/mod.rs]: when the scan is offered to the
    planner, with which limit, order, costs and workers, and how it replaces other paths. *)

From S2P Require Import Prelude Page Block PgUtils TokenizerConfig Query CustomScan Schema Rows Reader Parallel ScanExec FastFields Operator AmScan.

Open Scope Z_scope.

(** ** What the planner knows *)

(** an expression of an equivalence class, as far as the code looks into it *)
Inductive SortExpr :=
  | S_Var (v : VarNode)
  | S_FuncExpr (funcid : Z) (args : list SortExpr)
  | S_RelabelType (arg : SortExpr)
  | S_Other (args : list SortExpr).
Record PathKey := { pk_strategy : Z; ec_members : list SortExpr }.
Record RestrictInfo `{PgDatum} := { ri_node : Node; norm_selec : F64 }.

(** [RelOptInfo], [RangeTblEntry] and [PlannerInfo] *)
Record PathArgs `{PgDatum} := {
  baserestrictinfo : list RestrictInfo;
  joininfo : list RestrictInfo;
  consider_parallel : bool;
  pa_rti : Z;
  pa_relid : Z;
  is_rte_relation : bool;
  is_rte_join : bool;
  is_plain_or_matview : bool;
  pa_root : PlannerInfo;
  query_pathkeys : list PathKey;
  limit_tuples : F64;
  only_relation : bool;
  parse_targetList : list TargetEntry
}.

Inductive Flags := BackwardScan | MarkRestore | Projection | Force.
#[global] Instance Flags_eq_dec : EqDecision Flags.
Proof. solve_decision. Defined.
Definition flag_bits (f : Flags) : Z :=
  match f with BackwardScan => 1 | MarkRestore => 2 | Projection => 4 | Force => 8 end.

(** [CustomPathBuilder], of which the path node has these fields *)
Record CustomPathBuilder `{PgDatum} := {
  flags : list Flags;
  path_rows : F64;
  path_startup_cost : F64;
  path_total_cost : F64;
  pathkeys : list PathKey;
  parallel_aware : bool;
  parallel_safe : bool;
  parallel_workers : Z;
  custom_private : PrivateData
}.
(** [CustomPath] *)
Record CustomPath `{PgDatum} := {
  cp_flags : Z;
  cp_rows : F64;
  cp_startup_cost : F64;
  cp_total_cost : F64;
  cp_pathkeys : list PathKey;
  cp_parallel_aware : bool;
  cp_parallel_safe : bool;
  cp_parallel_workers : Z;
  cp_custom_private : list Node
}.

(** ** The path's builder *)

Section builder.
Context `{PgDatum} `{RustBuild}.
Implicit Types b : CustomPathBuilder.

Definition builder_new : CustomPathBuilder :=
  {| flags := []; path_rows := f64_of_Z 0; path_startup_cost := f64_of_Z 0; path_total_cost := f64_of_Z 0; pathkeys := [];
     parallel_aware := false; parallel_safe := false; parallel_workers := 0; custom_private := private_default |}.
Definition restrict_info (args : PathArgs) : list RestrictInfo :=
  match baserestrictinfo args with [] => joininfo args | baseri => baseri end.

Definition with_flags (l : list Flags) b : CustomPathBuilder :=
  {| flags := l; path_rows := path_rows b; path_startup_cost := path_startup_cost b; path_total_cost := path_total_cost b;
     pathkeys := pathkeys b; parallel_aware := parallel_aware b; parallel_safe := parallel_safe b;
     parallel_workers := parallel_workers b; custom_private := custom_private b |}.
(** a [HashSet] *)
Definition set_flag (flag : Flags) b : CustomPathBuilder :=
  with_flags (if decide (flag ∈ flags b) then flags b else flag :: flags b) b.
Definition set_force_path (force : bool) b : CustomPathBuilder :=
  if force then set_flag Force b else with_flags (filter (λ f, f ≠ Force) (flags b)) b.
Definition set_rows_and_costs (rows startup total : F64) b : CustomPathBuilder :=
  {| flags := flags b; path_rows := rows; path_startup_cost := startup; path_total_cost := total;
     pathkeys := pathkeys b; parallel_aware := parallel_aware b; parallel_safe := parallel_safe b;
     parallel_workers := parallel_workers b; custom_private := custom_private b |}.
Definition on_private (f : PrivateData → PrivateData) b : CustomPathBuilder :=
  {| flags := flags b; path_rows := path_rows b; path_startup_cost := path_startup_cost b; path_total_cost := path_total_cost b;
     pathkeys := pathkeys b; parallel_aware := parallel_aware b; parallel_safe := parallel_safe b;
     parallel_workers := parallel_workers b; custom_private := f (custom_private b) |}.

(** the path key of an [OrderByStyle], which is the first of the query *)
Definition add_path_key (pathkey : option (OrderByStyle * PathKey)) b : CustomPathBuilder :=
  match pathkey with
  | Some (_, key) =>
      {| flags := flags b; path_rows := path_rows b; path_startup_cost := path_startup_cost b;
         path_total_cost := path_total_cost b; pathkeys := pathkeys b ++ [key]; parallel_aware := parallel_aware b;
         parallel_safe := parallel_safe b; parallel_workers := parallel_workers b; custom_private := custom_private b |}
  | None => b
  end.

Definition with_workers (n : Z) b : CustomPathBuilder :=
  {| flags := flags b; path_rows := path_rows b; path_startup_cost := path_startup_cost b; path_total_cost := path_total_cost b;
     pathkeys := pathkeys b; parallel_aware := true; parallel_safe := true; parallel_workers := n;
     custom_private := custom_private b |}.
(** the number of workers; [None]: not worth it *)
Definition worker_count (max_parallel_workers : Z) (limit : option F64) (segment_count : Z) (sorted : bool)
    : outcome (option Z) :=
  let nworkers := Z.min segment_count (max_parallel_workers mod 2 ^ 64) in
  match limit with
  | None => Ok (Some nworkers)
  | Some limit =>
      few ← (if sorted then Ok false
             else square ← mul_u64 segment_count segment_count;
                  cube ← mul_u64 square segment_count;
                  Ok (f64_le limit (f64_of_Z cube)));
      if (few : bool) then Ok None
      else if f64_lt limit (f64_of_Z 1000000) then Ok (Some (Z.min (segment_count / 2) nworkers))
      else Ok (Some nworkers)
  end.
Definition set_parallel (max_parallel_workers : Z) (args : PathArgs) (limit : option F64) (segment_count : Z) (sorted : bool) b
    : outcome CustomPathBuilder :=
  nworkers ← worker_count max_parallel_workers limit segment_count sorted;
  match (nworkers : option Z) with
  | None => Ok b
  | Some nworkers =>
      if (0 <? nworkers) && consider_parallel args then
        if nworkers <? 2 ^ 31 then Ok (with_workers nworkers b) else Panic "nworkers should be a valid i32"
      else Ok b
  end.

Definition build b : CustomPath :=
  {| cp_flags := foldl (λ acc flag, Z.lor acc (flag_bits flag)) 0 (flags b); cp_rows := path_rows b;
     cp_startup_cost := path_startup_cost b; cp_total_cost := path_total_cost b; cp_pathkeys := pathkeys b;
     cp_parallel_aware := parallel_aware b; cp_parallel_safe := parallel_safe b;
     cp_parallel_workers := parallel_workers b; cp_custom_private := serialize (custom_private b) |}.
End builder.

(** ** Projections *)

Section projections.
Context (score_funcoid snippet_funcoid : Z).

(** the walker of [maybe_needs_const_projections], and of the target list *)
Fixpoint needs_const (node : Expr) : bool :=
  match node with
  | E_Var _ _ _ | E_Const => false
  | E_FuncExpr funcid args => (funcid =? score_funcoid) || (funcid =? snippet_funcoid) || existsb needs_const args
  | E_Aggref args | E_WindowFunc args | E_Other args => existsb needs_const args
  end.
Definition maybe_needs_const_projections (target_list : list TargetEntry) : bool :=
  existsb (λ te, needs_const (te_expr te)) target_list.

(** the score and snippet functions with a column of the relation: the function and the column *)
Definition func_vars (rti : Z) (funcid : Z) (args : list Expr) : list (Expr * (Z * Z)) :=
  omap (λ arg, match arg with
    | E_Var varno varattno _ => if varno =? rti then Some (E_FuncExpr funcid args, (varno, varattno)) else None
    | _ => None
    end) args.
Fixpoint pullout_funcexprs (rti : Z) (node : Expr) : list (Expr * (Z * Z)) :=
  match node with
  | E_Var _ _ _ | E_Const => []
  | E_FuncExpr funcid args =>
      if (funcid =? score_funcoid) || (funcid =? snippet_funcoid) then func_vars rti funcid args
      else concat (map (pullout_funcexprs rti) args)
  | E_Aggref args | E_WindowFunc args | E_Other args => concat (map (pullout_funcexprs rti) args)
  end.
End projections.

(** ** The order asked for *)

Section order.
Context `{PgDatum} `{PgCatalog} `{RustBuild} `{SerdeLanguage} `{TantivySchema}.
Context (score_funcoid text_lower_funcoid : Z).

Fixpoint as_expr (e : SortExpr) : Expr :=
  match e with
  | S_Var v => E_Var (varno (vn_var v)) (varattno (vn_var v)) (vartype v)
  | S_FuncExpr funcid args => E_FuncExpr funcid (map as_expr args)
  | S_RelabelType arg => E_Other [as_expr arg]
  | S_Other args => E_Other (map as_expr args)
  end.

(** [lower(column)] of the relation *)
Definition is_lower_func (node : SortExpr) (rti : Z) : outcome (option VarNode) :=
  match node with
  | S_FuncExpr funcid args =>
      if funcid =? text_lower_funcoid then
        match args with
        | [S_Var var] | [S_RelabelType (S_Var var)] => Ok (if varno (vn_var var) =? rti then Some var else None)
        | [_] => Ok None
        | _ => Panic "`lower(text)` function must have 1 argument"
        end
      else Ok None
  | _ => Ok None
  end.

(** the name of a column, [tupdesc.get(attno as usize - 1)] *)
Definition att_name (heaprelid attno : Z) : outcome (option string) :=
  tupdesc ← expect_ok (relation_open heaprelid) "could not open relation";
  if (attno =? 0) && overflow_checks then Panic "attempt to subtract with overflow"
  else Ok (if 1 <=? attno then znth tupdesc (attno - 1) else None).
Definition sortable_column (sortable : string → bool) (var : VarNode) (root : PlannerInfo) (strategy : Z)
    : outcome (option (option OrderByStyle)) :=
  '(heaprelid, attno, _) ← find_var_relation var root;
  att ← att_name heaprelid attno;
  Ok match (att : option string) with
     | Some name => if sortable name then Some (Some (ByField strategy name)) else None
     | None => None
     end.
(** one member of the class: [None] goes on, [Some] is the function's result *)
Definition order_member (schema : SearchIndexSchema) (rti : Z) (root : PlannerInfo) (strategy : Z) (expr : SortExpr)
    : outcome (option (option OrderByStyle)) :=
  score ← is_score_func score_funcoid rti (as_expr expr);
  if (score : bool) then Ok (Some (Some (CustomScan.Score strategy)))
  else
    lower ← is_lower_func expr rti;
    match (lower : option VarNode), expr with
    | Some var, _ => sortable_column (is_field_lower_sortable schema) var root strategy
    | None, S_RelabelType (S_Var var) => sortable_column (is_field_raw_sortable schema) var root strategy
    | None, S_Var var =>
        '(heaprelid, _, _) ← find_var_relation var root;
        if heaprelid =? InvalidOid then Ok (Some None)
        else sortable_column (is_field_raw_sortable schema) var root strategy
    | None, _ => Ok None
    end.
Fixpoint order_members (schema : SearchIndexSchema) (rti : Z) (root : PlannerInfo) (strategy : Z) (members : list SortExpr)
    : outcome (option OrderByStyle) :=
  match members with
  | [] => Ok None
  | expr :: members =>
      m ← order_member schema rti root strategy expr;
      match m with
      | Some result => Ok result
      | None => order_members schema rti root strategy members
      end
  end.
(** of the first path key only *)
Definition pullup_orderby_pathkey (schema : SearchIndexSchema) (rti : Z) (root : PlannerInfo) (query_pathkeys : list PathKey)
    : outcome (option (OrderByStyle * PathKey)) :=
  match query_pathkeys with
  | [] => Ok None
  | first_pathkey :: _ =>
      style ← order_members schema rti root (pk_strategy first_pathkey) (ec_members first_pathkey);
      Ok ((λ s, (s, first_pathkey)) <$> (style : option OrderByStyle))
  end.
End order.

(** ** [callback] *)

(** the number of terms of a column *)
Class ColumnTerms `{TantivyColumns} := { num_terms : StrColumn → Z }.

Section callback.
Context `{RustF64} `{TantivyTypes} `{TantivyText} `{TantivyRegex} `{RustBuild}
  `{Chrono} `{!PgDates} `{AsFieldType} `{!TantivyParser} `{!TantivySearcher} `{TantivyIndex} `{!TantivyReader}
  `{!TantivyColumns} `{!ColumnTerms} `{!PgDatum} `{!QueryDatum} `{PgCatalog} `{OperatorOids} `{!SegmentStats}
  `{!RustF64Class} `{!RustF64Ops} `{!RelStats} `{!PlannerCosts} `{SerdeLanguage} `{TantivySchema}.
(** a reader and the schema of an index, its segments ([None] is an error), a table's columns, the
    functions' oids and a setting *)
Context (open_reader : Z → SearchIndexReader) (open_schema : Z → SearchIndexSchema) (searchable_segments : Z → option Z)
  (heap_columns : Z → list (string * PgOid)) (score_funcoid snippet_funcoid text_lower_funcoid max_parallel_workers : Z).

(** the first of the table's indexes, valid or not *)
Definition rel_get_bm25_index (relid : Z) : outcome (option IndexRel) :=
  _ ← expect_ok (relation_open relid) "could not open relation";
  Ok (List.find irel_is_bm25 (relation_indices relid)).

(** of the largest segment, whose [unwrap] needs one *)
Definition estimate_cardinality (index_oid : Z) (field : string) : outcome (option Z) :=
  largest ← expect_ok (foldl max_by_docs None (searcher (open_reader index_oid))) "called `Option::unwrap()` on a `None` value";
  Ok (num_terms <$> column_str largest field).

Definition f64_max (a b : F64) : F64 := if f64_is_nan a then b else if f64_lt a b then b else a.

Definition quals_selectivity (index : IndexRel) (relid : Z) (limit : option F64) (restricts : list RestrictInfo) (q : Qual)
    : outcome F64 :=
  match limit, restricts with
  | Some limit, _ => Ok (f64_div limit (default UNKNOWN_SELECTIVITY (reltuples relid)))
  | None, [r] => Ok (norm_selec r)
  | None, _ =>
      search_config ← qual_query q;
      s ← estimate_selectivity open_reader index relid search_config;
      Ok (default UNKNOWN_SELECTIVITY s)
  end.

(** the limit, when there is one and the query is of this relation only; [-1] is none *)
Definition usable_limit (args : PathArgs) : option F64 :=
  if f64_lt (f64_of_Z (-1)) (limit_tuples args) && only_relation args then Some (limit_tuples args) else None.

(** sort information of the private data; [None]: the path key does not concern it *)
Definition sort_private (is_topn const_projections : bool) (limit : option F64) (pathkey : option (OrderByStyle * PathKey))
    (query_pathkeys : list PathKey) (p : PrivateData) : outcome PrivateData :=
  if is_topn then
    if const_projections && match pathkey with Some (ByField _ _, _) => true | _ => false end then Ok p
    else set_sort_info (fst <$> pathkey) p
  else if bool_decide (is_Some limit) && bool_decide (query_pathkeys = []) then Ok (set_sort_direction (Some NoSort) p)
  else Ok p.

(** whether the scan's string method would be used, by the private data's limit *)
Definition string_method (p : PrivateData) (which_fast_fields : option (list WhichFastField)) : option string :=
  is_string_agg_capable_ex (usize_val <$> limit p) which_fast_fields.

(** the end of [callback]: an order is claimed, or workers are asked for *)
Definition order_or_workers (args : PathArgs) (index : IndexRel) (is_topn : bool) (limit : option F64) (selectivity rows : F64)
    (segment_count : Z) (pathkey : option (OrderByStyle * PathKey)) (which_fast_fields : option (list WhichFastField))
    (b : CustomPathBuilder) : outcome CustomPathBuilder :=
  if bool_decide (is_Some pathkey) && negb is_topn && bool_decide (is_Some (string_method (custom_private b) which_fast_fields)) then
    estimate ← match pathkey with
      | Some (ByField _ field, _) =>
          terms ← estimate_cardinality (irel_oid index) field; mul_u64 (default 0 terms) 4
      | _ => Ok 0
      end;
    let cardinality := f64_mul (f64_of_Z estimate) selectivity in
    if (zlen (query_pathkeys args) =? 1) || f64_lt (f64_of_Z 1000000) cardinality then
      set_parallel max_parallel_workers args limit segment_count true b
    else
      let b := add_path_key pathkey b in
      p ← set_sort_info (fst <$> pathkey) (custom_private b);
      Ok (on_private (λ _, p) b)
  else
    let sorted := match sort_direction (custom_private b) with Some NoSort | None => false | Some _ => true end in
    set_parallel max_parallel_workers args limit segment_count sorted b.

Definition path_for_quals (args : PathArgs) (index : IndexRel) (pathkey : option (OrderByStyle * PathKey))
    (limit : option F64) (const_projections maybe_ff : bool) (which_fast_fields : option (list WhichFastField)) (q : Qual)
    : outcome CustomPath :=
  let relid := pa_relid args in
  let is_topn := bool_decide (is_Some limit) && bool_decide (is_Some pathkey) in
  selectivity ← quals_selectivity index relid limit (restrict_info args) q;
  let p := set_limit limit (set_quals q (set_range_table_index (U32 (pa_rti args))
    (set_indexrelid (MkOid (irel_oid index)) (set_heaprelid (MkOid relid) (set_maybe_ff maybe_ff private_default))))) in
  p ← sort_private is_topn const_projections limit pathkey (query_pathkeys args) p;
  let rows := f64_max (f64_mul (default (f64_of_Z 1) (reltuples relid)) selectivity) (f64_of_Z 1) in
  let per_tuple_cost :=
    if is_rte_join args || const_projections then f64_of_Z 0
    else if maybe_ff then f64_div cpu_index_tuple_cost (f64_of_Z 100)
    else f64_mul cpu_tuple_cost (f64_of_Z 200) in
  let startup_cost := if is_rte_join args || const_projections then f64_of_Z 0 else DEFAULT_STARTUP_COST in
  let total_cost := f64_add startup_cost (f64_mul rows per_tuple_cost) in
  let segment_count := default 0 (searchable_segments (irel_oid index)) in
  let p := set_segment_count (Usize segment_count) p in
  let b := set_flag Projection (set_rows_and_costs rows startup_cost total_cost
    (set_force_path (const_projections || is_topn) (on_private (λ _, p) builder_new))) in
  b ← order_or_workers args index is_topn limit selectivity rows segment_count pathkey which_fast_fields b;
  Ok (build b).

(** the relation and its index, or no path *)
Definition path_index (args : PathArgs) : outcome (option IndexRel) :=
  match restrict_info args with
  | [] => Ok None
  | _ =>
      if negb (is_rte_relation args) && negb (is_rte_join args) then Ok None
      else if negb (is_plain_or_matview args) then Ok None
      else rel_get_bm25_index (pa_relid args)
  end.
Definition callback (args : PathArgs) : outcome (option CustomPath) :=
  index ← path_index args;
  match (index : option IndexRel) with
  | None => Ok None
  | Some index =>
      let schema := open_schema (irel_oid index) in
      pathkey ← pullup_orderby_pathkey score_funcoid text_lower_funcoid schema (pa_rti args) (pa_root args) (query_pathkeys args);
      let const_projections := maybe_needs_const_projections score_funcoid snippet_funcoid (parse_targetList args) in
      let heap := heap_columns (pa_relid args) in
      '(maybe_ff, _) ← ff_count score_funcoid (pa_relid args) heap schema (pa_rti args) (parse_targetList args);
      which_fast_fields ← ff_collect score_funcoid (pa_relid args) heap maybe_ff schema (pa_rti args) (parse_targetList args);
      quals ← extract_quals (pa_rti args) (into_pg (ri_node <$> restrict_info args)) anyelement_query_input_opoid;
      match (quals : option Qual) with
      | None => Ok None
      | Some q =>
          path ← path_for_quals args index pathkey (usable_limit args) const_projections maybe_ff which_fast_fields q;
          Ok (Some path)
      end
  end.
End callback.

(** ** The executor's choice, at the end of [create_custom_scan_state] *)

Definition is_top_n_capable (limit : option Z) (sort_direction : option SortDirection) : option (Z * SortDirection) :=
  match limit, sort_direction with Some limit, Some sort_direction => Some (limit, sort_direction) | _, _ => None end.
Definition is_unsorted_top_n_capable (limit : option Z) (sort_direction : option SortDirection) : option Z :=
  match limit, sort_direction with Some limit, Some NoSort => Some limit | _, _ => None end.
Inductive ChosenMethod := TopNMethod (limit : Z) (sort_direction : SortDirection) | FieldMethod (method : AssignedMethod).
Definition choose_exec_method (limit : option Z) (sort_direction : option SortDirection)
    (which_fast_fields : option (list WhichFastField)) (targetlist_len : Z) : outcome ChosenMethod :=
  match is_top_n_capable limit sort_direction with
  | Some (limit, sort_direction) => Ok (TopNMethod limit sort_direction)
  | None =>
      match is_unsorted_top_n_capable limit sort_direction with
      | Some limit => Ok (TopNMethod limit NoSort)
      | None => method ← assign_exec_method limit which_fast_fields targetlist_len; Ok (FieldMethod method)
      end
  end.

(** ** The hook *)

Inductive AnyPath `{PgDatum} := ScanPath (path : CustomPath) | OtherPath (n : Z).
Record RelPaths `{PgDatum} := { pathlist : list AnyPath; partial_pathlist : list AnyPath }.
(** [add_path] and [add_partial_path], which compare the costs of the paths there are *)
Class PgPaths `{PgDatum} := {
  add_path : list AnyPath → AnyPath → list AnyPath;
  add_partial_path : list AnyPath → AnyPath → list AnyPath;
  add_path_first path : add_path [] path = [path]
}.

Section hook.
Context `{PgDatum} `{!PgPaths}.

Definition has_flag (f : Flags) (cp_flags : Z) : bool := negb (Z.land cp_flags (flag_bits f) =? 0).
Definition toggle_force (path : CustomPath) : CustomPath :=
  {| cp_flags := Z.lxor (cp_flags path) (flag_bits Force); cp_rows := cp_rows path; cp_startup_cost := cp_startup_cost path;
     cp_total_cost := cp_total_cost path; cp_pathkeys := cp_pathkeys path; cp_parallel_aware := cp_parallel_aware path;
     cp_parallel_safe := cp_parallel_safe path; cp_parallel_workers := cp_parallel_workers path;
     cp_custom_private := cp_custom_private path |}.
Definition set_costs (cost : F64) (path : CustomPath) : CustomPath :=
  {| cp_flags := cp_flags path; cp_rows := cp_rows path; cp_startup_cost := cost; cp_total_cost := cost;
     cp_pathkeys := cp_pathkeys path; cp_parallel_aware := cp_parallel_aware path; cp_parallel_safe := cp_parallel_safe path;
     cp_parallel_workers := cp_parallel_workers path; cp_custom_private := cp_custom_private path |}.

(** the result of [CS::callback] in the relation's lists *)
Definition submit_path (path : CustomPath) (rel : RelPaths) : RelPaths :=
  let forced := has_flag Force (cp_flags path) in
  let path := toggle_force path in
  if cp_parallel_aware path then
    let copy := set_costs (f64_of_Z 1000000000) path in
    {| pathlist := add_path [] (ScanPath copy); partial_pathlist := add_partial_path (partial_pathlist rel) (ScanPath path) |}
  else
    {| pathlist := add_path (if forced then [] else pathlist rel) (ScanPath path); partial_pathlist := partial_pathlist rel |}.
Definition rel_pathlist_callback (enable_custom_scan : bool) (callback : outcome (option CustomPath)) (rel : RelPaths)
    : outcome RelPaths :=
  if negb enable_custom_scan then Ok rel
  else path ← callback; Ok match (path : option CustomPath) with Some path => submit_path path rel | None => rel end.
End hook.

(** ** What the path promises *)

Section path_theorems.
Context `{RustF64} `{TantivyTypes} `{TantivyText} `{TantivyRegex} `{RustBuild}
  `{Chrono} `{!PgDates} `{AsFieldType} `{!TantivyParser} `{!TantivySearcher} `{TantivyIndex} `{!TantivyReader}
  `{!TantivyColumns} `{!ColumnTerms} `{!PgDatum} `{!QueryDatum} `{PgCatalog} `{OperatorOids} `{!SegmentStats}
  `{!RustF64Class} `{!RustF64Ops} `{!RelStats} `{!PlannerCosts} `{SerdeLanguage} `{TantivySchema}.
Variables (open_reader : Z → SearchIndexReader) (open_schema : Z → SearchIndexSchema) (searchable_segments : Z → option Z)
  (heap_columns : Z → list (string * PgOid)) (score_funcoid snippet_funcoid text_lower_funcoid max_parallel_workers : Z).
Notation callback := (callback open_reader open_schema searchable_segments heap_columns score_funcoid snippet_funcoid
  text_lower_funcoid max_parallel_workers).
Notation pullup := (pullup_orderby_pathkey score_funcoid text_lower_funcoid).
Notation order_or_workers := (order_or_workers open_reader max_parallel_workers).
Implicit Types (args : PathArgs) (b : CustomPathBuilder) (p : PrivateData).

Definition set_query_pathkeys (keys : list PathKey) args : PathArgs :=
  {| baserestrictinfo := baserestrictinfo args; joininfo := joininfo args; consider_parallel := consider_parallel args;
     pa_rti := pa_rti args; pa_relid := pa_relid args; is_rte_relation := is_rte_relation args;
     is_rte_join := is_rte_join args; is_plain_or_matview := is_plain_or_matview args; pa_root := pa_root args;
     query_pathkeys := keys; limit_tuples := limit_tuples args; only_relation := only_relation args;
     parse_targetList := parse_targetList args |}.

(** workers change neither the order nor the private data *)
Lemma set_parallel_keeps args limit n sorted b b' :
  set_parallel max_parallel_workers args limit n sorted b = Ok b' →
  pathkeys b' = pathkeys b ∧ custom_private b' = custom_private b ∧ flags b' = flags b.
Proof.
  unfold set_parallel. intros (w & _ & Hb)%obind_inv. destruct w as [w|]; [|by injection Hb as <-].
  destruct ((0 <? w) && _); [|by injection Hb as <-]. destruct (w <? 2 ^ 31); [|done]. by injection Hb as <-.
Qed.

(** what a path's order can be *)
Lemma order_or_workers_keys args index is_topn limit selectivity rows n pathkey ffs b b' :
  order_or_workers args index is_topn limit selectivity rows n pathkey ffs b = Ok b' →
  (pathkeys b' = pathkeys b ∧ custom_private b' = custom_private b) ∨
  (∃ style key field, pathkey = Some (style, key) ∧ is_topn = false ∧ zlen (query_pathkeys args) ≠ 1 ∧
     string_method (custom_private b) ffs = Some field ∧ pathkeys b' = pathkeys b ++ [key] ∧
     set_sort_info (Some style) (custom_private b) = Ok (custom_private b')).
Proof.
  unfold order_or_workers. case_bool_decide as Hk; cbn [andb].
  2: { intros (Hp & Hpr & _)%set_parallel_keeps. by left. }
  destruct is_topn; cbn [negb andb].
  { intros (Hp & Hpr & _)%set_parallel_keeps. by left. }
  case_bool_decide as Hs; cbn [andb].
  2: { intros (Hp & Hpr & _)%set_parallel_keeps. by left. }
  intros (estimate & _ & Hb)%obind_inv. destruct (Z.eqb_spec (zlen (query_pathkeys args)) 1) as [|Hne]; cbn [orb] in Hb.
  { apply set_parallel_keeps in Hb as (Hp & Hpr & _). by left. }
  destruct (f64_lt _ _).
  { apply set_parallel_keeps in Hb as (Hp & Hpr & _). by left. }
  destruct Hk as [[style key] ->]. destruct Hs as [field Hs]. cbn [add_path_key fmap option_fmap option_map fst] in Hb.
  apply obind_inv in Hb as (p & Hp & [= <-]). right. exists style, key, field. done.
Qed.

(** the steps of [callback] *)
Lemma callback_some args path :
  callback args = Ok (Some path) →
  ∃ index pathkey maybe_ff cnt ffs q, path_index args = Ok (Some index) ∧
    pullup (open_schema (irel_oid index)) (pa_rti args) (pa_root args) (query_pathkeys args) = Ok pathkey ∧
    ff_count score_funcoid (pa_relid args) (heap_columns (pa_relid args)) (open_schema (irel_oid index)) (pa_rti args)
      (parse_targetList args) = Ok (maybe_ff, cnt) ∧
    ff_collect score_funcoid (pa_relid args) (heap_columns (pa_relid args)) maybe_ff (open_schema (irel_oid index)) (pa_rti args)
      (parse_targetList args) = Ok ffs ∧
    path_for_quals open_reader searchable_segments max_parallel_workers args index pathkey (usable_limit args)
      (maybe_needs_const_projections score_funcoid snippet_funcoid (parse_targetList args)) maybe_ff ffs q = Ok path.
Proof.
  unfold Planner.callback. intros (index & Hi & Hrest)%obind_inv. destruct index as [index|]; [|done].
  apply obind_inv in Hrest as (pathkey & Hpk & Hrest). cbn zeta in Hrest.
  apply obind_inv in Hrest as ([maybe_ff cnt] & Hcnt & Hrest). apply obind_inv in Hrest as (ffs & Hffs & Hrest).
  apply obind_inv in Hrest as (q & Hq & Hrest). destruct q as [q|]; [|done].
  apply obind_inv in Hrest as (path' & Hpath & [= <-]). by exists index, pathkey, maybe_ff, cnt, ffs, q.
Qed.
Lemma path_for_quals_some args index pathkey limit consts maybe_ff ffs q path :
  path_for_quals open_reader searchable_segments max_parallel_workers args index pathkey limit consts maybe_ff ffs q = Ok path →
  let is_topn := bool_decide (is_Some limit) && bool_decide (is_Some pathkey) in
  ∃ p0 p selectivity rows n b b', CustomScan.limit p0 = ((λ l, Usize (f64_round_as_usize l)) <$> limit) ∧
    sort_field p0 = None ∧ sort_direction p0 = None ∧
    sort_private is_topn consts limit pathkey (query_pathkeys args) p0 = Ok p ∧
    custom_private b = set_segment_count (Usize n) p ∧ pathkeys b = [] ∧
    flags b = (if consts || is_topn then [Projection; Force] else [Projection]) ∧
    order_or_workers args index is_topn limit selectivity rows n pathkey ffs b = Ok b' ∧ path = build b'.
Proof.
  intros Hrun is_topn. unfold path_for_quals in Hrun. apply obind_inv in Hrun as (selectivity & _ & Hrun).
  apply obind_inv in Hrun as (p & Hp & Hrun). apply obind_inv in Hrun as (b' & Hb & [= <-]).
  eexists _, p, selectivity, _, _, _, b'. split; [|split; [|split; [|split; [exact Hp|split; [|split; [|split; [|split; [exact Hb|]]]]]]]];
    try done; fold is_topn; by destruct (consts || is_topn).
Qed.

(** the limit and the sort field through the setters *)
Lemma set_sort_info_keeps pathkey p p' :
  set_sort_info pathkey p = Ok p' →
  limit p' = limit p ∧
  match pathkey with
  | None => p' = p
  | Some style => ∃ d, direction style = Ok d ∧ sort_direction p' = Some d ∧
      sort_field p' = match style with ByField _ name => Some name | CustomScan.Score _ => sort_field p end
  end.
Proof.
  destruct pathkey as [style|]; cbn [set_sort_info]; [|by intros [= ->]].
  intros (d & Hd & [= <-])%obind_inv. destruct style; cbn; (split; [done|]); by exists d.
Qed.

(** the executor takes the string method from private data without a limit *)
Lemma string_method_chosen p ffs field len :
  limit p = None → string_method p ffs = Some field →
  ∃ l, ffs = Some l ∧ choose_exec_method (usize_val <$> limit p) (sort_direction p) ffs len =
    Ok (FieldMethod (StringFastField field l)).
Proof.
  intros Hl Hs. unfold string_method in Hs. rewrite Hl in *. cbn [fmap option_fmap option_map] in *.
  destruct ffs as [l|]; [|done]. exists l. split; [done|]. unfold choose_exec_method, is_top_n_capable, is_unsorted_top_n_capable, assign_exec_method.
  rewrite Hs. done.
Qed.

(** A path claims an order only when the query has several sort keys, no usable limit
    and the string method, and then it claims the first sort key as it is, whatever
    column and direction that has, while the executor runs the string method, whose rows
    come by the terms of its own text column. *)
Theorem claimed_order_is_first_key args path :
  callback args = Ok (Some path) → cp_pathkeys path ≠ [] →
  ∃ index key rest style field ffs p,
    path_index args = Ok (Some index) ∧
    query_pathkeys args = key :: rest ∧ rest ≠ [] ∧
    pullup (open_schema (irel_oid index)) (pa_rti args) (pa_root args) (key :: rest) = Ok (Some (style, key)) ∧
    cp_pathkeys path = [key] ∧ usable_limit args = None ∧ cp_custom_private path = serialize p ∧
    ∀ len, choose_exec_method (usize_val <$> limit p) (sort_direction p) (Some ffs) len =
      Ok (FieldMethod (StringFastField field ffs)).
Proof.
  intros (index & pathkey & maybe_ff & cnt & ffs & q & Hindex & Hpull & _ & _ & Hpath)%callback_some Hne.
  destruct (path_for_quals_some _ _ _ _ _ _ _ _ _ Hpath)
    as (p0 & p & selectivity & rows & n & b & b' & Hlim & Hsf & Hsd & Hsort & Hprivate & Hkeys & _ & Hend & ->).
  apply order_or_workers_keys in Hend as [[Hk _]|(style & key & field & -> & Htop & Hone & Hstring & Hk & Hinfo)].
  { cbn [cp_pathkeys build] in Hne. rewrite Hk, Hkeys in Hne. done. }
  assert (usable_limit args = None) as Hnone.
  { destruct (usable_limit args) as [l|]; [|done]. exfalso. revert Htop. clear. done. }
  unfold pullup_orderby_pathkey in Hpull. destruct (query_pathkeys args) as [|first rest] eqn:Hq; [done|].
  pose proof Hpull as Hpull'. apply obind_inv in Hpull as (st & _ & Hst). destruct st as [st|]; [|done]. injection Hst as -> ->.
  assert (limit p0 = None) as Hl0 by (rewrite Hlim, Hnone; done).
  assert (limit (custom_private b) = None) as Hl.
  { rewrite Hprivate. cbn. rewrite <- Hl0. unfold sort_private in Hsort. rewrite Htop in Hsort.
    rewrite Hnone in Hsort. cbn in Hsort. by injection Hsort as <-. }
  destruct (set_sort_info_keeps (Some style) _ _ Hinfo) as (Hl' & _).
  assert (string_method (custom_private b') ffs = Some field) as Hs' by (unfold string_method in *; by rewrite Hl').
  destruct (string_method_chosen (custom_private b') ffs field 0) as (l & Hffs & _); [congruence|done|]. subst ffs.
  exists index, key, rest, style, field, l, (custom_private b').
  split; [done|]. split; [done|]. split; [by intros ->|]. split; [exact Hpull'|]. split; [cbn; by rewrite Hk, Hkeys|].
  split; [done|]. split; [done|]. intros len.
  destruct (string_method_chosen (custom_private b') (Some l) field len) as (l' & Hl'' & Hc); [congruence|done|].
  injection Hl'' as <-. exact Hc.
Qed.

Definition by_field (style : OrderByStyle) : bool :=
  match style with ByField _ _ => true | CustomScan.Score _ => false end.
Lemma by_field_match style (key : PathKey) :
  match Some (style, key) with Some (ByField _ _, _) => true | _ => false end = by_field style.
Proof. by destruct style. Qed.

(** with a limit and an order only the first path key is looked at *)
Lemma top_n_path_first_key args keys index style key l consts maybe_ff ffs q :
  path_for_quals open_reader searchable_segments max_parallel_workers args index (Some (style, key)) (Some l) consts maybe_ff ffs q =
  path_for_quals open_reader searchable_segments max_parallel_workers (set_query_pathkeys keys args) index (Some (style, key)) (Some l)
    consts maybe_ff ffs q.
Proof. reflexivity. Qed.

(** C29: With a limit and several sort keys of which the index can sort by the first,
    the planner offers exactly the path it offers for that key alone, and the path
    claims no order. Unless the first key is a field and the target list has a score or
    snippet call, when the path has no sort information, the executor takes the top n by
    the first key alone, n being the limit, so rows that tie with the last of them are
    cut off before the other keys are looked at. *)
Theorem top_n_ignores_later_keys args index key rest style l :
  usable_limit args = Some l → query_pathkeys args = key :: rest → path_index args = Ok (Some index) →
  pullup (open_schema (irel_oid index)) (pa_rti args) (pa_root args) (key :: rest) = Ok (Some (style, key)) →
  callback args = callback (set_query_pathkeys [key] args) ∧
  ∀ path, callback args = Ok (Some path) →
    cp_pathkeys path = [] ∧ ∃ p, cp_custom_private path = serialize p ∧
      if maybe_needs_const_projections score_funcoid snippet_funcoid (parse_targetList args) && by_field style
      then sort_field p = None ∧ sort_direction p = None
      else
        sort_field p = match style with ByField _ name => Some name | CustomScan.Score _ => None end ∧
        ∃ d, direction style = Ok d ∧ ∀ ffs len,
          choose_exec_method (usize_val <$> limit p) (sort_direction p) ffs len = Ok (TopNMethod (f64_round_as_usize l) d).
Proof.
  intros Hlim Hq Hindex Hpull. split.
  - unfold Planner.callback. change (path_index (set_query_pathkeys [key] args)) with (path_index args). rewrite Hindex.
    cbn [mbind outcome_bind]. cbn [set_query_pathkeys query_pathkeys pa_rti pa_root pa_relid parse_targetList].
    assert (pullup (open_schema (irel_oid index)) (pa_rti args) (pa_root args) [key] = Ok (Some (style, key))) as Hpull1 by exact Hpull.
    rewrite Hq, Hpull, Hpull1. cbn [mbind outcome_bind].
    change (usable_limit (set_query_pathkeys [key] args)) with (usable_limit args). rewrite Hlim. reflexivity.
  - intros path (index' & pathkey & maybe_ff & cnt & ffs & q & Hindex' & Hpull' & _ & _ & Hpath)%callback_some.
    assert (index' = index) as -> by congruence. rewrite Hq, Hpull in Hpull'. injection Hpull' as <-. rewrite Hlim in Hpath.
    destruct (path_for_quals_some _ _ _ _ _ _ _ _ _ Hpath)
      as (p0 & p & selectivity & rows & n & b & b' & Hl0 & Hsf & Hsd & Hsort & Hprivate & Hkeys & _ & Hend & ->).
    apply order_or_workers_keys in Hend as [[Hk Hp']|(? & ? & ? & _ & Htop & _)]; [|done].
    split; [cbn; by rewrite Hk|]. exists (custom_private b'). split; [done|]. rewrite Hp', Hprivate.
    cbn [set_segment_count sort_field sort_direction limit].
    unfold sort_private in Hsort. cbn [bool_decide is_Some_dec] in Hsort. rewrite (by_field_match style key) in Hsort.
    destruct (_ && by_field style); [by injection Hsort as <-|].
    assert (set_sort_info (Some style) p0 = Ok p) as Hinfo by exact Hsort.
    apply set_sort_info_keeps in Hinfo as (Hl' & d & Hd & Hdir & Hfield). split.
    + rewrite Hfield. by destruct style.
    + exists d. split; [done|]. intros ffs' len. unfold choose_exec_method. by rewrite Hdir, Hl', Hl0.
Qed.

(** An index without segments: a query ordered by a column that would take the string method panics. *)
Theorem empty_index_order_panics args index key rest strategy name maybe_ff cnt ffs quals q field :
  path_index args = Ok (Some index) → searcher (open_reader (irel_oid index)) = [] →
  query_pathkeys args = key :: rest → usable_limit args = None →
  pullup (open_schema (irel_oid index)) (pa_rti args) (pa_root args) (key :: rest) = Ok (Some (ByField strategy name, key)) →
  ff_count score_funcoid (pa_relid args) (heap_columns (pa_relid args)) (open_schema (irel_oid index)) (pa_rti args)
    (parse_targetList args) = Ok (maybe_ff, cnt) →
  ff_collect score_funcoid (pa_relid args) (heap_columns (pa_relid args)) maybe_ff (open_schema (irel_oid index)) (pa_rti args)
    (parse_targetList args) = Ok ffs →
  is_string_agg_capable_ex None ffs = Some field →
  extract_quals (pa_rti args) (into_pg (ri_node <$> restrict_info args)) anyelement_query_input_opoid = Ok (Some quals) →
  quals_selectivity open_reader index (pa_relid args) None (restrict_info args) quals = Ok q →
  callback args = Panic "called `Option::unwrap()` on a `None` value".
Proof.
  intros Hindex Hempty Hq Hlim Hpull Hcnt Hffs Hstring Hquals Hsel. unfold Planner.callback. rewrite Hindex. cbn [mbind outcome_bind].
  rewrite Hq, Hpull. cbn [mbind outcome_bind]. rewrite Hcnt. cbn [mbind outcome_bind]. rewrite Hffs. cbn [mbind outcome_bind].
  rewrite Hquals. cbn [mbind outcome_bind]. rewrite Hlim. unfold path_for_quals. rewrite Hsel. cbn [mbind outcome_bind].
  unfold sort_private. cbn [andb bool_decide]. rewrite Hq. change (bool_decide (is_Some (@None F64))) with false. cbn [andb mbind outcome_bind].
  unfold Planner.order_or_workers. change (bool_decide (is_Some (Some (ByField strategy name, key)))) with true. cbn [andb negb].
  destruct (maybe_needs_const_projections _ _ _); (match goal with |- context [string_method ?p ffs] =>
    assert (string_method p ffs = Some field) as -> by exact Hstring end);
    change (bool_decide (is_Some (Some field))) with true; cbn iota;
    unfold estimate_cardinality; rewrite Hempty; reflexivity.
Qed.
End path_theorems.

(** ** The hook *)

Lemma has_force n : has_flag Force n = Z.testbit n 3.
Proof.
  unfold has_flag. change (flag_bits Force) with (2 ^ 3). rewrite (Z.land_comm n).
  destruct (Z.testbit n 3) eqn:Hb.
  - apply negb_true_iff, Z.eqb_neq. intros Hz. assert (Z.testbit (Z.land (2 ^ 3) n) 3 = true) as Ht
      by (rewrite Z.land_spec, Z.pow2_bits_true, Hb by lia; done). rewrite Hz in Ht. by rewrite Z.bits_0 in Ht.
  - apply negb_false_iff, Z.eqb_eq, Z.bits_inj'. intros i Hi. rewrite Z.land_spec, Z.bits_0, Z.pow2_bits_eqb by lia.
    destruct (Z.eqb_spec 3 i) as [<-|]; [by rewrite Hb|done].
Qed.

(** The hook leaves only the scan's path when the path is forced, and also when it has workers;
    and the flag it means to clear is set on the paths that were not forced. *)
Theorem hook_submits_path `{PgDatum} `{!PgPaths} callback (path : CustomPath) (rel : RelPaths) :
  callback = Ok (Some path) →
  ∃ rel', rel_pathlist_callback true callback rel = Ok rel' ∧
    (cp_parallel_aware path = true →
     pathlist rel' = [ScanPath (set_costs (f64_of_Z 1000000000) (toggle_force path))] ∧
     partial_pathlist rel' = add_partial_path (partial_pathlist rel) (ScanPath (toggle_force path))) ∧
    (cp_parallel_aware path = false →
     pathlist rel' = (if Z.testbit (cp_flags path) 3 then [ScanPath (toggle_force path)]
                      else add_path (pathlist rel) (ScanPath (toggle_force path)))) ∧
    Z.testbit (cp_flags (toggle_force path)) 3 = negb (Z.testbit (cp_flags path) 3).
Proof.
  intros ->. eexists. split; [done|]. unfold submit_path. rewrite has_force. split; [|split].
  - intros Hp. change (cp_parallel_aware (toggle_force path)) with (cp_parallel_aware path). rewrite Hp. cbn. by rewrite add_path_first.
  - intros Hp. change (cp_parallel_aware (toggle_force path)) with (cp_parallel_aware path). rewrite Hp. cbn [pathlist].
    destruct (Z.testbit _ _); [by rewrite add_path_first|done].
  - cbn [toggle_force cp_flags]. rewrite Z.lxor_spec. change (flag_bits Force) with (2 ^ 3). rewrite Z.pow2_bits_true by lia.
    by destruct (Z.testbit _ _).
Qed.

(** the branch for a limit without an order is never reached: the one before takes every direction *)
Lemma unsorted_top_n_unreachable limit dir n :
  is_top_n_capable limit dir = None → is_unsorted_top_n_capable limit dir ≠ Some n.
Proof. by destruct limit, dir. Qed.
