(* ===== verification/Snippets.v ===== *)
(** * Snippets: scores and snippets in the rows of a custom scan

    [projections/snippet.rs], [inject_placeholders] of [projections/mod.rs], [make_snippet] of
    [scan_state.rs], [visibility_checker.rs], and of [pdbscan/mod.rs] the calls a plan carries
    along ([plan_custom_path]), what the executor prepares for them, the projection of a visible
    row in [exec_custom_scan], and the relations a scan opens and closes. *)

From stdpp Require Import gmultiset.
From S2P Require Import Prelude Page Block PgUtils TokenizerConfig Query CustomScan Schema Rows Reader Parallel ScanExec FastFields Operator AmScan Planner.

Open Scope Z_scope.

(** ** The tree of a target list *)

(** a node; a constant has its address, and a placeholder is a constant whose value changes per row *)
Inductive PlanExpr `{PgDatum} :=
  | X_Var (varno varattno : Z)
  | X_Const (address : Z) (const : Const)
  | X_Placeholder (node : nat)
  | X_FuncExpr (funcid : Z) (args : list PlanExpr)
  | X_Other (tag : Z) (args : list PlanExpr).

Section induction.
Context `{PgDatum} (P : PlanExpr → Prop).
Hypotheses (Hvar : ∀ varno varattno, P (X_Var varno varattno)) (Hconst : ∀ address const, P (X_Const address const))
  (Hplaceholder : ∀ node, P (X_Placeholder node))
  (Hfunc : ∀ funcid args, Forall P args → P (X_FuncExpr funcid args))
  (Hother : ∀ tag args, Forall P args → P (X_Other tag args)).
Fixpoint plan_expr_ind (e : PlanExpr) : P e :=
  let fix all (l : list PlanExpr) : Forall P l :=
    match l with [] => Forall_nil_2 P | e :: l => Forall_cons_2 P e l (plan_expr_ind e) (all l) end in
  match e with
  | X_Var varno varattno => Hvar varno varattno
  | X_Const address const => Hconst address const
  | X_Placeholder node => Hplaceholder node
  | X_FuncExpr funcid args => Hfunc funcid args (all args)
  | X_Other tag args => Hother tag args (all args)
  end.
End induction.

(** the tree as the search for score functions sees it *)
Fixpoint plan_expr `{PgDatum} (e : PlanExpr) : Expr :=
  match e with
  | X_Var varno varattno => E_Var varno varattno PgInvalid
  | X_Const _ _ | X_Placeholder _ => E_Const
  | X_FuncExpr funcid args => E_FuncExpr funcid (map plan_expr args)
  | X_Other _ args => E_Other (map plan_expr args)
  end.

(** ** The snippets asked for *)

Record SnippetInfo := { si_field : string; start_tag : string; end_tag : string; max_num_chars : Z }.
#[global] Instance SnippetInfo_eq_dec : EqDecision SnippetInfo.
Proof. solve_decision. Defined.
#[global] Program Instance SnippetInfo_countable : Countable SnippetInfo :=
  inj_countable' (λ i, (si_field i, start_tag i, end_tag i, max_num_chars i))
    (λ '(f, s, e, n), {| si_field := f; start_tag := s; end_tag := e; max_num_chars := n |}) _.
Next Obligation. by intros []. Qed.

(** the order a hash set of them is iterated in *)
Class SnippetOrder := {
  snippet_keys : gset SnippetInfo → list SnippetInfo;
  snippet_keys_perm s : snippet_keys s ≡ₚ elements s
}.

Definition DEFAULT_SNIPPET_PREFIX : string := "<b>".
Definition DEFAULT_SNIPPET_POSTFIX : string := "</b>".

Section calls.
Context `{PgDatum} `{!QueryDatum}.
Context (score_funcoid snippet_funcoid rti : Z) (attname_lookup : gmap (Z * Z) string).

(** one call; [max_num_chars_arg as usize] is the address of the constant *)
Definition snippet_info (args : list PlanExpr) : outcome SnippetInfo :=
  match args with
  | [field_arg; start_arg; end_arg; max_num_chars_arg] =>
      match field_arg, start_arg, end_arg, max_num_chars_arg with
      | X_Var _ varattno, X_Const _ start_arg, X_Const _ end_arg, X_Const address _ =>
          attname ← expect_ok (attname_lookup !! (int_as_i32 rti, varattno)) "Var attname should be in lookup";
          Ok {| si_field := attname;
                start_tag := default DEFAULT_SNIPPET_PREFIX (text_from_datum (constvalue start_arg) (constisnull start_arg));
                end_tag := default DEFAULT_SNIPPET_POSTFIX (text_from_datum (constvalue end_arg) (constisnull end_arg));
                max_num_chars := address |}
      | _, _, _, _ => Panic "`paradedb.snippet()`'s arguments must be literals"
      end
  | _ => Panic "assertion failed: args.len() == 4"
  end.
(** the walker, in the order it visits *)
Definition concat_ok {A B} (f : A → outcome (list B)) (l : list A) : outcome (list B) :=
  ys ← traverse_ok f l; Ok (concat ys).
Fixpoint uses_snippets (node : PlanExpr) : outcome (list SnippetInfo) :=
  match node with
  | X_Var _ _ | X_Const _ _ | X_Placeholder _ => Ok []
  | X_FuncExpr funcid args =>
      own ← (if funcid =? snippet_funcoid then info ← snippet_info args; Ok [info] else Ok []);
      rest ← concat_ok uses_snippets args;
      Ok (own ++ rest)
  | X_Other _ args => concat_ok uses_snippets args
  end.

(** ** [inject_placeholders] *)

(** the constants made: node 0 is the score's *)
Record Placeholders := { next_node : nat; nodes_of : gmap SnippetInfo nat }.
Definition const_score_node : nat := 0.

(** [snippet_infos.keys()] *)
Context (keys : list SnippetInfo).
(** the first of the keys with that field, whatever its tags *)
Definition picked_info (args : list PlanExpr) : option SnippetInfo :=
  match args with
  | X_Var _ varattno :: _ =>
      attname ← attname_lookup !! (int_as_i32 rti, varattno);
      List.find (λ info, String.eqb (si_field info) attname) keys
  | _ => None
  end.
Definition replacement (node : PlanExpr) (data : Placeholders) : option (PlanExpr * Placeholders) :=
  match node with
  | X_FuncExpr funcid args =>
      if funcid =? score_funcoid then Some (X_Placeholder const_score_node, data)
      else if funcid =? snippet_funcoid then
        info ← picked_info args;
        Some (X_Placeholder (next_node data),
              {| next_node := S (next_node data); nodes_of := <[info := next_node data]> (nodes_of data) |})
      else None
  | _ => None
  end.
(** [expression_tree_mutator] over a list *)
Fixpoint mutate_list (f : PlanExpr → Placeholders → PlanExpr * Placeholders) (l : list PlanExpr) (data : Placeholders)
    : list PlanExpr * Placeholders :=
  match l with
  | [] => ([], data)
  | node :: l => let '(node, data) := f node data in let '(l, data) := mutate_list f l data in (node :: l, data)
  end.
Fixpoint inject (node : PlanExpr) (data : Placeholders) : PlanExpr * Placeholders :=
  match replacement node data with
  | Some r => r
  | None =>
      match node with
      | X_FuncExpr funcid args => let '(args, data) := mutate_list inject args data in (X_FuncExpr funcid args, data)
      | X_Other tag args => let '(args, data) := mutate_list inject args data in (X_Other tag args, data)
      | X_Var _ _ | X_Const _ _ | X_Placeholder _ => (node, data)
      end
  end.
Definition inject_placeholders (targetlist : list PlanExpr) : list PlanExpr * nat * gmap SnippetInfo nat :=
  let '(targetlist, data) := mutate_list inject targetlist {| next_node := S const_score_node; nodes_of := ∅ |} in
  (targetlist, const_score_node, nodes_of data).
End calls.

(** ** The heap, Tantivy's snippets and the evaluation of expressions *)

(** [heap_fetch] is for exactly one tuple address; [table_index_fetch_tuple] for the tuple that the
    snapshot sees of the chain of HOT updates that starts there.  [get_by_name]: [None] is an error. *)
Class HeapFetch := {
  HeapRowTuple : Type;
  heap_fetch : ItemPointerData → option HeapRowTuple;
  table_index_fetch_tuple : ItemPointerData → option HeapRowTuple;
  get_by_name : HeapRowTuple → string → option (option string);
  fetch_in_chain tid t : heap_fetch tid = Some t → table_index_fetch_tuple tid = Some t
}.
(** [SnippetGenerator], and the HTML of its snippet of a document with one field *)
Class TantivySnippets `{RustF64} `{TantivyTypes} `{!TantivyParser} `{TantivyIndex} `{!TantivyReader} := {
  SnippetGenerator : Type;
  generator_create : list SegmentReader → Query → Field → option SnippetGenerator;
  set_max_num_chars : Z → SnippetGenerator → SnippetGenerator;
  snippet_html : SnippetGenerator → Field → string → string → string → string
}.
(** [ExecProject], expression by expression; [None] is null *)
Class PgExec `{PgDatum} `{RustF64} `{TantivyTypes} `{!TantivyParser} `{TantivyIndex} `{!TantivyReader} `{!HeapFetch} := {
  PgVal : Type;
  float4_val : Score → PgVal;
  text_val : string → PgVal;
  eval_var : HeapRowTuple → Z → Z → option PgVal;
  eval_const : Const → option PgVal;
  eval_func : Z → list (option PgVal) → option PgVal;
  eval_other : Z → list (option PgVal) → option PgVal
}.

(** ** [VisibilityChecker] *)

Section visibility.
Context `{!HeapFetch}.

(** the fetch that [table_index_fetch_begin] opened, and the address it last looked up *)
Record VisibilityChecker := { vc_fetching : bool; vc_tid : ItemPointerData }.
Definition with_rel_and_snap : VisibilityChecker :=
  {| vc_fetching := true; vc_tid := {| ip_blkid := 0; ip_posid := 0 |} |}.
Definition exec_if_visible {T} (checker : VisibilityChecker) (ctid : Z) (func : HeapRowTuple → T)
    : option T * VisibilityChecker :=
  let tid := u64_to_item_pointer ctid in
  (func <$> table_index_fetch_tuple tid, {| vc_fetching := vc_fetching checker; vc_tid := tid |}).
(** [check_visibility]: the slot holds the tuple *)
Definition check_visibility (checker : VisibilityChecker) (ctid : Z) : option HeapRowTuple * VisibilityChecker :=
  exec_if_visible checker ctid id.
(** [Drop], when the transaction has not ended *)
Definition visibility_checker_drop (is_transaction_state : bool) (checker : VisibilityChecker) : VisibilityChecker :=
  if is_transaction_state then {| vc_fetching := false; vc_tid := vc_tid checker |} else checker.
End visibility.

(** ** The projection of a row *)

Section projection.
Context `{RustF64} `{TantivyTypes} `{TantivyText} `{TantivyRegex} `{RustBuild}
  `{Chrono} `{!PgDates} `{AsFieldType} `{!TantivyParser} `{!TantivySearcher} `{TantivyIndex} `{!TantivyReader}
  `{!TantivySnippets} `{PgSlots} `{!PgDatum} `{!QueryDatum} `{TantivySchema} `{!HeapFetch} `{!PgExec} `{!SnippetOrder}.
Context (score_funcoid snippet_funcoid : Z).

(** the fields of [PdbScanState] that concern projections, and the values of the constants *)
Record ProjectionState := {
  pj_rti : Z;
  pj_attname_lookup : gmap (Z * Z) string;
  snippet_generators : gmap SnippetInfo (option (Field * SnippetGenerator));
  placeholder_targetlist : option (list PlanExpr);
  pj_const_score_node : option nat;
  const_snippet_nodes : gmap SnippetInfo nat;
  const_values : gmap nat (option PgVal)
}.
Definition set_generators (g : gmap SnippetInfo (option (Field * SnippetGenerator))) (pj : ProjectionState) : ProjectionState :=
  {| pj_rti := pj_rti pj; pj_attname_lookup := pj_attname_lookup pj; snippet_generators := g;
     placeholder_targetlist := placeholder_targetlist pj; pj_const_score_node := pj_const_score_node pj;
     const_snippet_nodes := const_snippet_nodes pj; const_values := const_values pj |}.
Definition set_placeholders (targetlist : list PlanExpr) (score : nat) (nodes : gmap SnippetInfo nat) (pj : ProjectionState)
    : ProjectionState :=
  {| pj_rti := pj_rti pj; pj_attname_lookup := pj_attname_lookup pj; snippet_generators := snippet_generators pj;
     placeholder_targetlist := Some targetlist; pj_const_score_node := Some score; const_snippet_nodes := nodes;
     const_values := ∅ |}.
Definition set_values (values : gmap nat (option PgVal)) (pj : ProjectionState) : ProjectionState :=
  {| pj_rti := pj_rti pj; pj_attname_lookup := pj_attname_lookup pj; snippet_generators := snippet_generators pj;
     placeholder_targetlist := placeholder_targetlist pj; pj_const_score_node := pj_const_score_node pj;
     const_snippet_nodes := const_snippet_nodes pj; const_values := values |}.

Definition need_snippets (pj : ProjectionState) : bool := negb (bool_decide (snippet_generators pj = ∅)).

(** the end of [create_custom_scan_state]: whether scores are needed, and the snippets without generators *)
Definition create_projections (fields : PdbScanFields) (scanrelid : Z) (target_list : list PlanExpr)
    : outcome (bool * ProjectionState) :=
  need_scores_field ← any_child (uses_scores score_funcoid scanrelid) (plan_expr <$> target_list);
  let rti := u32_val (st_rti fields) in
  infos ← concat_ok (uses_snippets snippet_funcoid rti (st_var_attname_lookup fields)) target_list;
  Ok (need_scores_field,
      {| pj_rti := rti; pj_attname_lookup := st_var_attname_lookup fields;
         snippet_generators := list_to_map ((λ info, (info, None)) <$> infos); placeholder_targetlist := None;
         pj_const_score_node := None; const_snippet_nodes := ∅; const_values := ∅ |}).

(** [SearchIndexReader::snippet_generator] *)
Definition snippet_generator (reader : SearchIndexReader) (schema : SearchIndexSchema) (field_name : string)
    (query : SearchQueryInput) : outcome (Field * SnippetGenerator) :=
  field ← expect_ok (Schema.get_search_field schema field_name) "cannot generate snippet, field does not exist";
  field_type ← field_entry_type (sis_schema schema) (sf_id field);
  match field_type with
  | FStr =>
      q ← reader_query query;
      generator ← expect_ok (generator_create (searcher reader) q (sf_id field)) "failed to create snippet generator for field";
      Ok (sf_id field, generator)
  | _ => Panic "failed to create snippet generator for field... can only highlight text fields"
  end.

(** the generators that [rescan_custom_scan] makes anew *)
Definition renew_generator (reader : SearchIndexReader) (schema : SearchIndexSchema) (query : SearchQueryInput)
    (entry : SnippetInfo * option (Field * SnippetGenerator))
    : outcome (SnippetInfo * option (Field * SnippetGenerator)) :=
  '(field, generator) ← snippet_generator reader schema (si_field entry.1) query;
  Ok (entry.1, Some (field, set_max_num_chars (max_num_chars entry.1) generator)).
Definition renew_generators (reader : SearchIndexReader) (schema : SearchIndexSchema) (query : SearchQueryInput)
    (generators : gmap SnippetInfo (option (Field * SnippetGenerator)))
    : outcome (gmap SnippetInfo (option (Field * SnippetGenerator))) :=
  entries ← traverse_ok (renew_generator reader schema query) (map_to_list generators);
  Ok (list_to_map entries).

Definition inject_score_and_snippet_placeholders (st : PdbScanState) (plan_targetlist : list PlanExpr) (pj : ProjectionState)
    : ProjectionState :=
  if negb (need_scores st) && negb (need_snippets pj) then pj
  else
    let '(targetlist, score, nodes) := inject_placeholders score_funcoid snippet_funcoid (pj_rti pj) (pj_attname_lookup pj)
      (snippet_keys (dom (snippet_generators pj))) plan_targetlist in
    set_placeholders targetlist score nodes pj.

(** what [rescan_custom_scan] does for projections, after it has a reader *)
Definition rescan_projections (st : PdbScanState) (reader : SearchIndexReader) (schema : SearchIndexSchema)
    (plan_targetlist : list PlanExpr) (pj : ProjectionState) : outcome ProjectionState :=
  pj ← (if need_snippets pj then
          g ← renew_generators reader schema (search_query_input st) (snippet_generators pj); Ok (set_generators g pj)
        else Ok pj);
  Ok (inject_score_and_snippet_placeholders st plan_targetlist pj).

Definition make_snippet (pj : ProjectionState) (ctid : Z) (info : SnippetInfo) : outcome (option string) :=
  match heap_fetch (u64_to_item_pointer ctid) with
  | None => Ok None
  | Some heap_tuple =>
      text ← expect_ok (get_by_name heap_tuple (si_field info)) "{snippet_info.field} should exist in the heap tuple";
      Ok match snippet_generators pj !! info with
         | Some (Some (field, generator)) =>
             Some (snippet_html generator field (default "" (text : option string)) (start_tag info) (end_tag info))
         | _ => None
         end
  end.

(** the value of an expression for the tuple in the slot *)
Fixpoint exec_expr (values : gmap nat (option PgVal)) (slot : HeapRowTuple) (e : PlanExpr) : option PgVal :=
  match e with
  | X_Var varno varattno => eval_var slot varno varattno
  | X_Const _ const => eval_const const
  | X_Placeholder node => mjoin (values !! node)
  | X_FuncExpr funcid args => eval_func funcid (map (exec_expr values slot) args)
  | X_Other tag args => eval_other tag (map (exec_expr values slot) args)
  end.

(** the loop over [const_snippet_nodes] *)
Fixpoint fill_snippets (pj : ProjectionState) (ctid : Z) (nodes : list (SnippetInfo * nat)) (values : gmap nat (option PgVal))
    : outcome (gmap nat (option PgVal)) :=
  match nodes with
  | [] => Ok values
  | (info, node) :: nodes =>
      snippet ← make_snippet pj ctid info;
      fill_snippets pj ctid nodes (<[node := text_val <$> (snippet : option string)]> values)
  end.
(** the branch of [exec_custom_scan] for a visible tuple *)
Definition project_row (st : PdbScanState) (plan_targetlist : list PlanExpr) (pj : ProjectionState)
    (ctid : Z) (score : Score) (slot : HeapRowTuple) : outcome (list (option PgVal) * ProjectionState) :=
  if negb (need_scores st) && negb (need_snippets pj) then Ok (exec_expr ∅ slot <$> plan_targetlist, pj)
  else
    values ← (if need_scores st then
                node ← expect_ok (pj_const_score_node pj) "const_score_node should be set";
                Ok (<[node := Some (float4_val score)]> (const_values pj))
              else Ok (const_values pj));
    values ← (if need_snippets pj then fill_snippets pj ctid (map_to_list (const_snippet_nodes pj)) values else Ok values);
    targetlist ← expect_ok (placeholder_targetlist pj) "placeholder_targetlist must be set";
    Ok (exec_expr values slot <$> (targetlist : list PlanExpr), set_values values pj).

(** row after row: each with its address and score *)
Fixpoint project_rows (st : PdbScanState) (plan_targetlist : list PlanExpr) (pj : ProjectionState)
    (rows : list (Z * Score * HeapRowTuple)) : outcome (list (list (option PgVal))) :=
  match rows with
  | [] => Ok []
  | (ctid, score, slot) :: rows =>
      '(row, pj) ← project_row st plan_targetlist pj ctid score slot;
      rest ← project_rows st plan_targetlist pj rows;
      Ok (row :: rest)
  end.
End projection.

(** ** The calls a plan carries along *)

(** a target entry with its place *)
Record PlanTarget := { resno : Z; pt_entry : TargetEntry }.

Section plan.
Context `{PgDatum} `{PgCatalog} `{RustBuild}.
Context (score_funcoid snippet_funcoid : Z).

(** of a column only its numbers are looked at *)
Definition column_node (var : Var) : VarNode := {| vn_var := var; vartype := PgInvalid; vartypmod := 0; varcollid := 0 |}.
Definition call_name (root : PlannerInfo) (var : Var) : outcome string :=
  '(_, attname) ← attname_from_var root (column_node var);
  expect_ok (attname : option string) "function call argument should be a column name".
(** one score or snippet function: to the end of the target list unless that is empty, and its column's name *)
Definition plan_call (root : PlannerInfo) (te : TargetEntry) (call : Expr * (Z * Z)) (tlist : list PlanTarget)
    : outcome (list PlanTarget * (Var * string)) :=
  let '(funcexpr, (varno, varattno)) := call in
  let tlist :=
    match tlist with
    | [] => []
    | _ => tlist ++ [{| resno := as_signed 16 (zlen tlist + 1);
                        pt_entry := {| resorigtbl := resorigtbl te; te_expr := funcexpr |} |}]
    end in
  let var := {| varno := varno; varattno := varattno |} in
  attname ← call_name root var;
  Ok (tlist, (var, attname)).
Fixpoint plan_calls (root : PlannerInfo) (calls : list (TargetEntry * (Expr * (Z * Z)))) (tlist : list PlanTarget)
    : outcome (list PlanTarget * list (Var * string)) :=
  match calls with
  | [] => Ok (tlist, [])
  | (te, call) :: calls =>
      '(tlist, var) ← plan_call root te call tlist;
      '(tlist, vars) ← plan_calls root calls tlist;
      Ok (tlist, var :: vars)
  end.
Definition calls_at_level (rti : Z) (processed_tlist : list TargetEntry) : list (TargetEntry * (Expr * (Z * Z))) :=
  concat ((λ te, pair te <$> pullout_funcexprs score_funcoid snippet_funcoid rti (te_expr te)) <$> processed_tlist).
Definition plan_custom_path (root : PlannerInfo) (tlist : list PlanTarget) (processed_tlist : list TargetEntry)
    (private_data : PrivateData) : outcome (list PlanTarget * PrivateData) :=
  rti ← expect_ok (range_table_index private_data) "range table index should have been set";
  if u32_val rti <? 2 ^ 31 then
    '(tlist, vars) ← plan_calls root (calls_at_level (u32_val rti) processed_tlist) tlist;
    Ok (tlist, set_var_attname_lookup (attname_lookup_nodes vars) private_data)
  else Panic "range table index should not be negative".
End plan.

(** ** The relations a scan opens *)

(** the backend's references to relations, each with the lock it was taken with *)
Record ScanRelations `{RustF64} `{TantivyTypes} `{!TantivyParser} `{TantivyIndex} `{!TantivyReader} := {
  opened : gmultiset (Z * Z);
  heaprel : option Z;
  indexrel : option Z;
  lockmode : Z;
  visibility_checker : option VisibilityChecker;
  scan_reader : option SearchIndexReader
}.

Lemma open_both_close_both `{Countable A} (a b : A) (m : gmultiset A) : ({[+ b +]} ⊎ ({[+ a +]} ⊎ m)) ∖ {[+ a +]} ∖ {[+ b +]} = m.
Proof. multiset_solver. Qed.

Section relations.
Context `{RustF64} `{TantivyTypes} `{!TantivyParser} `{TantivyIndex} `{!TantivyReader}.

Definition open_relation (oid lock : Z) (s : gmultiset (Z * Z)) : gmultiset (Z * Z) := {[+ (oid, lock) +]} ⊎ s.
Definition close_relation (oid lock : Z) (s : gmultiset (Z * Z)) : gmultiset (Z * Z) := s ∖ {[+ (oid, lock) +]}.
(** [begin_custom_scan]: with [NoLock] a reference is taken without locking *)
Definition begin_relations (rellockmode heaprelid indexrelid : Z) (s : ScanRelations) : ScanRelations :=
  {| opened := open_relation indexrelid rellockmode (open_relation heaprelid rellockmode (opened s));
     heaprel := Some heaprelid; indexrel := Some indexrelid; lockmode := rellockmode;
     visibility_checker := Some with_rel_and_snap; scan_reader := scan_reader s |}.
(** [end_custom_scan] *)
Definition end_custom_scan (s : ScanRelations) : ScanRelations :=
  let close (o : option Z) m := match o with Some oid => close_relation oid (lockmode s) m | None => m end in
  {| opened := close (indexrel s) (close (heaprel s) (opened s)); heaprel := None; indexrel := None;
     lockmode := lockmode s; visibility_checker := None; scan_reader := None |}.

(** What a scan opens it closes, with the lock it was opened with; ending it again closes nothing. *)
Lemma scan_closes_relations rellockmode heaprelid indexrelid s :
  let s' := end_custom_scan (begin_relations rellockmode heaprelid indexrelid s) in
  opened s' = opened s ∧ end_custom_scan s' = s'.
Proof.
  cbn. unfold close_relation, open_relation. split; [|done].
  apply open_both_close_both.
Qed.
End relations.

(** ** What a row shows *)

Section projection_lemmas.
Context `{RustF64} `{TantivyTypes} `{TantivyText} `{TantivyRegex} `{RustBuild}
  `{Chrono} `{!PgDates} `{AsFieldType} `{!TantivyParser} `{!TantivySearcher} `{TantivyIndex} `{!TantivyReader}
  `{!TantivySnippets} `{PgSlots} `{!PgDatum} `{!QueryDatum} `{TantivySchema} `{!HeapFetch} `{!PgExec} `{!SnippetOrder}.
Variables (score_funcoid snippet_funcoid rti : Z) (lookup : gmap (Z * Z) string) (keys : list SnippetInfo).
Notation uses := (uses_snippets snippet_funcoid rti lookup).
Notation inject := (inject score_funcoid snippet_funcoid rti lookup keys).
Implicit Types (e : PlanExpr) (data : Placeholders) (infos : list SnippetInfo).

(** a target list as the planner makes it: score functions of columns, no placeholders *)
Definition is_leaf e : bool := match e with X_Var _ _ | X_Const _ _ => true | _ => false end.
Fixpoint scores_plain e : bool :=
  match e with
  | X_Var _ _ | X_Const _ _ => true
  | X_Placeholder _ => false
  | X_FuncExpr funcid args => if funcid =? score_funcoid then forallb is_leaf args else forallb scores_plain args
  | X_Other _ args => forallb scores_plain args
  end.

(** the value of an expression when every score function has the row's score, and every call of
    [paradedb.snippet] the snippet it asks for *)
Fixpoint row_value (score : option PgVal) (snippet : SnippetInfo → option PgVal) (slot : HeapRowTuple) e : option PgVal :=
  match e with
  | X_Var varno varattno => eval_var slot varno varattno
  | X_Const _ const => eval_const const
  | X_Placeholder _ => None
  | X_FuncExpr funcid args =>
      if funcid =? score_funcoid then score
      else match (if funcid =? snippet_funcoid then snippet_info rti lookup args else Err ""%string) with
           | Ok info => snippet info
           | _ => eval_func funcid (map (row_value score snippet slot) args)
           end
  | X_Other tag args => eval_other tag (map (row_value score snippet slot) args)
  end.

(** the key a call is taken for, and the nodes after some calls *)
Definition first_key (field : string) : option SnippetInfo := List.find (λ info, String.eqb (si_field info) field) keys.
Definition pick (info : SnippetInfo) : SnippetInfo := default info (first_key (si_field info)).
Fixpoint number_nodes data infos : Placeholders :=
  match infos with
  | [] => data
  | info :: infos =>
      number_nodes {| next_node := S (next_node data); nodes_of := <[pick info := next_node data]> (nodes_of data) |} infos
  end.
Lemma number_nodes_app data l l' : number_nodes data (l ++ l') = number_nodes (number_nodes data l) l'.
Proof. revert data. induction l as [|info l IH]; intros data; [done|]. apply IH. Qed.
Lemma number_nodes_next data l : next_node (number_nodes data l) = (next_node data + length l)%nat.
Proof. revert data. induction l as [|info l IH]; intros data; cbn; [lia|]. rewrite IH. cbn. lia. Qed.

(** the node of a key is that of its last call *)
Lemma number_nodes_lookup data l key n :
  nodes_of (number_nodes data l) !! key = Some n ↔
  (nodes_of data !! key = Some n ∧ key ∉ pick <$> l) ∨
  ∃ k, n = (next_node data + k)%nat ∧ (pick <$> l) !! k = Some key ∧ ∀ k', (k < k')%nat → (pick <$> l) !! k' ≠ Some key.
Proof.
  revert data. induction l as [|info l IH]; intros data; cbn [number_nodes fmap list_fmap].
  { split; [|intros [[? _]|(k & _ & [=] & _)]; done]. intros Hn. left. split; [done|]. apply not_elem_of_nil. }
  rewrite IH. cbn [nodes_of next_node]. rewrite lookup_insert_Some, not_elem_of_cons. split.
  - intros [[[(<- & <-)|(Hne & Hn)] Hin]|(k & -> & Hk & Hlast)].
    + right. exists 0%nat. split; [lia|]. split; [done|]. intros [|k'] Hk'; [lia|]. cbn. intros Hx.
      apply Hin. by eapply list_elem_of_lookup_2.
    + left. done.
    + right. exists (S k). split; [lia|]. split; [done|]. intros [|k'] Hk'; [lia|]. apply Hlast. lia.
  - intros [(Hn & Hne & Hin)|([|k] & -> & Hk & Hlast)].
    + left. split; [right; split; [by apply not_eq_sym|done]|done].
    + left. injection Hk as ->. rewrite Nat.add_0_r. split; [by left|]. intros (k & Hx)%list_elem_of_lookup_1.
      by apply (Hlast (S k) ltac:(lia)).
    + right. exists k. split; [lia|]. split; [done|]. intros k' Hk'. apply (Hlast (S k')). lia.
Qed.

(** injecting numbers the calls in the order they come *)
Definition injects e : Prop := ∀ data infos,
  scores_plain e = true → uses e = Ok infos → (∀ info, info ∈ infos → first_key (si_field info) = Some (pick info)) →
  ∃ e', inject e data = (e', number_nodes data infos) ∧
    ∀ values slot snippet, (∀ k info, infos !! k = Some info → mjoin (values !! (next_node data + k)%nat) = snippet info) →
      exec_expr values slot e' = row_value (mjoin (values !! const_score_node)) snippet slot e.

Lemma concat_ok_cons {A B} (f : A → outcome (list B)) x l ys :
  concat_ok f (x :: l) = Ok ys → ∃ y ys', f x = Ok y ∧ concat_ok f l = Ok ys' ∧ ys = y ++ ys'.
Proof.
  unfold concat_ok. cbn [traverse_ok]. intros (zs & (y & Hy & (ys' & Hys & [= <-])%obind_inv)%obind_inv & [= <-])%obind_inv.
  rewrite Hys. by exists y, (concat ys').
Qed.
Lemma injects_list l : Forall injects l → ∀ data infos,
  forallb scores_plain l = true → concat_ok uses l = Ok infos →
  (∀ info, info ∈ infos → first_key (si_field info) = Some (pick info)) →
  ∃ l', mutate_list inject l data = (l', number_nodes data infos) ∧
    ∀ values slot snippet, (∀ k info, infos !! k = Some info → mjoin (values !! (next_node data + k)%nat) = snippet info) →
      map (exec_expr values slot) l' = map (row_value (mjoin (values !! const_score_node)) snippet slot) l.
Proof.
  induction 1 as [|e l He _ IH]; intros data infos Hp Hu Hk; cbn [mutate_list forallb] in *.
  { injection Hu as <-. by eexists. }
  apply andb_true_iff in Hp as [Hpe Hpl]. apply concat_ok_cons in Hu as (own & rest & Hown & Hrest & ->).
  destruct (He data own) as (e' & -> & Hev); [done..|set_solver|].
  destruct (IH (number_nodes data own) rest) as (l' & -> & Hevl); [done..|set_solver|].
  rewrite <- number_nodes_app. eexists. split; [done|]. intros values slot snippet Hv. cbn [map]. f_equal.
  - apply Hev. intros k info Hi. apply Hv. by apply lookup_app_l_Some.
  - apply Hevl. intros k info Hi. rewrite number_nodes_next. rewrite <- Nat.add_assoc. apply Hv.
    rewrite lookup_app_r by lia. by replace (length own + k - length own)%nat with k by lia.
Qed.
Lemma snippet_info_call args info :
  snippet_info rti lookup args = Ok info →
  concat_ok uses args = Ok [] ∧ picked_info rti lookup keys args = first_key (si_field info).
Proof.
  unfold snippet_info. destruct args as [|[? att| | | |] [|[|? c1| | |] [|[|? c2| | |] [|[|a3 c3| | |] [|]]]]]; try done.
  destruct (lookup !! _) as [attname|] eqn:Hl; [|done]. intros [= <-]. split; [done|]. unfold picked_info. by rewrite Hl.
Qed.

Hypothesis funcoids_differ : score_funcoid ≠ snippet_funcoid.

(** one call *)
Lemma uses_call args own :
  uses (X_FuncExpr snippet_funcoid args) = Ok own → ∃ info, own = [info] ∧ snippet_info rti lookup args = Ok info.
Proof.
  cbn [uses_snippets]. rewrite Z.eqb_refl. intros (own' & (info & Hinfo & [= <-])%obind_inv & (rest & Hrest & [= <-])%obind_inv)%obind_inv.
  destruct (snippet_info_call args info Hinfo) as [Hnil _]. rewrite Hnil in Hrest. injection Hrest as <-. by exists info.
Qed.
Lemma call_field varno varattno rest info :
  snippet_info rti lookup (X_Var varno varattno :: rest) = Ok info → lookup !! (int_as_i32 rti, varattno) = Some (si_field info).
Proof.
  intros Hinfo. unfold snippet_info in Hinfo. destruct rest as [|[|? c1| | |] [|[|? c2| | |] [|[|a3 c3| | |] [|]]]]; try done.
  destruct (lookup !! _) as [name|]; [|done]. by injection Hinfo as <-.
Qed.
Lemma inject_call args info data :
  snippet_info rti lookup args = Ok info → first_key (si_field info) = Some (pick info) →
  inject (X_FuncExpr snippet_funcoid args) data = (X_Placeholder (next_node data), number_nodes data [info]).
Proof.
  intros Hinfo Hpick. destruct (snippet_info_call args info Hinfo) as [_ Hp]. cbn [Snippets.inject replacement].
  destruct (Z.eqb_spec snippet_funcoid score_funcoid) as [Heq|_]; [by destruct funcoids_differ|].
  rewrite Z.eqb_refl, Hp, Hpick. done.
Qed.

Lemma inject_ok e : injects e.
Proof.
  induction e as [no att|address c|node|funcid args Hargs|tag args Hargs] using plan_expr_ind;
    intros data infos Hp Hu Hk; cbn [uses_snippets] in Hu.
  - injection Hu as <-. by eexists.
  - injection Hu as <-. by eexists.
  - done.
  - cbn [Snippets.inject replacement scores_plain row_value] in *. destruct (Z.eqb_spec funcid score_funcoid) as [->|Hns].
    { destruct (Z.eqb_spec score_funcoid snippet_funcoid) as [|_]; [done|]. cbn [mbind outcome_bind] in Hu.
      apply obind_inv in Hu as (rest & Hrest & [= <-]). assert (rest = []) as ->.
      { clear -Hp Hrest. revert rest Hrest. induction args as [|a args IH]; intros rest Hrest; [by injection Hrest|].
        apply concat_ok_cons in Hrest as (y & ys & Hy & Hys & ->). cbn in Hp. apply andb_true_iff in Hp as [Ha Hp].
        rewrite (IH Hp ys Hys), app_nil_r. destruct a; try done; by injection Hy as <-. }
      eexists. split; [done|]. done. }
    destruct (Z.eqb_spec funcid snippet_funcoid) as [->|Hnf].
    + apply obind_inv in Hu as (own & (info & Hinfo & [= <-])%obind_inv & (rest & Hrest & [= <-])%obind_inv).
      destruct (snippet_info_call args info Hinfo) as [Hnil Hpick]. rewrite Hnil in Hrest. injection Hrest as <-.
      rewrite Hpick, (Hk info) by (cbn; left). rewrite Hinfo. cbn. eexists. split; [done|]. intros values slot snippet Hv.
      cbn [exec_expr]. rewrite <- (Hv 0%nat info eq_refl). by rewrite Nat.add_0_r.
    + cbn [mbind outcome_bind] in Hu. apply obind_inv in Hu as (rest & Hrest & [= <-]). cbn [app] in *.
      destruct (injects_list args Hargs data rest Hp Hrest Hk) as (l' & -> & Hev). eexists. split; [done|].
      intros values slot snippet Hv. cbn [exec_expr]. by rewrite (Hev values slot snippet Hv).
  - cbn [Snippets.inject replacement scores_plain row_value] in *.
    destruct (injects_list args Hargs data infos Hp Hu Hk) as (l' & -> & Hev). eexists. split; [done|].
    intros values slot snippet Hv. cbn [exec_expr]. by rewrite (Hev values slot snippet Hv).
Qed.
End projection_lemmas.

Section row_lemmas.
Context `{RustF64} `{TantivyTypes} `{TantivyText} `{TantivyRegex} `{RustBuild}
  `{Chrono} `{!PgDates} `{AsFieldType} `{!TantivyParser} `{!TantivySearcher} `{TantivyIndex} `{!TantivyReader}
  `{!TantivySnippets} `{PgSlots} `{!PgDatum} `{!QueryDatum} `{TantivySchema} `{!HeapFetch} `{!PgExec} `{!SnippetOrder}.
Variables (score_funcoid snippet_funcoid rti : Z) (lookup : gmap (Z * Z) string) (gen : SnippetInfo → Field * SnippetGenerator).
Implicit Types (pj : ProjectionState) (infos : list SnippetInfo) (values : gmap nat (option PgVal)).

(** the snippet of the row at an address: of the heap tuple at exactly that address *)
Definition snippet_text (ctid : Z) (info : SnippetInfo) : option string :=
  t ← heap_fetch (u64_to_item_pointer ctid);
  text ← get_by_name t (si_field info);
  let '(field, generator) := gen info in
  Some (snippet_html (set_max_num_chars (max_num_chars info) generator) field (default ""%string text)
    (start_tag info) (end_tag info)).
(** the heap tuple has the columns *)
Definition has_fields infos (ctid : Z) : Prop :=
  ∀ info t, info ∈ infos → heap_fetch (u64_to_item_pointer ctid) = Some t → is_Some (get_by_name t (si_field info)).
(** the scan has the generators *)
Definition has_generators infos pj : Prop :=
  ∀ info, info ∈ infos →
    snippet_generators pj !! info = Some (Some ((gen info).1, set_max_num_chars (max_num_chars info) (gen info).2)).

Lemma make_snippet_ok pj infos ctid info :
  has_generators infos pj → has_fields infos ctid → info ∈ infos → make_snippet pj ctid info = Ok (snippet_text ctid info).
Proof.
  intros Hg Hf Hin. unfold make_snippet, snippet_text. specialize (Hf info). rewrite (Hg info Hin).
  destruct (heap_fetch _) as [t|]; [|done]. cbn [mbind option_bind]. destruct (Hf t Hin eq_refl) as (text & ->).
  cbn [expect_ok mbind outcome_bind option_bind]. by destruct (gen info).
Qed.
Lemma fill_snippets_ok pj ctid texts nodes : ∀ values,
  NoDup nodes.*2 → (∀ info n, (info, n) ∈ nodes → make_snippet pj ctid info = Ok (texts info)) →
  ∃ values', fill_snippets pj ctid nodes values = Ok values' ∧
    (∀ info n, (info, n) ∈ nodes → values' !! n = Some (text_val <$> texts info)) ∧
    (∀ n, n ∉ nodes.*2 → values' !! n = values !! n).
Proof.
  induction nodes as [|[info n] nodes IH]; intros values Hnd Hm; cbn [fill_snippets].
  { exists values. split; [done|]. split; [|done]. by intros ? ? ?%not_elem_of_nil. }
  cbn in Hnd. apply list.NoDup_cons in Hnd as [Hn Hnd]. rewrite (Hm info n) by (by left). cbn [mbind outcome_bind].
  destruct (IH (<[n := text_val <$> texts info]> values) Hnd) as (values' & Hrun & Hset & Hkeep); [intros info' n' Hin; apply (Hm info' n'); by right|].
  exists values'. split; [done|]. split.
  - intros info' n' [[= -> ->]|Hin]%elem_of_cons; [|by apply Hset]. rewrite Hkeep by done. by rewrite lookup_insert_eq.
  - intros n' [Hne Hn']%not_elem_of_cons. rewrite Hkeep by done. by rewrite lookup_insert_ne.
Qed.

Variables (keys : list SnippetInfo) (infos : list SnippetInfo).
Hypothesis funcoids_differ : score_funcoid ≠ snippet_funcoid.
Hypothesis keys_of : ∀ info, info ∈ keys ↔ info ∈ infos.
Notation pick := (pick keys).
Notation nodes := (nodes_of (number_nodes keys {| next_node := S const_score_node; nodes_of := ∅ |} infos)).

Lemma first_key_pick info : info ∈ infos → first_key keys (si_field info) = Some (pick info) ∧ pick info ∈ infos ∧
  si_field (pick info) = si_field info.
Proof.
  intros Hin%keys_of. unfold Snippets.pick. destruct (first_key keys (si_field info)) as [k|] eqn:Hk; cbn.
  - unfold first_key in Hk. apply find_some in Hk as [Hk He]. apply String.eqb_eq in He. split; [done|]. split; [|done].
    by apply keys_of, list_elem_of_In.
  - exfalso. unfold first_key in Hk. apply list_elem_of_In in Hin. eapply find_none in Hk; [|exact Hin]. cbn in Hk.
    by rewrite String.eqb_refl in Hk.
Qed.
Lemma nodes_lookup key n :
  nodes !! key = Some n ↔
  ∃ k, n = S k ∧ (pick <$> infos) !! k = Some key ∧ ∀ k', (k < k')%nat → (pick <$> infos) !! k' ≠ Some key.
Proof.
  rewrite number_nodes_lookup. cbn [nodes_of next_node]. unfold const_score_node. split.
  - intros [[Hn _]|Hk]; [by rewrite lookup_empty in Hn|done].
  - intros Hk. by right.
Qed.
Lemma nodes_pairs :
  NoDup (map_to_list nodes).*2 ∧
  (∀ info n, (info, n) ∈ map_to_list nodes → info ∈ infos ∧ ∃ k, n = S k ∧ (pick <$> infos) !! k = Some info).
Proof.
  split.
  - apply NoDup_fmap_2_strong; [|apply NoDup_map_to_list]. intros [i n] [i' n'] Hi%elem_of_map_to_list Hi'%elem_of_map_to_list.
    cbn. intros ->. apply nodes_lookup in Hi as (k & -> & Hk & _), Hi' as (k' & [= <-] & Hk' & _). congruence.
  - intros info n (k & -> & Hk & _)%elem_of_map_to_list%nodes_lookup. split; [|by exists k].
    apply list_lookup_fmap_Some in Hk as (i & -> & Hi). by apply first_key_pick, list_elem_of_lookup_2 with k.
Qed.

(** ** One row *)

Variables (st : PdbScanState) (targetlist : list PlanExpr) (tl : list PlanExpr) (pj : ProjectionState).
Hypotheses (Htl : placeholder_targetlist pj = Some tl) (Hscore : pj_const_score_node pj = Some const_score_node)
  (Hnodes : const_snippet_nodes pj = nodes) (Hgens : has_generators infos pj)
  (Hneed : need_snippets pj = negb (bool_decide (infos = [])))
  (Hsome : need_scores st = true ∨ infos ≠ []).

Definition score_val (score : Score) : option PgVal := if need_scores st then Some (float4_val score) else None.
(** only what is never written stays null *)
Definition unset values (dead : nat → Prop) : Prop :=
  (need_scores st = false → values !! const_score_node = None) ∧ ∀ k, dead k → values !! S k = None.

Lemma project_row_ok values dead ctid score slot :
  has_fields infos ctid → unset values dead →
  (∀ k info, dead k → (pick <$> infos) !! k = Some info → nodes !! info ≠ Some (S k)) →
  ∃ values', project_row st targetlist (set_values values pj) ctid score slot =
      Ok (exec_expr values' slot <$> tl, set_values values' pj) ∧
    unset values' dead ∧ mjoin (values' !! const_score_node) = score_val score ∧
    ∀ info n, nodes !! info = Some n → values' !! n = Some (text_val <$> snippet_text ctid info).
Proof.
  intros Hf [Hz Hd] Hdead. unfold project_row. cbn [pj_const_score_node set_values const_values const_snippet_nodes placeholder_targetlist].
  change (need_snippets (set_values values pj)) with (need_snippets pj). rewrite Hscore, Hnodes, Htl, Hneed.
  destruct nodes_pairs as [Hnd Hin].
  set (values1 := if need_scores st then <[const_score_node := Some (float4_val score)]> values else values).
  assert (mjoin (values1 !! const_score_node) = score_val score ∧ (need_scores st = false → values1 !! const_score_node = None) ∧
    ∀ k, values1 !! S k = values !! S k) as (Hs1 & Hz1 & Hk1).
  { unfold values1, score_val. destruct (need_scores st).
    - rewrite lookup_insert_eq. split; [done|]. split; [done|]. intros k. by rewrite lookup_insert_ne.
    - rewrite Hz by done. done. }
  destruct (fill_snippets_ok (set_values values pj) ctid (snippet_text ctid) (map_to_list nodes) values1 Hnd)
    as (values2 & Hfill & Hset & Hkeep).
  { intros info n [Hi _]%Hin. by apply make_snippet_ok with infos. }
  assert (const_score_node ∉ (map_to_list nodes).*2) as Hz0.
  { intros ((info, n) & Hn & Hx)%list_elem_of_fmap. cbn in Hn. subst n. by apply Hin in Hx as (_ & k & [=] & _). }
  assert (∀ v, (if negb (bool_decide (infos = [])) then fill_snippets (set_values values pj) ctid (map_to_list nodes) v else Ok v)
    = fill_snippets (set_values values pj) ctid (map_to_list nodes) v) as Hif.
  { intros v. case_bool_decide as Hi; [|done]. rewrite Hi. cbn [number_nodes nodes_of negb]. by rewrite map_to_list_empty. }
  assert (negb (need_scores st) && negb (negb (bool_decide (infos = []))) = false) as Hguard.
  { destruct Hsome as [-> |Hi]; [done|]. rewrite (bool_decide_eq_false_2 _ Hi). apply andb_false_r. }
  exists values2. split; [|split; [split|split]].
  - rewrite Hguard. unfold values1 in Hfill. destruct (need_scores st); cbn [expect_ok mbind outcome_bind]; rewrite Hif, Hfill; done.
  - intros Hns. rewrite Hkeep by done. by apply Hz1.
  - intros k Hk. rewrite Hkeep; [by rewrite Hk1, Hd|].
    intros ((info, n) & Hn & Hx)%list_elem_of_fmap. cbn in Hn. subst n.
    destruct (Hin _ _ Hx) as (_ & k' & [= <-] & Hpick). apply elem_of_map_to_list in Hx. by eapply Hdead.
  - by rewrite Hkeep.
  - intros info n Hn%elem_of_map_to_list. by apply Hset.
Qed.

(** ** All rows *)

Lemma project_rows_ok dead rows : ∀ values,
  Forall (λ row, has_fields infos row.1.1) rows → unset values dead →
  (∀ k info, dead k → (pick <$> infos) !! k = Some info → nodes !! info ≠ Some (S k)) →
  ∃ out, project_rows st targetlist (set_values values pj) rows = Ok out ∧
    Forall2 (λ row vals, ∃ values', vals = exec_expr values' row.2 <$> tl ∧ unset values' dead ∧
      mjoin (values' !! const_score_node) = score_val row.1.2 ∧
      ∀ info n, nodes !! info = Some n → values' !! n = Some (text_val <$> snippet_text row.1.1 info)) rows out.
Proof.
  induction rows as [|[[ctid score] slot] rows IH]; intros values Hf Hu Hd; cbn [project_rows].
  { exists []. by split. }
  apply list.Forall_cons in Hf as [Hf Hfs].
  destruct (project_row_ok values dead ctid score slot Hf Hu Hd) as (values' & -> & Hu' & Hs & Hn).
  cbn [mbind outcome_bind]. destruct (IH values' Hfs Hu' Hd) as (out & -> & Hout). cbn [mbind outcome_bind].
  eexists. split; [done|]. constructor; [|done]. by exists values'.
Qed.
End row_lemmas.

(** ** What [rescan_custom_scan] prepares *)

Lemma mutate_list_app `{PgDatum} f l l' data :
  mutate_list f (l ++ l') data =
    let '(l1, data) := mutate_list f l data in let '(l2, data) := mutate_list f l' data in (l1 ++ l2, data).
Proof.
  revert data. induction l as [|e l IH]; intros data; cbn [app mutate_list].
  { by destruct (mutate_list f l' data). }
  destruct (f e data) as [e' data']. rewrite IH. destruct (mutate_list f l data') as [l1 data1].
  by destruct (mutate_list f l' data1).
Qed.
Lemma mutate_list_length `{PgDatum} f l data : length (mutate_list f l data).1 = length l.
Proof.
  revert data. induction l as [|e l IH]; intros data; [done|]. cbn [mutate_list]. destruct (f e data) as [e' data'].
  specialize (IH data'). destruct (mutate_list f l data'). cbn in *. by f_equal.
Qed.
Lemma concat_ok_app {A B} (f : A → outcome (list B)) l l' ys :
  concat_ok f (l ++ l') = Ok ys → ∃ y y', concat_ok f l = Ok y ∧ concat_ok f l' = Ok y' ∧ ys = y ++ y'.
Proof.
  revert ys. induction l as [|x l IH]; intros ys Hys; cbn [app] in Hys; [by exists [], ys|].
  apply concat_ok_cons in Hys as (own & rest & Hown & (y & y' & Hy & Hy' & ->)%IH & ->).
  exists (own ++ y), y'. rewrite app_assoc. split; [|done]. unfold concat_ok in *. cbn [traverse_ok]. rewrite Hown.
  cbn [mbind outcome_bind]. apply obind_inv in Hy as (zs & -> & [= <-]). done.
Qed.
Lemma list_to_map_keys {V} (h : SnippetInfo → V) (l : list SnippetInfo) info :
  (list_to_map ((λ i, (i, h i)) <$> l) : gmap SnippetInfo V) !! info = if decide (info ∈ l) then Some (h info) else None.
Proof.
  induction l as [|i l IH]; cbn [fmap list_fmap list_to_map foldr]; [by rewrite lookup_empty|].
  destruct (decide (info = i)) as [->|Hne]; [rewrite lookup_insert_eq, decide_True by (by left); done|].
  cbn in *. rewrite lookup_insert_ne by done. rewrite IH. apply decide_ext. rewrite elem_of_cons. naive_solver.
Qed.
Lemma some_if (P : Prop) `{Decision P} {V} (v : V) : is_Some (if decide P then Some v else None) ↔ P.
Proof. destruct (decide P); split; try done. Qed.
Lemma traverse_ok_in {A B} (f : A → outcome B) (g : A → B) l :
  (∀ x, x ∈ l → f x = Ok (g x)) → traverse_ok f l = Ok (g <$> l).
Proof.
  induction l as [|x l IH]; intros Hf; [done|]. cbn [traverse_ok]. rewrite (Hf x) by (by left). cbn [mbind outcome_bind].
  rewrite IH; [done|]. intros y Hy. apply Hf. by right.
Qed.

Lemma call_placeholder `{RustF64} `{TantivyTypes} `{TantivyText} `{TantivyRegex} `{RustBuild}
    `{Chrono} `{!PgDates} `{AsFieldType} `{!TantivyParser} `{!TantivySearcher} `{TantivyIndex} `{!TantivyReader}
    `{!TantivySnippets} `{PgSlots} `{!PgDatum} `{!QueryDatum} `{TantivySchema} `{!HeapFetch} `{!PgExec} `{!SnippetOrder}
    score_funcoid snippet_funcoid rti lookup keys (funcoids_differ : score_funcoid ≠ snippet_funcoid)
    before args after data infos info tl data' :
  mutate_list (inject score_funcoid snippet_funcoid rti lookup keys) (before ++ X_FuncExpr snippet_funcoid args :: after) data =
    (tl, data') →
  forallb (scores_plain score_funcoid) before = true → concat_ok (uses_snippets snippet_funcoid rti lookup) before = Ok infos →
  snippet_info rti lookup args = Ok info →
  (∀ i, i ∈ infos → first_key keys (si_field i) = Some (pick keys i)) → first_key keys (si_field info) = Some (pick keys info) →
  tl !! length before = Some (X_Placeholder (next_node data + length infos)).
Proof.
  intros Hmut Hplain Hu Hinfo Hkeys Hkey. rewrite mutate_list_app in Hmut.
  destruct (injects_list score_funcoid snippet_funcoid rti lookup keys before
    ltac:(apply Forall_true; intros e; by apply inject_ok) data infos Hplain Hu Hkeys) as (tl1 & Hmut1 & _).
  pose proof (mutate_list_length (inject score_funcoid snippet_funcoid rti lookup keys) before data) as Hlen.
  rewrite Hmut1 in Hmut, Hlen. cbn [mutate_list fst] in Hmut, Hlen.
  rewrite (inject_call score_funcoid snippet_funcoid rti lookup keys funcoids_differ _ info) in Hmut by done.
  rewrite number_nodes_next in Hmut. destruct (mutate_list _ _ _) as [tl2 data2]. injection Hmut as <- _.
  rewrite lookup_app_r by lia. by rewrite Hlen, Nat.sub_diag.
Qed.

Section prepared.
Context `{RustF64} `{TantivyTypes} `{TantivyText} `{TantivyRegex} `{RustBuild}
  `{Chrono} `{!PgDates} `{AsFieldType} `{!TantivyParser} `{!TantivySearcher} `{TantivyIndex} `{!TantivyReader}
  `{!TantivySnippets} `{PgSlots} `{!PgDatum} `{!QueryDatum} `{TantivySchema} `{!HeapFetch} `{!PgExec} `{!SnippetOrder}.
Variables (score_funcoid snippet_funcoid : Z) (gen : SnippetInfo → Field * SnippetGenerator)
  (st : PdbScanState) (reader : SearchIndexReader) (schema : SearchIndexSchema)
  (fields : PdbScanFields) (scanrelid : Z) (targetlist : list PlanExpr) (pj0 : ProjectionState) (infos : list SnippetInfo).
Notation rti := (u32_val (st_rti fields)).
Notation lookup := (st_var_attname_lookup fields).

(** the scan asks for these snippets, and needs its own projection *)
Definition asks_for : Prop :=
  score_funcoid ≠ snippet_funcoid ∧
  create_projections score_funcoid snippet_funcoid fields scanrelid targetlist = Ok (need_scores_field st, pj0) ∧
  concat_ok (uses_snippets snippet_funcoid rti lookup) targetlist = Ok infos ∧
  forallb (scores_plain score_funcoid) targetlist = true ∧
  (need_scores st = true ∨ infos ≠ []) ∧
  ∀ info, info ∈ infos → snippet_generator reader schema (si_field info) (search_query_input st) = Ok (gen info).
Hypothesis Hasks : asks_for.

Lemma created : snippet_generators pj0 = list_to_map ((λ info, (info, None)) <$> infos) ∧ pj_rti pj0 = rti ∧
  pj_attname_lookup pj0 = lookup.
Proof.
  destruct Hasks as (_ & Hc & Hu & _). unfold create_projections in Hc.
  apply obind_inv in Hc as (need & _ & (infos' & Hu' & [= _ <-])%obind_inv). cbn.
  assert (infos' = infos) as -> by congruence. done.
Qed.
(** the generators after a rescan, by what was asked for *)
Definition new_generator (info : SnippetInfo) : option (Field * SnippetGenerator) :=
  Some ((gen info).1, set_max_num_chars (max_num_chars info) (gen info).2).
Lemma renewed : renew_generators reader schema (search_query_input st) (snippet_generators pj0) =
  Ok (list_to_map ((λ info, (info, new_generator info)) <$> (map_to_list (snippet_generators pj0)).*1)).
Proof.
  destruct created as (Hg & _), Hasks as (_ & _ & _ & _ & _ & Hgen). unfold renew_generators.
  rewrite (traverse_ok_in _ (λ x, (x.1, new_generator x.1))).
  - cbn [mbind outcome_bind]. by rewrite <- list_fmap_compose.
  - intros [info g] Hin%elem_of_map_to_list. rewrite Hg, list_to_map_keys in Hin.
    destruct (decide (info ∈ infos)) as [Hi|]; [|done]. unfold renew_generator, new_generator. cbn [fst].
    rewrite (Hgen info Hi). by destruct (gen info).
Qed.
Lemma generator_keys info : info ∈ (map_to_list (snippet_generators pj0)).*1 ↔ info ∈ infos.
Proof.
  destruct created as (-> & _). rewrite list_elem_of_fmap. split.
  - intros ([i g] & -> & Hin%elem_of_map_to_list). rewrite list_to_map_keys in Hin. by destruct (decide _).
  - intros Hin. exists (info, None). split; [done|]. apply elem_of_map_to_list. by rewrite list_to_map_keys, decide_True.
Qed.

Definition first_node : Placeholders := {| next_node := S const_score_node; nodes_of := ∅ |}.

Lemma rescan_ok : ∃ keys tl pj,
  rescan_projections score_funcoid snippet_funcoid st reader schema targetlist pj0 = Ok pj ∧
  (∀ info, info ∈ keys ↔ info ∈ infos) ∧
  mutate_list (inject score_funcoid snippet_funcoid rti lookup keys) targetlist first_node =
    (tl, number_nodes keys first_node infos) ∧
  placeholder_targetlist pj = Some tl ∧ pj_const_score_node pj = Some const_score_node ∧
  const_snippet_nodes pj = nodes_of (number_nodes keys first_node infos) ∧ const_values pj = ∅ ∧
  has_generators gen infos pj ∧ need_snippets pj = negb (bool_decide (infos = [])).
Proof.
  destruct created as (Hg & Hr & Hl). pose proof Hasks as (Hne & _ & Hu & Hplain & Hsome & _).
  assert (need_snippets pj0 = negb (bool_decide (infos = []))) as Hneed0.
  { unfold need_snippets. rewrite Hg. f_equal. apply bool_decide_ext. split; [|by intros ->].
    intros He. destruct infos as [|info l]; [done|]. apply (f_equal (λ m, m !! info)) in He.
    rewrite list_to_map_keys, decide_True in He by (by left). by rewrite lookup_empty in He. }
  assert (∃ pj1, (if need_snippets pj0 then
      g ← renew_generators reader schema (search_query_input st) (snippet_generators pj0); Ok (set_generators g pj0)
      else Ok pj0) = Ok pj1 ∧ pj_rti pj1 = rti ∧ pj_attname_lookup pj1 = lookup ∧
      has_generators gen infos pj1 ∧ (∀ info, info ∈ dom (snippet_generators pj1) ↔ info ∈ infos) ∧
      need_snippets pj1 = negb (bool_decide (infos = []))) as (pj1 & Hrenew & Hr1 & Hl1 & Hg1 & Hd1 & Hn1).
  { rewrite Hneed0. case_bool_decide as Hi; cbn [negb].
    - exists pj0. split_and!; try done.
      + intros info Hin. rewrite Hi in Hin. by apply not_elem_of_nil in Hin.
      + intros info. by rewrite elem_of_dom, Hg, list_to_map_keys, some_if.
    - rewrite renewed. cbn [mbind outcome_bind]. eexists. split; [done|]. cbn [pj_rti pj_attname_lookup set_generators]. split; [done|].
      split; [done|]. unfold has_generators, need_snippets. cbn [snippet_generators set_generators]. split_and!.
      + intros info Hin. by rewrite list_to_map_keys, decide_True by by apply generator_keys.
      + intros info. rewrite elem_of_dom, list_to_map_keys, some_if. apply generator_keys.
      + apply negb_true_iff, bool_decide_eq_false_2. intros He.
        assert (∃ info, info ∈ infos) as [info Hin] by (destruct infos as [|i l]; [done|exists i; by left]).
        apply (f_equal (λ m, m !! info)) in He.
        rewrite list_to_map_keys, decide_True in He by by apply generator_keys. by rewrite lookup_empty in He. }
  set (keys := snippet_keys (dom (snippet_generators pj1))).
  assert (∀ info, info ∈ keys ↔ info ∈ infos) as Hkeys.
  { intros info. unfold keys. by rewrite (snippet_keys_perm _), elem_of_elements, Hd1. }
  destruct (injects_list score_funcoid snippet_funcoid rti lookup keys targetlist
    ltac:(apply Forall_true; intros e; by apply inject_ok) first_node infos Hplain Hu) as (tl & Hmut & _).
  { intros info Hin. by apply (first_key_pick keys infos). }
  exists keys, tl, (set_placeholders tl const_score_node (nodes_of (number_nodes keys first_node infos)) pj1).
  split; [|by split_and!].
  unfold rescan_projections. rewrite Hrenew. cbn [mbind outcome_bind]. unfold inject_score_and_snippet_placeholders.
  assert (negb (need_scores st) && negb (need_snippets pj1) = false) as ->.
  { rewrite Hn1. destruct Hsome as [-> |Hi]; [done|]. rewrite (bool_decide_eq_false_2 _ Hi). apply andb_false_r. }
  unfold inject_placeholders. fold first_node. rewrite Hr1, Hl1. fold keys. by rewrite Hmut.
Qed.
End prepared.

(** C21: A custom scan projects every row with the row's score for each score function
    and, when no column has two snippet calls, for each of those the snippet it asks for
    with its own tags; the length limit is the address of the call's constant, and the
    text is that of the heap tuple at exactly the indexed address, so a row that is only
    reached through a chain of HOT updates has null. No value of an earlier row is left
    over. *)
Theorem rows_have_scores_and_snippets `{RustF64} `{TantivyTypes} `{TantivyText} `{TantivyRegex} `{RustBuild}
    `{Chrono} `{!PgDates} `{AsFieldType} `{!TantivyParser} `{!TantivySearcher} `{TantivyIndex} `{!TantivyReader}
    `{!TantivySnippets} `{PgSlots} `{!PgDatum} `{!QueryDatum} `{TantivySchema} `{!HeapFetch} `{!PgExec} `{!SnippetOrder}
    score_funcoid snippet_funcoid gen st reader schema fields scanrelid targetlist pj0 infos rows :
  asks_for score_funcoid snippet_funcoid gen st reader schema fields scanrelid targetlist pj0 infos →
  NoDup (si_field <$> infos) → Forall (λ row, has_fields infos row.1.1) rows →
  let row_value := row_value score_funcoid snippet_funcoid (u32_val (st_rti fields)) (st_var_attname_lookup fields) in
  ∃ pj, rescan_projections score_funcoid snippet_funcoid st reader schema targetlist pj0 = Ok pj ∧
    project_rows st targetlist pj rows = Ok ((λ '(ctid, score, slot),
      row_value (score_val st score) (λ info, text_val <$> snippet_text gen ctid info) slot <$> targetlist) <$> rows).
Proof.
  intros Hasks Hnd Hf row_value.
  destruct (rescan_ok _ _ _ _ _ _ _ _ _ _ _ Hasks) as (keys & tl & pj & Hrun & Hkeys & Hmut & Htl & Hs & Hn & Hv & Hg & Hneed).
  exists pj. split; [done|]. pose proof Hasks as (Hne & _ & Hu & Hplain & Hsome & _).
  assert (∀ info, info ∈ infos → pick keys info = info) as Hpick.
  { intros info Hin. destruct (first_key_pick keys infos Hkeys info Hin) as (_ & Hin' & Hfield).
    apply list_elem_of_lookup_1 in Hin as [k Hk], Hin' as [k' Hk'].
    assert (k' = k) as -> by (eapply NoDup_lookup; [exact Hnd|rewrite list_lookup_fmap, Hk'; cbn; by rewrite Hfield|];
      by rewrite list_lookup_fmap, Hk). congruence. }
  assert (pick keys <$> infos = infos) as Hpicks.
  { apply list_eq_same_length with (length infos); [done|by rewrite length_fmap|]. intros i x y _ Hx Hy.
    rewrite list_lookup_fmap, Hy in Hx. injection Hx as <-. by eapply Hpick, list_elem_of_lookup_2. }
  destruct (project_rows_ok gen keys infos Hkeys st targetlist tl pj Htl Hs Hn Hg Hneed Hsome (λ _, False) rows ∅ Hf)
    as (out & Hout & Hall); [by split|done|].
  assert (set_values ∅ pj = pj) as Hpj by (destruct pj; cbn in *; by subst). rewrite Hpj in Hout. rewrite Hout. f_equal.
  clear Hout Hf. induction Hall as [|[[ctid score] slot] vals rows out (values & -> & _ & Hscore & Hnodes) _ IH]; [done|].
  cbn [fmap list_fmap]. f_equal; [|exact IH]. cbn [fst snd] in *.
  destruct (injects_list score_funcoid snippet_funcoid (u32_val (st_rti fields)) (st_var_attname_lookup fields) keys targetlist
    ltac:(apply Forall_true; intros e; by apply inject_ok) first_node infos Hplain Hu) as (tl' & Hmut' & Hev).
  { intros info Hin. by apply (first_key_pick keys infos). }
  assert (tl' = tl) as -> by congruence. rewrite <- Hscore. apply Hev. intros k info Hk.
  change (next_node first_node + k)%nat with (S k). rewrite (Hnodes info (S k)); [done|]. apply nodes_lookup. exists k. rewrite Hpicks. split; [done|]. split; [done|].
  intros k' Hlt Hk'. apply NoDup_fmap_1 in Hnd. assert (k' = k) by by eapply NoDup_lookup. lia.
Qed.

(** the calls of one column *)
Definition snippet_of_column `{PgDatum} (snippet_funcoid varattno : Z) (e : PlanExpr) : Prop :=
  ∃ varno rest, e = X_FuncExpr snippet_funcoid (X_Var varno varattno :: rest).

(** C22: When a target list has two snippet calls of one column, whatever their tags,
    the first of them is null in every row: both are taken for the same key, and only
    the constant of the last one is ever filled. *)
Theorem repeated_snippet_is_null `{RustF64} `{TantivyTypes} `{TantivyText} `{TantivyRegex} `{RustBuild}
    `{Chrono} `{!PgDates} `{AsFieldType} `{!TantivyParser} `{!TantivySearcher} `{TantivyIndex} `{!TantivyReader}
    `{!TantivySnippets} `{PgSlots} `{!PgDatum} `{!QueryDatum} `{TantivySchema} `{!HeapFetch} `{!PgExec} `{!SnippetOrder}
    score_funcoid snippet_funcoid gen st reader schema fields scanrelid before call between call' after pj0 infos varattno rows :
  let targetlist := before ++ call :: between ++ call' :: after in
  asks_for score_funcoid snippet_funcoid gen st reader schema fields scanrelid targetlist pj0 infos →
  snippet_of_column snippet_funcoid varattno call → snippet_of_column snippet_funcoid varattno call' →
  Forall (λ row, has_fields infos row.1.1) rows →
  ∃ pj out, rescan_projections score_funcoid snippet_funcoid st reader schema targetlist pj0 = Ok pj ∧
    project_rows st targetlist pj rows = Ok out ∧ length out = length rows ∧
    Forall (λ vals, vals !! length before = Some None) out.
Proof.
  intros targetlist Hasks (no & rest & ->) (no' & rest' & ->) Hf.
  destruct (rescan_ok _ _ _ _ _ _ _ _ _ _ _ Hasks) as (keys & tl & pj & Hrun & Hkeys & Hmut & Htl & Hs & Hn & Hv & Hg & Hneed).
  pose proof Hasks as (Hne & _ & Hu & Hplain & Hsome & _).
  set (rti := u32_val (st_rti fields)) in *. set (lookup := st_var_attname_lookup fields) in *.
  unfold targetlist in Hu, Hplain, Hmut. apply concat_ok_app in Hu as (infos1 & rest1 & Hu1 & Hu2 & Hinfos).
  apply concat_ok_cons in Hu2 as (own & rest2 & Hown & Hu3 & Hrest1).
  apply concat_ok_app in Hu3 as (infos2 & rest3 & Hu4 & Hu5 & Hrest2).
  apply concat_ok_cons in Hu5 as (own' & infos3 & Hown' & _ & Hrest3).
  destruct (uses_call snippet_funcoid rti lookup keys _ _ Hown) as (info & -> & Hinfo).
  destruct (uses_call snippet_funcoid rti lookup keys _ _ Hown') as (info' & -> & Hinfo').
  pose proof (call_field rti lookup _ _ _ _ Hinfo) as Hfield. rewrite (call_field rti lookup _ _ _ _ Hinfo') in Hfield.
  injection Hfield as Hfield.
  assert (infos = (infos1 ++ info :: infos2) ++ info' :: infos3) as Hsplit.
  { rewrite Hinfos, Hrest1, Hrest2, Hrest3. by rewrite <- !app_assoc. }
  assert (∀ i, i ∈ infos → first_key keys (si_field i) = Some (pick keys i)) as Hfirst.
  { intros i Hi. by apply (first_key_pick keys infos). }
  assert (info ∈ infos ∧ info' ∈ infos) as [Hin Hin'] by (rewrite Hsplit; set_solver).
  assert (pick keys info' = pick keys info) as Hsame.
  { pose proof (Hfirst _ Hin) as Hf1. pose proof (Hfirst _ Hin') as Hf2. rewrite <- Hfield in Hf1. congruence. }
  destruct (project_rows_ok gen keys infos Hkeys st targetlist tl pj Htl Hs Hn Hg Hneed Hsome (λ k, k = length infos1) rows ∅ Hf)
    as (out & Hout & Hall); [by split| |].
  { intros k key -> Hk (k' & [= <-] & _ & Hlast)%nodes_lookup; [|done..].
    apply (Hlast (length (infos1 ++ info :: infos2))); [rewrite length_app; cbn; lia|].
    rewrite Hsplit, fmap_app in Hk |- *. rewrite lookup_app_r by (rewrite length_fmap; lia).
    rewrite length_fmap, Nat.sub_diag. cbn. rewrite Hsame, <- Hk, lookup_app_l by (rewrite length_fmap, length_app; cbn; lia).
    rewrite fmap_app, lookup_app_r by (rewrite length_fmap; lia). by rewrite length_fmap, Nat.sub_diag. }
  assert (set_values ∅ pj = pj) as Hpj by (destruct pj; cbn in *; by subst). rewrite Hpj in Hout.
  exists pj, out. split; [done|]. split; [done|]. split; [symmetry; by eapply Forall2_length|].
  assert (tl !! length before = Some (X_Placeholder (S (length infos1)))) as Hnull.
  { rewrite forallb_app in Hplain. apply andb_true_iff in Hplain as [Hplain1 _].
    eapply (call_placeholder score_funcoid snippet_funcoid rti lookup keys Hne before) in Hmut; [exact Hmut|done|done|done| |by apply Hfirst].
    intros i Hi. apply Hfirst. rewrite Hsplit. set_solver. }
  clear -Hall Hnull. induction Hall as [|row vals rows out (values & -> & [_ Hunset] & _) _ IH]; constructor; [|exact IH].
  rewrite list_lookup_fmap, Hnull. cbn. by rewrite (Hunset _ eq_refl).
Qed.

(** The length that a call asks for does not matter: the limit is the address of its node. *)
Lemma snippet_length_ignored `{PgDatum} `{!QueryDatum} rti lookup field start_arg end_arg address length length' :
  snippet_info rti lookup [field; start_arg; end_arg; X_Const address length] =
  snippet_info rti lookup [field; start_arg; end_arg; X_Const address length'].
Proof. by destruct field, start_arg, end_arg. Qed.

(** ** The names a plan carries along *)

Section plan_names.
Context `{PgDatum} `{PgCatalog} `{RustBuild}.
Variables (score_funcoid snippet_funcoid : Z) (root : PlannerInfo).

Lemma plan_calls_names calls : ∀ tlist tlist' vars,
  plan_calls root calls tlist = Ok (tlist', vars) →
  Forall2 (λ call vn, varno vn.1 = call.2.2.1 ∧ varattno vn.1 = call.2.2.2 ∧ call_name root vn.1 = Ok vn.2) calls vars.
Proof.
  induction calls as [|[te [f [no att]]] calls IH]; intros tlist tlist' vars Hrun; cbn [plan_calls] in Hrun.
  { injection Hrun as _ <-. constructor. }
  apply obind_inv in Hrun as ([tlist1 vn] & Hcall & ([tlist2 vars'] & Hrest & [= _ <-])%obind_inv).
  unfold plan_call in Hcall. apply obind_inv in Hcall as (name & Hname & [= _ <-]).
  constructor; [done|]. by eapply IH.
Qed.
Lemma attnames_named vars : Forall (λ vn, call_name root vn.1 = Ok vn.2) vars →
  ∀ vn, vn ∈ vars → attnames vars !! (varno vn.1, varattno vn.1) = Some vn.2.
Proof.
  unfold attnames. intros Hall vn Hin. assert (∀ m : gmap (Z * Z) string, (vn ∈ vars ∨ m !! (varno vn.1, varattno vn.1) = Some vn.2) → call_name root vn.1 = Ok vn.2 →
    foldl (λ m '(var, attname), <[(varno var, varattno var) := attname]> m) m vars !! (varno vn.1, varattno vn.1) = Some vn.2) as Hgen.
  { clear Hin. induction Hall as [|[var name] vars Hname _ IH]; intros m Hor Hvn; cbn [foldl].
    - destruct Hor as [Hin|Hm]; [by apply not_elem_of_nil in Hin|exact Hm].
    - apply IH; [|done]. destruct Hor as [[->|Hin]%elem_of_cons|Hm]; [right|by left|right]; cbn.
      + by rewrite lookup_insert_eq.
      + destruct (decide ((varno var, varattno var) = (varno vn.1, varattno vn.1))) as [Heq|Hne].
        * rewrite Heq, lookup_insert_eq. injection Heq as Hno Hatt. f_equal. destruct var, vn as [[] ?]; cbn in *. subst. congruence.
        * by rewrite lookup_insert_ne. }
  apply Hgen; [by left|]. rewrite list.Forall_forall in Hall. by apply Hall.
Qed.

(** Every score and snippet function of a column finds its column's name in the executor. *)
Theorem plan_names_columns tlist processed_tlist p rti tlist' p' :
  range_table_index p = Some rti → plan_custom_path score_funcoid snippet_funcoid root tlist processed_tlist p = Ok (tlist', p') →
  (∀ var name, call_name root var = Ok name → var_ok var ∧ is_c_str name) →
  ∃ nodes lookup, var_attname_lookup p' = Some nodes ∧ populate_var_attname_lookup ∅ nodes = Some lookup ∧
    ∀ te f varno varattno, (te, (f, (varno, varattno))) ∈ calls_at_level score_funcoid snippet_funcoid (u32_val rti) processed_tlist →
      ∃ name, call_name root {| varno := varno; varattno := varattno |} = Ok name ∧ lookup !! (varno, varattno) = Some name.
Proof.
  intros Hrti Hrun Hnames. unfold plan_custom_path in Hrun. rewrite Hrti in Hrun. cbn [expect_ok mbind outcome_bind] in Hrun.
  destruct (u32_val rti <? 2 ^ 31); [|done]. apply obind_inv in Hrun as ([tlist1 vars] & Hcalls & [= <- <-]).
  apply plan_calls_names in Hcalls.
  assert (Forall (λ vn, call_name root vn.1 = Ok vn.2) vars) as Hall.
  { clear -Hcalls. induction Hcalls as [|call vn calls vars (_ & _ & ?) _ IH]; by constructor. }
  exists (attname_lookup_nodes vars), (attnames vars). split; [done|]. split.
  - apply populate_attname_lookup. eapply Forall_impl; [exact Hall|]. intros [var name] Hn. by apply Hnames.
  - intros te f no att Hin. apply list_elem_of_lookup_1 in Hin as [i Hi].
    destruct (Forall2_lookup_l _ _ _ _ _ Hcalls Hi) as ([var name] & Hv & Hno & Hatt & Hname). cbn in Hno, Hatt, Hname.
    exists name. destruct var as [no' att']. cbn in Hno, Hatt. subst. split; [done|].
    apply (attnames_named vars Hall ({| varno := no; varattno := att |}, name)). by eapply list_elem_of_lookup_2.
Qed.
End plan_names.
