(* ===== verification/MergePolicy.v ===== *)
(** * MergePolicy: when segments are merged

    Models [pg_search/src/index/merge_policy.rs] ([NPlusOneMergePolicy], [MergeLock],
    [set_num_segments]) and [reconsider_merge_policy] of [index/directory/mvcc.rs].
    A [MergeLock] is the locked merge lock page; dropping it is an operation of its
    own, which the caller of [reconsider_merge_policy] performs when the directory
    that keeps the lock is dropped.  The buffer lock of the other backends is
    [ConditionalLockBuffer] of [PgBuffers]. *)

From S2P Require Import Prelude Page Block Buffer.

Open Scope Z_scope.

(** ** Tantivy's view of the segments *)

(** [tantivy::index::DeleteMeta] and [InnerSegmentMeta], built by [load_metas] *)
Record DeleteMeta := {
  dm_num_deleted_docs : Z;
  dm_opstamp : Z
}.
Record InnerSegmentMeta `{TantivyIndex} := {
  ism_max_doc : Z;
  ism_segment_id : SegmentId;
  ism_deletes : option DeleteMeta;
  ism_include_temp_doc_store : bool
}.

(** [tantivy::SegmentMeta], the methods the code calls, and what they return of a
    meta tracked by an inventory *)
Class TantivySegments `{TantivyIndex} := {
  SegmentMeta : Type;
  sm_id : SegmentMeta → SegmentId;
  sm_max_doc : SegmentMeta → Z;
  num_docs : SegmentMeta → Z;
  sm_num_deleted_docs : SegmentMeta → Z;
  track : InnerSegmentMeta → SegmentMeta;
  sm_id_track i : sm_id (track i) = ism_segment_id i;
  sm_max_doc_track i : sm_max_doc (track i) = ism_max_doc i;
  sm_num_deleted_docs_track i :
    sm_num_deleted_docs (track i) = match ism_deletes i with
                                    | Some d => dm_num_deleted_docs d | None => 0 end
}.

(** [slice::sort_unstable_by] sorts by the comparison; it promises nothing about
    the order of equal elements *)
Class StdSort := {
  sort_unstable_by : ∀ {A}, (A → A → comparison) → list A → list A;
  sort_unstable_perm {A} (cmp : A → A → comparison) l : sort_unstable_by cmp l ≡ₚ l;
  sort_unstable_sorted {A} (cmp : A → A → comparison) l :
    (∀ x y, cmp x y = CompOpp (cmp y x)) →
    (∀ x y z, cmp x y ≠ Gt → cmp y z ≠ Gt → cmp x z ≠ Gt) →
    StronglySorted (λ x y, cmp x y ≠ Gt) (sort_unstable_by cmp l)
}.

(** ** [NPlusOneMergePolicy] *)

Record NPlusOneMergePolicy := {
  policy_n : Z;
  min_num_segments : Z
}.

Section policy.
Context `{TantivySegments} `{StdSort}.
Implicit Types (segments : list SegmentMeta) (candidate : list SegmentId).

(** [|a, b| a.num_docs().cmp(&b.num_docs()).reverse()] *)
Definition by_num_docs_reverse (a b : SegmentMeta) : comparison :=
  CompOpp (Z.compare (num_docs a) (num_docs b)).

(** [while segments.len() > n { candidate.push(segments.pop().id()) }], the vector
    given last element first *)
Fixpoint pop_while (n : Z) (rev_segments : list SegmentMeta) : list SegmentId :=
  match rev_segments with
  | meta :: rest => if zlen rev_segments >? n then sm_id meta :: pop_while n rest else []
  | [] => []
  end.

Definition compute_merge_candidates (p : NPlusOneMergePolicy) segments : list (list SegmentId) :=
  let n := policy_n p in
  if zlen segments <? n + min_num_segments p then []
  else
    let segments := sort_unstable_by by_num_docs_reverse segments in
    let candidate := pop_while n (rev segments) in
    if zlen candidate <? 2 then [] else [candidate].
End policy.

(** ** [MergeLock] *)

Section lock.
Context `{PgPage, PgXact, PgBuffers}.

Definition set_last_merge (x : Z) (md : MergeLockData) : MergeLockData :=
  {| last_merge := x; num_segments := num_segments md |}.

(** [MergeLock::acquire_for_merge]; [true] is [Some(lock)].  The reference
    [contents_mut] returns is read, and written when the last merge is visible. *)
Definition acquire_for_merge : M Rel bool :=
  if negb IsTransactionState then mret false else
  _ ← BufferManager_new;
  o ← get_buffer_conditional MERGE_LOCK;
  match o with
  | None => mret false
  | Some b => with_page_mut b (λ pm,
      let last_merge := last_merge (contents (pm_page pm)) in
      let last_merge_visible := TransactionIdIsCurrentTransactionId last_merge
                                || negb (XidInMVCCSnapshot last_merge GetActiveSnapshot) in
      pm ← contents_mut (λ md, if last_merge_visible
                               then set_last_merge GetCurrentTransactionId md else md) pm;
      Ok (last_merge_visible, pm))
  end.

(** [MergeLock::acquire_for_delete] waits for the buffer lock *)
Definition acquire_for_delete : M Rel unit :=
  _ ← BufferManager_new; _ ← get_page MERGE_LOCK; mret tt.

(** [Drop for MergeLock] *)
Definition merge_lock_drop : M Rel unit :=
  if IsTransactionState then
    update_buffer MERGE_LOCK (contents_mut (set_last_merge GetCurrentTransactionId))
  else mret tt.

Definition lock_num_segments : M Rel Z :=
  with_page_mut MERGE_LOCK (λ pm,
    pm ← contents_mut (λ md : MergeLockData, md) pm;
    Ok (num_segments (contents (pm_page pm)), pm)).

Definition set_num_segments (n : Z) : M Rel unit :=
  _ ← BufferManager_new;
  update_buffer MERGE_LOCK (contents_mut (λ md,
    {| last_merge := last_merge md; num_segments := n |})).
End lock.

(** ** [MVCCDirectory::reconsider_merge_policy] *)

Inductive AllowedMergePolicy := MergeNone | MergeNPlusOne.
#[global] Instance AllowedMergePolicy_eq_dec : EqDecision AllowedMergePolicy.
Proof. solve_decision. Defined.

(** the boxed [dyn MergePolicy]: [NoMergePolicy] or [NPlusOneMergePolicy] *)
Inductive BoxedMergePolicy :=
  | NoMergePolicy
  | NPlusOne (p : NPlusOneMergePolicy).

Definition MIN_NUM_SEGMENTS : Z := 2.

(** [u32] subtraction, checked *)
Definition sub_u32 (a b : Z) : outcome Z :=
  if b <=? a then Ok (a - b) else Panic "attempt to subtract with overflow".

Section reconsider.
Context `{TantivySegments} `{PgPage, PgXact, PgBuffers}.
(** [std::thread::available_parallelism()] *)
Context (available_parallelism : Z).
Implicit Types (segments : list SegmentMeta).

Definition segment_ids segments : gset SegmentId := list_to_set (sm_id <$> segments).

(** the policy, and whether the directory now keeps the merge lock *)
Definition reconsider_merge_policy (policy : AllowedMergePolicy)
    (segs previous_segs : list SegmentMeta) : M Rel (BoxedMergePolicy * bool) :=
  let new_ids := segment_ids segs in
  let previous_ids := segment_ids previous_segs in
  let segments_created := Z.of_nat (size (new_ids ∖ previous_ids)) in
  if decide (policy = MergeNone) then mret (NoMergePolicy, false)
  else if segments_created >? 1 then
    n ← lift (sub_u32 (Z.of_nat (size new_ids) mod 2 ^ 32) 1);
    _ ← set_num_segments n;
    mret (NoMergePolicy, false)
  else
    acquired ← acquire_for_merge;
    if acquired : bool then
      num_segments ← lock_num_segments;
      let target_segments := Z.max available_parallelism num_segments in
      mret (NPlusOne {| policy_n := target_segments; min_num_segments := MIN_NUM_SEGMENTS |}, true)
    else mret (NoMergePolicy, false).
End reconsider.

(** ** What a merge leaves *)

Section policy_lemmas.
Context `{TantivySegments} `{StdSort}.
Implicit Types (segments kept merged : list SegmentMeta).

Lemma sorted_impl {A} (R S : relation A) l :
  (∀ x y, R x y → S x y) → StronglySorted R l → StronglySorted S l.
Proof.
  intros Himpl. induction 1 as [|x l _ IH Hall]; [constructor|].
  constructor; [done|]. eapply Forall_impl; [exact Hall|]. auto.
Qed.

Lemma by_num_docs_sorted segments :
  StronglySorted (λ a b, num_docs b ≤ num_docs a) (sort_unstable_by by_num_docs_reverse segments).
Proof.
  eapply sorted_impl; [|apply sort_unstable_sorted].
  - intros a b. unfold by_num_docs_reverse. destruct (Z.compare_spec (num_docs a) (num_docs b));
      simpl; intros; [lia|done|lia].
  - intros a b. unfold by_num_docs_reverse. rewrite (Z.compare_antisym (num_docs b)).
    by destruct (num_docs b ?= num_docs a).
  - intros a b c. unfold by_num_docs_reverse.
    destruct (Z.compare_spec (num_docs a) (num_docs b)), (Z.compare_spec (num_docs b) (num_docs c)),
      (Z.compare_spec (num_docs a) (num_docs c)); simpl; intros; try done; lia.
Qed.

(** the popped ids are those past the first [n] *)
Lemma pop_while_spec n l :
  0 ≤ n → pop_while n (rev l) = rev (sm_id <$> zdrop n l).
Proof.
  intros Hn. induction l as [|s l IH] using rev_ind.
  - unfold zdrop. by rewrite drop_nil.
  - rewrite rev_unit. cbn [pop_while]. rewrite zlen_cons. unfold zlen at 1. rewrite length_rev.
    fold (zlen l). destruct (Z.gtb_spec (1 + zlen l) n).
    + rewrite IH, zdrop_app_le by lia. by rewrite fmap_app, rev_app_distr.
    + rewrite zdrop_ge; [done|]. rewrite zlen_app, zlen_cons, zlen_nil. lia.
Qed.
End policy_lemmas.

(** ** The lock page *)

Section lock_lemmas.
Context `{PgPage, PgXact, PgBuffers}.
Implicit Types (r : Rel) (md : MergeLockData).

(** the merge lock page holds [md] *)
Definition lock_at r md : Prop :=
  ∃ p, rel_pages r !! MERGE_LOCK = Some p ∧ page_ok p ∧ page_in_use p ∧ contents p = md ∧
    pod_valid md.

Lemma lock_page_run {A} r md (f : MergeLockData → MergeLockData) (k : PageMut → A) :
  rel_wf r → lock_at r md → pod_valid (f md) →
  ∃ r' pm, with_page_mut MERGE_LOCK (λ pm, pm ← contents_mut f pm; Ok (k pm, pm)) r = Ok (k pm, r') ∧
    contents (pm_page pm) = f md ∧ lock_at r' (f md) ∧ grows 0 [MERGE_LOCK] r r'.
Proof.
  intros Hwf (p & Hp & Hok & [Hu Hx] & Hmd & Hv) Hf.
  destruct (contents_mut_spec f {| pm_page := p; pm_dirty := false |}) as (pm & Hrun & Hok' & Hc & Hs & _);
    [done|simpl; by rewrite Hmd|]. simpl in Hc, Hs. rewrite Hmd in Hc.
  exists (written r MERGE_LOCK pm), pm. split_and!.
  - eapply with_page_mut_run; [done|]. by rewrite Hrun.
  - done.
  - exists (pm_page pm). rewrite written_lookup. split; [done|]. split; [done|].
    split; [split; [by apply page_ok_upper|by rewrite Hs]|done].
  - by eapply written_grows.
Qed.

Lemma lock_visible_run r md :
  rel_wf r → lock_at r md → IsTransactionState = true → ConditionalLockBuffer MERGE_LOCK = true →
  is_u32 GetCurrentTransactionId →
  let v := TransactionIdIsCurrentTransactionId (last_merge md)
           || negb (XidInMVCCSnapshot (last_merge md) GetActiveSnapshot) in
  ∃ r', acquire_for_merge r = Ok (v, r') ∧ rel_wf r' ∧
    lock_at r' (if v then set_last_merge GetCurrentTransactionId md else md).
Proof.
  intros Hwf Hl Hts Hcl Hcur v. pose proof Hl as (p & Hp & _ & _ & Hmd & Hv).
  set (f := λ m, if v then set_last_merge GetCurrentTransactionId m else m).
  assert (pod_valid (f md)) as Hf.
  { unfold f. destruct v; [|done]. destruct Hv as [_ Hv]. by split. }
  set (r0 := upd_cache (λ _, ∅) r).
  destruct (lock_page_run r0 md f (λ _, v)) as (r' & pm & Hrun & _ & Hl' & Hg); [done..|].
  exists r'. split; [|split; [apply Hg|done]].
  unfold acquire_for_merge. rewrite Hts. cbn [negb].
  rewrite (bind_ok BufferManager_new _ r r0 tt) by done.
  unfold get_buffer_conditional. rewrite bind_assoc.
  rewrite (bind_ok (get_page MERGE_LOCK) _ r0 r0 p) by (unfold get_page; simpl; by rewrite Hp).
  rewrite Hcl, (bind_ok _ _ _ _ _ (ret_run _ _)). rewrite <- Hrun.
  unfold with_page_mut. assert (rel_pages r0 !! MERGE_LOCK = Some p) as -> by done.
  cbn zeta. cbn [pm_page]. rewrite Hmd. done.
Qed.
End lock_lemmas.

(** The merge policy proposes nothing below its thresholds, and otherwise exactly
    one merge, of all but n segments, and no segment it keeps has fewer live documents
    than one it merges. *)
Theorem merge_candidates_smallest `{TantivySegments} `{StdSort} (p : NPlusOneMergePolicy)
    (segments : list SegmentMeta) :
  0 ≤ policy_n p →
  (compute_merge_candidates p segments = [] ∧
   (zlen segments < policy_n p + min_num_segments p ∨ zlen segments < policy_n p + 2)) ∨
  (∃ kept merged,
     compute_merge_candidates p segments = [sm_id <$> merged] ∧
     kept ++ merged ≡ₚ segments ∧ zlen kept = policy_n p ∧ 2 ≤ zlen merged ∧
     policy_n p + min_num_segments p ≤ zlen segments ∧
     (∀ k m, k ∈ kept → m ∈ merged → num_docs m ≤ num_docs k)).
Proof.
  intros Hn. unfold compute_merge_candidates.
  set (sorted := sort_unstable_by by_num_docs_reverse segments).
  assert (sorted ≡ₚ segments) as Hperm by apply sort_unstable_perm.
  assert (zlen sorted = zlen segments) as Hlen by (unfold zlen; by rewrite Hperm).
  destruct (Z.ltb_spec (zlen segments) (policy_n p + min_num_segments p)); [left; auto|].
  rewrite pop_while_spec by done.
  assert (zlen (rev (sm_id <$> zdrop (policy_n p) sorted)) = zlen (zdrop (policy_n p) sorted)) as ->
    by (unfold zlen; by rewrite length_rev, length_fmap).
  destruct (Z.ltb_spec (zlen (zdrop (policy_n p) sorted)) 2) as [Hsmall|Hbig].
  - left. split; [done|]. right. destruct (Z.le_gt_cases (policy_n p) (zlen segments)).
    + rewrite zlen_zdrop in Hsmall by lia. lia.
    + lia.
  - right. exists (ztake (policy_n p) sorted), (rev (zdrop (policy_n p) sorted)).
    assert (policy_n p ≤ zlen sorted) as Hle.
    { destruct (Z.le_gt_cases (policy_n p) (zlen sorted)); [done|].
      rewrite zdrop_ge in Hbig by lia. by change (zlen (@nil SegmentMeta)) with 0 in Hbig. }
    split_and!.
    + f_equal. symmetry. apply map_rev.
    + by rewrite <- Permutation_rev, ztake_zdrop.
    + apply zlen_ztake. lia.
    + unfold zlen in *. by rewrite length_rev.
    + done.
    + intros k m Hk Hm. rewrite <- Permutation_rev in Hm.
      pose proof (by_num_docs_sorted segments) as Hs. fold sorted in Hs.
      rewrite <- (ztake_zdrop (policy_n p) sorted) in Hs.
      apply StronglySorted_app in Hs as (Hs & _). by apply Hs.
Qed.

(** C33: After a merge releases the merge lock, another backend acquires it exactly when
    the merging transaction is its own or no longer in progress for its snapshot. *)
Theorem merge_lock_waits_for_visibility `{PgPage, PgBuffers}
    (merger other : PgXact) (r : Rel) (md : MergeLockData) :
  rel_wf r → lock_at r md →
  @IsTransactionState merger = true → @IsTransactionState other = true →
  ConditionalLockBuffer MERGE_LOCK = true →
  is_u32 (@GetCurrentTransactionId merger) → is_u32 (@GetCurrentTransactionId other) →
  ∃ r', @merge_lock_drop _ merger r = Ok (tt, r') ∧
    let seen := @TransactionIdIsCurrentTransactionId other (@GetCurrentTransactionId merger)
                || negb (@XidInMVCCSnapshot other (@GetCurrentTransactionId merger)
                           (@GetActiveSnapshot other)) in
    ∃ r'', @acquire_for_merge _ other _ r' = Ok (seen, r'').
Proof.
  intros Hwf Hl Hm Ho Hcl Hcm Hco.
  destruct (lock_page_run r md (set_last_merge (@GetCurrentTransactionId merger)) (λ _, tt))
    as (r' & pm & Hrun & _ & Hl' & Hg); [done|done|by destruct Hl as (?&?&?&?&?&? & ?)|].
  exists r'. split; [by unfold merge_lock_drop; rewrite Hm|].
  destruct (@lock_visible_run _ other _ r' _ (grows_wf _ _ _ _ Hg) Hl' Ho Hcl Hco)
    as (r'' & Hrun' & _). by exists r''.
Qed.
