(* ===== verification/Directory.v ===== *)
(** * Directory: the index directory over block storage

    Models [pg_search/src/index/directory/utils.rs] ([list_managed_files],
    [save_schema], [save_settings], [save_new_metas], [load_metas]), the methods of
    [MVCCDirectory] in [directory/mvcc.rs] and [create_metadata] of
    [postgres/build.rs].  Hash maps are [gmap]s whose iteration order is the class
    [HashOrder]; [serde_json] is the class [SerdeJson]; two spellings of one path are
    two keys. *)

From S2P Require Import Prelude Page Block Buffer BlockList LinkedBytes SegmentIO LinkedItems MergePolicy.

Open Scope Z_scope.

(** ** External code *)

(** the order in which hash maps and sets are iterated *)
Class HashOrder `{TantivyIndex} := {
  drain : gmap string FileEntry → list (string * FileEntry);
  set_iter : gset SegmentId → list SegmentId;
  drain_perm m : drain m ≡ₚ map_to_list m;
  set_iter_perm s : set_iter s ≡ₚ elements s
}.

(** [serde_json::to_vec] and [from_slice] for one type; [None] is an error *)
Class SerdeJson (T : Type) := {
  to_vec : T → option (list Z);
  from_slice : list Z → option T;
  from_to_vec x bytes : to_vec x = Some bytes → from_slice bytes = Some x;
  to_vec_nonempty x bytes : to_vec x = Some bytes → bytes ≠ []
}.

(** [tantivy::IndexMeta] *)
Record IndexMeta `{TantivySegments} {Schema IndexSettings : Type} := {
  im_segments : list SegmentMeta;
  im_schema : Schema;
  im_index_settings : IndexSettings;
  im_opstamp : Z
}.
Arguments IndexMeta {_ _} _ _.

Inductive MvccSatisfies := MvccSnapshot | MvccAny.
#[global] Instance MvccSatisfies_eq_dec : EqDecision MvccSatisfies.
Proof. solve_decision. Defined.

(** [unwrap_or_else(|e| panic!(..))] *)
Definition or_panic {S A} (m : M S A) : M S A := λ s,
  match m s with Err e => Panic e | o => o end.

(** the new files of each segment, by component *)
Notation FileMap := (gmap SegmentId (gmap SegmentComponent (FileEntry * string))).

Section directory.
Context `{TI : TantivyIndex} `{!TantivySegments} `{!HashOrder} `{BitPacking, PgPage, PgXact, PgBuffers}.
Context {Schema IndexSettings : Type} `{SerdeJson Schema} `{SerdeJson IndexSettings}.
Context `{PgItem SegmentMetaEntry}.
Notation Meta := (IndexMeta Schema IndexSettings).
Implicit Types (e : SegmentMetaEntry) (id : SegmentId).

(** ** Walking the entries *)

(** the two nested loops of [list_managed_files] and [load_metas]: [f] is the body
    run on each entry *)
Fixpoint walk_page {A} (f : A → SegmentMetaEntry → A) (p : Page) (offs : list Z) (acc : A) : outcome A :=
  match offs with
  | [] => Ok acc
  | offsetno :: offs =>
      o ← read_item p offsetno;
      walk_page f p offs (match o with Some (entry, _) => f acc entry | None => acc end)
  end.
Fixpoint walk_loop {A} (fuel : nat) (f : A → SegmentMetaEntry → A) (blockno : Z) (acc : A) : M Rel A :=
  if blockno =? InvalidBlockNumber then mret acc else
  match fuel with
  | O => no_fuel
  | S fuel =>
      page ← get_page blockno;
      acc ← lift (walk_page f page (seqZ FirstOffsetNumber (max_offset_number page)) acc);
      walk_loop fuel f (page_next_blockno page) acc
  end.
Definition walk_entries {A} (f : A → SegmentMetaEntry → A) (acc : A) : M Rel A :=
  _ ← BufferManager_new;
  blockno ← items_start_blockno SEGMENT_METAS_START;
  n ← gets rel_nblocks;
  walk_loop (Z.to_nat n) f blockno acc.

Definition list_managed_files : M Rel (gset string) :=
  walk_entries (λ files entry, files ∪ list_to_set (get_component_paths entry)) ∅.

(** ** Schema and settings *)

Definition save_json {T} `{SerdeJson T} (start : Z) (value : T) : M Rel unit :=
  list ← open start;
  empty ← list_is_empty list;
  if empty : bool then
    bytes ← match to_vec value with Some b => mret b | None => fail "serde_json" end;
    _ ← write list bytes; mret tt
  else mret tt.
Definition save_schema (tantivy_schema : Schema) : M Rel unit := save_json SCHEMA_START tantivy_schema.
Definition save_settings (tantivy_settings : IndexSettings) : M Rel unit :=
  save_json SETTINGS_START tantivy_settings.

(** ** [save_new_metas] *)

(** reorganize the directory_entries by segment id *)
Fixpoint organize (entries : list (string * FileEntry)) (new_files : FileMap) : outcome FileMap :=
  match entries with
  | [] => Ok new_files
  | (path, file_entry) :: entries =>
      match path_segment_id path, path_component_type path with
      | Some id, Some c =>
          organize entries (<[id := <[c := (file_entry, path)]> (default ∅ (new_files !! id))]> new_files)
      | _, _ => Panic "malformed PathBuf"
      end
  end.

Definition get_segment (segments : list SegmentMeta) (id : SegmentId) : outcome SegmentMeta :=
  (* a later segment of the same id replaces an earlier one in the map *)
  match last (filter (λ s, sm_id s = id) segments) with
  | Some s => Ok s
  | None => Panic "called `Option::unwrap()` on a `None` value"
  end.

Definition created_entry (id : SegmentId) (s : SegmentMeta)
    (files : gmap SegmentComponent (FileEntry * string)) : SegmentMetaEntry :=
  {| segment_id := id;
     max_doc := sm_max_doc s;
     entry_xmin := GetCurrentTransactionId;
     entry_xmax := InvalidTransactionId;
     postings := fst <$> files !! Postings;
     positions := fst <$> files !! Positions;
     fast_fields := fst <$> files !! FastFields;
     field_norms := fst <$> files !! FieldNorms;
     terms := fst <$> files !! Terms;
     store := fst <$> files !! Store;
     temp_store := fst <$> files !! TempStore;
     delete := (λ f, {| file_entry := f.1; num_deleted_docs := sm_num_deleted_docs s |})
                 <$> files !! Delete |}.

(** process the new segments: those without new files are skipped *)
Fixpoint create_entries (segments : list SegmentMeta) (ids : list SegmentId) (new_files : FileMap)
    : outcome (list SegmentMetaEntry * FileMap) :=
  match ids with
  | [] => Ok ([], new_files)
  | id :: ids =>
      s ← get_segment segments id;
      match new_files !! id with
      | None => create_entries segments ids new_files
      | Some files =>
          r ← create_entries segments ids (base.delete id new_files);
          Ok (created_entry id s files :: r.1, r.2)
      end
  end.

Definition lookup_segment (id : SegmentId) : M Rel (SegmentMetaEntry * Z * Z) :=
  or_panic (lookup_ex SEGMENT_METAS_START (λ e, bool_decide (segment_id e = id))).

(** process the modified segments: the entries to replace with their blocks, and the
    delete entries they had before *)
Fixpoint modify_entries (segments : list SegmentMeta) (ids : list SegmentId) (new_files : FileMap)
    : M Rel (list (SegmentMetaEntry * Z) * list DeleteEntry * FileMap) :=
  match ids with
  | [] => mret ([], [], new_files)
  | id :: ids =>
      match new_files !! id with
      | None => modify_entries segments ids new_files
      | Some files =>
          _ ← assert (bool_decide (size files = 1%nat) && bool_decide (is_Some (files !! Delete)))
                "new files should be exactly one Delete component";
          existing_segment ← lift (get_segment segments id);
          '(meta_entry, blockno, _) ← lookup_segment id;
          new_delete_entry ← expect (fst <$> files !! Delete) "missing new delete file";
          '(modified, replaced, new_files) ← modify_entries segments ids (base.delete id new_files);
          mret ((set_delete (Some {| file_entry := new_delete_entry;
                                     num_deleted_docs := sm_num_deleted_docs existing_segment |})
                   meta_entry, blockno) :: modified,
                option_list (delete meta_entry) ++ replaced, new_files)
      end
  end.

(** process the deleted segments *)
Fixpoint delete_entries (ids : list SegmentId) : M Rel (list (SegmentMetaEntry * Z)) :=
  match ids with
  | [] => mret []
  | id :: ids =>
      '(meta_entry, blockno, _) ← lookup_segment id;
      rest ← delete_entries ids;
      mret ((set_xmax GetCurrentTransactionId meta_entry, blockno) :: rest)
  end.

(** the files of an entry, in the order they are deleted *)
Definition entry_files e : list FileEntry :=
  option_list (postings e) ++ option_list (positions e) ++ option_list (fast_fields e) ++
  option_list (field_norms e) ++ option_list (terms e) ++ option_list (store e) ++
  option_list (temp_store e) ++ option_list (file_entry <$> delete e).

Definition delete_file (file_entry : FileEntry) : M Rel unit :=
  file ← open (staring_block file_entry); list_mark_deleted file.

(** [find_item] of the entry's segment and [replace_item] at its offset *)
Definition replace_entry (msg : string) e (pm : PageMut) : outcome (Z * bool * PageMut) :=
  o ← find_item pm (λ item, bool_decide (segment_id item = segment_id e));
  match o with
  | None => Panic msg
  | Some offno => r ← replace_item pm offno (into_item e); Ok (offno, r.1 : bool, r.2)
  end.

(** delete old entries and their corresponding files *)
Definition write_deleted (eb : SegmentMetaEntry * Z) : M Rel unit :=
  let '(entry, blockno) := eb in
  _ ← assert (entry_xmax entry =? GetCurrentTransactionId) "entry.xmax == GetCurrentTransactionId()";
  '(_, did_replace) ← with_page_mut blockno (replace_entry "DELETE:  could not find SegmentMetaEntry" entry);
  _ ← assert did_replace "did_replace";
  for_each (entry_files entry) delete_file.

(** replace the modified entries *)
Definition write_modified (eb : SegmentMetaEntry * Z) : M Rel unit :=
  let '(entry, blockno) := eb in
  did_replace ← with_page_mut blockno (λ pm,
    '(offno, did_replace, pm) ← replace_entry "MODIFY:  could not find SegmentMetaEntry" entry pm;
    Ok (did_replace : bool, if (did_replace : bool) then pm else delete_item pm offno));
  if did_replace : bool then mret tt
  else add_items SEGMENT_METAS_START [entry] (Some blockno).

(** the entries left in [new_files], as they were in [directory_entries] *)
Definition leftover (new_files : FileMap) : gmap string FileEntry :=
  list_to_map ((λ ep, (ep.2, ep.1)) <$>
    (map_to_list new_files ≫= λ idf, snd <$> map_to_list idf.2)).

Definition save_new_metas (new_meta prev_meta : Meta) (directory_entries : gmap string FileEntry)
    : M Rel (gmap string FileEntry) :=
  _ ← BufferManager_new;
  let segments := im_segments new_meta in
  let new_ids := segment_ids segments in
  let previous_ids := segment_ids (im_segments prev_meta) in
  new_files ← lift (organize (drain directory_entries) ∅);
  let created_ids := set_iter (new_ids ∖ previous_ids) in
  let modified_ids := filter (λ id, is_Some (new_files !! id)) (set_iter (previous_ids ∩ new_ids)) in
  let deleted_ids := set_iter (previous_ids ∖ new_ids) in
  '(created_entries, new_files) ← lift (create_entries segments created_ids new_files);
  '(modified_entries, replaced_delete_entries, new_files) ← modify_entries segments modified_ids new_files;
  deleted_entries ← delete_entries deleted_ids;
  _ ← for_each deleted_entries write_deleted;
  _ ← for_each modified_entries write_modified;
  _ ← for_each replaced_delete_entries (λ d, delete_file (file_entry d));
  _ ← add_items SEGMENT_METAS_START created_entries None;
  _ ← match deleted_entries with
      | [] => mret tt
      | _ => garbage_collect (T:=SegmentMetaEntry) SEGMENT_METAS_START
      end;
  mret (leftover new_files).

(** ** [load_metas] *)

(** [opstamp.max(Some(x))]; [None] is below every [Some] *)
Definition opt_max (a : option Z) (x : Z) : option Z :=
  match a with None => Some x | Some y => Some (Z.max y x) end.

Definition inner_segment_meta e : InnerSegmentMeta :=
  {| ism_max_doc := max_doc e;
     ism_segment_id := segment_id e;
     ism_deletes := (λ d, {| dm_num_deleted_docs := num_deleted_docs d; dm_opstamp := 0 |}) <$> delete e;
     ism_include_temp_doc_store := false |}.

Definition mvcc_alive (snapshot : Snapshot) (solve_mvcc : MvccSatisfies) e : bool :=
  (bool_decide (solve_mvcc = MvccAny) && negb (recyclable e snapshot))
  || (bool_decide (solve_mvcc = MvccSnapshot) && visible e snapshot).

Definition read_json {T} `{SerdeJson T} (start : Z) : M Rel T :=
  list ← open start;
  bytes ← read_all list;
  match from_slice bytes with Some v => mret v | None => fail "serde_json" end.

Definition load_metas (snapshot : Snapshot) (solve_mvcc : MvccSatisfies) : M Rel Meta :=
  '(alive_segments, opstamp) ← walk_entries (λ acc entry,
      if mvcc_alive snapshot solve_mvcc entry
      then (acc.1 ++ [track (inner_segment_meta entry)], opt_max acc.2 (opstamp entry))
      else acc) ([], None);
  deserialized_schema ← read_json SCHEMA_START;
  deserialized_settings ← read_json SETTINGS_START;
  mret {| im_segments := alive_segments; im_schema := deserialized_schema;
          im_index_settings := deserialized_settings; im_opstamp := default 0 opstamp |}.

(** ** [MVCCDirectory] *)

Definition directory_lookup (path : string) : M Rel FileEntry :=
  _ ← BufferManager_new;
  segment_id' ← expect (path_segment_id path) "path should have a segment_id";
  entry ← list_lookup SEGMENT_METAS_START (λ e, bool_decide (segment_id e = segment_id'));
  component_type ← expect (path_component_type path) "path should have a component_type";
  match get_file_entry entry component_type with
  | Some file_entry => mret file_entry
  | None => fail "directory lookup failed"
  end.

(** [get_file_handle]: the reader of a path is made once and kept *)
Definition get_file_handle (path : string) (readers : gmap string SegmentComponentReader)
    : M Rel (SegmentComponentReader * gmap string SegmentComponentReader) :=
  match readers !! path with
  | Some reader => mret (reader, readers)
  | None =>
      file_entry ← directory_lookup path;
      reader ← scr_new file_entry;
      mret (reader, <[path := reader]> readers)
  end.

Definition save_metas (meta previous_meta : Meta) (payload : gmap string FileEntry)
    : M Rel (gmap string FileEntry) :=
  _ ← save_schema (im_schema meta);
  _ ← save_settings (im_index_settings meta);
  match im_segments meta with
  | [] => mret payload
  | _ => save_new_metas meta previous_meta payload
  end.

(** ** [create_metadata]: the pages of a new index *)

Definition create_metadata : M Rel unit :=
  _ ← BufferManager_new;
  merge_lock ← new_buffer;
  _ ← assert (merge_lock =? MERGE_LOCK) "assertion failed: merge_lock.number() == MERGE_LOCK";
  _ ← update_buffer merge_lock (λ pm,
        contents_mut (λ _, {| last_merge := InvalidTransactionId; num_segments := 0 |})
          (init_page pm));
  cleanup_lock ← new_buffer;
  _ ← assert (cleanup_lock =? CLEANUP_LOCK) "assertion failed: cleanup_lock.number() == CLEANUP_LOCK";
  _ ← update_buffer cleanup_lock (λ pm, Ok (init_page pm));
  schema ← create;
  settings ← create;
  segment_metas ← items_create;
  _ ← assert (header_blockno schema =? SCHEMA_START) "schema.header_blockno == SCHEMA_START";
  _ ← assert (header_blockno settings =? SETTINGS_START) "settings.header_blockno == SETTINGS_START";
  assert (segment_metas =? SEGMENT_METAS_START) "segment_metas.header_blockno == SEGMENT_METAS_START".
End directory.

(** ** Reading the directory *)

Section read_lemmas.
Context `{TI : TantivyIndex} `{!TantivySegments} `{BitPacking, PgPage, PgXact, PgBuffers}.
Context `{PgItem SegmentMetaEntry}.
Implicit Types (r : Rel) (e : SegmentMetaEntry) (es : list SegmentMetaEntry).

Lemma items_at_same r r' header blks (its : list (list SegmentMetaEntry)) :
  rel_pages r' = rel_pages r → rel_wf r' →
  items_at r header blks its → items_at r' header blks its.
Proof.
  intros Hp Hwf [Hc Hnd (md & (hp & Hhp & Hh) & Hs) _]. split; [|done| |done].
  - eapply ichain_frame; [|done]. intros b _. by rewrite Hp.
  - exists md. split; [|done]. exists hp. by rewrite Hp.
Qed.

Lemma new_cache_wf r : rel_wf r → rel_wf (upd_cache (λ _, ∅) r).
Proof. done. Qed.

Lemma walk_page_spec {A} (f : A → SegmentMetaEntry → A) p l1 es acc :
  pd_linp p = l1 ++ as_items es →
  walk_page f p (seqZ (zlen l1 + 1) (zlen es)) acc = Ok (foldl f acc es).
Proof.
  revert l1 acc. induction es as [|e es IH]; intros l1 acc Hl; [done|].
  rewrite zlen_cons. pose proof (zlen_nonneg es). rewrite seqZ_cons by lia.
  replace (Z.pred (1 + zlen es)) with (zlen es) by lia.
  replace (Z.succ (zlen l1 + 1)) with (zlen l1 + 1 + 1) by lia.
  cbn [walk_page]. rewrite (read_item_at p l1 (as_items es) e) by done. cbn [mbind outcome_bind].
  specialize (IH (l1 ++ [normal_item (into_item e)]) (f acc e)).
  rewrite zlen_app in IH. change (zlen [normal_item (into_item e)]) with 1 in IH.
  rewrite IH; [done|]. by rewrite Hl, <- app_assoc.
Qed.

Lemma walk_loop_spec {A} (f : A → SegmentMetaEntry → A) fuel r blks its acc :
  rel_wf r → ichain r blks its → (length blks ≤ fuel)%nat →
  walk_loop fuel f (next_of blks) acc r = Ok (foldl f acc (concat its), r).
Proof.
  intros Hwf. revert blks its acc. induction fuel as [|fuel IH]; intros [|b bs] [|es its] acc Hc Hlen;
    try done; simpl in Hlen; try lia.
  destruct (ichain_dom _ _ _ b Hwf Hc ltac:(left)) as [_ Hb].
  destruct Hc as [(p & Hp & [Hu Hl] & Hnext) Hc]. cbn [walk_loop next_of head default].
  rewrite (proj2 (Z.eqb_neq b _)) by done.
  rewrite (bind_ok _ _ _ _ _ (get_page_run _ _ _ Hp)).
  rewrite (bind_ok (lift _) _ r r (foldl f acc es)).
  2: { unfold lift, FirstOffsetNumber, max_offset_number. rewrite Hl, zlen_as_items.
       pose proof (walk_page_spec f p [] es acc Hl) as Hr.
       change (zlen (@nil ItemId)) with 0 in Hr. rewrite Z.add_0_l in Hr. by rewrite Hr. }
  rewrite Hnext. cbn [concat]. rewrite foldl_app. apply IH; [done|lia].
Qed.

(** a walk folds the entries, in the order of the list *)
Lemma walk_entries_spec {A} (f : A → SegmentMetaEntry → A) acc r blks its :
  items_at r SEGMENT_METAS_START blks its →
  walk_entries f acc r = Ok (foldl f acc (concat its), upd_cache (λ _, ∅) r).
Proof.
  intros Hi. apply (items_at_same _ (upd_cache (λ _, ∅) r)) in Hi; [|done|apply Hi].
  unfold walk_entries. rewrite (bind_ok BufferManager_new _ r (upd_cache (λ _, ∅) r) tt) by done.
  set (r0 := upd_cache (λ _, ∅) r) in *.
  destruct (items_start_run _ _ _ _ Hi) as (b & bs & -> & Hrun).
  destruct Hi as [Hc Hnd _ Hwf]. apply NoDup_cons in Hnd as [_ Hnd].
  rewrite (bind_ok _ _ _ _ _ Hrun).
  rewrite (bind_ok (gets _) _ r0 r0 (rel_nblocks r0)) by done.
  apply (walk_loop_spec _ _ r0 (b :: bs) its _ Hwf Hc). by eapply ichain_bound.
Qed.

Lemma lookup_segment_spec r blks its id :
  items_at r SEGMENT_METAS_START blks its →
  ∀ e, first_match (λ e, bool_decide (segment_id e = id)) (concat its) = Some e →
  ∃ b off p, lookup_ex SEGMENT_METAS_START (λ e, bool_decide (segment_id e = id)) r = Ok ((e, b, off), r) ∧
    b ∈ blks ∧ rel_pages r !! b = Some p ∧ read_item p off = Ok (Some (e, zlen (into_item e))).
Proof.
  intros Hi e He. destruct (items_start_run _ _ _ _ Hi) as (b & bs & -> & Hrun).
  destruct Hi as [Hc Hnd _ Hwf]. apply NoDup_cons in Hnd as [_ Hnd].
  unfold lookup_ex. rewrite (bind_ok _ _ _ _ _ Hrun).
  rewrite (bind_ok (gets _) _ r r (rel_nblocks r)) by done.
  pose proof (lookup_loop_spec (Z.to_nat (rel_nblocks r)) r (b :: bs) its
    (λ e, bool_decide (segment_id e = id)) Hwf Hc) as Hl.
  rewrite He in Hl. apply Hl. by eapply ichain_bound.
Qed.

(** segment ids are unique on the list, so the first entry of an id is the entry *)
Lemma first_match_id es e :
  NoDup (segment_id <$> es) → e ∈ es →
  first_match (λ e', bool_decide (segment_id e' = segment_id e)) es = Some e.
Proof.
  induction es as [|e' es IH]; intros Hnd He; [by apply not_elem_of_nil in He|].
  cbn [fmap list_fmap] in Hnd. apply NoDup_cons in Hnd as [Hn Hnd]. cbn [first_match].
  apply elem_of_cons in He as [<-|He]; [by rewrite bool_decide_true|].
  rewrite bool_decide_false; [by apply IH|]. intros Heq. apply Hn. rewrite Heq.
  by apply list_elem_of_fmap_2.
Qed.

Lemma directory_lookup_spec r blks its e c fe path :
  items_at r SEGMENT_METAS_START blks its → NoDup (segment_id <$> concat its) →
  e ∈ concat its → path_segment_id path = Some (segment_id e) → path_component_type path = Some c →
  get_file_entry e c = Some fe →
  directory_lookup path r = Ok (fe, upd_cache (λ _, ∅) r).
Proof.
  intros Hi Hnd He Hid Hc Hfe. apply (items_at_same _ (upd_cache (λ _, ∅) r)) in Hi; [|done|apply Hi].
  unfold directory_lookup. rewrite (bind_ok BufferManager_new _ r (upd_cache (λ _, ∅) r) tt) by done.
  set (r0 := upd_cache (λ _, ∅) r) in *. rewrite Hid. cbn [expect].
  rewrite (bind_ok _ _ _ _ _ (ret_run _ _)).
  destruct (lookup_segment_spec _ _ _ (segment_id e) Hi e) as (b & off & p & Hrun & _);
    [by apply first_match_id|].
  rewrite (bind_ok (list_lookup _ _) _ r0 r0 e).
  2: { unfold list_lookup. by rewrite (bind_ok _ _ _ _ _ Hrun). }
  rewrite Hc. cbn [expect]. rewrite (bind_ok _ _ _ _ _ (ret_run _ _)). by rewrite Hfe.
Qed.

(** a serialized value on the list at [start] *)
Definition json_at {T} `{SerdeJson T} r (start : Z) (value : T) : Prop :=
  ∃ md blks bytes, pages_at r start md blks bytes ∧ to_vec value = Some bytes.

Lemma pages_at_same r r' header md blks content :
  rel_pages r' = rel_pages r → pages_at r header md blks content → pages_at r' header md blks content.
Proof.
  intros Hp [(hp & Hhp & Hh) (datas & Hc & Hd) Hnd Hz Hs Hl Hn]. split; try done.
  - exists hp. by rewrite Hp.
  - exists datas. split; [|done]. eapply chain_frame; [|done]. intros b _. by rewrite Hp.
Qed.

Lemma open_run r header md blks content :
  pages_at r header md blks content →
  open header r = Ok ({| header_blockno := header; metadata := md;
                         blocklist_builder := Builder_default; blocklist_reader := None |},
                      upd_cache (λ _, ∅) r).
Proof.
  intros [(hp & Hhp & _ & _ & Hmd & _) _ _ _ _ _ _]. unfold open.
  rewrite (bind_ok BufferManager_new _ r (upd_cache (λ _, ∅) r) tt) by done.
  rewrite (bind_ok (get_page header) _ _ (upd_cache (λ _, ∅) r) hp);
    [by rewrite Hmd|by apply get_page_run].
Qed.

Lemma json_at_same {T} `{SerdeJson T} r r' start (value : T) :
  rel_pages r' = rel_pages r → json_at r start value → json_at r' start value.
Proof.
  intros Hp (md & blks & bytes & Hpa & Hv). exists md, blks, bytes. split; [|done].
  by eapply pages_at_same.
Qed.

Lemma read_json_spec {T} `{SerdeJson T} r start (value : T) :
  rel_wf r → json_at r start value →
  read_json start r = Ok (value, upd_cache (λ _, ∅) r).
Proof.
  intros Hwf (md & blks & bytes & Hpa & Hv). unfold read_json.
  rewrite (bind_ok _ _ _ _ _ (open_run _ _ _ _ _ Hpa)).
  apply (pages_at_same _ (upd_cache (λ _, ∅) r)) in Hpa; [|done].
  set (l := {| header_blockno := start; metadata := md; blocklist_builder := Builder_default;
               blocklist_reader := None |}).
  rewrite (bind_ok _ _ _ _ _ (read_all_spec (upd_cache (λ _, ∅) r) l blks bytes Hwf Hpa)).
  by rewrite (from_to_vec _ _ Hv).
Qed.
End read_lemmas.

(** ** The pages of a new index *)

Section layout_lemmas.
Context `{TI : TantivyIndex} `{BitPacking, PgPage, PgXact, PgBuffers} `{PgItem SegmentMetaEntry}.
Implicit Types (r : Rel).

(** with nothing in the free space map a new page is added at the end *)
Lemma new_buffer_extend r :
  rel_fsm r = ∅ → rel_nblocks r < InvalidBlockNumber →
  ∃ r', new_buffer r = Ok (rel_nblocks r, r') ∧
    rel_pages r' = <[rel_nblocks r := zero_page]> (rel_pages r) ∧
    rel_nblocks r' = rel_nblocks r + 1 ∧ rel_fsm r' = ∅.
Proof.
  intros Hf Hn. unfold new_buffer. rewrite Hf, size_empty.
  unfold find_recyclable. unfold mbind at 1, M_bind at 1. unfold mbind at 1, M_bind at 1.
  unfold GetFreeIndexPage. rewrite Hf, fsm_pick_empty, Z.eqb_refl. cbn [mret M_ret].
  unfold extend_relation. simpl. zcmp. eexists. split; [done|]. rewrite Hf. split; [done|].
  split; [done|]. set_solver.
Qed.

(** what a sequence of updates of existing pages keeps *)
Record updates r r' : Prop := {
  up_wf : rel_wf r';
  up_nblocks : rel_nblocks r' = rel_nblocks r;
  up_fsm : rel_fsm r' = rel_fsm r
}.


Lemma with_page_mut_keeps {A} b (f : PageMut → outcome (A * PageMut)) r a r' :
  with_page_mut b f r = Ok (a, r') → rel_nblocks r' = rel_nblocks r ∧ rel_fsm r' = rel_fsm r.
Proof.
  unfold with_page_mut. destruct (rel_pages r !! b); [|done].
  destruct (f _) as [[x pm]| | |]; try done. by intros [= _ <-].
Qed.

(** [create] on a relation without free pages takes the next two blocks *)
Lemma create_next r :
  rel_wf r → in_use r 0 → rel_nblocks r + 1 < InvalidBlockNumber → rel_fsm r = ∅ →
  ∃ l r' start, create r = Ok (l, r') ∧ list_ok r' l [start] [] ∧
    grows 2 [] (upd_cache (λ _, ∅) r) r' ∧ header_blockno l = rel_nblocks r ∧
    rel_nblocks r' = rel_nblocks r + 2 ∧ rel_fsm r' = ∅.
Proof.
  intros Hwf Huse Hn Hf. destruct (create_spec r Hwf Huse Hn (or_intror Hf))
    as (l & r' & start & Hrun & Hok & Hg & _).
  exists l, r', start. split; [done|]. split; [done|]. split; [done|].
  set (r0 := upd_cache (λ _, ∅) r) in *.
  destruct (new_buffer_extend r0 Hf) as (r1 & Hrun1 & _ & Hnb1 & Hf1); [simpl; lia|].
  destruct (new_buffer_extend r1 Hf1) as (r2 & Hrun2 & _ & Hnb2 & Hf2); [simpl in *; lia|].
  unfold create in Hrun. rewrite (bind_ok BufferManager_new _ r r0 tt) in Hrun by done.
  rewrite (bind_ok _ _ _ _ _ Hrun1), (bind_ok _ _ _ _ _ Hrun2) in Hrun.
  apply bind_inv in Hrun as ([] & r3 & Hr3 & Hrun). apply with_page_mut_keeps in Hr3 as [Hn3 Hf3].
  apply bind_inv in Hrun as ([] & r4 & Hr4 & Hrun). apply with_page_mut_keeps in Hr4 as [Hn4 Hf4].
  apply bind_inv in Hrun as (md & r5 & Hr5 & Hrun). apply with_page_mut_keeps in Hr5 as [Hn5 Hf5].
  injection Hrun as <- <-. simpl in *. split; [done|]. split; [lia|congruence].
Qed.

Lemma init_contents_valid pm :
  pod_valid (contents (pm_page (init_page pm)) : LinkedListData).
Proof.
  unfold contents. rewrite init_page_area, contents_offset_0. cbn.
  pose proof bm25_max_free_space_range.
  assert (zslice 0 16 (replicate (Z.to_nat bm25_max_free_space) 0) = replicate 16 0) as ->.
  { unfold zslice, zdrop, ztake. change (Z.to_nat 0) with 0%nat. rewrite drop_0, take_replicate.
    f_equal. lia. }
  by vm_compute.
Qed.

(** a new entry list takes the next two blocks and is empty *)
Lemma items_create_next r :
  rel_wf r → in_use r 0 → rel_nblocks r + 1 < InvalidBlockNumber → rel_fsm r = ∅ →
  ∃ r' start, items_create r = Ok (rel_nblocks r, r') ∧
    items_at (T:=SegmentMetaEntry) r' (rel_nblocks r) [start] [[]] ∧
    (∀ b, in_use r b → rel_pages r' !! b = rel_pages r !! b) ∧
    rel_nblocks r' = rel_nblocks r + 2 ∧ rel_fsm r' = ∅.
Proof.
  intros Hwf Huse Hn Hf. set (r0 := upd_cache (λ _, ∅) r). set (h := rel_nblocks r).
  assert (0 ≤ h) as Hh0 by by destruct Hwf as [[? ?] _].
  assert (∀ b, in_use r b → 0 ≤ b < h) as Hlt.
  { intros b (p & Hp & _). destruct Hwf as (_ & Hdom & _). apply Hdom. by eexists. }
  destruct (new_buffer_extend r0 Hf) as (r1 & Hrun1 & Hp1 & Hnb1 & Hf1); [simpl; lia|].
  destruct (new_buffer_extend r1 Hf1) as (r2 & Hrun2 & Hp2 & Hnb2 & Hf2); [simpl in *; lia|].
  assert (rel_wf r2) as Hwf2.
  { destruct (new_buffer_spec r0 Hwf ltac:(simpl; lia)) as (? & ? & Hr & [Hw _] & _).
    rewrite Hrun1 in Hr. injection Hr as <- <-.
    destruct (new_buffer_spec r1 Hw ltac:(simpl in *; lia)) as (? & ? & Hr & [Hw' _] & _).
    rewrite Hrun2 in Hr. by injection Hr as <- <-. }
  fold h in Hrun1. change (rel_nblocks r0) with h in *.
  assert (is_Some (rel_pages r2 !! h)) as Hsh by (destruct Hwf2 as (_ & Hdom & _); apply Hdom; simpl in *; lia).
  assert (is_Some (rel_pages r2 !! (h + 1))) as Hss by (destruct Hwf2 as (_ & Hdom & _); apply Hdom; simpl in *; lia).
  destruct Hsh as [z Hz].
  set (hm := init_page {| pm_page := z; pm_dirty := false |}).
  set (r3 := written r2 h hm).
  assert (update_buffer h (λ pm, Ok (init_page pm)) r2 = Ok (tt, r3)) as Hrun3
    by by eapply update_buffer_run.
  assert (rel_wf r3) as Hwf3 by (apply written_wf; [by eexists|done]).
  destruct (init_buffer_run r3 (h + 1) Hwf3) as (r4 & sp & Hrun4 & Hsp & Hfs & Hg4 & Hs4).
  { unfold r3. by rewrite written_lookup_ne by lia. }
  assert (rel_pages r4 !! h = Some (pm_page hm)) as Hhp4
    by (rewrite Hs4 by lia; apply written_lookup).
  pose proof (init_page_fresh {| pm_page := z; pm_dirty := false |}) as (Hhok & Hhu & _).
  fold hm in Hhok, Hhu.
  pose proof (with_page_mut_keeps _ _ _ _ _ Hrun3) as [Hn3 Hf3].
  pose proof (with_page_mut_keeps _ _ _ _ _ Hrun4) as [Hn4 Hf4].
  set (f := λ md, {| start_blockno := h + 1; last_blockno := h + 1; npages := 0;
                     blocklist_start := blocklist_start md |}).
  assert (pod_valid (f (contents (pm_page hm)))) as Hpod.
  { destruct (init_contents_valid {| pm_page := z; pm_dirty := false |}) as (_ & _ & _ & Hb).
    split_and!; [..|done]; unfold f, is_u32, u32_max, InvalidBlockNumber in *; simpl; lia. }
  destruct (contents_update_run r4 h (pm_page hm) f (grows_wf _ _ _ _ Hg4) Hhp4 Hhok Hhu Hpod)
    as (pm & Hrun5 & Hok5 & Hu5 & Hc5 & Hg5).
  set (r5 := written r4 h pm) in *.
  exists r5, (h + 1). split; [|split; [|split; [|split]]].
  - unfold items_create. rewrite (bind_ok BufferManager_new _ r r0 tt) by done.
    rewrite (bind_ok _ _ _ _ _ Hrun1), (bind_ok _ _ _ _ _ Hrun2).
    replace (rel_nblocks r1) with (h + 1) by lia.
    rewrite (bind_ok _ _ _ _ _ Hrun3), (bind_ok _ _ _ _ _ Hrun4).
    erewrite bind_ok; [done|]. eapply update_buffer_run; [done|]. apply Hrun5.
  - split; [| | |apply Hg5].
    + split; [|done]. exists sp. unfold r5. rewrite written_lookup_ne by lia.
      destruct Hfs as (_ & Hu & _ & Hnx & Hl & _). by split_and!.
    + apply NoDup_cons. split; [|apply NoDup_singleton]. intros ?%list_elem_of_singleton. lia.
    + exists (contents (pm_page pm)). split.
      * exists (pm_page pm). unfold r5. rewrite written_lookup, Hc5. done.
      * rewrite Hc5. unfold f. simpl. split; [done|lia].
  - intros b Hb. pose proof (Hlt b Hb). unfold r5. rewrite written_lookup_ne by lia.
    rewrite Hs4 by lia. unfold r3. rewrite written_lookup_ne by lia.
    by rewrite Hp2, lookup_insert_ne, Hp1, lookup_insert_ne by lia.
  - simpl in *. lia.
  - simpl in *. congruence.
Qed.
End layout_lemmas.

(** ** The list of a serialized value *)

Section json_lemmas.
Context `{BitPacking, PgPage, PgXact, PgBuffers} {T : Type} `{SerdeJson T}.
Implicit Types (r : Rel) (l : LinkedBytesList).

Definition opened (header : Z) (md : LinkedListData) : LinkedBytesList :=
  {| header_blockno := header; metadata := md; blocklist_builder := Builder_default;
     blocklist_reader := None |}.

(** a list is empty exactly when its first page holds nothing *)
Lemma list_is_empty_spec r l blks content :
  rel_wf r → pages_at r (header_blockno l) (metadata l) blks content →
  list_is_empty l r = Ok (bool_decide (content = []), r).
Proof.
  intros Hwf [_ (datas & Hc & Hfill & <-) _ Hz Hs _ _].
  destruct blks as [|b bs], datas as [|d ds]; try done. injection Hs as Hs.
  apply Forall_cons in Hz as [_ Hz]. apply Forall_cons in Hz as [[_ Hb0] _].
  pose proof (chain_dom _ _ _ b Hwf Hc ltac:(left)) as Hb.
  destruct Hc as [(p & Hp & Hok & _ & Hu & _) _].
  unfold list_is_empty, get_start_blockno. rewrite <- Hs.
  rewrite (bind_ok (lift _) _ r r b).
  2: { unfold lift. rewrite valid_block_ok; [done|done|]. destruct Hwf as [? _]. lia. }
  unfold page_is_empty. rewrite (bind_ok _ _ _ _ _ (get_page_run _ _ _ Hp)).
  unfold mret, M_ret. do 2 f_equal. unfold is_empty. rewrite PageIsEmpty_spec.
  pose proof (zlen_used p Hok) as Hlen. rewrite Hu in Hlen. pose proof Hok as (_ & _ & Hl & _).
  pose proof bm25_max_free_space_range. cbn [concat].
  destruct (Z.leb_spec (pd_lower p) offset_of_pd_linp).
  - symmetry. apply bool_decide_eq_true. assert (zlen d = 0) as Hd0 by lia.
    destruct ds as [|d' ds]; [|destruct Hfill as [Hd _]; lia]. apply zlen_zero in Hd0 as ->. done.
  - symmetry. apply bool_decide_eq_false. intros Heq%app_eq_nil. destruct Heq as [-> _].
    change (zlen (@nil Z)) with 0 in Hlen. lia.
Qed.

Lemma save_json_spec r start md b (value : T) bytes :
  rel_wf r → in_use r 0 → packs_any ∨ rel_fsm r = ∅ → pages_at r start md [b] [] →
  to_vec value = Some bytes → rel_nblocks r + zlen bytes ≤ InvalidBlockNumber →
  ∃ r', save_json start value r = Ok (tt, r') ∧ rel_wf r' ∧ json_at r' start value ∧
    (∀ x, in_use r x → x ∉ [start; b] → rel_pages r' !! x = rel_pages r !! x).
Proof.
  intros Hwf Huse Hpk Hpa Hv Hn. set (r0 := upd_cache (λ _, ∅) r).
  set (l := opened start md). pose proof (pages_at_same r r0 _ _ _ _ eq_refl Hpa) as Hpa0.
  destruct (write_spec r0 l [b] [] bytes) as (l' & r' & blks' & Hrun & Hok & Hh & Hg & _).
  - split; [|by split; [intros|]]. split; [done|]. split; [done|]. split; [done|].
    split; [right; by exists [], b|].
    destruct Hpk as [|Hf]; [by left|right]. split; [done|]. by repeat constructor.
  - by eapply to_vec_nonempty.
  - done.
  - exists r'. split; [|split; [apply Hg|split]].
    + unfold save_json. rewrite (bind_ok _ _ _ _ _ (open_run _ _ _ _ _ Hpa)).
      fold r0. rewrite (bind_ok _ _ _ _ _ (list_is_empty_spec r0 l _ _ Hwf Hpa0)).
      rewrite bool_decide_true by done. rewrite Hv.
      rewrite (bind_ok _ _ _ _ _ (ret_run _ _)). by rewrite (bind_ok _ _ _ _ _ Hrun).
    + destruct Hok as [(_ & _ & Hpa' & _) _]. rewrite Hh in Hpa'. by exists (metadata l'), blks', bytes.
    + intros x Hx Hout. by apply Hg.
Qed.

(** a value that was saved stays *)
Lemma save_json_again r start (value value' : T) :
  rel_wf r → json_at r start value → save_json start value' r = Ok (tt, upd_cache (λ _, ∅) r).
Proof.
  intros Hwf (md & blks & bytes & Hpa & Hv). unfold save_json.
  rewrite (bind_ok _ _ _ _ _ (open_run _ _ _ _ _ Hpa)).
  apply (pages_at_same _ (upd_cache (λ _, ∅) r)) in Hpa; [|done].
  rewrite (bind_ok _ _ _ _ _
    (list_is_empty_spec (upd_cache (λ _, ∅) r) (opened start md) blks bytes Hwf Hpa)).
  apply to_vec_nonempty in Hv. by rewrite bool_decide_false.
Qed.
End json_lemmas.

(** the entries a directory of style [mode] shows *)
Definition shown `{TantivyIndex, PgXact} (snapshot : Snapshot) (mode : MvccSatisfies)
    (e : SegmentMetaEntry) : bool :=
  match mode with
  | MvccSnapshot => visible e snapshot
  | MvccAny => negb (recyclable e snapshot)
  end.
Definition max_opstamp `{TantivyIndex} (es : list SegmentMetaEntry) : Z :=
  match es with [] => 0 | e :: es => foldl Z.max (opstamp e) (opstamp <$> es) end.

Lemma load_fold `{TantivySegments, PgXact} snapshot mode (es : list SegmentMetaEntry) acc o :
  foldl (λ acc entry, if mvcc_alive snapshot mode entry
                      then (acc.1 ++ [track (inner_segment_meta entry)], opt_max acc.2 (opstamp entry))
                      else acc) (acc, o) es =
  let alive := filter (λ e, shown snapshot mode e = true) es in
  (acc ++ ((λ e, track (inner_segment_meta e)) <$> alive), foldl opt_max o (opstamp <$> alive)).
Proof.
  revert acc o. induction es as [|e es IH]; intros acc o; cbn zeta; [by rewrite app_nil_r|].
  cbn [foldl]. rewrite filter_cons.
  assert (mvcc_alive snapshot mode e = shown snapshot mode e) as ->.
  { unfold mvcc_alive, shown. destruct mode; simpl; [done|by rewrite orb_false_r]. }
  destruct (shown snapshot mode e); rewrite IH; cbn zeta.
  - rewrite decide_True by done. cbn [fmap list_fmap foldl fst snd]. by rewrite <- app_assoc.
  - by rewrite decide_False.
Qed.

Lemma opt_max_some x l : foldl opt_max (Some x) l = Some (foldl Z.max x l).
Proof. revert x. induction l as [|y l IH]; intros x; [done|]. apply IH. Qed.

(** C3: load_metas returns, in list order, exactly the segments the MVCC mode shows
    (visible ones for a snapshot, unrecyclable ones for Any), the largest opstamp of
    those, and the schema and settings that were saved, and it changes no page. *)
Theorem load_metas_mvcc `{TI : TantivyIndex} `{!TantivySegments} `{BitPacking, PgPage, PgXact, PgBuffers}
    `{SerdeJson Schema} `{SerdeJson IndexSettings} `{PgItem SegmentMetaEntry}
    (r : Rel) blks its (schema : Schema) (settings : IndexSettings) snapshot mode :
  items_at r SEGMENT_METAS_START blks its →
  json_at r SCHEMA_START schema → json_at r SETTINGS_START settings →
  let alive := filter (λ e, shown snapshot mode e = true) (concat its) in
  ∃ r', load_metas snapshot mode r =
      Ok ({| im_segments := (λ e, track (inner_segment_meta e)) <$> alive;
             im_schema := schema; im_index_settings := settings;
             im_opstamp := max_opstamp alive |}, r') ∧
    rel_pages r' = rel_pages r.
Proof.
  intros Hi Hsc Hse alive. pose proof Hi as [_ _ _ Hwf]. exists (upd_cache (λ _, ∅) r).
  split; [|done]. unfold load_metas.
  rewrite (bind_ok _ _ _ _ _ (walk_entries_spec _ ([], None) r blks its Hi)).
  rewrite load_fold. fold alive. cbn zeta. cbn [app].
  assert (json_at (upd_cache (λ _, ∅) r) SCHEMA_START schema) as Hsc'
    by exact (json_at_same r (upd_cache (λ _, ∅) r) _ _ eq_refl Hsc).
  assert (json_at (upd_cache (λ _, ∅) r) SETTINGS_START settings) as Hse'
    by exact (json_at_same r (upd_cache (λ _, ∅) r) _ _ eq_refl Hse).
  rewrite (bind_ok _ _ _ _ _ (read_json_spec (upd_cache (λ _, ∅) r) _ schema Hwf Hsc')).
  rewrite (bind_ok _ _ _ _ _ (read_json_spec (upd_cache (λ _, ∅) r) _ settings Hwf Hse')).
  unfold mret, M_ret. do 3 f_equal. unfold max_opstamp. destruct alive as [|e es]; [done|].
  cbn [fmap list_fmap foldl opt_max]. by rewrite opt_max_some.
Qed.

(** list_managed_files lists the paths of the components of every entry and nothing
    else, and directory_lookup of each listed path finds the file entry of that
    component. *)
Theorem managed_files_found `{TI : TantivyIndex} `{!TantivySegments} `{PgPage, PgXact, PgBuffers}
    `{PgItem SegmentMetaEntry} (r : Rel) blks its :
  items_at r SEGMENT_METAS_START blks its → NoDup (segment_id <$> concat its) →
  ∃ files r', list_managed_files r = Ok (files, r') ∧ rel_pages r' = rel_pages r ∧
    (∀ path, path ∈ files ↔ ∃ e, e ∈ concat its ∧ path ∈ get_component_paths e) ∧
    (∀ path, path ∈ files → ∃ e c fe r'', e ∈ concat its ∧ path_segment_id path = Some (segment_id e) ∧
       path_component_type path = Some c ∧ get_file_entry e c = Some fe ∧
       directory_lookup path r = Ok (fe, r'')).
Proof.
  intros Hi Hnd.
  set (f := λ (files : gset string) (e : SegmentMetaEntry), files ∪ list_to_set (get_component_paths e)).
  assert (∀ es acc path, path ∈ foldl f acc es ↔
            path ∈ acc ∨ ∃ e, e ∈ es ∧ path ∈ get_component_paths e) as Hfold.
  { induction es as [|e es IH]; intros acc path; simpl.
    - split; [by left|]. intros [|(e & He & _)]; [done|by apply not_elem_of_nil in He].
    - rewrite IH. unfold f. rewrite elem_of_union, elem_of_list_to_set.
      setoid_rewrite elem_of_cons. naive_solver. }
  exists (foldl f ∅ (concat its)), (upd_cache (λ _, ∅) r). split_and!.
  - by apply (walk_entries_spec f ∅ r blks its).
  - done.
  - intros path. rewrite Hfold. set_solver.
  - intros path Hpath. apply Hfold in Hpath as [|(e & He & Hpath)]; [set_solver|].
    apply elem_of_component_paths in Hpath as (c & [fe Hfe] & ->).
    destruct (listed_path_parse e c) as [Hid Hc].
    exists e, c, fe, (upd_cache (λ _, ∅) r). split_and!; try done.
    by eapply directory_lookup_spec.
Qed.

(** The schema is saved the first time and never overwritten: saving another one
    later leaves every page as it is, and reading gives the first. *)
Theorem schema_saved_once `{BitPacking, PgPage, PgXact, PgBuffers} `{SerdeJson Schema}
    (r : Rel) md b (schema schema' : Schema) bytes :
  rel_wf r → in_use r 0 → packs_any ∨ rel_fsm r = ∅ → pages_at r SCHEMA_START md [b] [] →
  to_vec schema = Some bytes → rel_nblocks r + zlen bytes ≤ InvalidBlockNumber →
  ∃ r1 r2 r3, save_schema schema r = Ok (tt, r1) ∧
    (∀ x, in_use r x → x ∉ [SCHEMA_START; b] → rel_pages r1 !! x = rel_pages r !! x) ∧
    save_schema schema' r1 = Ok (tt, r2) ∧ rel_pages r2 = rel_pages r1 ∧
    read_json SCHEMA_START r2 = Ok (schema, r3).
Proof.
  intros Hwf Huse Hpk Hpa Hv Hn.
  destruct (save_json_spec r SCHEMA_START md b schema bytes Hwf Huse Hpk Hpa Hv Hn)
    as (r1 & Hrun & Hwf1 & Hat & Hframe).
  exists r1, (upd_cache (λ _, ∅) r1), (upd_cache (λ _, ∅) (upd_cache (λ _, ∅) r1)).
  split_and!; try done.
  - by apply (save_json_again r1 SCHEMA_START schema schema').
  - apply read_json_spec; [done|].
    exact (json_at_same r1 (upd_cache (λ _, ∅) r1) _ _ eq_refl Hat).
Qed.

(** ** A new index *)

Section new_index.
Context `{TI : TantivyIndex} `{BitPacking, PgPage, PgXact, PgBuffers} `{PgItem SegmentMetaEntry}.
Implicit Types (r : Rel).

(** a page taken at the end of the relation and initialised with [f] *)
Lemma next_page_init r (f : PageMut → outcome PageMut) :
  rel_wf r → rel_fsm r = ∅ → rel_nblocks r < InvalidBlockNumber →
  (∀ pm, ∃ pm', f pm = Ok pm' ∧ page_ok (pm_page pm') ∧ page_in_use (pm_page pm')) →
  ∃ r1 r2 z pm', new_buffer r = Ok (rel_nblocks r, r1) ∧
    update_buffer (rel_nblocks r) f r1 = Ok (tt, r2) ∧
    f {| pm_page := z; pm_dirty := false |} = Ok pm' ∧
    rel_pages r2 !! rel_nblocks r = Some (pm_page pm') ∧
    page_ok (pm_page pm') ∧ page_in_use (pm_page pm') ∧
    (∀ b, b ≠ rel_nblocks r → rel_pages r2 !! b = rel_pages r !! b) ∧
    rel_wf r2 ∧ rel_nblocks r2 = rel_nblocks r + 1 ∧ rel_fsm r2 = ∅.
Proof.
  intros Hwf Hf Hn Hpage.
  destruct (new_buffer_extend r Hf Hn) as (r1 & Hrun & Hp & Hnb & Hf1).
  assert (rel_wf r1) as Hwf1.
  { destruct (new_buffer_spec r Hwf Hn) as (? & ? & Hr & [Hw _] & _).
    rewrite Hrun in Hr. by injection Hr as <- <-. }
  destruct (Hpage {| pm_page := zero_page; pm_dirty := false |}) as (pm' & Hfm & Hok & Hu).
  assert (rel_pages r1 !! rel_nblocks r = Some zero_page) as Hz by (rewrite Hp; apply lookup_insert_eq).
  exists r1, (written r1 (rel_nblocks r) pm'), zero_page, pm'. split_and!; try done.
  - by eapply update_buffer_run.
  - apply written_lookup.
  - intros b Hb. by rewrite written_lookup_ne, Hp, lookup_insert_ne.
  - apply written_wf; [by eexists|done].
Qed.

Lemma merge_lock_init pm :
  let md := {| last_merge := InvalidTransactionId; num_segments := 0 |} in
  ∃ pm', contents_mut (λ _, md) (init_page pm) = Ok pm' ∧ page_ok (pm_page pm') ∧
    page_in_use (pm_page pm') ∧ contents (pm_page pm') = md.
Proof.
  destruct (contents_mut_spec (λ _, {| last_merge := InvalidTransactionId; num_segments := 0 |})
    (init_page pm) (init_page_ok pm)) as (pm' & Hrun & Hok & Hc & Hs & _); [by vm_compute|].
  exists pm'. split; [done|]. split; [done|]. split; [|done].
  split; [by apply page_ok_upper|by rewrite Hs].
Qed.
Lemma cleanup_lock_init pm :
  ∃ pm', Ok (init_page pm) = Ok pm' ∧ page_ok (pm_page pm') ∧ page_in_use (pm_page pm').
Proof.
  eexists. split; [done|]. by destruct (init_page_fresh pm) as (? & ? & _).
Qed.

Lemma lock_at_frame r r' md :
  (in_use r MERGE_LOCK → rel_pages r' !! MERGE_LOCK = rel_pages r !! MERGE_LOCK) →
  lock_at r md → lock_at r' md.
Proof.
  intros Hs (p & Hp & Hok & Hu & Hv). exists p. rewrite Hs; [done|]. by exists p.
Qed.

Lemma pages_at_frame r r' header md blks content :
  (∀ b, in_use r b → rel_pages r' !! b = rel_pages r !! b) →
  pages_at r header md blks content → pages_at r' header md blks content.
Proof.
  intros Hf [(hp & Hhp & Hok & Hu & Hmd) (datas & Hc & Hd) Hnd Hz Hs Hl Hn]. split; try done.
  - exists hp. rewrite Hf; [done|]. by exists hp.
  - exists datas. split; [|done]. eapply chain_frame; [|done].
    intros b Hb. apply Hf. by eapply chain_in_use.
Qed.

Lemma grows_all n r r' b :
  grows n [] (upd_cache (λ _, ∅) r) r' → in_use r b → rel_pages r' !! b = rel_pages r !! b.
Proof. intros Hg Hb. apply (grows_frame _ _ _ _ Hg b Hb). apply not_elem_of_nil. Qed.
End new_index.

(** create_metadata on an empty relation lays the index out at the fixed block
    numbers the rest of the code assumes: the merge lock with no merge recorded, the
    cleanup lock, empty schema and settings files and an empty list of segments. *)
Theorem create_metadata_layout `{TI : TantivyIndex} `{BitPacking, PgPage, PgXact, PgBuffers}
    `{PgItem SegmentMetaEntry} (r : Rel) :
  rel_wf r → rel_nblocks r = 0 → rel_fsm r = ∅ →
  ∃ r' md1 b1 md2 b2 b3, create_metadata r = Ok (tt, r') ∧ rel_wf r' ∧ rel_nblocks r' = 8 ∧
    lock_at r' {| last_merge := InvalidTransactionId; num_segments := 0 |} ∧
    in_use r' CLEANUP_LOCK ∧
    pages_at r' SCHEMA_START md1 [b1] [] ∧ pages_at r' SETTINGS_START md2 [b2] [] ∧
    items_at (T:=SegmentMetaEntry) r' SEGMENT_METAS_START [b3] [[]].
Proof.
  intros Hwf Hn Hf. set (r0 := upd_cache (λ _, ∅) r).
  destruct (next_page_init r0
    (λ pm, contents_mut (λ _, {| last_merge := InvalidTransactionId; num_segments := 0 |}) (init_page pm)))
    as (a1 & a2 & z & pm & Ha1 & Ha2 & Hpm & Hp & Hok & Hu & _ & Hwfa & Hna & Hfa);
    [done|done|simpl; rewrite Hn; done| |].
  { intros pm. destruct (merge_lock_init pm) as (pm' & ? & ? & ? & _). by exists pm'. }
  change (rel_nblocks r0) with (rel_nblocks r) in *. rewrite Hn in *.
  assert (lock_at a2 {| last_merge := InvalidTransactionId; num_segments := 0 |}) as Hlock.
  { exists (pm_page pm). destruct (merge_lock_init {| pm_page := z; pm_dirty := false |})
      as (pm' & Hrun & _ & _ & Hc). rewrite Hrun in Hpm. injection Hpm as ->. by split_and!. }
  destruct (next_page_init a2 (λ pm, Ok (init_page pm)))
    as (c1 & c2 & z' & pm2 & Hc1 & Hc2 & _ & Hp2 & Hok2 & Hu2 & Hs2 & Hwfc & Hnc & Hfc);
    [done|done|by rewrite Hna|apply cleanup_lock_init|].
  rewrite Hna in *. change (0 + 1) with CLEANUP_LOCK in *. change 0 with MERGE_LOCK in *.
  assert (in_use c2 MERGE_LOCK) as Huse.
  { exists (pm_page pm). by rewrite Hs2. }
  assert (in_use c2 CLEANUP_LOCK) as Hclean by by exists (pm_page pm2).
  apply (lock_at_frame a2 c2) in Hlock; [|intros _; by apply Hs2].
  destruct (create_next c2 Hwfc Huse) as (l1 & d1 & s1 & Hd1 & Hok1 & Hg1 & Hh1 & Hn1 & Hf1);
    [by rewrite Hnc|done|].
  pose proof Hok1 as [(Hwf1 & Huse1 & Hpa1 & _) _].
  destruct (create_next d1 Hwf1 Huse1) as (l2 & d2 & s2 & Hd2 & Hok2' & Hg2 & Hh2 & Hn2 & Hf2);
    [by rewrite Hn1, Hnc|done|].
  pose proof Hok2' as [(Hwf2 & Huse2 & Hpa2 & _) _].
  destruct (items_create_next d2 Hwf2 Huse2) as (d3 & s3 & Hd3 & Hi & Hs3 & Hn3 & Hf3);
    [by rewrite Hn2, Hn1, Hnc|done|].
  pose proof (λ b, grows_all 2 c2 d1 b Hg1) as Hs1. pose proof (λ b, grows_all 2 d1 d2 b Hg2) as Hs2'.
  assert (∀ b, in_use c2 b → in_use d1 b) as Hk1
    by (intros b (p & Hpp & ?); exists p; rewrite Hs1; [done|by exists p]).
  assert (∀ b, in_use d1 b → in_use d2 b) as Hk2
    by (intros b (p & Hpp & ?); exists p; rewrite Hs2'; [done|by exists p]).
  assert (header_blockno l1 = SCHEMA_START) as Hh1' by (rewrite Hh1, Hnc; done).
  assert (header_blockno l2 = SETTINGS_START) as Hh2' by (rewrite Hh2, Hn1, Hnc; done).
  assert (rel_nblocks d2 = SEGMENT_METAS_START) as Hh3 by (rewrite Hn2, Hn1, Hnc; done).
  exists d3, (metadata l1), s1, (metadata l2), s2, s3. split_and!.
  - unfold create_metadata. rewrite (bind_ok BufferManager_new _ r r0 tt) by done.
    rewrite (bind_ok _ _ _ _ _ Ha1). rewrite (bind_ok (assert _ _) _ a1 a1 tt) by done.
    rewrite (bind_ok _ _ _ _ _ Ha2), (bind_ok _ _ _ _ _ Hc1).
    rewrite (bind_ok (assert _ _) _ c1 c1 tt) by done.
    rewrite (bind_ok _ _ _ _ _ Hc2), (bind_ok _ _ _ _ _ Hd1), (bind_ok _ _ _ _ _ Hd2).
    rewrite (bind_ok _ _ _ _ _ Hd3), Hh1', Hh2', Hh3. done.
  - apply Hi.
  - rewrite Hn3, Hh3. done.
  - eapply lock_at_frame; [|eapply lock_at_frame; [|eapply lock_at_frame; [|exact Hlock]]]; auto.
  - destruct (Hk2 _ (Hk1 _ Hclean)) as (p & Hpp & ?). exists p. rewrite Hs3; [done|by exists p].
  - rewrite <- Hh1'. eapply pages_at_frame; [exact Hs3|]. by eapply pages_at_frame; [exact Hs2'|].
  - rewrite <- Hh2'. by eapply pages_at_frame; [exact Hs3|].
  - by rewrite <- Hh3.
Qed.
