(* ===== verification/Bootstrap.v ===== *)
(** * Bootstrap: the SQL functions that make and inspect an index

    [bootstrap/create_bm25.rs]: the text of a CREATE INDEX statement ([format_create_bm25]), the
    fields of an index as its options give them ([index_fields]), and the pages of its list of
    segments with their entries ([storage_info], [page_info]).  The quoting of SPI and the JSON
    form of values are classes. *)

From S2P Require Import Prelude Page Block Buffer BlockList LinkedBytes SegmentIO LinkedItems PgUtils TokenizerConfig Query Schema Options Directory.

Open Scope Z_scope.

(** ** [format_create_bm25] *)

(** [spi::quote_identifier], [spi::quote_literal] and [serde_json::to_string] ([None] is an error) *)
Class SqlText := {
  quote_identifier : string → string;
  quote_literal : string → string;
  json_to_string : Json → option string
}.

Section format.
Context `{!SqlText}.

(** the keys of the field maps but the key field, quoted; serde's maps are in the order of their keys *)
Fixpoint field_names (key_field : string) (fields : list Json) : outcome (list string) :=
  match fields with
  | [] => Ok []
  | JObject map :: fields =>
      names ← field_names key_field fields;
      Ok ((quote_identifier <$> filter (λ key, key ≠ key_field) map.*1) ++ names)
  | other :: _ => Err "Expected a JSON object"
  end.
Definition join_with (sep : string) (l : list string) : string :=
  match l with [] => "" | x :: l => foldl (λ acc y, acc +:+ sep +:+ y)%string x l end.
Definition quoted_json (fields : Json) : outcome string :=
  match json_to_string fields with Some s => Ok (quote_literal s) | None => Err "serde_json" end.

Definition format_create_bm25 (index_name table_name key_field schema_name : string)
    (text_fields numeric_fields boolean_fields json_fields range_fields datetime_fields : Json) (predicates : string)
    : outcome string :=
  names ← field_names key_field [text_fields; numeric_fields; boolean_fields; json_fields; range_fields; datetime_fields];
  let column_names := key_field :: names in
  let column_names_csv := join_with ", " (filter (λ name, name ≠ key_field) column_names) in
  let predicate_where := if String.eqb predicates "" then "" else ("WHERE " +:+ predicates)%string in
  let schema_prefix := if String.eqb schema_name "" then "" else (quote_identifier schema_name +:+ ".")%string in
  text ← quoted_json text_fields;
  numeric ← quoted_json numeric_fields;
  boolean ← quoted_json boolean_fields;
  json ← quoted_json json_fields;
  range ← quoted_json range_fields;
  datetime ← quoted_json datetime_fields;
  let create := ("CREATE INDEX " +:+ quote_identifier index_name +:+ " ON " +:+ schema_prefix +:+ quote_identifier table_name
                 +:+ " USING bm25 ")%string in
  let options := ("key_field=" +:+ quote_literal key_field +:+ ", text_fields=" +:+ text +:+ ", numeric_fields=" +:+ numeric
                  +:+ ", boolean_fields=" +:+ boolean +:+ ", json_fields=" +:+ json +:+ ", range_fields=" +:+ range
                  +:+ ", datetime_fields=" +:+ datetime +:+ ") " +:+ predicate_where +:+ ";")%string in
  Ok (create +:+ "(" +:+ quote_identifier key_field +:+ ", " +:+ column_names_csv +:+ ") WITH (" +:+ options)%string.

(** Without a field besides the key the list of columns ends in a comma: the statement does not parse. *)
Theorem key_alone_leaves_comma index_name table_name key_field schema_name
    text_fields numeric_fields boolean_fields json_fields range_fields datetime_fields predicates sql :
  Forall (λ fields, ∃ map, fields = JObject map ∧ Forall (λ key, key = key_field) map.*1)
    [text_fields; numeric_fields; boolean_fields; json_fields; range_fields; datetime_fields] →
  format_create_bm25 index_name table_name key_field schema_name text_fields numeric_fields boolean_fields json_fields
    range_fields datetime_fields predicates = Ok sql →
  ∃ before after, sql = (before +:+ "(" +:+ quote_identifier key_field +:+ ", " +:+ ") WITH (" +:+ after)%string.
Proof.
  intros Hall Hsql. unfold format_create_bm25 in Hsql.
  assert (∀ l, Forall (λ fields, ∃ map, fields = JObject map ∧ Forall (λ key, key = key_field) map.*1) l →
    field_names key_field l = Ok []) as Hnames.
  { clear. induction 1 as [|fields l (map & -> & Hkeys) _ IH]; [done|]. cbn [field_names]. rewrite IH. cbn [mbind outcome_bind].
    f_equal. rewrite app_nil_r. assert (filter (λ key, key ≠ key_field) map.*1 = []) as ->; [|done].
    induction Hkeys as [|key keys -> _ IHk]; [done|]. rewrite filter_cons, decide_False by (intros Hne; by apply Hne). exact IHk. }
  rewrite (Hnames _ Hall) in Hsql. cbn [mbind outcome_bind] in Hsql. rewrite filter_cons, decide_False in Hsql by (intros Hne; by apply Hne).
  repeat (apply obind_inv in Hsql as (? & _ & Hsql)). injection Hsql as <-. by eexists _, _.
Qed.
End format.

(** ** [index_fields] *)

(** [serde_json::to_value] of a configuration *)
Class ConfigToValue := { config_to_value : SearchFieldConfig → Json }.

Section fields.
Context `{SerdeLanguage} `{SerdeRecord} `{SerdeJsonText} `{PgTypes} `{!ConfigToValue}.
Implicit Types (opts : SearchIndexCreateOptions) (index_desc : TupleDesc).

(** the [map] over the fields of one option: the type of a field is that of the column with its name *)
Fixpoint typed_fields (name_types : gmap string SearchFieldType) (accepts : SearchFieldType → bool) (msg : string)
    (configured : list (string * SearchFieldConfig)) : outcome (list FieldSpec) :=
  match configured with
  | [] => Ok []
  | (name, config) :: configured =>
      match name_types !! name with
      | Some t =>
          if accepts t then rest ← typed_fields name_types accepts msg configured; Ok ((name, config, t) :: rest)
          else Panic ("'" +:+ name +:+ "' cannot be indexed as a " +:+ msg +:+ " field")%string
      | None => Panic ("'" +:+ name +:+ "' cannot be indexed as a " +:+ msg +:+ " field")%string
      end
  end.
(** like the index's own, but that a JSON key has fieldnorms *)
Definition inspected_key_config (t : SearchFieldType) : SearchFieldConfig :=
  match t with
  | SJson => JsonConfig true true false true false raw_tokenizer Basic NormalizeRaw None
  | _ => key_config t
  end.
(** the iterators are chained and only then collected, into a map by name *)
Definition index_fields (rd_options : option SearchIndexCreateOptions) index_desc : outcome (gmap string Json) :=
  let rdopts := default options_alloc0 rd_options in
  let name_types := name_type_map index_desc in
  text ← get_text_fields rdopts;
  numeric ← get_numeric_fields rdopts;
  boolean ← get_boolean_fields rdopts;
  json ← get_json_fields rdopts;
  range ← get_range_fields rdopts;
  datetime ← get_datetime_fields rdopts;
  key_field ← expect_ok (get_key_field rdopts) "must specify key_field";
  key_field_type ← expect_ok (name_types !! key_field) "key field does not exist";
  text ← typed_fields name_types (λ t, match t with SText => true | _ => false end) "text" text;
  numeric ← typed_fields name_types (λ t, match t with SU64 | SI64 | SF64 => true | _ => false end) "numeric" numeric;
  boolean ← typed_fields name_types (λ t, match t with SBool => true | _ => false end) "boolean" boolean;
  json ← typed_fields name_types (λ t, match t with SJson => true | _ => false end) "JSON" json;
  range ← typed_fields name_types (λ t, match t with SRange => true | _ => false end) "range" range;
  datetime ← typed_fields name_types (λ t, match t with SDate => true | _ => false end) "datetime" datetime;
  let fields := text ++ numeric ++ boolean ++ json ++ range ++ datetime
                ++ [(key_field, inspected_key_config key_field_type, key_field_type)] in
  Ok (foldl (λ m f, <[f.1.1 := config_to_value f.1.2]> m) ∅ fields).

Lemma typed_fields_ok name_types accepts msg configured fields :
  typed_fields name_types accepts msg configured = Ok fields →
  fields.*1 = configured ∧ Forall (λ f : FieldSpec, name_types !! f.1.1 = Some f.2) fields.
Proof.
  revert fields. induction configured as [|[name config] configured IH]; intros fields Hrun; cbn [typed_fields] in Hrun.
  { by injection Hrun as <-. }
  destruct (name_types !! name) as [t|] eqn:Ht; [|done]. destruct (accepts t); [|done].
  apply obind_inv in Hrun as (rest & [Hf Hall]%IH & [= <-]). split; [by cbn; f_equal|]. by constructor.
Qed.

(** what is reported: the key, and the fields that the options name, which are columns of the index *)
Definition configured_names opts : list string :=
  concat ((λ o, match o with Ok l => l.*1 | _ => [] end) <$>
    [get_text_fields opts; get_numeric_fields opts; get_boolean_fields opts; get_json_fields opts;
     get_range_fields opts; get_datetime_fields opts]).
Lemma fold_names (fields : list FieldSpec) (m : gmap string Json) n :
  is_Some (foldl (λ m f, <[f.1.1 := config_to_value f.1.2]> m) m fields !! n) ↔ n ∈ spec_names fields ∨ is_Some (m !! n).
Proof.
  revert m. induction fields as [|f fields IH]; intros m; cbn [foldl].
  { split; [by right|]. intros [?%not_elem_of_nil|]; done. }
  rewrite IH. unfold spec_names. cbn [fmap list_fmap]. rewrite elem_of_cons.
  destruct (decide (n = f.1.1)) as [->|Hne]; [rewrite lookup_insert_eq; split; [by left; left|by right]|].
  rewrite lookup_insert_ne by done. naive_solver.
Qed.
Lemma spec_names_fst (fields : list FieldSpec) : spec_names fields = fields.*1.*1.
Proof. unfold spec_names. by rewrite <- list_fmap_compose. Qed.
Theorem index_fields_names rd_options index_desc m :
  index_fields rd_options index_desc = Ok m →
  ∃ key, get_key_field (default options_alloc0 rd_options) = Some key ∧
    (∀ n, is_Some (m !! n) ↔ n = key ∨ n ∈ configured_names (default options_alloc0 rd_options)) ∧
    (∀ n, n ∈ configured_names (default options_alloc0 rd_options) → is_Some (name_type_map index_desc !! n)).
Proof.
  unfold index_fields, configured_names. set (opts := default options_alloc0 rd_options). intros Hrun.
  apply obind_inv in Hrun as (text & -> & (numeric & -> & (boolean & -> & (json & -> & (range & -> &
    (datetime & -> & Hrun)%obind_inv)%obind_inv)%obind_inv)%obind_inv)%obind_inv).
  apply obind_inv in Hrun as (key & Hkey & Hrun). apply obind_inv in Hrun as (kt & Hkt & Hrun).
  destruct (get_key_field opts) as [key'|]; [|done]. injection Hkey as ->. exists key. split; [done|].
  apply obind_inv in Hrun as (f1 & [<- Hf1]%typed_fields_ok & (f2 & [<- Hf2]%typed_fields_ok & (f3 & [<- Hf3]%typed_fields_ok &
    (f4 & [<- Hf4]%typed_fields_ok & (f5 & [<- Hf5]%typed_fields_ok & (f6 & [<- Hf6]%typed_fields_ok & [= <-])%obind_inv)%obind_inv)
    %obind_inv)%obind_inv)%obind_inv).
  cbn [fmap list_fmap concat]. split.
  - intros n. rewrite fold_names, lookup_empty, spec_names_fst, !fmap_app. cbn [fmap list_fmap fst].
    rewrite !elem_of_app, list_elem_of_singleton. pose proof (not_elem_of_nil n). split; [intros [Hn|[? [=]]]|intros Hn]; tauto.
  - intros n Hn. rewrite !elem_of_app in Hn. pose proof (not_elem_of_nil n).
    assert (∀ fs : list FieldSpec, Forall (λ f : FieldSpec, name_type_map index_desc !! f.1.1 = Some f.2) fs →
      n ∈ fs.*1.*1 → is_Some (name_type_map index_desc !! n)) as Hin.
    { intros fs Hall ((? & config) & -> & (f & Hf & Hin)%list_elem_of_fmap)%list_elem_of_fmap. rewrite Forall_forall in Hall.
      eexists. rewrite Hf. by apply Hall. }
    destruct Hn as [Hn|[Hn|[Hn|[Hn|[Hn|[Hn|Hn]]]]]]; try done; (eapply Hin; [|exact Hn]); done.
Qed.
(** So an index with an alias, which CREATE INDEX accepts, cannot be inspected. *)
Theorem alias_not_inspected rd_options index_desc n m :
  n ∈ configured_names (default options_alloc0 rd_options) → name_type_map index_desc !! n = None →
  index_fields rd_options index_desc ≠ Ok m.
Proof. intros Hn Hnone (key & _ & _ & Hall)%index_fields_names. apply Hall in Hn as [t Ht]. congruence. Qed.
End fields.

(** ** [storage_info] and [page_info] *)

(** [serde_json::to_value] of an entry *)
Class EntryToValue (T : Type) := { entry_to_value : T → Json }.

Section pages.
Context `{PgPage, PgXact, PgBuffers} {T} `{PgItem T} `{MVCCEntry T} `{!EntryToValue T}.

(** the blocks of the list with the number of items of each *)
Fixpoint storage_info_loop (fuel : nat) (blockno : Z) : M Rel (list (Z * Z)) :=
  if blockno =? InvalidBlockNumber then mret [] else
  match fuel with
  | O => no_fuel
  | S fuel =>
      page ← get_page blockno;
      rest ← storage_info_loop fuel (page_next_blockno page);
      mret ((blockno, max_offset_number page) :: rest)
  end.
Definition storage_info : M Rel (list (Z * Z)) :=
  blockno ← items_start_blockno SEGMENT_METAS_START;
  n ← gets rel_nblocks;
  storage_info_loop (Z.to_nat n) blockno.

(** offset, size, visible, recyclable, contents *)
Definition item_info (snapshot : Snapshot) (page : Page) (offsetno : Z) : outcome (Z * Z * bool * bool * Json) :=
  o ← read_item (T:=T) page offsetno;
  Ok match o with
     | Some (entry, size) => (offsetno, size, visible entry snapshot, recyclable entry snapshot, entry_to_value entry)
     | None => (offsetno, 0, false, false, JNull)
     end.
Definition page_info (snapshot : Snapshot) (blockno : Z) : M Rel (list (Z * Z * bool * bool * Json)) :=
  page ← get_page (blockno mod 2 ^ 32);
  if max_offset_number page =? 0 then mret []
  else lift (traverse_ok (item_info snapshot page) (seqZ FirstOffsetNumber (max_offset_number page))).
End pages.

Section page_lemmas.
Context `{PgPage, PgXact, PgBuffers} {T} `{PgItem T} `{MVCCEntry T} `{!FrozenSameSize T} `{!EntryToValue T}.
Implicit Types (r : Rel) (es : list T) (blks : list Z) (its : list (list T)).

Lemma storage_info_loop_ok fuel r blks its :
  rel_wf r → ichain r blks its → (length blks ≤ fuel)%nat →
  storage_info_loop fuel (next_of blks) r = Ok (zip blks (zlen <$> its), r).
Proof.
  intros Hwf. revert blks its. induction fuel as [|fuel IH]; intros [|b bs] [|es its] Hc Hlen; try done; simpl in Hlen; try lia.
  destruct (ichain_dom _ _ _ b Hwf Hc ltac:(left)) as [_ Hb].
  destruct Hc as [(p & Hp & [Hu Hl] & Hnext) Hc]. cbn [storage_info_loop next_of head default].
  rewrite (proj2 (Z.eqb_neq b _)) by done. rewrite (bind_ok _ _ _ _ _ (get_page_run _ _ _ Hp)).
  rewrite Hnext. rewrite (bind_ok _ _ _ _ _ (IH bs its Hc ltac:(lia))).
  unfold max_offset_number. by rewrite Hl, zlen_as_items.
Qed.
(** [storage_info] walks the list once: every block with the number of entries it holds. *)
Theorem storage_info_blocks r blks its :
  items_at r SEGMENT_METAS_START blks its → storage_info r = Ok (zip blks (zlen <$> its), r).
Proof.
  intros Hi. destruct (items_start_run _ _ _ _ Hi) as (b & bs & -> & Hrun).
  destruct Hi as [Hc Hnd _ Hwf]. apply NoDup_cons in Hnd as [_ Hnd].
  unfold storage_info. rewrite (bind_ok _ _ _ _ _ Hrun). rewrite (bind_ok (gets _) _ r r (rel_nblocks r)) by done.
  apply (storage_info_loop_ok _ r (b :: bs) its Hwf Hc). by eapply ichain_bound.
Qed.

(** what [page_info] says of an entry *)
Definition entry_info (snapshot : Snapshot) (i : nat) (entry : T) : Z * Z * bool * bool * Json :=
  (Z.of_nat i + 1, zlen (into_item entry), visible entry snapshot, recyclable entry snapshot, entry_to_value entry).
Lemma item_info_at snapshot p l rest (e : T) :
  pd_linp p = l ++ normal_item (into_item e) :: rest → item_info snapshot p (zlen l + 1) = Ok (entry_info snapshot (length l) e).
Proof. intros Hl. unfold item_info. by rewrite (read_item_at p l rest e _ Hl eq_refl). Qed.
Lemma item_infos snapshot p l es :
  pd_linp p = l ++ as_items es →
  traverse_ok (item_info snapshot p) (seqZ (zlen l + 1) (zlen es)) = Ok (imap (λ i, entry_info snapshot (length l + i)) es).
Proof.
  revert l. induction es as [|e es IH]; intros l Hl; [done|].
  rewrite zlen_cons. pose proof (zlen_nonneg es). rewrite seqZ_cons by lia.
  replace (Z.pred (1 + zlen es)) with (zlen es) by lia. cbn [traverse_ok].
  rewrite (item_info_at snapshot p l (as_items es) e) by done. cbn [mbind outcome_bind].
  specialize (IH (l ++ [normal_item (into_item e)])). rewrite zlen_app in IH.
  change (zlen [normal_item (into_item e)]) with 1 in IH.
  replace (Z.succ (zlen l + 1)) with (zlen l + 1 + 1) by lia. rewrite IH by (by rewrite Hl, <- app_assoc).
  cbn [mbind outcome_bind imap]. rewrite Nat.add_0_r. f_equal. f_equal.
  apply imap_ext. intros i e' _. cbn. rewrite length_app. cbn. f_equal. lia.
Qed.
(** [page_info] lists every entry of a page of the list, with its size and what a snapshot makes of it. *)
Theorem page_info_entries snapshot r b p es :
  rel_pages r !! b = Some p → holds p es → is_u32 b → page_info snapshot b r = Ok (imap (entry_info snapshot) es, r).
Proof.
  intros Hp [_ Hl] Hb. unfold page_info. rewrite Z.mod_small by (unfold is_u32, u32_max in Hb; lia).
  rewrite (bind_ok _ _ _ _ _ (get_page_run _ _ _ Hp)). unfold max_offset_number. rewrite Hl, zlen_as_items.
  destruct (Z.eqb_spec (zlen es) 0) as [Hz|Hne].
  { destruct es; [done|]. unfold zlen in Hz. cbn in Hz. lia. }
  pose proof (item_infos snapshot p [] es Hl) as Hi. change (zlen [] + 1) with FirstOffsetNumber in Hi.
  unfold lift. rewrite Hi. done.
Qed.
End page_lemmas.
