(* ===== verification/Commit.v ===== *)
(** * Commit: what [save_new_metas] does to the list of segments

    The abstract specification of a commit is a function on the entries of the list
    ([commit_spec]): the segments that are gone get the current transaction as their
    [xmax], those with a new delete file get it as their [delete] entry, the created
    segments are added.  The theorem of this file is that [save_new_metas] of
    [index/directory/utils.rs], page by page and file by file, computes it. *)

From S2P Require Import Prelude Page Block Buffer BlockList LinkedBytes SegmentIO LinkedItems MergePolicy Directory.

Open Scope Z_scope.

(** an entry that is marked deleted keeps its size (bincode writes transaction ids
    at a fixed width) *)
Class XmaxSameSize `{TantivyIndex} `{PgItem SegmentMetaEntry} :=
  xmax_same_size e x : zlen (into_item (set_xmax x e)) = zlen (into_item e).

Lemma omap_ext_in {A B} (f g : A → option B) (l : list A) :
  (∀ x, x ∈ l → f x = g x) → omap f l = omap g l.
Proof.
  induction l as [|x l IH]; intros Hfg; [done|]. cbn [omap list_omap].
  rewrite (Hfg x) by left. rewrite IH; [done|]. intros y Hy. apply Hfg. by right.
Qed.

Section spec.
Context `{TI : TantivyIndex} `{!TantivySegments} `{!HashOrder} `{PgXact}.
Implicit Types (e : SegmentMetaEntry) (es : list SegmentMetaEntry) (id : SegmentId)
  (segments : list SegmentMeta) (files : FileMap).

(** the segment of an id, the last one if there are many *)
Definition seg_of segments id : option SegmentMeta := last (filter (λ s, sm_id s = id) segments).

Definition created_of segments files (ids : list SegmentId) : list SegmentMetaEntry :=
  omap (λ id, s ← seg_of segments id; fs ← files !! id; Some (created_entry id s fs)) ids.

Definition modified_entry segments files e : SegmentMetaEntry :=
  default e (s ← seg_of segments (segment_id e); fs ← files !! segment_id e; f ← fs !! Delete;
             Some (set_delete (Some {| file_entry := f.1; num_deleted_docs := sm_num_deleted_docs s |}) e)).

(** what becomes of an entry *)
Definition committed (segments prev_segments : list SegmentMeta) files e : SegmentMetaEntry :=
  let new_ids := segment_ids segments in
  let previous_ids := segment_ids prev_segments in
  if decide (segment_id e ∈ previous_ids ∖ new_ids) then set_xmax GetCurrentTransactionId e
  else if decide (segment_id e ∈ previous_ids ∩ new_ids) then modified_entry segments files e
  else e.

Definition commit_spec (segments prev_segments : list SegmentMeta) files es : list SegmentMetaEntry :=
  (committed segments prev_segments files <$> es) ++
  created_of segments files (set_iter (segment_ids segments ∖ segment_ids prev_segments)).

(** the entry of an id *)
Definition entry_of es id : option SegmentMetaEntry :=
  first_match (λ e, bool_decide (segment_id e = id)) es.

(** [es] with the entry of [e']'s segment replaced by [e'] *)
Definition put e' es : list SegmentMetaEntry :=
  (λ e, if decide (segment_id e = segment_id e') then e' else e) <$> es.
(** ... and by those of [ps] *)
Definition patch (ps es : list SegmentMetaEntry) : list SegmentMetaEntry := foldl (flip put) es ps.

Lemma entry_of_elem es id e : entry_of es id = Some e → e ∈ es ∧ segment_id e = id.
Proof.
  unfold entry_of. induction es as [|e' es IH]; simpl; [done|].
  case_bool_decide as Hid; [intros [= ->]; split; [left|done]|].
  intros Hm. destruct (IH Hm). split; [by right|done].
Qed.
Lemma entry_of_id es e : NoDup (segment_id <$> es) → e ∈ es → entry_of es (segment_id e) = Some e.
Proof. apply first_match_id. Qed.

Lemma seg_of_new segments id : id ∈ segment_ids segments → is_Some (seg_of segments id).
Proof.
  unfold segment_ids, seg_of. rewrite elem_of_list_to_set, list_elem_of_fmap.
  intros (s & -> & Hs). apply last_is_Some. intros Hnil.
  assert (s ∈ filter (λ s', sm_id s' = sm_id s) segments) as Hin
    by (apply list_elem_of_filter; done).
  rewrite Hnil in Hin. by apply not_elem_of_nil in Hin.
Qed.

Lemma get_segment_seg_of segments id s : seg_of segments id = Some s → get_segment segments id = Ok s.
Proof. unfold seg_of, get_segment. by intros ->. Qed.

Lemma create_entries_spec segments ids files :
  NoDup ids → (∀ id, id ∈ ids → is_Some (seg_of segments id)) →
  ∃ files', create_entries segments ids files = Ok (created_of segments files ids, files') ∧
    ∀ id, id ∉ ids → files' !! id = files !! id.
Proof.
  revert files. induction ids as [|id ids IH]; intros files Hnd Hseg.
  { exists files. split; [done|]. done. }
  apply NoDup_cons in Hnd as [Hid Hnd]. destruct (Hseg id ltac:(left)) as [s Hs].
  cbn [create_entries]. rewrite (get_segment_seg_of _ _ _ Hs). cbn [mbind outcome_bind].
  unfold created_of. cbn [omap list_omap]. rewrite Hs. cbn [mbind option_bind].
  destruct (files !! id) as [fs|] eqn:Hfs; cbn [mbind option_bind].
  - destruct (IH (base.delete id files) Hnd) as (files' & Hrun & Hrest); [intros; apply Hseg; by right|].
    rewrite Hrun. cbn [mbind outcome_bind fst snd]. exists files'.
    assert (created_of segments (base.delete id files) ids = created_of segments files ids) as ->.
    { apply omap_ext_in. intros id' Hid'. destruct (seg_of segments id'); [|done].
      cbn [mbind option_bind]. rewrite lookup_delete_ne; [done|]. by intros <-. }
    split; [done|]. intros id' Hid'. apply not_elem_of_cons in Hid' as [? ?].
    rewrite Hrest by done. by rewrite lookup_delete_ne.
  - destruct (IH files Hnd) as (files' & Hrun & Hrest); [intros; apply Hseg; by right|].
    exists files'. split; [done|]. intros id' Hid'. apply Hrest. set_solver.
Qed.
End spec.

(** ** Looking up the entries to change *)

Section lookup_stage.
Context `{TI : TantivyIndex} `{!TantivySegments} `{!HashOrder} `{PgPage, PgXact, PgBuffers}.
Context `{PgItem SegmentMetaEntry}.
Implicit Types (r : Rel) (e : SegmentMetaEntry) (es : list SegmentMetaEntry) (id : SegmentId)
  (segments : list SegmentMeta) (files : FileMap) (blks : list Z) (its : list (list SegmentMetaEntry)).

(** the page [b] of the list holds [e] *)
Definition on_page blks its e (b : Z) : Prop :=
  ∃ k es, blks !! k = Some b ∧ its !! k = Some es ∧ e ∈ es.

Lemma read_item_elem p es e off :
  holds p es → read_item p off = Ok (Some (e, zlen (into_item e))) → e ∈ es.
Proof.
  intros [_ Hl]. unfold read_item. rewrite Hl. unfold znth. destruct (0 <=? off - 1); [|done].
  unfold as_items. rewrite list_lookup_fmap.
  destruct (es !! Z.to_nat (off - 1)) as [e'|] eqn:He; cbn [fmap option_fmap option_map]; [|done].
  cbn [lp_normal normal_item negb lp_item]. rewrite from_into_item. intros [= -> _].
  by eapply list_elem_of_lookup_2.
Qed.

Lemma lookup_segment_run r blks its id e :
  items_at r SEGMENT_METAS_START blks its → entry_of (concat its) id = Some e →
  ∃ b off, lookup_segment id r = Ok ((e, b, off), r) ∧ on_page blks its e b.
Proof.
  intros Hi He. destruct (lookup_segment_spec r blks its id Hi e He)
    as (b & off & p & Hrun & Hb & Hp & Hread).
  exists b, off. split; [unfold lookup_segment, or_panic; by rewrite Hrun|].
  apply list_elem_of_lookup in Hb as [k Hk]. destruct Hi as [Hc _ _ _].
  destruct (ichain_lookup _ _ _ _ _ Hc Hk) as (p' & es & Hes & Hp' & Hh & _).
  exists k, es. split; [done|]. split; [done|]. assert (p' = p) as -> by congruence.
  by eapply read_item_elem.
Qed.

Lemma delete_entries_spec r blks its ids :
  items_at r SEGMENT_METAS_START blks its →
  (∀ id, id ∈ ids → is_Some (entry_of (concat its) id)) →
  ∃ bs, delete_entries ids r =
      Ok (zip (set_xmax GetCurrentTransactionId <$> omap (entry_of (concat its)) ids) bs, r) ∧
    Forall2 (on_page blks its) (omap (entry_of (concat its)) ids) bs.
Proof.
  intros Hi. induction ids as [|id ids IH]; intros Hex; [by exists []|].
  destruct (Hex id ltac:(left)) as [e He].
  destruct IH as (bs & Hrun & Hon); [intros; apply Hex; by right|].
  destruct (lookup_segment_run r blks its id e Hi He) as (b & off & Hlook & Hb).
  exists (b :: bs). cbn [delete_entries omap list_omap]. rewrite He.
  rewrite (bind_ok _ _ _ _ _ Hlook). rewrite (bind_ok _ _ _ _ _ Hrun).
  split; [done|]. by constructor.
Qed.

(** what [save_new_metas] asserts of the new files of a modified segment *)
Definition delete_only files id : Prop :=
  ∃ fs, files !! id = Some fs ∧ size fs = 1%nat ∧ is_Some (fs !! Delete).

Lemma modify_entries_spec r blks its segments ids files :
  items_at r SEGMENT_METAS_START blks its → NoDup ids →
  (∀ id, id ∈ ids → is_Some (seg_of segments id) ∧ delete_only files id ∧
     is_Some (entry_of (concat its) id)) →
  let olds := omap (entry_of (concat its)) ids in
  ∃ bs files', modify_entries segments ids files r =
      Ok ((zip (modified_entry segments files <$> olds) bs,
           olds ≫= λ e, option_list (delete e), files'), r) ∧
    Forall2 (on_page blks its) olds bs.
Proof.
  intros Hi. revert files. induction ids as [|id ids IH]; intros files Hnd Hex; cbn zeta.
  { by exists [], files. }
  apply NoDup_cons in Hnd as [Hid Hnd].
  destruct (Hex id ltac:(left)) as ([s Hs] & (fs & Hfs & Hsize & [f Hf]) & [e He]).
  destruct (IH (base.delete id files) Hnd) as (bs & files' & Hrun & Hon).
  { intros id' Hid'. destruct (Hex id' ltac:(by right)) as (? & (fs' & Hfs' & ?) & ?).
    split; [done|]. split; [|done]. exists fs'. rewrite lookup_delete_ne; [done|]. by intros <-. }
  destruct (lookup_segment_run r blks its id e Hi He) as (b & off & Hlook & Hb).
  exists (b :: bs), files'. cbn [modify_entries omap list_omap]. rewrite Hfs, He.
  rewrite bool_decide_true by done. rewrite bool_decide_true by (by eexists). cbn [andb].
  rewrite (bind_ok (assert true _) _ r r tt) by done.
  rewrite (bind_ok (lift _) _ r r s) by (by rewrite (get_segment_seg_of _ _ _ Hs)).
  rewrite (bind_ok _ _ _ _ _ Hlook). rewrite Hf. cbn [fmap option_fmap option_map expect].
  rewrite (bind_ok _ _ _ _ _ (ret_run _ _)). rewrite (bind_ok _ _ _ _ _ Hrun).
  split; [|by constructor]. unfold mret, M_ret. repeat f_equal; cbn [fmap list_fmap zip zip_with].
  apply entry_of_elem in He as He'. destruct He' as [_ Hide].
  f_equal; [f_equal|f_equal; apply list_fmap_ext].
  - unfold modified_entry. rewrite Hide, Hs. cbn [mbind option_bind]. rewrite Hfs.
    cbn [mbind option_bind]. by rewrite Hf.
  - intros i e' He'. apply list_elem_of_lookup_2, list_elem_of_omap in He' as (id' & Hid' & Hent).
    apply entry_of_elem in Hent as [_ Hide']. unfold modified_entry.
    rewrite lookup_delete_ne; [done|]. rewrite Hide'. by intros <-.
Qed.
End lookup_stage.

(** ** Changing one entry on its page *)

Lemma elem_concat {A} (x : A) (l : list A) ls : l ∈ ls → x ∈ l → x ∈ concat ls.
Proof.
  intros Hl Hx. induction Hl as [l ls|l l' ls _ IH]; simpl; apply elem_of_app; [by left|right; auto].
Qed.

Section put_lemmas.
Context `{TI : TantivyIndex}.
Implicit Types (e : SegmentMetaEntry) (es ps : list SegmentMetaEntry).

Lemma put_ids e' es : segment_id <$> put e' es = segment_id <$> es.
Proof.
  unfold put. rewrite <- list_fmap_compose. apply list_fmap_ext. intros i e _. simpl.
  by case_decide.
Qed.
Lemma put_other e' es : segment_id e' ∉ segment_id <$> es → put e' es = es.
Proof.
  unfold put. intros Hn. rewrite <- (list_fmap_id es) at 2. apply list_fmap_ext. intros i e He. simpl.
  rewrite decide_False; [done|]. intros Heq. apply Hn. rewrite <- Heq.
  apply list_elem_of_fmap_2. by eapply list_elem_of_lookup_2.
Qed.
Lemma put_mid e' l1 e l2 :
  NoDup (segment_id <$> l1 ++ e :: l2) → segment_id e' = segment_id e →
  put e' (l1 ++ e :: l2) = l1 ++ e' :: l2.
Proof.
  intros Hnd Hid. rewrite fmap_app in Hnd. cbn [fmap list_fmap] in Hnd.
  apply NoDup_app in Hnd as (_ & Hd & Hnd). apply NoDup_cons in Hnd as [Hn2 _].
  unfold put. rewrite fmap_app. cbn [fmap list_fmap]. rewrite decide_True by done.
  f_equal; [|f_equal].
  - apply put_other. rewrite Hid. intros Hin. apply (Hd _ Hin). left.
  - apply put_other. by rewrite Hid.
Qed.
Lemma put_concat e' (its : list (list SegmentMetaEntry)) : concat (put e' <$> its) = put e' (concat its).
Proof.
  induction its as [|es its IH]; [done|]. cbn [fmap list_fmap concat]. rewrite IH.
  unfold put. by rewrite fmap_app.
Qed.
(** only the page of the entry changes *)
Lemma put_page e' (its : list (list SegmentMetaEntry)) k es :
  NoDup (segment_id <$> concat its) → its !! k = Some es → segment_id e' ∈ segment_id <$> es →
  put e' <$> its = <[k := put e' es]> its.
Proof.
  revert k. induction its as [|ds its IH]; intros k Hnd Hk Hin; [done|].
  cbn [concat] in Hnd. rewrite fmap_app in Hnd. apply NoDup_app in Hnd as (Hnd1 & Hd & Hnd2).
  destruct k as [|k]; cbn [fmap list_fmap].
  - injection Hk as ->. simpl. f_equal. rewrite <- (list_fmap_id its) at 2.
    apply list_fmap_ext. intros i ds Hds. apply put_other. intros Hin'. apply (Hd _ Hin).
    apply list_elem_of_fmap in Hin' as (e & -> & He). apply list_elem_of_fmap_2.
    eapply elem_concat; [|done]. by eapply list_elem_of_lookup_2.
  - simpl. rewrite (IH k) by done. f_equal. apply put_other. intros Hin'. apply (Hd _ Hin').
    apply list_elem_of_fmap in Hin as (e & -> & He). apply list_elem_of_fmap_2.
    eapply elem_concat; [|done]. by eapply list_elem_of_lookup_2.
Qed.
#[export] Instance put_perm e' : Proper (Permutation ==> Permutation) (put e').
Proof. intros es1 es2 Hp. unfold put. by rewrite Hp. Qed.
#[export] Instance patch_perm ps : Proper (Permutation ==> Permutation) (patch ps).
Proof.
  unfold patch. induction ps as [|e ps IH]; intros es1 es2 Hp; [done|]. cbn [foldl flip].
  apply IH. by rewrite Hp.
Qed.
End put_lemmas.

Section entry_stage.
Context `{TI : TantivyIndex} `{PgPage, PgXact, PgBuffers} `{PgItem SegmentMetaEntry}.
Implicit Types (r : Rel) (p : Page) (e : SegmentMetaEntry) (es : list SegmentMetaEntry).

Lemma find_item_run p (cmp : SegmentMetaEntry → bool) l0 l1 e l2 :
  pd_linp p = as_items (l0 ++ l1 ++ e :: l2) → Forall (λ e, cmp e = false) l1 → cmp e = true →
  find_item_loop {| pm_page := p; pm_dirty := false |} cmp
    (seqZ (zlen l0 + 1) (zlen (l1 ++ e :: l2))) = Ok (Some (zlen l0 + zlen l1 + 1)).
Proof.
  revert l0. induction l1 as [|e1 l1 IH]; intros l0 Hl Hall He.
  - cbn [app]. rewrite zlen_cons. pose proof (zlen_nonneg l2). rewrite seqZ_cons by lia.
    cbn [find_item_loop pm_page]. rewrite (read_item_at p (as_items l0) (as_items l2) e).
    + rewrite He. rewrite zlen_nil. by rewrite Z.add_0_r.
    + by rewrite Hl, as_items_app.
    + by rewrite zlen_as_items.
  - apply Forall_cons in Hall as [He1 Hall]. cbn [app]. rewrite zlen_cons.
    pose proof (zlen_nonneg (l1 ++ e :: l2)). rewrite seqZ_cons by lia.
    cbn [find_item_loop pm_page].
    rewrite (read_item_at p (as_items l0) (as_items (l1 ++ e :: l2)) e1).
    + rewrite He1. specialize (IH (l0 ++ [e1])). rewrite zlen_app in IH.
      change (zlen [e1]) with 1 in IH. replace (Z.pred _) with (zlen (l1 ++ e :: l2)) by lia.
      replace (Z.succ (zlen l0 + 1)) with (zlen l0 + 1 + 1) by lia. rewrite IH; [|by rewrite Hl, <- app_assoc|done..].
      do 2 f_equal. rewrite zlen_cons. lia.
    + by rewrite Hl, as_items_app.
    + by rewrite zlen_as_items.
Qed.

Lemma insert_middle {A} (l1 : list A) x y l2 : <[length l1 := y]> (l1 ++ x :: l2) = l1 ++ y :: l2.
Proof. induction l1; simpl; [done|]. by f_equal. Qed.
Lemma delete_middle' {A} (l1 : list A) x l2 : base.delete (length l1) (l1 ++ x :: l2) = l1 ++ l2.
Proof. apply delete_middle. Qed.

(** the entry of a segment is found on its page and replaced if it fits *)
Lemma replace_entry_run msg p l1 e l2 e' :
  holds p (l1 ++ e :: l2) → NoDup (segment_id <$> l1 ++ e :: l2) → segment_id e' = segment_id e →
  ∃ did pm, replace_entry msg e' {| pm_page := p; pm_dirty := false |} = Ok (zlen l1 + 1, did, pm) ∧
    pd_special (pm_page pm) = pd_special p ∧ pd_upper (pm_page pm) ≠ 0 ∧
    (if did : bool then pd_linp (pm_page pm) = as_items (l1 ++ e' :: l2) else pm_page pm = p) ∧
    (zlen (into_item e') = zlen (into_item e) → did = true).
Proof.
  intros [[Hup Hx] Hl] Hnd Hid.
  assert (find_item {| pm_page := p; pm_dirty := false |}
            (λ item : SegmentMetaEntry, bool_decide (segment_id item = segment_id e')) = Ok (Some (zlen l1 + 1)))
    as Hfind.
  { unfold find_item, FirstOffsetNumber, max_offset_number. cbn [pm_page]. rewrite Hl, zlen_as_items.
    pose proof (find_item_run p (λ item, bool_decide (segment_id item = segment_id e')) [] l1 e l2 Hl) as Hf.
    change (zlen (@nil SegmentMetaEntry)) with 0 in Hf. rewrite Z.add_0_l in Hf.
    apply Hf; [|by apply bool_decide_true]. apply Forall_forall. intros e1 He1.
    apply bool_decide_false. rewrite Hid. intros Heq. rewrite fmap_app in Hnd.
    apply NoDup_app in Hnd as (_ & Hd & _). apply (Hd (segment_id e1)).
    - by apply list_elem_of_fmap_2.
    - rewrite Heq. cbn [fmap list_fmap]. left. }
  unfold replace_entry. rewrite Hfind. cbn [mbind outcome_bind].
  unfold replace_item. pose proof (zlen_nonneg l1).
  rewrite (proj2 (Z.eqb_neq _ _)) by (unfold InvalidOffsetNumber; lia). cbn [pm_page pm_dirty].
  assert (zlen (pd_linp p) = zlen l1 + 1 + zlen l2) as Hlen.
  { rewrite Hl, zlen_as_items, zlen_app, zlen_cons. lia. }
  pose proof (zlen_nonneg l2).
  pose proof (PageOverwrite_upper p (zlen l1 + 1) (into_item e') Hup) as Hup'.
  assert (Z.to_nat (zlen l1 + 1 - 1) = length l1) as Hk by (unfold zlen; lia).
  destruct (PageIndexTupleOverwrite p (zlen l1 + 1) (into_item e')) as [p' did] eqn:E.
  cbn [mbind outcome_bind fst snd pm_page] in *. exists did, {| pm_page := p'; pm_dirty := if did then true else false |}.
  split; [done|]. cbn [pm_page].
  assert (zlen (into_item e') = zlen (into_item e) → did = true) as Hsame.
  { intros Hsz. pose proof (PageOverwrite_same p (zlen l1 + 1) (into_item e') (into_item e)) as Hs.
    rewrite E in Hs. apply Hs; [lia| |done]. rewrite Hk, Hl, as_items_app.
    change (as_items (e :: l2)) with (normal_item (into_item e) :: as_items l2).
    rewrite list_lookup_middle; [done|]. unfold as_items. by rewrite length_fmap. }
  destruct did.
  - apply PageOverwrite_ok in E as [Hs Hlp]; [|lia]. split; [done|]. split; [done|]. split; [|done].
    rewrite Hlp, Hk, Hl, !as_items_app.
    change (as_items (e :: l2)) with (normal_item (into_item e) :: as_items l2).
    change (as_items (e' :: l2)) with (normal_item (into_item e') :: as_items l2).
    replace (length l1) with (length (as_items l1)) by (unfold as_items; apply length_fmap).
    apply insert_middle.
  - apply PageOverwrite_fail in E as ->. done.
Qed.
End entry_stage.

(** ** The state between two changes *)

Section commit_state.
Context `{TI : TantivyIndex} `{BitPacking, PgPage, PgXact, PgBuffers} `{PgItem SegmentMetaEntry}.
Implicit Types (r : Rel) (e : SegmentMetaEntry) (es : list SegmentMetaEntry) (md : LinkedListData)
  (blks ps : list Z) (its : list (list SegmentMetaEntry)) (pend : list (FileEntry * list Z)).

(** the file [fe] is on the pages [ps]: its data, its block list and its header *)
Definition deletable r (fe : FileEntry) ps : Prop :=
  ∃ md blks content b bl, pages_at r (staring_block fe) md blks content ∧
    blocklist_start md = b ∧ blocklist_at r (b :: bl) blks ∧
    (∀ x, x ∈ b :: bl → x ∉ staring_block fe :: blks) ∧
    ps = blks ++ (b :: bl) ++ [staring_block fe].

(** pages in use outside [B] are unchanged *)
Definition framed (B : list Z) r r' : Prop :=
  ∀ b, in_use r b → b ∉ B → rel_pages r' !! b = rel_pages r !! b.

Lemma framed_trans B B' r r' r'' :
  framed B r r' → framed B' r' r'' → (∀ b, b ∈ B' → b ∈ B ∨ ¬ in_use r b) → framed B r r''.
Proof.
  intros H1' H2' HB b Hb Hn. assert (rel_pages r' !! b = rel_pages r !! b) as Hs by by apply H1'.
  rewrite H2'; [done| |].
  - destruct Hb as (p & Hp & ?). exists p. by rewrite Hs.
  - intros Hin. by destruct (HB b Hin).
Qed.

Lemma deletable_frame r r' fe ps :
  (∀ b, b ∈ ps → rel_pages r' !! b = rel_pages r !! b) → deletable r fe ps → deletable r' fe ps.
Proof.
  intros Hs (md & blks & content & b & bl & Hpa & Hb & (bds & bss & Hc & Hrest) & Hd & ->).
  exists md, blks, content, b, bl. split; [|split; [done|split; [|done]]].
  - destruct Hpa as [(hp & Hhp & Hh) (datas & Hcd & Hf) Hnd Hz Hst Hl Hn]. split; try done.
    + exists hp. rewrite Hs; [done|]. set_solver.
    + exists datas. split; [|done]. eapply chain_frame; [|done]. intros x Hx. apply Hs. set_solver.
  - exists bds, bss. split; [|done]. eapply chain_frame; [|done]. intros x Hx. apply Hs. set_solver.
Qed.

Lemma deletable_in_use r fe ps b : deletable r fe ps → b ∈ ps → in_use r b.
Proof.
  intros (md & blks & content & c & bl & Hpa & _ & (bds & bss & Hc & _) & _ & ->).
  destruct Hpa as [(hp & Hhp & _ & Hu & _) (datas & Hcd & _) _ _ _ _ _].
  intros [Hb|[Hb|Hb]%elem_of_app]%elem_of_app.
  - exact (chain_in_use _ _ _ _ Hcd Hb).
  - exact (chain_in_use _ _ _ _ Hc Hb).
  - apply list_elem_of_singleton in Hb as ->. by exists hp.
Qed.

Lemma delete_file_run r fe ps :
  rel_wf r → deletable r fe ps → ∃ r', delete_file fe r = Ok (tt, r') ∧ deletes ps r r'.
Proof.
  intros Hwf Hd. pose proof Hd as (md & blks & content & b & bl & Hpa0 & _).
  apply (deletable_frame r (upd_cache (λ _, ∅) r)) in Hd; [|done].
  destruct Hd as (md' & blks' & content' & b' & bl' & Hpa & Hb & Hat & Hdisj & ->).
  set (l := opened (staring_block fe) md').
  destruct (list_mark_deleted_run (upd_cache (λ _, ∅) r) l blks' content' b' bl' Hwf Hpa Hb Hat Hdisj)
    as (r' & Hrun & Hdel). exists r'. split; [|done].
  unfold delete_file. rewrite (bind_ok _ _ _ _ _ (open_run _ _ _ _ _ Hpa0)).
  assert (md' = md) as <-; [|done].
  destruct Hpa0 as [(p & Hp & _ & _ & Hm & _) _ _ _ _ _ _], Hpa as [(p' & Hp' & _ & _ & Hm' & _) _ _ _ _ _ _].
  assert (p' = p) as -> by (simpl in *; congruence). congruence.
Qed.

(** the list, the room for [n] more entries, and the files still to be deleted *)
Record committing r blks its md (n : Z) pend : Prop := {
  cm_items : items_at r SEGMENT_METAS_START blks its;
  cm_header : header_at r SEGMENT_METAS_START md;
  cm_ids : NoDup (segment_id <$> concat its);
  cm_room : npages md + n ≤ u32_max ∧ rel_nblocks r + n ≤ InvalidBlockNumber;
  cm_files : Forall (λ fp, deletable r fp.1 fp.2) pend;
  cm_disj : NoDup (concat (snd <$> pend));
  cm_sep : ∀ b, b ∈ concat (snd <$> pend) → b ∉ SEGMENT_METAS_START :: blks
}.

Lemma items_at_frame r r' header blks its :
  (∀ b, b ∈ header :: blks → rel_pages r' !! b = rel_pages r !! b) → rel_wf r' →
  items_at r header blks its → items_at r' header blks its.
Proof.
  intros Hs Hwf [Hc Hnd (md & (hp & Hhp & Hh) & Hst) _]. split; [|done| |done].
  - eapply ichain_frame; [|done]. intros b Hb. apply Hs. by right.
  - exists md. split; [|done]. exists hp. rewrite Hs by left. done.
Qed.
Lemma header_at_frame r r' header md :
  rel_pages r' !! header = rel_pages r !! header → header_at r header md → header_at r' header md.
Proof. intros Hs (hp & Hhp & Hh). exists hp. by rewrite Hs. Qed.

(** the first pending file is deleted *)
Lemma delete_pending r blks its md n fe ps pend :
  committing r blks its md n ((fe, ps) :: pend) →
  ∃ r', delete_file fe r = Ok (tt, r') ∧ committing r' blks its md n pend ∧ framed ps r r'.
Proof.
  intros [Hi Hh Hid Hroom Hf Hdj Hsep]. pose proof Hi as [_ _ _ Hwf].
  apply Forall_cons in Hf as [Hfe Hf]. cbn [fmap list_fmap fst snd concat] in *.
  apply NoDup_app in Hdj as (_ & Hdj & Hnd).
  destruct (delete_file_run r fe ps Hwf Hfe) as (r' & Hrun & Hwf' & Hnb & _ & Hout).
  exists r'. split; [done|]. split; [|intros b _ Hb; by apply Hout].
  assert (∀ b, b ∈ SEGMENT_METAS_START :: blks → rel_pages r' !! b = rel_pages r !! b) as Hs.
  { intros b Hb. apply Hout. intros Hin. apply (Hsep b); [|done]. apply elem_of_app. by left. }
  split; try done.
  - by eapply items_at_frame.
  - eapply header_at_frame; [|done]. apply Hs. left.
  - by rewrite Hnb.
  - apply Forall_forall. intros fp Hfp. rewrite Forall_forall in Hf.
    eapply deletable_frame; [|by apply Hf]. intros b Hb. apply Hout. intros Hin.
    apply (Hdj b Hin), (elem_concat b fp.2); [by apply (list_elem_of_fmap_2 snd)|done].
  - intros b Hb. apply Hsep. apply elem_of_app. by right.
Qed.

Lemma delete_pending_all r blks its md n fps pend :
  committing r blks its md n (fps ++ pend) →
  ∃ r', for_each (fst <$> fps) delete_file r = Ok (tt, r') ∧ committing r' blks its md n pend ∧
    framed (concat (snd <$> fps)) r r'.
Proof.
  revert r. induction fps as [|[fe ps] fps IH]; intros r Hcm.
  { exists r. split; [done|]. split; [done|]. by intros ???. }
  destruct (delete_pending _ _ _ _ _ _ _ _ Hcm) as (r1 & Hrun1 & Hcm1 & Hf1).
  destruct (IH r1 Hcm1) as (r' & Hrun & Hcm' & Hf'). exists r'. cbn [fmap list_fmap for_each fst snd concat].
  rewrite (bind_ok _ _ _ _ _ Hrun1). split; [done|]. split; [done|].
  intros b Hb Hn. rewrite elem_of_app in Hn.
  assert (rel_pages r1 !! b = rel_pages r !! b) as Hs by (apply Hf1; [done|tauto]).
  rewrite Hf'; [done| |tauto]. destruct Hb as (p & ? & ?). exists p. by rewrite Hs.
Qed.

(** a page of the list is rewritten *)
Lemma write_list_page r blks its md n pend k b p es es' pm :
  committing r blks its md n pend → blks !! k = Some b → its !! k = Some es →
  rel_pages r !! b = Some p → pd_special (pm_page pm) = pd_special p → pd_upper (pm_page pm) ≠ 0 →
  pd_linp (pm_page pm) = as_items es' → NoDup (segment_id <$> concat (<[k := es']> its)) →
  committing (written r b pm) blks (<[k := es']> its) md n pend ∧ framed [b] r (written r b pm).
Proof.
  intros [Hi Hh Hid Hroom Hf Hdj Hsep] Hk Hes Hp Hsp Hup Hlp Hid'.
  assert (b ∈ blks) as Hb by by eapply list_elem_of_lookup_2.
  assert (holds (pm_page pm) es') as Hholds.
  { split; [|done]. split; [done|]. rewrite Hsp. destruct Hi as [Hc _ _ _].
    destruct (ichain_lookup _ _ _ _ _ Hc Hk) as (p' & ? & _ & Hp' & [[_ Hx] _] & _).
    assert (p' = p) as -> by congruence. done. }
  destruct (items_write r SEGMENT_METAS_START blks its k b p es es' pm md)
    as (Hi' & Hh' & Hg); [done..|].
  split; [|intros c Hc Hn; by apply Hg]. split; try done.
  apply Forall_forall. intros fp Hfp. rewrite Forall_forall in Hf.
  eapply deletable_frame; [|by apply Hf]. intros c Hc. apply written_lookup_ne. intros ->.
  apply (Hsep b); [|by right].
  apply (elem_concat b fp.2); [by apply (list_elem_of_fmap_2 snd)|done].
Qed.
End commit_state.

(** ** The changes *)

Lemma in_concat_elem {A} (x : A) ls : x ∈ concat ls → ∃ l, l ∈ ls ∧ x ∈ l.
Proof.
  induction ls as [|l ls IH]; simpl; [by intros ?%not_elem_of_nil|].
  intros [Hx|Hx]%elem_of_app; [exists l; split; [left|done]|].
  destruct (IH Hx) as (l' & ? & ?). exists l'. split; [by right|done].
Qed.

Lemma Forall2_impl_elem {A B} (P Q : A → B → Prop) l k :
  Forall2 P l k → (∀ x y, x ∈ l → P x y → Q x y) → Forall2 Q l k.
Proof.
  induction 1 as [|x y l k Hxy _ IH]; intros Hpq; constructor; [apply Hpq; [left|done]|].
  apply IH. intros x' y' Hx'. apply Hpq. by right.
Qed.

Section change_stage.
Context `{TI : TantivyIndex} `{BitPacking, PgPage, PgXact, PgBuffers} `{PgItem SegmentMetaEntry}.
Implicit Types (r : Rel) (e : SegmentMetaEntry) (es olds items : list SegmentMetaEntry) (md : LinkedListData)
  (blks bs ps : list Z) (its : list (list SegmentMetaEntry)) (pend fps : list (FileEntry * list Z)).

Lemma on_page_put blks its e e' b :
  segment_id e ≠ segment_id e' → on_page blks its e b → on_page blks (put e' <$> its) e b.
Proof.
  intros Hne (k & es & Hk & Hes & He). exists k, (put e' es). split; [done|].
  rewrite list_lookup_fmap, Hes. split; [done|]. unfold put. apply list_elem_of_fmap.
  exists e. by rewrite decide_False.
Qed.
Lemma on_page_grown blks blks' its its' e b :
  blks `prefix_of` blks' → grown its its' → on_page blks its e b → on_page blks' its' e b.
Proof.
  intros [l ->] Hg (k & es & Hk & Hes & He). destruct (Hg k es Hes) as [l' Hl'].
  exists k, (es ++ l'). split; [by apply lookup_app_l_Some|]. split; [done|].
  apply elem_of_app. by left.
Qed.

(** the page of an entry, taken apart around it *)
Lemma on_page_split r blks its md n pend e b :
  committing r blks its md n pend → on_page blks its e b →
  ∃ bs post I1 I2 l1 l2 p, blks = bs ++ b :: post ∧ its = I1 ++ (l1 ++ e :: l2) :: I2 ∧
    length bs = length I1 ∧ rel_pages r !! b = Some p ∧ holds p (l1 ++ e :: l2) ∧
    NoDup (segment_id <$> l1 ++ e :: l2).
Proof.
  intros Hcm (k & es & Hk & Hes & He).
  destruct (cm_items _ _ _ _ _ _ Hcm) as [Hc _ _ _].
  destruct (ichain_lookup _ _ _ _ _ Hc Hk) as (p & es' & Hes' & Hp & Hh & _).
  assert (es' = es) as -> by congruence.
  apply list_elem_of_split in He as (l1 & l2 & ->).
  apply list_elem_of_split_length in Hk as (bs & post & -> & ->).
  apply list_elem_of_split_length in Hes as (I1 & I2 & -> & Hlen).
  exists bs, post, I1, I2, l1, l2, p. split_and!; try done.
  pose proof (cm_ids _ _ _ _ _ _ Hcm) as Hnd. rewrite concat_app in Hnd. cbn [concat] in Hnd.
  rewrite !(fmap_app _ (concat I1)) in Hnd. apply NoDup_app in Hnd as (_ & _ & Hnd).
  rewrite (fmap_app _ (l1 ++ _)) in Hnd. by apply NoDup_app in Hnd as (Hnd & _).
Qed.

Lemma concat_middle (I1 I2 : list (list SegmentMetaEntry)) es :
  concat (I1 ++ es :: I2) = concat I1 ++ es ++ concat I2.
Proof. by rewrite concat_app. Qed.

(** a deleted segment: its entry and its files *)
Lemma write_deleted_run r blks its md n fps pend e e' b :
  committing r blks its md n (fps ++ pend) → on_page blks its e b →
  segment_id e' = segment_id e → entry_xmax e' = GetCurrentTransactionId →
  zlen (into_item e') = zlen (into_item e) → fst <$> fps = entry_files e' →
  ∃ r', write_deleted (e', b) r = Ok (tt, r') ∧ committing r' blks (put e' <$> its) md n pend ∧
    framed (blks ++ concat (snd <$> fps)) r r'.
Proof.
  intros Hcm Hon Hid Hx Hsz Hfps.
  destruct (on_page_split _ _ _ _ _ _ _ _ Hcm Hon)
    as (bs & post & I1 & I2 & l1 & l2 & p & Hblks & Hits & Hlen & Hp & Hh & Hnd).
  destruct (replace_entry_run "DELETE:  could not find SegmentMetaEntry" p l1 e l2 e' Hh Hnd Hid)
    as (did & pm & Hrun & Hsp & Hup & Hlp & Hdid). rewrite (Hdid Hsz) in *.
  assert (its !! length bs = Some (l1 ++ e :: l2)) as Hes by (rewrite Hits, Hlen; by apply list_lookup_middle).
  assert (put e' <$> its = <[length bs := l1 ++ e' :: l2]> its) as Hput.
  { rewrite (put_page e' its (length bs) (l1 ++ e :: l2)), put_mid; [done..|apply Hcm|done|].
    rewrite Hid. apply list_elem_of_fmap_2. apply elem_of_app. right. left. }
  destruct (write_list_page r blks its md n (fps ++ pend) (length bs) b p (l1 ++ e :: l2) (l1 ++ e' :: l2) pm)
    as [Hcm1 Hf1]; [done|rewrite Hblks; by apply list_lookup_middle|done..| |].
  { rewrite <- Hput, put_concat, put_ids. apply Hcm. }
  rewrite <- Hput in Hcm1.
  destruct (delete_pending_all _ _ _ _ _ _ _ Hcm1) as (r' & Hrun2 & Hcm2 & Hf2).
  exists r'. split; [|split; [done|]].
  - unfold write_deleted. rewrite Hx, Z.eqb_refl.
    rewrite (bind_ok (assert true _) _ r r tt) by done.
    rewrite (bind_ok (with_page_mut _ _) _ r _ (zlen l1 + 1, true) (with_page_mut_run _ _ _ _ _ _ Hp Hrun)).
    rewrite (bind_ok (assert true _) _ (written r b pm) (written r b pm) tt) by done. by rewrite <- Hfps.
  - eapply framed_trans.
    + intros c Hc Hn. apply Hf1; [done|]. intros ->%list_elem_of_singleton. apply Hn.
      rewrite Hblks. set_solver.
    + exact Hf2.
    + intros c Hc. left. apply elem_of_app. by right.
Qed.

Lemma write_deleted_all r blks its md n fps pend (f : SegmentMetaEntry → SegmentMetaEntry) olds bs :
  committing r blks its md n (fps ++ pend) → Forall2 (on_page blks its) olds bs →
  NoDup (segment_id <$> olds) →
  (∀ e, segment_id (f e) = segment_id e ∧ entry_xmax (f e) = GetCurrentTransactionId ∧
     zlen (into_item (f e)) = zlen (into_item e)) →
  fst <$> fps = (f <$> olds) ≫= entry_files →
  ∃ r' its', for_each (zip (f <$> olds) bs) write_deleted r = Ok (tt, r') ∧
    committing r' blks its' md n pend ∧ concat its' = patch (f <$> olds) (concat its) ∧
    (∀ e b, segment_id e ∉ segment_id <$> olds → on_page blks its e b → on_page blks its' e b) ∧
    framed (blks ++ concat (snd <$> fps)) r r'.
Proof.
  intros Hcm Hon Hnd Hfe. revert r its fps bs Hcm Hon Hnd.
  induction olds as [|e olds IH]; intros r its fps bs Hcm Hon Hnd Hfps.
  { apply Forall2_nil_inv_l in Hon as ->. destruct fps; [|done]. exists r, its.
    split; [done|]. split; [done|]. split; [done|]. split; [done|]. by intros ???. }
  apply Forall2_cons_inv_l in Hon as (b & bs' & Hb & Hon & ->).
  cbn [fmap list_fmap] in Hnd, Hfps. apply NoDup_cons in Hnd as [Hid Hnd].
  rewrite bind_cons in Hfps. apply fmap_app_inv in Hfps as (fps1 & fps2 & Hf1 & Hf2 & ->).
  rewrite <- app_assoc in Hcm. destruct (Hfe e) as (Hide & Hxe & Hse).
  destruct (write_deleted_run r blks its md n fps1 (fps2 ++ pend) e (f e) b Hcm Hb Hide Hxe Hse)
    as (r1 & Hrun1 & Hcm1 & Hfr1); [done|].
  destruct (IH r1 (put (f e) <$> its) fps2 bs') as (r' & its' & Hrun & Hcm' & Hcat & Hon' & Hfr);
    [done| |done|done|].
  { eapply Forall2_impl_elem; [done|]. intros e2 b2 He2 Hp2. apply on_page_put; [|done].
    rewrite Hide. intros Heq. apply Hid. rewrite <- Heq. by apply list_elem_of_fmap_2. }
  exists r', its'. cbn [fmap list_fmap zip zip_with for_each].
  split; [by rewrite (bind_ok _ _ _ _ _ Hrun1)|]. split; [done|]. split; [rewrite Hcat, put_concat; reflexivity|].
  split.
  - intros e2 b2 Hn Hp2. cbn [fmap list_fmap] in Hn. apply not_elem_of_cons in Hn as [Hne Hn].
    apply Hon'; [done|]. apply on_page_put; [by rewrite Hide|done].
  - eapply framed_trans; [|exact Hfr|].
    + intros c Hc Hn. apply Hfr1; [done|]. rewrite fmap_app, concat_app in Hn. set_solver.
    + intros c Hc. left. rewrite fmap_app, concat_app. set_solver.
Qed.

(** more entries for the list, from one of its pages on *)
Lemma add_pending r bs b post its md n items pend :
  committing r (bs ++ b :: post) its md (zlen items + n) pend → 0 ≤ n →
  Forall (λ e, zlen (into_item e) ≤ max_item_size) items →
  NoDup (segment_id <$> concat its ++ items) →
  ∃ r' blks' its' md', add_items_from SEGMENT_METAS_START b items r = Ok (tt, r') ∧
    committing r' blks' its' md' n pend ∧ concat its' ≡ₚ concat its ++ items ∧
    grown its its' ∧ (bs ++ b :: post) `prefix_of` blks' ∧
    framed (SEGMENT_METAS_START :: bs ++ b :: post) r r' ∧
    (∀ c, c ∈ blks' → c ∈ bs ++ b :: post ∨ ¬ in_use r c).
Proof.
  intros [Hi Hh Hid [Hr1 Hr2] Hf Hdj Hsep] Hn Hsize Hnd.
  destruct (add_items_from_spec items r SEGMENT_METAS_START bs b post its md Hi Hh ltac:(lia) ltac:(lia) Hsize)
    as (r' & blks' & its' & Hrun & Hi' & Hperm & Hpre & Hg & Hfresh & (md' & Hh' & Hnp) & Hgrown).
  pose proof (grows_nblocks _ _ _ _ Hg).
  exists r', blks', its', md'. split; [done|]. split; [|split_and!; try done; intros c Hc Hno; by apply Hg].
  assert (∀ fp c, fp ∈ pend → c ∈ fp.2 → in_use r c ∧ c ∉ SEGMENT_METAS_START :: bs ++ b :: post) as Huse.
  { intros fp c Hfp Hc. split.
    - rewrite Forall_forall in Hf. eapply deletable_in_use; [by apply Hf|done].
    - apply Hsep, (elem_concat c fp.2); [by apply (list_elem_of_fmap_2 snd)|done]. }
  split; try done.
  - by rewrite Hperm.
  - lia.
  - apply Forall_forall. intros fp Hfp. rewrite Forall_forall in Hf.
    eapply deletable_frame; [|by apply Hf]. intros c Hc. destruct (Huse fp c Hfp Hc). by apply Hg.
  - intros c Hc Hin. apply in_concat_elem in Hc as (ps & Hps & Hc).
    apply list_elem_of_fmap in Hps as (fp & -> & Hfp). destruct (Huse fp c Hfp Hc) as [Hu Hout].
    apply elem_of_cons in Hin as [->|Hin]; [apply Hout; left|].
    destruct (Hfresh c Hin); [|done]. apply Hout. by right.
Qed.
End change_stage.

(** ** Modified segments *)

Section modify_stage.
Context `{TI : TantivyIndex} `{BitPacking, PgPage, PgXact, PgBuffers} `{PgItem SegmentMetaEntry}.
Implicit Types (r : Rel) (e : SegmentMetaEntry) (es olds items : list SegmentMetaEntry) (md : LinkedListData)
  (blks bs ps : list Z) (its : list (list SegmentMetaEntry)) (pend fps : list (FileEntry * list Z)).

Lemma committing_weaken r blks its md n n' pend :
  n' ≤ n → committing r blks its md n pend → committing r blks its md n' pend.
Proof. intros Hn [? ? ? [? ?] ? ? ?]. split; try done. lia. Qed.

Lemma put_fresh_cons e e' es :
  segment_id e' = segment_id e → segment_id e ∉ segment_id <$> es → put e' (e :: es) = e' :: es.
Proof.
  intros Hid Hn. unfold put. cbn [fmap list_fmap]. rewrite decide_True by done. f_equal.
  apply put_other. by rewrite Hid.
Qed.

(** the entry fits in its place *)
Lemma modify_in_place r blks its md n pend e e' b bs post I1 I2 l1 l2 p pm :
  committing r blks its md n pend → segment_id e' = segment_id e →
  blks = bs ++ b :: post → its = I1 ++ (l1 ++ e :: l2) :: I2 → length bs = length I1 →
  rel_pages r !! b = Some p → NoDup (segment_id <$> l1 ++ e :: l2) →
  pd_special (pm_page pm) = pd_special p → pd_upper (pm_page pm) ≠ 0 →
  pd_linp (pm_page pm) = as_items (l1 ++ e' :: l2) →
  committing (written r b pm) blks (put e' <$> its) md n pend ∧ framed [b] r (written r b pm).
Proof.
  intros Hcm Hid Hblks Hits Hlen Hp Hnd Hsp Hup Hlp.
  assert (its !! length bs = Some (l1 ++ e :: l2)) as Hes by (rewrite Hits, Hlen; by apply list_lookup_middle).
  assert (put e' <$> its = <[length bs := l1 ++ e' :: l2]> its) as Hput.
  { rewrite (put_page e' its (length bs) (l1 ++ e :: l2)), put_mid; [done..|apply Hcm|done|].
    rewrite Hid. apply list_elem_of_fmap_2. apply elem_of_app. right. left. }
  rewrite Hput. eapply write_list_page; try done.
  - rewrite Hblks. by apply list_lookup_middle.
  - rewrite <- Hput, put_concat, put_ids. apply Hcm.
Qed.

(** the entry does not fit: it is taken off its page *)
Lemma take_off_page r blks its md n pend e b bs post I1 I2 l1 l2 p :
  committing r blks its md n pend →
  blks = bs ++ b :: post → its = I1 ++ (l1 ++ e :: l2) :: I2 → length bs = length I1 →
  rel_pages r !! b = Some p → holds p (l1 ++ e :: l2) →
  let pm := delete_item {| pm_page := p; pm_dirty := false |} (zlen l1 + 1) in
  let its1 := I1 ++ (l1 ++ l2) :: I2 in
  committing (written r b pm) blks its1 md n pend ∧ framed [b] r (written r b pm) ∧
  concat its ≡ₚ e :: concat its1 ∧
  (∀ e2 b2, e2 ≠ e → on_page blks its e2 b2 → on_page blks its1 e2 b2).
Proof.
  intros Hcm Hblks Hits Hlen Hp [[Hup Hx] Hl] pm its1.
  assert (its !! length bs = Some (l1 ++ e :: l2)) as Hes by (rewrite Hits, Hlen; by apply list_lookup_middle).
  assert (its1 = <[length bs := l1 ++ l2]> its) as Hits1.
  { unfold its1. by rewrite Hits, Hlen, insert_middle. }
  assert (concat its ≡ₚ e :: concat its1) as Hperm.
  { unfold its1. rewrite Hits, !concat_middle, <- !app_assoc. cbn [app].
    rewrite !(app_assoc (concat I1) l1). symmetry. apply Permutation_middle. }
  pose proof (zlen_nonneg l1). pose proof (zlen_nonneg l2).
  destruct (PageTupleDelete_spec p (zlen l1 + 1)) as [Hsp Hlp].
  { rewrite Hl, zlen_as_items, zlen_app, zlen_cons. lia. }
  assert (Z.to_nat (zlen l1 + 1 - 1) = length l1) as Hk by (unfold zlen; lia).
  assert (pd_linp (pm_page pm) = as_items (l1 ++ l2)) as Hlp'.
  { simpl. rewrite Hlp, Hk, Hl, !as_items_app.
    change (as_items (e :: l2)) with (normal_item (into_item e) :: as_items l2).
    replace (length l1) with (length (as_items l1)) by (unfold as_items; apply length_fmap).
    apply delete_middle'. }
  destruct (write_list_page r blks its md n pend (length bs) b p (l1 ++ e :: l2) (l1 ++ l2) pm)
    as [Hcm1 Hf1]; [done|rewrite Hblks; by apply list_lookup_middle|done|done|done| |done| |].
  { simpl. by apply PageTupleDelete_upper. }
  { rewrite <- Hits1. pose proof (cm_ids _ _ _ _ _ _ Hcm) as Hnd. rewrite Hperm in Hnd.
    cbn [fmap list_fmap] in Hnd. by apply NoDup_cons in Hnd as [_ ?]. }
  rewrite <- Hits1 in Hcm1. split; [done|]. split; [done|]. split; [done|].
  intros e2 b2 Hne (k & es & Hk2 & Hes2 & He2). rewrite Hits1.
  pose proof (lookup_lt_Some _ _ _ Hes).
  destruct (decide (k = length bs)) as [->|Hnk].
  - exists (length bs), (l1 ++ l2). split; [done|]. rewrite list_lookup_insert_eq by done. split; [done|].
    assert (es = l1 ++ e :: l2) as -> by congruence. set_solver.
  - exists k, es. by rewrite list_lookup_insert_ne by done.
Qed.

Lemma write_modified_run r blks its md n pend e e' b :
  committing r blks its md (1 + n) pend → 0 ≤ n → on_page blks its e b →
  segment_id e' = segment_id e → zlen (into_item e') ≤ max_item_size →
  ∃ r' blks' its' md', write_modified (e', b) r = Ok (tt, r') ∧
    committing r' blks' its' md' n pend ∧ concat its' ≡ₚ put e' (concat its) ∧
    (∀ e2 b2, segment_id e2 ≠ segment_id e → on_page blks its e2 b2 → on_page blks' its' e2 b2) ∧
    framed (SEGMENT_METAS_START :: blks) r r' ∧ (∀ c, c ∈ blks' → c ∈ blks ∨ ¬ in_use r c).
Proof.
  intros Hcm Hn Hon Hid Hsz.
  destruct (on_page_split _ _ _ _ _ _ _ _ Hcm Hon)
    as (bs & post & I1 & I2 & l1 & l2 & p & Hblks & Hits & Hlen & Hp & Hh & Hnd).
  destruct (replace_entry_run "MODIFY:  could not find SegmentMetaEntry" p l1 e l2 e' Hh Hnd Hid)
    as (did & pm & Hrun & Hsp & Hup & Hlp & _).
  set (pm' := if did then pm else delete_item pm (zlen l1 + 1)).
  assert (with_page_mut b (λ pm, '(offno, did_replace, pm) ←
             replace_entry "MODIFY:  could not find SegmentMetaEntry" e' pm;
             Ok (did_replace : bool, if (did_replace : bool) then pm else delete_item pm offno)) r =
          Ok (did, written r b pm')) as Hpage.
  { eapply with_page_mut_run; [done|]. by rewrite Hrun. }
  unfold write_modified. rewrite (bind_ok _ _ _ _ _ Hpage). destruct did; subst pm'.
  - destruct (modify_in_place r blks its md (1 + n) pend e e' b bs post I1 I2 l1 l2 p pm) as [Hcm' Hf]; [done..|].
    exists (written r b pm), blks, (put e' <$> its), md. split; [done|].
    split; [by eapply committing_weaken; [|done]; lia|]. split; [by rewrite put_concat|].
    split; [|split; [|by left]].
    + intros e2 b2 Hne Hp2. apply on_page_put; [by rewrite Hid|done].
    + intros c Hc Hno. apply Hf; [done|]. intros ->%list_elem_of_singleton. apply Hno.
      rewrite Hblks. set_solver.
  - destruct (take_off_page r blks its md (1 + n) pend e b bs post I1 I2 l1 l2 p)
      as (Hcm1 & Hf1 & Hperm & Hon1); [done..|].
    set (pm1 := delete_item {| pm_page := p; pm_dirty := false |} (zlen l1 + 1)) in *.
    assert (delete_item pm (zlen l1 + 1) = pm1) as -> by (unfold delete_item, update_page; by rewrite Hlp).
    set (its1 := I1 ++ (l1 ++ l2) :: I2) in *. rewrite Hblks in Hcm1.
    pose proof (cm_ids _ _ _ _ _ _ Hcm) as Hnd'. rewrite Hperm in Hnd'. cbn [fmap list_fmap] in Hnd'.
    destruct (add_pending (written r b pm1) bs b post its1 md n [e'] pend) as
      (r' & blks' & its' & md' & Hrun2 & Hcm2 & Hperm2 & Hgrown & Hpre & Hf2 & Hfresh);
      [done|done|by constructor| |].
    { rewrite Permutation_app_comm. cbn [app fmap list_fmap]. by rewrite Hid. }
    exists r', blks', its', md'. split; [done|]. split; [done|]. rewrite <- Hblks in *.
    apply NoDup_cons in Hnd' as [Hnid _].
    split; [|split; [|split]].
    + rewrite Hperm2, Hperm, put_fresh_cons by done. by rewrite Permutation_app_comm.
    + intros e2 b2 Hne Hp2. eapply on_page_grown; [done|done|]. apply Hon1; [|done]. by intros ->.
    + eapply framed_trans; [|exact Hf2|by left].
      intros c Hc Hno. apply Hf1; [done|]. intros ->%list_elem_of_singleton. apply Hno.
      rewrite Hblks. set_solver.
    + intros c Hc. destruct (Hfresh c Hc) as [|Hno]; [by left|].
      destruct (decide (c = b)) as [->|Hcb]; [left; rewrite Hblks; set_solver|right].
      intros (pc & Hpc & Hu). apply Hno. exists pc. by rewrite written_lookup_ne.
Qed.

Lemma write_modified_all r blks its md n pend (f : SegmentMetaEntry → SegmentMetaEntry) olds bs :
  committing r blks its md (zlen olds + n) pend → 0 ≤ n → Forall2 (on_page blks its) olds bs →
  NoDup (segment_id <$> olds) →
  (∀ e, segment_id (f e) = segment_id e) → Forall (λ e, zlen (into_item (f e)) ≤ max_item_size) olds →
  ∃ r' blks' its' md', for_each (zip (f <$> olds) bs) write_modified r = Ok (tt, r') ∧
    committing r' blks' its' md' n pend ∧ concat its' ≡ₚ patch (f <$> olds) (concat its) ∧
    framed (SEGMENT_METAS_START :: blks) r r' ∧ (∀ c, c ∈ blks' → c ∈ blks ∨ ¬ in_use r c).
Proof.
  intros Hcm Hn Hon Hnd Hfe Hsz. revert r blks its md bs Hcm Hon Hnd.
  induction Hsz as [|e olds Hse Hsz IH]; intros r blks its md bs Hcm Hon Hnd.
  { apply Forall2_nil_inv_l in Hon as ->. exists r, blks, its, md. split; [done|]. split; [done|].
    split; [done|]. split; [by intros ???|by left]. }
  apply Forall2_cons_inv_l in Hon as (b & bs' & Hb & Hon & ->).
  cbn [fmap list_fmap] in Hnd. apply NoDup_cons in Hnd as [Hid Hnd].
  pose proof (zlen_nonneg olds). rewrite zlen_cons in Hcm.
  replace (1 + zlen olds + n) with (1 + (zlen olds + n)) in Hcm by lia.
  destruct (write_modified_run r blks its md (zlen olds + n) pend e (f e) b Hcm ltac:(lia) Hb (Hfe e) Hse)
    as (r1 & blks1 & its1 & md1 & Hrun1 & Hcm1 & Hp1 & Hon1 & Hf1 & Hfr1).
  destruct (IH r1 blks1 its1 md1 bs' Hcm1) as (r' & blks' & its' & md' & Hrun & Hcm' & Hp & Hf & Hfr); [|done|].
  { eapply Forall2_impl_elem; [done|]. intros e2 b2 He2 Hp2. apply Hon1; [|done].
    intros Heq. apply Hid. rewrite <- Heq. by apply list_elem_of_fmap_2. }
  exists r', blks', its', md'. cbn [fmap list_fmap zip zip_with for_each].
  split; [by rewrite (bind_ok _ _ _ _ _ Hrun1)|]. split; [done|].
  split; [rewrite Hp, Hp1; reflexivity|].
  assert (∀ c, ¬ in_use r1 c → c ∈ blks ∨ c = SEGMENT_METAS_START ∨ ¬ in_use r c) as Hback.
  { intros c Hno. destruct (decide (c ∈ SEGMENT_METAS_START :: blks)) as [Hc|Hc]; [set_solver|].
    right. right. intros (p & Hpp & Hu). apply Hno. exists p. rewrite Hf1; [done| |done]. by exists p. }
  split.
  - eapply framed_trans; [exact Hf1|exact Hf|]. intros c [->|Hc]%elem_of_cons; [left; left|].
    destruct (Hfr1 c Hc); [left; by right|by right].
  - intros c Hc. destruct (Hfr c Hc) as [Hc1|Hno]; [by apply Hfr1|].
    destruct (Hback c Hno) as [|[->|]]; [by left| |by right]. exfalso.
    destruct (cm_items _ _ _ _ _ _ Hcm') as [_ Hndb _ _]. by apply NoDup_cons in Hndb as [? _].
Qed.
End modify_stage.

(** ** The commit *)

Section commit.
Context `{TI : TantivyIndex} `{!TantivySegments} `{!HashOrder} `{BitPacking, PgPage, PgXact, PgBuffers}.
Context `{PgItem SegmentMetaEntry} `{!FrozenSameSize SegmentMetaEntry} `{!XmaxSameSize}.
Implicit Types (r : Rel) (e : SegmentMetaEntry) (es ps : list SegmentMetaEntry) (id : SegmentId)
  (segments prev : list SegmentMeta) (files : FileMap) (its : list (list SegmentMetaEntry)).

Lemma patch_lookup ps es :
  NoDup (segment_id <$> ps) → patch ps es = (λ e, default e (entry_of ps (segment_id e))) <$> es.
Proof.
  revert es. induction ps as [|p ps IH]; intros es Hnd.
  { unfold patch. simpl. by rewrite list_fmap_id. }
  cbn [fmap list_fmap] in Hnd. apply NoDup_cons in Hnd as [Hn Hnd].
  unfold patch. cbn [foldl flip]. fold (patch ps (put p es)). rewrite IH by done.
  unfold put. rewrite <- list_fmap_compose. apply list_fmap_ext. intros i e _. simpl.
  unfold entry_of at 2. cbn [first_match]. case_decide as Hid.
  - rewrite bool_decide_true by done. simpl. destruct (entry_of ps (segment_id p)) as [e'|] eqn:He; [|done].
    apply entry_of_elem in He as [He Hid']. exfalso. apply Hn. rewrite <- Hid'.
    by apply list_elem_of_fmap_2.
  - rewrite bool_decide_false by done. done.
Qed.

Lemma entry_of_changed (h : SegmentMetaEntry → SegmentMetaEntry) es ids id :
  (∀ e, segment_id (h e) = segment_id e) →
  entry_of (h <$> omap (entry_of es) ids) id =
  if decide (id ∈ ids) then h <$> entry_of es id else None.
Proof.
  intros Hh. induction ids as [|i ids IH].
  { rewrite decide_False by apply not_elem_of_nil. done. }
  cbn [omap list_omap]. destruct (entry_of es i) as [e|] eqn:He.
  - cbn [fmap list_fmap]. unfold entry_of at 1. cbn [first_match]. fold (entry_of (h <$> omap (entry_of es) ids) id).
    apply entry_of_elem in He as Hid. destruct Hid as [_ Hid]. rewrite Hh, Hid.
    destruct (decide (i = id)) as [->|Hne].
    + rewrite bool_decide_true, decide_True by (done || left). by rewrite He.
    + rewrite bool_decide_false by done. rewrite IH. apply decide_ext. rewrite elem_of_cons. naive_solver.
  - rewrite IH. destruct (decide (id = i)) as [->|Hne].
    + rewrite He, (decide_True (P:=i ∈ i :: ids)) by left. by case_decide.
    + apply decide_ext. rewrite elem_of_cons. naive_solver.
Qed.

Lemma found_ids es ids : NoDup ids → NoDup (segment_id <$> omap (entry_of es) ids).
Proof.
  induction 1 as [|i ids Hn _ IH]; [constructor|]. cbn [omap list_omap].
  destruct (entry_of es i) as [e|] eqn:He; [|done]. cbn [fmap list_fmap]. constructor; [|done].
  apply entry_of_elem in He as [_ Hid]. rewrite Hid. intros Hin.
  apply list_elem_of_fmap in Hin as (e' & Heq & Hin). apply list_elem_of_omap in Hin as (i' & Hi' & He').
  apply entry_of_elem in He' as [_ Hid']. congruence.
Qed.

Lemma modified_entry_id segments files e : segment_id (modified_entry segments files e) = segment_id e.
Proof.
  unfold modified_entry. destruct (seg_of segments (segment_id e)); [|done]. cbn [mbind option_bind].
  destruct (files !! segment_id e) as [fs|]; [|done]. cbn [mbind option_bind]. by destruct (fs !! Delete).
Qed.

(** the ids [save_new_metas] works on *)
Definition created_ids segments prev : list SegmentId := set_iter (segment_ids segments ∖ segment_ids prev).
Definition deleted_ids segments prev : list SegmentId := set_iter (segment_ids prev ∖ segment_ids segments).
Definition modified_ids segments prev files : list SegmentId :=
  filter (λ id, is_Some (files !! id)) (set_iter (segment_ids prev ∩ segment_ids segments)).

Lemma elem_of_set_iter (s : gset SegmentId) id : id ∈ set_iter s ↔ id ∈ s.
Proof. by rewrite set_iter_perm, elem_of_elements. Qed.
Lemma NoDup_set_iter (s : gset SegmentId) : NoDup (set_iter s).
Proof. rewrite set_iter_perm. apply NoDup_elements. Qed.

(** replacing the deleted and the modified entries is [committed] *)
Lemma patch_committed segments prev files es :
  NoDup (segment_id <$> es) →
  patch (modified_entry segments files <$> omap (entry_of es) (modified_ids segments prev files))
    (patch (set_xmax GetCurrentTransactionId <$> omap (entry_of es) (deleted_ids segments prev)) es) =
  committed segments prev files <$> es.
Proof.
  intros Hnd. rewrite !patch_lookup.
  2: { rewrite <- list_fmap_compose. apply found_ids, NoDup_set_iter. }
  2: { rewrite <- list_fmap_compose. erewrite (list_fmap_ext _ segment_id);
       [apply found_ids, NoDup_filter, NoDup_set_iter|intros; apply modified_entry_id]. }
  rewrite <- list_fmap_compose. apply list_fmap_ext. intros i e He%list_elem_of_lookup_2. simpl.
  rewrite (entry_of_changed (set_xmax GetCurrentTransactionId) es _ (segment_id e)) by done.
  rewrite (entry_of_id es e) by done. unfold committed, deleted_ids. cbn zeta. simpl.
  set (d := if decide (segment_id e ∈ set_iter _) then _ else _).
  assert (segment_id (default e d) = segment_id e) as Hd.
  { subst d. by destruct (decide (segment_id e ∈ _)). }
  rewrite Hd, entry_of_changed by apply modified_entry_id. rewrite entry_of_id by done. subst d.
  unfold modified_ids.
  destruct (decide (segment_id e ∈ segment_ids prev ∖ segment_ids segments)) as [Hdel|Hdel].
  - rewrite (decide_True (P:=segment_id e ∈ set_iter _)) by by apply elem_of_set_iter.
    rewrite decide_False; [done|]. rewrite list_elem_of_filter, elem_of_set_iter. set_solver.
  - rewrite (decide_False (P:=segment_id e ∈ set_iter _)) by by rewrite elem_of_set_iter.
    simpl. destruct (decide (segment_id e ∈ segment_ids prev ∩ segment_ids segments)) as [Hmod|Hmod].
    + destruct (files !! segment_id e) as [fs|] eqn:Hfs.
      * rewrite decide_True; [done|]. rewrite list_elem_of_filter, elem_of_set_iter. by rewrite Hfs.
      * rewrite decide_False; [|rewrite list_elem_of_filter, Hfs; by intros [[? ?] _]].
        unfold modified_entry. destruct (seg_of segments (segment_id e)); [|done].
        cbn [mbind option_bind]. by rewrite Hfs.
    + rewrite decide_False; [done|]. rewrite list_elem_of_filter, elem_of_set_iter. set_solver.
Qed.

(** what a commit relies on: the entries of the previous segments are on the list,
    the new files parse, the files to be deleted are on pages of their own, and there
    is room for the new entries *)
Record commit_ready r (blks : list Z) its md segments prev (de : gmap string FileEntry) files
    (pend : list (FileEntry * list Z)) : Prop := {
  cr_files : organize (drain de) ∅ = Ok files;
  cr_deleted id : id ∈ deleted_ids segments prev → is_Some (entry_of (concat its) id);
  cr_modified id : id ∈ modified_ids segments prev files →
    delete_only files id ∧ is_Some (entry_of (concat its) id);
  cr_created e : e ∈ concat its → segment_id e ∉ created_ids segments prev;
  cr_pend : fst <$> pend =
    (omap (entry_of (concat its)) (deleted_ids segments prev) ≫= entry_files) ++
    (file_entry <$> (omap (entry_of (concat its)) (modified_ids segments prev files)
                       ≫= λ e, option_list (delete e)));
  cr_state : committing r blks its md
    (zlen (omap (entry_of (concat its)) (modified_ids segments prev files)) +
     zlen (created_of segments files (created_ids segments prev))) pend;
  cr_sizes : Forall (λ e, zlen (into_item e) ≤ max_item_size)
    ((modified_entry segments files <$> omap (entry_of (concat its)) (modified_ids segments prev files)) ++
     created_of segments files (created_ids segments prev))
}.

Lemma for_each_fmap {S A B} (f : A → B) (l : list A) (body : B → M S unit) s :
  for_each (f <$> l) body s = for_each l (λ x, body (f x)) s.
Proof.
  revert s. induction l as [|x l IH]; intros s; [done|]. cbn [fmap list_fmap for_each].
  unfold mbind, M_bind. destruct (body (f x) s) as [[[] s']| | |]; [apply IH|done..].
Qed.

Lemma created_of_ids segments files ids :
  NoDup ids → NoDup (segment_id <$> created_of segments files ids) ∧
  (∀ e, e ∈ created_of segments files ids → segment_id e ∈ ids).
Proof.
  intros Hnd. assert (∀ e, e ∈ created_of segments files ids → segment_id e ∈ ids) as Hin.
  { intros e He. apply list_elem_of_omap in He as (id & Hid & He).
    destruct (seg_of segments id); [|done]. cbn [mbind option_bind] in He.
    destruct (files !! id); [|done]. by injection He as <-. }
  split; [|done]. clear Hin. induction Hnd as [|id ids Hn _ IH]; [constructor|].
  unfold created_of in *. cbn [omap list_omap].
  destruct (seg_of segments id); [|done]. cbn [mbind option_bind].
  destruct (files !! id); [|done]. cbn [mbind option_bind fmap list_fmap]. constructor; [|done].
  simpl. intros Hin. apply list_elem_of_fmap in Hin as (e & Heq & Hin).
  apply list_elem_of_omap in Hin as (id' & Hid' & He).
  destruct (seg_of segments id'); [|done]. cbn [mbind option_bind] in He.
  destruct (files !! id'); [|done]. injection He as <-. simpl in Heq. congruence.
Qed.
End commit.

Section commit_run.
Context `{TI : TantivyIndex} `{!TantivySegments} `{!HashOrder} `{BitPacking, PgPage, PgXact, PgBuffers}.
Context {Schema IndexSettings : Type}.
Context `{PgItem SegmentMetaEntry} `{!FrozenSameSize SegmentMetaEntry} `{!XmaxSameSize}.
Implicit Types (r : Rel) (e : SegmentMetaEntry) (es : list SegmentMetaEntry) (files : FileMap)
  (segments prev : list SegmentMeta) (its : list (list SegmentMetaEntry)).

Lemma committing_cache r blks its md n pend :
  committing r blks its md n pend → committing (upd_cache (λ _, ∅) r) blks its md n pend.
Proof.
  intros [Hi Hh ? ? Hf ? ?]. split; try done.
  - by eapply items_at_same; [| |exact Hi]; [|apply Hi].
  - eapply Forall_impl; [exact Hf|]. intros fp. by apply deletable_frame.
Qed.

Lemma deleted_files x es : (set_xmax x <$> es) ≫= entry_files = es ≫= entry_files.
Proof.
  induction es as [|e es IH]; [done|]. cbn [fmap list_fmap]. by rewrite !bind_cons, IH.
Qed.

(** the part of [save_new_metas] that only reads *)
Lemma commit_reads r blks its md segments prev de files pend :
  commit_ready r blks its md segments prev de files pend →
  let es := concat its in
  let dolds := omap (entry_of es) (deleted_ids segments prev) in
  let molds := omap (entry_of es) (modified_ids segments prev files) in
  ∃ files1 files2 dbs mbs,
    create_entries segments (created_ids segments prev) files =
      Ok (created_of segments files (created_ids segments prev), files1) ∧
    modify_entries segments (modified_ids segments prev files) files1 r =
      Ok ((zip (modified_entry segments files <$> molds) mbs, molds ≫= λ e, option_list (delete e), files2), r) ∧
    delete_entries (deleted_ids segments prev) r =
      Ok (zip (set_xmax GetCurrentTransactionId <$> dolds) dbs, r) ∧
    Forall2 (on_page blks its) dolds dbs ∧ Forall2 (on_page blks its) molds mbs.
Proof.
  intros [Horg Hdel Hmod Hcre Hpend Hst Hsz] es dolds molds. pose proof (cm_items _ _ _ _ _ _ Hst) as Hi.
  destruct (create_entries_spec segments (created_ids segments prev) files) as (files1 & Hrun1 & Hf1).
  { apply NoDup_set_iter. }
  { intros id Hid. apply seg_of_new. apply elem_of_set_iter in Hid. set_solver. }
  assert (∀ id, id ∈ modified_ids segments prev files → files1 !! id = files !! id) as Hf.
  { intros id Hid. apply Hf1. apply list_elem_of_filter in Hid as [_ Hid].
    apply elem_of_set_iter in Hid. unfold created_ids. rewrite elem_of_set_iter. set_solver. }
  destruct (modify_entries_spec r blks its segments (modified_ids segments prev files) files1 Hi)
    as (mbs & files2 & Hrun2 & Hon2).
  { apply NoDup_filter, NoDup_set_iter. }
  { intros id Hid. destruct (Hmod id Hid) as [(fs & Hfs & ?) ?]. split; [|split; [|done]].
    - apply list_elem_of_filter in Hid as [_ Hid]. apply elem_of_set_iter in Hid.
      apply seg_of_new. set_solver.
    - exists fs. by rewrite Hf. }
  destruct (delete_entries_spec r blks its (deleted_ids segments prev) Hi Hdel) as (dbs & Hrun3 & Hon3).
  exists files1, files2, dbs, mbs. split; [done|]. split; [|done]. rewrite Hrun2.
  do 4 f_equal. f_equal. apply list_fmap_ext. intros i e He%list_elem_of_lookup_2.
  apply list_elem_of_omap in He as (id & Hid & He). apply entry_of_elem in He as [_ <-].
  unfold modified_entry. by rewrite Hf.
Qed.

(** the part that writes, up to the garbage collection *)
Lemma commit_writes r blks its md segments prev de files pend dbs mbs :
  commit_ready r blks its md segments prev de files pend →
  let es := concat its in
  let dolds := omap (entry_of es) (deleted_ids segments prev) in
  let molds := omap (entry_of es) (modified_ids segments prev files) in
  Forall2 (on_page blks its) dolds dbs → Forall2 (on_page blks its) molds mbs →
  ∃ r' blks' its',
    (_ ← for_each (zip (set_xmax GetCurrentTransactionId <$> dolds) dbs) write_deleted;
     _ ← for_each (zip (modified_entry segments files <$> molds) mbs) write_modified;
     _ ← for_each (molds ≫= λ e, option_list (delete e)) (λ d, delete_file (file_entry d));
     add_items SEGMENT_METAS_START (created_of segments files (created_ids segments prev)) None) r =
    Ok (tt, r') ∧
    items_at r' SEGMENT_METAS_START blks' its' ∧ concat its' ≡ₚ commit_spec segments prev files es ∧
    framed (SEGMENT_METAS_START :: blks ++ concat (snd <$> pend)) r r' ∧
    (∀ b, b ∈ blks' → b ∈ SEGMENT_METAS_START :: blks ++ concat (snd <$> pend) ∨ ¬ in_use r b).
Proof.
  intros [Horg Hdel Hmod Hcre Hpend Hst Hsz] es dolds molds Hd Hm.
  apply fmap_app_inv in Hpend as (fps1 & fps2 & Hf1 & Hf2 & ->).
  assert (NoDup (segment_id <$> dolds)) as Hnd1 by apply found_ids, NoDup_set_iter.
  assert (NoDup (segment_id <$> molds)) as Hnd2 by apply found_ids, NoDup_filter, NoDup_set_iter.
  apply Forall_app in Hsz as [Hsz1 Hsz2].
  destruct (write_deleted_all r blks its md _ fps1 fps2 (set_xmax GetCurrentTransactionId) dolds dbs Hst Hd Hnd1)
    as (r1 & its1 & Hrun1 & Hcm1 & Hcat1 & Hon1 & Hfr1).
  { intros e. split; [done|]. split; [done|]. apply xmax_same_size. }
  { rewrite <- Hf1. symmetry. apply deleted_files. }
  destruct (write_modified_all r1 blks its1 md (zlen (created_of segments files (created_ids segments prev))) fps2
    (modified_entry segments files) molds mbs)
    as (r2 & blks2 & its2 & md2 & Hrun2 & Hcm2 & Hcat2 & Hfr2 & Hfresh2).
  - done.
  - apply zlen_nonneg.
  - eapply Forall2_impl_elem; [exact Hm|]. intros e b He Hb. apply Hon1; [|done].
    intros Hin. apply list_elem_of_fmap in Hin as (e' & Heq & Hin).
    apply list_elem_of_omap in He as (id & Hid & He). apply list_elem_of_omap in Hin as (id' & Hid' & He').
    apply entry_of_elem in He as [_ He]. apply entry_of_elem in He' as [_ He'].
    apply list_elem_of_filter in Hid as [_ Hid]. apply elem_of_set_iter in Hid, Hid'.
    assert (id = id') as -> by congruence. apply elem_of_intersection in Hid as [_ Hid].
    by apply elem_of_difference in Hid' as [_ Hid'].
  - done.
  - apply modified_entry_id.
  - apply Forall_forall. intros e He. rewrite Forall_forall in Hsz1.
    apply Hsz1. by apply (list_elem_of_fmap_2 (modified_entry segments files)).
  - destruct (delete_pending_all r2 blks2 its2 md2 (zlen (created_of segments files (created_ids segments prev))) fps2 [])
      as (r3 & Hrun3 & Hcm3 & Hfr3); [by rewrite app_nil_r|].
    destruct (items_start_run _ _ _ _ (cm_items _ _ _ _ _ _ Hcm3)) as (b0 & bs0 & -> & Hrun0).
    assert (concat its2 ≡ₚ committed segments prev files <$> es) as Hpc.
    { rewrite Hcat2, Hcat1. unfold es, molds, dolds.
      rewrite (patch_committed segments prev files (concat its)) by apply Hst. done. }
    assert (concat its2 ++ created_of segments files (created_ids segments prev) ≡ₚ commit_spec segments prev files es)
      as Hspec.
    { unfold commit_spec. by rewrite Hpc. }
    destruct (created_of_ids segments files (created_ids segments prev)) as [Hcn Hcin]; [apply NoDup_set_iter|].
    destruct (add_pending r3 [] b0 bs0 its2 md2 0 (created_of segments files (created_ids segments prev)) [])
      as (r4 & blks4 & its4 & md4 & Hrun4 & Hcm4 & Hcat4 & _ & _ & Hfr4 & Hfresh4).
    + by rewrite Z.add_0_r.
    + done.
    + done.
    + rewrite fmap_app. apply NoDup_app. split; [apply Hcm3|]. split; [|done].
      intros id Hid Hin. rewrite Hpc, <- list_fmap_compose in Hid.
      apply list_elem_of_fmap in Hid as (e & -> & He). simpl in Hin.
      assert (segment_id (committed segments prev files e) = segment_id e) as Hide.
      { unfold committed. case_decide; [done|]. case_decide; [|done]. apply modified_entry_id. }
      rewrite Hide in Hin. apply list_elem_of_fmap in Hin as (e' & Heq & He').
      apply (Hcre e He). rewrite Heq. by apply Hcin.
    + exists r4, blks4, its4. split.
      { rewrite (bind_ok _ _ _ _ _ Hrun1), (bind_ok _ _ _ _ _ Hrun2).
        rewrite (bind_ok (for_each _ _) _ r2 r3 tt).
        2: { rewrite <- Hrun3, <- Hf2. symmetry. apply for_each_fmap. }
        unfold add_items. by rewrite (bind_ok _ _ _ _ _ Hrun0). }
      split; [apply Hcm4|]. split; [by rewrite Hcat4|].
      assert (∀ c, in_use r c → c ∉ SEGMENT_METAS_START :: blks ++ concat (snd <$> fps1 ++ fps2) →
              rel_pages r3 !! c = rel_pages r !! c) as Hto3.
      { assert (framed (SEGMENT_METAS_START :: blks ++ concat (snd <$> fps1 ++ fps2)) r r3) as Hfr; [|exact Hfr].
        rewrite fmap_app, concat_app.
        eapply framed_trans; [|exact Hfr3|intros c Hc; left; set_solver].
        eapply framed_trans; [|exact Hfr2|intros c Hc; left; set_solver].
        intros c Hc Hn. apply Hfr1; [done|]. set_solver. }
      assert (∀ c, c ∈ b0 :: bs0 → c ∈ SEGMENT_METAS_START :: blks ++ concat (snd <$> fps1 ++ fps2) ∨ ¬ in_use r c)
        as Hold.
      { intros c Hc.
        destruct (decide (c ∈ SEGMENT_METAS_START :: blks ++ concat (snd <$> fps1 ++ fps2))) as [|Hn]; [by left|right].
        destruct (Hfresh2 c Hc) as [|Hno]; [set_solver|].
        intros (p & Hp & Hu). apply Hno. exists p. rewrite Hfr1; [done|by exists p|].
        rewrite fmap_app, concat_app in Hn. set_solver. }
      split.
      * eapply framed_trans; [exact Hto3|exact Hfr4|].
        intros c [->|Hc]%elem_of_cons; [left; left|]. by apply Hold.
      * intros c Hc. destruct (Hfresh4 c Hc) as [Hc2|Hno]; [by apply Hold|].
        destruct (decide (c ∈ SEGMENT_METAS_START :: blks ++ concat (snd <$> fps1 ++ fps2))) as [|Hn]; [by left|right].
        intros (p & Hp & Hu). apply Hno. exists p. rewrite Hto3; [done|by exists p|done].
Qed.
End commit_run.

(** C2: save_new_metas implements the abstract commit: when the entries and files it
    works on are in place it succeeds, and the list of segments is the specified one -
    gone segments stamped with the transaction, the modified ones with their new delete
    file, the created ones added - garbage collected exactly when a segment was deleted,
    while every page in use outside the list and the deleted files is unchanged. *)
Theorem save_new_metas_commits `{TI : TantivyIndex} `{!TantivySegments} `{!HashOrder}
    `{BitPacking, PgPage, PgXact, PgBuffers} {Schema IndexSettings : Type}
    `{PgItem SegmentMetaEntry} `{!FrozenSameSize SegmentMetaEntry} `{!XmaxSameSize}
    (r : Rel) blks its md (new_meta prev_meta : IndexMeta Schema IndexSettings)
    (directory_entries : gmap string FileEntry) files pend limit :
  let segments := im_segments new_meta in
  let prev := im_segments prev_meta in
  commit_ready r blks its md segments prev directory_entries files pend →
  vacuum_get_freeze_limit = Ok limit →
  ∃ r' left es blks' its',
    save_new_metas new_meta prev_meta directory_entries r = Ok (left, r') ∧
    es ≡ₚ commit_spec segments prev files (concat its) ∧
    items_at r' SEGMENT_METAS_START blks' its' ∧
    concat its' = (if decide (deleted_ids segments prev = []) then es else collected limit es) ∧
    framed (SEGMENT_METAS_START :: blks ++ concat (snd <$> pend)) r r'.
Proof.
  intros segments prev Hcr Hlimit. set (r0 := upd_cache (λ _, ∅) r).
  assert (commit_ready r0 blks its md segments prev directory_entries files pend) as Hcr0.
  { destruct Hcr as [? ? ? ? ? Hst ?]. split; try done. by apply committing_cache. }
  destruct (commit_reads r0 _ _ _ _ _ _ _ _ Hcr0)
    as (files1 & files2 & dbs & mbs & Hrun1 & Hrun2 & Hrun3 & Hd & Hm).
  destruct (commit_writes r0 _ _ _ _ _ _ _ _ dbs mbs Hcr0 Hd Hm)
    as (r1 & blks1 & its1 & Hrun4 & Hi1 & Hspec & Hfr1 & Hb1).
  apply bind_inv in Hrun4 as ([] & ra & Ha & Hrun4). apply bind_inv in Hrun4 as ([] & rb & Hb & Hrun4).
  apply bind_inv in Hrun4 as ([] & rc & Hc & Hrun4).
  set (dels := zip (set_xmax GetCurrentTransactionId <$>
                 omap (entry_of (concat its)) (deleted_ids segments prev)) dbs) in *.
  assert (∀ res, (_ ← match dels with
                      | [] => mret tt
                      | _ => garbage_collect (T:=SegmentMetaEntry) SEGMENT_METAS_START
                      end; mret (leftover files2)) r1 = res →
            save_new_metas new_meta prev_meta directory_entries r = res) as Hrun.
  { intros res Hres. unfold save_new_metas.
    rewrite (bind_ok BufferManager_new _ r r0 tt) by done. cbn zeta.
    rewrite (bind_ok (lift _) _ r0 r0 files).
    2: { unfold lift. by rewrite (cr_files _ _ _ _ _ _ _ _ _ Hcr). }
    refine (eq_trans (bind_ok _ _ _ _ _ (lift_ok _ _ r0 Hrun1)) _).
    cbn beta iota.
    change (filter _ (set_iter _)) with (modified_ids segments prev files) in |- *.
    change (set_iter (segment_ids (im_segments prev_meta) ∖ _)) with (deleted_ids segments prev). rewrite (bind_ok _ _ _ _ _ Hrun2). cbn beta iota.
    rewrite (bind_ok _ _ _ _ _ Hrun3), (bind_ok _ _ _ _ _ Ha), (bind_ok _ _ _ _ _ Hb).
    rewrite (bind_ok _ _ _ _ _ Hc), (bind_ok _ _ _ _ _ Hrun4). exact Hres. }
  pose proof (Forall2_length _ _ _ Hd) as Hlen.
  assert (dels = [] ↔ deleted_ids segments prev = []) as Hnil.
  { unfold dels. split.
    - intros Hz. destruct (deleted_ids segments prev) as [|id ids] eqn:E; [done|exfalso].
      destruct (cr_deleted _ _ _ _ _ _ _ _ _ Hcr id) as [e He]; [rewrite E; left|].
      cbn [omap list_omap] in Hz, Hlen. rewrite He in Hz, Hlen. by destruct dbs.
    - intros ->. done. }
  exists (if decide (dels = []) then r1 else
            match garbage_collect (T:=SegmentMetaEntry) SEGMENT_METAS_START r1 with
            | Ok (_, r2) => r2 | _ => r1 end), (leftover files2), (concat its1).
  destruct (decide (dels = [])) as [Hz|Hz].
  - exists blks1, its1. split; [apply Hrun; by rewrite Hz|]. split; [done|]. split; [done|].
    rewrite decide_True by by apply Hnil. split; [done|]. exact Hfr1.
  - destruct (garbage_collect_spec r1 SEGMENT_METAS_START blks1 its1 limit Hi1 Hlimit)
      as (r2 & kept & kits & Hgc & Hi2 & Hsub & Hcat & _ & Hout).
    exists kept, kits. rewrite Hgc. split.
    { apply Hrun. destruct dels; [done|]. by rewrite (bind_ok _ _ _ _ _ Hgc). }
    split; [done|]. split; [done|]. rewrite decide_False by by rewrite <- Hnil. split; [done|].
    intros b Hu Hn. rewrite Hout; [by apply Hfr1|]. intros Hin. by destruct (Hb1 b Hin).
Qed.
