(* ===== verification/Writer.v ===== *)
(** * Writer: inserting into and deleting from an index

    [index/writer/index.rs] ([SearchIndexWriter], with its queue of operations),
    [postgres/insert.rs] and [postgres/fake_aminsertcleanup.rs] (rows of a statement, and
    the commit at its end), [postgres/build.rs] (the rows of CREATE INDEX) and
    [postgres/delete.rs] (vacuum's callback).  Tantivy's [IndexWriter] is a class that
    says which operations it was given; [wait_for], that runs its calls on another
    thread, is modelled in [Channel.v], and here its result is that of the call. *)

From S2P Require Import Prelude Page Block Buffer BlockList LinkedBytes LinkedItems PgUtils TokenizerConfig Query RangeQuery Schema Options Rows MergePolicy Directory Reader.

Open Scope Z_scope.

(** ** External code *)

(** [tantivy::indexer::UserOperation] *)
Notation TantivyDocument := (list (Field * OwnedValue)).
Inductive UserOperation `{RustF64} `{TantivyTypes} :=
  | Add (document : TantivyDocument)
  | Delete (term : Term).

(** [tantivy::Index] and [IndexWriter]: the operations it was given, and those of them
    that are committed *)
Class TantivyIndexWriter `{RustF64} `{TantivyTypes} `{TantivySchema} := {
  Index : Type;
  IndexWriter : Type;
  index_schema : Index → Schema;
  (** [Index::create] with a schema, in the directory of the relation *)
  index_create : Schema → outcome Index;
  writer_with_num_threads : Index → Z → Z → outcome IndexWriter;
  writer_run : IndexWriter → list UserOperation → outcome IndexWriter;
  writer_commit : IndexWriter → outcome IndexWriter;
  wait_merging_threads : IndexWriter → outcome unit;
  given_ops : IndexWriter → list UserOperation;
  committed_ops : IndexWriter → list UserOperation;
  fresh_writer i n m w : writer_with_num_threads i n m = Ok w → given_ops w = [] ∧ committed_ops w = [];
  run_given w ops w' :
    writer_run w ops = Ok w' → given_ops w' = given_ops w ++ ops ∧ committed_ops w' = committed_ops w;
  commit_given w w' :
    writer_commit w = Ok w' → given_ops w' = given_ops w ∧ committed_ops w' = given_ops w
}.

(** the settings of [gucs] *)
Class WriterGucs := {
  create_index_parallelism : Z;
  create_index_memory_budget : Z;
  statement_parallelism : Z;
  statement_memory_budget : Z
}.

(** ** [SearchIndexWriter] *)

Definition MAX_INSERT_QUEUE_SIZE : Z := 1000.

Inductive WriterResources := CreateIndexResources | StatementResources | VacuumResources.
Definition resources `{WriterGucs} (r : WriterResources) : Z * Z * AllowedMergePolicy :=
  match r with
  | CreateIndexResources => (create_index_parallelism, create_index_memory_budget, MergeNone)
  | StatementResources => (statement_parallelism, statement_memory_budget, MergeNPlusOne)
  | VacuumResources => (statement_parallelism, statement_memory_budget, MergeNone)
  end.

Inductive BlockDirectoryType := MvccDirectoryType | BulkDelete.
(** the mode of the [MVCCDirectory] *)
Definition directory_mode (t : BlockDirectoryType) : MvccSatisfies :=
  match t with MvccDirectoryType => MvccSnapshot | BulkDelete => MvccAny end.

Lemma expect_inv {A} (o : outcome A) msg a : expect_res o msg = Ok a → o = Ok a.
Proof. by destruct o. Qed.

(** what vacuum does to the locks of the index, and its commit *)
Inductive VacuumEvent (W : Type) :=
  | AcquiredForDelete
  | CommittedDeletes (w : W)
  | ReleasedMergeLock
  | LockedForCleanup (block : Z).
Arguments AcquiredForDelete {W}.
Arguments CommittedDeletes {W} _.
Arguments ReleasedMergeLock {W}.
Arguments LockedForCleanup {W} _.

Section writer.
Context `{RustF64} `{TantivyTypes} `{TantivyText} `{Chrono} `{!PgrxTypes} `{!TimeCrate} `{!PgDatums}.
Context `{SerdeLanguage} `{SerdeRecord} `{SerdeJsonText} `{HI : HashIteration} `{PgTypes} `{TS : TantivySchema}.
Context `{TW : !TantivyIndexWriter} `{WriterGucs}.

Record SearchIndexWriter := {
  siw_schema : SearchIndexSchema;
  siw_ctid_field : Field;
  siw_writer : IndexWriter;
  siw_queue : list UserOperation
}.

(** an index relation, as the writer reads it: its options, its table's attributes, the
    numbers of its columns, and its own attributes *)
Record IndexRelation := {
  rel_options : option SearchIndexCreateOptions;
  rel_heap : list (string * PgOid);
  rel_attrs : list Z;
  rel_tupdesc : list (string * PgOid)
}.

(** [schema.get_field("ctid")?] *)
Definition ctid_field_of (schema : Schema) : outcome Field := ok_or (schema_get_field schema "ctid") "ctid".

(** the [Index] found in the relation's directory is an argument *)
Definition writer_open `{TantivyTokenizers} (index_relation : IndexRelation) (index : outcome Index) (r : WriterResources)
    : outcome SearchIndexWriter :=
  let '(parallelism, memory_budget, wants_merge) := resources r in
  index ← index;
  _ ← setup_tokenizers (rel_options index_relation) (rel_heap index_relation) (rel_attrs index_relation);
  writer ← writer_with_num_threads index parallelism memory_budget;
  schema ← schema_open (index_schema index)
    (get_fields (rel_options index_relation) (rel_heap index_relation) (rel_attrs index_relation));
  ctid_field ← ctid_field_of (sis_schema schema);
  Ok {| siw_writer := writer; siw_schema := schema; siw_ctid_field := ctid_field; siw_queue := [] |}.

Definition create_index `{TantivyTokenizers} (index_relation : IndexRelation) : outcome SearchIndexWriter :=
  schema ← get_index_schema (rel_options index_relation) (rel_heap index_relation) (rel_attrs index_relation);
  let '(parallelism, memory_budget, merge_policy) := resources CreateIndexResources in
  index ← index_create (sis_schema schema);
  _ ← setup_tokenizers (rel_options index_relation) (rel_heap index_relation) (rel_attrs index_relation);
  writer ← writer_with_num_threads index parallelism memory_budget;
  ctid_field ← ctid_field_of (sis_schema schema);
  Ok {| siw_writer := writer; siw_schema := schema; siw_ctid_field := ctid_field; siw_queue := [] |}.

(** [std::mem::take]: the queue is empty afterwards *)
Definition drain_insert_queue (w : SearchIndexWriter) : outcome SearchIndexWriter :=
  writer ← writer_run (siw_writer w) (siw_queue w);
  Ok {| siw_schema := siw_schema w; siw_ctid_field := siw_ctid_field w; siw_writer := writer; siw_queue := [] |}.

(** the end of [insert] and [delete_term] *)
Definition queue_operation (op : UserOperation) (w : SearchIndexWriter) : outcome SearchIndexWriter :=
  let w := {| siw_schema := siw_schema w; siw_ctid_field := siw_ctid_field w; siw_writer := siw_writer w;
              siw_queue := siw_queue w ++ [op] |} in
  if MAX_INSERT_QUEUE_SIZE <=? zlen (siw_queue w) then drain_insert_queue w else Ok w.

Definition delete_term (term : Term) (w : SearchIndexWriter) : outcome SearchIndexWriter :=
  queue_operation (Delete term) w.
Definition writer_insert (document : TantivyDocument) (ctid : Z) (w : SearchIndexWriter) : outcome SearchIndexWriter :=
  let tantivy_document := document_insert document (siw_ctid_field w) (OU64 ctid) in
  queue_operation (Add tantivy_document) w.

(** consumes the writer; what is left is Tantivy's *)
Definition writer_finish (w : SearchIndexWriter) : outcome IndexWriter :=
  w ← drain_insert_queue w;
  writer ← writer_commit (siw_writer w);
  _ ← wait_merging_threads writer;
  Ok writer.

(** ** Inserting rows *)

Record InsertState := {
  is_writer : option SearchIndexWriter;
  is_categorized_fields : list (SearchField * CategorizedFieldData);
  is_key_field_name : string
}.

Definition insert_state_new `{TantivyTokenizers} (indexrel : IndexRelation) (index : outcome Index) (r : WriterResources)
    : outcome InsertState :=
  writer ← writer_open indexrel index r;
  let categorized_fields := categorize_fields (rel_tupdesc indexrel) (siw_schema writer) in
  key_field ← schema_key_field (siw_schema writer);
  Ok {| is_writer := Some writer; is_categorized_fields := categorized_fields;
        is_key_field_name := sf_name key_field |}.

(** a row, and the address of its tuple *)
Record Row := { row_values : list RowDatum; row_isnull : list bool; row_ctid : ItemPointerData }.

(** the body of the closure of [aminsert_internal], once it has its state *)
Definition insert_row (row : Row) (state : InsertState) : outcome InsertState :=
  writer ← expect_ok (is_writer state) "writer should not be null";
  search_document ← expect_res
    (row_to_search_document (row_values row) (row_isnull row) (is_key_field_name state) (is_categorized_fields state) [])
    "error creating index entries for index";
  writer ← expect_res (writer_insert search_document (item_pointer_to_u64 (row_ctid row)) writer)
    "insertion into index should succeed";
  Ok {| is_writer := Some writer; is_categorized_fields := is_categorized_fields state;
        is_key_field_name := is_key_field_name state |}.

Definition paradedb_aminsertcleanup (writer : option SearchIndexWriter) : outcome (option IndexWriter) :=
  match writer with
  | Some writer =>
      w ← expect_res (writer_finish writer) "must be able to commit inserts in fake_aminsertcleanup"; Ok (Some w)
  | None => Ok None
  end.

(** *** Postgres 17: the state is in [ii_AmCache] *)

Section pg17.
Context `{TantivyTokenizers} (is_logical_worker : bool) (indexrel : IndexRelation) (index : outcome Index).

Definition init_insert_state (am_cache : option InsertState) (r : WriterResources) : outcome InsertState :=
  match am_cache with
  | None => expect_res (insert_state_new indexrel index r) "should be able to open new SearchIndex for writing"
  | Some state => Ok state
  end.
Definition aminsert_internal (row : Row) (am_cache : option InsertState) : outcome (option InsertState) :=
  if is_logical_worker then Panic "pg_search logical replication is an enterprise feature"
  else
    state ← init_insert_state am_cache StatementResources;
    state ← insert_row row state;
    Ok (Some state).
Fixpoint aminsert_rows (rows : list Row) (am_cache : option InsertState) : outcome (option InsertState) :=
  match rows with
  | [] => Ok am_cache
  | row :: rows => am_cache ← aminsert_internal row am_cache; aminsert_rows rows am_cache
  end.
(** [state.writer.take()] leaves the state without a writer *)
Definition aminsertcleanup (am_cache : option InsertState) : outcome (option InsertState * option IndexWriter) :=
  match am_cache with
  | None => Ok (None, None)
  | Some state =>
      w ← paradedb_aminsertcleanup (is_writer state);
      Ok (Some {| is_writer := None; is_categorized_fields := is_categorized_fields state;
                  is_key_field_name := is_key_field_name state |}, w)
  end.
End pg17.

(** *** Before: one state for the backend, [PENDING_TANTIVY_COMMIT] *)

Definition set_pending_insert_state (insert_state : InsertState) (pending : option InsertState)
    : outcome (option InsertState) :=
  match pending with
  | None => Ok (Some insert_state)
  | Some _ => Panic "already have a pending tantivy commit state"
  end.
Definition reset_pending_insert_state (pending : option InsertState) : option InsertState := None.

(** [ii_AmCache] only says whether the state was set up for this [IndexInfo] *)
Definition init_insert_state_fake `{TantivyTokenizers} (indexrel : IndexRelation) (index : outcome Index)
    (am_cache : bool) (pending : option InsertState) : outcome (bool * option InsertState) :=
  if am_cache then Ok (am_cache, pending)
  else
    state ← expect_res (insert_state_new indexrel index StatementResources)
      "should be able to open new SearchIndex for writing";
    pending ← set_pending_insert_state state pending;
    Ok (true, pending).
Definition aminsert_fake `{TantivyTokenizers} (is_logical_worker : bool) (indexrel : IndexRelation) (index : outcome Index)
    (row : Row) (am_cache : bool) (pending : option InsertState) : outcome (bool * option InsertState) :=
  if is_logical_worker then Panic "pg_search logical replication is an enterprise feature"
  else
    '(am_cache, pending) ← init_insert_state_fake indexrel index am_cache pending;
    state ← expect_ok pending "should have a pending insert state";
    state ← insert_row row state;
    Ok (am_cache, Some state).
(** [PENDING_TANTIVY_COMMIT.take().and_then(|state| state.writer)] of the two hooks *)
Definition finish_hook (pending : option InsertState) : outcome (option InsertState * option IndexWriter) :=
  w ← paradedb_aminsertcleanup (pending ≫= is_writer); Ok (None, w).
Fixpoint aminsert_rows_fake `{TantivyTokenizers} (is_logical_worker : bool) (indexrel : IndexRelation)
    (index : outcome Index) (rows : list Row) (am_cache : bool) (pending : option InsertState)
    : outcome (bool * option InsertState) :=
  match rows with
  | [] => Ok (am_cache, pending)
  | row :: rows =>
      '(am_cache, pending) ← aminsert_fake is_logical_worker indexrel index row am_cache pending;
      aminsert_rows_fake is_logical_worker indexrel index rows am_cache pending
  end.

(** ** CREATE INDEX *)

Record BuildState := {
  bs_count : Z;
  bs_writer : SearchIndexWriter;
  bs_categorized_fields : list (SearchField * CategorizedFieldData);
  bs_key_field_name : string
}.
Definition build_state_new (indexrel : IndexRelation) (writer : SearchIndexWriter) : outcome BuildState :=
  let categorized_fields := categorize_fields (rel_tupdesc indexrel) (siw_schema writer) in
  key_field ← schema_key_field (siw_schema writer);
  Ok {| bs_count := 0; bs_writer := writer; bs_categorized_fields := categorized_fields;
        bs_key_field_name := sf_name key_field |}.
Definition build_callback (row : Row) (build_state : BuildState) : outcome BuildState :=
  search_document ← expect_res
    (row_to_search_document (row_values row) (row_isnull row) (bs_key_field_name build_state)
       (bs_categorized_fields build_state) [])
    "error creating index entries for index";
  writer ← expect_res (writer_insert search_document (item_pointer_to_u64 (row_ctid row)) (bs_writer build_state))
    "error inserting document during build callback.  See Postgres log for more information";
  Ok {| bs_count := bs_count build_state + 1; bs_writer := writer;
        bs_categorized_fields := bs_categorized_fields build_state; bs_key_field_name := bs_key_field_name build_state |}.
(** [IndexBuildHeapScan] calls back once for each row *)
Fixpoint build_rows (rows : list Row) (state : BuildState) : outcome BuildState :=
  match rows with
  | [] => Ok state
  | row :: rows => state ← build_callback row state; build_rows rows state
  end.
(** the loop over the table's indexes in [ambuild]: their oids, and whether they are [bm25] *)
Fixpoint only_bm25_index (index_oid : Z) (is_concurrent : bool) (indices : list (Z * bool)) : outcome unit :=
  match indices with
  | [] => Ok tt
  | (oid, is_bm25) :: indices =>
      if oid =? index_oid then only_bm25_index index_oid is_concurrent indices
      else if is_bm25 && negb is_concurrent then Panic "a relation may only have one `USING bm25` index"
      else only_bm25_index index_oid is_concurrent indices
  end.

(** [IndexBuildResult]; its counts are floats, exact below [2^53] *)
Record IndexBuildResult := { heap_tuples : Z; index_tuples : Z }.

(** The relation as the backend's own code changes it; what Tantivy writes through the
    channel is in [Directory.v] and [Commit.v].  [search_reader] is how many segments the
    reader finds that is opened after the commit. *)
Section build.
Context `{TantivyTokenizers} `{TI : TantivyIndex} `{BitPacking, PgPage, PgXact, PgBuffers} `{PgItem SegmentMetaEntry}.
Context (index_relation : IndexRelation) (search_reader : IndexWriter → outcome Z).

Definition do_heap_scan (rows : list Row) : M Rel (Z * IndexWriter) :=
  writer ← lift (expect_res (create_index index_relation) "do_heap_scan: should be able to open a SearchIndexWriter");
  state ← lift (build_state_new index_relation writer);
  state ← lift (build_rows rows state);
  w ← lift (expect_res (writer_finish (bs_writer state)) "failed to commit new tantivy index");
  segments ← lift (expect_res (search_reader w) "do_heap_scan: should be able to open a SearchIndexReader");
  _ ← set_num_segments (segments mod 2 ^ 32);
  mret (bs_count state, w).

Definition ambuild (index_oid : Z) (indisvalid ii_Concurrent : bool) (indices : list (Z * bool)) (rows : list Row)
    : M Rel (IndexBuildResult * IndexWriter) :=
  _ ← create_metadata;
  let is_reindex := negb indisvalid in
  _ ← lift (if is_reindex then Ok tt else only_bm25_index index_oid ii_Concurrent indices);
  '(tuple_count, w) ← do_heap_scan rows;
  mret ({| heap_tuples := tuple_count; index_tuples := tuple_count |}, w).
End build.

(** ** Vacuum *)

(** the callback of [ambulkdelete], on the address that a [u64] packs *)
Definition dead_ctid (callback : ItemPointerData → bool) (ctid_val : Z) : bool :=
  callback (u64_to_item_pointer ctid_val).

Section vacuum.
Context `{TantivyIndex} `{!TantivyParser} `{!TantivyReader} (max_doc : SegmentReader → Z).
Context (callback : ItemPointerData → bool).

Fixpoint delete_docs (ctid_ff : Z → option Z) (ctid_field : Field) (docs : list Z)
    (did_delete : bool) (w : SearchIndexWriter) : outcome (bool * SearchIndexWriter) :=
  match docs with
  | [] => Ok (did_delete, w)
  | doc_id :: docs =>
      ctid ← expect_ok (ctid_ff doc_id) "ctid should be present";
      if dead_ctid callback ctid then
        w ← expect_res (delete_term (FieldTerm ctid_field (VU64 ctid)) w)
          "ambulkdelete: deleting ctid Term should succeed";
        delete_docs ctid_ff ctid_field docs true w
      else delete_docs ctid_ff ctid_field docs did_delete w
  end.
Fixpoint delete_segments (segment_readers : list SegmentReader) (ctid_field : Field)
    (did_delete : bool) (w : SearchIndexWriter) : outcome (bool * SearchIndexWriter) :=
  match segment_readers with
  | [] => Ok (did_delete, w)
  | segment_reader :: segment_readers =>
      '(did_delete, w) ← delete_docs (ctid_column segment_reader) ctid_field (seqZ 0 (max_doc segment_reader)) did_delete w;
      delete_segments segment_readers ctid_field did_delete w
  end.
(** the writer and the segments of the reader are opened on the relation, the deleted documents included *)
Definition ambulkdelete (writer : outcome SearchIndexWriter) (reader : outcome (list SegmentReader))
    : outcome (list (VacuumEvent IndexWriter)) :=
  writer ← expect_res writer "ambulkdelete: should be able to open a SearchIndexWriter";
  reader ← expect_res reader "ambulkdelete: should be able to open a SearchIndexReader";
  '(did_delete, writer) ← delete_segments reader (siw_ctid_field writer) false writer;
  w ← expect_res (writer_finish writer) "ambulkdelete: commit should succeed";
  Ok ([AcquiredForDelete; CommittedDeletes w; ReleasedMergeLock]
      ++ if did_delete : bool then [LockedForCleanup CLEANUP_LOCK] else []).
End vacuum.

(** ** The queue *)

(** every operation handed to the writer, in order *)
Definition all_ops (w : SearchIndexWriter) : list UserOperation := given_ops (siw_writer w) ++ siw_queue w.
Definition queue_ok (w : SearchIndexWriter) : Prop := zlen (siw_queue w) < MAX_INSERT_QUEUE_SIZE.
(** [w'] is [w] after the operations [ops] *)
Definition queued (ops : list UserOperation) (w w' : SearchIndexWriter) : Prop :=
  all_ops w' = all_ops w ++ ops ∧ queue_ok w' ∧
  committed_ops (siw_writer w') = committed_ops (siw_writer w) ∧
  siw_ctid_field w' = siw_ctid_field w ∧ siw_schema w' = siw_schema w.

Lemma queued_refl w : queue_ok w → queued [] w w.
Proof. unfold queued. by rewrite app_nil_r. Qed.
Lemma queued_trans ops1 ops2 w1 w2 w3 : queued ops1 w1 w2 → queued ops2 w2 w3 → queued (ops1 ++ ops2) w1 w3.
Proof.
  intros (Ha & _ & Hc & Hf & Hs) (Ha' & Hq & Hc' & Hf' & Hs').
  unfold queued. rewrite Ha', Ha, Hc', Hc, Hf', Hf, Hs', Hs. by rewrite <- app_assoc.
Qed.

Lemma drain_queued w w' : drain_insert_queue w = Ok w' → queued [] w w' ∧ siw_queue w' = [].
Proof.
  unfold drain_insert_queue. intros (iw & Hrun & [= <-])%obind_inv.
  destruct (run_given _ _ _ Hrun) as [Hg Hc].
  split; [|done]. unfold queued, all_ops, queue_ok. simpl. rewrite Hg, Hc, !app_nil_r. done.
Qed.
Lemma queue_operation_queued op w w' : queue_operation op w = Ok w' → queued [op] w w'.
Proof.
  unfold queue_operation. set (w1 := {| siw_queue := _ |}).
  assert (all_ops w1 = all_ops w ++ [op]) as Ha by (unfold all_ops; simpl; apply app_assoc).
  destruct (Z.leb_spec MAX_INSERT_QUEUE_SIZE (zlen (siw_queue w1))) as [Hle|Hlt].
  - intros [(Hd & Hq & Hrest) _]%drain_queued. rewrite app_nil_r in Hd.
    split; [by rewrite Hd|]. by split.
  - intros [= <-]. by repeat split.
Qed.

(** Tantivy's writer does not fail *)
Hypothesis run_succeeds : ∀ w ops, ∃ w', writer_run w ops = Ok w'.
Hypothesis commit_succeeds : ∀ w, ∃ w', writer_commit w = Ok w'.
Hypothesis merges_succeed : ∀ w, wait_merging_threads w = Ok tt.

Lemma queue_operation_ok op w : ∃ w', queue_operation op w = Ok w' ∧ queued [op] w w'.
Proof.
  assert (∃ w', queue_operation op w = Ok w') as [w' Hw'].
  - unfold queue_operation. case_match; [|eauto]. unfold drain_insert_queue. simpl.
    destruct (run_succeeds (siw_writer w) (siw_queue w ++ [op])) as [iw ->]. simpl. eauto.
  - exists w'. split; [done|]. by apply queue_operation_queued.
Qed.
Lemma writer_finish_ok w : ∃ iw, writer_finish w = Ok iw ∧ given_ops iw = all_ops w ∧ committed_ops iw = all_ops w.
Proof.
  assert (∃ w1, drain_insert_queue w = Ok w1) as [w1 Hw1].
  { unfold drain_insert_queue. destruct (run_succeeds (siw_writer w) (siw_queue w)) as [iw ->]. simpl. eauto. }
  destruct (commit_succeeds (siw_writer w1)) as [iw Hiw]. exists iw.
  unfold writer_finish. rewrite Hw1. simpl. rewrite Hiw. simpl. rewrite merges_succeed.
  apply drain_queued in Hw1 as [(Ha & _) Hq]. apply commit_given in Hiw as [Hg Hc].
  assert (given_ops (siw_writer w1) = all_ops w) as Hall.
  { revert Ha. unfold all_ops at 1. by rewrite Hq, !app_nil_r. }
  by rewrite Hg, Hc, Hall.
Qed.

(** ** Rows *)

Section rows.
Context (cats : list (SearchField * CategorizedFieldData)) (key : string).

(** the document of a row, before its address *)
Definition row_document (row : Row) : outcome TantivyDocument :=
  row_to_search_document (row_values row) (row_isnull row) key cats [].
(** the operation that adds a row *)
Definition add_row (ctid_field : Field) (row : Row) (document : TantivyDocument) : UserOperation :=
  Add (document_insert document ctid_field (OU64 (item_pointer_to_u64 (row_ctid row)))).

Definition state_with (w : SearchIndexWriter) : InsertState :=
  {| is_writer := Some w; is_categorized_fields := cats; is_key_field_name := key |}.
Lemma insert_row_ok row doc w :
  row_document row = Ok doc →
  ∃ w', insert_row row (state_with w) = Ok (state_with w') ∧ queued [add_row (siw_ctid_field w) row doc] w w'.
Proof.
  intros Hdoc. destruct (queue_operation_ok (add_row (siw_ctid_field w) row doc) w) as (w' & Hw' & Hq).
  exists w'. split; [|done]. unfold insert_row. simpl. unfold row_document in Hdoc. rewrite Hdoc. simpl.
  unfold writer_insert. unfold add_row in Hw'. by rewrite Hw'.
Qed.
Lemma insert_row_fails row msg w :
  row_document row = Err msg → insert_row row (state_with w) = Panic "error creating index entries for index".
Proof. intros Hdoc. unfold insert_row. simpl. unfold row_document in Hdoc. by rewrite Hdoc. Qed.

Definition build_with (count : Z) (w : SearchIndexWriter) : BuildState :=
  {| bs_count := count; bs_writer := w; bs_categorized_fields := cats; bs_key_field_name := key |}.
Lemma build_rows_ok rows docs w n :
  queue_ok w → Forall2 (λ row doc, row_document row = Ok doc) rows docs →
  ∃ w', build_rows rows (build_with n w) = Ok (build_with (n + zlen rows) w') ∧
    queued (zip_with (add_row (siw_ctid_field w)) rows docs) w w'.
Proof.
  intros Hq Hdocs. revert w n Hq. induction Hdocs as [|row doc rows docs Hdoc _ IH]; intros w n Hq; simpl.
  - exists w. unfold zlen. simpl. rewrite Z.add_0_r. split; [done|]. by apply queued_refl.
  - destruct (queue_operation_ok (add_row (siw_ctid_field w) row doc) w) as (w1 & Hw1 & Hq1).
    destruct (IH w1 (n + 1)) as (w' & Hw' & Hq'); [apply Hq1|].
    exists w'. split.
    + unfold build_callback. simpl. unfold row_document in Hdoc. rewrite Hdoc. simpl.
      unfold writer_insert. unfold add_row in Hw1. rewrite Hw1. simpl.
      unfold build_with in *. rewrite Hw'.
      by replace (n + zlen (row :: rows)) with (n + 1 + zlen rows) by (unfold zlen; cbn [length]; lia).
    + destruct Hq1 as (? & ? & ? & Hf & ?). rewrite Hf in Hq'.
      change (queued ([add_row (siw_ctid_field w) row doc] ++ zip_with (add_row (siw_ctid_field w)) rows docs) w w').
      eapply queued_trans; [|done]. by repeat split.
Qed.
End rows.

(** ** Statements *)

Section statements.
Context `{TantivyTokenizers} (indexrel : IndexRelation) (index : outcome Index).

(** a writer that was just opened *)
Definition fresh (w : SearchIndexWriter) : Prop := all_ops w = [] ∧ queue_ok w ∧ committed_ops (siw_writer w) = [].
Lemma writer_open_fresh r w : writer_open indexrel index r = Ok w → fresh w.
Proof.
  unfold writer_open. destruct (resources r) as [[n m] p].
  intros (i & _ & (mn & _ & (iw & Hiw & (s & _ & (f & _ & [= <-])%obind_inv)%obind_inv)%obind_inv)%obind_inv)%obind_inv.
  apply fresh_writer in Hiw as [Hg Hc]. unfold fresh, all_ops, queue_ok. simpl. by rewrite Hg, Hc.
Qed.
Lemma insert_state_new_inv r st :
  insert_state_new indexrel index r = Ok st →
  ∃ w, st = state_with (is_categorized_fields st) (is_key_field_name st) w ∧ fresh w.
Proof.
  unfold insert_state_new. intros (w & Hw & (k & _ & [= <-])%obind_inv)%obind_inv.
  exists w. split; [done|]. by eapply writer_open_fresh.
Qed.

Section state.
Variables (cats : list (SearchField * CategorizedFieldData)) (key : string).
Notation with_writer := (state_with cats key).

Lemma aminsert_rows_ok rows docs w :
  queue_ok w → Forall2 (λ row doc, row_document cats key row = Ok doc) rows docs →
  ∃ w', aminsert_rows false indexrel index rows (Some (with_writer w)) = Ok (Some (with_writer w')) ∧
    queued (zip_with (add_row (siw_ctid_field w)) rows docs) w w'.
Proof.
  intros Hq Hdocs. revert w Hq. induction Hdocs as [|row doc rows docs Hdoc _ IH]; intros w Hq; simpl.
  - exists w. split; [done|]. by apply queued_refl.
  - destruct (insert_row_ok _ _ _ _ w Hdoc) as (w1 & Hw1 & Hq1).
    destruct (IH w1) as (w' & Hw' & Hq'); [apply Hq1|].
    exists w'. unfold aminsert_internal, init_insert_state. simpl. rewrite Hw1. simpl. split; [done|].
    pose proof Hq1 as (_ & _ & _ & Hf & _). rewrite Hf in Hq'.
    change (queued ([add_row (siw_ctid_field w) row doc] ++ zip_with (add_row (siw_ctid_field w)) rows docs) w w').
    by eapply queued_trans.
Qed.
Lemma aminsertcleanup_ok w :
  ∃ iw st', aminsertcleanup (Some (with_writer w)) = Ok (Some st', Some iw) ∧ is_writer st' = None ∧
    committed_ops iw = all_ops w.
Proof.
  destruct (writer_finish_ok w) as (iw & Hiw & _ & Hc).
  unfold aminsertcleanup, paradedb_aminsertcleanup. simpl. rewrite Hiw. simpl. by eauto 6.
Qed.
End state.

Lemma first_row_opens rows st :
  rows ≠ [] → insert_state_new indexrel index StatementResources = Ok st →
  aminsert_rows false indexrel index rows None = aminsert_rows false indexrel index rows (Some st).
Proof.
  intros Hrows Hst. destruct rows as [|row rows]; [done|]. simpl.
  unfold aminsert_internal, init_insert_state. by rewrite Hst.
Qed.

(** C4: The rows of a statement reach the index once: however many there are, nothing is
    committed and fewer than 1000 operations are queued while rows come in, the cleanup
    commits exactly one document per row, in order, with the address of its tuple, a
    second cleanup commits nothing, and a row that cannot be converted ends the
    statement. *)
Theorem statement_rows_committed rows docs st :
  insert_state_new indexrel index StatementResources = Ok st → rows ≠ [] →
  Forall2 (λ row doc, row_document (is_categorized_fields st) (is_key_field_name st) row = Ok doc) rows docs →
  ∃ w0 w iw st',
    is_writer st = Some w0 ∧
    aminsert_rows false indexrel index rows None
      = Ok (Some (state_with (is_categorized_fields st) (is_key_field_name st) w)) ∧
    zlen (siw_queue w) < MAX_INSERT_QUEUE_SIZE ∧ committed_ops (siw_writer w) = [] ∧
    aminsertcleanup (Some (state_with (is_categorized_fields st) (is_key_field_name st) w)) = Ok (Some st', Some iw) ∧
    committed_ops iw = zip_with (add_row (siw_ctid_field w0)) rows docs ∧
    aminsertcleanup (Some st') = Ok (Some st', None) ∧
    ∀ row msg, row_document (is_categorized_fields st) (is_key_field_name st) row = Err msg →
      aminsert_internal false indexrel index row
        (Some (state_with (is_categorized_fields st) (is_key_field_name st) w))
      = Panic "error creating index entries for index".
Proof.
  intros Hst Hrows Hdocs. destruct (insert_state_new_inv _ _ Hst) as (w0 & Heq & Ha & Hq & Hc).
  destruct (aminsert_rows_ok _ _ _ _ w0 Hq Hdocs) as (w & Hw & Hall & Hqw & Hcw & _).
  destruct (aminsertcleanup_ok (is_categorized_fields st) (is_key_field_name st) w) as (iw & st' & Hiw & Hnone & Hci).
  exists w0, w, iw, st'. rewrite (first_row_opens _ _ Hrows Hst). split; [by rewrite Heq|].
  split; [rewrite Heq; exact Hw|]. split; [exact Hqw|]. split; [by rewrite Hcw|]. split; [exact Hiw|].
  split; [by rewrite Hci, Hall, Ha|]. split.
  - destruct st'. simpl in Hnone. by subst.
  - intros row msg Hrow. unfold aminsert_internal, init_insert_state. simpl.
    by rewrite (insert_row_fails _ _ _ _ _ Hrow).
Qed.


Lemma create_index_fresh w : create_index indexrel = Ok w → fresh w.
Proof.
  unfold create_index. intros (s & _ & Hrest)%obind_inv. cbn [resources] in Hrest.
  apply obind_inv in Hrest as (i & _ & (mn & _ & (iw & Hiw & (f & _ & [= <-])%obind_inv)%obind_inv)%obind_inv).
  apply fresh_writer in Hiw as [Hg Hc]. unfold fresh, all_ops, queue_ok. simpl. by rewrite Hg, Hc.
Qed.

Section build_lemmas.
Context `{TI : TantivyIndex} `{BitPacking, PgPage, PgXact, PgBuffers} `{PgItem SegmentMetaEntry}.

Lemma do_heap_scan_ok (search_reader : IndexWriter → outcome Z) rows docs w0 key r md :
  create_index indexrel = Ok w0 → schema_key_field (siw_schema w0) = Ok key →
  Forall2 (λ row doc,
    row_document (categorize_fields (rel_tupdesc indexrel) (siw_schema w0)) (sf_name key) row = Ok doc) rows docs →
  (∀ w, ∃ n, search_reader w = Ok n) → rel_wf r → lock_at r md →
  ∃ iw n r', do_heap_scan indexrel search_reader rows r = Ok ((zlen rows, iw), r') ∧
    committed_ops iw = zip_with (add_row (siw_ctid_field w0)) rows docs ∧
    search_reader iw = Ok n ∧
    lock_at r' {| last_merge := last_merge md; num_segments := n mod 2 ^ 32 |}.
Proof.
  intros Hw0 Hkey Hdocs Hreader Hwf Hlock. destruct (create_index_fresh _ Hw0) as (Ha & Hq & _).
  destruct (build_rows_ok _ _ rows docs w0 0 Hq Hdocs) as (w & Hw & Hall & _).
  destruct (writer_finish_ok w) as (iw & Hiw & _ & Hc). destruct (Hreader iw) as [n Hn].
  set (f := λ md, {| last_merge := last_merge md; num_segments := n mod 2 ^ 32 |}).
  destruct (lock_page_run (upd_cache (λ _, ∅) r) md f (λ _, tt)) as (r' & pm & Hrun & _ & Hl' & _); [done|done| |].
  { destruct Hlock as (_ & _ & _ & _ & _ & Hv & _). split; [done|]. unfold f, is_u32, u32_max. simpl.
    pose proof (Z.mod_pos_bound n (2 ^ 32) ltac:(done)). change (2 ^ 32) with 4294967296 in *. lia. }
  exists iw, n, r'. split; [|split; [by rewrite Hc, Hall, Ha|by split]].
  unfold do_heap_scan, build_state_new. rewrite Hw0, (bind_ok (lift _) _ r r w0) by done.
  rewrite Hkey. unfold build_with in Hw. erewrite (bind_ok (lift _) _ r r) by done.
  rewrite (bind_ok _ _ _ _ _ (lift_ok _ _ r Hw)). cbn [bs_writer].
  rewrite Hiw, (bind_ok (lift _) _ r r iw) by done. rewrite Hn, (bind_ok (lift _) _ r r n) by done.
  unfold set_num_segments. rewrite bind_assoc.
  rewrite (bind_ok BufferManager_new _ r (upd_cache (λ _, ∅) r) tt) by done.
  rewrite (bind_ok _ _ _ _ _ Hrun). done.
Qed.

(** C9: CREATE INDEX on an empty relation lays out its pages, commits exactly one
    document per row of the table, in order, with the address of its tuple, reports
    their number, and leaves the merge lock page with no merge and the number of
    segments the reader then finds. *)
Theorem build_rows_committed (search_reader : IndexWriter → outcome Z) rows docs w0 key index_oid indices r :
  create_index indexrel = Ok w0 → schema_key_field (siw_schema w0) = Ok key →
  Forall2 (λ row doc,
    row_document (categorize_fields (rel_tupdesc indexrel) (siw_schema w0)) (sf_name key) row = Ok doc) rows docs →
  (∀ w, ∃ n, search_reader w = Ok n) →
  rel_wf r → rel_nblocks r = 0 → rel_fsm r = ∅ →
  (∀ oid, (oid, true) ∈ indices → oid = index_oid) →
  ∃ iw n r', ambuild indexrel search_reader index_oid true false indices rows r
      = Ok (({| heap_tuples := zlen rows; index_tuples := zlen rows |}, iw), r') ∧
    committed_ops iw = zip_with (add_row (siw_ctid_field w0)) rows docs ∧
    search_reader iw = Ok n ∧
    lock_at r' {| last_merge := InvalidTransactionId; num_segments := n mod 2 ^ 32 |}.
Proof.
  intros Hw0 Hkey Hdocs Hreader Hwf Hn Hf Honly.
  destruct (create_metadata_layout r) as (r1 & _ & _ & _ & _ & _ & Hrun & Hwf1 & _ & Hlock & _); [done..|].
  assert (only_bm25_index index_oid false indices = Ok tt) as Hone.
  { clear - Honly. induction indices as [|[oid []] indices IH]; simpl; [done|..].
    - rewrite (Honly oid), Z.eqb_refl by left. apply IH. intros o Ho. apply Honly. by right.
    - destruct (oid =? index_oid); apply IH; intros o Ho; apply Honly; by right. }
  destruct (do_heap_scan_ok search_reader rows docs w0 key r1 _ Hw0 Hkey Hdocs Hreader Hwf1 Hlock)
    as (iw & n & r' & Hscan & Hrest). exists iw, n, r'. split; [|done].
  unfold ambuild. rewrite (bind_ok _ _ _ _ _ Hrun). cbn [negb].
  rewrite Hone, (bind_ok (lift _) _ r1 r1 tt) by done.
  by rewrite (bind_ok _ _ _ _ _ Hscan).
Qed.
End build_lemmas.

Lemma fake_rows_cached lw rows st :
  aminsert_rows_fake lw indexrel index rows true (Some st)
  = r ← aminsert_rows lw indexrel index rows (Some st); Ok (true, r).
Proof.
  revert st. induction rows as [|row rows IH]; intros st; simpl; [done|].
  unfold aminsert_fake, aminsert_internal. destruct lw; [done|]. simpl.
  destruct (insert_row row st) as [st'| | |]; simpl; [apply IH|done..].
Qed.
(** For the rows of one statement into one index, the hooks used before Postgres 17
    commit what [aminsertcleanup] does, and fail when it does. *)
Theorem hooks_commit_like_cleanup lw rows :
  (p ← aminsert_rows_fake lw indexrel index rows false None; x ← finish_hook p.2; Ok x.2)
  = (c ← aminsert_rows lw indexrel index rows None; x ← aminsertcleanup c; Ok x.2).
Proof.
  destruct rows as [|row rows]; simpl; [done|]. unfold aminsert_fake, aminsert_internal, init_insert_state.
  destruct lw; [done|]. simpl. destruct (insert_state_new _ _ _) as [st| | |]; simpl; [|done..].
  destruct (insert_row row st) as [st'| | |]; simpl; [|done..]. rewrite fake_rows_cached.
  destruct (aminsert_rows false indexrel index rows (Some st')) as [[st2|]| | |]; simpl; [|done..].
  unfold finish_hook, aminsertcleanup. simpl. by destruct (paradedb_aminsertcleanup (is_writer st2)).
Qed.

(** Before Postgres 17 the insert state is one per backend: a statement that inserts
    into a second index panics, and the end of a nested statement commits the outer
    one's rows early and makes its next row panic. *)
Theorem pending_state_shared row row' am_cache pending other other_index st :
  aminsert_fake false indexrel index row false None = Ok (am_cache, pending) →
  insert_state_new other other_index StatementResources = Ok st →
  aminsert_fake false other other_index row' false pending = Panic "already have a pending tantivy commit state" ∧
  ∃ iw, finish_hook pending = Ok (None, Some iw) ∧ length (committed_ops iw) = 1%nat ∧
    aminsert_fake false indexrel index row' am_cache None = Panic "should have a pending insert state".
Proof.
  intros Hrow Hother. revert Hrow. unfold aminsert_fake at 1, init_insert_state_fake at 1. simpl.
  destruct (insert_state_new indexrel index StatementResources) as [st0| | |] eqn:Hst; [|done..]. simpl.
  intros (st1 & Hins & [= <- <-])%obind_inv. split.
  { unfold aminsert_fake, init_insert_state_fake. by rewrite Hother. }
  destruct (insert_state_new_inv _ _ Hst) as (w0 & Heq & Ha & Hq & _). rewrite Heq in Hins.
  revert Hins. unfold insert_row. simpl.
  intros (doc & _ & (w & Hw%expect_inv & [= <-])%obind_inv)%obind_inv.
  apply queue_operation_queued in Hw as (Hall & _).
  destruct (writer_finish_ok w) as (iw & Hiw & _ & Hc). exists iw.
  unfold finish_hook, paradedb_aminsertcleanup. simpl. rewrite Hiw. simpl.
  split; [done|]. split; [by rewrite Hc, Hall, Ha|]. done.
Qed.
End statements.

(** ** Vacuum *)

Section vacuum_lemmas.
Context `{TantivyIndex} `{!TantivyParser} `{!TantivyReader} (max_doc : SegmentReader → Z).
Context (callback : ItemPointerData → bool).

Definition delete_of (ctid_field : Field) (ip : ItemPointerData) : UserOperation :=
  Delete (FieldTerm ctid_field (VU64 (item_pointer_to_u64 ip))).
(** the addresses in the column of some documents *)
Definition docs_at (ctid_ff : Z → option Z) (docs : list Z) (ips : list ItemPointerData) : Prop :=
  Forall2 (λ doc ip, ctid_ok ip ∧ ctid_ff doc = Some (item_pointer_to_u64 ip)) docs ips.
(** the deletes of the dead among [ips] *)
Definition deletes (ctid_field : Field) (ips : list ItemPointerData) : list UserOperation :=
  delete_of ctid_field <$> filter (λ ip, callback ip = true) ips.

Lemma delete_docs_ok ff ctid_field docs ips did w :
  queue_ok w → docs_at ff docs ips →
  ∃ w', delete_docs callback ff ctid_field docs did w = Ok (did || existsb callback ips, w') ∧
    queued (deletes ctid_field ips) w w'.
Proof.
  intros Hq Hdocs. revert did w Hq. induction Hdocs as [|doc ip docs ips [Hip Hff] _ IH]; intros did w Hq; simpl.
  { exists w. rewrite orb_false_r. split; [done|]. by apply queued_refl. }
  rewrite Hff. simpl. unfold dead_ctid. rewrite (proj1 (ctid_roundtrip ip ip Hip Hip)). unfold deletes. rewrite filter_cons.
  destruct (callback ip) eqn:Hcb.
  - rewrite decide_True by done.
    destruct (queue_operation_ok (delete_of ctid_field ip) w) as (w1 & Hw1 & Hq1).
    destruct (IH true w1) as (w' & Hw' & Hq'); [apply Hq1|]. exists w'.
    unfold delete_term. unfold delete_of in Hw1. rewrite Hw1. simpl. rewrite Hw'. rewrite orb_true_r.
    split; [done|].
    change (queued ([delete_of ctid_field ip] ++ deletes ctid_field ips) w w'). by eapply queued_trans.
  - rewrite decide_False by done. simpl. by apply IH.
Qed.

(** the segments and the addresses in their columns *)
Definition segments_at (segs : list SegmentReader) (ipss : list (list ItemPointerData)) : Prop :=
  Forall2 (λ seg ips, docs_at (ctid_column seg) (seqZ 0 (max_doc seg)) ips) segs ipss.
Lemma delete_segments_ok segs ipss ctid_field did w :
  queue_ok w → segments_at segs ipss →
  ∃ w', delete_segments max_doc callback segs ctid_field did w = Ok (did || existsb callback (concat ipss), w') ∧
    queued (deletes ctid_field (concat ipss)) w w'.
Proof.
  intros Hq Hsegs. revert did w Hq. induction Hsegs as [|seg ips segs ipss Hseg _ IH]; intros did w Hq; simpl.
  { exists w. rewrite orb_false_r. split; [done|]. by apply queued_refl. }
  destruct (delete_docs_ok _ ctid_field _ _ did w Hq Hseg) as (w1 & Hw1 & Hq1). rewrite Hw1. simpl.
  destruct (IH (did || existsb callback ips) w1) as (w' & Hw' & Hq'); [apply Hq1|].
  exists w'. rewrite Hw', existsb_app, orb_assoc. split; [done|].
  unfold deletes. rewrite filter_app, fmap_app. by eapply queued_trans.
Qed.

(** C8: Vacuum deletes exactly the dead: over all documents of all segments it asks
    about the address each was inserted with and commits a delete for precisely those
    that are dead, in order, then releases the merge lock, and only then waits for the
    cleanup lock, exactly when something was deleted. *)
Theorem bulk_delete_exact segs ipss w :
  all_ops w = [] → segments_at segs ipss →
  ∃ iw, ambulkdelete max_doc callback (Ok w) (Ok segs)
    = Ok ([AcquiredForDelete; CommittedDeletes iw; ReleasedMergeLock]
          ++ if existsb callback (concat ipss) then [LockedForCleanup CLEANUP_LOCK] else []) ∧
    committed_ops iw = delete_of (siw_ctid_field w) <$> filter (λ ip, callback ip = true) (concat ipss).
Proof.
  intros Hw Hsegs. assert (queue_ok w) as Hq.
  { unfold queue_ok. apply app_nil in Hw as [_ Hnil]. by rewrite Hnil. }
  destruct (delete_segments_ok _ _ (siw_ctid_field w) false w Hq Hsegs) as (w' & Hw' & Hall & _).
  destruct (writer_finish_ok w') as (iw & Hiw & _ & Hc). exists iw.
  unfold ambulkdelete. simpl. rewrite Hw'. simpl. rewrite Hiw. simpl.
  split; [done|]. by rewrite Hc, Hall, Hw.
Qed.
End vacuum_lemmas.
End writer.
