(* ===== verification/Channel.v ===== *)
(** * Channel: the directory Tantivy's threads talk to

    Tantivy runs on its own thread and may not touch Postgres: its directory
    ([ChannelDirectory], [ChannelWriter], [ChannelReader]) sends requests over a bounded
    channel, and the backend answers them while it waits for the thread's result
    ([ChannelRequestHandler::wait_for]).  The first part of this file is the protocol: a
    client program over requests, the step relation of the two sides, and its relation to
    a run that makes each request a call.  The second part is the handler of the requests,
    [process_message] of [index/directory/channel.rs], and what a client reads of a file
    it wrote.

    The client is one thread; its program says what it sends and what it does with each
    reply. *)

From S2P Require Import Prelude Page Block Buffer BlockList LinkedBytes SegmentIO LinkedItems MergePolicy Directory.

Open Scope Z_scope.

(** ** The protocol *)

(** [CHANNEL_QUEUE_LEN] *)
Definition CHANNEL_QUEUE_LEN : Z := 1000.

(** A client: it returns, or it sends a request, waits for the reply if the request
    carries a [oneshot::Sender], and goes on. *)
Inductive Prog (Req Rep R : Type) :=
  | Ret (r : R)
  | Send (q : Req) (k : option Rep → Prog Req Rep R).
Arguments Ret {_ _ _} r.
Arguments Send {_ _ _} q k.

#[global] Instance Prog_ret Req Rep : MRet (Prog Req Rep) := λ R, Ret.
#[global] Instance Prog_bind Req Rep : MBind (Prog Req Rep) := λ A B f,
  fix go p := match p with Ret a => f a | Send q k => Send q (λ rep, go (k rep)) end.

Section protocol.
Context {Req Rep S R : Type}.
(** how the backend handles a request: the reply it sends, if the request wants one, and
    [ShouldTerminate] *)
Context (process : Req → M S (option Rep * bool)) (wants_reply : Req → bool).
Notation Prog := (Prog Req Rep R).
Implicit Types (q : Req) (qs : list Req) (s : S) (p : Prog) (k : option Rep → Prog).

(** the thread: running, blocked on [oneshot_receiver.recv()], or done *)
Inductive Worker :=
  | Running (p : Prog)
  | Waiting (k : option Rep → Prog)
  | Finished.

(** where [wait_for_internal] is: at [try_recv] of the reply, or in the loop over
    [receiver.try_iter()] *)
Inductive Phase := Poll | Drain.

Record Sys := {
  sys_queue : list Req;
  sys_worker : Worker;
  sys_reply : option R;
  sys_phase : Phase;
  sys_store : S
}.
Inductive Conf :=
  | Live (y : Sys)
  | Returned (r : R) (s : S) (queue : list Req)
  | Failed.

(** the reply goes to the thread that waits for it *)
Definition deliver (rep : option Rep) (w : Worker) : Worker :=
  match rep, w with
  | Some _, Waiting k => Running (k rep)
  | _, _ => w
  end.

Notation live qs w o ph s :=
  (Live {| sys_queue := qs; sys_worker := w; sys_reply := o; sys_phase := ph; sys_store := s |}).

Inductive step : Conf → Conf → Prop :=
  (* the thread *)
  | step_send qs q k o ph s :
      zlen qs < CHANNEL_QUEUE_LEN →
      step (live qs (Running (Send q k)) o ph s)
           (live (qs ++ [q]) (if wants_reply q then Waiting k else Running (k None)) o ph s)
  | step_finish qs r o ph s :
      step (live qs (Running (Ret r)) o ph s) (live qs Finished (Some r) ph s)
  (* the backend *)
  | step_reply qs w r s : step (live qs w (Some r) Poll s) (Returned r s qs)
  | step_no_reply qs w s : step (live qs w None Poll s) (live qs w None Drain s)
  | step_message q qs w o s rep (should_terminate : bool) s' :
      process q s = Ok ((rep, should_terminate), s') →
      step (live (q :: qs) w o Drain s)
           (live qs (deliver rep w) o (if should_terminate then Poll else Drain) s')
  | step_error q qs w o s :
      (∀ a, process q s ≠ Ok a) → step (live (q :: qs) w o Drain s) Failed
  | step_no_message w o s : step (live [] w o Drain s) (live [] w o Poll s).

(** [wait_for]: the thread gets its action; messages of an earlier one may be left *)
Definition wait_for (qs : list Req) p s : Conf := live qs (Running p) None Poll s.

(** ** The specification: every request is a call *)

Fixpoint direct p : M S R :=
  match p with
  | Ret r => mret r
  | Send q k => '(rep, _) ← process q; direct (k rep)
  end.
Definition process_all qs : M S unit := for_each qs (λ q, '(_, _) ← process q; mret tt).

(** a client whose last request is one it waits for; [b]: nothing it sent is pending *)
Fixpoint ends_answered (b : bool) p : Prop :=
  match p with
  | Ret _ => b = true
  | Send q k => ∀ rep, ends_answered (wants_reply q) (k rep)
  end.

Hypothesis replies : ∀ q s rep b s',
  process q s = Ok ((rep, b), s') → if wants_reply q then is_Some rep else rep = None.

(** *** Runs *)

Definition quiet q : Prop := wants_reply q = false.

Lemma process_all_cons q qs s : process_all (q :: qs) s = ('(_, _) ← process q; process_all qs) s.
Proof.
  unfold process_all. cbn [for_each]. rewrite bind_assoc. unfold mbind, M_bind.
  by destruct (process q s) as [[[rep b] s']| | |].
Qed.
Lemma process_all_app qs qs' s : process_all (qs ++ qs') s = (_ ← process_all qs; process_all qs') s.
Proof.
  revert s. induction qs as [|q qs IH]; intros s; [done|]. rewrite <- app_comm_cons, process_all_cons.
  unfold mbind, M_bind. rewrite process_all_cons. unfold mbind, M_bind.
  destruct (process q s) as [[[rep b] s']| | |]; [|done..]. apply IH.
Qed.

(** what is still to be done, as calls *)
Definition rest qs (w : Worker) (o : option R) : M S R :=
  match w with
  | Running p => _ ← process_all qs; direct p
  | Waiting k =>
      match rev qs with
      | q :: rqs => _ ← process_all (rev rqs); direct (Send q k)
      | [] => panic "nothing to wait for"
      end
  | Finished => _ ← process_all qs; match o with Some r => mret r | None => panic "no result" end
  end.

(** the requests in the queue: only the last may be one the client waits for *)
Definition well_queued qs (w : Worker) : Prop :=
  match w with
  | Waiting _ => ∃ qs' q, qs = qs' ++ [q] ∧ wants_reply q = true ∧ Forall quiet qs'
  | _ => Forall quiet qs
  end.
Definition has_reply (w : Worker) (o : option R) : Prop :=
  match w with Finished => is_Some o | _ => o = None end.

(** what the client still has to send before it is done *)
Definition answered qs (w : Worker) : Prop :=
  match w with
  | Running p => ends_answered (match qs with [] => true | _ => false end) p
  | Waiting k => ∀ rep, ends_answered true (k rep)
  | Finished => qs = []
  end.

(** [out]: what the calls give *)
Definition conf_inv (out : outcome (R * S)) (c : Conf) : Prop :=
  match c with
  | Live y =>
      well_queued (sys_queue y) (sys_worker y) ∧ has_reply (sys_worker y) (sys_reply y) ∧
      rest (sys_queue y) (sys_worker y) (sys_reply y) (sys_store y) = out
  | Returned r s qs => Forall quiet qs ∧ (_ ← process_all qs; mret r) s = out
  | Failed => ∀ a, out ≠ Ok a
  end.
Definition conf_answered (c : Conf) : Prop :=
  match c with
  | Live y => answered (sys_queue y) (sys_worker y)
  | Returned _ _ qs => qs = []
  | Failed => True
  end.

Lemma rest_waiting qs q k o s :
  rest (qs ++ [q]) (Waiting k) o s = (_ ← process_all qs; direct (Send q k)) s.
Proof. unfold rest. rewrite rev_app_distr. simpl. by rewrite rev_involutive. Qed.

Lemma ends_answered_mono p : ends_answered false p → ends_answered true p.
Proof. destruct p; [done|]. done. Qed.

Lemma quiet_reply q s rep b s' : quiet q → process q s = Ok ((rep, b), s') → rep = None.
Proof. intros Hq Hp. pose proof (replies _ _ _ _ _ Hp) as Hr. by rewrite Hq in Hr. Qed.
Lemma loud_reply q s rep b s' : wants_reply q = true → process q s = Ok ((rep, b), s') → ∃ x, rep = Some x.
Proof. intros Hq Hp. pose proof (replies _ _ _ _ _ Hp) as Hr. by rewrite Hq in Hr. Qed.

(** a request is taken from the queue and handled *)
Lemma message_inv q qs w o s rep b s' :
  well_queued (q :: qs) w → has_reply w o → process q s = Ok ((rep, b), s') →
  well_queued qs (deliver rep w) ∧ has_reply (deliver rep w) o ∧
  rest qs (deliver rep w) o s' = rest (q :: qs) w o s ∧
  (answered (q :: qs) w → answered qs (deliver rep w)).
Proof.
  intros Hq Ho Hp. destruct w as [p|k|].
  - apply Forall_cons in Hq as [Hq Hqs]. rewrite (quiet_reply _ _ _ _ _ Hq Hp). cbn [deliver].
    split; [done|]. split; [done|]. split.
    + cbn [rest]. unfold mbind at 2, M_bind at 2. rewrite process_all_cons, (bind_ok _ _ _ _ _ Hp). done.
    + simpl. intros Ha. destruct qs; [by apply ends_answered_mono|done].
  - destruct Hq as (qs' & q' & Heq & Hq' & Hqs'). destruct qs' as [|q0 qs'].
    + simplify_eq/=. destruct (loud_reply _ _ _ _ _ Hq' Hp) as [x ->]. simpl.
      split; [done|]. split; [done|]. split; [|done].
      unfold process_all at 2. cbn [for_each]. rewrite (bind_ok _ _ s s tt) by done.
      by rewrite (bind_ok _ _ _ _ _ Hp).
    + injection Heq as -> ->. apply Forall_cons in Hqs' as [Hq Hqs']. rewrite (quiet_reply _ _ _ _ _ Hq Hp). cbn [deliver].
      split; [by exists qs', q'|]. split; [done|]. split; [|done].
      rewrite app_comm_cons, !rest_waiting. unfold mbind at 2, M_bind at 2.
      rewrite process_all_cons, (bind_ok _ _ _ _ _ Hp). done.
  - apply Forall_cons in Hq as [Hq Hqs]. rewrite (quiet_reply _ _ _ _ _ Hq Hp). cbn [deliver].
    split; [done|]. split; [done|]. split; [|done].
    cbn [rest]. unfold mbind at 2, M_bind at 2. rewrite process_all_cons, (bind_ok _ _ _ _ _ Hp). done.
Qed.

(** ... or fails *)
Lemma error_inv q qs w o s a :
  well_queued (q :: qs) w → (∀ a, process q s ≠ Ok a) → rest (q :: qs) w o s ≠ Ok a.
Proof.
  intros Hq Hp. assert (∀ (f : option Rep * bool → M S R), (process q ≫= f) s ≠ Ok a) as Hbind.
  { intros f. unfold mbind, M_bind. destruct (process q s) as [[b s1]| | |]; [|done..]. by destruct (Hp (b, s1)). }
  assert (∀ qs' (m : M S R), (_ ← process_all (q :: qs'); m) s ≠ Ok a) as Hall.
  { intros qs' m. unfold mbind at 1, M_bind at 1. rewrite process_all_cons.
    unfold mbind, M_bind. destruct (process q s) as [[b s1]| | |]; [|done..]. by destruct (Hp (b, s1)). }
  destruct w as [p|k|]; [apply Hall| |apply Hall].
  destruct Hq as (qs' & q' & Heq & _ & _). rewrite Heq, rest_waiting.
  destruct qs' as [|q0 qs']; injection Heq as -> ->; [|apply Hall].
  unfold process_all. cbn [for_each]. rewrite (bind_ok _ _ s s tt) by done. apply Hbind.
Qed.

Lemma step_inv out c c' : step c c' → conf_inv out c → conf_inv out c'.
Proof.
  destruct 1 as [qs q k o ph s _|qs r o ph s|qs w r s|qs w s|q qs w o s rep b s' Hp|q qs w o s Hp|w o s];
    simpl; try tauto; intros (Hq & Ho & <-).
  - split; [|split].
    + destruct (wants_reply q) eqn:Hw; simpl; [by exists qs, q|].
      apply Forall_app. split; [done|]. by constructor.
    + by destruct (wants_reply q).
    + destruct (wants_reply q) eqn:Hw; [apply rest_waiting|].
      cbn [rest direct]. pose proof (process_all_app qs [q] s) as Happ. unfold mbind, M_bind in *. rewrite Happ.
      destruct (process_all qs s) as [[[] s1]| | |]; [|done..].
      rewrite process_all_cons. unfold mbind, M_bind.
      destruct (process q s1) as [[[rep b] s2]| | |] eqn:Hp; [|done..].
      by rewrite (quiet_reply _ _ _ _ _ Hw Hp).
  - split_and!; done.
  - destruct w as [p|k|]; simpl in Ho; [done..|]. done.
  - by destruct (message_inv q qs w o s rep b s' Hq Ho Hp) as (? & ? & ? & _).
  - intros a. by apply error_inv.
Qed.

Lemma step_answered out c c' : step c c' → conf_inv out c → conf_answered c → conf_answered c'.
Proof.
  destruct 1 as [qs q k o ph s _|qs r o ph s|qs w r s|qs w s|q qs w o s rep b s' Hp|q qs w o s Hp|w o s];
    simpl; try tauto; intros (Hq & Ho & _).
  - intros Ha. destruct (wants_reply q); simpl; [done|]. by destruct qs.
  - destruct qs; [done|done].
  - by destruct w.
  - by destruct (message_inv q qs w o s rep b s' Hq Ho Hp) as (_ & _ & _ & ?).
Qed.

Lemma wait_for_inv qs p s : Forall quiet qs → conf_inv (rest qs (Running p) None s) (wait_for qs p s).
Proof. done. Qed.

Lemma runs_inv c c' out : rtc step c c' → conf_inv out c → conf_inv out c'.
Proof. induction 1 as [|c c1 c' Hs _ IH]; [done|]. intros Hi. apply IH. by eapply step_inv. Qed.
Lemma runs_answered c c' out : rtc step c c' → conf_inv out c → conf_answered c → conf_answered c'.
Proof.
  induction 1 as [|c c1 c' Hs _ IH]; [done|]. intros Hi Ha.
  apply IH; [by eapply step_inv|by eapply step_answered].
Qed.

(** *** Waiting ends *)

Definition ends (c : Conf) : Prop := ∃ r s qs, rtc step c (Returned r s qs).
(** what delivering can do to the thread *)
Definition served (w w' : Worker) : Prop := w' = w ∨ ∃ k rep, w = Waiting k ∧ w' = Running (k rep).

Lemma ends_step c c' : step c c' → ends c' → ends c.
Proof. intros Hs (r & s & qs & Hr). exists r, s, qs. by eapply rtc_l. Qed.
Lemma ends_rtc c c' : rtc step c c' → ends c' → ends c.
Proof. intros Hs (r & s & qs & Hr). exists r, s, qs. by etrans. Qed.
Lemma served_deliver rep w w' : served (deliver rep w) w' → served w w'.
Proof. intros [->|(k & rep' & Hd & ->)]; destruct rep, w; simplify_eq/=; try (by left); right; by eexists _, _. Qed.

Lemma message_runs a q qs w o s :
  conf_inv (Ok a) (live (q :: qs) w o Drain s) →
  ∃ w' ph s', step (live (q :: qs) w o Drain s) (live qs w' o ph s') ∧
    conf_inv (Ok a) (live qs w' o ph s') ∧ ∀ w'', served w' w'' → served w w''.
Proof.
  intros Hi. destruct (process q s) as [[[rep b] s']| | |] eqn:Hp;
    [|exfalso; destruct Hi as (Hq & _ & Hr); simpl in Hq, Hr; eapply error_inv, Hr; [done|by rewrite Hp]..].
  eexists _, _, s'. assert (step _ _) as Hs by by apply (step_message q qs w o s rep b s').
  split; [exact Hs|]. split; [by eapply step_inv|]. intros w''. apply served_deliver.
Qed.

(** the backend empties the queue, and sees the result if there is one *)
Lemma drains_result a qs w r ph s : conf_inv (Ok a) (live qs w (Some r) ph s) → ends (live qs w (Some r) ph s).
Proof.
  revert w ph s. induction qs as [|q qs IH]; intros w [] s Hi;
    try (eexists _, _, _; apply rtc_once; constructor).
  - eapply ends_step; [constructor|]. eexists _, _, _. apply rtc_once. constructor.
  - destruct (message_runs _ _ _ _ _ _ Hi) as (w' & ph & s' & Hs & Hi' & _). eapply ends_step; eauto.
Qed.
Lemma drains a qs w ph s :
  conf_inv (Ok a) (live qs w None ph s) →
  ∃ w' s', served w w' ∧ rtc step (live qs w None ph s) (live [] w' None Poll s').
Proof.
  assert (∀ qs, (∀ w ph s, conf_inv (Ok a) (live qs w None ph s) → ∃ w' s', served w w' ∧
                   rtc step (live qs w None ph s) (live [] w' None Poll s')) →
          ∀ q w s, conf_inv (Ok a) (live (q :: qs) w None Drain s) → ∃ w' s', served w w' ∧
                   rtc step (live (q :: qs) w None Drain s) (live [] w' None Poll s')) as Hmsg.
  { intros qs0 IH q w0 s0 Hi. destruct (message_runs _ _ _ _ _ _ Hi) as (w1 & ph0 & s1 & Hs & Hi' & Hw).
    destruct (IH _ _ _ Hi') as (w' & s' & Hw' & Hr). exists w', s'. split; [by apply Hw|]. by eapply rtc_l. }
  revert w ph s. induction qs as [|q qs IH]; intros w ph s Hi.
  - exists w, s. split; [by left|]. destruct ph; [done|]. apply rtc_once. constructor.
  - destruct ph; [|by apply Hmsg]. destruct (Hmsg qs IH q w s Hi) as (w' & s' & Hw & Hr).
    exists w', s'. split; [done|]. eapply rtc_l; [constructor|done].
Qed.

Lemma running_ends a p : ∀ qs ph s,
  conf_inv (Ok a) (live qs (Running p) None ph s) → ends (live qs (Running p) None ph s).
Proof.
  induction p as [r|q k IH]; intros qs ph s Hi.
  { eapply ends_step; [constructor|]. eapply drains_result, step_inv, Hi. constructor. }
  destruct (drains _ _ _ _ _ Hi) as (w' & s1 & Hw & Hr). apply (ends_rtc _ _ Hr).
  assert (w' = Running (Send q k)) as -> by (destruct Hw as [?|(? & ? & ? & ?)]; done).
  pose proof (runs_inv _ _ _ Hr Hi) as Hi1.
  assert (step _ _) as Hs by by apply (step_send [] q k None Poll s1).
  eapply ends_step; [exact Hs|]. pose proof (step_inv _ _ _ Hs Hi1) as Hi2. clear Hi Hr Hi1 Hs.
  revert Hi2. destruct (wants_reply q); intros Hi2; [|by apply IH].
  destruct (drains _ _ _ _ _ Hi2) as (w' & s2 & Hw' & Hr). apply (ends_rtc _ _ Hr).
  pose proof (runs_inv _ _ _ Hr Hi2) as Hi3. destruct Hw' as [->|(k' & rep & [= <-] & ->)]; [|by apply IH].
  destruct Hi3 as (([] & ? & ? & _) & _); done.
Qed.

Lemma live_ends a c : conf_inv (Ok a) c → c ≠ Failed → ends c.
Proof.
  destruct c as [[qs w o ph s]|r s qs|]; intros Hi Hf; [|by exists r, s, qs|done].
  destruct w as [p|k|]; pose proof Hi as (Hq & Ho & _); simpl in Hq, Ho.
  - subst o. by eapply running_ends.
  - subst o. destruct (drains _ _ _ _ _ Hi) as (w' & s' & Hw & Hr). apply (ends_rtc _ _ Hr).
    pose proof (runs_inv _ _ _ Hr Hi) as Hi'. destruct Hw as [->|(k' & rep & _ & ->)]; [|by eapply running_ends].
    destruct Hi' as (([] & ? & ? & _) & _); done.
  - destruct Ho as [r ->]. by eapply drains_result.
Qed.
End protocol.

(** C37: wait_for, under every schedule of the backend and the client, computes what the
    client computes when each request is a call, up to the unanswered requests still
    queued when it returns, which are none if the client's last request is one it waits
    for; it fails only if the calls do, and if they do not it can always come to an end.
    *)
Theorem wait_for_refines_calls {Req Rep S R} (process : Req → M S (option Rep * bool))
    (wants_reply : Req → bool) (qs : list Req) (p : Prog Req Rep R) (s : S) c :
  (∀ q s rep b s', process q s = Ok ((rep, b), s') → if wants_reply q then is_Some rep else rep = None) →
  Forall (λ q, wants_reply q = false) qs →
  rtc (step process wants_reply) (wait_for qs p s) c →
  let calls := (_ ← process_all process qs; direct process p) s in
  match c with
  | Returned r s' qs' =>
      Forall (λ q, wants_reply q = false) qs' ∧ (_ ← process_all process qs'; mret r) s' = calls ∧
      (ends_answered wants_reply (match qs with [] => true | _ => false end) p →
       qs' = [] ∧ calls = Ok (r, s'))
  | Failed => ∀ a, calls ≠ Ok a
  | Live y => ∀ r s'', calls = Ok (r, s'') →
      ∃ s' qs', rtc (step process wants_reply) c (Returned r s' qs')
  end.
Proof.
  intros Hrep Hq Hruns calls. pose proof (wait_for_inv process wants_reply qs p s Hq) as Hi.
  pose proof (runs_inv _ _ Hrep _ _ _ Hruns Hi) as Hi'. simpl in Hi'. fold calls in Hi'.
  destruct c as [y|r s' qs'|]; [|destruct Hi' as [Hqs' Hr]|done].
  - intros r s'' Hc. rewrite Hc in Hi'.
    destruct (live_ends _ _ Hrep _ _ Hi' ltac:(done)) as (r' & s' & qs' & Hr).
    exists s', qs'. destruct (runs_inv _ _ Hrep _ _ _ Hr Hi') as [_ Hr']. revert Hr'.
    unfold mbind, M_bind. destruct (process_all _ _ _) as [[[] s1]| | |]; [|done..].
    intros [= -> _]. done.
  - split; [done|]. split; [done|]. intros Ha.
    pose proof (runs_answered _ _ Hrep _ _ _ Hruns Hi Ha) as Hnil. simpl in Hnil. subst qs'.
    split; [done|]. by rewrite <- Hr.
Qed.

(** ** [ChannelRequestHandler] *)

(** the requests; the ones with a [oneshot::Sender] are those of [wants_reply] *)
Inductive ChannelRequest (Meta : Type) :=
  | ListManagedFiles
  | RegisterFilesAsManaged (files : list string) (overwrite : bool)
  | SegmentRead (start end_ : Z) (handle : FileEntry)
  | SegmentWrite (path : string) (data : list Z)
  | SegmentFlush (path : string)
  | SegmentWriteTerminate (path : string)
  | GetSegmentComponent (path : string)
  | SaveMetas (metas previous_metas : Meta)
  | LoadMetas
  | ReconsiderMergePolicy (meta previous_meta : Meta).
Arguments ListManagedFiles {_}.
Arguments RegisterFilesAsManaged {_} files overwrite.
Arguments SegmentRead {_} start end_ handle.
Arguments SegmentWrite {_} path data.
Arguments SegmentFlush {_} path.
Arguments SegmentWriteTerminate {_} path.
Arguments GetSegmentComponent {_} path.
Arguments SaveMetas {_} metas previous_metas.
Arguments LoadMetas {_}.
Arguments ReconsiderMergePolicy {_} meta previous_meta.

Inductive Answer (Meta : Type) :=
  | ManagedFiles (files : gset string)
  | Bytes (data : list Z)
  | Component (entry : FileEntry)
  | Metas (meta : Meta)
  | Policy (policy : BoxedMergePolicy).
Arguments ManagedFiles {_} files.
Arguments Bytes {_} data.
Arguments Component {_} entry.
Arguments Metas {_} meta.
Arguments Policy {_} policy.

Definition wants_answer {Meta} (q : ChannelRequest Meta) : bool :=
  match q with
  | ListManagedFiles | SegmentRead _ _ _ | GetSegmentComponent _ | LoadMetas | ReconsiderMergePolicy _ _ => true
  | RegisterFilesAsManaged _ _ | SegmentWrite _ _ | SegmentFlush _ | SegmentWriteTerminate _ | SaveMetas _ _ => false
  end.

Record ChannelRequestHandler := {
  h_writers : gmap string SegmentComponentWriter;
  h_readers : gmap FileEntry SegmentComponentReader;
  h_file_entries : gmap string FileEntry;
  (* [directory.merge_lock] *)
  h_merge_lock : bool
}.
Definition set_writers (f : gmap string SegmentComponentWriter → gmap string SegmentComponentWriter) h :=
  {| h_writers := f (h_writers h); h_readers := h_readers h; h_file_entries := h_file_entries h;
     h_merge_lock := h_merge_lock h |}.
Definition set_readers (f : gmap FileEntry SegmentComponentReader → gmap FileEntry SegmentComponentReader) h :=
  {| h_writers := h_writers h; h_readers := f (h_readers h); h_file_entries := h_file_entries h;
     h_merge_lock := h_merge_lock h |}.
Definition set_file_entries (f : gmap string FileEntry → gmap string FileEntry) h :=
  {| h_writers := h_writers h; h_readers := h_readers h; h_file_entries := f (h_file_entries h);
     h_merge_lock := h_merge_lock h |}.
Definition set_merge_lock (b : bool) h :=
  {| h_writers := h_writers h; h_readers := h_readers h; h_file_entries := h_file_entries h; h_merge_lock := b |}.

(** the handler and the relation *)
Notation Backend := (ChannelRequestHandler * Rel)%type.

Definition on_rel {A} (m : M Rel A) : M Backend A := λ s,
  match m s.2 with
  | Ok (a, r) => Ok (a, (s.1, r))
  | Err e => Err e
  | Panic e => Panic e
  | NoFuel => NoFuel
  end.
Definition handler {A} (f : ChannelRequestHandler → A) : M Backend A := gets (λ s, f s.1).
Definition update (f : ChannelRequestHandler → ChannelRequestHandler) : M Backend unit :=
  modify (λ s, (f s.1, s.2)).

Section handler.
Context `{TI : TantivyIndex} `{!TantivySegments} `{!HashOrder} `{BitPacking, PgPage, PgXact, PgBuffers}.
Context {Schema IndexSettings : Type} `{SerdeJson Schema} `{SerdeJson IndexSettings}.
Context `{PgItem SegmentMetaEntry}.
(** the handler's [MVCCDirectory], the active snapshot and the machine's parallelism *)
Context (mvcc_style : MvccSatisfies) (merge_policy : AllowedMergePolicy) (snapshot : Snapshot)
  (available_parallelism : Z).
Notation Meta := (IndexMeta Schema IndexSettings).
Notation Request := (ChannelRequest Meta).

(** [Write::write_all] of the writer of a segment: [write] until nothing is left *)
Fixpoint scw_write_all_loop (fuel : nat) (w : SegmentComponentWriter) (data : list Z)
    : M Rel SegmentComponentWriter :=
  match data with
  | [] => mret w
  | _ =>
      match fuel with
      | O => no_fuel
      | S fuel =>
          '(n, w) ← scw_write w data;
          if n =? 0 then fail "failed to write whole buffer" else scw_write_all_loop fuel w (zdrop n data)
      end
  end.

(** [ChannelRequestHandler::process_message]: the answer it sends, and [ShouldTerminate] *)
Definition process_message (message : Request) : M Backend (option (Answer Meta) * bool) :=
  match message with
  | ListManagedFiles =>
      managed_files ← on_rel list_managed_files;
      mret (Some (ManagedFiles managed_files), false)
  | RegisterFilesAsManaged files overwrite =>
      (* [MVCCDirectory::register_files_as_managed] does nothing *)
      mret (None, false)
  | GetSegmentComponent path =>
      file_entries ← handler h_file_entries;
      match file_entries !! path with
      | Some file_entry => mret (Some (Component file_entry), false)
      | None =>
          file_entry ← on_rel (directory_lookup path);
          mret (Some (Component file_entry), false)
      end
  | SegmentRead start end_ handle =>
      readers ← handler h_readers;
      reader ← match readers !! handle with
               | Some reader => mret reader
               | None => on_rel (scr_new handle)
               end;
      '(data, reader) ← on_rel (scr_read_bytes reader start end_);
      _ ← update (set_readers (insert handle reader));
      mret (Some (Bytes data), false)
  | SegmentWrite path data =>
      writers ← handler h_writers;
      writer ← match writers !! path with
               | Some writer => mret writer
               | None => on_rel (scw_new path)
               end;
      writer ← on_rel (scw_write_all_loop (length data) writer data);
      _ ← update (set_writers (insert path writer));
      mret (None, false)
  | SegmentFlush path =>
      writers ← handler h_writers;
      match writers !! path with
      | Some writer =>
          writer ← on_rel (scw_flush writer);
          _ ← update (set_writers (insert path writer));
          mret (None, false)
      | None => mret (None, false)
      end
  | SegmentWriteTerminate path =>
      writers ← handler h_writers;
      writer ← expect (writers !! path) "writer should exist";
      _ ← update (set_writers (base.delete path));
      _ ← update (set_file_entries (insert (scw_path writer) (scw_file_entry writer)));
      _ ← on_rel (writer ← scw_terminate_ref writer; scw_drop writer);
      mret (None, false)
  | SaveMetas metas previous_metas =>
      file_entries ← handler h_file_entries;
      file_entries ← on_rel (save_metas metas previous_metas file_entries);
      _ ← update (set_file_entries (λ _, file_entries));
      mret (None, false)
  | LoadMetas =>
      metas ← on_rel (load_metas snapshot mvcc_style);
      mret (Some (Metas metas), false)
  | ReconsiderMergePolicy meta previous_meta =>
      held ← handler h_merge_lock;
      '(policy, acquired) ← on_rel
        (reconsider_merge_policy available_parallelism merge_policy (im_segments meta) (im_segments previous_meta));
      (* a lock the directory held is dropped when it is replaced *)
      _ ← (if acquired && held then on_rel merge_lock_drop else mret tt);
      _ ← update (set_merge_lock (held || acquired));
      mret (Some (Policy policy), false)
  end.

(** ** The client's side: [ChannelWriter], [ChannelReader] and [ChannelDirectory] *)

Notation Client := (Prog Request (Answer Meta)).

(** a request without a reply, and one with *)
Definition send_request (q : Request) : Client unit := Send q (λ _, Ret tt).
Definition recv_reply {A} (q : Request) (f : Answer Meta → option A) : Client (option A) :=
  Send q (λ rep, Ret (rep ≫= f)).

(** what the client does to the file of a path, through a [BufWriter] *)
Inductive FileOp := WriteBytes (data : list Z) | FlushBytes.
Definition cw_write (path : string) (data : list Z) : Client Z :=
  _ ← send_request (SegmentWrite path data); mret (zlen data).
Definition cw_flush (path : string) : Client unit := send_request (SegmentFlush path).
Definition cw_terminate_ref (path : string) : Client unit := send_request (SegmentWriteTerminate path).

Definition cr_new (path : string) : Client (option FileEntry) :=
  recv_reply (GetSegmentComponent path) (λ a, match a with Component e => Some e | _ => None end).
Definition cr_read_bytes (entry : FileEntry) (start end_ : Z) : Client (option (list Z)) :=
  recv_reply (SegmentRead start end_ entry) (λ a, match a with Bytes d => Some d | _ => None end).

Definition cd_list_managed_files : Client (option (gset string)) :=
  recv_reply ListManagedFiles (λ a, match a with ManagedFiles f => Some f | _ => None end).
Definition cd_register_files_as_managed (files : list string) (overwrite : bool) : Client unit :=
  send_request (RegisterFilesAsManaged files overwrite).
Definition cd_save_metas (meta previous_meta : Meta) : Client unit :=
  send_request (SaveMetas meta previous_meta).
Definition cd_load_metas : Client (option Meta) :=
  recv_reply LoadMetas (λ a, match a with Metas m => Some m | _ => None end).
Definition cd_reconsider_merge_policy (meta previous_meta : Meta) : Client (option BoxedMergePolicy) :=
  recv_reply (ReconsiderMergePolicy meta previous_meta) (λ a, match a with Policy p => Some p | _ => None end).

(** a file is written, closed, opened and read *)
Fixpoint write_ops (path : string) (ops : list FileOp) : Client unit :=
  match ops with
  | [] => mret tt
  | WriteBytes data :: ops => _ ← cw_write path data; write_ops path ops
  | FlushBytes :: ops => _ ← cw_flush path; write_ops path ops
  end.
Fixpoint read_all_ranges (entry : FileEntry) (ranges : list (Z * Z)) : Client (list (option (list Z))) :=
  match ranges with
  | [] => mret []
  | (start, end_) :: ranges =>
      d ← cr_read_bytes entry start end_;
      ds ← read_all_ranges entry ranges;
      mret (d :: ds)
  end.
Definition write_and_read (path : string) (ops : list FileOp) (ranges : list (Z * Z))
    : Client (option (list (option (list Z)))) :=
  _ ← write_ops path ops;
  _ ← cw_terminate_ref path;
  entry ← cr_new path;
  match entry with
  | Some entry => ds ← read_all_ranges entry ranges; mret (Some ds)
  | None => mret None
  end.
End handler.

(** ** Clients as calls *)

Section direct_lemmas.
Context {Req Rep S : Type} (process : Req → M S (option Rep * bool)) (wants_reply : Req → bool).

Lemma direct_bind {A B} (p : Prog Req Rep A) (f : A → Prog Req Rep B) s :
  direct process (p ≫= f) s = (a ← direct process p; direct process (f a)) s.
Proof.
  revert s. induction p as [a|q k IH]; intros s; [done|].
  change (Send q k ≫= f) with (Send q (λ rep, k rep ≫= f)). cbn [direct]. unfold mbind, M_bind in *.
  destruct (process q s) as [[[rep b] s']| | |]; [|done..]. apply IH.
Qed.
Lemma direct_ok {A B} (p : Prog Req Rep A) (f : A → Prog Req Rep B) s a s' :
  direct process p s = Ok (a, s') → direct process (p ≫= f) s = direct process (f a) s'.
Proof. intros Hp. rewrite direct_bind. exact (bind_ok _ (λ a, direct process (f a)) _ _ _ Hp). Qed.

Lemma ends_answered_bind {A B} (p : Prog Req Rep A) (f : A → Prog Req Rep B) b :
  (∀ a b, ends_answered wants_reply b (f a)) → ends_answered wants_reply b (p ≫= f).
Proof.
  intros Hf. revert b. induction p as [a|q k IH]; intros b; [apply Hf|]. intros rep. apply IH.
Qed.
Lemma ends_answered_then {A B} (p : Prog Req Rep A) (f : A → Prog Req Rep B) b :
  ends_answered wants_reply b p → (∀ a, ends_answered wants_reply true (f a)) →
  ends_answered wants_reply b (p ≫= f).
Proof.
  revert b. induction p as [a|q k IH]; intros b Hp Hf; [simpl in Hp; subst b; apply Hf|].
  intros rep. apply IH; [apply Hp|done].
Qed.
End direct_lemmas.

Lemma on_rel_ok {A} (m : M Rel A) h r a r' : m r = Ok (a, r') → on_rel m (h, r) = Ok (a, (h, r')).
Proof. intros Hm. unfold on_rel. cbn [fst snd]. by rewrite Hm. Qed.

Section client_lemmas.
Context `{TI : TantivyIndex} `{!TantivySegments} `{!HashOrder} `{BitPacking, PgPage, PgXact, PgBuffers}.
Context {Schema IndexSettings : Type} `{SerdeJson Schema} `{SerdeJson IndexSettings}.
Context `{PgItem SegmentMetaEntry}.
Context (mvcc_style : MvccSatisfies) (merge_policy : AllowedMergePolicy) (snapshot : Snapshot)
  (available_parallelism : Z).
Notation Meta := (IndexMeta Schema IndexSettings).
Notation process_message := (process_message (Schema:=Schema) (IndexSettings:=IndexSettings)
  mvcc_style merge_policy snapshot available_parallelism).
Notation calls := (direct process_message).
Implicit Types (r : Rel) (h : ChannelRequestHandler) (path : string) (data content : list Z).

(** the requests with a sender are answered, the others are not *)
Lemma process_message_replies (q : ChannelRequest Meta) s rep b s' :
  process_message q s = Ok ((rep, b), s') → if wants_answer q then is_Some rep else rep = None.
Proof.
  assert (∀ {A} (m : M Backend A) (o : option (Answer Meta)) s1,
    (_ ← m; mret (o, false)) s1 = Ok ((rep, b), s') → rep = o) as Hret.
  { intros A m o s1 (? & ? & _ & Hr)%bind_inv. by injection Hr. }
  destruct q; cbn [process_message wants_answer]; intros Hp.
  - apply bind_inv in Hp as (files & s1 & _ & [= <- _ _]). done.
  - by injection Hp.
  - apply bind_inv in Hp as (? & ? & _ & Hp). apply bind_inv in Hp as (? & ? & _ & Hp).
    apply bind_inv in Hp as ([] & ? & _ & Hp). by apply Hret in Hp as ->.
  - apply bind_inv in Hp as (? & ? & _ & Hp). apply bind_inv in Hp as (? & ? & _ & Hp).
    apply bind_inv in Hp as (? & ? & _ & Hp). by apply Hret in Hp.
  - apply bind_inv in Hp as (ws & ? & _ & Hp). destruct (ws !! path); [|by injection Hp].
    apply bind_inv in Hp as (? & ? & _ & Hp). by apply Hret in Hp.
  - apply bind_inv in Hp as (? & ? & _ & Hp). apply bind_inv in Hp as (? & ? & _ & Hp).
    apply bind_inv in Hp as (? & ? & _ & Hp). apply bind_inv in Hp as (? & ? & _ & Hp). by apply Hret in Hp.
  - apply bind_inv in Hp as (fs & ? & _ & Hp). destruct (fs !! path); [by injection Hp as <-|].
    apply bind_inv in Hp as (? & ? & _ & [= <- _ _]). done.
  - apply bind_inv in Hp as (? & ? & _ & Hp). apply bind_inv in Hp as (? & ? & _ & Hp). by apply Hret in Hp.
  - apply bind_inv in Hp as (? & ? & _ & [= <- _ _]). done.
  - apply bind_inv in Hp as (? & ? & _ & Hp). apply bind_inv in Hp as ([] & ? & _ & Hp).
    apply bind_inv in Hp as (? & ? & _ & Hp). by apply Hret in Hp as ->.
Qed.

(** *** Writing *)

Definition op_bytes (op : FileOp) : list Z := match op with WriteBytes data => data | FlushBytes => [] end.

(** the file of [path] is being written and holds [content] *)
Definition path_writing r0 path h r content : Prop :=
  ∃ w, h_writers h !! path = Some w ∧ eb_ok r0 r (scw_buffer w) (scw_header_blockno w) content ∧
    scw_total_bytes w = zlen content ∧ scw_path w = path.
(** nothing but the writer of [path] changes *)
Definition only_writer path h h' : Prop :=
  h_readers h' = h_readers h ∧ h_file_entries h' = h_file_entries h ∧
  ∀ path', path' ≠ path → h_writers h' !! path' = h_writers h !! path'.

Lemma write_all_loop_spec r0 r w hd content data :
  eb_ok r0 r (scw_buffer w) hd content → room r0 (zlen (content ++ data)) →
  scw_total_bytes w = zlen content →
  ∃ w' r', scw_write_all_loop (length data) w data r = Ok (w', r') ∧
    eb_ok r0 r' (scw_buffer w') hd (content ++ data) ∧ scw_total_bytes w' = zlen (content ++ data) ∧
    scw_header_blockno w' = scw_header_blockno w ∧ scw_path w' = scw_path w.
Proof.
  intros He Hroom Ht. destruct data as [|x data]; [exists w, r; by rewrite app_nil_r|].
  destruct (eb_write_spec r0 r (scw_buffer w) hd content (x :: data) He Hroom) as (e1 & r1 & Hrun & He1).
  exists (with_buffer e1 (scw_total_bytes w + zlen (x :: data)) w), r1. split.
  - cbn [length scw_write_all_loop]. unfold scw_write.
    rewrite (bind_ok (_ ← _; _) _ r r1 (zlen (x :: data), with_buffer e1 (scw_total_bytes w + zlen (x :: data)) w)).
    2: { by rewrite (bind_ok _ _ _ _ _ Hrun). }
    cbn [fst snd]. assert (zlen (x :: data) ≠ 0) as Hz by (intros Hz; by apply zlen_zero in Hz).
    rewrite (proj2 (Z.eqb_neq _ _) Hz), zdrop_ge by lia. by destruct (length data).
  - split; [done|]. simpl. rewrite zlen_app, Ht. done.
Qed.

Lemma only_writer_insert path w h : only_writer path h (set_writers (insert path w) h).
Proof. split_and!; [done..|]. intros path' Hp. by apply lookup_insert_ne. Qed.
Lemma only_writer_trans path h h1 h2 : only_writer path h h1 → only_writer path h1 h2 → only_writer path h h2.
Proof.
  intros (Hr & Hf & Hw) (Hr' & Hf' & Hw'). split_and!; [congruence..|]. intros path' Hp. by rewrite Hw', Hw.
Qed.

(** [SegmentWrite], once its writer is there *)
Lemma write_message_run r0 path h r r1 w content data (m : M Backend SegmentComponentWriter) :
  m (h, r) = Ok (w, (h, r1)) →
  eb_ok r0 r1 (scw_buffer w) (scw_header_blockno w) content → scw_total_bytes w = zlen content →
  scw_path w = path → room r0 (zlen (content ++ data)) →
  ∃ h' r', (writer ← m;
            writer ← on_rel (scw_write_all_loop (length data) writer data);
            _ ← update (set_writers (insert path writer));
            mret (None (A:=Answer Meta), false)) (h, r) = Ok ((None, false), (h', r')) ∧
    path_writing r0 path h' r' (content ++ data) ∧ only_writer path h h'.
Proof.
  intros Hm He Ht Hp Hroom.
  destruct (write_all_loop_spec r0 r1 w _ content data He Hroom Ht) as (w' & r' & Hrun & He' & Ht' & Hh' & Hp').
  exists (set_writers (insert path w') h), r'. split; [|split; [|apply only_writer_insert]].
  - rewrite (bind_ok _ _ _ _ _ Hm). by rewrite (bind_ok _ _ _ _ _ (on_rel_ok _ h _ _ _ Hrun)).
  - exists w'. rewrite Hh'. split_and!; [apply lookup_insert_eq|done|done|congruence].
Qed.
Lemma write_first path h r data :
  h_writers h !! path = None → rel_wf r → in_use r 0 → packs_any ∨ rel_fsm r = ∅ → room r (zlen data) →
  ∃ h' r', process_message (SegmentWrite path data) (h, r) = Ok ((None, false), (h', r')) ∧
    path_writing (upd_cache (λ _, ∅) r) path h' r' data ∧ only_writer path h h'.
Proof.
  intros Hno Hwf Huse Hpk Hroom.
  destruct (scw_new_spec path r Hwf Huse Hpk) as (w & r1 & Hrun & He & Ht).
  { unfold room in *. pose proof (zlen_nonneg data). lia. }
  apply (write_message_run _ path h r r1 w [] data); [|done|done| |done].
  - cbn [fst]. rewrite Hno. by apply on_rel_ok.
  - unfold scw_new in Hrun. apply bind_inv in Hrun as (l & r2 & _ & [= <- _]). done.
Qed.
Lemma write_next r0 path h r content data :
  path_writing r0 path h r content → room r0 (zlen (content ++ data)) →
  ∃ h' r', process_message (SegmentWrite path data) (h, r) = Ok ((None, false), (h', r')) ∧
    path_writing r0 path h' r' (content ++ data) ∧ only_writer path h h'.
Proof.
  intros (w & Hw & He & Ht & Hp) Hroom. apply (write_message_run r0 path h r r w content data); try done.
  cbn [fst]. by rewrite Hw.
Qed.
Lemma flush_next r0 path h r content :
  path_writing r0 path h r content → room r0 (zlen content) →
  ∃ h' r', process_message (SegmentFlush path) (h, r) = Ok ((None, false), (h', r')) ∧
    path_writing r0 path h' r' content ∧ only_writer path h h'.
Proof.
  intros (w & Hw & He & Ht & Hp) Hroom. pose proof bm25_max_free_space_range.
  destruct (eb_flush_spec r0 r _ _ content He Hroom) as (e' & r' & blks & Hrun & Hby & Hlen & Hbuf & _).
  exists (set_writers (insert path (with_buffer e' (scw_total_bytes w) w)) h), r'.
  split; [|split; [|apply only_writer_insert]].
  - cbn [process_message]. rewrite (bind_ok (handler _) _ (h, r) (h, r) (h_writers h)) by done. rewrite Hw.
    rewrite (bind_ok (on_rel _) _ (h, r) (h, r') (with_buffer e' (scw_total_bytes w) w)); [done|].
    apply on_rel_ok. unfold scw_flush. by rewrite (bind_ok _ _ _ _ _ Hrun).
  - eexists. split; [apply lookup_insert_eq|]. simpl. split; [|done].
    exists blks, content. destruct He as (_ & _ & _ & Hbl & _). rewrite Hlen, ztake_0, app_nil_r, Hbuf.
    split_and!; try done; lia.
Qed.

Lemma write_ops_run r0 path h r content ops :
  path_writing r0 path h r content → room r0 (zlen (content ++ concat (op_bytes <$> ops))) →
  ∃ h' r', calls (write_ops path ops) (h, r) = Ok (tt, (h', r')) ∧
    path_writing r0 path h' r' (content ++ concat (op_bytes <$> ops)) ∧ only_writer path h h'.
Proof.
  revert h r content. induction ops as [|op ops IH]; intros h r content Hw Hroom.
  { exists h, r. by rewrite app_nil_r. }
  cbn [fmap list_fmap concat] in *.
  rewrite app_assoc in *.
  assert (∃ q, write_ops path (op :: ops) = Send q (λ _, write_ops path ops) ∧
    ∃ h1 r1, process_message q (h, r) = Ok ((None, false), (h1, r1)) ∧
      path_writing r0 path h1 r1 (content ++ op_bytes op) ∧ only_writer path h h1)
    as (q & -> & h1 & r1 & Hrun & Hw1 & Ho1).
  { apply room_app in Hroom. destruct op as [data|]; simpl op_bytes in *.
    - exists (SegmentWrite path data). split; [done|]. by apply write_next.
    - rewrite app_nil_r in *. exists (SegmentFlush path). split; [done|]. by apply flush_next. }
  destruct (IH h1 r1 _ Hw1 Hroom) as (h' & r' & Hrun' & Hw' & Ho').
  exists h', r'. split; [|split; [done|by eapply only_writer_trans]].
  cbn [direct]. by rewrite (bind_ok _ _ _ _ _ Hrun).
Qed.

(** flushes before the first write find no writer *)
Lemma write_ops_first path h r ops :
  h_writers h !! path = None → Exists (λ op, op ≠ FlushBytes) ops →
  rel_wf r → in_use r 0 → packs_any ∨ rel_fsm r = ∅ → room r (zlen (concat (op_bytes <$> ops))) →
  ∃ h' r', calls (write_ops path ops) (h, r) = Ok (tt, (h', r')) ∧
    path_writing (upd_cache (λ _, ∅) r) path h' r' (concat (op_bytes <$> ops)) ∧ only_writer path h h'.
Proof.
  intros Hno Hex Hwf Huse Hpk. induction ops as [|op ops IH]; intros Hroom; [by inversion Hex|].
  destruct op as [data|].
  - cbn [fmap list_fmap concat op_bytes] in *.
    destruct (write_first path h r data Hno Hwf Huse Hpk (room_app _ _ _ Hroom)) as (h1 & r1 & Hrun & Hw & Ho).
    destruct (write_ops_run _ path h1 r1 data ops Hw Hroom) as (h' & r' & Hrun' & Hw' & Ho').
    exists h', r'. split; [|split; [done|by eapply only_writer_trans]].
    change (write_ops path (WriteBytes data :: ops)) with
      (Send (R:=()) (SegmentWrite (Meta:=Meta) path data) (λ _, write_ops path ops)).
    cbn [direct]. by rewrite (bind_ok _ _ _ _ _ Hrun).
  - apply Exists_cons in Hex as [|Hex]; [done|]. destruct (IH Hex Hroom) as (h' & r' & Hrun & Hrest).
    exists h', r'. split; [|done].
    change (write_ops path (FlushBytes :: ops)) with
      (Send (R:=()) (SegmentFlush (Meta:=Meta) path) (λ _, write_ops path ops)).
    cbn [direct process_message]. rewrite bind_assoc.
    rewrite (bind_ok (handler _) _ (h, r) (h, r) (h_writers h)) by done. by rewrite Hno.
Qed.

Lemma terminate_message_run r0 path h r content :
  path_writing r0 path h r content → room r0 (zlen content) →
  ∃ h' r' entry md blks, process_message (SegmentWriteTerminate path) (h, r) = Ok ((None, false), (h', r')) ∧
    h_file_entries h' !! path = Some entry ∧ h_readers h' = h_readers h ∧
    total_bytes entry = zlen content ∧ ¬ in_use r0 (staring_block entry) ∧
    file_at r' (staring_block entry) md blks content ∧ rel_wf r' ∧
    (∀ b, in_use r0 b → rel_pages r' !! b = rel_pages r0 !! b).
Proof.
  intros (w & Hw & He & Ht & Hp) Hroom.
  destruct (terminate_spec r0 r w _ content He Hroom) as (_ & r' & md & blks & Hrun & _ & Hf & Hwf & Hsame).
  exists (set_file_entries (insert (scw_path w) (scw_file_entry w)) (set_writers (base.delete path) h)), r',
    (scw_file_entry w), md, blks.
  split_and!; try done.
  - cbn [process_message]. rewrite (bind_ok (handler _) _ (h, r) (h, r) (h_writers h)) by done.
    rewrite (bind_ok (expect _ _) _ (h, r) (h, r) w) by by rewrite Hw.
    rewrite (bind_ok (update _) _ (h, r) (set_writers (base.delete path) h, r) tt) by done.
    erewrite (bind_ok (update _)) by done. cbn [fst snd].
    rewrite (bind_ok (on_rel _) _ _ (set_file_entries (insert (scw_path w) (scw_file_entry w))
      (set_writers (base.delete path) h), r') tt); [done|].
    apply on_rel_ok. apply bind_inv in Hrun as (w1 & r1 & Hrun1 & Hrun2).
    rewrite (bind_ok _ _ _ _ _ Hrun1). apply bind_inv in Hrun2 as ([] & r2 & Hrun2 & Heq).
    unfold mret, M_ret in Heq. by assert (r2 = r') as -> by congruence.
  - simpl. rewrite Hp. apply lookup_insert_eq.
  - destruct He as (bs & c & (_ & _ & _ & Hnew) & _). apply (Hnew (scw_header_blockno w)). left.
Qed.

(** *** Reading *)

Definition get_reader (handle : FileEntry) : M Backend SegmentComponentReader :=
  readers ← handler h_readers;
  match readers !! handle with Some reader => mret reader | None => on_rel (scr_new handle) end.
(** a reader of [entry], cached or new, would read [content] *)
Definition reader_ready entry h r md blks content : Prop :=
  ∃ s r1, get_reader entry (h, r) = Ok (s, (h, r1)) ∧ scr_ok r1 s md blks content ∧ rel_pages r1 = rel_pages r.

Lemma read_message_run entry h r md blks content start end_ :
  reader_ready entry h r md blks content → 0 ≤ start < zlen content →
  ∃ h' r', process_message (SegmentRead start end_ entry) (h, r) =
      Ok ((Some (Bytes (clamped content start end_)), false), (h', r')) ∧
    reader_ready entry h' r' md blks content ∧ rel_pages r' = rel_pages r.
Proof.
  intros (s & r1 & Hget & Hok & Hp1) Hs.
  destruct (scr_read_bytes_spec r1 s md blks content start end_ Hok Hs) as (s' & r' & Hrun & Hok' & Hp2).
  exists (set_readers (insert entry s') h), r'. split; [|split; [|congruence]].
  - cbn [process_message]. etransitivity.
    { symmetry. apply (bind_assoc (handler h_readers) (λ readers,
        match readers !! entry with Some reader => mret reader | None => on_rel (scr_new entry) end)). }
    fold (get_reader entry). rewrite (bind_ok _ _ _ _ _ Hget). by rewrite (bind_ok _ _ _ _ _ (on_rel_ok _ h _ _ _ Hrun)).
  - exists s', r'. split; [|done]. unfold get_reader.
    rewrite (bind_ok (handler _) _ _ _ (h_readers (set_readers (insert entry s') h))) by done.
    simpl. by rewrite lookup_insert_eq.
Qed.

Lemma read_all_ranges_run entry h r md blks content ranges :
  reader_ready entry h r md blks content → Forall (λ se, 0 ≤ se.1 < zlen content) ranges →
  ∃ h' r', calls (read_all_ranges entry ranges) (h, r) =
      Ok ((λ se, Some (clamped content se.1 se.2)) <$> ranges, (h', r')) ∧ rel_pages r' = rel_pages r.
Proof.
  revert h r. induction ranges as [|[start end_] ranges IH]; intros h r Hr Hs; [by exists h, r|].
  apply Forall_cons in Hs as [Hs Hss].
  destruct (read_message_run entry h r md blks content start end_ Hr Hs) as (h1 & r1 & Hrun & Hr1 & Hp1).
  destruct (IH h1 r1 Hr1 Hss) as (h' & r' & Hrun' & Hp'). exists h', r'. split; [|congruence].
  cbn [read_all_ranges]. rewrite (direct_ok _ _ _ _ (Some (clamped content start end_)) (h1, r1)).
  - by rewrite (direct_ok _ _ _ _ _ _ Hrun').
  - cbn [cr_read_bytes recv_reply direct]. by rewrite (bind_ok _ _ _ _ _ Hrun).
Qed.

Lemma write_and_read_run path h r ops ranges :
  h_writers h !! path = None → Exists (λ op, op ≠ FlushBytes) ops →
  (∀ fe, is_Some (h_readers h !! fe) → in_use r (staring_block fe)) →
  rel_wf r → in_use r 0 → packs_any ∨ rel_fsm r = ∅ →
  let content := concat (op_bytes <$> ops) in
  room r (zlen content) → Forall (λ se, 0 ≤ se.1 < zlen content) ranges →
  ∃ s, calls (write_and_read path ops ranges) (h, r) =
      Ok (Some ((λ se, Some (clamped content se.1 se.2)) <$> ranges), s) ∧
    ∀ b, in_use r b → rel_pages s.2 !! b = rel_pages r !! b.
Proof.
  intros Hno Hex Hreaders Hwf Huse Hpk content Hroom Hs.
  destruct (write_ops_first path h r ops Hno Hex Hwf Huse Hpk Hroom) as (h1 & r1 & Hrun1 & Hw1 & Hrd1 & _).
  destruct (terminate_message_run _ path h1 r1 content Hw1 Hroom)
    as (h2 & r2 & entry & md & blks & Hrun2 & Hentry & Hrd2 & Ht & Hfree & Hf & Hwf2 & Hsame).
  assert (reader_ready entry h2 r2 md blks content) as Hready.
  { destruct (scr_new_spec r2 entry md blks content Hwf2 Hf Ht) as (s & r3 & Hrun3 & Hok & Hp3).
    exists s, r3. split; [|done]. unfold get_reader.
    rewrite (bind_ok (handler _) _ (h2, r2) (h2, r2) (h_readers h2)) by done.
    destruct (h_readers h2 !! entry) eqn:Hrd; [|by apply on_rel_ok].
    exfalso. apply Hfree, (Hreaders entry). by rewrite <- Hrd1, <- Hrd2, Hrd. }
  destruct (read_all_ranges_run entry h2 r2 md blks content ranges Hready Hs) as (h' & r' & Hrun4 & Hp4).
  exists (h', r'). split; [|intros b Hb; simpl; rewrite Hp4; by apply Hsame].
  unfold write_and_read. rewrite (direct_ok _ _ _ _ _ _ Hrun1).
  rewrite (direct_ok _ _ _ _ tt (h2, r2)) by (cbn [cw_terminate_ref send_request direct]; by rewrite (bind_ok _ _ _ _ _ Hrun2)).
  rewrite (direct_ok _ _ _ _ (Some entry) (h2, r2)).
  2: { cbn [cr_new recv_reply direct process_message]. rewrite bind_assoc.
       rewrite (bind_ok (handler _) _ (h2, r2) (h2, r2) (h_file_entries h2)) by done. by rewrite Hentry. }
  by rewrite (direct_ok _ _ _ _ _ _ Hrun4).
Qed.

Lemma read_all_ranges_answered entry ranges :
  ends_answered (wants_answer (Meta:=Meta)) true (read_all_ranges entry ranges).
Proof.
  induction ranges as [|[start end_] ranges IH]; [done|].
  apply ends_answered_then; [done|]. intros d. by apply ends_answered_then.
Qed.
Lemma write_and_read_answered path ops ranges b :
  ends_answered (wants_answer (Meta:=Meta)) b (write_and_read path ops ranges).
Proof.
  apply ends_answered_bind. intros [] b1. apply ends_answered_bind. intros [] b2.
  apply ends_answered_then; [done|]. intros [entry|]; [|done].
  apply ends_answered_then; [apply read_all_ranges_answered|done].
Qed.
End client_lemmas.

(** C36: In every interleaving of the backend and a client that writes a file through
    the channel, closes it, opens it and reads it, nothing fails, the wait can end, and
    when it does the client has read exactly those slices of what it wrote, no request
    is left, and no page in use before has changed. *)
Theorem channel_file_roundtrip `{TI : TantivyIndex} `{!TantivySegments} `{!HashOrder}
    `{BitPacking, PgPage, PgXact, PgBuffers} {Schema IndexSettings : Type}
    `{SerdeJson Schema} `{SerdeJson IndexSettings} `{PgItem SegmentMetaEntry}
    mvcc_style merge_policy snapshot available_parallelism
    (h : ChannelRequestHandler) (r : Rel) (path : string) (ops : list FileOp) (ranges : list (Z * Z)) c :
  let process := process_message (Schema:=Schema) (IndexSettings:=IndexSettings)
    mvcc_style merge_policy snapshot available_parallelism in
  let content := concat (op_bytes <$> ops) in
  h_writers h !! path = None → Exists (λ op, op ≠ FlushBytes) ops →
  (∀ fe, is_Some (h_readers h !! fe) → in_use r (staring_block fe)) →
  rel_wf r → in_use r 0 → packs_any ∨ rel_fsm r = ∅ →
  rel_nblocks r + 3 * zlen content + 3 < InvalidBlockNumber →
  Forall (λ se, 0 ≤ se.1 < zlen content) ranges →
  rtc (step process wants_answer) (wait_for [] (write_and_read path ops ranges) (h, r)) c →
  c ≠ Failed ∧
  (∃ ds s qs, rtc (step process wants_answer) c (Returned ds s qs)) ∧
  ∀ ds s qs, c = Returned ds s qs →
    qs = [] ∧
    ds = Some ((λ se, Some (zslice se.1 (range_len se.1 (Z.min se.2 (zlen content))) content)) <$> ranges) ∧
    ∀ b, in_use r b → rel_pages s.2 !! b = rel_pages r !! b.
Proof.
  intros process content Hno Hex Hreaders Hwf Huse Hpk Hroom Hs Hruns.
  destruct (write_and_read_run (Schema:=Schema) (IndexSettings:=IndexSettings) mvcc_style merge_policy snapshot available_parallelism path h r ops ranges
    Hno Hex Hreaders Hwf Huse Hpk Hroom Hs) as (s0 & Hrun & Hsame).
  pose proof (process_message_replies (Schema:=Schema) (IndexSettings:=IndexSettings) mvcc_style merge_policy snapshot available_parallelism) as Hrep.
  pose proof (wait_for_inv process wants_answer [] (write_and_read path ops ranges) (h, r) ltac:(constructor)) as Hi.
  pose proof (runs_inv _ _ Hrep _ _ _ Hruns Hi) as Hi'.
  change (rest process [] (Running (write_and_read path ops ranges)) None (h, r))
    with (direct process (write_and_read path ops ranges) (h, r)) in Hi'.
  fold process in Hrun. rewrite Hrun in Hi'.
  assert (c ≠ Failed) as Hok by (intros ->; by apply (Hi' (Some ((λ se, Some (clamped content se.1 se.2)) <$> ranges), s0))).
  split; [done|]. split; [by eapply live_ends|]. intros ds s qs ->.
  pose proof (runs_answered _ _ Hrep _ _ _ Hruns Hi (write_and_read_answered path ops ranges _)) as Hnil.
  simpl in Hnil. subst qs. destruct Hi' as [_ Heq].
  change (Ok (ds, s) = Ok (Some ((λ se, Some (clamped content se.1 se.2)) <$> ranges), s0)) in Heq.
  by injection Heq as -> ->.
Qed.

(** [wait_for] may return before a request without a reply is handled: a client whose
    last request is save_metas can be done while the backend has not saved anything yet
    and the request is still queued. *)
Theorem save_metas_may_be_left `{TI : TantivyIndex} `{!TantivySegments} `{!HashOrder}
    `{BitPacking, PgPage, PgXact, PgBuffers} {Schema IndexSettings : Type}
    `{SerdeJson Schema} `{SerdeJson IndexSettings} `{PgItem SegmentMetaEntry}
    mvcc_style merge_policy snapshot available_parallelism
    (s : ChannelRequestHandler * Rel) (meta previous_meta : IndexMeta Schema IndexSettings) :
  let process := process_message mvcc_style merge_policy snapshot available_parallelism in
  rtc (step process wants_answer) (wait_for [] (cd_save_metas meta previous_meta) s)
    (Returned tt s [SaveMetas meta previous_meta]).
Proof.
  intros process. eapply rtc_l; [by apply (step_send process wants_answer [])|].
  eapply rtc_l; [apply step_finish|]. apply rtc_once. apply step_reply.
Qed.
