(* ===== verification/PgRef.v ===== *)
(** * PgRef: reference instances of the external code

    The rest of the development is proved against classes that state what the
    documentation of Postgres, of the [bitpacking] crate and of Tantivy promises.
    This file shows that those classes can be met, by small executable instances
    that the concrete examples of [Witnesses.v] run on: 1 kB pages, transaction
    ids compared as [transam.c] does, blocks packed at 32 bits, segment ids that
    print in unary. *)

From Stdlib Require Import Ascii.
From S2P Require Import Prelude Page Block Buffer BlockList LinkedItems MergePolicy Directory Commit.

Open Scope Z_scope.

(** ** Pages *)

#[export] Program Instance RefBuild : PgBuild := {
  BLCKSZ := 1024;
  MAXALIGN z := (z + 7) / 8 * 8;
  offset_of_pd_linp := 24
}.
Solve All Obligations with (simpl; done || lia).

Definition ref_PageInit (p : Page) (size special : Z) : Page :=
  {| pd_lower := offset_of_pd_linp; pd_upper := size - MAXALIGN special;
     pd_area := replicate (Z.to_nat bm25_max_free_space) 0; pd_linp := [];
     pd_special := {| next_blockno := 0; xmax := 0 |} |}.

(** an item and its four byte line pointer must fit between the two ends *)
Definition ref_PageAddItem (p : Page) (it : list Z) : Page * Z :=
  if (zlen it <=? 984) && (pd_lower p + 4 <=? pd_upper p - zlen it) && (24 <=? pd_lower p) then
    ({| pd_lower := pd_lower p + 4; pd_upper := pd_upper p - zlen it; pd_area := pd_area p;
        pd_linp := pd_linp p ++ [normal_item it]; pd_special := pd_special p |},
     zlen (pd_linp p) + 1)
  else (p, InvalidOffsetNumber).

Definition ref_with_linp (f : list ItemId → list ItemId) (p : Page) : Page :=
  {| pd_lower := pd_lower p; pd_upper := pd_upper p; pd_area := pd_area p;
     pd_linp := f (pd_linp p); pd_special := pd_special p |}.

Definition ref_PageOverwrite (p : Page) (o : Z) (it : list Z) : Page * bool :=
  match pd_linp p !! Z.to_nat (o - 1) with
  | Some old =>
      if zlen it =? zlen (lp_item old)
      then (ref_with_linp <[Z.to_nat (o - 1) := normal_item it]> p, true) else (p, false)
  | None => (p, false)
  end.

#[export] Program Instance RefPage : PgPage := {
  PageInit := ref_PageInit;
  PageIsEmpty p := pd_lower p <=? offset_of_pd_linp;
  PageIsNew p := pd_upper p =? 0;
  PageAddItemExtended := ref_PageAddItem;
  PageIndexTupleOverwrite := ref_PageOverwrite;
  PageIndexMultiDelete p offs := ref_with_linp (remove_offsets offs) p;
  PageIndexTupleDelete p o := ref_with_linp (base.delete (Z.to_nat (o - 1))) p;
  max_item_size := 984;
  special_bytes d := u32_le_bytes (next_blockno d) ++ u32_le_bytes (xmax d)
}.
Next Obligation. done. Qed.
Next Obligation. intros p. by split_and!. Qed.
Next Obligation. done. Qed.
Next Obligation. done. Qed.
Next Obligation.
  intros p it p'. unfold ref_PageAddItem, InvalidOffsetNumber.
  destruct (_ && _); intros [= <-]; [|done]. pose proof (zlen_nonneg (pd_linp p)). lia.
Qed.
Next Obligation.
  intros p it p' o. unfold ref_PageAddItem. destruct (_ && _); intros [= <- <-]; [|done].
  intros _. split; [done|]. by left.
Qed.
Next Obligation.
  intros p it Hlen Hl Hlo Hup. unfold ref_PageAddItem.
  rewrite Hlo, Hup, Hl. change (MAXALIGN _) with 8. simpl in *. zcmp.
Qed.
Next Obligation.
  intros p o it p'. unfold ref_PageOverwrite. destruct (_ !! _); [|by intros [= <-]].
  destruct (_ =? _); by intros [= <-].
Qed.
Next Obligation.
  intros p o it p'. unfold ref_PageOverwrite. destruct (_ !! _); [|done].
  destruct (_ =? _); [|done]. by intros [= <-] _.
Qed.
Next Obligation.
  intros p o it old _ Hl Hlen. unfold ref_PageOverwrite. rewrite Hl. simpl.
  by rewrite (proj2 (Z.eqb_eq _ _) Hlen).
Qed.
Next Obligation. done. Qed.
Next Obligation. done. Qed.
Next Obligation.
  intros p it Hup. unfold ref_PageAddItem. destruct (_ && _) eqn:E; [|done]. simpl.
  repeat (apply andb_true_iff in E as [E ?]). zcmp.
Qed.
Next Obligation.
  intros p o it Hup. unfold ref_PageOverwrite. destruct (_ !! _); [|done].
  by destruct (_ =? _).
Qed.
Next Obligation. done. Qed.
Next Obligation. done. Qed.

(** no other backend holds a lock; the map hands out its smallest block *)
Definition ref_fsm_pick (s : gset Z) : Z := foldr Z.min InvalidBlockNumber (elements s).

Lemma foldr_min_elem (d : Z) l :
  (foldr Z.min d l = d ∧ Forall (Z.le d) l) ∨ foldr Z.min d l ∈ l.
Proof.
  induction l as [|x l IH]; simpl; [by left|].
  destruct (Z.min_spec x (foldr Z.min d l)) as [[? ->]|[? ->]].
  - right. left.
  - destruct IH as [[Heq Hall]|Hin]; [|right; by right].
    left. split; [done|]. constructor; [lia|done].
Qed.

(** blocks are below [InvalidBlockNumber]; a map of anything else hands out its first *)
Definition ref_pick (s : gset Z) : Z :=
  if decide (ref_fsm_pick s ∈ s) then ref_fsm_pick s
  else match elements s with x :: _ => x | [] => InvalidBlockNumber end.

#[export] Program Instance RefBuffers : PgBuffers := {
  ConditionalLockBuffer _ := true;
  fsm_pick := ref_pick
}.
Next Obligation. done. Qed.
Next Obligation.
  intros s Hne. unfold ref_pick. case_decide as Hin; [done|].
  destruct (elements s) as [|x l] eqn:E; [by apply elements_empty_iff in E; set_solver|].
  apply elem_of_elements. rewrite E. left.
Qed.

(** ** Transactions *)

(** transaction ids before [oldest] are in no snapshot, those from [oldest] on are *)
Definition ref_precedes (a b : Z) : bool :=
  if negb (FirstNormalTransactionId <=? a) || negb (FirstNormalTransactionId <=? b)
  then a <? b
  else as_i32 ((a - b) mod 2 ^ 32) <? 0.

Definition ref_xact (oldest current next : Z) : PgXact := {|
  Snapshot := unit;
  GetActiveSnapshot := tt;
  TransactionIdIsNormal xid := FirstNormalTransactionId <=? xid;
  TransactionIdPrecedes := ref_precedes;
  TransactionIdIsCurrentTransactionId xid := xid =? current;
  XidInMVCCSnapshot xid _ :=
    (FirstNormalTransactionId <=? xid) && negb (ref_precedes xid oldest);
  GlobalVisCheckRemovableXid xid := ref_precedes xid oldest;
  GetOldestNonRemovableTransactionId := oldest;
  GetCurrentTransactionId := current;
  ReadNextFullTransactionId := next;
  vacuum_freeze_min_age := 50;
  autovacuum_freeze_max_age := 200;
  IsTransactionState := true
|}.

Lemma ref_xact_ok oldest current next :
  FirstNormalTransactionId ≤ oldest ≤ next → FirstNormalTransactionId ≤ current ≤ u32_max →
  FirstNormalTransactionId ≤ next mod 2 ^ 32 → @PgXactOk (ref_xact oldest current next).
Proof.
  intros Ho Hc Hn. split; simpl; try done.
  - intros xid _ Hx ->. by rewrite andb_false_r.
  - zcmp.
  - lia.
Qed.

(** a young cluster, and one whose transaction counter passed 2^31 *)
#[export] Instance RefXact : PgXact := ref_xact 500 600 1000.
#[export] Instance RefXactOk : PgXactOk.
Proof. apply ref_xact_ok; done. Defined.
Definition WrapXact : PgXact := ref_xact 2147483700 2147483900 2147484000.
Definition WrapXactOk : @PgXactOk WrapXact.
Proof. apply ref_xact_ok; done. Defined.

(** ** Packed blocks: every value at 32 bits *)

Definition ref_compress (x : Lanes) (l : list Z) (n : Z) : list Z :=
  let size := n * BLOCK_LEN x / 8 in
  ztake size ((l ≫= u32_le_bytes) ++ replicate (Z.to_nat size) 0).

Fixpoint ref_words (n : nat) (bytes : list Z) : list Z :=
  match n with
  | O => []
  | S n' => of_le_bytes (ztake 4 bytes) :: ref_words n' (zdrop 4 bytes)
  end.
Definition ref_decompress (x : Lanes) (bytes : list Z) (n : Z) : option (list Z * Z) :=
  let size := n * BLOCK_LEN x / 8 in
  if size <=? zlen bytes then Some (ref_words (Z.to_nat (BLOCK_LEN x)) bytes, size) else None.

Lemma zlen_ref_bytes l : zlen (l ≫= u32_le_bytes) = 4 * zlen l.
Proof.
  induction l as [|y l IH]; [done|]. rewrite bind_cons, zlen_app, zlen_u32_le, zlen_cons. lia.
Qed.
Lemma ref_words_bytes l rest :
  Forall is_u32 l → ref_words (length l) ((l ≫= u32_le_bytes) ++ rest) = l.
Proof.
  induction 1 as [|y l Hy _ IH]; [done|]. rewrite bind_cons, <- app_assoc. cbn [ref_words length].
  rewrite ztake_app_exact, zdrop_app_exact by done. by rewrite of_le_u32, IH.
Qed.
Lemma ref_compress_len x l n : 0 ≤ n ≤ 32 → zlen (ref_compress x l n) = n * BLOCK_LEN x / 8.
Proof.
  intros Hn. unfold ref_compress.
  assert (0 ≤ n * BLOCK_LEN x / 8) by (apply Z.div_pos; destruct x; simpl; lia).
  cbv zeta. apply zlen_ztake. rewrite zlen_app. pose proof (zlen_nonneg (l ≫= u32_le_bytes)).
  unfold zlen at 2. rewrite length_replicate. lia.
Qed.
Lemma ref_roundtrip x l rest :
  zlen l = BLOCK_LEN x → Forall is_u32 l →
  ref_decompress x (ref_compress x l 32 ++ rest) 32 = Some (l, 32 * BLOCK_LEN x / 8).
Proof.
  intros Hlen Hu. unfold ref_decompress. cbv zeta. rewrite zlen_app, ref_compress_len by done.
  assert (32 * BLOCK_LEN x / 8 = 4 * zlen l) as Hs by (rewrite Hlen; by destruct x).
  pose proof (zlen_nonneg rest). zcmp. unfold ref_compress. rewrite Hs.
  rewrite ztake_app_exact by apply zlen_ref_bytes. rewrite <- Hlen.
  unfold zlen. rewrite Nat2Z.id. by rewrite ref_words_bytes.
Qed.

#[export] Program Instance RefPacking : BitPacking := {
  num_bits_sorted _ _ _ := 32;
  compress_sorted x _ l n := ref_compress x l n;
  decompress_sorted x _ bytes n := ref_decompress x bytes n;
  num_bits_strictly_sorted _ _ _ := 32;
  compress_strictly_sorted x _ l n := ref_compress x l n;
  decompress_strictly_sorted x _ bytes n := ref_decompress x bytes n
}.
Next Obligation. simpl. lia. Qed.
Next Obligation. simpl. lia. Qed.
Next Obligation. intros. by apply ref_compress_len. Qed.
Next Obligation. intros. by apply ref_compress_len. Qed.
Next Obligation. intros. by apply ref_roundtrip. Qed.
Next Obligation. intros. by apply ref_roundtrip. Qed.

Lemma ref_packs_any : packs_any.
Proof. split; intros; by apply ref_roundtrip. Qed.

(** ** Segment ids *)

Fixpoint ref_uuid (n : nat) : string :=
  match n with O => "a" | S n => String "a" (ref_uuid n) end.
Definition ref_ext (c : SegmentComponent) : string :=
  match c with
  | Postings => "idx" | Positions => "pos" | FastFields => "fast" | FieldNorms => "fieldnorm"
  | Terms => "term" | Store => "store" | TempStore => "temp" | Delete => "del"
  end.
Definition ref_from_ext (s : string) : option SegmentComponent :=
  list_find (λ c, ref_ext c = s)
    [Postings; Positions; FastFields; FieldNorms; Terms; Store; TempStore; Delete] ≫= λ ic, Some ic.2.

Lemma length_ref_uuid n : String.length (ref_uuid n) = S n.
Proof. induction n; simpl; auto. Qed.

#[export] Program Instance RefTantivy : TantivyIndex := {
  SegmentId := nat;
  uuid_string := ref_uuid;
  from_uuid_string s := Some (pred (String.length s));
  component_ext := ref_ext;
  component_try_from := ref_from_ext
}.
Next Obligation. intros id. simpl. by rewrite length_ref_uuid. Qed.
Next Obligation. by intros []. Qed.
Next Obligation.
  intros id c Hc. assert (c = "a"%char) as ->; [|done].
  induction id as [|id IH]; simpl in Hc; set_solver.
Qed.
Next Obligation. by intros []. Qed.
Next Obligation. intros [] c Hc; simpl in Hc; set_solver. Qed.
Next Obligation. by intros []. Qed.

(** ** Entries as items: a fixed number of cells per field *)

Definition ref_enc_file (o : option FileEntry) : list Z :=
  match o with
  | None => [0; 0; 0]
  | Some f => [1; staring_block f; total_bytes f]
  end.
Definition ref_dec_file (l : list Z) : option FileEntry :=
  match l with
  | [1; b; t] => Some {| staring_block := b; total_bytes := t |}
  | _ => None
  end.
Definition ref_enc_delete (o : option DeleteEntry) : list Z :=
  match o with
  | None => [0; 0; 0; 0]
  | Some d => num_deleted_docs d :: ref_enc_file (Some (file_entry d))
  end.
Definition ref_dec_delete (l : list Z) : option DeleteEntry :=
  match l with
  | n :: l' => f ← ref_dec_file l'; Some {| file_entry := f; num_deleted_docs := n |}
  | [] => None
  end.
Definition ref_into_item (e : SegmentMetaEntry) : list Z :=
  [Z.of_nat (segment_id e); max_doc e; entry_xmin e; entry_xmax e] ++
  ref_enc_file (postings e) ++ ref_enc_file (positions e) ++ ref_enc_file (fast_fields e) ++
  ref_enc_file (field_norms e) ++ ref_enc_file (terms e) ++ ref_enc_file (store e) ++
  ref_enc_file (temp_store e) ++ ref_enc_delete (delete e).
Definition ref_from_item (l : list Z) : option SegmentMetaEntry :=
  match l with
  | [i; m; x; y; a1; a2; a3; b1; b2; b3; c1; c2; c3; d1; d2; d3; e1; e2; e3;
     f1; f2; f3; g1; g2; g3; h1; h2; h3; h4] =>
      Some {| segment_id := Z.to_nat i : @SegmentId RefTantivy; max_doc := m; entry_xmin := x; entry_xmax := y;
              postings := ref_dec_file [a1; a2; a3]; positions := ref_dec_file [b1; b2; b3];
              fast_fields := ref_dec_file [c1; c2; c3]; field_norms := ref_dec_file [d1; d2; d3];
              terms := ref_dec_file [e1; e2; e3]; store := ref_dec_file [f1; f2; f3];
              temp_store := ref_dec_file [g1; g2; g3]; delete := ref_dec_delete [h1; h2; h3; h4] |}
  | _ => None
  end.

#[export] Program Instance RefItem : PgItem SegmentMetaEntry := {
  into_item := ref_into_item;
  from_item := ref_from_item
}.
Next Obligation.
  intros [id m x y [[]|] [[]|] [[]|] [[]|] [[]|] [[]|] [[]|] [[[] ]|]];
    simpl; by rewrite Nat2Z.id.
Qed.
#[export] Instance RefFrozenSameSize : FrozenSameSize SegmentMetaEntry.
Proof.
  intros [id m x y [[]|] [[]|] [[]|] [[]|] [[]|] [[]|] [[]|] [[[] ]|]] a b; reflexivity.
Qed.
#[export] Instance RefXmaxSameSize : XmaxSameSize.
Proof.
  intros [id m x y [[]|] [[]|] [[]|] [[]|] [[]|] [[]|] [[]|] [[[] ]|]] a; reflexivity.
Qed.

(** ** Tantivy's segments, sorting, hashing and JSON *)

Definition ref_deleted (i : InnerSegmentMeta) : Z := from_option dm_num_deleted_docs 0 (ism_deletes i).
#[export] Program Instance RefSegments : TantivySegments := {
  SegmentMeta := InnerSegmentMeta;
  sm_id := ism_segment_id;
  sm_max_doc := ism_max_doc;
  sm_num_deleted_docs := ref_deleted;
  num_docs i := ism_max_doc i - ref_deleted i;
  track i := i
}.
Solve All Obligations with done.

Definition ref_sort {A} (cmp : A → A → comparison) (l : list A) : list A :=
  merge_sort (λ x y, cmp x y ≠ Gt) l.
#[export] Program Instance RefSort : StdSort := {
  sort_unstable_by := @ref_sort
}.
Next Obligation. intros A cmp l. apply merge_sort_Permutation. Qed.
Next Obligation.
  intros A cmp l Hanti Htrans. apply StronglySorted_merge_sort.
  - intros x y z. apply Htrans.
  - intros x y. rewrite (Hanti y x). destruct (cmp x y); simpl; [by left|by left|by right].
Qed.

#[export] Program Instance RefHash : HashOrder := {
  drain m := map_to_list m;
  set_iter s := elements s
}.
Solve All Obligations with done.

(** a schema and settings that are numbers *)
Definition ref_from_slice (l : list Z) : option Z :=
  match l with [_; z; _] => Some z | _ => None end.
#[export] Program Instance RefJson : SerdeJson Z := {
  to_vec z := Some [123; z; 125];
  from_slice := ref_from_slice
}.
Next Obligation. by intros x bytes [= <-]. Qed.
Next Obligation. by intros x bytes [= <-]. Qed.

(** ** Relations to start from *)

Definition run_rel {A} (m : M Rel A) (r : Rel) : Rel :=
  match m r with Ok (_, r') => r' | _ => r end.

Definition empty_rel : Rel :=
  {| rel_pages := ∅; rel_nblocks := 0; rel_fsm := ∅; rel_dirty := ∅; rel_cache := ∅ |}.

(** [rel_wf] as a computation *)
Definition rel_wf_bool (r : Rel) : bool :=
  (0 <=? rel_nblocks r) && (rel_nblocks r <=? InvalidBlockNumber) &&
  bool_decide (dom (rel_pages r) = list_to_set (C:=gset Z) (seqZ 0 (rel_nblocks r))) &&
  bool_decide (rel_fsm r ⊆ dom (rel_pages r)).

Lemma rel_wf_bool_spec r : rel_wf_bool r = true → rel_wf r.
Proof.
  unfold rel_wf_bool, rel_wf. intros H. apply andb_true_iff in H as [H Hf].
  apply andb_true_iff in H as [H Hd]. apply bool_decide_eq_true in Hf, Hd.
  assert (∀ b, b ∈ dom (rel_pages r) ↔ 0 ≤ b < rel_nblocks r) as Hdom.
  { intros b. rewrite Hd, elem_of_list_to_set, elem_of_seqZ. lia. }
  split; [zcmp|]. split.
  - intros b. rewrite <- Hdom, elem_of_dom. done.
  - intros b Hb. apply Hdom. by apply Hf.
Qed.

Ltac wf := apply rel_wf_bool_spec; vm_compute; reflexivity.
