(* ===== verification/QueryRef.v ===== *)
(** * QueryRef: reference instances for the query files

    Small executable instances of the classes of [PgUtils.v], [Query.v] and
    [RangeQuery.v], for the concrete examples of [QueryWitnesses.v]: floats with six
    decimals, the proleptic Gregorian calendar, one JSON field, and an index in which a
    document is the function from its fields and paths to their values. *)

From Stdlib Require Import Ascii.
From S2P Require Import Prelude Block TokenizerConfig PgUtils Query RangeQuery CustomScan Reader Parallel ScanExec PgRef.

Open Scope Z_scope.

(** ** Floats, dates and text *)

(** a float is its number of millionths *)
Definition fix_unit : Z := 1000000.
#[export] Instance RefF64 : RustF64 := {
  F64 := Z;
  f64_of_Z z := z * fix_unit;
  f64_trunc x := Z.quot x fix_unit * fix_unit;
  f64_mul x y := Z.quot (x * y) fix_unit;
  f64_rem x y := Z.rem x y;
  f64_is_nan _ := false;
  f64_is_infinite _ := false;
  f64_lt := Z.ltb;
  f64_eq := Z.eqb;
  f64_as_u32 x := Z.quot x fix_unit
}.

(** days since 1970-01-01 *)
Definition days_from_civil (y m d : Z) : Z :=
  let y := if m <=? 2 then y - 1 else y in
  let era := y / 400 in
  let yoe := y - era * 400 in
  let doy := (153 * (if 2 <? m then m - 3 else m + 9) + 2) / 5 + d - 1 in
  let doe := yoe * 365 + yoe / 4 - yoe / 100 + doy in
  era * 146097 + doe - 719468.
(** and back *)
Definition civil_from_days (days : Z) : Z * Z * Z :=
  let z := days + 719468 in
  let era := z / 146097 in
  let doe := z - era * 146097 in
  let yoe := (doe - doe / 1460 + doe / 36524 - doe / 146096) / 365 in
  let doy := doe - (365 * yoe + yoe / 4 - yoe / 100) in
  let mp := (5 * doy + 2) / 153 in
  let d := doy - (153 * mp + 2) / 5 + 1 in
  let m := if mp <? 10 then mp + 3 else mp - 9 in
  ((if m <=? 2 then yoe + era * 400 + 1 else yoe + era * 400), m, d).
(** the dates that exist *)
Definition ref_from_ymd (y m d : Z) : option Z :=
  if decide (civil_from_days (days_from_civil y m d) = (y, m, d)) then Some (days_from_civil y m d) else None.
Definition ref_from_hms_micro (h m s micro : Z) : option Z :=
  if (h <? 24) && (m <? 60) && (s <? 60) && ((micro <? 1000000) || ((micro <? 2000000) && (s =? 59)))
  then Some (((h * 60 + m) * 60 + s) * 1000000 + micro) else None.
#[export] Program Instance RefChrono : Chrono := {
  from_ymd_opt := ref_from_ymd;
  from_hms_micro_opt := ref_from_hms_micro;
  and_time date time := date * 86400 * 1000000 + time
}.
Next Obligation. done. Qed.
Next Obligation. intros h m s micro Hh Hm Hs Hmic. unfold ref_from_hms_micro. zcmp. Qed.
Next Obligation.
  intros h m s micro Hmic Hs. unfold ref_from_hms_micro.
  destruct (h <? 24), (m <? 60), (s <? 60); try done; cbn [andb]. zcmp.
Qed.
Next Obligation. done. Qed.

(** one timestamp, with and without a fraction *)
Definition ref_tz (second : Z) : TimestampWithTimeZone :=
  {| tz_year := 2024; tz_month := 2; tz_day := 29; tz_hour := 12; tz_minute := 30; tz_second := second |}.
Definition ref_parse_tz (s : string) : option TimestampWithTimeZone :=
  if decide (s = "2024-02-29 12:30:07.25Z") then Some (ref_tz 7250000)
  else if decide (s = "2024-02-29 12:30:07Z") then Some (ref_tz 7000000)
  else None.
#[export] Instance RefPgDates : PgDates := {
  Date_from_str _ := None;
  Timestamp_from_str _ := None;
  TimestampWithTimeZone_from_str := ref_parse_tz;
  to_utc t := t;
  Time_from_str s := if decide (s = "10:20:07") then Some (10, 20, 7, 7000000) else None;
  TimeWithTimeZone_from_str _ := None
}.

#[export] Instance RefTypes : TantivyTypes := {
  F32 := Z; Opaque := unit; opaque_eq _ _ := true; ParsedQuery := bool * string; DocAddress := Z
}.

(** the parts between dots *)
Fixpoint ref_split (s : string) : list string :=
  match s with
  | EmptyString => [""%string]
  | String c s =>
      if decide (c = "."%char) then ""%string :: ref_split s
      else match ref_split s with p :: ps => String c p :: ps | [] => [String c ""] end
  end.
#[export] Instance RefText : TantivyText := {
  split_json_path := ref_split;
  truncate nanos := nanos - nanos mod 1000000000;
  from_timestamp_micros micros := micros * 1000;
  parse_from_str _ _ := None
}.
#[export] Program Instance RefRegex : TantivyRegex := { regex_parses _ := true }.
Next Obligation. done. Qed.
(** a release build *)
#[export] Instance RefRelease : RustBuild := { overflow_checks := false }.

(** ** One JSON field, a range *)

#[export] Instance RefFields : AsFieldType := {
  fields := [(FJsonObject false, PgBuiltIn INT8RANGEOID, 0)];
  key_field := (FI64, PgBuiltIn INT8OID, 1);
  as_field_type name :=
    if decide (name = "ages") then Some (FJsonObject false, PgBuiltIn INT8RANGEOID, 0) else None
}.
(** the parser is its conjunction mode *)
#[export] Instance RefParser : TantivyParser := {
  QueryParser := bool;
  set_conjunction_by_default _ := true;
  parse_query mode s := Some (mode, s);
  parse_query_lenient mode s := (mode, s);
  tokenize _ s := Some [s];
  phrase_terms_ok n := (1 <? n)%nat;
  phrase_prefix_terms_ok n := (0 <? n)%nat;
  regex_phrase_ok n := (1 <? n)%nat;
  fields_iter m := map_to_list m
}.
Definition plain : QueryParser := false.
#[export] Instance RefSearcher : TantivySearcher := { search_docs _ := Some [3; 4] }.

(** ** An index *)

Definition RefDoc : Type := Z → string → list TermValue.

Definition term_place (b : Bound Term) : option (Z * string) :=
  match b with
  | Included (JsonTerm f path _ _) | Excluded (JsonTerm f path _ _) => Some (f, path)
  | _ => None
  end.
Definition term_value (t : Term) : TermValue :=
  match t with FieldTerm _ v => v | JsonTerm _ _ _ v => v end.
Definition range_place (lo hi : Bound Term) : option (Z * string) :=
  match term_place lo with Some p => Some p | None => term_place hi end.

Fixpoint ref_matches (q : Query) (d : RefDoc) : Prop :=
  match q with
  | AllQuery => True
  | BooleanQuery l =>
      (fix all l := match l with
        | [] => True
        | (Must, q) :: l => ref_matches q d ∧ all l
        | (MustNot, q) :: l => ¬ ref_matches q d ∧ all l
        | (Should, _) :: l => all l
        end) l ∧
      (fix some l := match l with
        | [] => False
        | (Must, _) :: _ => True
        | (Should, q) :: l => ref_matches q d ∨ some l
        | (MustNot, _) :: l => some l
        end) l
  | TermQuery (JsonTerm f path _ v) _ => v ∈ d f path
  | RangeQuery lo hi =>
      match range_place lo hi with
      | Some (f, path) =>
          Exists (λ v, value_above (map_bound term_value lo) v = true ∧
                       value_below (map_bound term_value hi) v = true) (d f path)
      | None => False
      end
  | RegexQuery _ f => ∃ path, d f path ≠ []
  | _ => False
  end.

Lemma ref_boolean l d :
  ref_matches (BooleanQuery l) d ↔
    (∀ q, (Must, q) ∈ l → ref_matches q d) ∧ (∀ q, (MustNot, q) ∈ l → ¬ ref_matches q d) ∧
    ((∃ q, (Must, q) ∈ l) ∨ (∃ q, (Should, q) ∈ l ∧ ref_matches q d)).
Proof.
  assert (∀ A B C D : Prop, (A ↔ C) → (B ↔ D) → (A ∧ B ↔ C ∧ D)) as Hand by tauto.
  cbn [ref_matches]. rewrite (and_assoc (∀ q, (Must, q) ∈ l → _)). apply Hand.
  - induction l as [|[[] q] l IH].
    + split; [|done]. intros _. split; intros q Hq; by apply not_elem_of_nil in Hq.
    + rewrite IH. setoid_rewrite elem_of_cons. naive_solver.
    + rewrite IH. setoid_rewrite elem_of_cons. naive_solver.
    + rewrite IH. setoid_rewrite elem_of_cons. naive_solver.
  - induction l as [|[[] q] l IH].
    + setoid_rewrite elem_of_nil. naive_solver.
    + setoid_rewrite elem_of_cons. naive_solver.
    + rewrite IH. setoid_rewrite elem_of_cons. naive_solver.
    + rewrite IH. setoid_rewrite elem_of_cons. naive_solver.
Qed.

#[export] Program Instance RefSearch : TantivySearch := {
  Doc := RefDoc;
  matches := ref_matches;
  json_values d f path := d f path
}.
Next Obligation. intros. apply ref_boolean. Qed.
Next Obligation. tauto. Qed.
Next Obligation. done. Qed.
Next Obligation. done. Qed.
Next Obligation.
  intros f path dots lo hi d Hb Hty. cbn [ref_matches].
  assert (range_place (map_bound (JsonTerm f path dots) lo) (map_bound (JsonTerm f path dots) hi) =
    Some (f, path)) as -> by (destruct lo, hi; naive_solver).
  apply Exists_iff. intros v. by destruct lo, hi.
Qed.
Next Obligation. intros f path d Hne. by exists path. Qed.

(** the document of a range in the field [ages] *)
Definition ref_doc (k : Kind) (r : TantivyRange Z) : RefDoc := λ f path,
  if decide (f = 0) then
    if decide (path = LOWER_KEY) then emb k <$> option_list (tr_lower r)
    else if decide (path = UPPER_KEY) then emb k <$> option_list (tr_upper r)
    else if decide (path = EMPTY_KEY) then [VBool (tr_empty r)]
    else if decide (path = LOWER_INCLUSIVE_KEY) then [VBool (tr_lower_inclusive r)]
    else if decide (path = UPPER_INCLUSIVE_KEY) then [VBool (tr_upper_inclusive r)]
    else if decide (path = LOWER_UNBOUNDED_KEY) then [VBool (tr_lower_unbounded r)]
    else if decide (path = UPPER_UNBOUNDED_KEY) then [VBool (tr_upper_unbounded r)]
    else []
  else [].

Lemma ref_doc_indexed k r : indexed_as k 0 (ref_doc k r) r.
Proof. done. Qed.

(** ** Plans *)

(** a datum is the query input it decodes to *)
#[export] Instance RefDatum : PgDatum := {
  Datum := option SearchQueryInput;
  null_datum := None;
  search_query_input_from_datum datum is_null := if is_null then None else datum;
  f64_round_as_usize x := Z.quot (x + fix_unit / 2) fix_unit
}.

(** ** Segments and a heap *)

(** a segment's postings, the same for every query: documents with a score, and their tuple addresses;
    deleted documents have an odd number *)
Record RefSegment := { ref_id : nat; ref_postings : list (Z * Z); ref_ctid : Z → option Z }.
#[export] Instance RefReader : TantivyReader := {
  Score := Z;
  score_one := 1;
  SegmentReader := RefSegment;
  reader_segment_id := ref_id;
  alive_bitset _ := Some Z.even;
  scorer _ _ seg := ref_postings seg;
  ctid_column := ref_ctid;
  for_index := plain;
  top_docs t _ _ segs :=
    take (Z.to_nat (top_limit t))
      (segs ≫= λ seg, (λ dp, (dp.2, {| segment_ord := seg.1; Reader.doc_id := dp.1 |})) <$>
         filter (λ dp, Z.even dp.1) (ref_postings seg.2))
}.
(** the tuples at odd offsets are dead; all tuples of the block 7 are visible *)
#[export] Instance RefHeap : PgHeap := {
  visible c := (c / 65536 =? 7) || Z.even c;
  block_all_visible b := b =? 7;
  n_dead_tuples := 5;
  n_live_tuples := 20
}.
#[export] Instance RefSlots : PgSlots := { SlotDatum := Z }.
#[export] Instance RefF64Ops : RustF64Ops := {
  f64_add := Z.add;
  f64_div x y := Z.quot (x * fix_unit) y;
  f64_ceil_as_usize x := - Z.div (- x) fix_unit
}.
#[export] Instance RefDefaultId : SegmentIdDefault := { segment_id_default := O }.

(** ** Tokenizers *)

Definition languages : list Language :=
  [Arabic; Danish; Dutch; English; Finnish; French; German; Greek; Hungarian; Italian; Norwegian; Portuguese;
   Romanian; Russian; Spanish; Swedish; Tamil; Turkish].
Definition ref_language (v : Json) : option Language :=
  match v with
  | JString s => head (filter (λ l, language_to_str l = s) languages)
  | _ => None
  end.
#[export] Program Instance RefLanguage : SerdeLanguage := {
  language_to_json l := JString (language_to_str l);
  language_from_json := ref_language;
  language_debug := language_to_str
}.
Next Obligation. by intros []. Qed.
Next Obligation. intros [] []; done. Qed.

#[export] Instance RefTokenizers : TantivyTokenizers := {
  regex_new pattern := negb (bool_decide (pattern = "("));
  ngram_new min_gram max_gram _ := (1 <=? min_gram) && (min_gram <=? max_gram);
  default_tokenizers := ∅
}.
