(* ===== verification/SchemaRef.v ===== *)
(** * SchemaRef: reference instances for schemas, options and rows

    Executable instances of the classes of [Schema.v], [Options.v] and [Rows.v]: a Tantivy
    schema is its list of entries, the JSON of an option is a name for it, hash maps
    iterate in the order of their keys' encoding or in the reverse, and a datum is the
    value it decodes to. *)

From S2P Require Import Prelude PgUtils TokenizerConfig Query RangeQuery Schema Options Rows QueryRef.

Open Scope Z_scope.

(** ** Schemas *)

(** [int4[]] and [jsonb[]] are the arrays; 16400 is an enum *)
#[export] Instance RefPgTypes : PgTypes := {
  type_is_enum oid := oid =? 16400;
  get_element_type oid :=
    match oid with
    | PgBuiltIn (OtherOid n) =>
        if n =? 1007 then PgBuiltIn INT4OID else if n =? 3807 then PgBuiltIn JSONBOID else PgInvalid
    | _ => PgInvalid
    end
}.
#[export] Instance RefRecord : SerdeRecord := {
  record_from_json v :=
    match v with
    | JString s =>
        if String.eqb s "basic" then Some Basic
        else if String.eqb s "freq" then Some WithFreqs
        else if String.eqb s "position" then Some WithFreqsAndPositions
        else None
    | _ => None
    end
}.

#[export] Program Instance RefSchema : TantivySchema := {
  Schema := list (string * FieldOptions);
  SchemaBuilder := list (string * FieldOptions);
  schema_builder := [];
  builder_fields b := b;
  add_field b name o :=
    if decide (name ∈ b.*1) then Panic "Field already exists in schema" else Ok (zlen b, b ++ [(name, o)]);
  schema_build b := b;
  schema_entries s := s
}.
Next Obligation. done. Qed.
Next Obligation. intros b name o Hn. exists (b ++ [(name, o)]). by rewrite decide_False. Qed.
Next Obligation. intros b name o Hn. cbn beta. by rewrite decide_True. Qed.
Next Obligation. done. Qed.

(** ** Options *)

(** an alias of the column [body], with the raw tokenizer *)
Definition raw_body : string * Json :=
  ("body_raw"%string, JObject [("column"%string, JString "body");
                               ("tokenizer"%string, JObject [("type"%string, JString "raw")])]).
Definition lower_body : string * Json :=
  ("body"%string, JObject [("tokenizer"%string, JObject [("type"%string, JString "lowercase")])]).
Definition ref_maps (s : string) : option (list (string * Json)) :=
  if String.eqb s "body, body_raw" then Some [lower_body; raw_body] else None.
#[export] Program Instance RefMaps : SerdeJsonText := { map_from_str := ref_maps }.
Next Obligation.
  intros s m. unfold ref_maps. destruct (String.eqb s "body, body_raw"); [|done]. intros [= <-].
  by repeat (constructor; [set_solver|]); constructor.
Qed.

#[export] Program Instance RefIteration : HashIteration := {
  configs_iter m := map_to_list m;
  fields_iter m := (map_to_list m).*2
}.
Next Obligation. done. Qed.
Next Obligation. done. Qed.
(** another order *)
Program Definition ReverseIteration : HashIteration := {|
  configs_iter m := reverse (map_to_list m);
  fields_iter m := reverse (map_to_list m).*2
|}.
Next Obligation. intros m. apply reverse_Permutation. Qed.
Next Obligation. intros m. apply reverse_Permutation. Qed.

(** ** Rows *)

Definition ref_owned (v : Json) : OwnedValue :=
  match v with
  | JNull => ONull
  | JBool b => OBool b
  | JInteger n => OI64 n
  | JFloat _ => OF64 0
  | JString s => OStr s
  | JArray _ => OArray ()
  | JObject _ => OObject ()
  end.
Definition date_json (d : Z * Z * Z) : Json := JArray [JInteger d.1.1; JInteger d.1.2; JInteger d.2].
#[export] Program Instance RefPgrx : PgrxTypes := {
  AnyNumeric := Z;
  Uuid := string;
  Date := Z * Z * Z;
  Time := Z * Z * Z * Z;
  TimeTz := Z * Z * Z * Z;
  Timestamp := (Z * Z * Z) * (Z * Z * Z * Z);
  TimestampTz := (Z * Z * Z) * (Z * Z * Z * Z);
  numeric_to_f64 n := Some n;
  f64_to_numeric x := Some x;
  uuid_to_string u := u;
  uuid_parse_str u := Some u;
  date_ymd d := d;
  time_hms_micro t := t;
  timetz_utc_hms_micro t := t;
  timestamp_ymd t := t.1;
  timestamp_hms_micro t := t.2;
  timestamptz_utc_ymd t := t.1;
  timestamptz_utc_hms_micro t := t.2;
  Date_new y mo d := Some (y, mo, d);
  Time_new h m s := Some (h, m, Z.quot s fix_unit, s);
  TimeTz_with_utc h m s := Some (h, m, Z.quot s fix_unit, s);
  Timestamp_new y mo d h m s := Some ((y, mo, d), (h, m, Z.quot s fix_unit, s));
  TimestampTz_with_utc y mo d h m s := Some ((y, mo, d), (h, m, Z.quot s fix_unit, s));
  seconds_f64 s micro := s * fix_unit + micro;
  f32_to_string _ := "0";
  f64_from_str _ := Some 0;
  f64_to_string _ := "0";
  f32_from_str _ := Some 0;
  f32_into_f64 x := x;
  f64_to_value x := JInteger x;
  timestamptz_to_value t := date_json t.1;
  date_to_utc_value d := Some (date_json d);
  timestamp_to_utc_value t := Some (date_json t.1);
  owned_from_json := ref_owned;
  object_to_json _ := Some (JObject [])
}.
Next Obligation. done. Qed.
Next Obligation. by intros ? ? ? ? ->. Qed.
Next Obligation. intros l. by exists (). Qed.

#[export] Program Instance RefTime : TimeCrate := {
  into_primitive nanos :=
    let micros := nanos / 1000 in
    let day := 86400 * 1000000 in
    let t := micros mod day in
    (civil_from_days (micros / day),
     (t / 3600000000, t / 60000000 mod 60, t / 1000000 mod 60, t mod 1000000))
}.
Next Obligation.
  intros y mo d date Hd. cbn [from_timestamp_micros RefText and_time RefChrono fst].
  unfold from_ymd_opt, RefChrono, ref_from_ymd in Hd. case_decide as Hc; [|done]. injection Hd as <-.
  replace ((days_from_civil y mo d * 86400 * 1000000 + 0) * 1000 / 1000 / (86400 * 1000000)) with (days_from_civil y mo d).
  - done.
  - rewrite Z.div_mul, Z.add_0_r, <- Z.mul_assoc, Z.div_mul by done. done.
Qed.

(** a datum is what it decodes to *)
Inductive RefDatumValue :=
  | DBool (b : bool) | DInt (n : Z) | DOid (n : Z) | DFloat (x : Z) | DString (s : string) | DUuid (s : string)
  | DDate (d : Z * Z * Z) | DTime (t : Z * Z * Z * Z) | DTimestamp (t : (Z * Z * Z) * (Z * Z * Z * Z))
  | DJson (v : Json) | DIntRange (r : PgRange Z) | DArray (l : list (option RefDatumValue)).
Definition as_date (d : RefDatumValue) : option (Z * Z * Z) := match d with DDate d => Some d | _ => None end.
Definition as_time (d : RefDatumValue) : option (Z * Z * Z * Z) := match d with DTime t => Some t | _ => None end.
Definition as_timestamp (d : RefDatumValue) : option ((Z * Z * Z) * (Z * Z * Z * Z)) :=
  match d with DTimestamp t => Some t | _ => None end.
Definition as_float (d : RefDatumValue) : option Z := match d with DFloat x => Some x | _ => None end.
Definition as_string (d : RefDatumValue) : option string := match d with DString s => Some s | _ => None end.
Definition as_uuid (d : RefDatumValue) : option string := match d with DUuid s => Some s | _ => None end.
Definition as_json (d : RefDatumValue) : option Json := match d with DJson v => Some v | _ => None end.
Definition as_bool (d : RefDatumValue) : option bool := match d with DBool b => Some b | _ => None end.
Definition as_range (d : RefDatumValue) : option (PgRange Z) := match d with DIntRange r => Some r | _ => None end.
Definition as_array (d : RefDatumValue) : option (list (option RefDatumValue)) :=
  match d with DArray l => Some l | _ => None end.
Definition as_int (w : Z) (d : RefDatumValue) : option Z :=
  match d with
  | DInt n => if (- 2 ^ (w - 1) <=? n) && (n <? 2 ^ (w - 1)) then Some n else None
  | _ => None
  end.
Definition as_oid (d : RefDatumValue) : option Z :=
  match d with DOid n => if (0 <=? n) && (n <=? u32_max) then Some n else None | _ => None end.
#[export] Program Instance RefDatums : PgDatums := {
  RowDatum := RefDatumValue;
  bool_from_datum := as_bool;
  int_from_datum := as_int;
  oid_from_datum := as_oid;
  f32_from_datum := as_float;
  f64_from_datum := as_float;
  numeric_from_datum := as_float;
  string_from_datum := as_string;
  date_from_datum := as_date;
  time_from_datum := as_time;
  timetz_from_datum := as_time;
  timestamp_from_datum := as_timestamp;
  timestamptz_from_datum := as_timestamp;
  uuid_from_datum := as_uuid;
  jsonb_from_datum := as_json;
  json_from_datum := as_json;
  int_range_from_datum _ := as_range;
  numeric_range_from_datum _ := None;
  date_range_from_datum _ := None;
  timestamp_range_from_datum _ := None;
  timestamptz_range_from_datum _ := None;
  array_from_datum := as_array;
  enum_ordinal oid := oid;
  bool_into_datum := DBool;
  int_into_datum _ := DInt;
  oid_into_datum := DOid;
  f32_into_datum := DFloat;
  f64_into_datum := DFloat;
  numeric_into_datum := DFloat;
  string_into_datum := DString;
  json_into_datum := DJson;
  jsonb_into_datum := DJson;
  date_into_datum := DDate;
  time_into_datum := DTime;
  timetz_into_datum := DTime;
  timestamp_into_datum := DTimestamp;
  timestamptz_into_datum := DTimestamp;
  uuid_into_datum := DUuid
}.
Next Obligation.
  intros w d k. destruct d as [|m| | | | | | | | | |]; try done. unfold as_int.
  destruct (Z.leb_spec (- 2 ^ (w - 1)) m), (Z.ltb_spec m (2 ^ (w - 1))); try done. by intros [= <-].
Qed.
Next Obligation.
  intros d k. destruct d as [| |m| | | | | | | | |]; try done. unfold as_oid, is_u32.
  destruct (Z.leb_spec 0 m), (Z.leb_spec m u32_max); try done. by intros [= <-].
Qed.
Next Obligation. done. Qed.
Next Obligation. intros w n Hn. unfold as_int. zcmp. Qed.
Next Obligation. unfold is_u32. intros n Hn. unfold as_oid. zcmp. Qed.
Next Obligation. done. Qed.
Next Obligation. done. Qed.
Next Obligation. done. Qed.
Next Obligation. done. Qed.
