(* ===== verification/SchemaWitnesses.v ===== *)
(** * SchemaWitnesses: the theorems on schemas, options and rows at a concrete table

    A table with a key, a text column, an array, a JSON document and an [xid], indexed with
    a configured column and an alias of it. *)

From S2P Require Import Prelude PgUtils TokenizerConfig Query RangeQuery Schema Options Rows QueryRef SchemaRef.

Open Scope Z_scope.

(** ** The table *)

Definition heap : list (string * PgOid) :=
  [("id"%string, PgBuiltIn INT4OID); ("body"%string, PgBuiltIn TEXTOID); ("tags"%string, PgBuiltIn (OtherOid 1007));
   ("extra"%string, PgBuiltIn JSONBOID); ("version"%string, PgBuiltIn XIDOID)].
Definition attrs : list Z := [1; 2; 3; 4].
Definition opts : SearchIndexCreateOptions :=
  {| text_fields := Some "body, body_raw"%string; numeric_fields := None; boolean_fields := None; json_fields := None;
     range_fields := None; datetime_fields := None; key_field_option := Some "id"%string |}.
Definition configs : gmap string Json := <["body_raw"%string := raw_body.2]> {["body"%string := lower_body.2]}.

Definition made_fields (HI : HashIteration) : list FieldSpec :=
  match get_fields (HI := HI) (Some opts) heap attrs with Ok (fields, _) => fields | _ => [] end.
Definition index_fields : list FieldSpec := Eval vm_compute in made_fields RefIteration.
Definition index_schema : SearchIndexSchema :=
  Eval vm_compute in
    match get_index_schema (Some opts) heap attrs with
    | Ok s => s
    | _ => {| sis_fields := []; sis_key := 0; sis_schema := []; sis_lookup := None |}
    end.

(** the alias's configuration *)
Definition raw_config : SearchFieldConfig :=
  TextConfig true false false true (Raw filters_default) WithFreqsAndPositions NormalizeRaw (Some "body"%string).

Lemma fields_made : get_fields (Some opts) heap attrs = Ok (index_fields, 4).
Proof. vm_compute. reflexivity. Qed.
Lemma schema_made : schema_new index_fields 4 = Ok index_schema.
Proof. vm_compute. reflexivity. Qed.
Lemma configs_read : config_by_name opts = Ok configs.
Proof. vm_compute. reflexivity. Qed.
Lemma columns_distinct : NoDup (index_columns heap attrs).*1.
Proof. apply (bool_decide_unpack _). vm_compute. exact I. Qed.
Lemma configs_inv name json :
  configs !! name = Some json → (name, json) = raw_body ∨ (name, json) = lower_body.
Proof.
  unfold configs. intros [[<- <-]|[_ [<- <-]%lookup_singleton_Some]]%lookup_insert_Some; [by left|by right].
Qed.
Lemma configs_chain_free : chain_free (index_columns heap attrs) configs.
Proof.
  intros name json c [[= -> ->]|[= -> ->]]%configs_inv Hn; [|destruct Hn; right; left].
  intros [= <-]. right. right. left.
Qed.

Lemma schema_new_correct_witness :
  ∃ s, schema_new index_fields 4 = Ok s ∧ schema_get_field (sis_schema s) "ctid" = Some 5 ∧
    is_field_raw_sortable s "id" = true ∧ is_field_raw_sortable s "body" = false.
Proof.
  destruct (schema_new_correct index_fields 4) as [Hok _].
  destruct (Hok (proj1 (schema_new_inv _ _ _ schema_made))) as (s & Hs & _ & _ & Hctid & _).
  exists s. split; [exact Hs|]. split; [exact Hctid|].
  assert (s = index_schema) as -> by (rewrite schema_made in Hs; by injection Hs). by vm_compute.
Defined.

Lemma fields_described_exactly_witness :
  length index_fields = 5%nat ∧
  (∀ f, f ∈ index_fields ↔ field_described (index_columns heap attrs) configs "id" SI64 f) ∧
  aliases_valid (index_columns heap attrs) configs "id" SI64.
Proof.
  split; [reflexivity|].
  destruct (fields_described_exactly (Some opts) heap attrs "id" SI64 configs) as (Hok & Hf);
    [reflexivity|vm_compute; reflexivity|exact configs_read|exact columns_distinct|left|exact configs_chain_free|].
  destruct (Hf index_fields 4 fields_made) as (_ & _ & Hd). split; [exact Hd|].
  apply Hok. exists index_fields, 4. exact fields_made.
Defined.

Lemma left_over key t l b : run_base (Some opts) heap attrs key t l b → no_alias_chains l.
Proof.
  intros (_ & Hkey & _ & cs & cols & Hcs & Hcols & _). change (config_by_name opts = Ok cs) in Hcs.
  rewrite configs_read in Hcs. injection Hcs as <-.
  destruct (column_fields_spec _ _ _ _ _ _ _ Hcols columns_distinct) as [Hl _].
  by apply (left_chain_free _ _ _ Hl), configs_chain_free.
Qed.
Lemma index_reopened_witness :
  spec_names (made_fields ReverseIteration) ≠ spec_names index_fields ∧
  ∃ s', schema_open (sis_schema index_schema) (get_fields (HI := ReverseIteration) (Some opts) heap attrs) = Ok s' ∧
    get_search_field s' "body_raw" = get_search_field index_schema "body_raw".
Proof.
  split; [by vm_compute|].
  destruct (index_reopened RefIteration ReverseIteration (Some opts) heap attrs index_schema) as (s' & Hs' & Hget & _).
  - vm_compute. reflexivity.
  - exact left_over.
  - exists s'. split; [exact Hs'|apply Hget].
Defined.

Lemma index_schema_made_witness :
  ∃ s, get_index_schema (Some opts) heap attrs = Ok s.
Proof.
  destruct (index_schema_made opts heap attrs index_fields 4 fields_made) as [Hs _].
  destruct Hs as (s & Hs & _); [apply (bool_decide_unpack _); vm_compute; exact I|]. by exists s.
Defined.

Lemma alias_chain_depends_on_order_witness :
  let a := JObject [("column"%string, JString "body")] in
  let b := JObject [("column"%string, JString "a")] in
  ∃ m1 m2, alias_fields [("a"%string, a); ("b"%string, b)]
      {["body"%string := ("body"%string, default_text, SText)]} = Ok m1 ∧ is_Some (m1 !! "b"%string) ∧
    alias_fields [("b"%string, b); ("a"%string, a)]
      {["body"%string := ("body"%string, default_text, SText)]} = Ok m2 ∧ m2 !! "b"%string = None.
Proof.
  intros a b.
  destruct (alias_chain_depends_on_order {["body"%string := ("body"%string, default_text, SText)]} "a" "b" "body" a b
    "body" default_text
    (TextConfig true false false true tokenizer_default WithFreqsAndPositions NormalizeRaw (Some "body"%string))
    (TextConfig true false false true tokenizer_default WithFreqsAndPositions NormalizeRaw (Some "a"%string)) SText)
    as (m1 & m2 & H1 & H1b & H2 & H2b & _); [reflexivity|reflexivity|discriminate|reflexivity..|].
  exists m1, m2. split; [exact H1|]. split; [by rewrite H1b; eexists|]. by split.
Defined.

Definition index_analyzers : gmap string TextAnalyzer * gmap string TextAnalyzer :=
  Eval vm_compute in match setup_tokenizers (Some opts) heap attrs with Ok mn => mn | _ => (∅, ∅) end.
Lemma analyzers_set_up : setup_tokenizers (Some opts) heap attrs = Ok index_analyzers.
Proof. vm_compute. reflexivity. Qed.
Lemma raw_config_listed : ("body_raw"%string, raw_config, SText) ∈ index_fields.
Proof. apply (bool_decide_unpack _). vm_compute. exact I. Qed.
Lemma fields_find_their_analyzers_witness :
  is_Some (index_analyzers.1 !! "raw"%string).
Proof.
  destruct (fields_find_their_analyzers (Some opts) heap attrs index_fields 4 index_analyzers.1 index_analyzers.2
    ("body_raw"%string, raw_config, SText) fields_made analyzers_set_up raw_config_listed) as (o & Ho & Hidx & _).
  vm_compute in Ho. injection Ho as <-. destruct (Hidx "raw"%string eq_refl) as (t & t' & a & _ & _ & Ha & _).
  exists a. exact Ha.
Defined.

Lemma unqualified_terms_need_columns_witness :
  schema_as_fields index_schema (index_columns heap attrs) = Panic "search field not found in index" ∧
  ∃ oid i, schema_as_field_type index_schema (index_columns heap attrs) "body_raw" = Ok (Some (FStr, oid, i)).
Proof.
  destruct (unqualified_terms_need_columns index_fields 4 index_schema (index_columns heap attrs) schema_made)
    as (Hlook & _ & Hpanic).
  split.
  - apply Hpanic. exists "body_raw"%string. split; apply (bool_decide_unpack _); vm_compute; exact I.
  - destruct (proj1 (list_elem_of_lookup _ _) raw_config_listed) as [i Hi].
    destruct (Hlook i _ Hi) as (oid & a & Hty & _); [|exists oid, (Z.of_nat i); exact Hty].
    exists "body"%string. split; [by right|]. apply (bool_decide_unpack _). vm_compute. exact I.
Defined.

(** ** A row *)

Definition values : list RowDatum :=
  [DInt 7; DString "hello"; DArray [Some (DInt 1); None; Some (DInt 2)];
   DJson (JArray [JObject []; JArray [JObject [("a"%string, JInteger 1)]]])].
Definition isnull : list bool := [false; false; false; false].
Definition document : list (Z * OwnedValue) :=
  Eval vm_compute in
    match row_to_search_document values isnull "id" (categorize_fields (index_columns heap attrs) index_schema) [] with
    | Ok doc => doc
    | _ => []
    end.
Lemma row_indexed :
  row_to_search_document values isnull "id" (categorize_fields (index_columns heap attrs) index_schema) [] = Ok document.
Proof. vm_compute. reflexivity. Qed.

Lemma row_document_values_witness :
  (∃ i : nat, (filter (λ kv : Z * OwnedValue, kv.1 = Z.of_nat i) document).*2 = [OStr "hello"]) ∧
  schema_get_field (sis_schema index_schema) "ctid" = Some 5 ∧ ∀ v, (5, v) ∉ document.
Proof.
  destruct (row_document_values index_fields 4 index_schema (index_columns heap attrs) values isnull "id" document
    schema_made columns_distinct row_indexed) as [Hvalues Honly].
  split; [|split; [reflexivity|]].
  - destruct (proj1 (list_elem_of_lookup _ _) raw_config_listed) as [i Hi]. exists i.
    destruct (Hvalues i _ Hi) as (vss & Hvss & Hf & _).
    rewrite Hf. vm_compute in Hvss. injection Hvss as <-. reflexivity.
  - intros v Hin. destruct (Honly 5 v Hin) as (i & spec & Hi & H5).
    assert (i = 5%nat) as -> by lia. discriminate Hi.
Defined.

Lemma documents_typed_witness :
  length document = 7%nat ∧ ∀ i v, (i, v) ∈ document → ∃ spec, znth index_fields i = Some spec ∧ typed spec.2 v.
Proof.
  split; [reflexivity|].
  apply (documents_typed opts heap attrs "id" SI64 configs index_fields 4 index_schema values isnull document
    fields_made schema_made); [reflexivity|vm_compute; reflexivity|exact configs_read| |exact columns_distinct|left|
    exact configs_chain_free| |exact row_indexed].
  - apply (bool_decide_unpack _). vm_compute. exact I.
  - intros name json [[= -> ->]|[= -> ->]]%configs_inv Hin; [|reflexivity].
    exfalso. revert Hin. apply (bool_decide_unpack _). vm_compute. exact I.
Defined.

Definition leap_day : RowDatum := DDate (2024, 2, 29).
Definition version : RowDatum := DOid 3.
Lemma datum_roundtrip_witness :
  ∃ v d, try_from_datum leap_day (PgBuiltIn DATEOID) = Ok v ∧
    try_into_datum v (PgBuiltIn DATEOID) = Ok (Some d) ∧ try_from_datum d (PgBuiltIn DATEOID) = Ok v.
Proof.
  destruct (datum_roundtrip DATEOID leap_day (ODate 1709164800000000000)) as (d & Hd & Hv); [reflexivity..|].
  exists (ODate 1709164800000000000), d. split; [reflexivity|]. split; [exact Hd|exact Hv].
Defined.

Lemma accepted_types_fail_on_insert_witness :
  search_field_type (PgBuiltIn XIDOID) = Ok SU64 ∧
  ∃ msg, row_to_search_document [version] [false] "id"
    [(spec_field 0 ("version"%string, default_numeric, SU64), categorized_data 0 (PgBuiltIn XIDOID))] [] = Err msg.
Proof.
  split; [reflexivity|].
  destruct (accepted_types_fail_on_insert [version] [false] "id" (spec_field 0 ("version"%string, default_numeric, SU64)) 0
    (PgBuiltIn XIDOID) [] []) as [_ Hrow]; [reflexivity|]. apply Hrow; [by eexists|reflexivity].
Defined.
