(* ===== verification/QueryWitnesses.v ===== *)
(** * QueryWitnesses: the query theorems at concrete inputs

    Each lemma applies one theorem of [PgUtils.v], [Query.v] or [RangeQuery.v] to a
    concrete query and document of the reference index of [QueryRef.v]. *)

From S2P Require Import Prelude TokenizerConfig PgUtils Query RangeQuery QueryRef.

Open Scope Z_scope.

Lemma ctid_roundtrip_witness :
  u64_to_item_pointer (item_pointer_to_u64 {| ip_blkid := 4294967294; ip_posid := 291 |}) =
    {| ip_blkid := 4294967294; ip_posid := 291 |} ∧
  item_pointer_to_u64 {| ip_blkid := 7; ip_posid := 65535 |} <
    item_pointer_to_u64 {| ip_blkid := 8; ip_posid := 1 |}.
Proof.
  split.
  - refine (proj1 (ctid_roundtrip _ {| ip_blkid := 8; ip_posid := 1 |} _ _));
      (split; [vm_compute; split; discriminate|vm_compute; split; discriminate]).
  - apply (ctid_roundtrip {| ip_blkid := 7; ip_posid := 65535 |} {| ip_blkid := 8; ip_posid := 1 |}).
    + split; vm_compute; split; discriminate.
    + split; vm_compute; split; discriminate.
    + left. reflexivity.
Defined.

Lemma date_strings_drop_fraction_witness :
  convert_pg_date_string (PgBuiltIn TIMESTAMPTZOID) "2024-02-29 12:30:07.25Z" =
  convert_pg_date_string (PgBuiltIn TIMESTAMPTZOID) "2024-02-29 12:30:07Z" ∧
  convert_pg_date_string (PgBuiltIn TIMESTAMPTZOID) "2024-02-29 12:30:07Z" = Ok 1709209807000000.
Proof.
  split; [|vm_compute; reflexivity].
  destruct (@date_strings_drop_fraction _ RefChrono RefPgDates "2024-02-29 12:30:07.25Z" "2024-02-29 12:30:07Z"
    (ref_tz 7250000) (ref_tz 7000000) eq_refl eq_refl) with (oid := TIMESTAMPTZOID) as [Heq _].
  - repeat (split; [reflexivity|]). exists 7, 250000, 250000000, 0, 0. split; vm_compute; reflexivity.
  - left. reflexivity.
  - exact Heq.
Defined.

Lemma integer_bounds_canonical_witness :
  ∃ lo' hi', check_range_bounds (PgBuiltIn INT8RANGEOID) (map_bound OI64 (Excluded 3)) (map_bound OI64 (Included 9)) =
       Ok (map_bound OI64 lo', map_bound OI64 hi').
Proof.
  destruct (integer_bounds_canonical (PgBuiltIn INT8RANGEOID) (Excluded 3) (Included 9)) as [Hok _].
  destruct Hok as (lo' & hi' & Hrun & _).
  - split; intros x [= <-]; vm_compute; split; [discriminate|reflexivity|discriminate|reflexivity].
  - exists lo', hi'. exact Hrun.
Defined.

Lemma ages_field : as_field_type "ages" = Some (FJsonObject false, PgBuiltIn INT8RANGEOID, 0).
Proof. reflexivity. Qed.

Definition two_clauses : SearchQueryInput :=
  Input.Boolean [Input.Exists "ages"; Input.Boost (Input.Parse "a b" None (Some true)) 2] [] [Input.All].

Lemma only_more_like_this_searches_witness :
  @into_tantivy_query _ _ _ _ _ _ _ _ _ RefSearcher two_clauses plain =
  @into_tantivy_query _ _ _ _ _ _ _ _ _ {| search_docs _ := None |} two_clauses plain.
Proof. apply only_more_like_this_searches. reflexivity. Defined.

Lemma conjunction_mode_leaks_witness :
  ∃ p', into_tantivy_query (Input.Boolean
      [Input.Parse "a b" None (Some true); Input.Parse "c d" None None] [] []) plain =
    Ok (BooleanQuery [(Must, Parsed (true, "a b"%string)); (Must, Parsed (true, "c d"%string))], p').
Proof.
  destruct (conjunction_mode_leaks plain "a b" "c d" (true, "a b"%string)
    (false, "c d"%string) (true, "c d"%string) eq_refl eq_refl eq_refl) as (_ & Hrun & _).
  exact Hrun.
Defined.

Lemma term_set_ignores_path_witness :
  into_tantivy_query (Input.TermSet
    [{| Input.field := "ages.kind"; Input.value := OStr "x"; Input.is_datetime := false |}]) plain =
  Err "field 'ages.kind' is not part of the pg_search index".
Proof.
  destruct (term_set_ignores_path plain "ages.kind" "ages" "kind" 0 false
    (PgBuiltIn INT8RANGEOID) "x") as (_ & _ & Hrun); [reflexivity..|exact Hrun].
Defined.

(** the documents [\[3, 9)] and [\[3, )] *)
Definition closed_range : PgRange Z := RangeOf (Included 3) (Excluded 9).
Definition open_range : PgRange Z := RangeOf (Included 3) Unbounded.
Lemma ranges_discrete : discrete closed_range ∧ discrete open_range.
Proof. split; (split; [done|split; intros; discriminate]). Qed.

(** the query [(2, 8\]], which is [\[3, 9)] *)
Lemma query_no_overflow : no_overflow (Excluded 2) (Included 8).
Proof.
  split; intros x [= <-]; vm_compute; split; [discriminate|reflexivity|discriminate|reflexivity].
Qed.
Lemma query_ordered : ordered (Excluded 2) (Included 8).
Proof. intros a b [= <-] [= <-]. vm_compute. discriminate. Qed.

Lemma range_contains_subset_witness :
  ∃ q, into_tantivy_query (Input.RangeContains "ages" (map_bound OI64 (Excluded 2)) (map_bound OI64 (Included 8))
      false) plain = Ok (q, plain) ∧
    matches q (ref_doc KInt (document closed_range)) ∧ ¬ matches q (ref_doc KInt (document open_range)).
Proof.
  destruct (range_contains_subset plain "ages" false (PgBuiltIn INT8RANGEOID) 0 false
    (Excluded 2) (Included 8) ages_field query_no_overflow) as (q & Hrun & Hm).
  exists q. split; [exact Hrun|]. destruct ranges_discrete as [Hd1 Hd2]. split.
  - apply (Hm _ closed_range Hd1 (ref_doc_indexed _ _)). simpl. lia.
  - intros Hq. assert (2 < 9 ∧ 9 ≤ 8) as Hbad.
    { apply (proj1 (Hm _ open_range Hd2 (ref_doc_indexed _ _)) Hq 9). simpl. lia. }
    lia.
Defined.

Lemma range_intersects_overlap_witness :
  ∃ q, into_tantivy_query (Input.RangeIntersects "ages" (map_bound OI64 (Excluded 2)) (map_bound OI64 (Included 8))
      false) plain = Ok (q, plain) ∧
    matches q (ref_doc KInt (document open_range)) ∧ ¬ matches q (ref_doc KInt (document RangeEmpty)).
Proof.
  destruct (range_intersects_overlap plain "ages" false (PgBuiltIn INT8RANGEOID) 0 false
    (Excluded 2) (Included 8) ages_field query_no_overflow query_ordered) as (q & Hrun & Hm).
  exists q. split; [exact Hrun|]. destruct ranges_discrete as [Hd1 Hd2]. split.
  - apply (Hm _ open_range Hd2 (ref_doc_indexed _ _)). exists 5. simpl. lia.
  - intros (x & [] & _)%(Hm _ RangeEmpty I (ref_doc_indexed _ _)).
Defined.

Lemma range_within_superset_witness :
  ∃ q, into_tantivy_query (Input.RangeWithin "ages" (map_bound OI64 (Excluded 2)) (map_bound OI64 (Included 8))
      false) plain = Ok (q, plain) ∧
    matches q (ref_doc KInt (document open_range)) ∧ ¬ matches q (ref_doc KInt (document RangeEmpty)).
Proof.
  destruct (range_within_superset plain "ages" false (PgBuiltIn INT8RANGEOID) 0 false
    (Excluded 2) (Included 8) ages_field query_no_overflow query_ordered) as (q & Hrun & Hm).
  exists q. split; [exact Hrun|]. destruct ranges_discrete as [Hd1 Hd2]. split.
  - apply (Hm _ open_range Hd2 (ref_doc_indexed _ _)). simpl. lia.
  - intros Hq. apply (proj1 (Hm _ RangeEmpty I (ref_doc_indexed _ _)) Hq 5). simpl. lia.
Defined.

Lemma range_term_member_witness :
  ∃ q, into_tantivy_query (Input.RangeTerm "ages" (ODate 5) true) plain = Ok (q, plain) ∧
    matches q (ref_doc KDate (document (RangeOf (Excluded 4) (Included 5)))).
Proof.
  destruct (range_term_member plain "ages" false (PgBuiltIn INT8RANGEOID) 0 true KDate 5 ages_field)
    as (q & Hrun & Hm).
  exists q. split; [exact Hrun|]. apply (Hm _ (RangeOf (Excluded 4) (Included 5)) (ref_doc_indexed _ _)).
  simpl. lia.
Defined.

(** [(3, 9)] does not meet [\[9, 12\]] *)
Lemma date_range_relations_witness :
  ∃ q, into_tantivy_query (Input.RangeIntersects "ages" (map_bound ODate (Included 9)) (map_bound ODate (Included 12))
      true) plain = Ok (q, plain) ∧
    ¬ matches q (ref_doc KDate (document (RangeOf (Excluded 3) (Excluded 9)))).
Proof.
  destruct (date_range_relations plain "ages" false (PgBuiltIn INT8RANGEOID) 0 true
    (Included 9) (Included 12) ages_field eq_refl) as (qc & qi & qw & _ & Hrun & _ & Hm & _).
  exists qi. split; [exact Hrun|]. intros Hq.
  apply (Hm _ (Excluded 3) (Excluded 9) (ref_doc_indexed _ _)) in Hq. simpl in Hq. lia.
Defined.

(** ** Tokenizers *)

Definition stemmed_ngram : SearchTokenizer :=
  Ngram 20 60 true {| remove_long := Some 123; lowercase := Some false; stemmer := Some German |}.

Lemma stemmed_ngram_ok : tokenizer_ok stemmed_ngram.
Proof. split; [intros n [= <-]|split]; split; vm_compute; done. Qed.

Lemma tokenizer_json_roundtrip_witness :
  tokenizer_ok stemmed_ngram ∧
  tokenizer_from_json_value (tokenizer_to_json_value stemmed_ngram) =
    Ok (Ngram 20 60 true {| remove_long := Some 123; lowercase := Some false; stemmer := None |}).
Proof.
  split; [exact stemmed_ngram_ok|]. exact (proj1 (tokenizer_json_roundtrip stemmed_ngram stemmed_ngram_ok)).
Defined.

Definition two_tokenizers : list SearchTokenizer :=
  [stemmed_ngram; Stem Finnish {| remove_long := None; lowercase := None; stemmer := None |}].

Lemma tokenizer_manager_finds_witness :
  ∃ t' a m, create_tokenizer_manager two_tokenizers = Ok m ∧ to_tantivy_tokenizer t' = Ok (Some a) ∧
    m !! "ngram_mingram:20_maxgram:60_prefixonly:true[remove_long=123,lowercase=false,stemmer=German]"%string = Some a.
Proof.
  assert (∃ m, create_tokenizer_manager two_tokenizers = Ok m) as [m Hm] by (eexists; reflexivity).
  destruct (tokenizer_manager_finds two_tokenizers m stemmed_ngram) as (t' & a & _ & Ha & Hl & _).
  - apply List.Forall_cons; [exact stemmed_ngram_ok|]. apply List.Forall_cons; [|constructor].
    split; [intros n Hn; discriminate Hn|exact I].
  - exact Hm.
  - left.
  - exists t', a, m. split; [exact Hm|]. split; [exact Ha|]. exact Hl.
Defined.

(** a positive number for a signed field *)
Lemma value_to_term_typed_witness :
  term_typed 3 None FI64 (FieldTerm 3 (VI64 41)) = true ∧
  value_to_term 3 (OU64 41) FI64 None false = Ok (FieldTerm 3 (VI64 41)).
Proof.
  split; [|reflexivity].
  exact (proj1 (value_to_term_typed 3 (OU64 41) FI64 None false eq_refl)).
Defined.
