(* ===== verification/WriterWitnesses.v ===== *)
(** * WriterWitnesses: the theorems on the writer at a concrete table

    The table of [SchemaWitnesses.v]; an index is its schema and a writer the operations it
    was given and those it has committed. *)

From S2P Require Import Prelude Page Block Buffer LinkedItems PgUtils TokenizerConfig Query RangeQuery Schema Options Rows Reader Writer PgRef QueryRef SchemaRef SchemaWitnesses.

Open Scope Z_scope.

#[export] Program Instance RefWriter : TantivyIndexWriter := {
  Index := Schema;
  IndexWriter := list UserOperation * list UserOperation;
  index_schema i := i;
  index_create s := Ok s;
  writer_with_num_threads _ _ _ := Ok ([], []);
  writer_run w ops := Ok (w.1 ++ ops, w.2);
  writer_commit w := Ok (w.1, w.1);
  wait_merging_threads _ := Ok tt;
  given_ops := fst;
  committed_ops := snd
}.
Next Obligation. by intros ? ? ? ? [= <-]. Qed.
Next Obligation. by intros ? ? ? [= <-]. Qed.
Next Obligation. by intros ? ? [= <-]. Qed.
#[export] Instance RefGucs : WriterGucs :=
  {| create_index_parallelism := 8; create_index_memory_budget := 1073741824;
     statement_parallelism := 1; statement_memory_budget := 15728640 |}.

Lemma ref_runs w ops : ∃ w', writer_run w ops = Ok w'.
Proof. by eexists. Qed.
Lemma ref_commits w : ∃ w', writer_commit w = Ok w'.
Proof. by eexists. Qed.
Lemma ref_merges w : wait_merging_threads w = Ok tt.
Proof. reflexivity. Qed.

Definition table : IndexRelation :=
  {| rel_options := Some opts; rel_heap := heap; rel_attrs := attrs; rel_tupdesc := index_columns heap attrs |}.
Definition row (ip : ItemPointerData) : Row := {| row_values := values; row_isnull := isnull; row_ctid := ip |}.
Definition first : ItemPointerData := {| ip_blkid := 0; ip_posid := 1 |}.
Definition second : ItemPointerData := {| ip_blkid := 0; ip_posid := 2 |}.
Definition table_index : outcome Index := Ok (sis_schema SchemaWitnesses.index_schema).
Definition opened : InsertState :=
  Eval vm_compute in
    match insert_state_new table table_index StatementResources with
    | Ok st => st
    | _ => {| is_writer := None; is_categorized_fields := []; is_key_field_name := "" |}
    end.
Lemma state_opened : insert_state_new table table_index StatementResources = Ok opened.
Proof. vm_compute. reflexivity. Qed.
Lemma rows_converted :
  Forall2 (λ row doc, row_document (is_categorized_fields opened) (is_key_field_name opened) row = Ok doc)
    [row first; row second] [document; document].
Proof. repeat constructor; vm_compute; reflexivity. Qed.

Lemma statement_rows_committed_witness :
  ∃ iw, committed_ops iw = [Add (document ++ [(5, OU64 1)]); Add (document ++ [(5, OU64 2)])].
Proof.
  destruct (statement_rows_committed ref_runs ref_commits ref_merges table table_index [row first; row second]
    [document; document] opened state_opened ltac:(discriminate) rows_converted)
    as (w0 & w & iw & st' & Hw0 & _ & _ & _ & _ & Hc & _).
  exists iw. rewrite Hc. injection Hw0 as <-. vm_compute. reflexivity.
Defined.

(** the state after the first row, which the other relation's first row meets *)
Definition pending : option InsertState :=
  Eval vm_compute in
    match aminsert_fake false table table_index (row first) false None with Ok (_, p) => p | _ => None end.
Lemma pending_made : aminsert_fake false table table_index (row first) false None = Ok (true, pending).
Proof. vm_compute. reflexivity. Qed.
Lemma pending_state_shared_witness :
  aminsert_fake false table table_index (row second) true None = Panic "should have a pending insert state".
Proof.
  destruct (pending_state_shared ref_runs ref_commits ref_merges table table_index (row first) (row second) true pending
    table table_index opened pending_made state_opened) as (_ & iw & _ & _ & Hp).
  exact Hp.
Defined.

Definition created : SearchIndexWriter :=
  Eval vm_compute in
    match create_index table with
    | Ok w => w
    | _ => {| siw_schema := SchemaWitnesses.index_schema; siw_ctid_field := 0; siw_writer := ([], []); siw_queue := [] |}
    end.
Lemma created_index : create_index table = Ok created.
Proof. vm_compute. reflexivity. Qed.
Definition key : SearchField :=
  Eval vm_compute in
    match schema_key_field (siw_schema created) with Ok k => k | _ => spec_field 0 ("", default_text, SText) end.
Lemma key_found : schema_key_field (siw_schema created) = Ok key.
Proof. vm_compute. reflexivity. Qed.
Lemma build_rows_committed_witness :
  ∃ iw r', ambuild table (λ _, Ok 1) 99 true false [(98, false); (99, true)] [row first; row second] empty_rel
      = Ok (({| heap_tuples := 2; index_tuples := 2 |}, iw), r') ∧
    committed_ops iw = [Add (document ++ [(5, OU64 1)]); Add (document ++ [(5, OU64 2)])].
Proof.
  destruct (build_rows_committed ref_runs ref_commits ref_merges table (λ _, Ok 1) [row first; row second]
    [document; document] created key 99 [(98, false); (99, true)] empty_rel created_index key_found)
    as (iw & n & r' & Hrun & Hc & _).
  - repeat constructor; vm_compute; reflexivity.
  - intros w. by eexists.
  - wf.
  - reflexivity.
  - reflexivity.
  - intros oid [[=]|[[= ->]|[]%not_elem_of_nil]%elem_of_cons]%elem_of_cons. reflexivity.
  - exists iw, r'. split; [exact Hrun|]. rewrite Hc. vm_compute. reflexivity.
Defined.

(** two segments; the tuple at [(2, 1)] is dead *)
Definition docs_in (seg : RefSegment) : Z := if Nat.eqb (ref_id seg) 1 then 2 else 1.
Definition vacuumed : list RefSegment :=
  [{| ref_id := 1; ref_postings := []; ref_ctid := λ doc, Some (131072 + 1 + doc) |};
   {| ref_id := 2; ref_postings := []; ref_ctid := λ doc, Some (196608 + 7) |}].
Lemma bulk_delete_exact_witness :
  ∃ iw, ambulkdelete docs_in (λ ip, ip_posid ip =? 1)
      (Ok created) (Ok vacuumed)
    = Ok [AcquiredForDelete; CommittedDeletes iw; ReleasedMergeLock; LockedForCleanup CLEANUP_LOCK] ∧
    committed_ops iw = [Delete (FieldTerm 5 (VU64 131073))].
Proof.
  destruct (bulk_delete_exact (H13 := RefReader) ref_runs ref_commits ref_merges docs_in
    (λ ip, ip_posid ip =? 1) vacuumed
    [[{| ip_blkid := 2; ip_posid := 1 |}; {| ip_blkid := 2; ip_posid := 2 |}]; [{| ip_blkid := 3; ip_posid := 7 |}]]
    created eq_refl) as (iw & Hrun & Hc).
  - repeat constructor; vm_compute; discriminate.
  - exists iw. split; [exact Hrun|]. rewrite Hc. vm_compute. reflexivity.
Defined.
