(* ===== verification/Witnesses.v ===== *)
(** * Witnesses: the theorems at concrete inputs

    Each lemma applies one theorem of the library to a concrete relation, entry or
    query, with the reference instances of [PgRef.v] in the place of the external
    code, and discharges its hypotheses by computation. *)

From S2P Require Import Prelude Page Block Buffer BlockList LinkedBytes SegmentIO LinkedItems MergePolicy Directory Commit PgRef.

Open Scope Z_scope.

(** ** Relations to start from *)

Definition add_page : M Rel unit :=
  b ← new_buffer; update_buffer b (λ pm, Ok (init_page pm)).
(** the lock pages of a new index *)
Definition base_rel : Rel := run_rel (for_each [0; 1] (λ _, add_page)) empty_rel.
(** a page added after a crash: it was never initialised *)
Definition crashed_rel : Rel := run_rel extend_relation base_rel.

Lemma base_rel_in_use b : b = 0 ∨ b = 1 → in_use base_rel b.
Proof.
  intros Hb. exists (default zero_page (rel_pages base_rel !! b)).
  unfold page_in_use. by destruct Hb as [-> | ->]; vm_compute.
Qed.

(** ** Pages and transactions *)

Lemma page_writes_mark_dirty_witness :
  pm_dirty (init_page {| pm_page := zero_page; pm_dirty := false |}) = true.
Proof.
  refine (page_writes_mark_dirty [OpInitPage] {| pm_page := zero_page; pm_dirty := false |} _ _ _);
    [reflexivity|]. vm_compute. discriminate.
Defined.

(** a segment whose postings and deletes are on disk *)
Definition sample_entry (id xmin xmax : Z) : SegmentMetaEntry :=
  {| segment_id := Z.to_nat id : @SegmentId RefTantivy; max_doc := 10;
     entry_xmin := xmin; entry_xmax := xmax;
     postings := Some {| staring_block := 12; total_bytes := 40 |};
     positions := None; fast_fields := None; field_norms := None; terms := None;
     store := None; temp_store := None;
     delete := Some {| file_entry := {| staring_block := 14; total_bytes := 8 |};
                       num_deleted_docs := 1 |} |}.

Lemma recyclable_not_visible_witness : visible (sample_entry 1 300 400) GetActiveSnapshot = false.
Proof. apply (recyclable_not_visible (sample_entry 1 300 400)). vm_compute. reflexivity. Defined.

Lemma freeze_keeps_visible_witness :
  visible (into_frozen (sample_entry 1 300 0) true false) GetActiveSnapshot =
  visible (sample_entry 1 300 0) GetActiveSnapshot.
Proof.
  refine (freeze_keeps_visible (sample_entry 1 300 0) tt 500 _ _ _ _).
  - vm_compute. split; [discriminate|reflexivity].
  - vm_compute. discriminate.
  - vm_compute. discriminate.
  - vm_compute. reflexivity.
Defined.

Lemma freeze_limit_wraps_witness :
  @vacuum_get_freeze_limit WrapXact = Ok FirstNormalTransactionId ∧
  @xmin_needs_freeze WrapXact _ _ (sample_entry 1 2147483899 0) FirstNormalTransactionId = true.
Proof.
  refine (@freeze_limit_wraps WrapXact WrapXactOk _ _ (sample_entry 1 2147483899 0) _ _).
  - vm_compute. discriminate.
  - vm_compute. split; reflexivity.
Defined.

(** ** Buffers *)

Lemma new_buffer_never_live_witness :
  ∃ b r', new_buffer base_rel = Ok (b, r') ∧ rel_wf r' ∧ is_Some (rel_pages r' !! b) ∧
    ¬ in_use base_rel b ∧ (∀ b', b' ≠ b → rel_pages r' !! b' = rel_pages base_rel !! b').
Proof. apply (new_buffer_never_live base_rel); [wf|vm_compute; reflexivity]. Defined.

Lemma vacuum_pages_reused_witness :
  ∃ r', amvacuumcleanup false crashed_rel = Ok (tt, r') ∧
    ∃ b r'', new_buffer r' = Ok (b, r'') ∧ rel_nblocks r'' = 3 ∧ b ∉ rel_fsm r''.
Proof.
  destruct (vacuum_pages_reused crashed_rel) as (r' & Hrun & _ & _ & Hreuse);
    [wf|vm_compute; reflexivity|].
  exists r'. split; [exact Hrun|]. apply Hreuse.
  exists 2, zero_page. split; [|split]; vm_compute; reflexivity.
Defined.

(** ** Lists of blocks and bytes *)

Lemma blocklist_roundtrip_witness :
  ∃ b start b' r',
    push_all (seqZ 5 200) Builder_default = Ok b ∧
    finish b base_rel = Ok ((Some start, b'), r') ∧
    reader_new start r' = Ok (seqZ 5 200, r').
Proof.
  destruct (blocklist_roundtrip base_rel (seqZ 5 200)) as (b & start & b' & r' & H1 & H2 & H3 & _).
  - wf.
  - discriminate.
  - apply Forall_forall. intros x Hx%elem_of_seqZ. unfold block_ok, is_u32, u32_max. lia.
  - split; [|right; apply ref_packs_any]. apply Forall_forall. intros x Hx.
    assert (squash None (seqZ 5 200) = seqZ 5 200) as Heq by (vm_compute; reflexivity).
    rewrite Heq in Hx. apply elem_of_seqZ in Hx. unfold block_ok, is_u32, u32_max. lia.
  - vm_compute. reflexivity.
  - exists b, start, b', r'. split; [exact H1|]. split; [exact H2|exact H3].
Defined.

Definition sample_bytes : list (list Z) := [replicate 700 7; replicate 292 9].
Definition written_rel : Rel := run_rel (write_file "a.idx" sample_bytes) base_rel.

(** the file [sample_bytes] written to [base_rel] *)
Lemma sample_file :
  ∃ entry md blks, write_file "a.idx" sample_bytes base_rel = Ok (entry, written_rel) ∧
    total_bytes entry = zlen (concat sample_bytes) ∧
    file_at written_rel (staring_block entry) md blks (concat sample_bytes) ∧ rel_wf written_rel.
Proof.
  destruct (write_file_spec "a.idx" sample_bytes base_rel)
    as (entry & r' & md & blks & Hrun & Ht & Hf & Hwf & _).
  - wf.
  - apply base_rel_in_use. by left.
  - left. apply ref_packs_any.
  - unfold room. vm_compute. reflexivity.
  - assert (written_rel = r') as ->.
    { unfold written_rel, run_rel. rewrite Hrun. reflexivity. }
    exists entry, md, blks. split; [exact Hrun|]. split; [exact Ht|]. split; [exact Hf|exact Hwf].
Qed.

Lemma deleted_file_reclaimable_witness :
  ∃ l md blks r' bl, file_at written_rel (header_blockno l) md blks (concat sample_bytes) ∧
    list_mark_deleted l written_rel = Ok (tt, r') ∧ blocklist_at written_rel bl blks.
Proof.
  destruct sample_file as (entry & md & blks & _ & _ & Hf & Hwf).
  set (l := {| header_blockno := staring_block entry; metadata := md;
               blocklist_builder := Builder_default; blocklist_reader := None |}).
  destruct (deleted_file_reclaimable written_rel l blks (concat sample_bytes) Hwf Hf)
    as (r' & bl & Hrun & Hbl & _); [discriminate|].
  exists l, md, blks, r', bl. split; [exact Hf|]. split; [exact Hrun|exact Hbl].
Defined.

Lemma segment_file_roundtrip_witness :
  ∃ entry r' r'', write_file "a.idx" sample_bytes base_rel = Ok (entry, r') ∧
    read_file entry [(690, 710); (3, 5); (900, 2000)] r' =
      Ok ([replicate 10 7 ++ replicate 10 9; [7; 7]; replicate 92 9], r'').
Proof.
  destruct (segment_file_roundtrip base_rel "a.idx" sample_bytes [(690, 710); (3, 5); (900, 2000)])
    as (entry & r' & r'' & Hrun & _ & _ & Hread & _).
  - wf.
  - apply base_rel_in_use. by left.
  - left. apply ref_packs_any.
  - vm_compute. reflexivity.
  - repeat constructor; vm_compute; done.
  - exists entry, r', r''. split; [exact Hrun|]. exact Hread.
Defined.

(** the file fills its only page *)
Lemma read_at_page_boundary_panics_witness :
  ∃ entry, write_file "a.idx" sample_bytes base_rel = Ok (entry, written_rel) ∧
    read_file entry [(zlen (concat sample_bytes), 1000)] written_rel = Panic "block not found".
Proof.
  destruct sample_file as (entry & md & blks & Hrun & Ht & Hf & Hwf).
  exists entry. split; [exact Hrun|].
  refine (read_at_page_boundary_panics written_rel entry md blks _ 1000 Hwf Hf Ht _).
  destruct Hf as [[(p & Hp & _ & _ & Hmd & _) _ _ _ _ _ _] _].
  assert (staring_block entry = 2) as Hb.
  { assert (staring_block <$> (fst <$> match write_file "a.idx" sample_bytes base_rel with
                                       | Ok x => Some x | _ => None end) = Some 2) as Hx
      by (vm_compute; reflexivity).
    rewrite Hrun in Hx. by injection Hx. }
  rewrite Hb in Hp. assert ((npages ∘ contents <$> rel_pages written_rel !! 2) = Some 1) as Hn
    by (vm_compute; reflexivity).
  rewrite Hp in Hn.
  change (Some (npages (contents (T:=LinkedListData) p)) = Some 1) in Hn. apply (inj Some) in Hn.
  rewrite <- Hmd, Hn. vm_compute. reflexivity.
Defined.

(** ** Lists of entries *)

(** three segments on a fresh list: the second was deleted by an old transaction *)
Definition sample_entries : list SegmentMetaEntry :=
  [sample_entry 1 300 0; sample_entry 2 310 400; sample_entry 3 700 0].
Definition items_header : Z := 2.
Definition fresh_items_rel : Rel := run_rel items_create base_rel.
Definition items_rel : Rel := run_rel (add_items items_header sample_entries None) fresh_items_rel.

Ltac page_at r b :=
  exists (default zero_page (rel_pages r !! b)); split; [vm_compute; reflexivity|].

Lemma fresh_items_at :
  items_at (T:=SegmentMetaEntry) fresh_items_rel items_header [3] [[]] ∧
  header_at fresh_items_rel items_header
    {| start_blockno := 3; last_blockno := 3; npages := 0; blocklist_start := 0 |}.
Proof.
  assert (header_at fresh_items_rel items_header
    {| start_blockno := 3; last_blockno := 3; npages := 0; blocklist_start := 0 |}) as Hh.
  { page_at fresh_items_rel 2. repeat split; vm_compute; done. }
  split; [|done]. split.
  - split; [|done]. page_at fresh_items_rel 3. repeat split; vm_compute; done.
  - eapply bool_decide_eq_true_1. vm_compute. reflexivity.
  - eexists. split; [done|]. done.
  - wf.
Qed.

Lemma sample_items_at :
  items_at items_rel items_header [3] [sample_entries].
Proof.
  split.
  - split; [|done]. page_at items_rel 3. repeat split; vm_compute; done.
  - eapply bool_decide_eq_true_1. vm_compute. reflexivity.
  - exists {| start_blockno := 3; last_blockno := 3; npages := 0; blocklist_start := 0 |}.
    split; [|done]. page_at items_rel 2. repeat split; vm_compute; done.
  - wf.
Qed.

Lemma add_items_appends_witness :
  ∃ r' es, add_items items_header sample_entries None fresh_items_rel = Ok (tt, r') ∧
    list_entries items_header r' = Ok (es, r') ∧ es ≡ₚ sample_entries.
Proof.
  destruct fresh_items_at as [Hi Hh].
  destruct (add_items_appends fresh_items_rel items_header [3] [[]] sample_entries _ Hi Hh)
    as (r' & blks' & es & Hrun & Hlist & Hperm & _).
  - vm_compute. discriminate.
  - vm_compute. discriminate.
  - repeat constructor; vm_compute; discriminate.
  - exists r', es. split; [exact Hrun|]. split; [exact Hlist|exact Hperm].
Defined.

Lemma garbage_collect_keeps_live_witness :
  ∃ r', garbage_collect (T:=SegmentMetaEntry) items_header items_rel = Ok (tt, r') ∧
    list_entries items_header r' =
      Ok ([into_frozen (sample_entry 1 300 0) true false; sample_entry 3 700 0], r').
Proof.
  destruct (garbage_collect_keeps_live items_rel items_header [3] [sample_entries] 500
              sample_items_at) as (r' & kept & kits & Hrun & Hlist & _).
  - vm_compute. reflexivity.
  - exists r'. split; [exact Hrun|]. exact Hlist.
Defined.

Lemma lookup_finds_first_witness :
  ∃ b off p, lookup_ex items_header (λ e : SegmentMetaEntry, entry_xmax e =? 400) items_rel =
      Ok ((sample_entry 2 310 400, b, off), items_rel) ∧
    rel_pages items_rel !! b = Some p.
Proof.
  pose proof (lookup_finds_first items_rel items_header [3] [sample_entries]
    (λ e, entry_xmax e =? 400) sample_items_at) as (b & off & p & Hrun & _ & Hp & _).
  exists b, off, p. split; [exact Hrun|exact Hp].
Defined.

(** ** Merging *)

Definition meta_of (id max_doc : Z) : SegmentMeta :=
  {| ism_max_doc := max_doc; ism_segment_id := Z.to_nat id : @SegmentId RefTantivy;
     ism_deletes := None; ism_include_temp_doc_store := false |}.

Lemma merge_candidates_smallest_witness :
  compute_merge_candidates {| policy_n := 2; min_num_segments := 2 |}
    [meta_of 1 50; meta_of 2 10; meta_of 3 70; meta_of 4 20] = [[Z.to_nat 2; Z.to_nat 4]] ∧
  ∃ kept merged, kept ++ merged ≡ₚ [meta_of 1 50; meta_of 2 10; meta_of 3 70; meta_of 4 20] ∧
    zlen kept = 2 ∧ (∀ k m, k ∈ kept → m ∈ merged → num_docs m ≤ num_docs k).
Proof.
  split; [vm_compute; reflexivity|].
  destruct (merge_candidates_smallest {| policy_n := 2; min_num_segments := 2 |}
    [meta_of 1 50; meta_of 2 10; meta_of 3 70; meta_of 4 20]) as [[Hnil _]|Hres].
  - vm_compute. discriminate.
  - exfalso. vm_compute in Hnil. discriminate.
  - destruct Hres as (kept & merged & _ & Hperm & Hlen & _ & _ & Hle).
    exists kept, merged. split; [exact Hperm|]. split; [exact Hlen|exact Hle].
Defined.

(** ** The directory *)

(** a new index, and one with segments, a schema and settings *)
Definition index_rel : Rel := run_rel (create_metadata) empty_rel.
Definition saved_rel : Rel := run_rel (save_schema 7) index_rel.
Definition segments_rel : Rel :=
  run_rel (_ ← save_settings 8; add_items SEGMENT_METAS_START sample_entries None) saved_rel.

Lemma create_metadata_layout_witness :
  ∃ r', create_metadata empty_rel = Ok (tt, r') ∧ rel_nblocks r' = 8 ∧
    ∃ b, items_at (T:=SegmentMetaEntry) r' SEGMENT_METAS_START [b] [[]].
Proof.
  destruct (create_metadata_layout empty_rel) as (r' & _ & _ & _ & _ & b3 & Hrun & _ & Hn & _ & _ & _ & _ & Hi).
  - wf.
  - reflexivity.
  - reflexivity.
  - exists r'. split; [exact Hrun|]. split; [exact Hn|]. exists b3. exact Hi.
Defined.

Lemma merge_lock_waits_for_visibility_witness :
  ∃ r' r'', @merge_lock_drop _ (ref_xact 500 600 1000) index_rel = Ok (tt, r') ∧
    @acquire_for_merge _ (ref_xact 500 700 1000) _ r' = Ok (false, r'').
Proof.
  destruct (merge_lock_waits_for_visibility (ref_xact 500 600 1000) (ref_xact 500 700 1000) index_rel
    {| last_merge := 0; num_segments := 0 |}) as (r' & Hdrop & r'' & Hacq).
  - wf.
  - page_at index_rel 0. repeat split; vm_compute; done.
  - reflexivity.
  - reflexivity.
  - reflexivity.
  - vm_compute. split; discriminate.
  - vm_compute. split; discriminate.
  - exists r', r''. split; [exact Hdrop|exact Hacq].
Defined.

Lemma index_rel_schema :
  pages_at index_rel SCHEMA_START
    {| start_blockno := 3; last_blockno := 3; npages := 1; blocklist_start := InvalidBlockNumber |} [3] [].
Proof.
  split; try reflexivity.
  - page_at index_rel 2. repeat split; vm_compute; done.
  - exists [[]]. split; [|done]. split; [|done]. page_at index_rel 3. repeat split; vm_compute; done.
  - eapply bool_decide_eq_true_1. vm_compute. reflexivity.
  - repeat constructor; vm_compute; done.
Qed.

Lemma schema_saved_once_witness :
  ∃ r1 r2 r3, save_schema 7 index_rel = Ok (tt, r1) ∧ save_schema 9 r1 = Ok (tt, r2) ∧
    read_json SCHEMA_START r2 = Ok (7, r3).
Proof.
  destruct (schema_saved_once index_rel
    {| start_blockno := 3; last_blockno := 3; npages := 1; blocklist_start := InvalidBlockNumber |}
    3 7 9 [123; 7; 125]) as (r1 & r2 & r3 & H1 & _ & H2 & _ & H3).
  - wf.
  - exists (default zero_page (rel_pages index_rel !! 0)). vm_compute. done.
  - left. apply ref_packs_any.
  - exact index_rel_schema.
  - reflexivity.
  - vm_compute. discriminate.
  - exists r1, r2, r3. split; [exact H1|]. split; [exact H2|exact H3].
Defined.

Lemma segments_rel_at :
  items_at segments_rel SEGMENT_METAS_START [7] [sample_entries] ∧
  json_at segments_rel SCHEMA_START 7 ∧ json_at segments_rel SETTINGS_START 8.
Proof.
  split; [split|split].
  - split; [|done]. page_at segments_rel 7. repeat split; vm_compute; done.
  - eapply bool_decide_eq_true_1. vm_compute. reflexivity.
  - exists {| start_blockno := 7; last_blockno := 7; npages := 0; blocklist_start := 0 |}.
    split; [|done]. page_at segments_rel 6. repeat split; vm_compute; done.
  - wf.
  - exists {| start_blockno := 3; last_blockno := 3; npages := 1; blocklist_start := InvalidBlockNumber |},
      [3], [123; 7; 125]. split; [|reflexivity]. split; try reflexivity.
    + page_at segments_rel 2. repeat split; vm_compute; done.
    + exists [[123; 7; 125]]. split; [|done]. split; [|done]. page_at segments_rel 3. repeat split; vm_compute; done.
    + eapply bool_decide_eq_true_1. vm_compute. reflexivity.
    + repeat constructor; vm_compute; done.
  - exists {| start_blockno := 5; last_blockno := 5; npages := 1; blocklist_start := InvalidBlockNumber |},
      [5], [123; 8; 125]. split; [|reflexivity]. split; try reflexivity.
    + page_at segments_rel 4. repeat split; vm_compute; done.
    + exists [[123; 8; 125]]. split; [|done]. split; [|done]. page_at segments_rel 5. repeat split; vm_compute; done.
    + eapply bool_decide_eq_true_1. vm_compute. reflexivity.
    + repeat constructor; vm_compute; done.
Qed.

(** a snapshot sees the first segment only: the second was deleted, the third's
    transaction is still running *)
Lemma load_metas_mvcc_witness :
  ∃ r', load_metas GetActiveSnapshot MvccSnapshot segments_rel =
    Ok ({| im_segments := [{| ism_max_doc := 10; ism_segment_id := Z.to_nat 1 : @SegmentId RefTantivy;
             ism_deletes := Some {| dm_num_deleted_docs := 1; dm_opstamp := 0 |};
             ism_include_temp_doc_store := false |}];
           im_schema := 7; im_index_settings := 8; im_opstamp := 300 |}, r').
Proof.
  destruct segments_rel_at as (Hi & Hsc & Hse).
  destruct (load_metas_mvcc segments_rel [7] [sample_entries] 7 8 GetActiveSnapshot MvccSnapshot Hi Hsc Hse)
    as (r' & Hrun & _).
  exists r'. exact Hrun.
Defined.

Lemma managed_files_found_witness :
  ∃ files r' fe r'', list_managed_files segments_rel = Ok (files, r') ∧ "aaa.0.del"%string ∈ files ∧
    directory_lookup "aaa.0.del" segments_rel = Ok (fe, r'').
Proof.
  destruct segments_rel_at as (Hi & _ & _).
  destruct (managed_files_found segments_rel [7] [sample_entries] Hi) as (files & r' & Hrun & _ & Hin & Hfind).
  - eapply bool_decide_eq_true_1. vm_compute. reflexivity.
  - assert ("aaa.0.del"%string ∈ files) as Hp.
    { apply Hin. exists (sample_entry 2 310 400). split; eapply bool_decide_eq_true_1; vm_compute; reflexivity. }
    destruct (Hfind _ Hp) as (e & c & fe & r'' & _ & _ & _ & _ & Hlook).
    exists files, r', fe, r''. split; [exact Hrun|]. split; [exact Hp|exact Hlook].
Defined.

(** ** A commit *)

(** segment 4 has its postings in the file of [sample_bytes], header 8, data 9, block list 10 *)
Definition old_entry : SegmentMetaEntry :=
  {| segment_id := 4%nat : @SegmentId RefTantivy; max_doc := 10; entry_xmin := 300; entry_xmax := 0;
     postings := Some {| staring_block := 8; total_bytes := 992 |};
     positions := None; fast_fields := None; field_norms := None; terms := None;
     store := None; temp_store := None; delete := None |}.
Definition commit_rel : Rel :=
  run_rel (_ ← save_settings 8; _ ← write_file "aaaaa.0.idx" sample_bytes;
           add_items SEGMENT_METAS_START [old_entry] None) saved_rel.
Definition json_meta (segments : list SegmentMeta) : IndexMeta Z Z :=
  {| im_segments := segments; im_schema := 7; im_index_settings := 8; im_opstamp := 0 |}.
Definition new_files : gmap string FileEntry :=
  {[ "aaaaaa.0.idx"%string := {| staring_block := 12; total_bytes := 40 |} ]}.

Lemma commit_rel_deletable : deletable commit_rel {| staring_block := 8; total_bytes := 992 |} [9; 10; 8].
Proof.
  exists {| start_blockno := 9; last_blockno := 9; npages := 1; blocklist_start := 10 |}, [9],
    (concat sample_bytes), 10, [].
  split; [|split; [reflexivity|split; [|split; [|reflexivity]]]].
  - split; try reflexivity.
    + page_at commit_rel 8. repeat split; vm_compute; done.
    + exists [concat sample_bytes]. split; [|split; [|apply app_nil_r]].
      * split; [|done]. page_at commit_rel 9. repeat split; vm_compute; done.
      * done.
    + eapply bool_decide_eq_true_1. vm_compute. reflexivity.
    + repeat constructor; vm_compute; done.
  - exists [into_bytes (Uncompressed [9])], [[9]]. split; [|split; [|split; [|reflexivity]]].
    + split; [|done]. page_at commit_rel 10. repeat split; vm_compute; done.
    + eapply bool_decide_eq_true_1. vm_compute. reflexivity.
    + constructor; [|done]. exists [Uncompressed [9]], [[9]]. split; [done|]. split; [|done].
      constructor; [|done]. apply uncompressed_encodes; [done|done|].
      repeat constructor; vm_compute; done.
  - intros x ->%list_elem_of_singleton. eapply bool_decide_eq_true_1. vm_compute. reflexivity.
Qed.

Lemma commit_rel_committing :
  committing commit_rel [7] [[old_entry]]
    {| start_blockno := 7; last_blockno := 7; npages := 0; blocklist_start := 0 |} 1
    [({| staring_block := 8; total_bytes := 992 |}, [9; 10; 8])].
Proof.
  split.
  - split.
    + split; [|done]. page_at commit_rel 7. repeat split; vm_compute; done.
    + eapply bool_decide_eq_true_1. vm_compute. reflexivity.
    + exists {| start_blockno := 7; last_blockno := 7; npages := 0; blocklist_start := 0 |}.
      split; [|done]. page_at commit_rel 6. repeat split; vm_compute; done.
    + wf.
  - page_at commit_rel 6. repeat split; vm_compute; done.
  - eapply bool_decide_eq_true_1. vm_compute. reflexivity.
  - vm_compute. split; discriminate.
  - constructor; [apply commit_rel_deletable|constructor].
  - eapply bool_decide_eq_true_1. vm_compute. reflexivity.
  - intros b Hb. change (b ∈ [9; 10; 8]) in Hb. rewrite !elem_of_cons, elem_of_nil in Hb.
    destruct Hb as [-> | [-> | [-> | []]]]; eapply bool_decide_eq_true_1; vm_compute; reflexivity.
Qed.

Lemma commit_rel_ready :
  ∃ files, commit_ready commit_rel [7] [[old_entry]]
    {| start_blockno := 7; last_blockno := 7; npages := 0; blocklist_start := 0 |}
    [meta_of 5 20] [meta_of 4 10] new_files files
    [({| staring_block := 8; total_bytes := 992 |}, [9; 10; 8])] ∧
    commit_spec [meta_of 5 20] [meta_of 4 10] files [old_entry] =
      [set_xmax 600 old_entry;
       created_entry (5%nat : @SegmentId RefTantivy) (meta_of 5 20)
         {[ Postings := ({| staring_block := 12; total_bytes := 40 |}, "aaaaaa.0.idx"%string) ]}].
Proof.
  destruct (organize (drain new_files) ∅) as [files| | |] eqn:Hfiles; [|vm_compute in Hfiles; discriminate..].
  exists files. split; [split|].
  - done.
  - intros id Hid. vm_compute in Hid. apply list_elem_of_singleton in Hid as ->. by eexists.
  - intros id Hid. exfalso. apply list_elem_of_filter in Hid as [_ Hid]. by vm_compute in Hid; apply not_elem_of_nil in Hid.
  - intros e He%list_elem_of_singleton. subst e. eapply bool_decide_eq_true_1. vm_compute. reflexivity.
  - vm_compute in Hfiles. injection Hfiles as <-. vm_compute. reflexivity.
  - assert (zlen (created_of [meta_of 5 20] files (created_ids [meta_of 5 20] [meta_of 4 10])) = 1) as Hn.
    { vm_compute in Hfiles. injection Hfiles as <-. vm_compute. reflexivity. }
    rewrite Hn. assert (modified_ids [meta_of 5 20] [meta_of 4 10] files = []) as Hm.
    { vm_compute. reflexivity. }
    rewrite Hm. apply commit_rel_committing.
  - vm_compute in Hfiles. injection Hfiles as <-. constructor; [vm_compute; discriminate|constructor].
  - vm_compute in Hfiles. injection Hfiles as <-. vm_compute. reflexivity.
Qed.

Lemma save_new_metas_commits_witness :
  ∃ r' left es, save_new_metas (json_meta [meta_of 5 20]) (json_meta [meta_of 4 10]) new_files commit_rel =
      Ok (left, r') ∧
    es ≡ₚ [set_xmax 600 old_entry;
       created_entry (5%nat : @SegmentId RefTantivy) (meta_of 5 20)
         {[ Postings := ({| staring_block := 12; total_bytes := 40 |}, "aaaaaa.0.idx"%string) ]}].
Proof.
  destruct commit_rel_ready as (files & Hready & Hspec).
  destruct (save_new_metas_commits commit_rel _ _ _ (json_meta [meta_of 5 20]) (json_meta [meta_of 4 10])
    new_files files _ 500 Hready) as (r' & left & es & _ & _ & Hrun & Hes & _); [vm_compute; reflexivity|].
  exists r', left, es. split; [exact Hrun|]. rewrite <- Hspec. exact Hes.
Defined.
