(* ===== verification/ChannelWitnesses.v ===== *)
(** * ChannelWitnesses: the channel and the parallel scan on concrete inputs

    The theorems of [Channel.v] and [Parallel.v] at concrete inputs, on the reference
    instances of [PgRef.v] and the relation of [Witnesses.v]. *)

From S2P Require Import Prelude Page Block Buffer BlockList LinkedBytes SegmentIO LinkedItems MergePolicy Directory Commit Channel Parallel PgRef Witnesses.

Open Scope Z_scope.

Definition idle_handler : ChannelRequestHandler :=
  {| h_writers := ∅; h_readers := ∅; h_file_entries := ∅; h_merge_lock := false |}.
Definition ref_process : ChannelRequest (IndexMeta Z Z) → M (ChannelRequestHandler * Rel) (option (Answer (IndexMeta Z Z)) * bool) :=
  process_message MvccSnapshot MergeNPlusOne GetActiveSnapshot 4.
Definition sample_ops : list FileOp :=
  [FlushBytes; WriteBytes (replicate 700 7); FlushBytes; WriteBytes (replicate 92 9)].
Definition sample_client : Prog (ChannelRequest (IndexMeta Z Z)) (Answer (IndexMeta Z Z)) (option (list (option (list Z)))) :=
  write_and_read "a.idx" sample_ops [(690, 710); (3, 5)].

(** what the client is to get *)
Definition sample_reads : list (option (list Z)) := [Some (replicate 10 7 ++ replicate 10 9); Some [7; 7]].

(** the client's calls, run: what is returned, and the backend they leave *)
Definition sample_end : ChannelRequestHandler * Rel :=
  match direct ref_process sample_client (idle_handler, base_rel) with
  | Ok (_, s) => s
  | _ => (idle_handler, base_rel)
  end.
Lemma sample_calls :
  direct ref_process sample_client (idle_handler, base_rel) = Ok (Some sample_reads, sample_end).
Proof.
  assert (match direct ref_process sample_client (idle_handler, base_rel) with
          | Ok (ds, _) => Some ds
          | _ => None
          end = Some (Some sample_reads)) as Hds by (vm_compute; reflexivity).
  unfold sample_end. destruct (direct ref_process sample_client (idle_handler, base_rel)) as [[ds s]| | |];
    [|discriminate Hds..]. injection Hds as ->. reflexivity.
Qed.

Lemma wait_for_refines_calls_witness :
  ∃ s qs, rtc (step ref_process wants_answer) (wait_for [] sample_client (idle_handler, base_rel))
            (Returned (Some sample_reads) s qs).
Proof.
  refine (wait_for_refines_calls ref_process wants_answer [] sample_client (idle_handler, base_rel)
    (wait_for [] sample_client (idle_handler, base_rel)) _ _ _ (Some sample_reads) sample_end _).
  - apply process_message_replies.
  - constructor.
  - apply rtc_refl.
  - exact sample_calls.
Defined.

Lemma channel_file_roundtrip_witness :
  ∃ ds s qs, rtc (step ref_process wants_answer) (wait_for [] sample_client (idle_handler, base_rel))
               (Returned ds s qs).
Proof.
  refine (proj1 (proj2 (channel_file_roundtrip MvccSnapshot MergeNPlusOne GetActiveSnapshot 4 idle_handler base_rel
    "a.idx" sample_ops [(690, 710); (3, 5)] _ _ _ _ _ _ _ _ _ _))).
  - reflexivity.
  - apply Exists_cons_tl, Exists_cons_hd. discriminate.
  - intros fe [s Hs]. discriminate Hs.
  - wf.
  - apply base_rel_in_use. by left.
  - left. apply ref_packs_any.
  - vm_compute. reflexivity.
  - repeat constructor; vm_compute; done.
  - apply rtc_refl.
Defined.

(** ** A scan of one segment by its leader; the worker has not come up *)

Definition scan_ids : list (@SegmentId RefTantivy) := [5%nat].
Definition scan_results (id : @SegmentId RefTantivy) : list Z := [Z.of_nat id + 2; 8].
Definition idle_shared : ParallelScanState :=
  {| segment_count := 0; remaining_segments := 0; segment_uuids := ∅ |}.

(** the leader scans a segment of two tuples and is done; the worker has not come up *)
Lemma parallel_scan_ends_witness :
  ∃ c, nsteps (scan_step scan_ids scan_results) 5 (scan_start {[ -1; 0 ]} idle_shared) c ∧
    sc_emitted c ++ all_held (sc_workers c) ≡ₚ [7; 8].
Proof.
  eexists. assert (∀ (P Q : Prop), P → (P → Q) → P ∧ Q) as Hand by tauto. apply Hand.
  - eapply nsteps_l; [eapply (step_init _ _ (-1)); reflexivity|].
    eapply nsteps_l; [eapply (step_first_claim _ _ (-1)); reflexivity|].
    eapply nsteps_l; [eapply (step_tuple _ _ (-1)); reflexivity|].
    eapply nsteps_l; [eapply (step_tuple _ _ (-1)); reflexivity|].
    eapply nsteps_l; [eapply (step_done _ _ (-1)); reflexivity|]. apply nsteps_O.
  - intros Hr. refine (proj1 (proj2 (parallel_scan_ends scan_ids scan_results {[ -1; 0 ]} idle_shared 5 _ _ _ eq_refl Hr)) eq_refl).
    + vm_compute. discriminate.
    + by apply elem_of_union_l, elem_of_singleton.
Defined.
