(* ===== verification/ScanWitnesses.v ===== *)
(** * ScanWitnesses: the custom scan's theorems at concrete plans

    Each lemma applies one theorem of [CustomScan.v], [WhereClause.v], [Reader.v] or [ScanExec.v]
    to a concrete clause, plan or scan over the reference index of [QueryRef.v]. *)

From S2P Require Import Prelude Block PgUtils Query RangeQuery CustomScan WhereClause Reader Parallel ScanExec PgRef QueryRef.

Open Scope Z_scope.

(** [ages.n @@@ term(n)], an operator with the index 98 on the relation 1 *)
Definition term_const (n : Z) : Const :=
  {| constvalue := Some (Input.Term (Some "ages.n"%string) (OI64 n) false); constisnull := false |}.
Definition op (rel n : Z) : Node :=
  T_OpExpr 98 [T_Var {| varno := rel; varattno := 4 |}; T_Const (term_const n)].
(** what each right hand side converts to *)
Definition const_query (c : Const) : Query :=
  match constvalue c with
  | Some input => match into_tantivy_query input plain with Ok (q, _) => q | _ => EmptyQuery end
  | None => EmptyQuery
  end.
Lemma term_const_ok n : atom_ok const_query (term_const n).
Proof.
  eexists. split; [reflexivity|]. intros p. exists p. reflexivity.
Qed.
Definition row (n : Z) : RefDoc := λ f path, if decide (path = "n"%string) then [VI64 n] else [].

(** [(n = 3 AND other.n = 5) OR n = 4], in a restriction *)
Definition disjunction : Node :=
  T_List [T_RestrictInfo (T_BoolExpr OR_EXPR [T_BoolExpr AND_EXPR [op 1 3; op 2 5]; op 1 4]) T_Other].

Lemma other_row (n m : Z) : m ≠ n → VI64 n ∉ [VI64 m].
Proof. intros Hne Hin. apply list_elem_of_singleton in Hin. congruence. Qed.

Lemma where_clause_query_witness :
  ∃ q input query p', extract_quals 1 disjunction 98 = Ok (Some q) ∧ qual_query q = Ok input ∧
    into_tantivy_query input plain = Ok (query, p') ∧ matches query (row 3) ∧ ¬ matches query (row 5).
Proof.
  destruct (where_clause_query 1 98 const_query disjunction) as [[Hno _]|[_ (q & input & Hq & Hin & Hm)]].
  - reflexivity.
  - repeat (apply List.Forall_cons; [apply term_const_ok|]). constructor.
  - exfalso. apply Hno. reflexivity.
  - destruct (Hm I plain) as (query & p' & Hrun & Hiff). exists q, input, query, p'.
    split; [exact Hq|]. split; [exact Hin|]. split; [exact Hrun|]. split.
    + apply Hiff. vm_compute. split; [|exact I]. left. split; [left|split; exact I].
    + intros Hc. apply Hiff in Hc. destruct Hc as [[[Hc _]|[Hc|[]]] _];
        revert Hc; apply other_row; discriminate.
Defined.

(** [n = 3 AND NOT (n = 4)] holds of a row with 3, and its query matches no row *)
Definition restrict (clause : Node) : Node := T_RestrictInfo NullNode clause.
Definition conjunction : list Node := [restrict (op 1 3); restrict (T_BoolExpr NOT_EXPR [op 1 4])].

Lemma negated_clause_matches_nothing_witness :
  clause_holds 1 const_query (T_List conjunction) (row 3) ∧
  ∃ q input query p', extract_quals 1 (T_List conjunction) 98 = Ok (Some q) ∧ qual_query q = Ok input ∧
    into_tantivy_query input plain = Ok (query, p') ∧ ¬ matches query (row 3).
Proof.
  split.
  { split; [vm_compute; left|]. split; [|exact I]. apply other_row. discriminate. }
  destruct (negated_clause_matches_nothing 1 98 const_query conjunction (op 1 4)) as (q & input & Hq & Hin & Hm).
  - reflexivity.
  - repeat (apply List.Forall_cons; [apply term_const_ok|]). constructor.
  - right. left.
  - destruct (Hm plain) as (query & p' & Hrun & Hno). exists q, input, query, p'.
    split; [exact Hq|]. split; [exact Hin|]. split; [exact Hrun|apply Hno].
Defined.

(** a plan with a limit, sorted by a field *)
Definition plan : PrivateData :=
  {| heaprelid := Some (MkOid 16385); indexrelid := Some (MkOid 16392); range_table_index := Some (U32 1);
     pd_quals := None; limit := Some (Usize 25); sort_field := Some "rating"%string; sort_direction := Some Desc;
     var_attname_lookup := None; maybe_ff := false; CustomScan.segment_count := Usize 8 |}.
Definition plan_quals : Qual :=
  And [OperatorExpression {| varno := 1; varattno := 4 |} (MkOid 98) (term_const 3); Not Ignore].
Definition plan_vars : list (Var * string) :=
  [({| varno := 1; varattno := 4 |}, "description"%string); ({| varno := 1; varattno := -1 |}, "ctid"%string)].

Lemma plan_reaches_executor_witness :
  ∃ st, (let p := set_var_attname_lookup (attname_lookup_nodes plan_vars) (set_quals plan_quals plan) in
         deserialize (serialize p) ≫= create_custom_scan_state) = Ok st ∧
    st_limit st = Some (Usize 25) ∧ st_var_attname_lookup st !! (1, -1) = Some "ctid"%string.
Proof.
  destruct (plan_reaches_executor plan (MkOid 16385) (MkOid 16392) (U32 1) plan_quals
    (Input.Boolean [Input.Term (Some "ages.n"%string) (OI64 3) false; Input.Boolean [] [] [Input.All]] [] [])
    plan_vars) as (Hread & _ & Hst); try reflexivity.
  - repeat (apply List.Forall_cons; [split; reflexivity|]). constructor.
  - match type of Hst with _ = Ok ?st => exists st end. split; [|split; reflexivity].
    cbn zeta. rewrite Hread. exact Hst.
Defined.

(** ** Scans *)

(** two segments: tuples of the blocks 5 and 7, one document deleted *)
Definition seg_a : RefSegment :=
  {| ref_id := 11; ref_postings := [(0, 40); (1, 50); (2, 60)]; ref_ctid := λ doc, Some (5 * 65536 + doc) |}.
Definition seg_b : RefSegment :=
  {| ref_id := 12; ref_postings := [(4, 70); (6, 30)];
     ref_ctid := λ doc, if doc =? 4 then Some (5 * 65536 + 3) else Some (7 * 65536 + doc) |}.
Definition two_segments : SearchIndexReader :=
  {| searcher := [seg_a; seg_b]; get_search_field name := bool_decide (name = "rating"%string) |}.

(** the deleted document 1 does not come, the last segment comes first *)
Lemma search_yields_live_documents_witness :
  ∃ r rows, search two_segments true Input.All = Ok r ∧ count r = 4 ∧ drain 5 r = Ok rows ∧
    (λ row, (ctid row.1, bm25 row.1)) <$> rows =
      [(5 * 65536 + 3, 70); (7 * 65536 + 6, 30); (5 * 65536, 40); (5 * 65536 + 2, 60)].
Proof.
  destruct (search_yields_live_documents two_segments true Input.All AllQuery plain) as (r & rows & Hr & Hc & Hrows & _).
  - reflexivity.
  - repeat (apply List.Forall_cons; [eexists; reflexivity|]). constructor.
  - exists r, rows. split; [exact Hr|]. split; [exact Hc|]. split; [exact Hrows|].
    injection Hr as <-. injection Hrows as <-. reflexivity.
Defined.

(** a participant that claims both segments, and projects nothing *)
Definition both_left : ParallelScanState :=
  {| Parallel.segment_count := 2; remaining_segments := 2; segment_uuids := {[ 0 := 11%nat; 1 := 12%nat ]} |}.
Definition count_star : PdbScanState :=
  {| parallel_state := Some both_left; search_query_input := Input.All; search_reader := Some two_segments;
     targetlist_len := 0; state_limit := None; state_sort_field := None; need_scores_field := false;
     heap_tuple_check_count := 0; virtual_tuple_count := 0; invisible_tuple_count := 0 |}.

(** a row as plain data: the tuple address, -1 for a virtual tuple *)
Definition row_key (row : Row) : Z := match row with HeapRow c _ => c | VirtualRow _ => -1 end.
(** the rows the normal method returns *)
Definition rows_out (st : PdbScanState) : list Row :=
  match scan_rows 9 9 4 (normal_init normal_default st) st with Ok (rows, _, _) => rows | _ => [] end.

Lemma normal_scan_returns_visible_witness :
  ∃ rows e' st', scan_rows 9 9 4 (normal_init normal_default count_star) count_star = Ok (rows, e', st') ∧
    map row_key rows = [-1; 5 * 65536; 5 * 65536 + 2] ∧ invisible_tuple_count st' = 1.
Proof.
  destruct (normal_scan_returns_visible two_segments count_star AllQuery plain (enumerate [seg_a; seg_b]) 9)
    as (rows & e' & st' & Hrun & _ & _ & Hi).
  - reflexivity.
  - reflexivity.
  - split; [reflexivity|]. intros [|[|i]] seg Hseg; simpl in Hseg; [injection Hseg as <-..|discriminate];
      eexists; split; reflexivity.
  - repeat (apply List.Forall_cons; [eexists; reflexivity|]). constructor.
  - repeat (apply List.Forall_cons; [intros c Hc Hv; injection Hc as <-; first [reflexivity|discriminate Hv]|]).
    constructor.
  - simpl. lia.
  - assert (map row_key rows = [-1; 5 * 65536; 5 * 65536 + 2]) as Hrows.
    { assert (rows_out count_star = rows) as <- by (unfold rows_out;
        change (length (enumerate [seg_a; seg_b]) + 2)%nat with 4%nat in Hrun; rewrite Hrun; reflexivity).
      vm_compute. reflexivity. }
    exists rows, e', st'. split; [exact Hrun|]. split; [exact Hrows|]. rewrite Hi.
    apply (f_equal zlen) in Hrows. unfold zlen in Hrows |- *. rewrite length_map in Hrows. rewrite Hrows. reflexivity.
Defined.

(** [LIMIT 1]: the best document's tuple is dead, three others match and are visible, no row comes *)
Definition dead_first : SearchIndexReader := {| searcher := [seg_b; seg_a]; get_search_field _ := false |}.
Definition limited : PdbScanState :=
  {| parallel_state := None; search_query_input := Input.All;
     search_reader := Some dead_first;
     targetlist_len := 1; state_limit := Some 1; state_sort_field := None; need_scores_field := true;
     heap_tuple_check_count := 0; virtual_tuple_count := 0; invisible_tuple_count := 0 |}.

Lemma top_n_stops_short_witness :
  ∃ rows e' st', scan_rows 3 3 2 (top_init (top_new 1 Desc true) limited) limited = Ok (rows, e', st') ∧
    zlen rows < 1 ∧ zlen (filter (seen (searcher dead_first)) (all_matching AllQuery true (enumerate (searcher dead_first)))) = 3.
Proof.
  destruct (top_n_stops_short dead_first limited 1 Desc true
    AllQuery plain 3) as (rows & e' & st' & Hrun & _ & _ & Hshort).
  - reflexivity.
  - reflexivity.
  - reflexivity.
  - lia.
  - exact I.
  - repeat (apply List.Forall_cons; [eexists; reflexivity|]). constructor.
  - repeat (apply List.Forall_cons; [intros c Hc Hv; injection Hc as <-; first [reflexivity|discriminate Hv]|]).
    constructor.
  - apply Nat.ltb_lt. reflexivity.
  - exists rows, e', st'. split; [exact Hrun|]. split; [|reflexivity].
    apply Hshort; [vm_compute; discriminate|]. apply Exists_cons_hd. vm_compute. intros [].
Defined.

(** the rows of a serial scan come once; after a rescan none comes *)
Definition serial : PdbScanState :=
  {| parallel_state := None; search_query_input := Input.All; search_reader := None;
     targetlist_len := 3; state_limit := None; state_sort_field := None; need_scores_field := true;
     heap_tuple_check_count := 0; virtual_tuple_count := 0; invisible_tuple_count := 0 |}.

Lemma rescan_returns_nothing_witness :
  let '(e, st) := rescan_custom_scan two_segments normal_default serial in
  ∃ rows e' st', scan_rows 9 9 2 e st = Ok (rows, e', st') ∧ zlen rows = 3 ∧
    let '(e, st) := rescan_custom_scan two_segments e' st' in
    ∃ e' st', scan_rows 9 9 2 e st = Ok ([], e', st').
Proof.
  pose proof (rescan_returns_nothing two_segments two_segments serial AllQuery plain eq_refl eq_refl) as Hre.
  cbv zeta in Hre. specialize (Hre ltac:(repeat (apply List.Forall_cons; [eexists; reflexivity|]); constructor)).
  assert (Forall (map_sound (searcher two_segments))
    (all_matching AllQuery (need_scores serial) (enumerate (searcher two_segments)))) as Hmap.
  { repeat (apply List.Forall_cons; [intros c Hc Hv; injection Hc as <-; first [reflexivity|discriminate Hv]|]).
    constructor. }
  specialize (Hre Hmap 9%nat ltac:(apply Nat.ltb_lt; reflexivity)).
  cbn [rescan_custom_scan] in Hre |- *. destruct Hre as (rows & e' & st' & Hrun & Hall & Hagain).
  exists rows, e', st'. split; [exact Hrun|]. split; [|exact Hagain].
  apply Forall2_length in Hall. unfold zlen. rewrite Hall. reflexivity.
Defined.
