(* ===== verification/FastFieldWitnesses.v ===== *)
(** * FastFieldWitnesses: the theorems on columns at two segments

    Reference instances of the classes of [FastFields.v] and [FastFieldExec.v], two text
    columns and a number over the segments of [ScanWitnesses.v], and the theorems of both
    files at scans that read them. *)

From S2P Require Import Prelude Page Block PgUtils TokenizerConfig Query CustomScan Schema Rows Reader Parallel ScanExec FastFields FastFieldExec PgRef QueryRef SchemaRef ScanWitnesses.

Open Scope Z_scope.

(** ** Columns *)

(** a text column: its dictionary, and the ordinal of each document *)
Definition RefColumn : Type := list string * (Z → option Z).
Definition ref_term (c : RefColumn) (ord : Z) : option string := if decide (NoDup c.1) then znth c.1 ord else None.
Definition ref_ords (c : RefColumn) (doc : Z) : list Z := filter (λ o, is_Some (ref_term c o)) (option_list (c.2 doc)).
(** two categories in each segment; the document 2 has none *)
Definition category (seg : RefSegment) : RefColumn :=
  if decide (ref_id seg = 11%nat) then (["beans"; "corn"]%string, λ doc, if doc =? 0 then Some 1 else None)
  else (["apple"; "corn"]%string, λ doc, if doc =? 6 then Some 0 else Some 1).
#[export] Program Instance RefColumns : TantivyColumns := {
  StrColumn := RefColumn;
  column_i64 _ name := if String.eqb name "rating" then Some (λ doc, Some (doc * 10)) else None;
  column_str seg name := if String.eqb name "category" then Some (category seg) else None;
  column_u64 _ _ := None;
  column_f64 _ _ := None;
  column_bool _ _ := None;
  column_date _ _ := None;
  term_ords := ref_ords;
  ord_to_str := ref_term;
  sorted_ords_to_terms c ords := omap (ref_term c) ords
}.
Next Obligation. intros c doc ord [Hs _]%list_elem_of_filter. done. Qed.
Next Obligation.
  intros c o o' t. unfold ref_term. case_decide as Hn; [|done]. unfold znth.
  destruct (Z.leb_spec 0 o), (Z.leb_spec 0 o'); try done. intros H1 H2.
  pose proof (NoDup_lookup _ _ _ _ Hn H1 H2). lia.
Qed.
Next Obligation.
  intros c ords terms _. induction 1 as [|o t ords terms Ht _ IH]; [done|]. cbn [omap list_omap]. by rewrite Ht, IH.
Qed.

#[export] Instance RefSlotDatums : SlotDatums := {
  tid_into_datum t := DArray [Some (DInt (ip_blkid t)); Some (DInt (ip_posid t))];
  score_into_datum s := DFloat s
}.
(** segments merge in the reverse order *)
#[export] Program Instance RefAggOrder : StringAggOrder := { par_order A l := reverse l; fx_order A l := l }.
Next Obligation. intros A l. apply reverse_Permutation. Qed.
Next Obligation. done. Qed.
#[export] Instance RefScoreZero : ScoreZero := { score_zero := 0 }.
#[local] Existing Instance DatumSlots | 0.

(** a row as plain data: the tuple address, and the values of a virtual tuple *)
Definition row_data (row : Row) : Z * list (option RefDatumValue) :=
  match row with HeapRow c _ => (c, []) | VirtualRow slot => (-1, slot) end.

Ltac each_doc tac := repeat (apply List.Forall_cons; [tac|]); constructor.

(** ** The numeric method: [SELECT rating, ctid, score] *)

Definition rating_fields : list WhichFastField := [WNamed "rating" FFNumeric; WCtid; WScore].
Definition rating_types : list PgOid := [PgBuiltIn INT8OID; PgBuiltIn TIDOID; PgBuiltIn FLOAT4OID].
Definition ratings : PdbScanState :=
  {| parallel_state := Some both_left; search_query_input := Input.All; search_reader := Some two_segments;
     targetlist_len := 3; state_limit := None; state_sort_field := None; need_scores_field := true;
     heap_tuple_check_count := 0; virtual_tuple_count := 0; invisible_tuple_count := 0 |}.
#[local] Instance rating_exec : ExecMethod NumericFastFieldExecState := NumericExec rating_types 16385.
Definition numeric_rows : list (Z * list (option RefDatumValue)) :=
  match scan_rows 9 9 4 (exec_init {| numeric_inner := ff_exec_new rating_fields |} ratings) ratings with
  | Ok (rows, _, _) => row_data <$> rows
  | _ => []
  end.
(** the tuple of the block 7 comes from columns, those of the block 5 from the heap *)
Definition numeric_expected : list (Z * list (option RefDatumValue)) :=
  [(-1, [Some (DInt 60); Some (DArray [Some (DInt 7); Some (DInt 6)]); Some (DFloat 30)]);
   (5 * 65536, []); (5 * 65536 + 2, [])].

Lemma both_claimed : claims two_segments both_left (enumerate [seg_a; seg_b]).
Proof.
  split; [reflexivity|]. intros [|[|i]] seg Hseg; simpl in Hseg; [injection Hseg as <-..|discriminate];
    eexists; split; reflexivity.
Qed.

Lemma numeric_scan_returns_columns_witness :
  ∃ rows e' st',
    scan_rows 9 9 4 (exec_init {| numeric_inner := ff_exec_new rating_fields |} ratings) ratings = Ok (rows, e', st') ∧
    row_data <$> rows = numeric_expected.
Proof.
  destruct (numeric_scan_returns_columns rating_types 16385 two_segments rating_fields ratings AllQuery plain
    (enumerate [seg_a; seg_b]) 9) as (rows & e' & st' & Hrun & _).
  - intros [|[|[|j]]] typid Hj; simpl in Hj; [injection Hj as <-; discriminate..|discriminate].
  - reflexivity.
  - reflexivity.
  - exact both_claimed.
  - each_doc ltac:(eexists; reflexivity).
  - each_doc ltac:(intros c Hc Hv; injection Hc as <-; first [reflexivity|discriminate Hv]).
  - each_doc ltac:(intros c text Hc Ht; injection Hc as <-; injection Ht as <-; eexists; reflexivity).
  - simpl. lia.
  - exists rows, e', st'. split; [exact Hrun|]. change (length (enumerate [seg_a; seg_b]) + 2)%nat with 4%nat in Hrun.
    transitivity numeric_rows; [unfold numeric_rows, rating_exec; rewrite Hrun; reflexivity|vm_compute; reflexivity].
Defined.

(** ** The string method: [SELECT category, rating] *)

Definition category_fields : list WhichFastField := [WNamed "category" FFString; WNamed "rating" FFNumeric].
Definition category_types : list PgOid := [PgBuiltIn TEXTOID; PgBuiltIn INT8OID].
Definition categories : PdbScanState :=
  {| parallel_state := None; search_query_input := Input.All; search_reader := Some two_segments;
     targetlist_len := 2; state_limit := None; state_sort_field := None; need_scores_field := false;
     heap_tuple_check_count := 0; virtual_tuple_count := 0; invisible_tuple_count := 0 |}.
#[local] Instance category_exec : ExecMethod StringFastFieldExecState := StringExec category_types 16385.
Definition string_rows : list (Z * list (option RefDatumValue)) :=
  match scan_rows 9 9 4 (exec_init (string_new "category" category_fields) categories) categories with
  | Ok (rows, _, _) => row_data <$> rows
  | _ => []
  end.

(** the tuple at the offset 2 of the block 5 matches and is visible: its category is null, and no row has it *)
Lemma string_scan_drops_nulls_witness :
  ∃ rows e' st',
    scan_rows 9 9 4 (exec_init (string_new "category" category_fields) categories) categories = Ok (rows, e', st') ∧
    row_data <$> rows = [(-1, [Some (DString "apple"); Some (DInt 60)]); (5 * 65536, [])] ∧ visible (5 * 65536 + 2) = true.
Proof.
  destruct (string_scan_drops_nulls category_types 16385 two_segments category_fields "category" categories AllQuery plain
    (enumerate [seg_a; seg_b]) 9) as (docs & rows & e' & st' & _ & _ & Hrun & _).
  - intros [|[|j]] typid Hj; simpl in Hj; [intros _ name [=]|injection Hj as <-; discriminate|discriminate].
  - reflexivity.
  - reflexivity.
  - reflexivity.
  - each_doc ltac:(eexists; reflexivity).
  - intros scores. destruct scores; each_doc ltac:(each_doc ltac:(eexists; reflexivity)).
  - each_doc ltac:(intros c Hc Hv; injection Hc as <-; first [reflexivity|discriminate Hv]).
  - each_doc ltac:(intros c text Hc Ht; injection Hc as <-; first [discriminate Ht|eexists; reflexivity]).
  - simpl. lia.
  - exists rows, e', st'. split; [exact Hrun|]. split; [|reflexivity].
    change (length (enumerate [seg_a; seg_b]) + 2)%nat with 4%nat in Hrun.
    transitivity string_rows; [unfold string_rows, category_exec; rewrite Hrun; reflexivity|vm_compute; reflexivity].
Defined.

(** ** Target lists *)

(** [SELECT rating, paradedb.score(id) * 2, 42] *)
Definition rated_schema : SearchIndexSchema :=
  {| sis_fields := [{| sf_id := 0; sf_name := "rating"; sf_config := NumericConfig true true false None; sf_type := SI64 |}];
     sis_key := 0; sis_schema := []; sis_lookup := None |}.
Definition rated_heap : list (string * PgOid) := [("rating"%string, PgBuiltIn INT8OID)].
Definition rating_var : Expr := E_Var 1 1 (PgBuiltIn INT8OID).
Definition targets : list TargetEntry :=
  [{| resorigtbl := 16385; te_expr := rating_var |};
   {| resorigtbl := 0; te_expr := E_Other [E_FuncExpr 4711 [rating_var]; E_Const] |};
   {| resorigtbl := 0; te_expr := E_Const |}].
Definition target_fields : list WhichFastField := [WNamed "rating" FFNumeric; WScore; WJunk "const"].
Definition best_doc : Score * DocAddr := (70, {| segment_ord := 1; doc_id := 4 |}).
Definition best_slot : SlotTuple := {| tts_tid := {| ip_blkid := 5; ip_posid := 3 |}; tts_tableOid := 16385 |}.

Lemma targets_own : Forall (own_target 16385) targets.
Proof. repeat (apply List.Forall_cons; [first [left; reflexivity|right; reflexivity]|]). constructor. Qed.

Lemma targets_answered_witness :
  pullup_fast_fields 4711 16385 rated_heap rated_schema 1 targets = Ok (Some target_fields) ∧
  ff_count 4711 16385 rated_heap rated_schema 1 targets = Ok (true, 3).
Proof.
  destruct (targets_answered 4711 16385 1 rated_heap rated_schema targets target_fields targets_own)
    as (_ & _ & Hcount); [vm_compute; reflexivity|]. split; [vm_compute; reflexivity|exact Hcount].
Defined.

(** the doubled score is the score, and 42 is null *)
Definition no_columns_open : list (list (SegmentReader * string * option FFType)) :=
  ff_with_fields (searcher two_segments) target_fields.
Lemma virtual_rows_lose_expressions_witness :
  (∃ h, ff_to_datum WScore 1 (PgBuiltIn FLOAT8OID) best_doc.1 best_doc.2 no_columns_open "" best_slot
     = Ok (Some (DFloat 70), h, ""%string)) ∧
  ∃ h, ff_to_datum (WJunk "const") 2 (PgBuiltIn INT4OID) best_doc.1 best_doc.2 no_columns_open "" best_slot
    = Ok (None, h, ""%string).
Proof.
  split.
  - destruct (virtual_rows_lose_expressions 4711 16385 1 rated_heap rated_schema targets target_fields
      (searcher two_segments) no_columns_open 1
      {| resorigtbl := 0; te_expr := E_Other [E_FuncExpr 4711 [rating_var]; E_Const] |} (PgBuiltIn FLOAT8OID)
      best_doc "" best_slot targets_own) as (w & scores & h & Hw & Hs & Hd);
      [vm_compute; reflexivity|apply with_fields_ok|by eexists|reflexivity|].
    injection Hw as <-. vm_compute in Hs. injection Hs as <-. by exists h.
  - destruct (virtual_rows_lose_expressions 4711 16385 1 rated_heap rated_schema targets target_fields
      (searcher two_segments) no_columns_open 2
      {| resorigtbl := 0; te_expr := E_Const |} (PgBuiltIn INT4OID) best_doc "" best_slot targets_own)
      as (w & scores & h & Hw & Hs & Hd); [vm_compute; reflexivity|apply with_fields_ok|by eexists|reflexivity|].
    injection Hw as <-. vm_compute in Hs. injection Hs as <-. by exists h.
Defined.
