(* ===== verification/OperatorWitnesses.v ===== *)
(** * OperatorWitnesses: the SQL functions and the operator at concrete queries

    The theorems of [Api.v] and [Operator.v] at a range, a table with a bm25 index, a subquery
    that joins two tables, and a sequential scan over the segments of [ScanWitnesses.v]. *)

From S2P Require Import Prelude Page Block PgUtils TokenizerConfig Query RangeQuery CustomScan Schema Rows Api Reader Parallel ScanExec FastFields FastFieldExec Operator PgRef QueryRef SchemaRef ScanWitnesses FastFieldWitnesses.

Open Scope Z_scope.

(** [range_term('ages', '[3, 9)', 'Contains')] finds [\[4, 6)] and the empty range, not [\[4, 12)] *)
Lemma range_term_relations_witness :
  ∃ input q, range_term_range_int8range "ages" (RangeOf (Included 3) (Excluded 9)) Contains = Ok input ∧
    into_tantivy_query input plain = Ok (q, plain) ∧
    matches q (ref_doc KInt (document (RangeOf (Included 4) (Excluded 6)))) ∧
    matches q (ref_doc KInt (document RangeEmpty)) ∧
    ¬ matches q (ref_doc KInt (document (RangeOf (Included 4) (Excluded 12)))).
Proof.
  destruct (range_term_relations plain "ages" false (PgBuiltIn INT8RANGEOID) 0 (RangeOf (Included 3) (Excluded 9)) Contains)
    as (input & q & _ & Hin & Hq & Hm).
  - reflexivity.
  - split; [simpl; lia|]. split; discriminate.
  - exists input, q. split; [exact Hin|]. split; [exact Hq|]. split; [|split].
    + apply (Hm _ (RangeOf (Included 4) (Excluded 6)));
        [split; [simpl; lia|split; discriminate]|apply ref_doc_indexed|]. intros x Hx. simpl in *. lia.
    + apply (Hm _ RangeEmpty); [exact I|apply ref_doc_indexed|]. intros x Hx. destruct Hx.
    + intros Hc. apply (Hm _ (RangeOf (Included 4) (Excluded 12))) in Hc;
        [|split; [simpl; lia|split; discriminate]|apply ref_doc_indexed].
      specialize (Hc 11 ltac:(simpl; lia)). simpl in Hc. lia.
Defined.

(** ** The operator *)

(** a text is the datum of the query that parses it *)
Definition ref_text_datum (d : option SearchQueryInput) (is_null : bool) : option string :=
  match d with Some (Input.Parse s _ _) => if is_null then None else Some s | _ => None end.
#[export] Program Instance RefQueryDatum : QueryDatum := {
  text_from_datum := ref_text_datum;
  query_into_datum q := Some q
}.
Next Obligation. done. Qed.
(** the tables 500 (id, body), with an invalid, an old and a new bm25 index, and 501 (no, note), without *)
Definition bm25 (oid : Z) (valid : bool) : IndexRel :=
  {| irel_oid := oid; irel_isvalid := valid; irel_is_bm25 := true; irel_indkey := [1; 2];
     irel_atts := [(PgBuiltIn INT8OID, -1, 0); (PgBuiltIn TEXTOID, -1, 100)] |}.
#[export] Instance RefCatalog : PgCatalog := {
  relation_open relid :=
    if relid =? 500 then Some ["id"%string; "body"%string]
    else if relid =? 501 then Some ["no"%string; "note"%string] else None;
  relation_indices relid := if relid =? 500 then [bm25 903 false; bm25 902 true; bm25 901 true] else []
}.
#[export] Program Instance RefOids : OperatorOids := {
  anyelement_query_input_opoid := 98;
  anyelement_query_input_procoid := 97;
  anyelement_text_opoid := 96;
  anyelement_text_procoid := 95
}.
Next Obligation. done. Qed.

Definition column (rel att : Z) : VarNode :=
  {| vn_var := {| varno := rel; varattno := att |}; vartype := PgBuiltIn TEXTOID; vartypmod := -1; varcollid := 100 |}.
Definition text_const (s : string) : Const := {| constvalue := Some (Input.Parse s None None); constisnull := false |}.
(** [FROM t] and [FROM (SELECT b.no, a.id, a.body FROM b JOIN a ... LIMIT 10) s] *)
Definition from_table : PlannerInfo := {| rtable := [RTE_RELATION 500]; cteList := []; parent_root := None |}.
Definition joined : list TargetItem :=
  [{| te_resorigtbl := 501; te_resorigcol := 1 |}; {| te_resorigtbl := 500; te_resorigcol := 1 |};
   {| te_resorigtbl := 500; te_resorigcol := 2 |}].
Definition from_subquery : PlannerInfo := {| rtable := [RTE_SUBQUERY joined]; cteList := []; parent_root := None |}.

Lemma table_index : uses_index 500 (bm25 902 true) 1 (PgBuiltIn INT8OID, -1, 0).
Proof. split; [discriminate|]. split; [reflexivity|]. split; reflexivity. Qed.

(** [body @@@ 'shoes'] is a query of the key field on the valid index with the highest oid *)
Lemma text_operator_reaches_scan_witness :
  ∃ op qual v, text_support (Some (Simplify {| srs_root := Some from_table; srs_args := [A_Var (column 1 2); A_Const (text_const "shoes")] |}))
      = Ok (Some op) ∧
    op_args op !! 0%nat = Some (A_Var v) ∧ vn_var v = {| varno := 1; varattno := 1 |} ∧
    extract_quals 1 (opexpr_node op) 98 = Ok (Some qual) ∧
    qual_query qual = Ok (Input.WithIndex 902 (Input.ParseWithField "body" "shoes" None None)).
Proof.
  destruct (text_operator_reaches_scan from_table (column 1 2) (text_const "shoes") 500 ["id"%string; "body"%string] "shoes"
    1 (Input.ParseWithField "body" "shoes" None None) plain)
    as (op & qual & index & key & att & Hop & (Hin & Hv & _ & Hmax) & Hkey & _ & _ & Hlhs & Hq & Hin' & _);
    [reflexivity|discriminate|reflexivity| | |reflexivity|reflexivity|reflexivity|].
  - exists (bm25 902 true). split; [right; left|]. split; reflexivity.
  - intros index Hin. repeat (apply elem_of_cons in Hin as [->|Hin]; [split; discriminate|]). by apply not_elem_of_nil in Hin.
  - specialize (Hmax (bm25 902 true) ltac:(right; left) eq_refl eq_refl). cbn in Hmax.
    assert (index = bm25 902 true) as ->.
    { repeat (apply elem_of_cons in Hin as [->|Hin]; [try reflexivity; (discriminate Hv || (cbn in Hmax; lia))|]).
      by apply not_elem_of_nil in Hin. }
    injection Hkey as <-. eexists op, qual, _. split; [exact Hop|]. split; [exact Hlhs|]. split; [reflexivity|].
    split; [exact Hq|exact Hin'].
Defined.

(** [s.body @@@ 'shoes'] is evaluated on [s.no], a column of the other table *)
Lemma subquery_key_of_any_table_witness :
  ∃ op v, make_search_query_input_opexpr_node from_subquery [A_Var (column 1 3); A_Const (text_const "shoes")] (column 1 3)
      (Some (Input.ParseWithField "body" "shoes" None None)) None 96 95 = Ok op ∧
    op_args op !! 0%nat = Some (A_Var v) ∧
    te_resorigtbl <$> znth joined (varattno (vn_var v) - 1) = Some 501.
Proof.
  destruct (subquery_key_of_any_table from_subquery (column 1 3) [A_Var (column 1 3); A_Const (text_const "shoes")]
    (Some (Input.ParseWithField "body" "shoes" None None)) None 96 95 500 2 [] (List.tl joined)
    {| te_resorigtbl := 501; te_resorigcol := 1 |} (bm25 902 true) 1 (PgBuiltIn INT8OID, -1, 0))
    as (op & v & Hop & Hv & _ & Hte & _);
    [reflexivity|exact table_index|constructor|reflexivity|reflexivity|discriminate|].
  exists op, v. split; [exact Hop|]. split; [exact Hv|]. change joined with ([] ++ {| te_resorigtbl := 501; te_resorigcol := 1 |} :: List.tl joined).
  rewrite Hte. reflexivity.
Defined.

(** ** A sequential scan *)

(** the documents 4 and 6 of one segment and 0 and 2 of the other are alive, with ten times their number as key *)
Definition open_rated (oid : Z) : SearchIndexReader * SearchIndexSchema := (two_segments, rated_schema).

Definition scanned : list RowDatum := [DInt 60; DInt 10; DInt 20].

(** a later call answers from the set: its query, which names no index and so could not be searched, is not looked at *)
Lemma seqscan_operator_by_key_witness :
  filter_tuples open_rated scanned (PgBuiltIn INT8OID) (Input.WithIndex 902 Input.All) None
    = Ok [true; false; true] ∧
  ∃ cached, search_with_query_input open_rated (DInt 10) (PgBuiltIn INT8OID) (Input.WithIndex 902 Input.All) None
      = Ok (false, Some cached) ∧
    ∃ b, search_with_query_input open_rated (DInt 60) (PgBuiltIn INT8OID) Input.All (Some cached) = Ok (b, Some cached).
Proof.
  destruct (seqscan_operator_by_key open_rated 902 Input.All two_segments rated_schema
    {| sf_id := 0; sf_name := "rating"; sf_config := NumericConfig true true false None; sf_type := SI64 |}
    AllQuery plain (PgBuiltIn INT8OID)) as (cached & Hfirst & Hlater & Hscan).
  - reflexivity.
  - reflexivity.
  - reflexivity.
  - each_doc ltac:(split; [eexists; reflexivity|eexists; split; reflexivity]).
  - split.
    + destruct (Hscan scanned [OI64 60; OI64 10; OI64 20]) as (results & Hrun & _).
      { repeat (apply List.Forall2_cons; [split; reflexivity|]). constructor. }
      rewrite Hrun. f_equal. assert (filter_tuples open_rated scanned (PgBuiltIn INT8OID)
        (Input.WithIndex 902 Input.All) None = Ok [true; false; true]) as Heq by (vm_compute; reflexivity).
      rewrite Heq in Hrun. injection Hrun as <-. reflexivity.
    + exists cached. destruct (Hfirst (DInt 10) (OI64 10) eq_refl eq_refl) as (b & Hb & _).
      destruct (Hlater open_rated Input.All (DInt 60) (OI64 60) eq_refl eq_refl) as (b' & Hb' & _).
      split; [|exists b'; exact Hb'].
      assert ((λ r, match r with Ok (b, _) => Some b | _ => None end)
        (search_with_query_input open_rated (DInt 10) (PgBuiltIn INT8OID) (Input.WithIndex 902 Input.All) None) = Some false)
        as Hv by (vm_compute; reflexivity).
      rewrite Hb in Hv. injection Hv as ->. exact Hb.
Defined.

(** ** The estimates *)

#[export] Program Instance RefF64Class : RustF64Class := {
  is_normal x := negb (x =? 0);
  is_sign_negative x := x <? 0;
  UNKNOWN_SELECTIVITY := 10
}.
Next Obligation. done. Qed.
(** four documents to a segment, of which a query is expected to return three; the table has 20 rows *)
#[export] Instance RefStats : SegmentStats := { num_docs _ := 4; scorer_size_hint _ _ _ := 3 }.
#[export] Instance RefRelStats : RelStats := { reltuples oid := if oid =? 500 then Some (20 * fix_unit) else None }.

(** six of the eight documents, so six of the table's twenty rows *)
Example operator_estimate :
  query_input_restrict (λ _, two_segments) (Some from_table) 98
    (Some [A_Var (column 1 2); A_Const {| constvalue := Some Input.All; constisnull := false |}]) = Ok 300000.
Proof. vm_compute. reflexivity. Qed.
(** and [ten millionths] when the table has no index, or has never been analyzed *)
Example operator_estimate_unknown :
  query_input_restrict (λ _, two_segments)
    (Some {| rtable := [RTE_RELATION 501]; cteList := []; parent_root := None |}) 98
    (Some [A_Var (column 1 2); A_Const {| constvalue := Some Input.All; constisnull := false |}]) = Ok 10.
Proof. vm_compute. reflexivity. Qed.
