(* ===== verification/AmScanWitnesses.v ===== *)
(** * AmScanWitnesses: the index's own scans at two segments

    The theorems of [AmScan.v] at an index only scan of the segments of [ScanWitnesses.v],
    plain and parallel, and the planner's estimate. *)

From S2P Require Import Prelude Page Block PgUtils TokenizerConfig Query RangeQuery CustomScan WhereClause Schema Rows Reader Parallel ScanExec FastFields FastFieldExec Operator AmScan PgRef QueryRef SchemaRef ScanWitnesses FastFieldWitnesses OperatorWitnesses.

Open Scope Z_scope.

(** the values of a row take what their types take, 100 bytes when that varies *)
Definition ref_att_size (att : PgOid * option RefDatumValue) : Z :=
  match att with (PgBuiltIn oid, Some _) => default 100 (typlen oid) | (_, Some _) => 100 | (_, None) => 0 end.
Definition ref_data_size (desc : list PgOid) (values : list (option RefDatumValue)) : Z :=
  foldr Z.add 0 (ref_att_size <$> zip desc values).
Lemma ref_size_nulls desc : ref_data_size desc (replicate (length desc) None) = 0.
Proof. induction desc as [|oid desc IH]; [done|]. change (ref_data_size desc (replicate (length desc) None) = 0) in IH.
  unfold ref_data_size in *. cbn. rewrite IH. by destruct oid. Qed.
#[export] Program Instance RefTuples : HeapTuples := {
  HeapTuple := Z * list (option RefDatumValue);
  tuple_room := fst;
  heap_compute_data_size := ref_data_size;
  heap_form_tuple desc values := (ref_data_size desc values, values);
  heap_fill_tuple _ values len t := if len <=? t.1 then Some (t.1, values) else None;
  heap_deform_tuple _ := snd
}.
Next Obligation. done. Qed.
Next Obligation. done. Qed.
Next Obligation. intros desc values t _ Hle. cbn in *. rewrite (proj2 (Z.leb_le _ _)) by done. by eexists. Qed.
Next Obligation. intros desc values len t Hlt. cbn. by rewrite (proj2 (Z.leb_gt _ _)) by done. Qed.
Next Obligation.
  intros oid len desc d Hlen. unfold ref_data_size. cbn. rewrite Hlen. cbn.
  pose proof (ref_size_nulls desc) as Hz. unfold ref_data_size in Hz. rewrite Hz. lia.
Qed.

(** [WHERE id @@@ 'shoes' AND id @@@ paradedb.all()] on an index whose first column is not its key field *)
Definition scan_keys : list ScanKeyData :=
  [{| sk_strategy := 1; sk_argument := Some (Input.Parse "shoes" None None) |};
   {| sk_strategy := 2; sk_argument := Some Input.All |}].
Definition both_keys : SearchQueryInput := Input.Boolean [Input.Parse "shoes" None None; Input.All] [] [].
Definition index_scan (want_itup : bool) (shared : option ParallelScanState) : IndexScanDesc :=
  ambeginscan {| xs_hitupdesc := []; xs_want_itup := want_itup; parallel_scan := shared; xs_recheck := true;
                 xs_heaptid := {| ip_blkid := 0; ip_posid := 0 |}; xs_hitup := None; opaque := None |}
    [PgBuiltIn INT8OID; PgBuiltIn INT8OID].
Definition scan_data (scan : IndexScanDesc) : Z * Z * option (list (option RefDatumValue)) :=
  (ip_blkid (xs_heaptid scan), ip_posid (xs_heaptid scan), snd <$> xs_hitup scan).
Definition open_two (want_itup : bool) : outcome SearchIndexReader := Ok two_segments.
Definition rating_key : SearchField :=
  {| sf_id := 0; sf_name := "rating"; sf_config := NumericConfig true true false None; sf_type := SI64 |}.

Example both_keys_query : keys_query scan_keys = Ok both_keys.
Proof. reflexivity. Qed.
Definition both_keys_converted : Query := match into_tantivy_query both_keys plain with Ok (q, _) => q | _ => AllQuery end.
Definition both_keys_parser : QueryParser := match into_tantivy_query both_keys plain with Ok (_, p) => p | _ => plain end.

(** the rows of an index only scan *)
Definition fetched : list (Z * Z * option (list (option RefDatumValue))) :=
  match amrescan open_two rated_schema (Some "rating"%string) (-1) (index_scan true None) scan_keys with
  | Ok scan => match fetch 5 scan with Ok rows => scan_data <$> rows | _ => [] end
  | _ => []
  end.

Lemma index_scan_returns_matches_witness :
  ∃ scan rows, amrescan open_two rated_schema (Some "rating"%string) (-1) (index_scan true None) scan_keys = Ok scan ∧
    fetch 5 scan = Ok rows ∧
    scan_data <$> rows =
      [(5, 3, Some [Some (DInt 40); None]); (7, 6, Some [Some (DInt 60); None]);
       (5, 0, Some [Some (DInt 0); None]); (5, 2, Some [Some (DInt 20); None])].
Proof.
  destruct (index_scan_returns_matches open_two rated_schema "rating" rating_key two_segments INT8OID [PgBuiltIn INT8OID]
    (-1) (index_scan true None) scan_keys both_keys both_keys_converted both_keys_parser [])
    as (scan & rows & scan'' & tids & Hre & Hf & _).
  - reflexivity.
  - split; [reflexivity|]. split; [reflexivity|]. split; [reflexivity|]. discriminate.
  - reflexivity.
  - reflexivity.
  - reflexivity.
  - each_doc ltac:(split; [eexists; reflexivity|intros _; eexists; reflexivity]).
  - exists scan, rows. split; [exact Hre|]. split; [exact Hf|].
    transitivity fetched; [|vm_compute; reflexivity]. unfold fetched. rewrite Hre.
    match type of Hf with fetch ?n _ = _ => change n with 5%nat in Hf end. rewrite Hf. reflexivity.
Defined.

(** the leader of a parallel scan claims the last segment and returns its first tuple *)
Definition nothing_shared : ParallelScanState :=
  {| Parallel.segment_count := 0; remaining_segments := 0; segment_uuids := ∅ |}.
Definition two_participants : ScanConf := scan_start {[-1; 0]} nothing_shared.
Definition leader_tuple : option (bool * (Z * Z)) :=
  match amrescan open_two rated_schema (Some "rating"%string) (-1) (index_scan false (Some nothing_shared)) scan_keys with
  | Ok scan =>
      match amgettuple scan with
      | Ok (more, scan) => Some (more, (ip_blkid (xs_heaptid scan), ip_posid (xs_heaptid scan)))
      | _ => None
      end
  | _ => None
  end.

Lemma parallel_calls_refine_witness :
  ∃ scan1 scan2, amrescan open_two rated_schema (Some "rating"%string) (-1) (index_scan false (Some nothing_shared)) scan_keys
      = Ok scan1 ∧
    amgettuple scan1 = Ok (true, scan2) ∧ xs_heaptid scan2 = {| ip_blkid := 5; ip_posid := 3 |}.
Proof.
  pose proof (parallel_calls_refine open_two rated_schema "rating" rating_key two_segments INT8OID [PgBuiltIn INT8OID] false
    scan_keys both_keys both_keys_converted both_keys_parser) as Hrefine.
  assert (zlen (all_segment_ids two_segments) ≤ u16_MAX) as Hfew by (apply Z.leb_le; reflexivity).
  assert (Forall (returnable_doc two_segments (key_column "rating" rating_key) INT8OID false)
    (concat (matching both_keys_converted (contains_more_like_this both_keys) <$> enumerate (searcher two_segments)))) as Hdocs
    by (each_doc ltac:(split; [eexists; reflexivity|discriminate])).
  assert (scan_inv (all_segment_ids two_segments) (segment_ctids two_segments both_keys both_keys_converted) two_participants) as Hinv
    by (apply scan_start_inv; [set_solver|reflexivity]).
  destruct (Hrefine two_participants (-1) (index_scan false (Some nothing_shared))) as [Hstart _];
    [reflexivity|reflexivity|reflexivity|exact Hfew|exact Hdocs|exact Hinv|reflexivity|reflexivity|].
  destruct Hstart as (scan1 & state1 & c1 & Hre & Hop & Hsteps & _ & Hpart).
  { unfold two_participants. apply lookup_gset_to_gmap_Some. split; [set_solver|done]. }
  { split; [reflexivity|]. split; [reflexivity|]. split; [discriminate|]. discriminate. }
  destruct (Hrefine c1 (-1) scan1) as [_ Hnext];
    [reflexivity|reflexivity|reflexivity|exact Hfew|exact Hdocs|by eapply scan_runs_inv|apply Hpart|apply Hpart|].
  destruct (Hnext state1 Hpart Hop) as (more & scan2 & Hget & _).
  assert (leader_tuple = Some (true, (5, 3))) as Hv by (vm_compute; reflexivity).
  unfold leader_tuple in Hv. rewrite Hre, Hget in Hv. injection Hv as -> Hblk Hpos.
  exists scan1, scan2. split; [exact Hre|]. split; [exact Hget|]. destruct (xs_heaptid scan2). simpl in *. congruence.
Defined.

(** ** The estimate: of two clauses the one with a positive, smaller selectivity; 400 pages, 20 rows *)
#[export] Instance RefCosts : PlannerCosts := { DEFAULT_STARTUP_COST := 10 * fix_unit; cpu_index_tuple_cost := 5000; cpu_tuple_cost := 10000 }.
Example index_estimate :
  amcostestimate [fix_unit / 2; 0; fix_unit / 4] (Some (Some (20 * fix_unit))) 400 =
    Ok {| index_startup_cost := 10000000; index_total_cost := 10025000; index_selectivity := 250000;
          index_correlation := 0; index_pages := 100000000 |}.
Proof. vm_compute. reflexivity. Qed.
