(* ===== verification/PlannerWitnesses.v ===== *)
(** * PlannerWitnesses: paths of the custom scan

    The theorems of [Planner.v] at a table with a number and a text, both fast, indexed by the
    segments of [ScanWitnesses.v]. *)

From S2P Require Import Prelude Page Block PgUtils TokenizerConfig Query CustomScan Schema Options Rows Reader Parallel ScanExec FastFields FastFieldExec Operator AmScan Planner PgRef QueryRef SchemaRef ScanWitnesses FastFieldWitnesses OperatorWitnesses AmScanWitnesses.

Open Scope Z_scope.

(** the table 600 (rating, category) *)
#[local] Instance ReviewCatalog : PgCatalog := {
  relation_open relid := if relid =? 600 then Some ["rating"%string; "category"%string] else None;
  relation_indices relid := if relid =? 600 then [bm25 903 false] else []
}.
#[export] Instance RefTerms : ColumnTerms := { num_terms c := zlen c.1 }.
Definition review_schema (oid : Z) : SearchIndexSchema :=
  {| sis_fields :=
       [{| sf_id := 0; sf_name := "rating"; sf_config := NumericConfig true true false None; sf_type := SI64 |};
        {| sf_id := 1; sf_name := "category";
           sf_config := TextConfig true true false true raw_tokenizer Basic NormalizeRaw None; sf_type := SText |}];
     sis_key := 0; sis_schema := []; sis_lookup := None |}.
Definition review_columns (oid : Z) : list (string * PgOid) :=
  [("rating"%string, PgBuiltIn INT8OID); ("category"%string, PgBuiltIn TEXTOID)].

Definition sort_by (att strategy : Z) : PathKey := {| pk_strategy := strategy; ec_members := [S_Var (column 1 att)] |}.
Definition review_args (keys : list PathKey) (limit : Z) : PathArgs :=
  {| baserestrictinfo := [{| ri_node := T_RestrictInfo NullNode (op 1 3); norm_selec := fix_unit / 4 |}]; joininfo := [];
     consider_parallel := false; pa_rti := 1; pa_relid := 600; is_rte_relation := true; is_rte_join := false;
     is_plain_or_matview := true;
     pa_root := {| rtable := [RTE_RELATION 600]; cteList := []; parent_root := None |};
     query_pathkeys := keys; limit_tuples := limit * fix_unit; only_relation := true;
     parse_targetList := [{| resorigtbl := 600; te_expr := E_Var 1 2 (PgBuiltIn TEXTOID) |};
                          {| resorigtbl := 600; te_expr := E_Var 1 1 (PgBuiltIn INT8OID) |}] |}.
Definition plan (args : PathArgs) : outcome (option CustomPath) :=
  callback (λ _, two_segments) review_schema (λ _, Some 2) review_columns 4711 4712 4713 8 args.

(** [SELECT category, rating ... ORDER BY rating, category]: the path claims to be sorted by [rating],
    ascending or descending, and runs the string method on [category], whose rows come sorted by
    that and ascending ([string_scan_drops_nulls_witness]: 60, then 0) *)
Definition by_rating (strategy : Z) : PathArgs := review_args [sort_by 1 strategy; sort_by 2 1] (-1).
Definition claimed (o : outcome (option CustomPath)) : option (list PathKey) :=
  match o with Ok (Some path) => Some (cp_pathkeys path) | _ => None end.
Example claims_ascending : claimed (plan (by_rating 1)) = Some [sort_by 1 1].
Proof. vm_compute. reflexivity. Qed.
Example claims_descending : claimed (plan (by_rating 5)) = Some [sort_by 1 5].
Proof. vm_compute. reflexivity. Qed.
Definition review_fields : option (list WhichFastField) :=
  match pullup_fast_fields 4711 600 (review_columns 600) (review_schema 903) 1 (parse_targetList (by_rating 1)) with
  | Ok ffs => ffs
  | _ => None
  end.
Example review_string_method : is_string_agg_capable_ex None review_fields = Some "category"%string.
Proof. vm_compute. reflexivity. Qed.

Lemma claimed_order_is_first_key_witness :
  ∃ path field ffs p, plan (by_rating 1) = Ok (Some path) ∧ cp_pathkeys path = [sort_by 1 1] ∧
    cp_custom_private path = serialize p ∧
    choose_exec_method (usize_val <$> CustomScan.limit p) (sort_direction p) (Some ffs) 2 = Ok (FieldMethod (StringFastField field ffs)).
Proof.
  pose proof claims_ascending as Hc. destruct (plan (by_rating 1)) as [[path|]|msg|msg|] eqn:Hplan; try discriminate Hc.
  injection Hc as Hc.
  destruct (claimed_order_is_first_key (λ _, two_segments) review_schema (λ _, Some 2) review_columns 4711 4712 4713 8
    (by_rating 1) path Hplan) as (index & key & rest & style & field & ffs & p & _ & _ & _ & _ & _ & _ & Hp & Hm);
    [rewrite Hc; discriminate|].
  exists path, field, ffs, p. split; [reflexivity|]. split; [exact Hc|]. split; [exact Hp|]. apply Hm.
Defined.

(** [ORDER BY rating, category LIMIT 3]: the three best by [rating] alone *)
Definition top_three (keys : list PathKey) : PathArgs := review_args keys 3.
Example top_three_planned : claimed (plan (top_three [sort_by 1 5; sort_by 2 1])) = Some [].
Proof. vm_compute. reflexivity. Qed.

Lemma top_n_ignores_later_keys_witness :
  plan (top_three [sort_by 1 5; sort_by 2 1]) = plan (top_three [sort_by 1 5]) ∧
  ∃ path p, plan (top_three [sort_by 1 5; sort_by 2 1]) = Ok (Some path) ∧ cp_custom_private path = serialize p ∧
    sort_field p = Some "rating"%string ∧
    choose_exec_method (usize_val <$> CustomScan.limit p) (sort_direction p) review_fields 2 = Ok (TopNMethod 3 Desc).
Proof.
  destruct (top_n_ignores_later_keys (λ _, two_segments) review_schema (λ _, Some 2) review_columns 4711 4712 4713 8
    (top_three [sort_by 1 5; sort_by 2 1]) (bm25 903 false) (sort_by 1 5) [sort_by 2 1] (ByField 5 "rating") (3 * fix_unit))
    as [Heq Hpath]; [reflexivity|reflexivity|reflexivity|vm_compute; reflexivity|].
  split; [exact Heq|]. pose proof top_three_planned as Hc.
  destruct (plan (top_three [sort_by 1 5; sort_by 2 1])) as [[path|]|msg|msg|] eqn:Hplan; try discriminate Hc.
  destruct (Hpath path Hplan) as (_ & p & Hp & Hsort). destruct Hsort as (Hf & d & Hd & Hm).
  exists path, p. split; [reflexivity|]. split; [exact Hp|]. split; [exact Hf|].
  injection Hd as <-. rewrite Hm. vm_compute. reflexivity.
Defined.

(** [ORDER BY category] on an index without segments *)
Example empty_index_panics :
  callback (λ _, {| searcher := []; get_search_field _ := true |}) review_schema (λ _, Some 0) review_columns 4711 4712 4713 8
    (review_args [sort_by 2 1] (-1)) = Panic "called `Option::unwrap()` on a `None` value".
Proof. vm_compute. reflexivity. Qed.

(** a scan that is not forced gets the flag that would force it; every path is kept, the new one last *)
#[export] Program Instance RefPaths : PgPaths := {
  add_path paths path := paths ++ [path];
  add_partial_path paths path := paths ++ [path]
}.
Next Obligation. done. Qed.
Definition submitted (args : PathArgs) : option (list Z) :=
  match rel_pathlist_callback true (plan args) {| pathlist := [OtherPath 1]; partial_pathlist := [] |} with
  | Ok rel => Some ((λ path, match path with ScanPath path => cp_flags path | OtherPath n => - n end) <$> pathlist rel)
  | _ => None
  end.
Example unforced_flags : submitted (by_rating 1) = Some [-1; 12].
Proof. vm_compute. reflexivity. Qed.
Example forced_flags : submitted (top_three [sort_by 1 5]) = Some [4].
Proof. vm_compute. reflexivity. Qed.
