(* ===== verification/WordTokensWitnesses.v ===== *)
(** * WordTokensWitnesses: texts cut into words

    Reference instances of the classes of [WordTokens.v], and its theorems at texts whose
    pieces ICU's rules give a status without a letter, or a letter without a status. *)

From S2P Require Import Prelude Tokens WordTokens PgRef.

Open Scope Z_scope.

(** ASCII letters and digits, and the superscript two, which is numeric *)
#[local] Instance WordUnicode : Unicode := {
  is_alphabetic c := ((65 <=? c) && (c <=? 90)) || ((97 <=? c) && (c <=? 122));
  is_uppercase c := (65 <=? c) && (c <=? 90);
  is_numeric c := ((48 <=? c) && (c <=? 57)) || (c =? 178)
}.

(** pieces of characters of a kind: letters and underscores are words (200), digits numbers (100),
    anything else alone has no status *)
Definition status_of (c : Z) : Z :=
  if is_alphabetic c || (c =? 95) then 200 else if (48 <=? c) && (c <=? 57) then 100 else 0.
Fixpoint cut_words (text : list Z) : list (list Z * Z) :=
  match text with
  | [] => []
  | c :: text =>
      match cut_words text with
      | (w, s) :: segments =>
          if (status_of c =? s) && negb (s =? 0) then (c :: w, s) :: segments else ([c], status_of c) :: (w, s) :: segments
      | [] => [([c], status_of c)]
      end
  end.
Lemma cut_words_concat text : concat (cut_words text).*1 = text.
Proof.
  induction text as [|c text IH]; [done|]. cbn [cut_words]. destruct (cut_words text) as [|[w s] segments].
  - cbn in *. by subst text.
  - cbn in IH. subst text. by destruct ((status_of c =? s) && _).
Qed.
#[export] Program Instance RefIcu : Icu := { word_boundaries text := bounds 0 (cut_words text); word_segments := cut_words }.
Next Obligation. done. Qed.
Next Obligation. intros text. apply cut_words_concat. Qed.

Definition token_spans (text : list Z) : option (list (Z * Z)) :=
  match icu_tokens 20 20 text with Ok ts => Some ((λ t, (offset_from t, offset_to t)) <$> ts) | _ => None end.
(** "x 7" with a peanut of four bytes and two code units between *)
Example words_after_emoji : token_spans [120; 32; 129372; 55] = Some [(0, 1); (6, 7)].
Proof. vm_compute. reflexivity. Qed.
(** a superscript two is a token after a space and none after a letter *)
Example superscript_after_space : token_spans [120; 32; 178] = Some [(0, 1); (2, 4)].
Proof. vm_compute. reflexivity. Qed.
Example superscript_after_letter : token_spans [120; 178] = Some [(0, 1)].
Proof. vm_compute. reflexivity. Qed.
(** an underscore between spaces: the tokenizer does not return *)
Example underscore_never_returns : ∀ fuel calls, icu_tokens fuel calls [120; 32; 95; 32; 121] = NoFuel.
Proof.
  pose proof (icu_stream_ok [120; 32; 95; 32; 121] 5 [] 0 (word_segments [120; 32; 95; 32; 121]) usize_max Token_default
    ltac:(apply Nat.leb_le; reflexivity) eq_refl eq_refl eq_refl) as Hs. exact Hs.
Qed.

(** a dictionary that makes a token of every character *)
#[export] Instance RefLindera : Lindera := {
  lindera_tokenize _ text :=
    Some (imap (λ i c, {| lt_text := [c]; byte_start := Z.of_nat i; byte_end := Z.of_nat i + 1; lt_position := Z.of_nat i;
                          lt_position_length := 1 |}) text);
  is_whitespace c := c =? 32
}.
Definition lindera_texts (stream : outcome MultiLanguageTokenStream) : option (list (list Z)) :=
  match stream with
  | Ok s => match lindera_tokens 3 s with Ok ts => Some (tok_text <$> ts) | _ => None end
  | _ => None
  end.
Example lindera_two_tokens : lindera_texts (lindera_chinese Token_default [97; 98]) = Some [[97]; [98]].
Proof. vm_compute. reflexivity. Qed.
Example lindera_blank : lindera_texts (lindera_korean Token_default [32; 32]) = Some [].
Proof. vm_compute. reflexivity. Qed.
