(* ===== verification/SnippetsWitnesses.v ===== *)
(** * SnippetsWitnesses: the rows of two target lists with snippets

    The theorems of [Snippets.v] at a table with a text column, over the segments of
    [ScanWitnesses.v]: a row with a score and a snippet, one reached by a chain of HOT updates,
    and a target list with two snippets of the same column. *)

From S2P Require Import Prelude Page Block PgUtils TokenizerConfig Query CustomScan Schema Options Rows Reader Parallel ScanExec FastFields Operator AmScan Planner Snippets PgRef QueryRef SchemaRef ScanWitnesses FastFieldWitnesses OperatorWitnesses AmScanWitnesses.

Open Scope Z_scope.

#[export] Program Instance RefSnippetOrder : SnippetOrder := { snippet_keys := elements }.
Next Obligation. done. Qed.

(** a heap with a tuple at [(0, 1)], and one at [(0, 3)] that is a HOT update of the one at [(0, 2)];
    a tuple has one column, [body] *)
Definition ref_fetch (tid : ItemPointerData) : option string :=
  if ip_posid tid =? 1 then Some "red shoes"%string else if ip_posid tid =? 3 then Some "blue shoes"%string else None.
#[export] Program Instance RefHeapFetch : HeapFetch := {
  HeapRowTuple := string;
  heap_fetch := ref_fetch;
  table_index_fetch_tuple tid :=
    ref_fetch (if ip_posid tid =? 2 then {| ip_blkid := ip_blkid tid; ip_posid := 3 |} else tid);
  get_by_name t name := if String.eqb name "body" then Some (Some t) else None
}.
Next Obligation. intros tid t. unfold ref_fetch. by destruct (Z.eqb_spec (ip_posid tid) 2) as [->|]. Qed.
(** the whole text, between the tags *)
#[export] Instance RefSnippets : TantivySnippets := {
  SnippetGenerator := Z;
  generator_create _ _ _ := Some 150;
  set_max_num_chars n _ := n;
  snippet_html _ _ text prefix postfix := (prefix +:+ text +:+ postfix)%string
}.
#[export] Instance RefExec : PgExec := {
  PgVal := Z + string;
  float4_val s := inl s;
  text_val s := inr s;
  eval_var t _ _ := Some (inr t);
  eval_const c := inr <$> text_from_datum (constvalue c) (constisnull c);
  eval_func _ _ := None;
  eval_other _ _ := None
}.

(** [paradedb.snippet(body, open, close, 100)], whose constants are at [address] and on *)
Definition snippet_call (address : Z) (open close : string) : PlanExpr :=
  X_FuncExpr 4712 [X_Var 1 1; X_Const address (text_const open); X_Const (address + 64) (text_const close);
                   X_Const (address + 128) (text_const "100")].
Definition score_call : PlanExpr := X_FuncExpr 4711 [X_Var 1 1].
Definition doc_schema : SearchIndexSchema :=
  {| sis_fields := [{| sf_id := 0; sf_name := "body";
       sf_config := TextConfig true true false true raw_tokenizer Basic NormalizeRaw None; sf_type := SText |}];
     sis_key := 0; sis_schema := [("body"%string, AddText {| text_stored := true; text_fast := None; text_indexing := None |})]; sis_lookup := None |}.
Definition doc_fields : PdbScanFields :=
  {| st_heaprelid := MkOid 600; st_indexrelid := MkOid 903; st_rti := U32 1; st_limit := None; st_sort_field := None;
     st_sort_direction := None; st_search_query_input := Input.All; st_segment_count := Usize 2;
     st_var_attname_lookup := {[ (1, 1) := "body"%string ]} |}.
Definition doc_state (scores : bool) : PdbScanState :=
  {| parallel_state := None; search_query_input := Input.All; search_reader := None; targetlist_len := 2; state_limit := None;
     state_sort_field := None; need_scores_field := scores; heap_tuple_check_count := 0; virtual_tuple_count := 0;
     invisible_tuple_count := 0 |}.
Definition asked (address : Z) (open close : string) : SnippetInfo :=
  {| si_field := "body"; start_tag := open; end_tag := close; max_num_chars := address |}.
Definition start_state (infos : list SnippetInfo) : ProjectionState :=
  {| pj_rti := 1; pj_attname_lookup := {[ (1, 1) := "body"%string ]};
     snippet_generators := list_to_map ((λ info, (info, None)) <$> infos); placeholder_targetlist := None;
     pj_const_score_node := None; const_snippet_nodes := ∅; const_values := ∅ |}.
Lemma starts scores tl infos :
  any_child (uses_scores 4711 1) (plan_expr <$> tl) = Ok scores →
  concat_ok (uses_snippets 4712 1 {[ (1, 1) := "body"%string ]}) tl = Ok infos →
  create_projections 4711 4712 doc_fields 1 tl = Ok (scores, start_state infos).
Proof. intros Hs Hi. unfold create_projections. cbn [st_var_attname_lookup st_rti doc_fields u32_val]. by rewrite Hs, Hi. Qed.
Definition body_generator (info : SnippetInfo) : Field * SnippetGenerator := (0, 150).

(** the rows at [(0, 1)] and at [(0, 2)], the second of which the scan sees at [(0, 3)] *)
Definition doc_rows : list (Z * Score * HeapRowTuple) := [(1, 7, "red shoes"%string); (2, 5, "blue shoes"%string)].
Example second_row_visible : (check_visibility with_rel_and_snap 2).1 = Some "blue shoes"%string.
Proof. vm_compute. reflexivity. Qed.
Lemma doc_rows_fields infos : Forall (λ info, si_field info = "body"%string) infos →
  Forall (λ row : Z * Score * HeapRowTuple, has_fields infos row.1.1) doc_rows.
Proof.
  intros Hb. apply Forall_true. intros row info t Hin _. rewrite Forall_forall in Hb. exists (Some t). cbn. by rewrite Hb.
Qed.

(** [SELECT score(body), snippet(body, '<i>', '</i>', 100), body] *)
Definition one_snippet : list PlanExpr := [score_call; snippet_call 1000 "<i>" "</i>"; X_Var 1 1].
Definition one_info : list SnippetInfo := [asked 1128 "<i>" "</i>"].
Lemma asks_one : asks_for 4711 4712 body_generator (doc_state true) two_segments doc_schema doc_fields 1 one_snippet
  (start_state one_info) one_info.
Proof.
  split; [discriminate|]. split; [apply starts; vm_compute; reflexivity|]. split; [vm_compute; reflexivity|]. split; [reflexivity|].
  split; [by left|]. intros info ->%list_elem_of_singleton. reflexivity.
Qed.
Lemma rows_have_scores_and_snippets_witness :
  ∃ pj, rescan_projections 4711 4712 (doc_state true) two_segments doc_schema one_snippet (start_state one_info) = Ok pj ∧
    project_rows (doc_state true) one_snippet pj doc_rows =
      Ok [[Some (inl 7); Some (inr "<i>red shoes</i>"%string); Some (inr "red shoes"%string)];
          [Some (inl 5); None; Some (inr "blue shoes"%string)]].
Proof.
  destruct (rows_have_scores_and_snippets 4711 4712 body_generator (doc_state true) two_segments doc_schema doc_fields 1 one_snippet
    (start_state one_info) one_info doc_rows asks_one) as (pj & Hpj & Hrows).
  - apply NoDup_singleton.
  - apply doc_rows_fields. by repeat constructor.
  - exists pj. split; [exact Hpj|exact Hrows].
Defined.

(** [SELECT snippet(body, '<i>', '</i>', 100), snippet(body, '<b>', '</b>', 100)]: the first is null, and the
    second may have the tags of the first *)
Definition two_snippets : list PlanExpr := [snippet_call 1000 "<i>" "</i>"; snippet_call 2000 "<b>" "</b>"].
Definition two_infos : list SnippetInfo := [asked 1128 "<i>" "</i>"; asked 2128 "<b>" "</b>"].
Lemma asks_two : asks_for 4711 4712 body_generator (doc_state false) two_segments doc_schema doc_fields 1 two_snippets
  (start_state two_infos) two_infos.
Proof.
  split; [discriminate|]. split; [apply starts; vm_compute; reflexivity|]. split; [vm_compute; reflexivity|]. split; [reflexivity|].
  split; [by right|]. intros info [->| ->%list_elem_of_singleton]%elem_of_cons; reflexivity.
Qed.
Lemma repeated_snippet_is_null_witness :
  ∃ pj out, rescan_projections 4711 4712 (doc_state false) two_segments doc_schema two_snippets (start_state two_infos) = Ok pj ∧
    project_rows (doc_state false) two_snippets pj doc_rows = Ok out ∧ length out = 2%nat ∧
    Forall (λ vals, vals !! 0%nat = Some None) out.
Proof.
  apply (repeated_snippet_is_null 4711 4712 body_generator (doc_state false) two_segments doc_schema doc_fields 1
    [] (snippet_call 1000 "<i>" "</i>") [] (snippet_call 2000 "<b>" "</b>") [] (start_state two_infos)
    two_infos 1 doc_rows asks_two).
  - by eexists _, _.
  - by eexists _, _.
  - apply doc_rows_fields. by repeat constructor.
Defined.
Definition rows_of (o : outcome ProjectionState) (tl : list PlanExpr) : option (list (list (option PgVal))) :=
  match o with Ok pj => match project_rows (doc_state false) tl pj doc_rows with Ok rows => Some rows | _ => None end | _ => None end.
Example both_snippets :
  rows_of (rescan_projections 4711 4712 (doc_state false) two_segments doc_schema two_snippets (start_state two_infos)) two_snippets
  = Some [[None; Some (inr "<i>red shoes</i>"%string)]; [None; None]].
Proof. vm_compute. reflexivity. Qed.
