(* ===== verification/BootstrapWitnesses.v ===== *)
(** * BootstrapWitnesses: making and inspecting the index of [SchemaWitnesses.v] *)

From S2P Require Import Prelude PgUtils TokenizerConfig Query Schema Options Bootstrap QueryRef SchemaRef SchemaWitnesses.

Open Scope Z_scope.

#[export] Instance RefSqlText : SqlText := {
  quote_identifier s := s;
  quote_literal s := ("'" +:+ s +:+ "'")%string;
  json_to_string j := match j with JObject [] => Some "{}"%string | _ => Some "{...}"%string end
}.
#[export] Instance RefToValue : ConfigToValue := { config_to_value c := JBool (bool_decide (column c = None)) }.

(** CREATE INDEX accepts the alias [body_raw] ([fields_made]); [index_fields] panics on it *)
Example alias_panics :
  Bootstrap.index_fields (Some opts) (index_columns heap attrs) = Panic "'body_raw' cannot be indexed as a text field".
Proof. vm_compute. reflexivity. Qed.
(** without options but the key only the key is reported, not the other columns *)
Definition reported (o : outcome (gmap string Json)) : option (list string) :=
  match o with Ok m => Some (map_to_list m).*1 | _ => None end.
Example only_key_reported :
  reported (Bootstrap.index_fields
    (Some {| text_fields := None; numeric_fields := None; boolean_fields := None; json_fields := None; range_fields := None;
             datetime_fields := None; key_field_option := Some "id"%string |}) (index_columns heap attrs))
  = Some ["id"%string].
Proof. vm_compute. reflexivity. Qed.

Example two_columns :
  format_create_bm25 "i" "t" "id" "s" (JObject [("body"%string, JNull); ("id"%string, JNull)]) (JObject []) (JObject [])
    (JObject []) (JObject []) (JObject []) "id > 3" =
  Ok "CREATE INDEX i ON s.t USING bm25 (id, body) WITH (key_field='id', text_fields='{...}', numeric_fields='{}', boolean_fields='{}', json_fields='{}', range_fields='{}', datetime_fields='{}') WHERE id > 3;"%string.
Proof. vm_compute. reflexivity. Qed.
Example no_columns :
  format_create_bm25 "i" "t" "id" "" (JObject []) (JObject []) (JObject []) (JObject []) (JObject []) (JObject []) "" =
  Ok "CREATE INDEX i ON t USING bm25 (id, ) WITH (key_field='id', text_fields='{}', numeric_fields='{}', boolean_fields='{}', json_fields='{}', range_fields='{}', datetime_fields='{}') ;"%string.
Proof. vm_compute. reflexivity. Qed.
